(* ===== verification/_CoqProject ===== *)
-Q . S2P
Prelude.v
FileHandles.v
Paths.v
World.v
MountPoints.v
Process.v
Syscalls.v
ToyWorld.v
Lddefuse.v
Crc32c.v
Cache.v
SftpBuf.v
SftpConn.v
SftpRequests.v
SftpLinks.v
SftpFiles.v
SftpSession.v
SftpTransfers.v
SftpReads.v
SftpWrites.v
SftpDirs.v
SftpOptions.v
UsfsWrap.v
Varint.v
HadoopRpc.v
HdfsWrap.v
HdfsBlocks.v
MuslSearch.v
MuslTrees.v
MuslHash.v
MuslSort.v
Smoothsort.v
MuslTime.v
FuseDaemons.v
