(* ===== verification/Prelude.v ===== *)
(** * Verification of DEFUSE

    DEFUSE runs file systems inside the processes that use them.  A library that
    is preloaded into a process (src/lddefuse) catches the file functions of the C
    library; src/libdefuse decides whether a path or a descriptor belongs to a
    mounted file system, and calls the library of that file system (the "usfs"
    functions of src/interface.h) in place of the kernel; src/usfs_wrap has such
    libraries: for the kernel itself, CRUISE, AVFS, sftp servers and HDFS.  src/fuse has
    FUSE daemons to compare with, and src/musl a C library.

    ** Method

    A C function is a Rocq function on the bytes and machine integers that it works
    on.  [outcome] has the three ways a function ends: it returns, it ends the
    process, or it does something the language leaves undefined, such as an access
    outside of an object.  A function with state is a [prog]: it takes the state
    and gives a result and the next state, or one of the other outcomes.  Integers
    are [Z], cut to their width by [wrap] and [swrap] where the code's types do it.
    Bytes are [ascii], memory and strings are lists of them.

    Code that is not part of the repository is a parameter: the kernel and the C
    library's system calls, GLib, the CRUISE and AVFS libraries, the code that
    protobuf generates, the crc32 instruction, servers.  It is a type class with
    the operations that are used; what a theorem needs of it is a class of laws or
    a hypothesis, and a small instance shows that the laws can hold.  The laws state
    what the documentation of the calls says, failures and short counts included; where
    a theorem says more about a system that refuses nothing, that is a hypothesis of its
    own ([ReadyLaws] in Syscalls.v, [healthy] in UsfsWrap.v).

    ** Files

    - Prelude.v: outcomes and programs with their proof rules, machine integers,
      arrays, bytes in both byte orders, the string functions of the C library.
    - FileHandles.v: src/libdefuse/file_handles.c, the table from descriptors to
      reference-counted handles ([insert_file_handle], [remove_file_handle],
      [duplicate_file_handle], [find_file_handle]), as an array of pointers into a
      heap.  The table refines a finite map while memory lasts and the reference
      counts, which are ints, do not overflow ([table_refines_map]); the counts are
      exact as long as no duplicate replaces an open descriptor, which leaks its
      object ([table_counts_exact]).  The array of descriptors in use is kept by
      insertions, and by a removal only when the last entry of the array equals its
      own index ([used_array_faithful]); a single close can corrupt it
      ([unlink_corrupts_used_array]).
    - Paths.v: src/libdefuse/util.c, [resolve_path] on its buffer, against a
      normal form of lists of components ([resolve_path_normalizes]).
    - World.v: the system and the file system libraries as classes.
    - MountPoints.v: src/libdefuse/mount_points.c, the table of mounts: reading
      /proc/mounts gives back the mounts that were printed into it
      ([load_mounts_roundtrip]), and the lookup of paths ([find_and_strip_first]).
    - Process.v: src/libdefuse/shared_space.c and the functions of file_handles.c
      and mount_points.c that load the tables: handles survive an exec when the array
      of descriptors in use is intact, there are at most seven mounts and the shared
      file gets mapped ([exec_hands_over_handles]).
    - Syscalls.v: src/libdefuse/{open,close,read,write,seek,stat,sync,truncate,
      unlink,access,readlink}.c: a descriptor behaves as a file with an offset,
      also when locks are refused and transfers are short or fail
      ([descriptor_refines_file]); open keeps what it takes or gives it back, but for
      the kernel's descriptor when the table refuses it ([open_keeps_or_returns],
      [open_close_balanced]).
    - ToyWorld.v: an instance of the classes of World.v and Syscalls.v, to which the
      theorems above are applied.
    - Lddefuse.v: src/lddefuse: every call goes to the mounted file system or to the
      real function ([path_dispatch], [descriptor_dispatch]); the exec family.
    - Crc32c.v: src/usfs_wrap/hdfs/crc32c.c: the table-driven and the hardware
      version compute the shift register ([crc32c_any_processor]), which detects
      bursts of up to 32 bits.
    - Cache.v: src/usfs_wrap/sshfs/cache.c: the cache refines a map with expiry times
      ([cache_refines_expiry_map]).
    - SftpBuf.v: the buffers, encoders and decoders of
      src/usfs_wrap/sshfs/sshfs_wrap.c: round trip, and safety for any reply.
    - SftpConn.v: the connection of sshfs_wrap.c: messages in both directions over
      streams that move them in pieces ([sftp_messages_cross]), the handshake
      ([init_reply_found]), starting ssh and closing.
    - SftpRequests.v: the request table of sshfs_wrap.c.  Its pieces between two
      changes of the lock are programs; they compose to the functions of the source,
      and they are the steps of threads in any order, with requests that are given up
      and requests that are dropped when they cannot be sent ([requests_memory_safe],
      [requests_accounted], [connection_loss_wakes], [connection_loss_deadlocks]).
      Connections ([TransportSafe]) and end functions ([CallbacksSafe]) are
      interfaces.
    - SftpLinks.v: the symbolic links that sshfs_wrap.c rewrites ([symlink_target_kept]).
    - SftpFiles.v: the operations of sshfs_wrap.c on files, links and attributes, and
      the usfs functions.
    - SftpSession.v: the connections of SftpConn.v and the end functions of SftpFiles.v
      meet the interfaces of SftpRequests.v: connecting is safe whatever the server
      sends ([connecting_is_safe]), and the end functions return whenever their data is
      there.
    - SftpTransfers.v, SftpReads.v, SftpWrites.v: reading and writing over a connection:
      whatever the order of the answers, a read returns the bytes of the file
      ([sshfs_read_returns_file]), and writes reach it or are reported by the next flush
      ([writes_reach_file]).
    - SftpDirs.v: listing directories with a window of requests
      ([readdir_lists_all]).
    - SftpOptions.v: the options of sshfs_wrap.c, the files that map users
      ([id_map_file_read]), the command line of ssh and [usfs_init]
      ([mount_starts_ssh]).
    - UsfsWrap.v: src/usfs_wrap/{usfs_wrap,cruise_wrap,avfs_wrap}.c: the libraries
      have the behaviour on files that Syscalls.v relies on, over calls that may fail
      or transfer less than asked for ([libraries_serve_files]).
    - Varint.v: src/usfs_wrap/hdfs/{varint.c,minmax.h,roundup.h}.
    - HadoopRpc.v: src/usfs_wrap/hdfs/hadooprpc.c: calls to the name node and to data
      nodes, blocks as packets in both directions ([send_packets_delivers],
      [receive_packets_delivers]); a write that ends inside the checksum chunk it starts
      in goes wrong.
    - HdfsWrap.v: src/usfs_wrap/hdfs/hdfs_wrap.c, all operations; what the interface
      cannot do, whatever the servers answer ([hdfs_write_never_succeeds],
      [hdfs_truncate_changes_nothing]).
    - HdfsBlocks.v: the two together over sockets: data of any length is cut into
      blocks, the last block of the file first, and reaches the data nodes
      ([do_write_fills_blocks]).
    - MuslSearch.v, MuslTrees.v: src/musl/src/search/{tsearch,tfind,tdelete,twalk,
      tdestroy}.c, balanced trees of nodes in memory, as code and as sorted lists of
      keys ([tree_is_sorted_set]).
    - MuslHash.v: src/musl/src/search/hsearch.c, a table with open addressing that
      grows, as a map ([hash_table_refines_map]).
    - MuslSort.v, Smoothsort.v: src/musl/src/stdlib/qsort.c, the code on the bytes of the
      array, and the heaps of Leonardo sizes that it builds and takes apart
      ([qsort_sorts]).
    - MuslTime.v: src/musl/src/time/{__secs_to_tm,__tm_to_secs,__year_to_secs,
      __month_to_secs,timegm,gmtime_r}.c, against the Gregorian calendar
      ([gmtime_timegm_inverse]).
    - FuseDaemons.v: src/fuse/fusexmp_fh.c and parts of avfsd.c and fuse_cruise.c: the
      daemon answers as the library of usfs_wrap.c does, with exceptions that are
      named ([daemons_agree_with_libraries]); reading directories in pieces ([xmp_readdir_lists_all]).

    ** Bounds and fuel

    Loops that are not structural have a bound as an argument, and running out of it
    is [Undef], so that a theorem that a function returns shows that the bound is
    enough.  Where the code fixes the number of rounds the bound is computed from
    the data: the length of a buffer for the loops of Paths.v and MountPoints.v, ten
    groups of seven bits in Varint.v, the length of the buffers for the packets and
    the blocks that are sent.  Where a server decides it, it is a parameter: the
    number of packets of a block in [hadoop_rpc_receive_packets], how often a file is
    asked for until it is complete in [hadoop_fuse_complete], how much output ssh has
    before the first message and how many messages arrive while a thread waits (the
    "patience" of SftpConn.v and SftpRequests.v; [connecting_is_safe] shows that any
    number above the bytes that the peers send is enough).  Truncating and writing
    in hdfs_wrap.c call each other; a depth of 2 is what consistent answers of the
    name node need.  The sizes of the tables (1024 descriptors, 16 mounts), of the
    path buffers (4096) and of pages are those of the code.  In the C library the bounds
    are sizes of the data: the height of a tree, which is below the constant MAXH of
    tsearch.h for every tree that fits the memory; the size of a hash table, which always
    has a free place; the number of elements for the two passes of [qsort], which is
    proved for up to 2^44 elements because the code shifts a word by its width beyond
    about 2 * 10^13.  Listing a directory in FuseDaemons.v takes as many rounds as there
    are entries, and one.

    ** Errors that the models show

    Several theorems state what the code does where that is not what it means to do:
    the lookup of mounts ignores where components end, the saved image of the
    handles can overrun its last page, a failed exec with open files crashes, writing
    to HDFS through the library never succeeds, a connection to an sftp server that
    breaks during a transfer blocks the process.  Their doc comments say so.

    ** Not modelled

    - src/musl: a C library, of which the functions named above are modelled as
      examples of code that programs under DEFUSE run; the rest is third-party code.  Its
      src/defuse is an older state of src/libdefuse and needs a header that the
      repository does not have.  The null pointers that [tsearch] and [tdelete] accept
      for the root are not modelled.
    - src/defuse_module and src/defuse_wrap_module: kernel modules; they are calls
      into the VFS of Linux, whose behaviour would be all assumption.
    - src/fuse: fusexmp.c, the callbacks behind HAVE_ macros, and the callbacks of avfsd.c
      and fuse_cruise.c that only pass names on; [fuse_main] and the kernel's side.
    - src/usfs_wrap/sshfs/sshfs_wrap.c: the process in which ssh is started, and the
      text of the help.
    - [hadoop_fuse_readdir] of hdfs_wrap.c, which nothing calls.
    - src/test, src/data, tracing in libdefuse_debug.h, build files.
    - Threads outside of SftpRequests.v: functions that hold a lock are one step; the
      code without locks is taken to run in one thread. *)

From Stdlib Require Import ZArith Lia Ascii String.
From stdpp Require Import base list gmap strings.

(** ** Outcomes of C code

    A C function of the library either returns ([Ret]), ends the process with
    [exit] ([Exit]), or performs an access the language gives no meaning to:
    a null or dangling pointer, an index outside an array ([Undef]). *)

Inductive outcome (A : Type) : Type :=
| Ret (a : A)
| Exit
| Undef.
Arguments Ret {A} a.
Arguments Exit {A}.
Arguments Undef {A}.

#[export] Instance outcome_ret : MRet outcome := @Ret.
#[export] Instance outcome_bind : MBind outcome := fun A B f o =>
  match o with Ret a => f a | Exit => Exit | Undef => Undef end.
#[export] Instance outcome_fmap : FMap outcome := fun A B f o =>
  match o with Ret a => Ret (f a) | Exit => Exit | Undef => Undef end.

#[export] Instance outcome_eq_dec `{EqDecision A} : EqDecision (outcome A).
Proof. solve_decision. Defined.

Definition is_ret {A} (o : outcome A) : bool :=
  match o with Ret _ => true | _ => false end.

(** Reading a partial value: the pointer is valid or the access is undefined. *)
Definition deref {A} (o : option A) : outcome A :=
  match o with Some a => Ret a | None => Undef end.

#[global] Arguments bool_decide _ {_} : simpl never.
#[global] Arguments Ascii.eqb : simpl never.

Create HintDb defuse.
Declare Scope defuse_scope.
Delimit Scope defuse_scope with defuse.
Open Scope defuse_scope.

Notation "'let!' x ':=' o 'in' k" := (mbind (M := outcome) (fun x => k) o)
  (at level 10, x pattern, o at level 100, k at level 200) : defuse_scope.
Notation "'do!' o ';' k" := (mbind (M := outcome) (fun _ => k) o)
  (at level 10, o at level 100, k at level 200) : defuse_scope.

(** ** Stateful C code

    A function that reads and changes a state of type [S]: process globals,
    open descriptors, the heap. *)

Definition prog (S A : Type) : Type := S -> outcome (A * S).

Definition pret {S A} (a : A) : prog S A := fun s => Ret (a, s).
Definition pbind {S A B} (e : prog S A) (k : A -> prog S B) : prog S B := fun s =>
  match e s with Ret (a, s) => k a s | Exit => Exit | Undef => Undef end.
Definition pget {S} : prog S S := fun s => Ret (s, s).
Definition pmodify {S} (f : S -> S) : prog S unit := fun s => Ret (tt, f s).
Definition plift {S A} (o : outcome A) : prog S A := fun s =>
  match o with Ret a => Ret (a, s) | Exit => Exit | Undef => Undef end.
(** A call of a function that always returns. *)
Definition pcall {S A} (f : S -> A * S) : prog S A := fun s => Ret (f s).
Definition pexit {S A} : prog S A := fun _ => Exit.

Notation "'let*' x ':=' e 'in' k" := (pbind e (fun x => k))
  (at level 10, x pattern, e at level 100, k at level 200) : defuse_scope.
Notation "'do*' e ';' k" := (pbind e (fun _ => k))
  (at level 10, e at level 100, k at level 200) : defuse_scope.

(** A program on a part of the state. *)
Definition pzoom {S T A} (get : T -> S) (set : S -> T -> T) (e : prog S A) : prog T A := fun t =>
  match e (get t) with Ret (a, s) => Ret (a, set s t) | Exit => Exit | Undef => Undef end.

(** Total correctness: the program returns, with [Q]; under [X] it may also end
    the process.  It never reaches undefined behaviour. *)
Definition wp {S A} (X : Prop) (e : prog S A) (s : S) (Q : A -> S -> Prop) : Prop :=
  match e s with Ret (a, s) => Q a s | Exit => X | Undef => False end.

Section Wp.
Context {S : Type} (X : Prop).

Lemma wp_ret {A} (a : A) s (Q : A -> S -> Prop) : Q a s -> wp X (pret a) s Q.
Proof. done. Qed.
Lemma wp_bind {A B} (e : prog S A) (k : A -> prog S B) s Q :
  wp X e s (fun a s => wp X (k a) s Q) -> wp X (pbind e k) s Q.
Proof. unfold wp, pbind. destruct (e s) as [[a s']| |]; auto. Qed.
Lemma wp_mono {A} (e : prog S A) s (Q Q' : A -> S -> Prop) :
  wp X e s Q -> (forall a s, Q a s -> Q' a s) -> wp X e s Q'.
Proof. unfold wp. destruct (e s) as [[a s']| |]; auto. Qed.
Lemma wp_modify f s (Q : unit -> S -> Prop) : Q tt (f s) -> wp X (pmodify f) s Q.
Proof. done. Qed.
Lemma wp_get s (Q : S -> S -> Prop) : Q s s -> wp X pget s Q.
Proof. done. Qed.
Lemma wp_call {A} (f : S -> A * S) s (Q : A -> S -> Prop) :
  Q (f s).1 (f s).2 -> wp X (pcall f) s Q.
Proof. unfold wp, pcall. by destruct (f s). Qed.
Lemma wp_lift {A} (o : outcome A) s (Q : A -> S -> Prop) a :
  o = Ret a -> Q a s -> wp X (plift o) s Q.
Proof. by intros ->. Qed.
Lemma wp_eq {A} (e : prog S A) s a s' (Q : A -> S -> Prop) :
  e s = Ret (a, s') -> Q a s' -> wp X e s Q.
Proof. unfold wp. by intros ->. Qed.
Lemma wp_if {A} (b : bool) (e1 e2 : prog S A) s Q :
  (b = true -> wp X e1 s Q) -> (b = false -> wp X e2 s Q) -> wp X (if b then e1 else e2) s Q.
Proof. destruct b; auto. Qed.
End Wp.

Lemma wp_returns {S A} (e : prog S A) s (Q : A -> S -> Prop) :
  wp False e s Q -> exists a s', e s = Ret (a, s') /\ Q a s'.
Proof. unfold wp. destruct (e s) as [[a s']| |]; [eauto|done|done]. Qed.
Lemma wp_elim {S A} X (e : prog S A) s (Q : A -> S -> Prop) a s' :
  wp X e s Q -> e s = Ret (a, s') -> Q a s'.
Proof. unfold wp. intros H E. by rewrite E in H. Qed.

Lemma wp_never {S A} X (e : prog S A) s (Q : A -> S -> Prop) : wp False e s Q -> wp X e s Q.
Proof. unfold wp. by destruct (e s) as [[a s']| |]. Qed.

Lemma pbind_ret {S A B} (e : prog S A) (k : A -> prog S B) s a s' :
  e s = Ret (a, s') -> pbind e k s = k a s'.
Proof. unfold pbind. by intros ->. Qed.
Lemma pbind_inv {S A B} (e : prog S A) (k : A -> prog S B) s r :
  pbind e k s = Ret r -> exists a s', e s = Ret (a, s') /\ k a s' = Ret r.
Proof. unfold pbind. destruct (e s) as [[a s']| |]; intros; try discriminate; eauto. Qed.

(** One step of a program under [wp]. *)
Ltac wp_step :=
  lazymatch goal with
  | |- wp _ (pbind _ _) _ _ => apply wp_bind
  | |- wp _ (pret _) _ _ => apply wp_ret
  | |- wp _ pget _ _ => apply wp_get
  | |- wp _ (pmodify _) _ _ => apply wp_modify
  | |- wp _ (pcall _) _ _ => apply wp_call
  end; cbv beta.

(** ** Tactics *)

(** Case analysis on the matches and conditionals of the goal or a hypothesis. *)
Ltac split_goal :=
  match goal with
  | |- context [match ?x with _ => _ end] =>
      lazymatch x with context [match _ with _ => _ end] => fail | _ => idtac end;
      let E := fresh "E" in destruct x eqn:E
  end.
Ltac split_in H :=
  match type of H with
  | context [match ?x with _ => _ end] =>
      lazymatch x with context [match _ with _ => _ end] => fail | _ => idtac end;
      let E := fresh "E" in destruct x eqn:E
  end.

(** Boolean comparisons become the propositions they decide. *)
Ltac bools :=
  repeat match goal with
  | H : (_ && _)%bool = true |- _ => apply andb_true_iff in H; destruct H
  | H : (_ || _)%bool = false |- _ => apply orb_false_iff in H; destruct H
  | H : negb _ = true |- _ => apply negb_true_iff in H
  | H : negb _ = false |- _ => apply negb_false_iff in H
  | H : (_ <? _)%Z = true |- _ => apply Z.ltb_lt in H
  | H : (_ <? _)%Z = false |- _ => apply Z.ltb_ge in H
  | H : (_ <=? _)%Z = true |- _ => apply Z.leb_le in H
  | H : (_ <=? _)%Z = false |- _ => apply Z.leb_gt in H
  | H : (_ =? _)%Z = true |- _ => apply Z.eqb_eq in H
  | H : (_ =? _)%Z = false |- _ => apply Z.eqb_neq in H
  | H : (_ >=? _)%Z = true |- _ => apply Z.geb_le in H
  | H : (_ >=? _)%Z = false |- _ => rewrite Z.geb_leb in H
  | H : (_ >? _)%Z = true |- _ => apply Z.gtb_lt in H
  | H : (_ >? _)%Z = false |- _ => rewrite Z.gtb_ltb in H
  | H : (_ <? _)%nat = true |- _ => apply Nat.ltb_lt in H
  | H : (_ <? _)%nat = false |- _ => apply Nat.ltb_ge in H
  | H : (_ <=? _)%nat = true |- _ => apply Nat.leb_le in H
  | H : (_ <=? _)%nat = false |- _ => apply Nat.leb_gt in H
  | H : (_ =? _)%nat = true |- _ => apply Nat.eqb_eq in H
  | H : (_ =? _)%nat = false |- _ => apply Nat.eqb_neq in H
  | H : bool_decide _ = true |- _ => apply bool_decide_eq_true in H
  | H : bool_decide _ = false |- _ => apply bool_decide_eq_false in H
  end.

(** Run the outcome monad in a hypothesis [H : (let! x := o in k) = Ret v]. *)
Ltac run_in H :=
  repeat (unfold mbind, outcome_bind, mret, outcome_ret, deref in H;
          cbn beta iota in H;
          match type of H with
          | context [match ?x with Ret _ => _ | Exit => _ | Undef => _ end] =>
              let E := fresh "E" in destruct x eqn:E; try discriminate H
          end).

(** ** Machine integers *)

Section Machine.
Local Open Scope Z_scope.

(** Conversion to an unsigned type of [w] bits. *)
Definition wrap (w : Z) (z : Z) : Z := z mod 2 ^ w.
(** Conversion to a two's complement type of [w] bits. *)
Definition swrap (w : Z) (z : Z) : Z :=
  (z + 2 ^ (w - 1)) mod 2 ^ w - 2 ^ (w - 1).

Lemma wrap_range w z : 0 <= w -> 0 <= wrap w z < 2 ^ w.
Proof. intros; apply Z.mod_pos_bound, Z.pow_pos_nonneg; lia. Qed.
Lemma wrap_small w z : 0 <= z < 2 ^ w -> wrap w z = z.
Proof. apply Z.mod_small. Qed.
Lemma swrap_range w z : 0 < w -> - 2 ^ (w - 1) <= swrap w z < 2 ^ (w - 1).
Proof.
  intros. unfold swrap.
  pose proof (Z.mod_pos_bound (z + 2 ^ (w - 1)) (2 ^ w) ltac:(apply Z.pow_pos_nonneg; lia)).
  assert (2 ^ w = 2 * 2 ^ (w - 1)) by (rewrite <- Z.pow_succ_r by lia; f_equal; lia). lia.
Qed.
Lemma swrap_small w z : 0 < w -> - 2 ^ (w - 1) <= z < 2 ^ (w - 1) -> swrap w z = z.
Proof.
  intros. unfold swrap.
  assert (2 ^ w = 2 * 2 ^ (w - 1)) by (rewrite <- Z.pow_succ_r by lia; f_equal; lia).
  rewrite Z.mod_small; lia.
Qed.
End Machine.

Abbreviation u8 := (wrap 8).
Abbreviation u16 := (wrap 16).
Abbreviation u32 := (wrap 32).
Abbreviation u64 := (wrap 64).
Abbreviation i32 := (swrap 32).
Abbreviation i64 := (swrap 64).

(** ** Bytes, and integers as bytes *)

Section Bytes.
Local Open Scope Z_scope.

Definition Z_of_byte (b : ascii) : Z := Z.of_N (N_of_ascii b).
Definition byte_of_Z (z : Z) : ascii := ascii_of_N (Z.to_N (z mod 256)).

Lemma Z_of_byte_range b : 0 <= Z_of_byte b < 256.
Proof. unfold Z_of_byte. pose proof (N_ascii_bounded b). lia. Qed.
Lemma Z_of_byte_of_Z z : Z_of_byte (byte_of_Z z) = z mod 256.
Proof.
  unfold Z_of_byte, byte_of_Z. pose proof (Z.mod_pos_bound z 256 eq_refl).
  rewrite N_ascii_embedding by lia. lia.
Qed.
Lemma byte_of_Z_of_byte b : byte_of_Z (Z_of_byte b) = b.
Proof.
  unfold byte_of_Z. pose proof (Z_of_byte_range b).
  rewrite Z.mod_small by lia. unfold Z_of_byte.
  rewrite N2Z.id. apply ascii_N_embedding.
Qed.

Definition nul : ascii := Ascii.zero.

(** [n] bytes of [z], least significant first. *)
Fixpoint le_bytes (n : nat) (z : Z) : list ascii :=
  match n with
  | O => []
  | S n => byte_of_Z z :: le_bytes n (z / 256)
  end.
Fixpoint le_val (l : list ascii) : Z :=
  match l with
  | [] => 0
  | b :: l => Z_of_byte b + 256 * le_val l
  end.
(** Network order. *)
Definition be_bytes (n : nat) (z : Z) : list ascii := rev (le_bytes n z).
Definition be_val (l : list ascii) : Z := le_val (rev l).

Lemma length_le_bytes n z : length (le_bytes n z) = n.
Proof. revert z; induction n; intros; simpl; auto. Qed.
Lemma length_be_bytes n z : length (be_bytes n z) = n.
Proof. unfold be_bytes. rewrite length_rev. apply length_le_bytes. Qed.

Lemma le_val_bytes n z : le_val (le_bytes n z) = z mod 2 ^ (8 * Z.of_nat n).
Proof.
  revert z; induction n; intros z.
  - simpl. rewrite Z.mod_1_r. reflexivity.
  - cbn [le_bytes le_val]. rewrite IHn, Z_of_byte_of_Z.
    replace (8 * Z.of_nat (S n)) with (8 + 8 * Z.of_nat n) by lia.
    rewrite Z.pow_add_r by lia. change (2 ^ 8) with 256.
    rewrite Z.rem_mul_r by (try apply Z.pow_pos_nonneg; lia). lia.
Qed.
Lemma be_val_bytes n z : be_val (be_bytes n z) = z mod 2 ^ (8 * Z.of_nat n).
Proof. unfold be_val, be_bytes. rewrite rev_involutive. apply le_val_bytes. Qed.

Lemma le_val_range l : 0 <= le_val l < 2 ^ (8 * Z.of_nat (length l)).
Proof.
  induction l as [|b l IH]; [simpl; lia|]. cbn [le_val length].
  pose proof (Z_of_byte_range b).
  replace (8 * Z.of_nat (S (length l))) with (8 + 8 * Z.of_nat (length l)) by lia.
  rewrite Z.pow_add_r by lia. change (2 ^ 8) with 256. lia.
Qed.
Lemma be_val_range l : 0 <= be_val l < 2 ^ (8 * Z.of_nat (length l)).
Proof. unfold be_val. rewrite <- length_rev. apply le_val_range. Qed.

Lemma le_bytes_val l : le_bytes (length l) (le_val l) = l.
Proof.
  induction l as [|b l IH]; [done|]. cbn [le_val length le_bytes].
  pose proof (Z_of_byte_range b). f_equal.
  - rewrite <- (byte_of_Z_of_byte b) at 2. unfold byte_of_Z. f_equal. f_equal.
    rewrite Z.mul_comm, Z_mod_plus_full. reflexivity.
  - rewrite Z.mul_comm, Z.div_add by lia. rewrite Z.div_small by lia. exact IH.
Qed.
End Bytes.

(** ** Arrays *)

Section Arrays.
Context {A : Type}.
Implicit Types (l : list A) (i : Z).

Definition arr_get l i : outcome A :=
  if (0 <=? i)%Z then deref (l !! Z.to_nat i) else Undef.
Definition arr_set l i (a : A) : outcome (list A) :=
  if ((0 <=? i) && (i <? Z.of_nat (length l)))%Z
  then Ret (<[Z.to_nat i := a]> l) else Undef.

Lemma arr_get_Some l i a :
  (0 <= i)%Z -> l !! Z.to_nat i = Some a -> arr_get l i = Ret a.
Proof.
  intros. unfold arr_get. destruct (Z.leb_spec 0 i); [|lia].
  by rewrite H0.
Qed.
Lemma arr_get_inv l i a :
  arr_get l i = Ret a -> (0 <= i)%Z /\ l !! Z.to_nat i = Some a.
Proof.
  unfold arr_get, deref. intros. repeat split_in H; try discriminate.
  bools. injection H as ->. auto.
Qed.
Lemma arr_get_in l i :
  (0 <= i < Z.of_nat (length l))%Z -> exists a, arr_get l i = Ret a /\ l !! Z.to_nat i = Some a.
Proof.
  intros. destruct (lookup_lt_is_Some_2 l (Z.to_nat i)) as [a Ha]; [lia|].
  exists a. split; [apply arr_get_Some; auto; lia|done].
Qed.
Lemma arr_set_in l i a :
  (0 <= i < Z.of_nat (length l))%Z -> arr_set l i a = Ret (<[Z.to_nat i := a]> l).
Proof.
  intros. unfold arr_set.
  destruct (Z.leb_spec 0 i), (Z.ltb_spec i (Z.of_nat (length l))); simpl; auto; lia.
Qed.
End Arrays.

(** Number of entries of an array that satisfy a test. *)
Section Count.
Context {A : Type} (f : A -> bool).

Fixpoint count (l : list A) : Z :=
  match l with
  | [] => 0
  | a :: l => Z.b2z (f a) + count l
  end.

Lemma count_insert l i x y :
  l !! i = Some y -> count (<[i := x]> l) = (count l - Z.b2z (f y) + Z.b2z (f x))%Z.
Proof.
  revert i; induction l as [|a l IH]; intros [|i] H; simpl in *; try discriminate.
  - injection H as ->. lia.
  - rewrite (IH _ H). lia.
Qed.
Lemma count_range l : (0 <= count l <= Z.of_nat (length l))%Z.
Proof. induction l as [|a l IH]; simpl; [lia|]. destruct (f a); simpl; lia. Qed.
Lemma count_pos l i a : l !! i = Some a -> f a = true -> (1 <= count l)%Z.
Proof.
  revert i; induction l as [|b l IH]; intros [|i] H Hf; simpl in *; try discriminate.
  - injection H as ->. rewrite Hf. pose proof (count_range l). simpl. lia.
  - pose proof (IH _ H Hf). destruct (f b); simpl; lia.
Qed.
Lemma count_lt l i a :
  l !! i = Some a -> f a = false -> (count l < Z.of_nat (length l))%Z.
Proof.
  revert i; induction l as [|b l IH]; intros [|i] H Hf; simpl in *; try discriminate.
  - injection H as ->. rewrite Hf. pose proof (count_range l). simpl. lia.
  - pose proof (IH _ H Hf). destruct (f b); simpl; lia.
Qed.
Lemma count_0 l : (forall a, a ∈ l -> f a = false) -> count l = 0%Z.
Proof.
  induction l as [|a l IH]; intros H; simpl; [done|].
  rewrite H, IH by set_solver. done.
Qed.
End Count.

(** ** C strings

    A [char] buffer is the list of its bytes; the string it holds is what
    precedes the first NUL.  The functions are those of <string.h>; an access
    outside the buffer is [Undef]. *)

Definition lit (s : string) : list ascii := list_ascii_of_string s.

Section CStrings.
Implicit Types (b s p : list ascii).

Fixpoint cstr b : list ascii :=
  match b with
  | [] => []
  | c :: b => if Ascii.eqb c nul then [] else c :: cstr b
  end.

Definition strlen b : outcome nat :=
  if existsb (Ascii.eqb nul) b then Ret (length (cstr b)) else Undef.

Fixpoint prefixb p s : bool :=
  match p, s with
  | [], _ => true
  | _, [] => false
  | a :: p, c :: s => Ascii.eqb a c && prefixb p s
  end.

Fixpoint strstr s p : option nat :=
  if prefixb p s then Some 0%nat
  else match s with
       | [] => None
       | _ :: s => S <$> strstr s p
       end.

Definition memmove b (dst src n : nat) : outcome (list ascii) :=
  if ((dst + n <=? length b) && (src + n <=? length b))%nat
  then Ret (take dst b ++ take n (drop src b) ++ drop (dst + n) b)
  else Undef.

(** [strncpy (b + off) s n]: copies at most [n] bytes of [s] and fills the
    rest of the [n] bytes with NUL. *)
Definition strncpy b (off : nat) s (n : nat) : outcome (list ascii) :=
  if (off + n <=? length b)%nat
  then Ret (take off b ++ take n (s ++ replicate n nul) ++ drop (off + n) b)
  else Undef.

(** The string in a buffer; without a NUL its reader leaves the buffer. *)
(** <ctype.h> [isspace], [isdigit] *)
Definition isspace (c : ascii) : bool :=
  let n := nat_of_ascii c in ((9 <=? n) && (n <=? 13) || (n =? 32))%nat.

Definition isdigit (c : ascii) : bool :=
  let n := nat_of_ascii c in ((48 <=? n) && (n <=? 57))%nat.

(** The longest prefix in [f], and the rest. *)
Fixpoint span (f : ascii -> bool) (s : list ascii) : list ascii * list ascii :=
  match s with
  | c :: s' => if f c then let (a, b) := span f s' in (c :: a, b) else ([], s)
  | [] => ([], [])
  end.

Definition cstring b : outcome (list ascii) :=
  if existsb (Ascii.eqb nul) b then Ret (cstr b) else Undef.

(** The bytes [s] written at offset [off]. *)
Definition splice b (off : nat) s : list ascii := take off b ++ s ++ drop (off + length s) b.

(** A string free of NUL. *)
Definition nonul s : Prop := nul ∉ s.

Lemma cstr_app_nul s b : nonul s -> cstr (s ++ nul :: b) = s.
Proof.
  unfold nonul. induction s as [|c s IH]; intros H; simpl.
  - done.
  - destruct (Ascii.eqb_spec c nul) as [->|]; [set_solver|].
    f_equal. apply IH. set_solver.
Qed.
Lemma strlen_app_nul s b : nonul s -> strlen (s ++ nul :: b) = Ret (length s).
Proof.
  intros. unfold strlen. rewrite existsb_app. simpl. rewrite orb_true_r.
  by rewrite cstr_app_nul.
Qed.
Lemma cstring_app_nul s b : nonul s -> cstring (s ++ nul :: b) = Ret s.
Proof.
  intros. unfold cstring. rewrite existsb_app. simpl. rewrite orb_true_r.
  by rewrite cstr_app_nul.
Qed.
Lemma cstr_nonul b : nonul (cstr b).
Proof.
  unfold nonul. induction b as [|c b IH]; simpl; [set_solver|].
  destruct (Ascii.eqb_spec c nul); set_solver.
Qed.

Lemma prefixb_spec p s : prefixb p s = true <-> exists k, s = p ++ k.
Proof.
  revert s; induction p as [|a p IH]; intros s; simpl; [split; eauto|].
  destruct s as [|c s]; simpl.
  - split; [done|]. intros [? ?]; discriminate.
  - rewrite andb_true_iff, IH, Ascii.eqb_eq. split.
    + intros [-> [k ->]]. eauto.
    + intros [k [= -> ->]]. eauto.
Qed.
Lemma prefixb_app p s : prefixb p (p ++ s) = true.
Proof. apply prefixb_spec; eauto. Qed.

(** The first occurrence: what precedes it, and that none is earlier. *)
Lemma strstr_Some s p i :
  strstr s p = Some i ->
  s = take i s ++ p ++ drop (i + length p) s /\ i + length p <= length s /\
  forall j, j < i -> prefixb p (drop j s) = false.
Proof.
  revert i; induction s as [|c s IH]; intros i H; simpl in H.
  - destruct (prefixb p []) eqn:E; [|discriminate].
    apply prefixb_spec in E as [k E]. symmetry in E. apply app_eq_nil in E as [-> ->].
    injection H as <-. simpl. repeat split; lia.
  - destruct (prefixb p (c :: s)) eqn:E.
    + injection H as <-. apply prefixb_spec in E as [k E].
      split; [|split; [|lia]].
      * simpl take. rewrite Nat.add_0_l. rewrite E, drop_app_length. done.
      * rewrite E, length_app. lia.
    + destruct (strstr s p) as [j|] eqn:E'; [|discriminate].
      injection H as <-. destruct (IH j eq_refl) as (H1 & H2 & H3).
      split; [|split].
      * simpl. f_equal. exact H1.
      * simpl. lia.
      * intros [|k] Hk; [exact E|]. simpl. apply H3. lia.
Qed.
Lemma strstr_None s p j : strstr s p = None -> prefixb p (drop j s) = false.
Proof.
  revert j; induction s as [|c s IH]; intros j H; simpl in H.
  - destruct (prefixb p []) eqn:E; [discriminate|]. by rewrite drop_nil.
  - destruct (prefixb p (c :: s)) eqn:E; [discriminate|].
    destruct (strstr s p); [discriminate|]. destruct j; [exact E|]. simpl. auto.
Qed.
Lemma strstr_0 s p : strstr s p = Some 0%nat <-> prefixb p s = true.
Proof.
  split; intros H.
  - destruct (strstr_Some _ _ _ H) as (E & _ & _).
    rewrite take_0 in E. apply prefixb_spec. eauto.
  - destruct s; simpl; by rewrite H.
Qed.
Lemma strstr_app s p k : is_Some (strstr (s ++ p ++ k) p).
Proof.
  induction s as [|c s IH]; simpl.
  - assert (strstr (p ++ k) p = Some 0%nat) as -> by apply strstr_0, prefixb_app. eauto.
  - split_goal; eauto. destruct IH as [? ->]. simpl. eauto.
Qed.
End CStrings.

(** ** Error numbers of <errno.h> *)

Definition EPERM : Z := 1.
Definition ENOENT : Z := 2.
Definition EIO : Z := 5.
Definition ENXIO : Z := 6.
Definition EBADF : Z := 9.
Definition EAGAIN : Z := 11.
Definition ENOMEM : Z := 12.
Definition EACCES : Z := 13.
Definition EEXIST : Z := 17.
Definition EINVAL : Z := 22.
Definition ENOSPC : Z := 28.
Definition ENOSYS : Z := 38.
Definition EBADR : Z := 53.
Definition EPROTO : Z := 71.
Definition EBADMSG : Z := 74.
Definition EPROTONOSUPPORT : Z := 93.
Definition ENOTSUP : Z := 95.
Definition ESTALE : Z := 116.

#[export] Hint Resolve prefixb_app cstring_app_nul strlen_app_nul cstr_app_nul cstr_nonul : defuse.
#[export] Hint Rewrite length_le_bytes length_be_bytes : defuse.
