(* ===== verification/FileHandles.v ===== *)
(** * The file handle table (src/libdefuse/file_handles.c)

    The process keeps one table from file descriptors to reference-counted
    handle objects.  The table is an array of pointers into the C heap; two
    descriptors made by [duplicate_file_handle] point to the same object.
    Beside the pointers the table keeps the descriptors in use in an array
    ([used_file_descriptors]), with the position of each one in [file_meta],
    so that the exec code can enumerate them.

    The file holds the table's operations, its invariant, an abstract
    specification (a finite map from descriptors to handles) and the proof
    that the table implements it. *)

From Stdlib Require Import ZArith Lia.
From stdpp Require Import base list gmap.
From S2P Require Import Prelude.

Local Open Scope Z_scope.

Definition MAX_FILES : Z := 1024.

(** ** Data *)

(** [mount] is the pointer to the mount point, as its position in the mount array. *)
Record file_handle_data := FHD { file_handle : Z; mount : nat }.
Record file_handle_data_internal := FHI { f_data : file_handle_data; use_count : Z }.

(** The table, with the part of the heap its pointers refer to; [brk] is the
    next address [malloc] returns, [memory] whether it has memory to give. *)
Record file_handle_table := FHT {
  file_handles : list (option positive);
  file_meta : list Z;
  used_file_descriptors : list Z;
  used_file_descriptor_pos : Z;
  heap : gmap positive file_handle_data_internal;
  brk : positive;
  memory : bool
}.

#[export] Instance file_handle_data_eq_dec : EqDecision file_handle_data.
Proof. solve_decision. Defined.
#[export] Instance file_handle_data_internal_eq_dec : EqDecision file_handle_data_internal.
Proof. solve_decision. Defined.

Definition set_file_handles v st := FHT v (file_meta st) (used_file_descriptors st)
  (used_file_descriptor_pos st) (heap st) (brk st) (memory st).
Definition set_used meta used pos st :=
  FHT (file_handles st) meta used pos (heap st) (brk st) (memory st).
Definition set_heap h st := FHT (file_handles st) (file_meta st)
  (used_file_descriptors st) (used_file_descriptor_pos st) h (brk st) (memory st).

Lemma heap_set_heap h st : heap (set_heap h st) = h.
Proof. done. Qed.
Lemma file_handles_set_heap h st : file_handles (set_heap h st) = file_handles st.
Proof. done. Qed.
Lemma set_heap_set_heap h h' st : set_heap h (set_heap h' st) = set_heap h st.
Proof. done. Qed.

(** ** Operations *)

(** The zeroed static instance. *)
Definition get_instance : file_handle_table :=
  FHT (replicate (Z.to_nat MAX_FILES) None) (replicate (Z.to_nat MAX_FILES) 0)
      (replicate (Z.to_nat MAX_FILES) 0) 0 ∅ 1%positive true.

Definition file_handle_use_count_internal (st : file_handle_table) (p : option positive)
  : outcome Z :=
  match p with
  | None => Ret 0
  | Some l => let! o := deref (heap st !! l) in Ret (use_count o)
  end.

(** The cast of a [file_handle_data] pointer back to the enclosing object. *)
Definition file_handle_use_count := file_handle_use_count_internal.

(** The result of [malloc] is not tested: without memory the copy goes to the null pointer. *)
Definition allocate_file_handle (d : file_handle_data) (st : file_handle_table)
  : outcome (positive * file_handle_table) :=
  if memory st then
    Ret (brk st, FHT (file_handles st) (file_meta st) (used_file_descriptors st)
                     (used_file_descriptor_pos st) (<[brk st := FHI d 0]> (heap st)) (Pos.succ (brk st)) true)
  else Undef.

Definition link_file_descriptor (fd : Z) (st : file_handle_table) : outcome file_handle_table :=
  let pos := used_file_descriptor_pos st in
  let! meta := arr_set (file_meta st) fd pos in
  let! used := arr_set (used_file_descriptors st) pos fd in
  Ret (set_used meta used (pos + 1) st).

Definition unlink_file_descriptor (fd : Z) (st : file_handle_table) : outcome file_handle_table :=
  let pos := used_file_descriptor_pos st in
  let! st :=
    if pos >? 1 then
      let! m := arr_get (file_meta st) fd in
      let! used := arr_set (used_file_descriptors st) m (pos - 1) in
      let! m := arr_get (file_meta st) fd in
      let! meta := arr_set (file_meta st) (pos - 1) m in
      Ret (set_used meta used pos st)
    else Ret st in
  let st := set_used (file_meta st) (used_file_descriptors st) (pos - 1) st in
  let! fhs := arr_set (file_handles st) fd None in
  Ret (set_file_handles fhs st).

Definition INT_MAX : Z := 2 ^ 31 - 1.
Definition INT_MIN : Z := - 2 ^ 31.

(** [fht->file_handles[fd]->use_count += k]; the count is an [int]. *)
Definition add_use_count (fd k : Z) (st : file_handle_table) : outcome file_handle_table :=
  let! p := arr_get (file_handles st) fd in
  let! l := deref p in
  let! o := deref (heap st !! l) in
  let c := use_count o + k in
  if (INT_MIN <=? c) && (c <=? INT_MAX) then Ret (set_heap (<[l := FHI (f_data o) c]> (heap st)) st)
  else Undef.

Definition insert_file_handle (fd : Z) (d : file_handle_data) (st : file_handle_table)
  : outcome (Z * file_handle_table) :=
  if fd >=? MAX_FILES then Ret (EBADF, st) else
  let! p := arr_get (file_handles st) fd in
  let! c := file_handle_use_count_internal st p in
  if c >? 0 then Ret (EEXIST, st) else
  let! (l, st) := allocate_file_handle d st in
  let! fhs := arr_set (file_handles st) fd (Some l) in
  let! st := add_use_count fd 1 (set_file_handles fhs st) in
  let! st := link_file_descriptor fd st in
  Ret (0, st).

Definition remove_file_handle (fd : Z) (st : file_handle_table)
  : outcome (Z * file_handle_table) :=
  if fd >=? MAX_FILES then Ret (EBADF, st) else
  let! p := arr_get (file_handles st) fd in
  let! c := file_handle_use_count_internal st p in
  if c =? 0 then Ret (ENOENT, st) else
  let! st := add_use_count fd (-1) st in
  let! p := arr_get (file_handles st) fd in
  let! c := file_handle_use_count_internal st p in
  let! l := deref p in
  let st := if c =? 0 then set_heap (delete l (heap st)) st else st in
  let! st := unlink_file_descriptor fd st in
  Ret (0, st).

Definition file_handle_exists (fd : Z) (st : file_handle_table) : outcome bool :=
  if fd >=? MAX_FILES then Ret false else
  let! p := arr_get (file_handles st) fd in
  let! c := file_handle_use_count_internal st p in
  Ret (c >? 0).

(** [find_file_handle] once the mounts are loaded; the call of
    [load_mounts_void] is made by [Process.find_file_handle]. *)
Definition lookup_file_handle (fd : Z) (st : file_handle_table)
  : outcome (option file_handle_data) :=
  if fd >=? MAX_FILES then Ret None else
  let! p := arr_get (file_handles st) fd in
  let! c := file_handle_use_count_internal st p in
  if c =? 0 then Ret None else
  let! l := deref p in
  let! o := deref (heap st !! l) in
  Ret (Some (f_data o)).

(** Returns the error, the pointer stored in [*oldfhd], and the table. *)
Definition duplicate_file_handle (fd1 fd2 : Z) (st : file_handle_table)
  : outcome (Z * option positive * file_handle_table) :=
  if (fd1 >=? MAX_FILES) || (fd2 >=? MAX_FILES) then Ret (EBADF, None, st) else
  let! oldfhd := arr_get (file_handles st) fd2 in
  let! p1 := arr_get (file_handles st) fd1 in
  let! c := file_handle_use_count_internal st p1 in
  if c >? 0 then
    let! fhs := arr_set (file_handles st) fd2 p1 in
    let! st := add_use_count fd1 1 (set_file_handles fhs st) in
    match oldfhd with
    | None => let! st := link_file_descriptor fd2 st in Ret (0, oldfhd, st)
    | Some _ => Ret (0, oldfhd, st)
    end
  else Ret (0, oldfhd, st).

(** ** Invariant

    [refs] counts the descriptors that point to an object.  The invariant says
    that the arrays keep their size, that every pointer of the table is to a
    live object whose count is at least the number of descriptors that share
    it (so that no descriptor is left with a freed object), and that
    [used_file_descriptor_pos] is the number of descriptors in use; that a count
    is a value of its type, and that there is memory. *)

Definition points_to (l : positive) (p : option positive) : bool := bool_decide (p = Some l).
Definition in_use (p : option positive) : bool := match p with Some _ => true | None => false end.
Definition refs (l : positive) (fhs : list (option positive)) : Z := count (points_to l) fhs.
Arguments points_to : simpl never.
Arguments refs : simpl never.

Record fht_inv (st : file_handle_table) : Prop := {
  inv_len_fhs : Z.of_nat (length (file_handles st)) = MAX_FILES;
  inv_len_meta : Z.of_nat (length (file_meta st)) = MAX_FILES;
  inv_len_used : Z.of_nat (length (used_file_descriptors st)) = MAX_FILES;
  inv_meta : Forall (fun m => 0 <= m < MAX_FILES) (file_meta st);
  inv_pos : used_file_descriptor_pos st = count in_use (file_handles st);
  inv_live : forall i l, file_handles st !! i = Some (Some l) ->
    exists o, heap st !! l = Some o /\ refs l (file_handles st) <= use_count o;
  inv_brk : forall l, is_Some (heap st !! l) -> (l < brk st)%positive;
  inv_int : forall l o, heap st !! l = Some o -> 0 <= use_count o <= INT_MAX;
  inv_memory : memory st = true
}.

(** No object outlives its descriptors, and its count is exact. *)
Definition fht_exact (st : file_handle_table) : Prop :=
  forall l o, heap st !! l = Some o ->
    use_count o = refs l (file_handles st) /\ 1 <= use_count o.

(** The array of descriptors in use lists them, each at its recorded position. *)
Definition used_inv (st : file_handle_table) : Prop :=
  (forall i, 0 <= i < used_file_descriptor_pos st ->
     exists fd l, used_file_descriptors st !! Z.to_nat i = Some fd /\ 0 <= fd < MAX_FILES /\
       file_handles st !! Z.to_nat fd = Some (Some l) /\
       file_meta st !! Z.to_nat fd = Some i) /\
  (forall fd l, 0 <= fd -> file_handles st !! Z.to_nat fd = Some (Some l) ->
     exists i, file_meta st !! Z.to_nat fd = Some i /\ 0 <= i < used_file_descriptor_pos st /\
       used_file_descriptors st !! Z.to_nat i = Some fd).

Lemma points_to_true l p : points_to l p = true <-> p = Some l.
Proof. unfold points_to. apply bool_decide_eq_true. Qed.

Lemma refs_insert l fhs i p q :
  fhs !! i = Some q ->
  refs l (<[i := p]> fhs) = refs l fhs - Z.b2z (points_to l q) + Z.b2z (points_to l p).
Proof. apply count_insert. Qed.

Lemma points_to_same l : points_to l (Some l) = true.
Proof. by apply points_to_true. Qed.
Lemma points_to_None l : points_to l None = false.
Proof. reflexivity. Qed.
Lemma points_to_ne l l' : l <> l' -> points_to l (Some l') = false.
Proof. intros. apply bool_decide_eq_false. congruence. Qed.

Lemma refs_pos l fhs i : fhs !! i = Some (Some l) -> 1 <= refs l fhs.
Proof. intros. eapply count_pos; eauto using points_to_same. Qed.

Lemma get_instance_inv : fht_inv get_instance.
Proof.
  split; try reflexivity; unfold get_instance; cbn [file_handles file_meta heap].
  - apply Forall_replicate. unfold MAX_FILES. lia.
  - intros i l H. apply lookup_replicate in H as [? _]. done.
  - intros l [? H]. by rewrite lookup_empty in H.
  - intros l o H. by rewrite lookup_empty in H.
Qed.

Section Steps.
Context (st : file_handle_table) (Hinv : fht_inv st).

Lemma slot_cases fd :
  0 <= fd < MAX_FILES ->
  arr_get (file_handles st) fd = Ret None /\ file_handles st !! Z.to_nat fd = Some None \/
  exists l o, arr_get (file_handles st) fd = Ret (Some l) /\
    file_handles st !! Z.to_nat fd = Some (Some l) /\
    heap st !! l = Some o /\ 1 <= refs l (file_handles st) <= use_count o.
Proof using Hinv.
  intros Hfd. destruct (arr_get_in (file_handles st) fd) as ([l|] & Hg & Hl).
  { rewrite (inv_len_fhs _ Hinv). lia. }
  - right. destruct (inv_live _ Hinv _ _ Hl) as (o & Ho & Hc).
    exists l, o. pose proof (refs_pos _ _ _ Hl). auto with lia.
  - left. auto.
Qed.

Lemma pos_lt fd :
  file_handles st !! fd = Some None -> 0 <= used_file_descriptor_pos st < MAX_FILES.
Proof using Hinv.
  intros H. rewrite (inv_pos _ Hinv), <- (inv_len_fhs _ Hinv). split.
  - apply count_range.
  - eapply count_lt; eauto.
Qed.

Lemma pos_ge fd l :
  file_handles st !! fd = Some (Some l) -> 1 <= used_file_descriptor_pos st <= MAX_FILES.
Proof using Hinv.
  intros H. rewrite (inv_pos _ Hinv), <- (inv_len_fhs _ Hinv). split.
  - eapply count_pos; eauto.
  - apply count_range.
Qed.

Lemma brk_fresh : heap st !! brk st = None.
Proof using Hinv.
  destruct (heap st !! brk st) eqn:E; [|done].
  pose proof (inv_brk _ Hinv (brk st) ltac:(eauto)). lia.
Qed.

Lemma brk_refs : refs (brk st) (file_handles st) = 0.
Proof using Hinv.
  apply count_0. intros p Hp. apply bool_decide_eq_false. intros ->.
  apply list_elem_of_lookup in Hp as [i Hi].
  destruct (inv_live _ Hinv _ _ Hi) as (o & Ho & _). by rewrite brk_fresh in Ho.
Qed.
End Steps.

(** ** The result of each operation on every branch *)

Definition inserted (fd : Z) (d : file_handle_data) (st : file_handle_table) : file_handle_table :=
  FHT (<[Z.to_nat fd := Some (brk st)]> (file_handles st))
      (<[Z.to_nat fd := used_file_descriptor_pos st]> (file_meta st))
      (<[Z.to_nat (used_file_descriptor_pos st) := fd]> (used_file_descriptors st))
      (used_file_descriptor_pos st + 1)
      (<[brk st := FHI d 1]> (heap st)) (Pos.succ (brk st)) (memory st).

(** The object after a descriptor gave it up. *)
Definition released (l : positive) (o : file_handle_data_internal)
  (h : gmap positive file_handle_data_internal) : gmap positive file_handle_data_internal :=
  if use_count o - 1 =? 0 then delete l h else <[l := FHI (f_data o) (use_count o - 1)]> h.

(** The same table in a process that has used up its memory. *)
Definition without_memory (st : file_handle_table) : file_handle_table :=
  FHT (file_handles st) (file_meta st) (used_file_descriptors st) (used_file_descriptor_pos st) (heap st) (brk st) false.

Lemma geb_false fd : fd < MAX_FILES -> (fd >=? MAX_FILES) = false.
Proof. rewrite Z.geb_leb. intros. apply Z.leb_gt. done. Qed.
Lemma geb_true fd : MAX_FILES <= fd -> (fd >=? MAX_FILES) = true.
Proof. intros. by apply Z.geb_le. Qed.

Ltac monad := unfold mbind, outcome_bind, mret, outcome_ret, deref; cbn beta iota.

Section Results.
Context (st : file_handle_table) (Hinv : fht_inv st).

Lemma add_use_count_live fd k l o (st' : file_handle_table) :
  0 <= fd -> file_handles st' !! Z.to_nat fd = Some (Some l) -> heap st' !! l = Some o ->
  INT_MIN <= use_count o + k <= INT_MAX ->
  add_use_count fd k st' =
    Ret (set_heap (<[l := FHI (f_data o) (use_count o + k)]> (heap st')) st').
Proof.
  intros Hfd Hl Ho Hk. unfold add_use_count. rewrite (arr_get_Some _ _ _ Hfd Hl).
  monad. rewrite Ho. cbv zeta. by rewrite (proj2 (Z.leb_le _ _) (proj1 Hk)), (proj2 (Z.leb_le _ _) (proj2 Hk)).
Qed.

Lemma add_use_count_overflow fd k l o (st' : file_handle_table) :
  0 <= fd -> file_handles st' !! Z.to_nat fd = Some (Some l) -> heap st' !! l = Some o ->
  INT_MAX < use_count o + k -> add_use_count fd k st' = Undef.
Proof.
  intros Hfd Hl Ho Hk. unfold add_use_count. rewrite (arr_get_Some _ _ _ Hfd Hl).
  monad. rewrite Ho. cbv zeta. by rewrite (proj2 (Z.leb_gt _ _) Hk), andb_false_r.
Qed.

Lemma link_eq fd (st' : file_handle_table) :
  Z.of_nat (length (file_meta st')) = MAX_FILES ->
  Z.of_nat (length (used_file_descriptors st')) = MAX_FILES ->
  0 <= fd < MAX_FILES -> 0 <= used_file_descriptor_pos st' < MAX_FILES ->
  link_file_descriptor fd st' =
    Ret (set_used (<[Z.to_nat fd := used_file_descriptor_pos st']> (file_meta st'))
           (<[Z.to_nat (used_file_descriptor_pos st') := fd]> (used_file_descriptors st'))
           (used_file_descriptor_pos st' + 1) st').
Proof.
  intros. unfold link_file_descriptor. rewrite arr_set_in by lia. monad.
  rewrite arr_set_in by lia. done.
Qed.

Lemma insert_free fd d :
  0 <= fd < MAX_FILES -> file_handles st !! Z.to_nat fd = Some None ->
  insert_file_handle fd d st = Ret (0, inserted fd d st).
Proof using Hinv.
  intros Hfd Hn. unfold insert_file_handle. rewrite geb_false by lia.
  rewrite (arr_get_Some _ _ _ (proj1 Hfd) Hn). monad.
  unfold allocate_file_handle. rewrite (inv_memory _ Hinv). monad. cbn [file_handles file_meta used_file_descriptors].
  rewrite arr_set_in by (rewrite (inv_len_fhs _ Hinv); lia). monad.
  pose proof (pos_lt _ Hinv _ Hn) as Hpos.
  erewrite add_use_count_live; [|lia|apply list_lookup_insert_eq|apply lookup_insert_eq|cbn; unfold INT_MIN, INT_MAX; lia].
  2: { pose proof (inv_len_fhs _ Hinv). lia. }
  monad. rewrite link_eq; cbn; try apply Hinv; try lia.
  unfold set_used, inserted. cbn. by rewrite insert_insert_eq, (inv_memory _ Hinv).
Qed.

Lemma insert_no_memory fd d :
  0 <= fd < MAX_FILES -> file_handles st !! Z.to_nat fd = Some None ->
  insert_file_handle fd d (without_memory st) = Undef.
Proof.
  intros Hfd Hn. unfold insert_file_handle. rewrite geb_false by lia.
  by rewrite (arr_get_Some _ _ _ (proj1 Hfd) (Hn : file_handles (without_memory st) !! _ = _)).
Qed.

Lemma insert_taken fd d l :
  0 <= fd < MAX_FILES -> file_handles st !! Z.to_nat fd = Some (Some l) ->
  insert_file_handle fd d st = Ret (EEXIST, st).
Proof using Hinv.
  intros Hfd Hl. unfold insert_file_handle. rewrite geb_false by lia.
  destruct (slot_cases _ Hinv fd Hfd) as [[_ ?]|(l' & o & Hg & Hl' & Ho & Hc)]; [congruence|].
  rewrite Hg. monad. unfold file_handle_use_count_internal. monad. rewrite Ho.
  destruct (use_count o >? 0) eqn:E; [done|]. bools. lia.
Qed.

Lemma unlink_closed fd l :
  0 <= fd < MAX_FILES -> file_handles st !! Z.to_nat fd = Some (Some l) ->
  exists m, file_meta st !! Z.to_nat fd = Some m /\ 0 <= m < MAX_FILES /\
    unlink_file_descriptor fd st =
      let pos := used_file_descriptor_pos st in
      Ret (set_file_handles (<[Z.to_nat fd := None]> (file_handles st))
             (set_used (if pos >? 1 then <[Z.to_nat (pos - 1) := m]> (file_meta st) else file_meta st)
                (if pos >? 1 then <[Z.to_nat m := pos - 1]> (used_file_descriptors st)
                 else used_file_descriptors st) (pos - 1) st)).
Proof using Hinv.
  intros Hfd Hl. unfold unlink_file_descriptor. pose proof (pos_ge _ Hinv _ _ Hl).
  destruct (arr_get_in (file_meta st) fd) as (m & Hg & Hm).
  { rewrite (inv_len_meta _ Hinv). lia. }
  assert (0 <= m < MAX_FILES) by exact (Forall_lookup_1 _ _ _ _ (inv_meta _ Hinv) Hm).
  exists m. split; [done|]. split; [done|].
  rewrite Hg. destruct (used_file_descriptor_pos st >? 1); monad; unfold set_used;
    cbn [file_handles];
    rewrite ?(arr_set_in (used_file_descriptors st)) by (rewrite (inv_len_used _ Hinv); lia);
    monad;
    rewrite ?(arr_set_in (file_meta st)) by (rewrite (inv_len_meta _ Hinv); lia);
    monad; cbn [file_handles];
    rewrite arr_set_in by (rewrite (inv_len_fhs _ Hinv); lia); done.
Qed.

Lemma unlink_eq fd l :
  0 <= fd < MAX_FILES -> file_handles st !! Z.to_nat fd = Some (Some l) ->
  exists meta used,
    unlink_file_descriptor fd st =
      Ret (set_file_handles (<[Z.to_nat fd := None]> (file_handles st))
             (set_used meta used (used_file_descriptor_pos st - 1) st)) /\
    Z.of_nat (length meta) = MAX_FILES /\ Z.of_nat (length used) = MAX_FILES /\
    Forall (fun m => 0 <= m < MAX_FILES) meta.
Proof using Hinv.
  intros Hfd Hl. destruct (unlink_closed fd l Hfd Hl) as (m & Hm & Hmr & ->).
  eexists _, _. split; [reflexivity|].
  pose proof (inv_len_meta _ Hinv). pose proof (inv_len_used _ Hinv).
  destruct (_ >? 1); rewrite ?length_insert; repeat split; auto;
    [apply Forall_insert; [|done]|]; apply (inv_meta _ Hinv).
Qed.

Lemma unlink_set_heap fd h :
  unlink_file_descriptor fd (set_heap h st) = set_heap h <$> unlink_file_descriptor fd st.
Proof.
  unfold unlink_file_descriptor, set_heap, set_used, set_file_handles. cbn -[Z.gtb].
  destruct (used_file_descriptor_pos st >? 1); 
    unfold fmap, outcome_fmap; monad; repeat (split_goal; cbn in *; simplify_eq; try done).
Qed.

Lemma remove_live fd l o :
  0 <= fd < MAX_FILES -> file_handles st !! Z.to_nat fd = Some (Some l) ->
  heap st !! l = Some o ->
  exists meta used,
    remove_file_handle fd st =
      Ret (0, FHT (<[Z.to_nat fd := None]> (file_handles st)) meta used
                  (used_file_descriptor_pos st - 1) (released l o (heap st)) (brk st) (memory st)) /\
    unlink_file_descriptor fd st =
      Ret (FHT (<[Z.to_nat fd := None]> (file_handles st)) meta used
                  (used_file_descriptor_pos st - 1) (heap st) (brk st) (memory st)) /\
    Z.of_nat (length meta) = MAX_FILES /\ Z.of_nat (length used) = MAX_FILES /\
    Forall (fun m => 0 <= m < MAX_FILES) meta.
Proof using Hinv.
  intros Hfd Hl Ho. destruct (unlink_eq fd l Hfd Hl) as (meta & used & Hu & Hm).
  exists meta, used. split; [|split; [exact Hu|exact Hm]].
  unfold remove_file_handle. rewrite geb_false by lia.
  rewrite (arr_get_Some _ _ _ (proj1 Hfd) Hl).
  destruct (inv_live _ Hinv _ _ Hl) as (o' & Ho' & Hc). pose proof (refs_pos _ _ _ Hl).
  assert (o' = o) as -> by congruence.
  monad. unfold file_handle_use_count_internal. monad. rewrite Ho.
  destruct (Z.eqb_spec (use_count o) 0); [lia|].
  pose proof (inv_int _ Hinv _ _ Ho).
  rewrite (add_use_count_live _ _ _ _ _ (proj1 Hfd) Hl Ho) by (unfold INT_MIN; lia). monad.
  rewrite file_handles_set_heap, !heap_set_heap, (arr_get_Some _ _ _ (proj1 Hfd) Hl).
  rewrite lookup_insert_eq. cbn [use_count]. unfold released.
  change (use_count o - 1) with (use_count o + -1).
  destruct (use_count o + -1 =? 0);
    rewrite ?set_heap_set_heap, ?delete_insert_eq, unlink_set_heap, Hu; done.
Qed.

Lemma remove_free fd :
  0 <= fd < MAX_FILES -> file_handles st !! Z.to_nat fd = Some None ->
  remove_file_handle fd st = Ret (ENOENT, st).
Proof.
  intros Hfd Hn. unfold remove_file_handle. rewrite geb_false by lia.
  by rewrite (arr_get_Some _ _ _ (proj1 Hfd) Hn).
Qed.

Lemma lookup_eq fd :
  0 <= fd < MAX_FILES ->
  lookup_file_handle fd st =
    Ret (match file_handles st !! Z.to_nat fd with
         | Some (Some l) => f_data <$> heap st !! l
         | _ => None
         end).
Proof using Hinv.
  intros Hfd. unfold lookup_file_handle. rewrite geb_false by lia.
  destruct (slot_cases _ Hinv fd Hfd) as [[-> ->]|(l & o & -> & -> & Ho & Hc)]; [done|].
  monad. unfold file_handle_use_count_internal. monad. rewrite Ho.
  destruct (Z.eqb_spec (use_count o) 0); [lia|]. done.
Qed.

(** [fd1] is not open: nothing changes. *)
Lemma duplicate_free fd1 fd2 p :
  0 <= fd1 < MAX_FILES -> 0 <= fd2 < MAX_FILES ->
  file_handles st !! Z.to_nat fd1 = Some None -> file_handles st !! Z.to_nat fd2 = Some p ->
  duplicate_file_handle fd1 fd2 st = Ret (0, p, st).
Proof.
  intros Hfd1 Hfd2 H1 H2. unfold duplicate_file_handle. rewrite !geb_false by lia. simpl.
  rewrite (arr_get_Some _ _ _ (proj1 Hfd2) H2). monad.
  by rewrite (arr_get_Some _ _ _ (proj1 Hfd1) H1).
Qed.

Lemma duplicate_open fd1 fd2 l o p :
  0 <= fd1 < MAX_FILES -> 0 <= fd2 < MAX_FILES ->
  file_handles st !! Z.to_nat fd1 = Some (Some l) -> heap st !! l = Some o -> file_handles st !! Z.to_nat fd2 = Some p ->
  let st1 := set_file_handles (<[Z.to_nat fd2 := Some l]> (file_handles st)) st in
  file_handles st1 !! Z.to_nat fd1 = Some (Some l) /\
  duplicate_file_handle fd1 fd2 st =
    let! st2 := add_use_count fd1 1 st1 in
    match p with
    | None => let! st := link_file_descriptor fd2 st2 in Ret (0, p, st)
    | Some _ => Ret (0, p, st2)
    end.
Proof using Hinv.
  intros Hfd1 Hfd2 H1 Ho H2 st1. split.
  { unfold st1. cbn. destruct (decide (Z.to_nat fd1 = Z.to_nat fd2)) as [->|].
    - apply list_lookup_insert_eq. eauto using lookup_lt_Some.
    - by rewrite list_lookup_insert_ne. }
  unfold duplicate_file_handle. rewrite !geb_false by lia. simpl.
  rewrite (arr_get_Some _ _ _ (proj1 Hfd2) H2). monad.
  rewrite (arr_get_Some _ _ _ (proj1 Hfd1) H1). unfold file_handle_use_count_internal. monad.
  rewrite Ho.
  destruct (inv_live _ Hinv _ _ H1) as (o' & Ho' & Hc). pose proof (refs_pos _ _ _ H1).
  destruct (use_count o >? 0) eqn:E; [|bools; simplify_eq; lia].
  by rewrite arr_set_in by (rewrite (inv_len_fhs _ Hinv); lia).
Qed.

(** One duplicate too many: the count overflows. *)
Lemma duplicate_overflow fd1 fd2 l o p :
  0 <= fd1 < MAX_FILES -> 0 <= fd2 < MAX_FILES ->
  file_handles st !! Z.to_nat fd1 = Some (Some l) -> heap st !! l = Some o -> INT_MAX <= use_count o ->
  file_handles st !! Z.to_nat fd2 = Some p -> duplicate_file_handle fd1 fd2 st = Undef.
Proof using Hinv.
  intros Hfd1 Hfd2 H1 Ho Hc H2. destruct (duplicate_open fd1 fd2 l o p Hfd1 Hfd2 H1 Ho H2) as [H1' ->].
  by rewrite (add_use_count_overflow fd1 1 l o _ (proj1 Hfd1) H1' Ho) by lia.
Qed.

Lemma duplicate_live fd1 fd2 l o p :
  0 <= fd1 < MAX_FILES -> 0 <= fd2 < MAX_FILES ->
  file_handles st !! Z.to_nat fd1 = Some (Some l) -> heap st !! l = Some o -> use_count o < INT_MAX ->
  file_handles st !! Z.to_nat fd2 = Some p ->
  duplicate_file_handle fd1 fd2 st =
    Ret (0, p,
      let fhs := <[Z.to_nat fd2 := Some l]> (file_handles st) in
      let h := <[l := FHI (f_data o) (use_count o + 1)]> (heap st) in
      match p with
      | Some _ => FHT fhs (file_meta st) (used_file_descriptors st)
                    (used_file_descriptor_pos st) h (brk st) (memory st)
      | None => FHT fhs (<[Z.to_nat fd2 := used_file_descriptor_pos st]> (file_meta st))
                  (<[Z.to_nat (used_file_descriptor_pos st) := fd2]> (used_file_descriptors st))
                  (used_file_descriptor_pos st + 1) h (brk st) (memory st)
      end).
Proof using Hinv.
  intros Hfd1 Hfd2 H1 Ho Hmax H2. destruct (duplicate_open fd1 fd2 l o p Hfd1 Hfd2 H1 Ho H2) as [H1' ->].
  pose proof (inv_int _ Hinv _ _ Ho).
  rewrite (add_use_count_live fd1 1 l o _ (proj1 Hfd1) H1' Ho) by (unfold INT_MIN; lia). monad.
  destruct p as [l2|]; [done|].
  rewrite link_eq; cbn; try apply Hinv; try lia; [done|]. apply (pos_lt _ Hinv _ H2).
Qed.
End Results.

(** ** The operations keep the invariant *)

Lemma bool_z b : 0 <= Z.b2z b <= 1.
Proof. destruct b; simpl; lia. Qed.

Lemma count_in_use_insert fhs i p q :
  fhs !! i = Some q ->
  count in_use (<[i := p]> fhs) = count in_use fhs - Z.b2z (in_use q) + Z.b2z (in_use p).
Proof. apply count_insert. Qed.

Section Preservation.
Context (st : file_handle_table) (Hinv : fht_inv st).

Lemma inserted_inv fd d :
  0 <= fd < MAX_FILES -> file_handles st !! Z.to_nat fd = Some None ->
  fht_inv (inserted fd d st).
Proof using Hinv.
  intros Hfd Hn. pose proof (pos_lt _ Hinv _ Hn).
  split; cbn; rewrite ?length_insert; try apply Hinv.
  - apply Forall_insert; [apply Hinv|lia].
  - rewrite (count_in_use_insert _ _ _ _ Hn), (inv_pos _ Hinv). simpl. lia.
  - intros i l Hi. rewrite (refs_insert _ _ _ _ _ Hn), points_to_None.
    destruct (decide (l = brk st)) as [->|Hne].
    + exists (FHI d 1). rewrite lookup_insert_eq, points_to_same, (brk_refs _ Hinv). simpl. auto with lia.
    + rewrite lookup_insert_ne by done. rewrite points_to_ne by done.
      apply list_lookup_insert_Some in Hi as [(? & ? & ?)|(? & Hi)]; [congruence|].
      destruct (inv_live _ Hinv _ _ Hi) as (o & Ho & Hc). exists o. simpl. auto with lia.
  - intros l [o Ho]. destruct (decide (l = brk st)) as [->|]; [lia|].
    rewrite lookup_insert_ne in Ho by done.
    pose proof (inv_brk _ Hinv l ltac:(eauto)). lia.
  - intros l o [[_ <-]|[_ Ho]]%lookup_insert_Some; [cbn; unfold INT_MAX; lia|by apply (inv_int _ Hinv l)].
Qed.

Lemma released_lookup l o l' :
  heap st !! l = Some o -> is_Some (released l o (heap st) !! l') -> is_Some (heap st !! l').
Proof.
  unfold released. intros Ho. destruct (_ =? 0).
  - intros [? [??]%lookup_delete_Some]. eauto.
  - rewrite lookup_insert_is_Some. intros [->|[? ?]]; eauto.
Qed.

Lemma removed_inv fd l o meta used :
  0 <= fd < MAX_FILES -> file_handles st !! Z.to_nat fd = Some (Some l) ->
  heap st !! l = Some o ->
  Z.of_nat (length meta) = MAX_FILES -> Z.of_nat (length used) = MAX_FILES ->
  Forall (fun m => 0 <= m < MAX_FILES) meta ->
  fht_inv (FHT (<[Z.to_nat fd := None]> (file_handles st)) meta used
             (used_file_descriptor_pos st - 1) (released l o (heap st)) (brk st) (memory st)).
Proof using Hinv.
  intros Hfd Hl Ho Hm1 Hm2 Hm3.
  split; cbn; rewrite ?length_insert; try apply Hinv; auto.
  - rewrite (count_in_use_insert _ _ _ _ Hl), (inv_pos _ Hinv). simpl. lia.
  - intros i l' Hi. rewrite (refs_insert _ _ _ _ _ Hl), points_to_None.
    apply list_lookup_insert_Some in Hi as [(? & ? & ?)|(Hne & Hi)]; [congruence|].
    destruct (inv_live _ Hinv _ _ Hi) as (o' & Ho' & Hc). simpl.
    destruct (decide (l' = l)) as [->|Hll].
    + assert (o' = o) as -> by congruence.
      assert (refs l (file_handles st) >= 2).
      { pose proof (refs_pos l (<[Z.to_nat fd := None]> (file_handles st)) i) as Hr.
        rewrite (refs_insert _ _ _ _ _ Hl), points_to_None, points_to_same in Hr.
        rewrite list_lookup_insert_ne in Hr by done. specialize (Hr Hi). simpl in Hr. lia. }
      exists (FHI (f_data o) (use_count o - 1)). unfold released.
      destruct (Z.eqb_spec (use_count o - 1) 0); [lia|].
      rewrite lookup_insert_eq, points_to_same. simpl. auto with lia.
    + exists o'. rewrite points_to_ne by done. unfold released.
      destruct (_ =? 0); [rewrite lookup_delete_ne by done|rewrite lookup_insert_ne by done];
        simpl; auto with lia.
  - intros l' Hl'. apply (inv_brk _ Hinv). eapply released_lookup; eauto.
  - intros l' o' Hl'. destruct (inv_live _ Hinv _ _ Hl) as (o1 & Ho1 & Hc). pose proof (refs_pos _ _ _ Hl).
    pose proof (inv_int _ Hinv _ _ Ho). assert (o1 = o) as -> by congruence.
    unfold released in Hl'. destruct (_ =? 0).
    + apply lookup_delete_Some in Hl' as [_ Hl']. by apply (inv_int _ Hinv l').
    + apply lookup_insert_Some in Hl' as [[_ <-]|[_ Hl']]; [cbn; lia|by apply (inv_int _ Hinv l')].
Qed.

Lemma duplicated_inv fd1 fd2 l o p meta used pos :
  0 <= fd2 < MAX_FILES ->
  file_handles st !! Z.to_nat fd1 = Some (Some l) -> heap st !! l = Some o -> use_count o < INT_MAX ->
  file_handles st !! Z.to_nat fd2 = Some p ->
  Z.of_nat (length meta) = MAX_FILES -> Z.of_nat (length used) = MAX_FILES ->
  Forall (fun m => 0 <= m < MAX_FILES) meta ->
  pos = used_file_descriptor_pos st + 1 - Z.b2z (in_use p) ->
  fht_inv (FHT (<[Z.to_nat fd2 := Some l]> (file_handles st)) meta used pos
             (<[l := FHI (f_data o) (use_count o + 1)]> (heap st)) (brk st) (memory st)).
Proof using Hinv.
  intros Hfd Hl Ho Hmax Hp Hm1 Hm2 Hm3 ->.
  split; cbn; rewrite ?length_insert; try apply Hinv; auto.
  - rewrite (count_in_use_insert _ _ _ _ Hp), (inv_pos _ Hinv). simpl. lia.
  - intros i l' Hi. rewrite (refs_insert _ _ _ _ _ Hp).
    pose proof (bool_z (points_to l' p)).
    destruct (decide (l' = l)) as [->|Hll].
    + destruct (inv_live _ Hinv _ _ Hl) as (o' & Ho' & Hc).
      assert (o' = o) as -> by congruence.
      exists (FHI (f_data o) (use_count o + 1)). rewrite lookup_insert_eq, points_to_same.
      simpl in *. auto with lia.
    + apply list_lookup_insert_Some in Hi as [(? & ? & ?)|(Hne & Hi)]; [congruence|].
      destruct (inv_live _ Hinv _ _ Hi) as (o' & Ho' & Hc).
      exists o'. rewrite lookup_insert_ne by done. rewrite points_to_ne by done.
      simpl in *. auto with lia.
  - intros l' Hl'. apply (inv_brk _ Hinv). rewrite lookup_insert_is_Some in Hl'.
    destruct Hl' as [->|[_ ?]]; eauto.
  - intros l' o'. pose proof (inv_int _ Hinv _ _ Ho).
    intros [[_ <-]|[_ Ho']]%lookup_insert_Some; [cbn; lia|by apply (inv_int _ Hinv l')].
Qed.
End Preservation.

(** ** Abstract specification: a finite map

    The table is a map from descriptors to handles: [insert] adds a binding
    that is not there, [remove] drops one that is, [duplicate] rebinds [fd2] to
    the handle of [fd1] and reports the one it replaces. *)

Inductive table_op :=
| TInsert (fd : Z) (d : file_handle_data)
| TRemove (fd : Z)
| TDup (fd1 fd2 : Z)
| TFind (fd : Z).

Abbreviation table_res := (Z * option file_handle_data)%type.

Definition op_fds (o : table_op) : list Z :=
  match o with TInsert fd _ | TRemove fd | TFind fd => [fd] | TDup fd1 fd2 => [fd1; fd2] end.

Definition spec_op (o : table_op) (m : gmap Z file_handle_data)
  : table_res * gmap Z file_handle_data :=
  match o with
  | TInsert fd d =>
      if fd >=? MAX_FILES then ((EBADF, None), m) else
      match m !! fd with Some _ => ((EEXIST, None), m) | None => ((0, None), <[fd := d]> m) end
  | TRemove fd =>
      if fd >=? MAX_FILES then ((EBADF, None), m) else
      match m !! fd with Some _ => ((0, None), delete fd m) | None => ((ENOENT, None), m) end
  | TDup fd1 fd2 =>
      if (fd1 >=? MAX_FILES) || (fd2 >=? MAX_FILES) then ((EBADF, None), m) else
      match m !! fd1 with
      | Some d => ((0, m !! fd2), <[fd2 := d]> m)
      | None => ((0, m !! fd2), m)
      end
  | TFind fd => ((0, m !! fd), m)
  end.

(** The operation on the table; the pointer [duplicate_file_handle] stores is
    read as its caller reads it. *)
Definition table_op_exec (o : table_op) (st : file_handle_table)
  : outcome (table_res * file_handle_table) :=
  match o with
  | TInsert fd d => let! (rv, st) := insert_file_handle fd d st in Ret ((rv, None), st)
  | TRemove fd => let! (rv, st) := remove_file_handle fd st in Ret ((rv, None), st)
  | TDup fd1 fd2 =>
      let! (rv, old, st) := duplicate_file_handle fd1 fd2 st in
      match old with
      | None => Ret ((rv, None), st)
      | Some l => let! o := deref (heap st !! l) in Ret ((rv, Some (f_data o)), st)
      end
  | TFind fd => let! d := lookup_file_handle fd st in Ret ((0, d), st)
  end.

Fixpoint spec_run (os : list table_op) (m : gmap Z file_handle_data)
  : list table_res * gmap Z file_handle_data :=
  match os with
  | [] => ([], m)
  | o :: os => let (r, m) := spec_op o m in let (rs, m) := spec_run os m in (r :: rs, m)
  end.

Fixpoint table_run (os : list table_op) (st : file_handle_table)
  : outcome (list table_res * file_handle_table) :=
  match os with
  | [] => Ret ([], st)
  | o :: os =>
      let! (r, st) := table_op_exec o st in
      let! (rs, st) := table_run os st in Ret (r :: rs, st)
  end.

(** The handle a descriptor stands for. *)
Definition handle_at (st : file_handle_table) (fd : Z) : option file_handle_data :=
  if (0 <=? fd) && (fd <? MAX_FILES) then
    match file_handles st !! Z.to_nat fd with
    | Some (Some l) => f_data <$> heap st !! l
    | _ => None
    end
  else None.

Definition table_repr (st : file_handle_table) (m : gmap Z file_handle_data) : Prop :=
  fht_inv st /\ forall fd, m !! fd = handle_at st fd.

Lemma handle_at_in st fd :
  0 <= fd < MAX_FILES ->
  handle_at st fd = match file_handles st !! Z.to_nat fd with
                    | Some (Some l) => f_data <$> heap st !! l
                    | _ => None
                    end.
Proof.
  intros. unfold handle_at.
  destruct (Z.leb_spec 0 fd), (Z.ltb_spec fd MAX_FILES); simpl; auto; lia.
Qed.

(** A table whose slot [fd] now points to an object with data [d], all other
    slots and the data of the other objects unchanged. *)
Lemma handle_at_update st st' fd v :
  0 <= fd < MAX_FILES -> (Z.to_nat fd < length (file_handles st))%nat ->
  file_handles st' = <[Z.to_nat fd := v]> (file_handles st) ->
  (forall i l, i <> Z.to_nat fd -> file_handles st !! i = Some (Some l) ->
     f_data <$> heap st' !! l = f_data <$> heap st !! l) ->
  forall fd', handle_at st' fd' =
    if decide (fd' = fd) then match v with Some l => f_data <$> heap st' !! l | None => None end
    else handle_at st fd'.
Proof.
  intros Hfd Hlen Hfhs Hold fd'. destruct (decide (fd' = fd)) as [->|Hne].
  - rewrite handle_at_in by done. rewrite Hfhs, list_lookup_insert_eq by done. by destruct v.
  - unfold handle_at. destruct (0 <=? fd') eqn:E; [|done].
    destruct (fd' <? MAX_FILES); [|done]. simpl. bools.
    rewrite Hfhs, list_lookup_insert_ne by lia.
    destruct (file_handles st !! Z.to_nat fd') as [[l|]|] eqn:El; [|done..].
    apply (Hold (Z.to_nat fd')); [lia|done].
Qed.

Lemma repr_slot st m fd :
  table_repr st m -> 0 <= fd < MAX_FILES ->
  (file_handles st !! Z.to_nat fd = Some None /\ m !! fd = None) \/
  exists l o, file_handles st !! Z.to_nat fd = Some (Some l) /\ heap st !! l = Some o /\
    m !! fd = Some (f_data o).
Proof.
  intros [Hinv Hm] Hfd. rewrite Hm, handle_at_in by done.
  destruct (slot_cases _ Hinv fd Hfd) as [[_ ->]|(l & o & _ & -> & Ho & _)]; [auto|].
  right. exists l, o. by rewrite Ho.
Qed.

(** One step of the table is one step of the map. *)
Definition simulated (o : table_op) (st : file_handle_table) (m : gmap Z file_handle_data) : Prop :=
  exists st', table_op_exec o st = Ret ((spec_op o m).1, st') /\ table_repr st' (spec_op o m).2.

Lemma slot_lt st fd : fht_inv st -> 0 <= fd < MAX_FILES -> (Z.to_nat fd < length (file_handles st))%nat.
Proof. intros Hinv ?. pose proof (inv_len_fhs _ Hinv). lia. Qed.

Lemma geb_spec fd : (fd >=? MAX_FILES) = true /\ MAX_FILES <= fd \/
                    (fd >=? MAX_FILES) = false /\ fd < MAX_FILES.
Proof. destruct (fd >=? MAX_FILES) eqn:E; bools; auto. Qed.

Lemma simulate_insert st m fd d :
  table_repr st m -> 0 <= fd -> simulated (TInsert fd d) st m.
Proof.
  intros Hr Hfd. unfold simulated. simpl.
  destruct (geb_spec fd) as [[E _]|[E Hlt]]; rewrite E.
  { exists st. unfold insert_file_handle. rewrite E. done. }
  pose proof Hr as [Hinv Hm].
  destruct (repr_slot _ _ fd Hr ltac:(lia)) as [[Hs ->]|(l & o & Hs & Ho & ->)]; simpl.
  - rewrite (insert_free _ Hinv fd d ltac:(lia) Hs). eexists. split; [reflexivity|].
    split; [by apply inserted_inv|]. intros fd'.
    rewrite (handle_at_update st _ fd (Some (brk st)));
      [|lia|apply slot_lt; [done|lia]|done|]; cbn.
    + rewrite lookup_insert_eq, lookup_insert. repeat case_decide; naive_solver.
    + intros i l _ Hi. rewrite lookup_insert_ne; [done|]. intros <-.
      destruct (inv_live _ Hinv _ _ Hi) as (o & Ho & _). by rewrite (brk_fresh _ Hinv) in Ho.
  - rewrite (insert_taken _ Hinv fd d l ltac:(lia) Hs). by eexists.
Qed.

Lemma released_f_data l o h l' :
  h !! l = Some o -> l' <> l -> released l o h !! l' = h !! l'.
Proof.
  intros. unfold released. destruct (_ =? 0); [by rewrite lookup_delete_ne|by rewrite lookup_insert_ne].
Qed.

Lemma released_shared st fd l o i :
  fht_inv st -> file_handles st !! fd = Some (Some l) -> heap st !! l = Some o ->
  i <> fd -> file_handles st !! i = Some (Some l) ->
  released l o (heap st) !! l = Some (FHI (f_data o) (use_count o - 1)).
Proof.
  intros Hinv Hl Ho Hne Hi. unfold released.
  pose proof (refs_pos l (<[fd := None]> (file_handles st)) i) as Hr.
  rewrite (refs_insert _ _ _ _ _ Hl), points_to_None, points_to_same in Hr.
  rewrite list_lookup_insert_ne in Hr by done. specialize (Hr Hi). simpl in Hr.
  destruct (inv_live _ Hinv _ _ Hl) as (o' & Ho' & Hc). simplify_eq.
  destruct (Z.eqb_spec (use_count o - 1) 0); [lia|]. by rewrite lookup_insert_eq.
Qed.

Lemma simulate_remove st m fd :
  table_repr st m -> 0 <= fd -> simulated (TRemove fd) st m.
Proof.
  intros Hr Hfd. unfold simulated. simpl.
  destruct (geb_spec fd) as [[E _]|[E Hlt]]; rewrite E.
  { exists st. unfold remove_file_handle. rewrite E. done. }
  pose proof Hr as [Hinv Hm].
  destruct (repr_slot _ _ fd Hr ltac:(lia)) as [[Hs ->]|(l & o & Hs & Ho & ->)]; simpl.
  - rewrite (remove_free _ fd ltac:(lia) Hs). by eexists.
  - destruct (remove_live _ Hinv fd l o ltac:(lia) Hs Ho) as (meta & used & -> & _ & L1 & L2 & L3).
    eexists. split; [reflexivity|]. split; [by apply removed_inv|]. intros fd'.
    rewrite (handle_at_update st _ fd None);
      [|lia|apply slot_lt; [done|lia]|done|]; cbn.
    + rewrite lookup_delete. repeat case_decide; naive_solver.
    + intros i l' Hne Hi. destruct (decide (l' = l)) as [->|].
      * by rewrite (released_shared _ (Z.to_nat fd) l o i), Ho.
      * by rewrite released_f_data.
Qed.

(** No object has been shared more than [n] times. *)
Definition counts_below (n : Z) (st : file_handle_table) : Prop :=
  forall l o, heap st !! l = Some o -> use_count o <= n.

Lemma simulate_dup n st m fd1 fd2 :
  table_repr st m -> counts_below n st -> n < INT_MAX -> 0 <= fd1 -> 0 <= fd2 -> simulated (TDup fd1 fd2) st m.
Proof.
  intros Hr Hcb Hn Hfd1 Hfd2. unfold simulated. simpl.
  destruct (geb_spec fd1) as [[E1 _]|[E1 Hlt1]];
    [|destruct (geb_spec fd2) as [[E2 _]|[E2 Hlt2]]]; rewrite ?E1, ?E2; simpl.
  1,2: exists st; unfold duplicate_file_handle; rewrite E1, ?E2; done.
  pose proof Hr as [Hinv Hm].
  assert (exists p, file_handles st !! Z.to_nat fd2 = Some p) as [p Hp].
  { apply lookup_lt_is_Some, slot_lt; [done|lia]. }
  assert (m !! fd2 = match p with Some l => f_data <$> heap st !! l | None => None end) as Hm2.
  { rewrite Hm, handle_at_in by lia. by rewrite Hp. }
  destruct (repr_slot _ _ fd1 Hr ltac:(lia)) as [[Hs ->]|(l & o & Hs & Ho & ->)]; simpl.
  - rewrite (duplicate_free _ fd1 fd2 p ltac:(lia) ltac:(lia) Hs Hp). exists st. rewrite Hm2. simpl.
    destruct p as [l2|]; [|done]. destruct (inv_live _ Hinv _ _ Hp) as (o2 & -> & _). done.
  - pose proof (Hcb _ _ Ho) as Hco.
    rewrite (duplicate_live _ Hinv fd1 fd2 l o p ltac:(lia) ltac:(lia) Hs Ho ltac:(lia) Hp). rewrite Hm2. simpl.
    assert (forall st', file_handles st' = <[Z.to_nat fd2 := Some l]> (file_handles st) ->
      heap st' = <[l := FHI (f_data o) (use_count o + 1)]> (heap st) ->
      forall fd', <[fd2 := f_data o]> m !! fd' = handle_at st' fd') as Hh.
    { intros st' H1 H2 fd'. rewrite (handle_at_update st _ fd2 (Some l));
        [|lia|apply slot_lt; [done|lia]|done|]; rewrite H2.
      - rewrite lookup_insert_eq, lookup_insert. repeat case_decide; naive_solver.
      - intros i l' _ _. destruct (decide (l' = l)) as [->|]; [by rewrite lookup_insert_eq, Ho|].
        by rewrite lookup_insert_ne. }
    destruct p as [l2|].
    + destruct (inv_live _ Hinv _ _ Hp) as (o2 & Ho2 & _).
      assert (exists o2', <[l:=FHI (f_data o) (use_count o + 1)]> (heap st) !! l2 = Some o2' /\
        f_data o2' = f_data o2) as (o2' & Ho2' & Hd).
      { destruct (decide (l2 = l)) as [->|]; [rewrite lookup_insert_eq|rewrite lookup_insert_ne by done];
          eexists; split; [reflexivity| by simplify_eq | exact Ho2| done]. }
      unfold deref; cbn [heap]. rewrite Ho2'. monad. rewrite Hd, Ho2.
      eexists. split; [reflexivity|]. split; [|by apply Hh].
      eapply duplicated_inv; eauto; try apply Hinv; simpl; lia.
    + eexists. split; [reflexivity|]. split; [|by apply Hh].
      pose proof (pos_lt _ Hinv _ Hp).
      eapply duplicated_inv; eauto; rewrite ?length_insert; try apply Hinv; try (simpl; lia).
      apply Forall_insert; [apply Hinv|lia].
Qed.

Lemma simulate_find st m fd : table_repr st m -> 0 <= fd -> simulated (TFind fd) st m.
Proof.
  intros [Hinv Hm] Hfd. unfold simulated. simpl. exists st.
  destruct (geb_spec fd) as [[E Hge]|[E Hlt]].
  - unfold lookup_file_handle. rewrite E, Hm. simpl. split; [|done].
    unfold handle_at. destruct (Z.ltb_spec fd MAX_FILES); [lia|]. by rewrite andb_false_r.
  - rewrite (lookup_eq _ Hinv fd) by lia. rewrite Hm, handle_at_in by lia. done.
Qed.

(** What an operation does to the table. *)
Inductive table_change (st : file_handle_table) : table_op -> file_handle_table -> Prop :=
| change_none o : table_change st o st
| change_insert fd d : 0 <= fd -> file_handles st !! Z.to_nat fd = Some None ->
    table_change st (TInsert fd d) (inserted fd d st)
| change_remove fd l o meta used pos : file_handles st !! Z.to_nat fd = Some (Some l) -> heap st !! l = Some o ->
    1 <= use_count o ->
    table_change st (TRemove fd)
      (FHT (<[Z.to_nat fd := None]> (file_handles st)) meta used pos (released l o (heap st)) (brk st) (memory st))
| change_dup fd1 fd2 l o q meta used pos : file_handles st !! Z.to_nat fd1 = Some (Some l) -> heap st !! l = Some o ->
    file_handles st !! Z.to_nat fd2 = Some q -> 0 <= fd2 < MAX_FILES ->
    table_change st (TDup fd1 fd2)
      (FHT (<[Z.to_nat fd2 := Some l]> (file_handles st)) meta used pos
         (<[l := FHI (f_data o) (use_count o + 1)]> (heap st)) (brk st) (memory st)).

Lemma dup_change st m fd1 fd2 r st' :
  table_repr st m -> 0 <= fd1 -> 0 <= fd2 -> table_op_exec (TDup fd1 fd2) st = Ret (r, st') ->
  table_change st (TDup fd1 fd2) st'.
Proof.
  intros Hr Hfd1 Hfd2 He. pose proof Hr as [Hinv Hm]. cbn [table_op_exec] in He.
  destruct (geb_spec fd1) as [[E1 _]|[E1 Hlt1]];
    [|destruct (geb_spec fd2) as [[E2 _]|[E2 Hlt2]]].
  1,2: unfold duplicate_file_handle in He; rewrite E1, ?E2 in He; simplify_eq/=; constructor.
  assert (exists q, file_handles st !! Z.to_nat fd2 = Some q) as [q Hq] by (apply lookup_lt_is_Some, slot_lt; [done|lia]).
  destruct (repr_slot _ _ fd1 Hr ltac:(lia)) as [[Hs _]|(l & o & Hs & Ho & _)].
  - rewrite (duplicate_free _ fd1 fd2 q ltac:(lia) ltac:(lia) Hs Hq) in He. monad; cbn in He.
    destruct q as [l|]; [destruct (heap st !! l)|]; simplify_eq/=; constructor.
  - destruct (decide (use_count o < INT_MAX)).
    + rewrite (duplicate_live _ Hinv fd1 fd2 l o q ltac:(lia) ltac:(lia) Hs Ho ltac:(lia) Hq) in He.
      unfold mbind, outcome_bind, deref in He. destruct q as [l'|]; cbn [heap] in He.
      * destruct (_ !! l') as [o'|]; simplify_eq/=. by apply (change_dup st fd1 fd2 l o (Some l')).
      * simplify_eq/=. by apply (change_dup st fd1 fd2 l o None).
    + by rewrite (duplicate_overflow _ Hinv fd1 fd2 l o q ltac:(lia) ltac:(lia) Hs Ho ltac:(lia) Hq) in He.
Qed.

Lemma table_op_change st m o r st' :
  table_repr st m -> Forall (Z.le 0) (op_fds o) -> table_op_exec o st = Ret (r, st') -> table_change st o st'.
Proof.
  intros Hr Ho He. pose proof Hr as [Hinv Hm].
  destruct o; simpl in Ho; repeat (apply Forall_cons_1 in Ho as [? Ho]); [| |by eapply dup_change|]; simpl in He.
  - destruct (geb_spec fd) as [[E _]|[E Hlt]].
    { unfold insert_file_handle in He. rewrite E in He. simplify_eq/=. constructor. }
    destruct (repr_slot _ _ fd Hr ltac:(lia)) as [[Hs _]|(l & o & Hs & Ho' & _)].
    + rewrite (insert_free _ Hinv fd d ltac:(lia) Hs) in He. simplify_eq/=. by constructor.
    + rewrite (insert_taken _ Hinv fd d l ltac:(lia) Hs) in He. simplify_eq/=. constructor.
  - destruct (geb_spec fd) as [[E _]|[E Hlt]].
    { unfold remove_file_handle in He. rewrite E in He. simplify_eq/=. constructor. }
    destruct (slot_cases _ Hinv fd ltac:(lia)) as [[_ Hs]|(l & o & _ & Hs & Ho' & ?)].
    + rewrite (remove_free _ fd ltac:(lia) Hs) in He. simplify_eq/=. constructor.
    + destruct (remove_live _ Hinv fd l o ltac:(lia) Hs Ho') as (meta & used & E' & _).
      rewrite E' in He. simplify_eq/=. apply (change_remove st fd l o); [done|done|lia].
  - unfold mbind, outcome_bind in He. destruct (lookup_file_handle fd st); simplify_eq/=. constructor.
Qed.

Lemma counts_step n st o st' : 0 <= n -> counts_below n st -> table_change st o st' -> counts_below (n + 1) st'.
Proof.
  intros Hn Hc [o'|fd d _ _|fd l x meta used pos _ Hx _|fd1 fd2 l x q meta used pos _ Hx _ _] l' y Hl'; cbn in Hl'.
  - specialize (Hc _ _ Hl'). lia.
  - apply lookup_insert_Some in Hl' as [[_ <-]|[_ Hl']]; [cbn; lia|]. specialize (Hc _ _ Hl'). lia.
  - pose proof (Hc _ _ Hx). unfold released in Hl'. destruct (_ =? 0).
    + apply lookup_delete_Some in Hl' as [_ Hl']. specialize (Hc _ _ Hl'). lia.
    + apply lookup_insert_Some in Hl' as [[_ <-]|[_ Hl']]; [cbn; lia|]. specialize (Hc _ _ Hl'). lia.
  - pose proof (Hc _ _ Hx). apply lookup_insert_Some in Hl' as [[_ <-]|[_ Hl']]; [cbn; lia|]. specialize (Hc _ _ Hl'). lia.
Qed.

Lemma table_step n st m o :
  table_repr st m -> counts_below n st -> 0 <= n < INT_MAX -> Forall (Z.le 0) (op_fds o) ->
  exists st', table_op_exec o st = Ret ((spec_op o m).1, st') /\ table_repr st' (spec_op o m).2 /\
    table_change st o st' /\ counts_below (n + 1) st'.
Proof.
  intros Hr Hc Hn Ho. assert (simulated o st m) as (st' & E & Hr').
  { destruct o; simpl in Ho; repeat (apply Forall_cons_1 in Ho as [? Ho]).
    - by apply simulate_insert.
    - by apply simulate_remove.
    - apply (simulate_dup n); [done..|lia|done|done].
    - by apply simulate_find. }
  exists st'. pose proof (table_op_change st m o _ st' Hr Ho E) as Hch. split; [exact E|]. split; [exact Hr'|]. split; [exact Hch|].
  apply (counts_step n st o st'); [lia|exact Hc|exact Hch].
Qed.

(** A run, and any property of tables that the operations of the run keep. *)
Lemma table_run_keeps (P : gmap Z file_handle_data -> file_handle_table -> Prop) (ok : gmap Z file_handle_data -> table_op -> Prop) os n st m :
  (forall m st o st', P m st -> ok m o -> table_repr st m -> table_change st o st' -> P (spec_op o m).2 st') ->
  table_repr st m -> counts_below n st -> 0 <= n -> n + Z.of_nat (length os) <= INT_MAX -> Forall (fun o => Forall (Z.le 0) (op_fds o)) os ->
  P m st -> (forall i o, os !! i = Some o -> ok (spec_run (take i os) m).2 o) ->
  exists st', table_run os st = Ret ((spec_run os m).1, st') /\ table_repr st' (spec_run os m).2 /\ P (spec_run os m).2 st' /\
    counts_below (n + Z.of_nat (length os)) st'.
Proof.
  intros Hkeep. revert n st m; induction os as [|o os IH]; intros n st m Hr Hc Hn Hlen Hos HP Hok; cbn [table_run spec_run length].
  - exists st. replace (n + Z.of_nat 0) with n by lia. done.
  - cbn [length] in Hlen. apply Forall_cons_1 in Hos as [Ho Hos].
    destruct (table_step n st m o Hr Hc ltac:(lia) Ho) as (st1 & -> & Hr1 & Hch & Hc1).
    pose proof (Hkeep _ _ _ _ HP (Hok 0%nat o eq_refl) Hr Hch) as HP1.
    assert (forall i o', os !! i = Some o' -> ok (spec_run (take i os) (spec_op o m).2).2 o') as Hok1.
    { intros i o' K. specialize (Hok (S i) o' K). cbn [take spec_run] in Hok.
      destruct (spec_op o m) as [r m1]. cbn [snd] in *. by destruct (spec_run (take i os) m1). }
    destruct (spec_op o m) as [r m1]. cbn [fst snd] in *. monad.
    destruct (IH (n + 1) st1 m1 Hr1 Hc1 ltac:(lia) ltac:(lia) Hos HP1 Hok1) as (st2 & -> & Hr2 & HP2 & Hc2).
    destruct (spec_run os m1) as [rs m2]. cbn [fst snd] in *. exists st2. split; [done|]. split; [done|]. split; [done|].
    replace (n + Z.of_nat (S (length os))) with (n + 1 + Z.of_nat (length os)) by lia. done.
Qed.

Lemma get_instance_repr : table_repr get_instance ∅.
Proof.
  split; [apply get_instance_inv|]. intros fd. rewrite lookup_empty. unfold handle_at.
  destruct (_ && _); [|done].
  destruct (file_handles get_instance !! Z.to_nat fd) as [p|] eqn:E; [|done].
  unfold get_instance in E. cbn [file_handles] in E.
  apply lookup_replicate in E as [-> _]. done.
Qed.

(** ** The array of descriptors in use *)

Lemma inserted_used st fd d :
  fht_inv st -> used_inv st -> 0 <= fd < MAX_FILES ->
  file_handles st !! Z.to_nat fd = Some None -> used_inv (inserted fd d st).
Proof.
  intros Hinv [H1 H2] Hfd Hn. pose proof (pos_lt _ Hinv _ Hn) as Hpos.
  pose proof (inv_len_fhs _ Hinv). pose proof (inv_len_meta _ Hinv).
  pose proof (inv_len_used _ Hinv).
  split; cbn.
  - intros i Hi. destruct (decide (i = used_file_descriptor_pos st)) as [->|Hne].
    + exists fd, (brk st). rewrite !list_lookup_insert_eq by lia. done.
    + destruct (H1 i ltac:(lia)) as (fd' & l & Hu & Hr & Hl & Hm).
      assert (Z.to_nat fd' <> Z.to_nat fd) by (intros E; rewrite E in Hl; congruence).
      exists fd', l. rewrite !list_lookup_insert_ne by lia. done.
  - intros fd' l Hfd' Hl. destruct (decide (fd' = fd)) as [->|Hne].
    + exists (used_file_descriptor_pos st). rewrite !list_lookup_insert_eq by lia. auto with lia.
    + rewrite list_lookup_insert_ne in Hl by lia.
      destruct (H2 fd' l Hfd' Hl) as (i & Hm & Hi & Hu). exists i.
      rewrite !list_lookup_insert_ne by lia. auto with lia.
Qed.

(** [unlink_file_descriptor] stores the index [pos - 1] where the descriptor at
    that index belongs; the two agree exactly when that descriptor is its own
    index, and then the array stays right. *)
Lemma unlinked_used st fd l st' :
  fht_inv st -> used_inv st -> 0 <= fd < MAX_FILES ->
  file_handles st !! Z.to_nat fd = Some (Some l) ->
  used_file_descriptors st !! Z.to_nat (used_file_descriptor_pos st - 1)
    = Some (used_file_descriptor_pos st - 1) ->
  unlink_file_descriptor fd st = Ret st' -> used_inv st'.
Proof.
  intros Hinv [H1 H2] Hfd Hl Hlast Hu. pose proof (pos_ge _ Hinv _ _ Hl) as Hpos.
  pose proof (inv_len_fhs _ Hinv). pose proof (inv_len_meta _ Hinv).
  pose proof (inv_len_used _ Hinv).
  destruct (H2 fd l (proj1 Hfd) Hl) as (m & Hm & Hmr & Hum).
  destruct (H1 (used_file_descriptor_pos st - 1) ltac:(lia)) as (x & lx & Hx & Hxr & Hlx & Hmx).
  assert (x = used_file_descriptor_pos st - 1) by congruence. subst x.
  destruct (unlink_closed _ Hinv fd l Hfd Hl) as (m' & Hm' & _ & Hc).
  rewrite Hc in Hu. clear Hc. cbv zeta in Hu. simplify_eq.
  destruct (used_file_descriptor_pos st >? 1) eqn:E.
  - bools.
    split; cbn.
    + intros i Hi. destruct (decide (i = m)) as [->|Him].
      * exists (used_file_descriptor_pos st - 1), lx.
        assert (fd <> used_file_descriptor_pos st - 1) by (intros ->; simplify_eq; lia).
        rewrite !list_lookup_insert_eq, list_lookup_insert_ne by lia. auto with lia.
      * destruct (H1 i ltac:(lia)) as (fd' & l' & Hu' & Hr' & Hl' & Hm').
        exists fd', l'.
        assert (fd' <> fd) by (intros ->; simplify_eq).
        assert (fd' <> used_file_descriptor_pos st - 1) by (intros ->; simplify_eq; lia).
        rewrite !list_lookup_insert_ne by lia. auto with lia.
    + intros fd' l' Hfd' Hl'.
      destruct (decide (fd' = fd)) as [->|Hne].
      { rewrite list_lookup_insert_eq in Hl' by lia. discriminate. }
      rewrite list_lookup_insert_ne in Hl' by lia.
      destruct (H2 fd' l' Hfd' Hl') as (i & Hm' & Hi & Hu').
      destruct (decide (fd' = used_file_descriptor_pos st - 1)) as [->|Hne'].
      * exists m. rewrite !list_lookup_insert_eq by lia.
        assert (m <> used_file_descriptor_pos st - 1) by (intros ->; simplify_eq). auto with lia.
      * exists i. assert (i <> m) by (intros ->; simplify_eq).
        assert (i <> used_file_descriptor_pos st - 1) by (intros ->; simplify_eq).
        rewrite !list_lookup_insert_ne by lia. auto with lia.
  - assert (used_file_descriptor_pos st = 1) as Hp1 by (rewrite Z.gtb_ltb in E; bools; lia).
    split; cbn; [intros; lia|]. intros fd' l' Hfd' Hl'.
    destruct (decide (fd' = fd)) as [->|Hne].
    { rewrite list_lookup_insert_eq in Hl' by lia. discriminate. }
    rewrite list_lookup_insert_ne in Hl' by lia.
    destruct (H2 fd' l' Hfd' Hl') as (i & Hm' & Hi & Hu').
    assert (i = 0) by lia. assert (m = 0) by lia. simplify_eq.
Qed.

(** ** Reference counts are exact *)

Lemma inserted_exact st fd d :
  fht_inv st -> fht_exact st -> file_handles st !! Z.to_nat fd = Some None ->
  fht_exact (inserted fd d st).
Proof.
  intros Hinv Hex Hn l o Hl. cbn in *. rewrite (refs_insert _ _ _ _ _ Hn), points_to_None.
  apply lookup_insert_Some in Hl as [[<- <-]|[Hne Hl]].
  - rewrite points_to_same, (brk_refs _ Hinv). simpl. lia.
  - rewrite points_to_ne by done. destruct (Hex _ _ Hl). simpl. lia.
Qed.

Lemma removed_exact st fd l o meta used pos :
  fht_exact st -> file_handles st !! fd = Some (Some l) -> heap st !! l = Some o ->
  fht_exact (FHT (<[fd := None]> (file_handles st)) meta used pos (released l o (heap st)) (brk st) (memory st)).
Proof.
  intros Hex Hs Ho l' o' Hl. cbn in *. destruct (Hex _ _ Ho) as [Hc Hc1].
  rewrite (refs_insert _ _ _ _ _ Hs), points_to_None. unfold released in Hl.
  destruct (Z.eqb_spec (use_count o - 1) 0).
  - apply lookup_delete_Some in Hl as [Hne Hl]. rewrite points_to_ne by done.
    destruct (Hex _ _ Hl). simpl. lia.
  - apply lookup_insert_Some in Hl as [[<- <-]|[Hne Hl]].
    + rewrite points_to_same. simpl. lia.
    + rewrite points_to_ne by done. destruct (Hex _ _ Hl). simpl. lia.
Qed.

Lemma duplicated_exact st fd1 fd2 l o meta used pos :
  fht_exact st -> file_handles st !! fd1 = Some (Some l) -> heap st !! l = Some o ->
  file_handles st !! fd2 = Some None ->
  fht_exact (FHT (<[fd2 := Some l]> (file_handles st)) meta used pos
               (<[l := FHI (f_data o) (use_count o + 1)]> (heap st)) (brk st) (memory st)).
Proof.
  intros Hex Hs Ho Hn l' o' Hl. cbn in *. rewrite (refs_insert _ _ _ _ _ Hn), points_to_None.
  apply lookup_insert_Some in Hl as [[<- <-]|[Hne Hl]].
  - destruct (Hex _ _ Ho). rewrite points_to_same. simpl. lia.
  - destruct (Hex _ _ Hl). rewrite points_to_ne by done. simpl. lia.
Qed.

(** No [duplicate] of the sequence replaces an open descriptor. *)
Fixpoint dups_free (os : list table_op) (m : gmap Z file_handle_data) : bool :=
  match os with
  | [] => true
  | o :: os =>
      match o with TDup _ fd2 => bool_decide (m !! fd2 = None) | _ => true end
      && dups_free os (spec_op o m).2
  end.

Definition dup_free (m : gmap Z file_handle_data) (o : table_op) : Prop :=
  match o with TDup _ fd2 => m !! fd2 = None | _ => True end.

Lemma dups_free_at os m i o : dups_free os m = true -> os !! i = Some o -> dup_free (spec_run (take i os) m).2 o.
Proof.
  revert m i. induction os as [|o' os IH]; intros m i Hd Hi; [done|]. cbn [dups_free] in Hd.
  apply andb_prop in Hd as [Hd1 Hd2]. destruct i as [|i].
  - injection Hi as ->. cbn. destruct o; try done. by bools.
  - specialize (IH _ i Hd2 Hi). cbn [take spec_run]. destruct (spec_op o' m) as [r m1]. cbn [snd] in IH.
    by destruct (spec_run (take i os) m1).
Qed.

Lemma exact_step m st o st' :
  fht_exact st -> dup_free m o -> table_repr st m -> table_change st o st' -> fht_exact st'.
Proof.
  intros Hex Hd Hr Hch. pose proof Hr as [Hinv Hm]. destruct Hch as [o|fd d _ Hn|fd l x meta used pos Hl Hx _|fd1 fd2 l x q meta used pos Hl Hx Hq Hfd2].
  - done.
  - by apply inserted_exact.
  - by apply removed_exact.
  - cbn in Hd. destruct (repr_slot _ _ fd2 Hr Hfd2) as [[Hs _]|(? & ? & ? & ? & ?)]; [|congruence].
    by eapply duplicated_exact.
Qed.

(** An object that is counted more often than it is shared stays for good. *)
Definition overcounted (l : positive) (st : file_handle_table) : Prop :=
  exists o, heap st !! l = Some o /\ refs l (file_handles st) < use_count o.

Lemma overcounted_step l m st o st' :
  overcounted l st -> table_repr st m -> table_change st o st' -> overcounted l st'.
Proof.
  intros (o0 & Ho0 & Hc0) [Hinv _] Hch. destruct Hch as [o|fd d _ Hn|fd l' x meta used pos Hl Hx _|fd1 fd2 l' x q meta used pos Hl Hx Hq _]; cbn.
  - by exists o0.
  - assert (l <> brk st) as Hne by (intros ->; by rewrite (brk_fresh _ Hinv) in Ho0).
    exists o0. cbn. rewrite lookup_insert_ne, (refs_insert _ _ _ _ _ Hn), points_to_None, points_to_ne by done. cbn. split; [done|lia].
  - unfold overcounted. cbn. rewrite (refs_insert _ _ _ _ _ Hl), points_to_None. destruct (decide (l = l')) as [<-|Hne].
    + assert (x = o0) as -> by congruence. pose proof (refs_pos _ _ _ Hl). unfold released.
      destruct (Z.eqb_spec (use_count o0 - 1) 0); [lia|]. rewrite lookup_insert_eq, points_to_same.
      eexists. split; [done|]. cbn. lia.
    + rewrite released_f_data, points_to_ne by done. exists o0. cbn. split; [done|lia].
  - unfold overcounted. cbn. rewrite (refs_insert _ _ _ _ _ Hq). pose proof (bool_z (points_to l q)). destruct (decide (l = l')) as [<-|Hne].
    + assert (x = o0) as -> by congruence. rewrite lookup_insert_eq, points_to_same. eexists. split; [done|]. cbn. lia.
    + rewrite lookup_insert_ne, points_to_ne by done. exists o0. cbn. split; [done|lia].
Qed.

(** A duplicate over an open descriptor: nobody gives up the object it replaces. *)
Lemma replaced_overcounted st m fd1 fd2 l1 l2 r st' :
  table_repr st m -> fht_exact st -> 0 <= fd1 < MAX_FILES -> 0 <= fd2 < MAX_FILES ->
  file_handles st !! Z.to_nat fd1 = Some (Some l1) -> file_handles st !! Z.to_nat fd2 = Some (Some l2) -> l1 <> l2 ->
  table_op_exec (TDup fd1 fd2) st = Ret (r, st') -> overcounted l2 st'.
Proof.
  intros [Hinv Hm] Hex Hfd1 Hfd2 H1 H2 Hne He. destruct (inv_live _ Hinv _ _ H1) as (o1 & Ho1 & _).
  destruct (inv_live _ Hinv _ _ H2) as (o2 & Ho2 & _). cbn [table_op_exec] in He.
  destruct (decide (use_count o1 < INT_MAX)).
  - rewrite (duplicate_live _ Hinv fd1 fd2 l1 o1 (Some l2) Hfd1 Hfd2 H1 Ho1 ltac:(lia) H2) in He.
    unfold mbind, outcome_bind, deref in He. cbn [heap] in He. rewrite lookup_insert_ne, Ho2 in He by done. simplify_eq/=.
    exists o2. cbn. rewrite lookup_insert_ne, (refs_insert _ _ _ _ _ H2), points_to_same, points_to_ne by done.
    destruct (Hex _ _ Ho2). split; [done|]. cbn. lia.
  - by rewrite (duplicate_overflow _ Hinv fd1 fd2 l1 o1 _ Hfd1 Hfd2 H1 Ho1 ltac:(lia) H2) in He.
Qed.

Lemma exact_empty st : table_repr st ∅ -> fht_exact st -> heap st = ∅.
Proof.
  intros [Hinv Hm] Hex. apply map_eq. intros l. rewrite lookup_empty.
  destruct (heap st !! l) as [o|] eqn:E; [|done]. destruct (Hex _ _ E) as [Hc Hc1].
  assert (refs l (file_handles st) = 0); [|lia].
  apply count_0. intros p Hp. apply bool_decide_eq_false. intros ->.
  apply list_elem_of_lookup in Hp as [i Hi].
  pose proof (lookup_lt_Some _ _ _ Hi). pose proof (inv_len_fhs _ Hinv).
  pose proof (Hm (Z.of_nat i)) as Hmi. rewrite handle_at_in in Hmi by lia.
  rewrite Nat2Z.id, Hi, E in Hmi. by rewrite lookup_empty in Hmi.
Qed.

(** ** Properties *)

(** C2: From the empty table, any sequence of fewer than [2^31] inserts, removes,
    duplicates and lookups on non-negative descriptors runs without undefined
    behaviour while [malloc] has memory, returns exactly the error codes and handles
    of the finite-map specification, and ends in a table that satisfies the
    invariant and represents the specification's map.  The two conditions are the
    only ones: in every such table a duplicate of an object whose count is
    [INT_MAX] overflows the count, and an insert that gets no memory writes through
    the null pointer. *)
Theorem table_refines_map (os : list table_op) :
  Forall (fun o => Forall (Z.le 0) (op_fds o)) os -> Z.of_nat (length os) <= INT_MAX ->
  (exists st', table_run os get_instance = Ret ((spec_run os ∅).1, st') /\
    fht_inv st' /\ forall fd, (spec_run os ∅).2 !! fd = handle_at st' fd) /\
  (forall st fd1 fd2 l o, fht_inv st -> 0 <= fd1 < MAX_FILES -> 0 <= fd2 < MAX_FILES ->
     file_handles st !! Z.to_nat fd1 = Some (Some l) -> heap st !! l = Some o -> use_count o = INT_MAX ->
     duplicate_file_handle fd1 fd2 st = Undef) /\
  (forall st fd d, fht_inv st -> 0 <= fd < MAX_FILES -> handle_at st fd = None ->
     insert_file_handle fd d (without_memory st) = Undef).
Proof.
  intros Hos Hlen. split; [|split].
  - destruct (table_run_keeps (fun _ _ => True) (fun _ _ => True) os 0 _ _ ltac:(done) get_instance_repr) as (st' & E & [? ?] & _);
      try done. by exists st'.
  - intros st fd1 fd2 l o Hinv Hfd1 Hfd2 H1 Ho Hc.
    destruct (proj2 (lookup_lt_is_Some (file_handles st) (Z.to_nat fd2)) (slot_lt st fd2 Hinv Hfd2)) as [q Hq].
    apply (duplicate_overflow st Hinv fd1 fd2 l o q); [done..|lia|done].
  - intros st fd d Hinv Hfd Hn. apply insert_no_memory; [done|]. rewrite handle_at_in in Hn by done.
    destruct (slot_cases _ Hinv fd Hfd) as [[_ Hs]|(l & o & _ & Hs & Ho & _)]; [done|]. by rewrite Hs, Ho in Hn.
Qed.

(** An object shared as often as its type allows. *)
Definition saturated : file_handle_table :=
  set_heap {[1%positive := FHI (FHD 7 0) INT_MAX]} (inserted 3 (FHD 7 0) get_instance).
Lemma saturated_inv : fht_inv saturated.
Proof.
  pose proof (inserted_inv _ get_instance_inv 3 (FHD 7 0) ltac:(by unfold MAX_FILES) eq_refl) as H.
  split; try apply H.
  - intros i l Hi. destruct (inv_live _ H i l Hi) as (o & Ho & Hr). unfold saturated in *. cbn [heap set_heap].
    change (heap (inserted 3 (FHD 7 0) get_instance)) with ({[1%positive := FHI (FHD 7 0) 1]} : gmap positive file_handle_data_internal) in Ho.
    apply lookup_singleton_Some in Ho as [<- <-]. eexists. rewrite lookup_singleton_eq. split; [done|].
    change (file_handles (set_heap {[1%positive := FHI (FHD 7 0) INT_MAX]} (inserted 3 (FHD 7 0) get_instance)))
      with (file_handles (inserted 3 (FHD 7 0) get_instance)). cbn [use_count] in *. unfold INT_MAX. lia.
  - intros l [o Hl]. unfold saturated in *. cbn [heap set_heap] in Hl. by apply lookup_singleton_Some in Hl as [<- _].
  - intros l o Hl. unfold saturated in *. cbn [heap set_heap] in Hl. by apply lookup_singleton_Some in Hl as [_ <-].
Qed.

Lemma table_refines_map_witness :
  let a := FHD 7 0 in let b := FHD 9 1 in
  (exists st', table_run [TInsert 3 a; TInsert 3 b; TInsert 1024 b; TDup 3 4; TRemove 3; TFind 4; TRemove 3]
      get_instance =
    Ret ([(0, None); (EEXIST, None); (EBADF, None); (0, None); (0, None); (0, Some a); (ENOENT, None)], st') /\
    fht_inv st' /\ forall fd, (delete 3 (<[4 := a]> {[3 := a]}) : gmap Z file_handle_data) !! fd = handle_at st' fd) /\
  duplicate_file_handle 3 3 saturated = Undef /\ insert_file_handle 3 a (without_memory get_instance) = Undef.
Proof.
  destruct (table_refines_map
    [TInsert 3 (FHD 7 0); TInsert 3 (FHD 9 1); TInsert 1024 (FHD 9 1); TDup 3 4; TRemove 3; TFind 4; TRemove 3]) as (H1 & H2 & H3).
  - repeat constructor; simpl; lia.
  - by cbn.
  - split; [exact H1|]. split.
    + by apply (H2 saturated 3 3 1%positive (FHI (FHD 7 0) INT_MAX) saturated_inv).
    + by apply (H3 get_instance 3 (FHD 7 0) get_instance_inv).
Defined.

(** C35: When no duplicate of the sequence (of fewer than [2^31] operations) replaces
    an open descriptor, the use count of every object on the heap is exactly the
    number of descriptors that refer to it, and once every descriptor is removed no
    object is left: nothing is freed early, freed twice or leaked.  A duplicate that
    does replace an open descriptor, of another object, leaks that object: the count
    is never taken back, so no later operation frees it. *)
Theorem table_counts_exact (os : list table_op) :
  Forall (fun o => Forall (Z.le 0) (op_fds o)) os -> dups_free os ∅ = true -> Z.of_nat (length os) <= INT_MAX ->
  exists st', table_run os get_instance = Ret ((spec_run os ∅).1, st') /\ fht_exact st' /\
    ((spec_run os ∅).2 = ∅ -> heap st' = ∅) /\
    (forall fd1 fd2 l1 l2 os', 0 <= fd1 < MAX_FILES -> 0 <= fd2 < MAX_FILES ->
       file_handles st' !! Z.to_nat fd1 = Some (Some l1) -> file_handles st' !! Z.to_nat fd2 = Some (Some l2) -> l1 <> l2 ->
       Forall (fun o => Forall (Z.le 0) (op_fds o)) os' -> Z.of_nat (length os + 1 + length os') <= INT_MAX ->
       exists rs st'', table_run (TDup fd1 fd2 :: os') st' = Ret (rs, st'') /\ is_Some (heap st'' !! l2)).
Proof.
  intros Hos Hd Hlen.
  destruct (table_run_keeps (fun _ => fht_exact) dup_free os 0 _ _ exact_step get_instance_repr) as (st' & Hrun & Hr & Hex & Hc); try done.
  { intros i o. by apply dups_free_at. }
  exists st'. split; [done|]. split; [done|]. split; [intros E; rewrite E in Hr; by apply exact_empty|].
  intros fd1 fd2 l1 l2 os' Hfd1 Hfd2 H1 H2 Hne Hos' Hlen'.
  destruct (table_step (0 + Z.of_nat (length os)) st' (spec_run os ∅).2 (TDup fd1 fd2) Hr Hc ltac:(lia)) as (st1 & E1 & Hr1 & _ & Hc1).
  { repeat constructor; lia. }
  pose proof (replaced_overcounted st' _ fd1 fd2 l1 l2 _ st1 Hr Hex Hfd1 Hfd2 H1 H2 Hne E1) as Hov.
  destruct (table_run_keeps (fun _ => overcounted l2) (fun _ _ => True) os' _ st1 _
    (fun m st o st2 K _ => overcounted_step l2 m st o st2 K) Hr1 Hc1) as (st2 & E2 & _ & (o & Ho & _) & _); try done; try lia.
  cbn [table_run]. rewrite E1. monad. rewrite E2. eauto.
Qed.

Lemma table_counts_exact_witness :
  let os := [TInsert 3 (FHD 7 0); TDup 3 4; TDup 4 5; TRemove 3; TRemove 5; TInsert 6 (FHD 8 0)] in
  exists st', table_run os get_instance = Ret ((spec_run os ∅).1, st') /\ fht_exact st' /\
    exists rs st'', table_run [TDup 6 4; TRemove 6; TRemove 4] st' = Ret (rs, st'') /\ is_Some (heap st'' !! 1%positive).
Proof.
  destruct (table_counts_exact [TInsert 3 (FHD 7 0); TDup 3 4; TDup 4 5; TRemove 3; TRemove 5; TInsert 6 (FHD 8 0)]) as (st' & E & Hex & _ & Hl).
  - repeat constructor; simpl; lia.
  - vm_compute. reflexivity.
  - by cbn.
  - exists st'. split; [done|]. split; [done|].
    assert (match table_run [TInsert 3 (FHD 7 0); TDup 3 4; TDup 4 5; TRemove 3; TRemove 5; TInsert 6 (FHD 8 0)] get_instance with
            | Ret (_, st) => (file_handles st !! 6%nat, file_handles st !! 4%nat) | _ => (None, None) end
            = (Some (Some 2%positive), Some (Some 1%positive))) as Hs by (vm_compute; reflexivity).
    rewrite E in Hs. injection Hs as H6 H4.
    clear E. apply (Hl 6 4 2%positive 1%positive [TRemove 6; TRemove 4]); [by unfold MAX_FILES..|exact H6|exact H4|done| |].
    + repeat constructor; simpl; lia.
    + by unfold INT_MAX.
Defined.

(** C36: The array of descriptors in use stays a faithful enumeration of the
    table, each descriptor at its recorded position, when a descriptor is
    inserted, and when one is removed while the last entry of the array is the
    descriptor equal to its own index. *)
Theorem used_array_faithful (st : file_handle_table) (fd : Z) (d : file_handle_data) :
  fht_inv st -> used_inv st -> 0 <= fd < MAX_FILES ->
  match handle_at st fd with
  | None => exists st', insert_file_handle fd d st = Ret (0, st') /\ used_inv st'
  | Some _ =>
      used_file_descriptors st !! Z.to_nat (used_file_descriptor_pos st - 1)
        = Some (used_file_descriptor_pos st - 1) ->
      exists st', remove_file_handle fd st = Ret (0, st') /\ used_inv st'
  end.
Proof.
  intros Hinv Hu Hfd. rewrite handle_at_in by done.
  destruct (slot_cases _ Hinv fd Hfd) as [[_ Hs]|(l & o & _ & Hs & Ho & _)]; rewrite Hs.
  - rewrite (insert_free _ Hinv fd d Hfd Hs). eauto using inserted_used.
  - rewrite Ho. simpl. intros Hlast.
    destruct (remove_live _ Hinv fd l o Hfd Hs Ho) as (meta & used & -> & Hul & _).
    eexists. split; [reflexivity|]. exact (unlinked_used st fd l _ Hinv Hu Hfd Hs Hlast Hul).
Qed.

Lemma get_instance_used : used_inv get_instance.
Proof.
  split; unfold get_instance; cbn [file_handles used_file_descriptor_pos]; [intros; lia|].
  intros fd l _ H. by apply lookup_replicate in H as [? _].
Qed.

Definition two_open : file_handle_table := inserted 1 (FHD 8 0) (inserted 0 (FHD 7 0) get_instance).
Lemma two_open_inv : fht_inv two_open /\ used_inv two_open.
Proof.
  assert (fht_inv (inserted 0 (FHD 7 0) get_instance)).
  { apply inserted_inv; [apply get_instance_inv|done..]. }
  assert (used_inv (inserted 0 (FHD 7 0) get_instance)).
  { apply inserted_used; [apply get_instance_inv|apply get_instance_used|done..]. }
  unfold two_open. split; [by apply inserted_inv|by apply inserted_used].
Qed.

Lemma used_array_faithful_witness :
  exists st', remove_file_handle 0 two_open = Ret (0, st') /\ used_inv st'.
Proof.
  refine (used_array_faithful two_open 0 (FHD 7 0) (proj1 two_open_inv) (proj2 two_open_inv) _ _).
  - unfold MAX_FILES; lia.
  - vm_compute. reflexivity.
Defined.

(** In general removal corrupts the array: after descriptors 3 and 4 are
    opened and 3 is closed, the table holds exactly descriptor 4, but the array
    of the descriptors in use lists descriptor 1, which is not open. *)
Theorem unlink_corrupts_used_array (a b : file_handle_data) :
  exists st', table_run [TInsert 3 a; TInsert 4 b; TRemove 3] get_instance
      = Ret ([(0, None); (0, None); (0, None)], st') /\
    used_file_descriptor_pos st' = 1 /\
    used_file_descriptors st' !! 0%nat = Some 1 /\
    handle_at st' 1 = None /\ handle_at st' 4 = Some b.
Proof. eexists. split; [vm_compute; reflexivity|]. vm_compute. auto. Qed.
