(* ===== verification/Paths.v ===== *)
(** * Path resolution (src/libdefuse/util.c)

    [resolve_path] makes a path absolute in a stack buffer of [PATH_MAX] bytes
    and removes the components "." and "" and the pairs "x/.." by moving the
    tail of the buffer, with [memmove], over what is dropped.  The functions
    below work on the buffer, byte for byte, as the C code does.

    The specification splits the path into components and is a fold over them
    with a stack; [resolve_path_normalizes] shows that the buffer code computes it. *)

From Stdlib Require Import ZArith Lia Ascii String.
From stdpp Require Import base list sets.
From S2P Require Import Prelude.

Local Open Scope nat_scope.

Definition PATH_MAX : nat := Z.to_nat 4096.

Definition slash : ascii := "/"%char.

(** ** The code *)

(** A copy of [size] bytes at [ptr]. *)
Definition memdup (ptr : list ascii) (size : nat) : outcome (list ascii) :=
  if size <=? length ptr then Ret (take size ptr) else Undef.

(** A difference of sizes; when it is negative the [size_t] wraps to a length
    that no buffer has. *)
Definition sub_size (a b : nat) : outcome nat := if b <=? a then Ret (a - b) else Undef.

(** [p[i] = 0] *)
Definition terminate (b : list ascii) (i : nat) : outcome (list ascii) :=
  if i <? length b then Ret (<[i := nul]> b) else Undef.

Fixpoint remove_path_string_loop (fuel : nat) (p str : list ascii) (str_len p_len : nat)
  : outcome (list ascii) :=
  match strstr (cstr p) str with
  | None => Ret p
  | Some p_ptr =>
      match fuel with
      | O => Undef
      | S fuel =>
          let! n := sub_size p_len p_ptr in
          let! p := memmove p p_ptr (p_ptr + str_len) n in
          let! i := sub_size p_len str_len in
          let! p := terminate p i in
          remove_path_string_loop fuel p str str_len (p_len - str_len)
      end
  end.

Definition remove_path_string (p str : list ascii) : outcome (list ascii) :=
  let str_len := length str - 1 in
  let! p_len := strlen p in
  remove_path_string_loop (length p) p str str_len p_len.

(** The loop that moves [p_start] back from [i - 1] to the last slash before it;
    [None] when it runs off the start of the buffer. *)
Fixpoint last_slash_before (p : list ascii) (i : nat) : option nat :=
  match i with
  | O => None
  | S i => match p !! i with
           | Some c => if Ascii.eqb c slash then Some i else last_slash_before p i
           | None => None
           end
  end.

(** One round of the loop: the string up to [p_start] joined with the one from
    [p_end], and its length. *)
Definition remove_dot_dot_step (p : list ascii) (p_len p_ptr : nat) : outcome (list ascii * nat) :=
  let p_end := p_ptr + (length (lit "/../") - 1) in
  let! p_start := deref (last_slash_before p p_ptr) in
  let chars_to_remove := p_end - p_start in
  let! n := sub_size p_len chars_to_remove in
  let! p := memmove p p_start p_end n in
  let! p := terminate p (p_len - chars_to_remove) in
  Ret (p, p_len - chars_to_remove).

Fixpoint remove_dot_dot_loop (fuel : nat) (p : list ascii) (p_len : nat) : outcome (list ascii) :=
  match strstr (cstr p) (lit "/../") with
  | None => Ret p
  | Some O => Ret p
  | Some p_ptr =>
      match fuel with
      | O => Undef
      | S fuel =>
          let! (p, p_len) := remove_dot_dot_step p p_len p_ptr in
          remove_dot_dot_loop fuel p p_len
      end
  end.

Definition remove_dot_dot (p : list ascii) : outcome (list ascii) :=
  let! p_len := strlen p in
  remove_dot_dot_loop (length p) p p_len.

(** The absolute path in the buffer: [path] is the uninitialised stack buffer,
    [cwd] what [get_current_dir_name] returns. *)
Definition make_absolute (path : list ascii) (cwd : option (list ascii)) (p : list ascii)
  : outcome (list ascii) :=
  if bool_decide (hd_error p = Some slash) then strncpy path 0 p PATH_MAX
  else
    let! cwd := deref cwd in
    let p_pos := length cwd in
    let! path := strncpy path 0 cwd PATH_MAX in
    let! n := sub_size PATH_MAX p_pos in
    let! path := strncpy path p_pos (lit "/") n in
    let! n := sub_size PATH_MAX (p_pos + 1) in
    strncpy path (p_pos + 1) p n.

(** The result is the [strdup] of the buffer. *)
Definition resolve_path (path : list ascii) (cwd : option (list ascii)) (p : option (list ascii))
  : outcome (option (list ascii)) :=
  match p with
  | None | Some [] => Ret None
  | Some p =>
      let! path := make_absolute path cwd p in
      do! strlen path;
      let! path := remove_path_string path (lit "/./") in
      let! path := remove_path_string path (lit "//") in
      let! path := remove_dot_dot path in
      do! strlen path;
      Ret (Some (cstr path))
  end.

(** ** Specification on components *)

Definition path := list (list ascii).

(** The components of the path [slash :: s]. *)
Fixpoint split_slash (s : list ascii) : path :=
  match s with
  | [] => [[]]
  | c :: s =>
      if Ascii.eqb c slash then [] :: split_slash s
      else match split_slash s with
           | [] => [[c]]
           | x :: xs => (c :: x) :: xs
           end
  end.

Fixpoint print (cs : path) : list ascii :=
  match cs with
  | [] => []
  | c :: cs => slash :: c ++ print cs
  end.

(** Drops the components equal to [x], except a last one. *)
Fixpoint drop_comps (x : list ascii) (cs : path) : path :=
  match cs with
  | [] => []
  | [c] => [c]
  | c :: cs => if bool_decide (c = x) then drop_comps x cs else c :: drop_comps x cs
  end.

(** Every ".." that is not the last component takes the component before it
    away; a ".." with nothing before it ends the work. *)
Fixpoint pop_comps (stack : path) (cs : path) : path :=
  match cs with
  | [] => rev stack
  | [c] => rev stack ++ [c]
  | c :: cs' =>
      if bool_decide (c = lit "..") then
        match stack with
        | [] => cs
        | _ :: stack => pop_comps stack cs'
        end
      else pop_comps (c :: stack) cs'
  end.

Definition normalize (cs : path) : path := pop_comps [] (drop_comps (lit "") (drop_comps (lit ".") cs)).

(** ** Buffers that hold a string *)

Definition holds (b s : list ascii) : Prop :=
  exists rest, b = s ++ nul :: rest /\ nonul s.

Lemma holds_cstr b s : holds b s -> cstr b = s.
Proof. intros (rest & -> & ?). by apply cstr_app_nul. Qed.
Lemma holds_strlen b s : holds b s -> strlen b = Ret (length s).
Proof. intros (rest & -> & ?). by apply strlen_app_nul. Qed.
Lemma holds_length b s : holds b s -> length s < length b.
Proof. intros (rest & -> & ?). rewrite length_app. simpl. lia. Qed.
Lemma holds_nonul b s : holds b s -> nonul s.
Proof. by intros (rest & -> & ?). Qed.

Lemma nonul_app s t : nonul (s ++ t) <-> nonul s /\ nonul t.
Proof. unfold nonul. set_solver. Qed.
Lemma nonul_take n s : nonul s -> nonul (take n s).
Proof. unfold nonul. intros H ?. apply H. eapply elem_of_take in H0 as (? & ? & ?). by eapply list_elem_of_lookup_2. Qed.
Lemma nonul_drop n s : nonul s -> nonul (drop n s).
Proof. unfold nonul. intros H E. apply H. rewrite <- (take_drop n s). set_solver. Qed.

(** Moving the tail of the string from [src] down to [dst] and putting a NUL
    after it deletes the characters between. *)
Lemma buffer_delete b s dst src n :
  holds b s -> dst < src <= length s -> src + n <= length b -> dst + n <= length b ->
  length s - src <= n ->
  exists b', (let! b := memmove b dst src n in terminate b (dst + (length s - src))) = Ret b' /\
    holds b' (take dst s ++ drop src s) /\ length b' = length b.
Proof.
  intros (rest & -> & Hn) Hds Hsrc Hdst Hlen. unfold memmove.
  rewrite (proj2 (Nat.leb_le _ _) Hsrc), (proj2 (Nat.leb_le _ _) Hdst). simpl.
  unfold mbind, outcome_bind, terminate.
  rewrite (take_app_le s) by lia. rewrite (drop_app_le s) by lia.
  rewrite (take_app_ge (drop src s)) by (rewrite length_drop; lia).
  set (tail := take (n - length (drop src s)) (nul :: rest) ++ drop (dst + n) (s ++ nul :: rest)).
  replace (take dst s ++ (drop src s ++ _) ++ _) with ((take dst s ++ drop src s) ++ tail)
    by (unfold tail; by rewrite <- !app_assoc).
  assert (length (take dst s ++ drop src s) = dst + (length s - src)) as Hl
    by (rewrite length_app, length_take, length_drop; lia).
  rewrite length_app in Hsrc, Hdst. simpl in Hsrc, Hdst.
  assert (length ((take dst s ++ drop src s) ++ tail) = length s + S (length rest)) as Htot.
  { unfold tail. rewrite !length_app, !length_take, !length_drop, !length_app. simpl. lia. }
  rewrite Htot.
  destruct (Nat.ltb_spec (dst + (length s - src)) (length s + S (length rest))); [|lia].
  destruct tail as [|x tail'].
  { rewrite length_app, Hl in Htot. simpl in Htot. lia. }
  eexists. split; [reflexivity|]. split.
  - exists tail'. split; [|apply nonul_app; auto using nonul_take, nonul_drop].
    rewrite insert_app_r_alt by lia. rewrite Hl, Nat.sub_diag. done.
  - rewrite length_insert, Htot, length_app. done.
Qed.

(** ** Components *)

Definition noslash (c : list ascii) : Prop := slash ∉ c.

Lemma print_app cs ds : print (cs ++ ds) = print cs ++ print ds.
Proof. induction cs as [|c cs IH]; simpl; [done|]. by rewrite IH, <- app_assoc. Qed.

Lemma split_slash_spec s :
  print (split_slash s) = slash :: s /\ Forall noslash (split_slash s) /\ split_slash s <> [].
Proof.
  induction s as [|c s (IH1 & IH2 & IH3)]; simpl.
  - repeat constructor; [|done]. unfold noslash. set_solver.
  - destruct (Ascii.eqb_spec c slash) as [->|Hc].
    + simpl. rewrite IH1. split; [done|]. split; [|done]. constructor; [|done].
      unfold noslash. set_solver.
    + destruct (split_slash s) as [|x xs]; [done|]. simpl in *.
      injection IH1 as IH1. rewrite IH1. split; [done|]. split; [|done].
      apply Forall_cons_1 in IH2 as [Hx Hxs]. constructor; [|done].
      unfold noslash in *. set_solver.
Qed.

Lemma noslash_cons a c : noslash (a :: c) <-> a <> slash /\ noslash c.
Proof. unfold noslash. set_solver. Qed.

Lemma prefixb_comp x c cs :
  noslash x -> noslash c ->
  prefixb (x ++ [slash]) (c ++ print cs) = bool_decide (x = c) && bool_decide (cs <> []).
Proof.
  revert c; induction x as [|a x IH]; intros c Hx Hc.
  - destruct c as [|b c]; simpl.
    + destruct cs; simpl; done.
    + apply noslash_cons in Hc as [Hb _].
      destruct (Ascii.eqb_spec slash b); [congruence|]. by rewrite ?bool_decide_eq_false_2.
  - apply noslash_cons in Hx as [Ha Hx]. destruct c as [|b c].
    + destruct cs; simpl; [done|]. destruct (Ascii.eqb_spec a slash); [congruence|].
      by rewrite ?bool_decide_eq_false_2.
    + apply noslash_cons in Hc as [Hb Hc]. simpl. rewrite IH by done.
      destruct (Ascii.eqb_spec a b) as [->|Hab]; simpl.
      * f_equal. apply bool_decide_ext. split; congruence.
      * rewrite bool_decide_eq_false_2 by congruence. done.
Qed.

Lemma strstr_skip c t y :
  noslash c -> strstr (c ++ t) (slash :: y) = (fun i => length c + i) <$> strstr t (slash :: y).
Proof.
  induction c as [|a c IH]; intros Hc; simpl.
  - by destruct (strstr t (slash :: y)).
  - apply noslash_cons in Hc as [Ha Hc].
    destruct (Ascii.eqb_spec slash a); [congruence|]. simpl. rewrite IH by done.
    by destruct (strstr t (slash :: y)).
Qed.

(** The first occurrence of "/x/" in a path is at its first component [x] that
    is not the last. *)
Lemma strstr_print x cs :
  noslash x -> Forall noslash cs ->
  (exists pre post, cs = pre ++ x :: post /\ post <> [] /\ x ∉ pre /\
     strstr (print cs) (slash :: x ++ [slash]) = Some (length (print pre))) \/
  (strstr (print cs) (slash :: x ++ [slash]) = None /\
   forall pre post, cs = pre ++ x :: post -> post = []).
Proof.
  intros Hx. induction cs as [|c cs IH]; intros Hcs.
  - right. split; [done|]. intros [] ?; discriminate.
  - apply Forall_cons_1 in Hcs as [Hc Hcs].
    cbn [print strstr prefixb]. rewrite Ascii.eqb_refl. simpl andb.
    rewrite prefixb_comp by done.
    destruct (decide (x = c)) as [->|Hxc]; [destruct (decide (cs = [])) as [->|Hnil]|].
    + right. rewrite bool_decide_eq_true_2, bool_decide_eq_false_2 by naive_solver.
      simpl andb. split.
      * simpl print. rewrite strstr_skip by done. simpl. done.
      * intros [|? pre] post E; simplify_eq/=; [done|]. by destruct pre.
    + left. exists [], cs. rewrite !bool_decide_eq_true_2 by done. set_solver.
    + rewrite bool_decide_eq_false_2 by done. simpl andb. rewrite strstr_skip by done.
      destruct (IH Hcs) as [(pre & post & -> & Hp & Hnin & ->)|[-> Hno]].
      * left. exists (c :: pre), post. split; [done|]. split; [done|]. split; [set_solver|].
        simpl. rewrite length_app. f_equal.
      * right. split; [done|]. intros [|d pre] post E; simplify_eq/=. eauto.
Qed.

Lemma drop_comps_mid x pre post :
  post <> [] -> drop_comps x (pre ++ x :: post) = drop_comps x (pre ++ post).
Proof.
  intros Hp. induction pre as [|c pre IH]; simpl.
  - destruct post; [done|]. by rewrite bool_decide_eq_true_2.
  - destruct (pre ++ x :: post) eqn:E; [by destruct pre|].
    destruct (pre ++ post) eqn:E'; [by apply app_eq_nil in E' as [_ ->]|].
    by rewrite IH.
Qed.

Lemma drop_comps_none x cs :
  (forall pre post, cs = pre ++ x :: post -> post = []) -> drop_comps x cs = cs.
Proof.
  induction cs as [|c cs IH]; intros H; [done|]. simpl. destruct cs as [|d cs]; [done|].
  destruct (decide (c = x)) as [->|Hc].
  - pose proof (H [] (d :: cs) eq_refl). done.
  - rewrite bool_decide_eq_false_2 by done. f_equal. apply IH.
    intros pre post E. apply (H (c :: pre)). by rewrite E.
Qed.

Lemma drop_comps_subseteq {P : list ascii -> Prop} x cs : Forall P cs -> Forall P (drop_comps x cs).
Proof.
  induction cs as [|c cs IH]; intros H; [done|]. apply Forall_cons_1 in H as [Hc H].
  simpl. destruct cs; [by constructor|]. case_bool_decide; auto.
Qed.

Lemma drop_comps_length x cs : length (print (drop_comps x cs)) <= length (print cs).
Proof.
  induction cs as [|c cs IH]; [done|]. cbn [drop_comps]. destruct cs as [|d cs]; [done|].
  remember (d :: cs) as ds. clear Heqds.
  case_bool_decide; cbn [print length]; rewrite ?length_app; lia.
Qed.

Lemma print_mid pre x post :
  print (pre ++ x :: post) = print pre ++ slash :: x ++ print post.
Proof. by rewrite print_app. Qed.

(** Cutting the component [x] and one slash out of the printed path. *)
Lemma print_cut pre x post n :
  n = length x + 1 ->
  take (length (print pre)) (print (pre ++ x :: post)) ++
  drop (length (print pre) + n) (print (pre ++ x :: post)) = print (pre ++ post).
Proof.
  intros ->. rewrite print_mid, take_app_length, drop_app_add, print_app. f_equal.
  replace (length x + 1) with (S (length x)) by lia. simpl. by rewrite drop_app_length.
Qed.

Lemma remove_path_string_loop_spec fuel p x cs :
  noslash x -> Forall noslash cs -> holds p (print cs) ->
  length (print cs) <= fuel -> length (print cs) + length x + 1 <= length p ->
  exists p', remove_path_string_loop fuel p (slash :: x ++ [slash]) (length x + 1) (length (print cs))
      = Ret p' /\ holds p' (print (drop_comps x cs)) /\ length p' = length p.
Proof.
  intros Hx. revert p cs. induction fuel as [|fuel IH]; intros p cs Hcs Hp Hf Hl;
    cbn [remove_path_string_loop]; rewrite (holds_cstr _ _ Hp);
    destruct (strstr_print x cs Hx Hcs) as [(pre & post & -> & Hpost & Hnin & Hs)|[-> Hno]].
  2,4: rewrite (drop_comps_none _ _ Hno); eauto.
  { rewrite print_mid, length_app in Hf. simpl in Hf. lia. }
  rewrite Hs, print_mid in *. set (s := print pre ++ slash :: x ++ print post) in *.
  assert (length s = length (print pre) + 1 + length x + length (print post)) as Hls.
  { unfold s. rewrite length_app. simpl. rewrite length_app. lia. }
  unfold sub_size. destruct (Nat.leb_spec (length (print pre)) (length s)); [|lia].
  unfold mbind at 1, outcome_bind at 1.
  destruct (Nat.leb_spec (length x + 1) (length s)); [|lia].
  destruct (buffer_delete p s (length (print pre)) (length (print pre) + (length x + 1))
    (length s - length (print pre)) Hp ltac:(lia) ltac:(lia) ltac:(lia) ltac:(lia)) as (p' & Hd & Hp' & Hlp).
  unfold mbind, outcome_bind in *. destruct (memmove p _ _ _) as [q| |]; [|done..].
  replace (length s - (length x + 1)) with (length (print pre) + (length s - (length (print pre) + (length x + 1)))) by lia.
  rewrite Hd. subst s. rewrite <- print_mid, print_cut in Hp' by done.
  assert (length (print (pre ++ post)) = length (print pre) + length (print post)) as Hpp
    by (rewrite print_app, length_app; done).
  rewrite <- print_mid in Hls, Hl, Hf. rewrite <- print_mid.
  destruct (IH p' (pre ++ post)) as (p'' & Hr & Hh & Hl'); [|done|lia|lia|].
  { apply Forall_app in Hcs as [? Hcs]. apply Forall_cons_1 in Hcs as [_ ?]. by apply Forall_app. }
  rewrite drop_comps_mid by done. exists p''. split; [|split; [done|lia]].
  rewrite <- Hr. f_equal. lia.
Qed.

Lemma remove_path_string_spec p x cs :
  noslash x -> Forall noslash cs -> holds p (print cs) ->
  length (print cs) + length x + 1 <= length p ->
  exists p', remove_path_string p (slash :: x ++ [slash]) = Ret p' /\
    holds p' (print (drop_comps x cs)) /\ length p' = length p.
Proof.
  intros Hx Hcs Hp Hl. unfold remove_path_string. rewrite (holds_strlen _ _ Hp).
  replace (length (slash :: x ++ [slash]) - 1) with (length x + 1)
    by (simpl; rewrite length_app; simpl; lia).
  apply remove_path_string_loop_spec; auto. lia.
Qed.

Lemma pop_prefix stack pre cs :
  lit ".." ∉ pre -> cs <> [] -> pop_comps stack (pre ++ cs) = pop_comps (rev pre ++ stack) cs.
Proof.
  intros Hn Hc. revert stack; induction pre as [|c pre IH]; intros stack; [done|].
  cbn [app pop_comps]. destruct (pre ++ cs) eqn:E; [by apply app_eq_nil in E as [_ ->]|].
  rewrite bool_decide_eq_false_2 by set_solver. rewrite IH by set_solver.
  simpl. by rewrite <- app_assoc.
Qed.

Lemma pop_mid pre c post :
  lit ".." ∉ pre ++ [c] -> post <> [] ->
  pop_comps [] (pre ++ c :: lit ".." :: post) = pop_comps [] (pre ++ post).
Proof.
  intros Hn Hp. rewrite cons_middle, app_assoc, pop_prefix by done.
  rewrite app_nil_r, rev_unit. destruct post as [|d post]; [done|].
  cbn [pop_comps]. rewrite bool_decide_eq_true_2 by done.
  rewrite (pop_prefix [] pre (d :: post)) by set_solver. by rewrite app_nil_r.
Qed.

Lemma pop_none cs :
  (forall pre post, cs = pre ++ lit ".." :: post -> post = []) -> pop_comps [] cs = cs.
Proof.
  intros H. destruct cs as [|c cs _] using rev_ind; [done|].
  rewrite pop_prefix; [|intros Hin|done].
  - simpl. by rewrite app_nil_r, rev_involutive.
  - apply list_elem_of_split in Hin as (l1 & l2 & ->).
    pose proof (H l1 (l2 ++ [c]) ltac:(by rewrite <- app_assoc)). by destruct l2.
Qed.

Lemma pop_head cs : cs <> [] -> pop_comps [] (lit ".." :: cs) = lit ".." :: cs.
Proof. intros. cbn [pop_comps]. by destruct cs. Qed.

Lemma last_slash_found a c t :
  noslash c -> last_slash_before (a ++ slash :: c ++ t) (length a + S (length c)) = Some (length a).
Proof.
  intros Hc. assert (forall j, j <= length c ->
    last_slash_before (a ++ slash :: c ++ t) (length a + S j) = Some (length a)) as H; [|by apply H].
  induction j as [|j IH]; intros Hj; rewrite Nat.add_succ_r; cbn [last_slash_before].
  - rewrite Nat.add_0_r, list_lookup_middle by done. done.
  - rewrite lookup_app_r by lia. replace (length a + S j - length a) with (S j) by lia.
    change ((slash :: c ++ t) !! S j) with ((c ++ t) !! j). rewrite lookup_app_l by lia.
    destruct (lookup_lt_is_Some_2 c j) as [e He]; [lia|]. rewrite He.
    destruct (Ascii.eqb_spec e slash) as [->|]; [|apply IH; lia].
    apply list_elem_of_lookup_2 in He. done.
Qed.

Lemma remove_dot_dot_step_spec p pre c post :
  noslash c -> holds p (print (pre ++ c :: lit ".." :: post)) ->
  2 * length (print (pre ++ c :: lit ".." :: post)) <= length p ->
  exists p', remove_dot_dot_step p (length (print (pre ++ c :: lit ".." :: post)))
      (length (print (pre ++ [c]))) = Ret (p', length (print (pre ++ post))) /\
    holds p' (print (pre ++ post)) /\ length p' = length p.
Proof.
  intros Hc Hp Hl. set (s := print (pre ++ c :: lit ".." :: post)) in *.
  assert (s = print pre ++ slash :: c ++ print (lit ".." :: post)) as Hs' by apply print_mid.
  assert (length s = length (print pre) + length (print post) + (length c + 4)) as Hls.
  { rewrite Hs', length_app. cbn [print length app]. rewrite length_app. simpl. lia. }
  assert (length (print (pre ++ post)) = length (print pre) + length (print post)) as ->
    by (rewrite print_app, length_app; done).
  assert (length (print (pre ++ [c])) = length (print pre) + S (length c)) as ->.
  { rewrite print_app, length_app. cbn [print length]. rewrite app_nil_r. lia. }
  assert (last_slash_before p (length (print pre) + S (length c)) = Some (length (print pre))) as Hst.
  { destruct Hp as (rest & -> & Hn). rewrite Hs', <- app_assoc. cbn [app]. rewrite <- app_assoc.
    by apply last_slash_found. }
  unfold remove_dot_dot_step. rewrite Hst. unfold deref. unfold mbind at 1, outcome_bind at 1.
  change (length (lit "/../") - 1) with 3.
  replace (length (print pre) + S (length c) + 3 - length (print pre)) with (length c + 4) by lia.
  unfold sub_size. destruct (Nat.leb_spec (length c + 4) (length s)); [|lia].
  unfold mbind at 1, outcome_bind at 1.
  destruct (buffer_delete p s (length (print pre)) (length (print pre) + S (length c) + 3)
    (length s - (length c + 4)) Hp ltac:(lia) ltac:(lia) ltac:(lia) ltac:(lia))
    as (p' & Hd & Hp' & Hlp).
  replace (length (print pre) + (length s - (length (print pre) + S (length c) + 3)))
    with (length s - (length c + 4)) in Hd by lia.
  unfold mbind, outcome_bind in *. destruct (memmove p _ _ _) as [q| |]; [|done..].
  rewrite Hd. exists p'. split; [f_equal; f_equal; lia|]. split; [|done].
  rewrite Hs', take_app_length, <- Nat.add_assoc, drop_app_add in Hp'.
  rewrite print_app. cbn [Nat.add drop] in Hp'. by rewrite drop_app_add in Hp'.
Qed.

Lemma remove_dot_dot_loop_spec fuel p cs :
  Forall noslash cs -> holds p (print cs) -> length (print cs) <= fuel ->
  2 * length (print cs) <= length p ->
  exists p', remove_dot_dot_loop fuel p (length (print cs)) = Ret p' /\
    holds p' (print (pop_comps [] cs)) /\ length p' = length p.
Proof.
  revert p cs. induction fuel as [|fuel IH]; intros p cs Hcs Hp Hf Hl;
    cbn [remove_dot_dot_loop]; rewrite (holds_cstr _ _ Hp);
    change (lit "/../") with (slash :: lit ".." ++ [slash]);
    (destruct (strstr_print (lit "..") cs) as [(pre & post & -> & Hpost & Hnin & Hs)|[-> Hno]];
      [unfold noslash; set_solver|done|rewrite Hs|rewrite (pop_none _ Hno); eauto]);
    (destruct pre as [|c pre _] using rev_ind;
      [cbn [print length app]; rewrite pop_head by done; eauto|]).
  { rewrite !print_app, !length_app in Hf. simpl in Hf. lia. }
  rewrite <- !app_assoc in *. cbn [app] in *.
  apply Forall_app in Hcs as [Hpre Hcs]. apply Forall_cons_1 in Hcs as [Hc Hcs].
  apply Forall_cons_1 in Hcs as [_ Hcs].
  destruct (remove_dot_dot_step_spec p pre c post Hc Hp Hl) as (p' & -> & Hp' & Hlp).
  assert (length (print (pre ++ post)) < length (print (pre ++ c :: lit ".." :: post))) as Hlt.
  { rewrite !print_app, !length_app. simpl. rewrite length_app. simpl. lia. }
  destruct (IH p' (pre ++ post)) as (p'' & Hr & Hh & Hl'); [by apply Forall_app|done|lia|lia|].
  rewrite pop_mid by done. exists p''. split; [|split; [done|lia]].
  destruct (length (print (pre ++ [c]))) eqn:E; [|exact Hr].
  rewrite print_app, length_app in E. simpl in E. lia.
Qed.

(** ** The whole of [resolve_path] *)

Definition full_path (cwd p : list ascii) : list ascii :=
  if bool_decide (hd_error p = Some slash) then p else cwd ++ slash :: p.

Lemma strncpy_at a rest s :
  length s <= length rest ->
  strncpy (a ++ rest) (length a) s (length rest) =
    Ret (a ++ s ++ replicate (length rest - length s) nul).
Proof.
  intros Hl. unfold strncpy. rewrite length_app.
  destruct (Nat.leb_spec (length a + length rest) (length a + length rest)); [|lia].
  rewrite take_app_length, (drop_ge (a ++ rest)) by (rewrite length_app; lia).
  rewrite take_app_ge by lia. rewrite app_nil_r, take_replicate. do 4 f_equal. lia.
Qed.

Lemma sub_size_le a b : b <= a -> sub_size a b = Ret (a - b).
Proof. intros. unfold sub_size. by rewrite (proj2 (Nat.leb_le _ _)). Qed.

Lemma holds_pad s n : nonul s -> 0 < n -> holds (s ++ replicate n nul) s.
Proof. intros ? Hn. destruct n; [lia|]. by exists (replicate n nul). Qed.

(** The buffer the two branches set up. *)
Lemma make_absolute_spec junk cwd p :
  length junk = PATH_MAX -> length (full_path cwd p) < PATH_MAX -> nonul (full_path cwd p) ->
  exists b, make_absolute junk (Some cwd) p = Ret b /\
    holds b (full_path cwd p) /\ length b = PATH_MAX.
Proof.
  intros Hj Hl Hn. unfold full_path, make_absolute in *.
  assert (forall s, length s <= PATH_MAX ->
    strncpy junk 0 s PATH_MAX = Ret (s ++ replicate (PATH_MAX - length s) nul)) as H0.
  { intros s Hs. rewrite <- Hj in *. exact (strncpy_at [] junk s Hs). }
  case_bool_decide.
  - rewrite H0 by lia. eexists. split; [reflexivity|].
    split; [apply holds_pad; [done|lia]|]. rewrite length_app, length_replicate. lia.
  - rewrite length_app in Hl. cbn [length] in Hl. unfold deref, mbind, outcome_bind.
    rewrite H0 by lia. rewrite sub_size_le by lia.
    pose proof (strncpy_at cwd (replicate (PATH_MAX - length cwd) nul) (lit "/")) as H1.
    rewrite length_replicate in H1. rewrite H1 by (simpl; lia). rewrite sub_size_le by lia.
    pose proof (strncpy_at (cwd ++ lit "/") (replicate (PATH_MAX - length cwd - 1) nul) p) as H2.
    rewrite length_app, length_replicate, <- app_assoc in H2. change (length (lit "/")) with 1 in *.
    replace (PATH_MAX - (length cwd + 1)) with (PATH_MAX - length cwd - 1) by lia.
    rewrite H2 by lia. eexists. split; [reflexivity|].
    change (slash :: p) with (lit "/" ++ p) in *.
    rewrite !app_assoc in *. rewrite <- app_assoc in Hn. split.
    + rewrite <- (app_assoc (cwd ++ lit "/")), (app_assoc _ p) by done.
      apply holds_pad; [by rewrite <- app_assoc|lia].
    + rewrite !length_app, length_replicate. change (length (lit "/")) with 1. lia.
Qed.

Lemma resolve_path_correct junk cwd p :
  length junk = PATH_MAX -> p <> [] -> hd_error (full_path cwd p) = Some slash ->
  nonul (full_path cwd p) -> 2 * length (full_path cwd p) <= PATH_MAX ->
  resolve_path junk (Some cwd) (Some p) =
    Ret (Some (print (normalize (split_slash (tail (full_path cwd p)))))).
Proof.
  intros Hj Hnp Hh Hn Hl. assert (PATH_MAX = Z.to_nat 4096) as HP by done.
  destruct (make_absolute_spec junk cwd p Hj ltac:(lia) Hn) as (b & Eb & Hb & Hlb).
  unfold resolve_path. destruct p as [|c p]; [done|].
  rewrite Eb. unfold mbind at 1, outcome_bind at 1.
  destruct (full_path cwd (c :: p)) as [|sl t]; [done|]. injection Hh as ->. cbn [tail].
  destruct (split_slash_spec t) as (Hp & Hns & _). rewrite <- Hp in *.
  rewrite (holds_strlen _ _ Hb). unfold mbind at 1, outcome_bind at 1.
  destruct (remove_path_string_spec b (lit ".") (split_slash t)) as (b1 & E1 & Hb1 & L1);
    [unfold noslash; set_solver|done|done|simpl (length (lit ".")); lia|].
  change (lit "/./") with (slash :: lit "." ++ [slash]). rewrite E1.
  unfold mbind at 1, outcome_bind at 1.
  pose proof (drop_comps_length (lit ".") (split_slash t)) as Hd1.
  destruct (remove_path_string_spec b1 (lit "") (drop_comps (lit ".") (split_slash t))) as (b2 & E2 & Hb2 & L2);
    [unfold noslash; set_solver|by apply (drop_comps_subseteq (lit "."))|done|
     simpl (length (lit "")); lia|].
  change (lit "//") with (slash :: lit "" ++ [slash]). rewrite E2.
  unfold mbind at 1, outcome_bind at 1.
  pose proof (drop_comps_length (lit "") (drop_comps (lit ".") (split_slash t))) as Hd2.
  unfold remove_dot_dot. rewrite (holds_strlen _ _ Hb2). unfold mbind, outcome_bind.
  destruct (remove_dot_dot_loop_spec (length b2) b2
    (drop_comps (lit "") (drop_comps (lit ".") (split_slash t)))) as (b3 & E3 & Hb3 & L3);
    [by apply (drop_comps_subseteq (lit "")), (drop_comps_subseteq (lit "."))|done|lia|lia|].
  by rewrite E3, (holds_strlen _ _ Hb3), (holds_cstr _ _ Hb3).
Qed.

(** ** Normal forms *)

Lemma drop_comps_filter x cs l :
  drop_comps x (cs ++ [l]) = filter (fun c => c <> x) cs ++ [l].
Proof.
  induction cs as [|c cs IH]; [done|]. cbn [app drop_comps].
  destruct (cs ++ [l]) eqn:E; [by destruct cs|]. rewrite filter_cons, IH.
  case_bool_decide; destruct (decide (c <> x)); try done; tauto.
Qed.

(** What [pop_comps] leaves: the last component is kept, and ".." stays inside
    only when it stopped at the front. *)
Lemma pop_comps_shape stack cs l :
  lit ".." ∉ stack ->
  exists pre, pop_comps stack (cs ++ [l]) = pre ++ [l] /\
    (forall c, c ∈ pre -> c ∈ stack \/ c ∈ cs) /\
    (lit ".." ∉ pre \/ hd_error pre = Some (lit "..")).
Proof.
  revert stack. induction cs as [|c cs IH]; intros stack Hs; cbn [app pop_comps].
  - exists (rev stack). split; [done|]. split.
    + intros c. rewrite list_elem_of_In, <- in_rev, <- list_elem_of_In. auto.
    + left. by rewrite list_elem_of_In, <- in_rev, <- list_elem_of_In.
  - destruct (cs ++ [l]) eqn:E; [by destruct cs|]. rewrite <- E in *. clear E.
    case_bool_decide as Hc.
    + destruct stack as [|d stack].
      * exists (c :: cs). split; [done|]. split; [auto|]. right. by rewrite Hc.
      * destruct (IH stack) as (pre & -> & Hin & Hdd); [set_solver|].
        exists pre. split; [done|]. split; [|done]. intros e He. specialize (Hin e He). set_solver.
    + destruct (IH (c :: stack)) as (pre & -> & Hin & Hdd); [set_solver|].
      exists pre. split; [done|]. split; [|done]. intros e He. specialize (Hin e He). set_solver.
Qed.

(** A path on which the three loops find nothing to do. *)
Definition normal (cs : path) : Prop :=
  exists pre l, cs = pre ++ [l] /\ Forall noslash cs /\ lit "" ∉ pre /\ lit "." ∉ pre /\
    (lit ".." ∉ pre \/ hd_error pre = Some (lit "..")).

Lemma normalize_normal cs : cs <> [] -> Forall noslash cs -> normal (normalize cs).
Proof.
  intros Hnil Hns. destruct cs as [|l cs _] using rev_ind; [done|].
  unfold normalize. rewrite !drop_comps_filter.
  match goal with |- context [pop_comps [] (?ds ++ [l])] =>
    destruct (pop_comps_shape [] ds l) as (pre & -> & Hin & Hdd); [set_solver|] end.
  apply Forall_app in Hns as [Hns Hl]. rewrite Forall_forall in Hns.
  assert (forall c, c ∈ pre -> c <> lit "" /\ c <> lit "." /\ c ∈ cs) as Hin'.
  { intros c Hc. destruct (Hin c Hc) as [?|H]; [set_solver|].
    rewrite !list_elem_of_filter in H. naive_solver. }
  exists pre, l. split; [done|]. split.
  - apply Forall_app. split; [|done]. apply Forall_forall. intros c Hc. apply Hns. naive_solver.
  - split; [naive_solver|]. split; [naive_solver|]. done.
Qed.

Lemma normal_no_comp cs x :
  normal cs -> x = lit "" \/ x = lit "." ->
  forall pre post, cs = pre ++ x :: post -> post = [].
Proof.
  intros (pre & l & -> & _ & H1 & H2 & _) Hx pre' post E.
  destruct post as [|d post _] using rev_ind; [done|].
  rewrite app_comm_cons, app_assoc in E. apply app_inj_tail in E as [-> _].
  destruct Hx as [-> | ->]; set_solver.
Qed.

Lemma normalize_id cs : normal cs -> normalize cs = cs.
Proof.
  intros Hn. unfold normalize.
  rewrite (drop_comps_none (lit ".")) by (eapply normal_no_comp; eauto).
  rewrite (drop_comps_none (lit "")) by (eapply normal_no_comp; eauto).
  destruct Hn as (pre & l & -> & _ & _ & _ & [Hdd|Hdd]).
  - rewrite pop_prefix by done. simpl. by rewrite app_nil_r, rev_involutive.
  - destruct pre as [|c pre]; [done|]. injection Hdd as ->. apply pop_head. by destruct pre.
Qed.

Lemma split_print cs t :
  Forall noslash cs -> print cs = slash :: t -> split_slash t = cs.
Proof.
  destruct cs as [|c cs]; [done|]. intros Hns E. injection E as <-. revert c Hns.
  induction cs as [|d cs IH]; intros c Hns; apply Forall_cons_1 in Hns as [Hc Hns].
  - simpl. rewrite app_nil_r. induction c as [|a c IHc]; [done|].
    apply noslash_cons in Hc as [Ha Hc]. simpl. rewrite IHc by done.
    by destruct (Ascii.eqb_spec a slash).
  - cbn [print]. induction c as [|a c IHc]; simpl.
    + by rewrite IH.
    + apply noslash_cons in Hc as [Ha Hc]. rewrite IHc by done.
      by destruct (Ascii.eqb_spec a slash).
Qed.

Lemma normal_print cs : normal cs -> exists t, print cs = slash :: t.
Proof. intros (pre & l & -> & _). destruct pre; simpl; eauto. Qed.

Lemma print_length_normalize cs : length (print (normalize cs)) <= length (print cs).
Proof.
  unfold normalize. etransitivity; [|apply (drop_comps_length (lit "."))].
  etransitivity; [|apply (drop_comps_length (lit ""))].
  generalize (drop_comps (lit "") (drop_comps (lit ".") cs)). intros ds.
  assert (forall stack, length (print (pop_comps stack ds)) <= length (print (rev stack ++ ds))) as H;
    [|apply (H [])].
  induction ds as [|c ds IH]; intros stack; cbn [pop_comps].
  - by rewrite app_nil_r.
  - destruct ds as [|d ds]; [done|]. case_bool_decide.
    + destruct stack as [|e stack]; [done|]. etransitivity; [apply IH|].
      simpl rev. rewrite !print_app, !length_app. cbn [print length].
      repeat (rewrite length_app; cbn [length]). lia.
    + etransitivity; [apply IH|]. simpl rev. by rewrite <- app_assoc.
Qed.

Lemma nonul_normalize cs : nonul (print cs) -> nonul (print (normalize cs)).
Proof.
  assert (forall ds, nonul (print ds) <-> Forall nonul ds) as Hp.
  { induction ds as [|d ds IH]; [split; intros _; [constructor|unfold nonul; set_solver]|].
    cbn [print]. unfold nonul in *. rewrite Forall_cons, <- IH.
    rewrite not_elem_of_cons, not_elem_of_app. intuition done. }
  rewrite !Hp. intros H. unfold normalize.
  apply (drop_comps_subseteq (lit ".")), (drop_comps_subseteq (lit "")) in H.
  revert H. generalize (drop_comps (lit "") (drop_comps (lit ".") cs)). intros ds H.
  assert (forall stack, Forall nonul stack -> Forall nonul (pop_comps stack ds)) as G;
    [|by apply G].
  induction ds as [|d ds IH]; intros stack Hs; cbn [pop_comps].
  - by apply Forall_rev.
  - apply Forall_cons in H as [Hd H]. destruct ds as [|e ds].
    + apply Forall_app; split; [by apply Forall_rev|by constructor].
    + case_bool_decide; [destruct stack as [|? stack]|].
      * by constructor.
      * apply IH; [done|]. by apply Forall_cons in Hs as [].
      * apply IH; [done|by constructor].
Qed.

Lemma resolve_path_idempotent junk junk' cwd cwd' p r :
  length junk = PATH_MAX -> length junk' = PATH_MAX -> p <> [] ->
  hd_error (full_path cwd p) = Some slash -> nonul (full_path cwd p) ->
  2 * length (full_path cwd p) <= PATH_MAX ->
  resolve_path junk (Some cwd) (Some p) = Ret (Some r) ->
  resolve_path junk' (Some cwd') (Some r) = Ret (Some r).
Proof.
  intros Hj Hj' Hp Hh Hn Hl E. rewrite resolve_path_correct in E by done. injection E as <-.
  destruct (full_path cwd p) as [|sl t]; [done|]. injection Hh as ->. cbn [tail].
  destruct (split_slash_spec t) as (Hpr & Hns & Hne).
  pose proof (print_length_normalize (split_slash t)) as Hlen.
  pose proof (nonul_normalize (split_slash t)) as Hnn. rewrite Hpr in *.
  pose proof (normalize_normal (split_slash t) Hne Hns) as Hnorm.
  destruct (normal_print _ Hnorm) as (u & Eu).
  assert (full_path cwd' (print (normalize (split_slash t))) = slash :: u) as Ef
    by (rewrite Eu; unfold full_path; by case_bool_decide).
  rewrite resolve_path_correct; rewrite ?Ef; try done.
  - cbn [tail]. rewrite (split_print (normalize (split_slash t))).
    + by rewrite normalize_id.
    + by destruct Hnorm as (? & ? & _ & ? & _).
    + done.
  - by rewrite Eu.
  - rewrite <- Eu. auto.
  - rewrite <- Eu. lia.
Qed.

(** ** Properties *)

(** C15: [resolve_path] computes the path that its three loops describe on
    components. For a path of at most half the buffer, relative to [cwd] when
    it does not start with a slash, the in-place loops return, with enough
    iterations for every input, and the result drops every "." and every empty
    component but the last one and lets every ".." but a last one take the
    component before it away, a ".." at the front ending that work. *)
Theorem resolve_path_normalizes junk cwd p :
  length junk = PATH_MAX -> p <> [] -> hd_error (full_path cwd p) = Some slash ->
  nonul (full_path cwd p) -> 2 * length (full_path cwd p) <= PATH_MAX ->
  resolve_path junk (Some cwd) (Some p) =
    Ret (Some (print (normalize (split_slash (tail (full_path cwd p)))))).
Proof. apply resolve_path_correct. Qed.

Lemma resolve_path_normalizes_witness :
  resolve_path (replicate PATH_MAX "x"%char) (Some (lit "/home/u")) (Some (lit "a/.//../b"))
  = Ret (Some (lit "/home/u/b")).
Proof.
  rewrite (resolve_path_normalizes (replicate PATH_MAX "x"%char) (lit "/home/u") (lit "a/.//../b")).
  - reflexivity.
  - apply length_replicate.
  - discriminate.
  - reflexivity.
  - unfold nonul. vm_compute. set_solver.
  - apply Nat.leb_le. reflexivity.
Defined.

(** Resolved paths are fixed points: what [resolve_path] returned for a path
    of at most half the buffer it returns again, from any directory and with
    any contents of the fresh buffer. *)
Theorem resolve_path_fixpoint junk junk' cwd cwd' p r :
  length junk = PATH_MAX -> length junk' = PATH_MAX -> p <> [] ->
  hd_error (full_path cwd p) = Some slash -> nonul (full_path cwd p) ->
  2 * length (full_path cwd p) <= PATH_MAX ->
  resolve_path junk (Some cwd) (Some p) = Ret (Some r) ->
  resolve_path junk' (Some cwd') (Some r) = Ret (Some r).
Proof. apply resolve_path_idempotent. Qed.

Lemma resolve_path_fixpoint_witness :
  resolve_path (replicate PATH_MAX nul) (Some (lit "/tmp")) (Some (lit "/x/z")) = Ret (Some (lit "/x/z")).
Proof.
  apply (resolve_path_fixpoint (replicate PATH_MAX "x"%char) (replicate PATH_MAX nul)
    (lit "/") (lit "/tmp") (lit "/x/./y/..//z") (lit "/x/z")).
  - apply length_replicate.
  - apply length_replicate.
  - discriminate.
  - reflexivity.
  - unfold nonul. vm_compute. set_solver.
  - apply Nat.leb_le. reflexivity.
  - vm_compute. reflexivity.
Defined.

(** The last component is never resolved: a trailing "/.." or "/." is still
    there in the result, and so is everything from a ".." at the front on. *)
Theorem resolve_path_keeps_trailing_dots :
  let junk := replicate PATH_MAX nul in
  resolve_path junk (Some (lit "/")) (Some (lit "/mnt/fs/..")) = Ret (Some (lit "/mnt/fs/..")) /\
  resolve_path junk (Some (lit "/")) (Some (lit "/mnt/fs/.")) = Ret (Some (lit "/mnt/fs/.")) /\
  resolve_path junk (Some (lit "/")) (Some (lit "/../a/../b")) = Ret (Some (lit "/../a/../b")).
Proof. vm_compute. auto. Qed.

(** Removing "/x/.." moves as many bytes as the new string is long, counted
    from the component before it, and not only its tail: for a path that is
    shorter than [PATH_MAX] the move reads past the end of the buffer. *)
Theorem resolve_path_overreads :
  let p := slash :: replicate (Z.to_nat 3000) "a"%char ++ lit "/bbb/../c" in
  length p < PATH_MAX /\
  resolve_path (replicate PATH_MAX nul) (Some (lit "/")) (Some p) = Undef.
Proof. cbv zeta. split; [apply Nat.ltb_lt; vm_compute; reflexivity|vm_compute; reflexivity]. Qed.
