(* ===== verification/World.v ===== *)
(** * What the library calls

    The code of src/libdefuse calls the system through the six [real_]
    operations, [fcntl] and [munmap], loads file system libraries with
    [dlopen], and calls the functions such a library exports (the "usfs"
    functions of src/interface.h).  None of this is code of the library, so it
    is a parameter: the classes below are the operations on an abstract world
    [W], and the [Laws] classes state the documented behaviour that theorems
    rely on.  ToyWorld.v has a world with these operations and the laws. *)

From Stdlib Require Import ZArith Lia Ascii String.
From stdpp Require Import base list gmap.
From S2P Require Import Prelude.

Local Open Scope Z_scope.

(** ** Constants of <fcntl.h>, <unistd.h> and <sys/mman.h> *)

Definition O_RDONLY : Z := 0.
Definition O_WRONLY : Z := 1.
Definition O_RDWR : Z := 2.
Definition O_CREAT : Z := 64.
Definition O_EXCL : Z := 128.
Definition O_TRUNC : Z := 512.
Definition O_LARGEFILE : Z := 32768.
Definition SEEK_SET : Z := 0.
Definition SEEK_CUR : Z := 1.
Definition SEEK_END : Z := 2.
Definition F_RDLCK : Z := 0.
Definition F_UNLCK : Z := 2.
Definition S_IFMT : Z := 61440.
Definition S_IFDIR : Z := 16384.
Definition S_IFREG : Z := 32768.
Definition S_IFLNK : Z := 40960.
Definition S_IRUSR : Z := 256.
Definition S_IWUSR : Z := 128.
Definition PAGE_SIZE : Z := 4096.
(** The most that one read(2) or write(2) transfers. *)
Definition MAX_RW_COUNT : Z := 2147479552.

Record stat := Stat {
  st_dev : Z; st_ino : Z; st_mode : Z; st_nlink : Z; st_uid : Z; st_gid : Z;
  st_rdev : Z; st_size : Z; st_blksize : Z; st_blocks : Z;
  st_atime : Z; st_mtime : Z; st_ctime : Z }.

(** ** The system *)

(** The real operations; a call through a null pointer is [Undef]. *)
Class RealOps (W : Type) := {
  real_open : list ascii -> Z -> Z -> prog W Z;
  (** the address of the mapping, [None] for [MAP_FAILED] *)
  real_mmap : Z -> Z -> prog W (option Z);
  (** the result and the bytes stored in the buffer *)
  real_read : Z -> Z -> prog W (Z * list ascii);
  real_close : Z -> prog W Z;
  real_lseek : Z -> Z -> Z -> prog W Z;
  real_ftruncate : Z -> Z -> prog W Z }.

Class Sys (W : Type) := {
  errno : W -> Z;
  set_errno : Z -> W -> W;
  getpid : W -> Z;
  (** [get_current_dir_name] *)
  current_dir : W -> option (list ascii);
  (** [fcntl (fd, F_SETLK, l)] for a lock of the given type on the first byte *)
  setlk : Z -> Z -> W -> Z * W;
  munmap : Z -> Z -> W -> Z * W;
  (** loads and stores at an offset of a mapping; [Undef] outside it and
      beyond the last page of the file (SIGBUS) *)
  map_load : Z -> Z -> nat -> W -> outcome (list ascii);
  map_store : Z -> Z -> list ascii -> W -> outcome W;
  (** the string that starts at an offset *)
  map_string : Z -> Z -> W -> outcome (list ascii) }.

(** ** File system libraries

    A function pointer is an address, 0 the null pointer. *)

Class Usfs (W : Type) := {
  dlopen : list ascii -> W -> option Z * W;
  (** [None] when [dlerror] reports an error *)
  dlsym : Z -> list ascii -> W -> option Z * W;
  dlclose : Z -> W -> W;
  call_init : Z -> list ascii -> list ascii -> W -> W;
  call_access : Z -> list ascii -> Z -> W -> Z * W;
  (** the result and the file handle stored *)
  call_open : Z -> list ascii -> Z -> Z -> W -> (Z * Z) * W;
  call_close : Z -> Z -> W -> Z * W;
  call_getattr : Z -> list ascii -> Z -> W -> (Z * stat) * W;
  call_fgetattr : Z -> Z -> W -> (Z * stat) * W;
  call_fsync : Z -> Z -> Z -> W -> Z * W;
  call_ftruncate : Z -> Z -> Z -> W -> Z * W;
  call_truncate : Z -> list ascii -> Z -> W -> Z * W;
  (** the result, the bytes stored in the buffer and the count *)
  call_read : Z -> Z -> Z -> Z -> W -> (Z * list ascii * Z) * W;
  call_write : Z -> Z -> list ascii -> Z -> W -> (Z * Z) * W;
  call_unlink : Z -> list ascii -> W -> Z * W;
  call_readlink : Z -> list ascii -> Z -> W -> (Z * list ascii * Z) * W;
  call_save : Z -> Z -> W -> Z * W;
  call_restore : Z -> Z -> W -> Z * W }.

(** The address a call goes to. *)
Definition pointer {S} (f : Z) : prog S Z := plift (if f =? 0 then Undef else Ret f).

(** ** Documented behaviour of dynamic loading, and of reading a file byte by byte *)

Class DlLaws (W : Type) `{Usfs W} := {
  (** the handle of a library file, and the symbols it exports *)
  lib_handle : list ascii -> option Z;
  lib_symbol : Z -> list ascii -> option Z;
  dlopen_handle p w : (dlopen p w).1 = lib_handle p;
  dlsym_symbol h n w : (dlsym h n w).1 = lib_symbol h n;
  lib_symbol_nonnull h n f : lib_symbol h n = Some f -> f <> 0 }.

Class ReadLaws (W : Type) `{RealOps W, Usfs W} := {
  (** what reading from the descriptor will deliver *)
  reads_as : W -> Z -> list ascii -> Prop;
  read_more w fd c s : reads_as w fd (c :: s) ->
    exists w', real_read fd 1 w = Ret ((1, [c]), w') /\ reads_as w' fd s;
  read_end w fd : reads_as w fd [] ->
    exists w', real_read fd 1 w = Ret ((0, []), w') /\ reads_as w' fd [];
  (** loading a library leaves the descriptors of the caller alone *)
  dlopen_reads p w fd s : reads_as w fd s -> reads_as (dlopen p w).2 fd s;
  dlsym_reads h n w fd s : reads_as w fd s -> reads_as (dlsym h n w).2 fd s;
  init_reads f m b w fd s : reads_as w fd s -> reads_as (call_init f m b w) fd s }.

(** ** Documented behaviour of files and of shared mappings

    The file system maps names to contents, a descriptor refers to a name, and a
    mapping is the contents of its file filled up to a page with zeroes: a store
    behind the end of the file stays in the page and is not written to the file
    (mmap(2)). *)

Definition page_up (n : nat) : nat := Z.to_nat (PAGE_SIZE * ((Z.of_nat n + PAGE_SIZE - 1) / PAGE_SIZE)).
Definition page_pad (c : list ascii) : list ascii := c ++ replicate (page_up (length c) - length c) nul.

Lemma page_up_ge n : (n <= page_up n)%nat.
Proof.
  unfold page_up, PAGE_SIZE. pose proof (Z.div_mod (Z.of_nat n + 4096 - 1) 4096 ltac:(lia)).
  pose proof (Z.mod_pos_bound (Z.of_nat n + 4096 - 1) 4096 ltac:(lia)). lia.
Qed.
Lemma length_page_pad c : length (page_pad c) = page_up (length c).
Proof. unfold page_pad. rewrite length_app, length_replicate. pose proof (page_up_ge (length c)). lia. Qed.

Record mapping := Mapping { m_file : list ascii; m_size : nat; m_bytes : list ascii }.

Class FileLaws (W : Type) `{RealOps W, Sys W, Usfs W} := {
  file : W -> list ascii -> option (list ascii);
  fd_name : W -> Z -> option (list ascii);
  mapped : W -> Z -> option mapping;
  (** the calls return; the pointer to [mmap] may be null *)
  open_returns p fl md w : exists fd w', real_open p fl md w = Ret (fd, w') /\ (0 <= fd \/ fd = -1);
  ftruncate_returns fd n w : exists r w', real_ftruncate fd n w = Ret (r, w') /\ (r = 0 \/ r = -1);
  mmap_no_exit n fd w : real_mmap n fd w <> Exit;
  (** opening leaves the contents of an existing file alone *)
  open_name p fl md w fd w' : real_open p fl md w = Ret (fd, w') -> 0 <= fd ->
    fd_name w' fd = Some p /\ (exists c, file w' p = Some c) /\
    (forall c, file w p = Some c -> Z.land fl O_TRUNC = 0 -> file w' p = Some c) /\ getpid w' = getpid w;
  ftruncate_size fd n w p w' : real_ftruncate fd n w = Ret (0, w') -> fd_name w fd = Some p -> 0 <= n ->
    fd_name w' fd = Some p /\ (exists c, file w' p = Some c /\ length c = Z.to_nat n) /\ getpid w' = getpid w;
  (** EINVAL for a length of 0 *)
  mmap_empty fd w a w' : real_mmap 0 fd w <> Ret (Some a, w');
  mmap_bytes n fd w a p c w' : real_mmap n fd w = Ret (Some a, w') -> fd_name w fd = Some p ->
    file w p = Some c -> n = Z.of_nat (length c) ->
    mapped w' a = Some (Mapping p (length c) (page_pad c)) /\ getpid w' = getpid w;
  munmap_file a n w m : mapped w a = Some m ->
    file (munmap a n w).2 (m_file m) = Some (take (m_size m) (m_bytes m)) /\
    getpid (munmap a n w).2 = getpid w;
  close_file fd w : exists r w', real_close fd w = Ret (r, w') /\ file w' = file w /\ getpid w' = getpid w;
  load_bytes a m off n w : mapped w a = Some m -> 0 <= off -> (Z.to_nat off + n <= length (m_bytes m))%nat ->
    map_load a off n w = Ret (take n (drop (Z.to_nat off) (m_bytes m)));
  string_bytes a m off w : mapped w a = Some m -> 0 <= off ->
    map_string a off w = cstring (drop (Z.to_nat off) (m_bytes m));
  store_bytes a m off bs w : mapped w a = Some m -> 0 <= off ->
    (Z.to_nat off + length bs <= length (m_bytes m))%nat ->
    exists w', map_store a off bs w = Ret w' /\
      mapped w' a = Some (Mapping (m_file m) (m_size m) (splice (m_bytes m) (Z.to_nat off) bs)) /\
      getpid w' = getpid w;
  store_sigbus a m off bs w : mapped w a = Some m -> 0 <= off ->
    (length (m_bytes m) < Z.to_nat off + length bs)%nat -> map_store a off bs w = Undef;
  (** a library does not touch the mappings of the caller *)
  save_mapped f fh w a : mapped (call_save f fh w).2 a = mapped w a;
  save_pid f fh w : getpid (call_save f fh w).2 = getpid w;
  restore_mapped f fh w a : mapped (call_restore f fh w).2 a = mapped w a;
  (** a lock, granted or not, leaves the files alone *)
  lock_files fd t w : (forall fd', fd_name (setlk fd t w).2 fd' = fd_name w fd') /\ file (setlk fd t w).2 = file w;
  (** the offset a seek on a file returns; 0 from the end is its size *)
  seek_file fd off wh w p c : fd_name w fd = Some p -> file w p = Some c ->
    exists r w', real_lseek fd off wh w = Ret (r, w') /\
      (off = 0 -> wh = SEEK_END -> r = Z.of_nat (length c)) /\
      (forall fd', fd_name w' fd' = fd_name w fd') /\ file w' = file w }.

(** ** Documented behaviour of offsets, and of the file behind a library handle *)

(** [n] bytes of [c] at [off], fewer at the end. *)
Definition read_at (c : list ascii) (off n : Z) : list ascii := take (Z.to_nat n) (drop (Z.to_nat off) c).
(** [bs] stored at [off]; a gap behind the end is filled with zeroes, unless there is
    nothing to store. *)
Definition write_at (c : list ascii) (off : Z) (bs : list ascii) : list ascii :=
  let o := Z.to_nat off in
  match bs with
  | [] => c
  | _ => take o (c ++ replicate (o - length c) nul) ++ bs ++ drop (o + length bs) c
  end.

(** What a function of a library promises (src/interface.h): an error number, or 0 with
    the number of bytes and the bytes; a transfer may be shorter than asked for.  A
    write that fails may have stored a part of the bytes. *)
Definition read_result (c : list ascii) (off n : Z) (r : Z * list ascii * Z) : Prop :=
  let '(e, data, k) := r in
  e = 0 -> 0 <= k <= Z.of_nat (length (read_at c off n)) /\ data = take (Z.to_nat k) (read_at c off n).
Definition write_result (c : list ascii) (off : Z) (bs : list ascii) (r : Z * Z) (c' : list ascii) : Prop :=
  let '(e, k) := r in
  (e = 0 -> 0 <= k <= Z.of_nat (length bs) /\ c' = write_at c off (take (Z.to_nat k) bs)) /\
  (e <> 0 -> exists j, c' = write_at c off (take j bs)).
Definition size_result (c : list ascii) (r : Z * stat) : Prop := r.1 = 0 -> st_size r.2 = Z.of_nat (length c).
