(* ===== verification/MountPoints.v ===== *)
(** * Mount points (src/libdefuse/mount_points.c)

    The table of mounted file systems: each line of /proc/mounts of type
    "defuse" names a mount point, a backend and a library; the library is loaded
    and its functions are stored in the entry.  A path is looked up by comparing
    it with the mount points in order.

    Entries are never freed once they are in the array, so the pointer to an
    entry is its position. *)

From Stdlib Require Import ZArith Lia Ascii String.
From stdpp Require Import base list sets.
From S2P Require Import Prelude Paths World.

Local Open Scope Z_scope.

Definition MAX_MOUNTS : nat := 16.
Definition DEFUSE_MOUNT_TYPE : list ascii := lit "defuse".
Definition DEFUSE_MOUNT_TYPE_SIZE : Z := 6.

Record mount_point_data := MPD {
  mp_index : Z;
  mp_mount_path : list ascii;
  mp_backend_path : list ascii;
  mp_library_path : list ascii;
  mp_init : Z; mp_finalize : Z; mp_access : Z; mp_close : Z; mp_getattr : Z;
  mp_fsync : Z; mp_ftruncate : Z; mp_truncate : Z; mp_fgetattr : Z; mp_open : Z;
  mp_read : Z; mp_write : Z; mp_unlink : Z; mp_readlink : Z; mp_save : Z; mp_restore : Z }.

(** The function pointers of an entry. *)
Inductive target :=
| T_init | T_finalize | T_access | T_close | T_getattr | T_fsync | T_ftruncate | T_truncate
| T_fgetattr | T_open | T_read | T_write | T_unlink | T_readlink | T_save | T_restore.

#[export] Instance target_eq_dec : EqDecision target.
Proof. solve_decision. Defined.

Definition get_target (t : target) (m : mount_point_data) : Z :=
  match t with
  | T_init => mp_init m | T_finalize => mp_finalize m | T_access => mp_access m
  | T_close => mp_close m | T_getattr => mp_getattr m | T_fsync => mp_fsync m
  | T_ftruncate => mp_ftruncate m | T_truncate => mp_truncate m | T_fgetattr => mp_fgetattr m
  | T_open => mp_open m | T_read => mp_read m | T_write => mp_write m | T_unlink => mp_unlink m
  | T_readlink => mp_readlink m | T_save => mp_save m | T_restore => mp_restore m
  end.

(** [m] with the pointer of [t] replaced: the assignment [OBJECT->TARGET = v]. *)
Definition set_target (t : target) (v : Z) (m : mount_point_data) : mount_point_data :=
  let f u := if decide (u = t) then v else get_target u m in
  MPD (mp_index m) (mp_mount_path m) (mp_backend_path m) (mp_library_path m)
    (f T_init) (f T_finalize) (f T_access) (f T_close) (f T_getattr) (f T_fsync)
    (f T_ftruncate) (f T_truncate) (f T_fgetattr) (f T_open) (f T_read) (f T_write)
    (f T_unlink) (f T_readlink) (f T_save) (f T_restore).

Definition set_index (i : Z) (m : mount_point_data) : mount_point_data :=
  MPD i (mp_mount_path m) (mp_backend_path m) (mp_library_path m)
    (mp_init m) (mp_finalize m) (mp_access m) (mp_close m) (mp_getattr m) (mp_fsync m)
    (mp_ftruncate m) (mp_truncate m) (mp_fgetattr m) (mp_open m) (mp_read m) (mp_write m)
    (mp_unlink m) (mp_readlink m) (mp_save m) (mp_restore m).

(** ** Loading a library *)

Section Load.
Context {W : Type} `{RealOps W, Sys W, Usfs W}.

Definition LOAD_TARGET (handle : Z) (name : list ascii) (t : target) (required : bool)
    (object : option mount_point_data) : prog W (option mount_point_data) :=
  match object with
  | None => pret None
  | Some o =>
      let* r := pcall (dlsym handle name) in
      match r with
      | Some f => pret (Some (set_target t f o))
      | None =>
          if required then do* pmodify (dlclose handle); pret None
          else pret (Some (set_target t 0 o))
      end
  end.

(** The calls of [LOAD_TARGET] in [load_mount], in order. *)
Definition targets : list (list ascii * target * bool) :=
  [ (lit "usfs_init", T_init, false);
    (lit "usfs_finalize", T_finalize, false);
    (lit "usfs_open", T_open, true);
    (lit "usfs_close", T_close, true);
    (lit "usfs_read", T_read, true);
    (lit "usfs_write", T_write, true);
    (lit "usfs_fsync", T_fsync, true);
    (lit "usfs_ftruncate", T_ftruncate, true);
    (lit "usfs_truncate", T_truncate, true);
    (lit "usfs_fgetattr", T_fgetattr, true);
    (lit "usfs_getattr", T_getattr, true);
    (lit "usfs_readlink", T_readlink, true);
    (lit "usfs_unlink", T_unlink, true);
    (lit "usfs_save", T_save, false);
    (lit "usfs_restore", T_restore, false);
    (lit "usfs_access", T_access, true) ].

Fixpoint load_targets (handle : Z) (ts : list (list ascii * target * bool))
    (object : option mount_point_data) : prog W (option mount_point_data) :=
  match ts with
  | [] => pret object
  | (name, t, required) :: ts =>
      let* object := LOAD_TARGET handle name t required object in
      load_targets handle ts object
  end.

Definition load_mount (mount_path backend_path library_path : list ascii)
    : prog W (option mount_point_data) :=
  let rv := MPD 0 mount_path backend_path library_path 0 0 0 0 0 0 0 0 0 0 0 0 0 0 0 0 in
  let* handle := pcall (dlopen library_path) in
  match handle with
  | Some handle =>
      let* rv := load_targets handle targets (Some rv) in
      match rv with
      | Some m =>
          if negb (mp_init m =? 0) then
            do* pmodify (call_init (mp_init m) mount_path backend_path); pret rv
          else pret rv
      | None => pret rv
      end
  | None => pret None
  end.

(** ** Reading the table of mounts *)

Definition newline : ascii := ascii_of_nat 10.

(** [n] more bytes may be stored, from position [p] on. *)
Fixpoint read_line_loop (n : nat) (fd : Z) (buf : list ascii) (p : nat) : prog W (Z * list ascii) :=
  match n with
  | O => pret (Z.of_nat p, buf)
  | S n =>
      let* (rv, bytes) := real_read fd 1 in
      let buf := splice buf p bytes in
      if negb (rv =? 1) then pret (rv, buf)
      else if bool_decide (buf !! p = Some newline) then pret (Z.of_nat p, <[p := nul]> buf)
      else read_line_loop n fd buf (S p)
  end.

Definition read_line (fd : Z) (buf : list ascii) : prog W (Z * list ascii) :=
  read_line_loop (length buf) fd buf 0.

(** [sscanf (s, "<prefix> %s", out)]: the word, when the result is 1. *)
Definition sscanf_word (prefix s : list ascii) : option (list ascii) :=
  if prefixb prefix s then
    let (_, s) := span isspace (drop (length prefix) s) in
    match span (fun c => negb (isspace c)) s with
    | ([], _) => None
    | (w, _) => Some w
    end
  else None.

(** [sscanf (s, "<prefix>%[^, ]", out)]: 1 and the word, 0 when no character
    matches, -1 (EOF) when the input ends first. *)
Definition sscanf_set (prefix s : list ascii) : Z * option (list ascii) :=
  if prefixb prefix s then
    let s := drop (length prefix) s in
    match span (fun c => negb (Ascii.eqb c "," || Ascii.eqb c " ")) s with
    | ([], []) => (-1, None)
    | ([], _) => (0, None)
    | (w, _) => (1, Some w)
    end
  else (0, None).

(** The search for one option of the line; [out] is the destination buffer,
    [None] while it is not initialised. *)
Definition scan_option (name s : list ascii) (out : option (list ascii))
    : prog W (option (list ascii)) :=
  match strstr s name with
  | None => pexit
  | Some p =>
      match sscanf_set name (drop p s) with
      | (rv, w) =>
          if rv =? 0 then pexit
          else pret (match w with Some w => Some w | None => out end)
      end
  end.

(** The buffers of [load_mounts_from_file] and the array it fills. *)
Record loading := Loading {
  l_buffer : list ascii;
  l_backend : option (list ascii);
  l_library : option (list ascii);
  l_mounts : list mount_point_data }.

(** The body of the loop for a line of type "defuse". *)
Definition load_line (l : loading) : prog W loading :=
  let* s := plift (cstring (l_buffer l)) in
  match sscanf_word (lit "defuse") s with
  | None => pexit
  | Some mount_point =>
      let* backend := scan_option (lit "backend=") s (l_backend l) in
      let* library := scan_option (lit "library=") s (l_library l) in
      let* b := plift (deref backend) in
      let* lib := plift (deref library) in
      let* mp := load_mount mount_point b lib in
      match mp with
      | None => pexit
      | Some mp =>
          let length := length (l_mounts l) in
          if (length <? MAX_MOUNTS)%nat then
            pret (Loading (l_buffer l) backend library
                    (l_mounts l ++ [set_index (Z.of_nat length) mp]))
          else plift Undef
      end
  end.

(** At most [fuel] lines. *)
Fixpoint load_loop (fuel : nat) (mounts_fd : Z) (l : loading) : prog W loading :=
  match fuel with
  | O => plift Undef
  | S fuel =>
      let* (rv, buffer) := read_line mounts_fd (l_buffer l) in
      let l := Loading buffer (l_backend l) (l_library l) (l_mounts l) in
      if rv <=? 0 then pret l
      else if (DEFUSE_MOUNT_TYPE_SIZE <? rv) && prefixb DEFUSE_MOUNT_TYPE (l_buffer l) then
        let* l := load_line l in load_loop fuel mounts_fd l
      else load_loop fuel mounts_fd l
  end.

(** [buffer] is the stack buffer of 512 bytes. *)
Definition load_mounts_from_file (fuel : nat) (buffer file : list ascii)
    (mounts : list mount_point_data) : prog W (list mount_point_data) :=
  let* mounts_fd := real_open file O_RDONLY 0 in
  if mounts_fd <? 0 then pexit
  else
    let* l := load_loop fuel mounts_fd (Loading buffer None None mounts) in
    do* real_close mounts_fd;
    pret (l_mounts l).
End Load.

(** ** Looking a path up *)

(** [path] is the buffer, [i] the position of the first entry of [mounts]. *)
Fixpoint strip_loop (mounts : list mount_point_data) (i : nat) (path : list ascii)
    : outcome (option nat * list ascii) :=
  match mounts with
  | [] => Ret (None, path)
  | m :: mounts =>
      let! s := cstring path in
      if bool_decide (strstr s (mp_mount_path m) = Some 0%nat) then
        let mount_len := length (mp_mount_path m) in
        let! path_len := strlen path in
        if (1 <? path_len)%nat then
          let! n := sub_size path_len mount_len in
          let! path := memmove path 0 mount_len n in
          let! path := terminate path n in
          let! path :=
            if bool_decide (path !! 0%nat = Some nul) then
              if (1 <? length path)%nat then Ret (<[1%nat := nul]> (<[0%nat := slash]> path)) else Undef
            else Ret path in
          Ret (Some i, path)
        else strip_loop mounts (S i) path
      else strip_loop mounts (S i) path
  end.

(** [None] is the null pointer. *)
Definition find_and_strip (mounts : list mount_point_data) (path : option (list ascii))
    : outcome (option nat * option (list ascii)) :=
  match path, mounts with
  | None, [] => Ret (None, None)
  | None, _ => Undef
  | Some path, _ => let! (rv, path) := strip_loop mounts 0 path in Ret (rv, Some path)
  end.

Fixpoint find_loop (mounts : list mount_point_data) (i : nat) (path : list ascii) : option nat :=
  match mounts with
  | [] => None
  | m :: mounts =>
      if bool_decide (strstr path (mp_mount_path m) = Some 0%nat) then Some i
      else find_loop mounts (S i) path
  end.

(** ** Lookup returns the first mount point that is a prefix *)

Lemma find_loop_spec mounts i s :
  match find_loop mounts i s with
  | Some k => exists m, (i <= k)%nat /\ mounts !! (k - i)%nat = Some m /\
      prefixb (mp_mount_path m) s = true /\
      forall j m', (j < k - i)%nat -> mounts !! j = Some m' -> prefixb (mp_mount_path m') s = false
  | None => forall j m', mounts !! j = Some m' -> prefixb (mp_mount_path m') s = false
  end.
Proof.
  revert i. induction mounts as [|m mounts IH]; intros i; cbn [find_loop]; [done|].
  case_bool_decide as Hm; rewrite strstr_0 in Hm.
  - exists m. rewrite Nat.sub_diag. repeat split; try done; lia.
  - specialize (IH (S i)). apply not_true_is_false in Hm. destruct (find_loop mounts (S i) s) as [k|].
    + destruct IH as (m' & Hk & Hl & Hp & Hn). exists m'.
      replace (k - i)%nat with (S (k - S i)) by lia. split; [lia|]. split; [done|]. split; [done|].
      intros [|j] m'' Hj E; [by injection E as <-|]. apply (Hn j m''); [lia|done].
    + intros [|j] m' E; [by injection E as <-|]. by apply (IH j).
Qed.

(** The path below a mount point. *)
Definition below (m s : list ascii) : list ascii :=
  match drop (length m) s with [] => [slash] | r => r end.

Lemma strip_one m s :
  nonul s -> (1 < length s)%nat -> prefixb m s = true ->
  exists buf,
    (let! n := sub_size (length s) (length m) in
     let! path := memmove (s ++ [nul]) 0 (length m) n in
     let! path := terminate path n in
     if bool_decide (path !! 0%nat = Some nul) then
       if (1 <? length path)%nat then Ret (<[1%nat := nul]> (<[0%nat := slash]> path)) else Undef
     else Ret path) = Ret buf /\ cstring buf = Ret (below m s).
Proof.
  intros Hn Hl Hp. apply prefixb_spec in Hp as [k ->]. unfold below. rewrite drop_app_length.
  unfold mbind, outcome_bind, sub_size. rewrite length_app.
  destruct (Nat.leb_spec (length m) (length m + length k)); [|lia].
  replace (length m + length k - length m)%nat with (length k) by lia.
  unfold memmove. rewrite !length_app. cbn [length Nat.add].
  destruct (Nat.leb_spec (length k) (length m + length k + 1)); [|lia].
  destruct (Nat.leb_spec (length m + length k) (length m + length k + 1)); [|lia]. cbn [andb].
  rewrite <- app_assoc, drop_app_length, take_app_length, take_0. cbn [app].
  set (d := drop (length k) (m ++ k ++ [nul])).
  assert (length d = length m + 1)%nat as Hd
    by (unfold d; rewrite length_drop, !length_app; simpl; lia).
  unfold terminate. rewrite length_app, Hd.
  destruct (Nat.ltb_spec (length k) (length k + (length m + 1))); [|lia].
  destruct d as [|c d]; [simpl in Hd; lia|].
  rewrite insert_app_r_alt, Nat.sub_diag by lia. cbn [insert list_insert].
  rewrite length_app in Hl. destruct k as [|a k].
  - cbn [app lookup list_lookup]. case_bool_decide; [|done].
    destruct d as [|c' d]; [simpl in *; lia|]. eexists. split; [reflexivity|]. done.
  - cbn [app lookup list_lookup]. case_bool_decide as Ha.
    + injection Ha as ->. exfalso. apply Hn. set_solver.
    + eexists. split; [reflexivity|].
      apply (cstring_app_nul (a :: k) d). intros Hin. apply Hn. set_solver.
Qed.

Lemma strip_loop_spec mounts i s :
  nonul s -> (1 < length s)%nat ->
  exists buf, strip_loop mounts i (s ++ [nul]) = Ret (find_loop mounts i s, buf) /\
    cstring buf = Ret (match find_loop mounts i s with
                       | Some k => match mounts !! (k - i)%nat with
                                   | Some m => below (mp_mount_path m) s
                                   | None => s
                                   end
                       | None => s
                       end).
Proof.
  intros Hn Hl. revert i. induction mounts as [|m mounts IH]; intros i.
  - exists (s ++ [nul]). split; [done|]. by apply cstring_app_nul.
  - cbn [strip_loop find_loop]. rewrite cstring_app_nul by done. unfold mbind at 1, outcome_bind at 1.
    case_bool_decide as Hm.
    + rewrite strlen_app_nul by done. unfold mbind at 1, outcome_bind at 1.
      destruct (Nat.ltb_spec 1 (length s)); [|lia].
      destruct (strip_one (mp_mount_path m) s) as (buf & E & Hb); [done..|by apply strstr_0|].
      exists buf. rewrite Nat.sub_diag. split; [|done].
      revert E. unfold mbind, outcome_bind. intros E.
      repeat (split_in E; try discriminate E); by injection E as <-.
    + destruct (IH (S i)) as (buf & E & Hb). exists buf. split; [done|]. rewrite Hb. f_equal.
      pose proof (find_loop_spec mounts (S i) s) as Hs. destruct (find_loop mounts (S i) s) as [k|]; [|done].
      destruct Hs as (m' & Hk & _). by replace (k - i)%nat with (S (k - S i)) by lia.
Qed.

(** ** Loading a library stores every function *)

Lemma get_set_target t u v m :
  get_target t (set_target u v m) = if decide (t = u) then v else get_target t m.
Proof. by destruct t. Qed.

Section LoadProofs.
Context {W : Type} `{DlLaws W} `{!RealOps W} `{!ReadLaws W}.

(** What the entry holds when the library is loaded: the exported symbol, null
    when there is none. *)
Definition symbol_value (handle : Z) (name : list ascii) : Z := default 0 (lib_symbol handle name).

Fixpoint fill (handle : Z) (ts : list (list ascii * target * bool)) (m : mount_point_data)
    : mount_point_data :=
  match ts with
  | [] => m
  | (name, t, _) :: ts => fill handle ts (set_target t (symbol_value handle name) m)
  end.

(** The library exports every function that is required. *)
Definition exports (handle : Z) (ts : list (list ascii * target * bool)) : bool :=
  forallb (fun '(name, _, required) =>
    implb required (bool_decide (is_Some (lib_symbol handle name)))) ts.

(** A relation between worlds kept by all the calls of the loader. *)
Definition same_reads (w w' : W) : Prop := forall fd s, reads_as w fd s -> reads_as w' fd s.

Lemma load_targets_none handle ts w : load_targets handle ts None w = Ret (None, w).
Proof. induction ts as [|[[name t] r] ts IH]; [done|]. cbn [load_targets LOAD_TARGET]. exact IH. Qed.

Lemma LOAD_TARGET_spec handle name t r m w :
  exists w', LOAD_TARGET handle name t r (Some m) w =
    Ret (if implb r (bool_decide (is_Some (lib_symbol handle name)))
         then Some (set_target t (symbol_value handle name) m) else None, w') /\
    (implb r (bool_decide (is_Some (lib_symbol handle name))) = true -> same_reads w w').
Proof.
  unfold LOAD_TARGET, symbol_value, pbind, pcall.
  pose proof (dlsym_symbol handle name w) as Hs. pose proof (dlsym_reads handle name w) as Hr.
  destruct (dlsym handle name w) as [o w1]. cbn [fst snd] in *. subst o.
  destruct (lib_symbol handle name) as [f|].
  - rewrite bool_decide_eq_true_2 by eauto. rewrite implb_true_r. exists w1. split; [done|]. intros _ fd s. apply Hr.
  - rewrite bool_decide_eq_false_2 by (by intros [? ?]). destruct r; cbn [implb].
    + eexists. split; [reflexivity|done].
    + exists w1. split; [done|]. intros _ fd s. apply Hr.
Qed.

Lemma load_targets_spec handle ts m w :
  exists w', load_targets handle ts (Some m) w =
    Ret (if exports handle ts then Some (fill handle ts m) else None, w') /\
    (exports handle ts = true -> same_reads w w').
Proof.
  revert m w. induction ts as [|[[name t] r] ts IH]; intros m w.
  { exists w. split; [done|by intros _ ? ? ?]. }
  cbn [load_targets exports forallb fill].
  destruct (LOAD_TARGET_spec handle name t r m w) as (w1 & E & Hw1). rewrite (pbind_ret _ _ _ _ _ E).
  destruct (implb r _); cbn [andb].
  - destruct (IH (set_target t (symbol_value handle name) m) w1) as (w2 & E2 & Hw2).
    exists w2. split; [done|]. intros He fd s Hfd. by apply Hw2, Hw1.
  - rewrite load_targets_none. by exists w1.
Qed.

Lemma fill_targets handle m t name required :
  (name, t, required) ∈ targets -> get_target t (fill handle targets m) = symbol_value handle name.
Proof.
  unfold targets. cbn [fill]. rewrite !elem_of_cons. intros Hin.
  repeat (destruct Hin as [[= -> -> ->]|Hin]; [by rewrite ?get_set_target|]).
  by apply not_elem_of_nil in Hin.
Qed.

Lemma fill_paths handle ts m :
  mp_index (fill handle ts m) = mp_index m /\
  mp_mount_path (fill handle ts m) = mp_mount_path m /\
  mp_backend_path (fill handle ts m) = mp_backend_path m /\
  mp_library_path (fill handle ts m) = mp_library_path m.
Proof.
  revert m. induction ts as [|[[name t] r] ts IH]; intros m; [done|].
  exact (IH (set_target t (symbol_value handle name) m)).
Qed.

(** The entry [load_mount] makes. *)
Definition loaded (handle : Z) (mount_path backend_path library_path : list ascii) : mount_point_data :=
  fill handle targets (MPD 0 mount_path backend_path library_path 0 0 0 0 0 0 0 0 0 0 0 0 0 0 0 0).

Lemma load_mount_spec mp be lib w :
  exists w', load_mount mp be lib w =
    Ret (match lib_handle lib with
         | Some h => if exports h targets then Some (loaded h mp be lib) else None
         | None => None
         end, w') /\
    (forall h, lib_handle lib = Some h -> exports h targets = true -> same_reads w w').
Proof.
  unfold load_mount. unfold pbind at 1, pcall.
  pose proof (dlopen_handle lib w) as Hh. pose proof (dlopen_reads lib w) as Hr.
  destruct (dlopen lib w) as [o w1]. cbn [fst snd] in *. subst o.
  destruct (lib_handle lib) as [h|]; [|by exists w1].
  destruct (load_targets_spec h targets (MPD 0 mp be lib 0 0 0 0 0 0 0 0 0 0 0 0 0 0 0 0) w1)
    as (w2 & E & Hw). rewrite (pbind_ret _ _ _ _ _ E).
  destruct (exports h targets) eqn:He; [|exists w2; split; [done|congruence]].
  fold (loaded h mp be lib). destruct (negb _).
  - eexists. split; [reflexivity|]. intros h' [= <-] _ fd s Hfd. apply init_reads, Hw, Hr; done.
  - exists w2. split; [done|]. intros h' [= <-] _ fd s Hfd. apply Hw, Hr; done.
Qed.

(** ** Reading a line *)

Lemma splice_snoc (done rest : list ascii) c :
  (0 < length rest)%nat -> splice (done ++ rest) (length done) [c] = (done ++ [c]) ++ drop 1 rest.
Proof.
  intros. unfold splice. rewrite take_app_length, drop_app_ge by lia. cbn [length].
  replace (length done + 1 - length done)%nat with 1%nat by lia. by rewrite <- app_assoc.
Qed.

Lemma read_line_loop_spec line fd rest pre buf w :
  reads_as w fd (line ++ newline :: rest) -> newline ∉ line -> (length line < length buf)%nat ->
  exists w', read_line_loop (length buf) fd (pre ++ buf) (length pre) w =
    Ret ((Z.of_nat (length pre + length line), pre ++ line ++ nul :: drop (S (length line)) buf), w') /\
    reads_as w' fd rest.
Proof.
  revert pre buf w. induction line as [|c line IH]; intros pre buf w Hr Hn Hl;
    (destruct buf as [|b buf]; [simpl in Hl; lia|]); cbn [length read_line_loop app] in *;
    destruct (read_more _ _ _ _ Hr) as (w1 & E & Hr1); rewrite (pbind_ret _ _ _ _ _ E);
    rewrite splice_snoc by (simpl; lia); change (drop 1 (b :: buf)) with buf; cbn [negb Z.eqb Pos.eqb];
    rewrite <- app_assoc, lookup_app_r, Nat.sub_diag by lia; cbn [app lookup list_lookup].
  - rewrite bool_decide_eq_true_2 by done. exists w1. split; [|done].
    rewrite insert_app_r_alt, Nat.sub_diag by lia. cbn. by rewrite Nat.add_0_r.
  - rewrite bool_decide_eq_false_2 by (intros [= ->]; set_solver).
    destruct (IH (pre ++ [c]) buf w1 Hr1) as (w2 & E2 & Hr2); [set_solver|lia|].
    rewrite length_app in E2. cbn [length] in E2. rewrite Nat.add_1_r, <- !app_assoc in E2. cbn [app] in E2.
    exists w2. split; [|done]. rewrite E2. by rewrite Nat.add_succ_r.
Qed.

Lemma read_line_spec line fd rest buf w :
  reads_as w fd (line ++ newline :: rest) -> newline ∉ line -> (length line < length buf)%nat ->
  exists w', read_line fd buf w =
    Ret ((Z.of_nat (length line), line ++ nul :: drop (S (length line)) buf), w') /\
    reads_as w' fd rest.
Proof. intros. by apply (read_line_loop_spec line fd rest []). Qed.

Lemma read_line_end fd buf w :
  reads_as w fd [] -> (0 < length buf)%nat -> exists buf' w', read_line fd buf w = Ret ((0, buf'), w').
Proof.
  intros Hr Hl. unfold read_line. destruct buf as [|b buf]; [simpl in Hl; lia|]. cbn [length read_line_loop].
  destruct (read_end _ _ Hr) as (w1 & E & Hr1). rewrite (pbind_ret _ _ _ _ _ E). unfold pret. eauto.
Qed.
(** ** Parsing a line *)

Lemma span_all f s c rest :
  Forall (fun a => f a = true) s -> f c = false -> span f (s ++ c :: rest) = (s, c :: rest).
Proof.
  induction 1 as [|a s Ha Hs IH]; intros Hc; cbn [app span]; [by rewrite Hc|].
  by rewrite Ha, IH.
Qed.

(** A pattern is not found before [u] ends when it matches nowhere in it. *)
Lemma strstr_after u v p k :
  (forall j, (j < length u)%nat -> prefixb p (drop j (u ++ v)) = false) ->
  strstr v p = Some k -> strstr (u ++ v) p = Some (length u + k)%nat.
Proof.
  induction u as [|c u IH]; intros Hj Hk; [done|]. cbn [app length].
  pose proof (Hj 0%nat) as H0'. rewrite drop_0 in H0'. cbn [strstr app length] in *. rewrite H0' by lia.
  rewrite IH; [done| |done]. intros j Hj'. apply (Hj (S j)). lia.
Qed.

Lemma prefixb_lookup p s i c : prefixb p s = true -> p !! i = Some c -> s !! i = Some c.
Proof. intros [k ->]%prefixb_spec Hi. by apply lookup_app_l_Some. Qed.

(** "backend=" and "library=" end in "=", at position 7. *)
Lemma eq_at (p s : list ascii) j :
  p !! 7%nat = Some "="%char -> prefixb p (drop j s) = true -> s !! (j + 7)%nat = Some "="%char.
Proof. intros Hp Hm. apply (prefixb_lookup _ _ 7 _ Hm) in Hp. by rewrite lookup_drop in Hp. Qed.

Lemma backend_len : length (lit "backend=") = 8%nat.
Proof. done. Qed.
Lemma library_len : length (lit "library=") = 8%nat.
Proof. done. Qed.

Lemma strstr_backend u v :
  "="%char ∉ u -> strstr (u ++ lit "backend=" ++ v) (lit "backend=") = Some (length u).
Proof.
  intros Hu. rewrite <- (Nat.add_0_r (length u)). apply strstr_after; [|by apply strstr_0, prefixb_app].
  intros j Hj. apply not_true_is_false. intros Hm. apply eq_at in Hm; [|done].
  destruct (decide (j + 7 < length u)%nat).
  - rewrite lookup_app_l in Hm by lia. by apply list_elem_of_lookup_2 in Hm.
  - rewrite lookup_app_r in Hm by lia. rewrite lookup_app_l in Hm by (rewrite ?backend_len, ?library_len; lia).
    assert (j + 7 - length u < 7)%nat as Hlt by lia. revert Hm Hlt.
    generalize (j + 7 - length u)%nat. intros i Hm Hlt. do 7 (destruct i as [|i]; [done|]). lia.
Qed.

Lemma strstr_library u v x :
  "="%char ∉ u -> "="%char ∉ v ->
  strstr (u ++ lit "backend=" ++ v ++ lit "library=" ++ x) (lit "library=")
  = Some (length u + 8 + length v)%nat.
Proof.
  intros Hu Hv. rewrite <- (Nat.add_0_r (_ + length v)), !app_assoc.
  replace (length u + 8 + length v)%nat with (length ((u ++ lit "backend=") ++ v))
    by (rewrite !length_app; done).
  rewrite <- (app_assoc _ (lit "library=") x).
  apply strstr_after; [|by apply strstr_0, prefixb_app].
  intros j Hj. apply not_true_is_false. intros Hm. pose proof Hm as Hm'. apply eq_at in Hm; [|done].
  rewrite !length_app in Hj. rewrite backend_len in Hj.
  rewrite <- !app_assoc in Hm, Hm'.
  destruct (decide (j + 7 < length u)%nat).
  { rewrite lookup_app_l in Hm by lia. by apply list_elem_of_lookup_2 in Hm. }
  destruct (decide (j < length u)%nat); [|destruct (decide (j = length u)); [|]].
  - rewrite lookup_app_r in Hm by lia. rewrite lookup_app_l in Hm by (rewrite ?backend_len, ?library_len; lia).
    assert (j + 7 - length u < 7)%nat as Hlt by lia. revert Hm Hlt.
    generalize (j + 7 - length u)%nat. intros i Hm Hlt. do 7 (destruct i as [|i]; [done|]). lia.
  - subst j. by rewrite drop_app_length in Hm'.
  - rewrite lookup_app_r in Hm by lia. rewrite lookup_app_r in Hm by (rewrite ?backend_len, ?library_len; lia).
    rewrite backend_len in Hm.
    destruct (decide (j + 7 - length u - 8 < length v)%nat).
    + rewrite lookup_app_l in Hm by lia. by apply list_elem_of_lookup_2 in Hm.
    + rewrite lookup_app_r in Hm by lia. rewrite lookup_app_l in Hm by (rewrite ?backend_len, ?library_len; lia).
      assert (j + 7 - length u - 8 - length v < 7)%nat as Hlt by lia. revert Hm Hlt.
      generalize (j + 7 - length u - 8 - length v)%nat. intros i Hm Hlt.
      do 7 (destruct i as [|i]; [done|]). lia.
Qed.

(** A line of the table of mounts: one of another type, or the line the kernel
    prints for a mount of type "defuse". *)
Inductive mount_line :=
| Other (s : list ascii)
| Entry (mount_point backend library : list ascii).

Definition line_text (l : mount_line) : list ascii :=
  match l with
  | Other s => s
  | Entry mp b lib =>
      (lit "defuse " ++ mp ++ lit " defuse rw,") ++ lit "backend=" ++ (b ++ lit ",") ++
      lit "library=" ++ lib ++ lit " 0 0"
  end.

Definition option_char (c : ascii) : bool := negb (Ascii.eqb c "," || Ascii.eqb c " ").

(** What the parser relies on; the buffer has 512 bytes. *)
Definition line_ok (l : mount_line) : Prop :=
  newline ∉ line_text l /\ nonul (line_text l) /\ (0 < length (line_text l) < 512)%nat /\
  match l with
  | Other s => prefixb (lit "defuse") s = false
  | Entry mp b lib =>
      mp <> [] /\ b <> [] /\ lib <> [] /\ "="%char ∉ mp /\ "="%char ∉ b /\
      Forall (fun c => isspace c = false) mp /\
      Forall (fun c => option_char c = true) b /\ Forall (fun c => option_char c = true) lib
  end.

Definition entries (ls : list mount_line) : list (list ascii * list ascii * list ascii) :=
  omap (fun l => match l with Entry mp b lib => Some (mp, b, lib) | Other _ => None end) ls.

Lemma sscanf_word_entry mp x :
  mp <> [] -> Forall (fun c => isspace c = false) mp ->
  sscanf_word (lit "defuse") (lit "defuse " ++ mp ++ lit " defuse rw," ++ x) = Some mp.
Proof.
  intros Hne Hmp. unfold sscanf_word.
  change (lit "defuse " ++ mp ++ lit " defuse rw," ++ x)
    with (lit "defuse" ++ lit " " ++ mp ++ lit " defuse rw," ++ x).
  rewrite prefixb_app, drop_app_length. destruct mp as [|c mp]; [done|].
  change (lit " " ++ (c :: mp) ++ lit " defuse rw," ++ x)
    with ([" "%char] ++ c :: (mp ++ lit " defuse rw," ++ x)).
  rewrite span_all; [|by repeat constructor|by apply Forall_cons in Hmp as []].
  change (c :: mp ++ lit " defuse rw," ++ x) with ((c :: mp) ++ " "%char :: (lit "defuse rw," ++ x)).
  rewrite span_all; [done| |done]. eapply Forall_impl; [exact Hmp|]. by intros a ->.
Qed.

Lemma sscanf_set_entry name v c x :
  v <> [] -> Forall (fun a => option_char a = true) v -> option_char c = false ->
  sscanf_set name (name ++ v ++ c :: x) = (1, Some v).
Proof.
  intros Hne Hv Hc. unfold sscanf_set. rewrite prefixb_app, drop_app_length.
  rewrite (span_all option_char) by done. by destruct v.
Qed.
(** ** The array that is loaded *)

Definition loadable (lib : list ascii) : bool :=
  match lib_handle lib with Some h => exports h targets | None => false end.

Definition entry_mount (i : nat) (e : list ascii * list ascii * list ascii) : mount_point_data :=
  let '(mp, b, lib) := e in
  set_index (Z.of_nat i) (loaded (default 0 (lib_handle lib)) mp b lib).

Fixpoint entry_mounts (i : nat) (es : list (list ascii * list ascii * list ascii))
    : list mount_point_data :=
  match es with
  | [] => []
  | e :: es => entry_mount i e :: entry_mounts (S i) es
  end.

Definition table_text (ls : list mount_line) : list ascii :=
  flat_map (fun l => line_text l ++ [newline]) ls.

Lemma load_line_entry mp b lib buf be li acc w :
  line_ok (Entry mp b lib) -> cstring buf = Ret (line_text (Entry mp b lib)) ->
  loadable lib = true ->
  exists w', same_reads w w' /\
    load_line (Loading buf be li acc) w =
      if (length acc <? MAX_MOUNTS)%nat then
        Ret (Loading buf (Some b) (Some lib) (acc ++ [entry_mount (length acc) (mp, b, lib)]), w')
      else Undef.
Proof.
  intros (_ & _ & _ & Hmp & Hb & Hlib & Hemp & Heb & Hsp & Hob & Hol) Hbuf Hload.
  unfold load_line. cbn [l_buffer l_backend l_library l_mounts]. rewrite Hbuf. unfold plift, pbind at 1.
  unfold line_text. set (x := lit "library=" ++ lib ++ lit " 0 0").
  rewrite <- app_assoc, <- app_assoc, sscanf_word_entry by done.
  set (u := lit "defuse " ++ mp ++ lit " defuse rw,").
  assert ("="%char ∉ u) as Hu by (unfold u; rewrite !not_elem_of_app; repeat split; try done; set_solver).
  replace (lit "defuse " ++ mp ++ lit " defuse rw," ++ lit "backend=" ++ (b ++ lit ",") ++ x)
    with (u ++ lit "backend=" ++ (b ++ lit ",") ++ x) by (unfold u; by rewrite <- !app_assoc).
  unfold scan_option. rewrite strstr_backend, drop_app_length by done.
  rewrite <- (app_assoc b). change (lit "," ++ x) with (","%char :: x).
  rewrite (sscanf_set_entry (lit "backend=") b "," x) by done. cbn [Z.eqb].
  change (","%char :: x) with (lit "," ++ x).
  unfold pbind at 1, pret at 1. rewrite (app_assoc b). unfold x.
  rewrite strstr_library; [|done|rewrite not_elem_of_app; split; [done|set_solver]].
  set (y := lit "library=" ++ lib ++ lit " 0 0").
  replace (u ++ lit "backend=" ++ (b ++ lit ",") ++ y) with ((u ++ lit "backend=" ++ b ++ lit ",") ++ y)
    by (by rewrite <- !app_assoc).
  rewrite drop_app_ge by (rewrite !length_app, backend_len; lia).
  replace (_ - _)%nat with 0%nat by (rewrite !length_app, backend_len; lia). rewrite drop_0. unfold y.
  change (lib ++ lit " 0 0") with (lib ++ " "%char :: lit "0 0").
  rewrite (sscanf_set_entry (lit "library=") lib " " (lit "0 0")) by done. cbn [Z.eqb].
  unfold pbind at 1, pret at 1, deref. unfold pbind at 1. unfold pbind at 1.
  destruct (load_mount_spec mp b lib w) as (w' & E & Hw). rewrite (pbind_ret _ _ _ _ _ E).
  unfold loadable in Hload. unfold entry_mount.
  destruct (lib_handle lib) as [h|]; [|done]. rewrite Hload.
  exists w'. split; [by apply (Hw h)|]. by destruct (length acc <? MAX_MOUNTS)%nat.
Qed.

Lemma other_skipped s x :
  prefixb (lit "defuse") s = false ->
  (DEFUSE_MOUNT_TYPE_SIZE <? Z.of_nat (length s)) && prefixb DEFUSE_MOUNT_TYPE (s ++ x) = false.
Proof.
  intros Hs. unfold DEFUSE_MOUNT_TYPE_SIZE.
  destruct (Z.ltb_spec 6 (Z.of_nat (length s))) as [Hlt|]; [|done].
  do 6 (destruct s as [|? s]; [cbn in Hlt; lia|]). exact Hs.
Qed.

Lemma load_loop_spec ls fuel fd buf be li acc w :
  Forall line_ok ls -> Forall (fun e => loadable e.2 = true) (entries ls) ->
  reads_as w fd (table_text ls) -> length buf = 512%nat -> (length ls < fuel)%nat ->
  (length acc <= MAX_MOUNTS)%nat ->
  if (length acc + length (entries ls) <=? MAX_MOUNTS)%nat then
    exists l w', load_loop fuel fd (Loading buf be li acc) w = Ret (l, w') /\
      l_mounts l = acc ++ entry_mounts (length acc) (entries ls)
  else load_loop fuel fd (Loading buf be li acc) w = Undef.
Proof.
  revert fuel buf be li acc w. induction ls as [|l ls IH]; intros fuel buf be li acc w Hok Hld Hr Hlen Hf Hacc;
    (destruct fuel as [|fuel]; [cbn [length] in Hf; lia|]); cbn [length load_loop l_buffer l_backend l_library l_mounts].
  - cbn [entries omap list_omap length]. destruct (Nat.leb_spec (length acc + 0) MAX_MOUNTS); [|lia].
    destruct (read_line_end fd buf w) as (buf' & w' & E); [done|lia|].
    rewrite (pbind_ret _ _ _ _ _ E). eexists _, _. split; [reflexivity|]. by rewrite app_nil_r.
  - apply Forall_cons in Hok as [Hl Hok]. cbn [table_text flat_map] in Hr. rewrite <- app_assoc in Hr.
    destruct (read_line_spec (line_text l) fd (table_text ls) buf w) as (w1 & E & Hr1); [done|by apply Hl|destruct Hl; lia|].
    rewrite (pbind_ret _ _ _ _ _ E). clear E. cbn [l_buffer l_backend l_library l_mounts].
    pose proof Hl as (Hnl & Hnn & Hln & Hcase).
    destruct (Z.leb_spec (Z.of_nat (length (line_text l))) 0); [lia|].
    set (buf1 := line_text l ++ nul :: drop (S (length (line_text l))) buf).
    assert (length buf1 = 512%nat) as Hlen1 by (unfold buf1; rewrite length_app; cbn [length]; rewrite length_drop; lia).
    destruct l as [s|mp b lib].
    + cbn [line_text] in *. pose proof (other_skipped s (nul :: drop (S (length s)) buf) Hcase) as Hno.
      fold buf1 in Hno. rewrite Hno.
      change (entries (Other s :: ls)) with (entries ls) in *.
      apply IH; try done. cbn [length] in Hf. lia.
    + change (entries (Entry mp b lib :: ls)) with ((mp, b, lib) :: entries ls) in *.
      cbn [length]. apply Forall_cons in Hld as [Hlib Hld]. cbn [snd] in Hlib.
      assert ((DEFUSE_MOUNT_TYPE_SIZE <? Z.of_nat (length (line_text (Entry mp b lib)))) && prefixb DEFUSE_MOUNT_TYPE buf1 = true) as ->.
      { apply andb_true_iff. split; [|done]. apply Z.ltb_lt. cbn [line_text]. rewrite !length_app.
        unfold DEFUSE_MOUNT_TYPE_SIZE. rewrite backend_len. lia. }
      destruct (load_line_entry mp b lib buf1 be li acc w1) as (w2 & Hw & E); [done|by apply cstring_app_nul|done|].
      destruct (Nat.ltb_spec (length acc) MAX_MOUNTS).
      * specialize (IH fuel buf1 (Some b) (Some lib) (acc ++ [entry_mount (length acc) (mp, b, lib)]) w2 Hok Hld (Hw _ _ Hr1) Hlen1).
        rewrite length_app in IH. cbn [length] in IH. rewrite <- Nat.add_assoc in IH. cbn [Nat.add] in IH.
        cbn [length] in Hf. specialize (IH ltac:(lia) ltac:(lia)).
        rewrite Nat.add_1_r, <- app_assoc in IH. rewrite (pbind_ret _ _ _ _ _ E). exact IH.
      * destruct (Nat.leb_spec (length acc + S (length (entries ls))) MAX_MOUNTS); [lia|].
        unfold pbind. by rewrite E.
Qed.
(** C21: A printed table of mounts is read back. When the table holds the lines
    that the kernel prints for mounts, among lines of other types, and every
    library named in it opens and exports the required functions, the loader
    fills the array with one entry per mount, in the order of the lines: the
    mount point, backend and library of the line, the position as index, the
    exported functions as targets. *)
Theorem load_mounts_roundtrip ls fuel buffer file fd w w0 :
  Forall line_ok ls -> Forall (fun e => loadable e.2 = true) (entries ls) ->
  (length (entries ls) <= MAX_MOUNTS)%nat -> length buffer = 512%nat -> (length ls < fuel)%nat ->
  real_open file O_RDONLY 0 w = Ret (fd, w0) -> 0 <= fd -> reads_as w0 fd (table_text ls) ->
  (forall w, exists r, real_close fd w = Ret r) ->
  exists w', load_mounts_from_file fuel buffer file [] w = Ret (entry_mounts 0 (entries ls), w').
Proof.
  intros Hok Hld Hmax Hlen Hf Hopen Hfd Hr Hclose. unfold load_mounts_from_file.
  rewrite (pbind_ret _ _ _ _ _ Hopen). destruct (Z.ltb_spec fd 0); [lia|].
  pose proof (load_loop_spec ls fuel fd buffer None None [] w0 Hok Hld Hr Hlen Hf) as Hl.
  cbn [length] in Hl. destruct (Nat.leb_spec (0 + length (entries ls)) MAX_MOUNTS); [|lia].
  destruct Hl as (l & w1 & E & Hm); [lia|]. rewrite (pbind_ret _ _ _ _ _ E).
  destruct (Hclose w1) as [[r w2] Ec]. rewrite (pbind_ret _ _ _ _ _ Ec). exists w2.
  unfold pret. by rewrite Hm.
Qed.

(** The array is not checked for its bound: a table with more than sixteen
    mounts makes the loader write past the end of [mounts]. *)
Theorem load_mounts_overflow ls fuel buffer file fd w w0 :
  Forall line_ok ls -> Forall (fun e => loadable e.2 = true) (entries ls) ->
  (MAX_MOUNTS < length (entries ls))%nat -> length buffer = 512%nat -> (length ls < fuel)%nat ->
  real_open file O_RDONLY 0 w = Ret (fd, w0) -> 0 <= fd -> reads_as w0 fd (table_text ls) ->
  load_mounts_from_file fuel buffer file [] w = Undef.
Proof.
  intros Hok Hld Hmax Hlen Hf Hopen Hfd Hr. unfold load_mounts_from_file.
  rewrite (pbind_ret _ _ _ _ _ Hopen). destruct (Z.ltb_spec fd 0); [lia|].
  pose proof (load_loop_spec ls fuel fd buffer None None [] w0 Hok Hld Hr Hlen Hf) as Hl.
  cbn [length] in Hl. destruct (Nat.leb_spec (0 + length (entries ls)) MAX_MOUNTS); [lia|].
  unfold pbind. rewrite Hl by lia. done.
Qed.

(** [load_mount] succeeds exactly when the library opens and exports every
    required function, and the entry then has the given paths and, for every
    function of the table of targets, the exported address, null only for an
    optional function that is missing. *)
Theorem load_mount_complete mp be lib w :
  exists r w', load_mount mp be lib w = Ret (r, w') /\
    (is_Some r <-> loadable lib = true) /\
    forall m, r = Some m ->
      mp_mount_path m = mp /\ mp_backend_path m = be /\ mp_library_path m = lib /\
      forall name t required, (name, t, required) ∈ targets ->
        get_target t m = default 0 (lib_symbol (default 0 (lib_handle lib)) name) /\
        (required = true -> get_target t m <> 0).
Proof.
  destruct (load_mount_spec mp be lib w) as (w' & E & _). rewrite E. eexists _, w'. split; [reflexivity|].
  unfold loadable. destruct (lib_handle lib) as [h|]; [|split; [by split; [intros []|]|done]].
  destruct (exports h targets) eqn:He; (split; [split; [by intros []|by eauto]|]); [|done].
  intros m [= <-]. unfold loaded. destruct (fill_paths h targets (MPD 0 mp be lib 0 0 0 0 0 0 0 0 0 0 0 0 0 0 0 0)) as (_ & -> & -> & ->).
  split; [done|]. split; [done|]. split; [done|]. intros name t required Hin.
  rewrite (fill_targets _ _ _ _ _ Hin). unfold symbol_value. cbn [default]. split; [done|]. intros ->.
  unfold exports in He. rewrite forallb_forall in He. apply list_elem_of_In in Hin.
  specialize (He _ Hin). cbn [implb] in He. apply bool_decide_eq_true in He as [f Hf]. rewrite Hf.
  by apply (lib_symbol_nonnull h name).
Qed.
End LoadProofs.

(** Looking a path of at least two characters up in the buffer it was
    copied to is defined, and finds the first entry whose mount point is a
    prefix of the path; the buffer then holds the rest of the path, or "/" when
    there is no rest. Without such an entry the buffer still holds the path. *)
Theorem find_and_strip_first mounts s :
  nonul s -> (1 < length s)%nat ->
  exists buf, find_and_strip mounts (Some (s ++ [nul])) = Ret (find_loop mounts 0 s, Some buf) /\
    match find_loop mounts 0 s with
    | Some k => exists m, mounts !! k = Some m /\ prefixb (mp_mount_path m) s = true /\
        (forall j m', (j < k)%nat -> mounts !! j = Some m' -> prefixb (mp_mount_path m') s = false) /\
        cstring buf = Ret (below (mp_mount_path m) s)
    | None => (forall m, m ∈ mounts -> prefixb (mp_mount_path m) s = false) /\ cstring buf = Ret s
    end.
Proof.
  intros Hn Hl. destruct (strip_loop_spec mounts 0 s Hn Hl) as (buf & E & Hb).
  exists buf. unfold find_and_strip, mbind, outcome_bind. rewrite E. split; [by destruct mounts|].
  pose proof (find_loop_spec mounts 0 s) as Hs. destruct (find_loop mounts 0 s) as [k|].
  - destruct Hs as (m & _ & Hm & Hp & Hj). rewrite Nat.sub_0_r in *. rewrite Hm in Hb. eauto 10.
  - split; [|done]. intros m [j Hj]%list_elem_of_lookup_1. eauto.
Qed.

Definition test_mount (p : list ascii) : mount_point_data :=
  MPD 0 p [] [] 1 1 1 1 1 1 1 1 1 1 1 1 1 1 1 1.

Lemma find_and_strip_first_witness :
  exists buf, find_and_strip [test_mount (lit "/mnt/a"); test_mount (lit "/mnt/b")]
    (Some (lit "/mnt/b/x" ++ [nul])) = Ret (Some 1%nat, Some buf) /\ cstring buf = Ret (lit "/x").
Proof.
  destruct (find_and_strip_first [test_mount (lit "/mnt/a"); test_mount (lit "/mnt/b")] (lit "/mnt/b/x"))
    as (buf & E & Hm).
  - unfold nonul. vm_compute. set_solver.
  - apply Nat.ltb_lt. reflexivity.
  - exists buf. split; [exact E|]. destruct Hm as (m & Hm & _ & _ & Hb). injection Hm as <-. exact Hb.
Defined.

(** The comparison stops inside a component: a file of another directory
    whose name extends the mount point is taken for a file of the mount, with a
    path that does not start with a slash. The empty path and the null pointer
    crash as soon as a file system is mounted. *)
Theorem find_and_strip_ignores_components :
  let mounts := [test_mount (lit "/mnt/defuse")] in
  (exists buf, find_and_strip mounts (Some (lit "/mnt/defuse2/x" ++ [nul])) = Ret (Some 0%nat, Some buf) /\
     cstring buf = Ret (lit "2/x")) /\
  find_and_strip mounts None = Undef.
Proof. cbv zeta. split; [|done]. eexists. split; vm_compute; reflexivity. Qed.
