(* ===== verification/Process.v ===== *)
(** * The process: loading on demand, and the hand-over across exec

    src/libdefuse/shared_space.c, the second half of src/libdefuse/file_handles.c
    and the entry points of src/libdefuse/mount_points.c.

    The static variables of the three files are the fields of [process]; a
    function of the library is a program on the process and the world.  Before
    an exec the open handles are written to a file that is mapped into memory;
    the mounts of the new image are loaded on first use, and the handles are
    then read back. *)

From Stdlib Require Import ZArith Lia Ascii String.
From stdpp Require Import base list gmap pretty.
From S2P Require Import Prelude FileHandles Paths World MountPoints.

Local Open Scope Z_scope.

(** ** State *)

Inductive space_pointer := NullSpace | MapFailed | Mapped (a : Z).

Record shared_space := SS { ss_fd : Z; ss_size : Z; ss_ptr : space_pointer }.

(** The instances are initialised on first use to the values of [init_process]. *)
Record process := Process {
  fht : file_handle_table;
  mounts : list mount_point_data;
  mp_initialized : bool;
  mounts_loaded_flag : bool;
  space : shared_space }.

Definition init_process : process :=
  Process FileHandles.get_instance [] false false (SS (-1) 0 NullSpace).

Definition set_fht v p := Process v (mounts p) (mp_initialized p) (mounts_loaded_flag p) (space p).
Definition set_mounts v p := Process (fht p) v (mp_initialized p) (mounts_loaded_flag p) (space p).
Definition set_mp_initialized v p := Process (fht p) (mounts p) v (mounts_loaded_flag p) (space p).
Definition set_loaded v p := Process (fht p) (mounts p) (mp_initialized p) v (space p).
Definition set_space v p := Process (fht p) (mounts p) (mp_initialized p) (mounts_loaded_flag p) v.

Section Code.
Context {W : Type} `{RealOps W, Sys W, Usfs W}.

Abbreviation M := (prog (process * W)).

Definition sys {A} (e : prog W A) : M A := pzoom snd (fun w s => (s.1, w)) e.
Definition table {A} (f : file_handle_table -> outcome (A * file_handle_table)) : M A :=
  pzoom (fun s => fht s.1) (fun t s => (set_fht t s.1, s.2)) f.
Definition get : M process := fun s => Ret (s.1, s).
Definition world : M W := fun s => Ret (s.2, s).
Definition update (f : process -> process) : M unit := fun s => Ret (tt, (f s.1, s.2)).

(** ** shared_space.c *)

Definition get_file_size (fd : Z) : prog W Z :=
  let* fcntl_rv := pcall (setlk fd F_RDLCK) in
  if fcntl_rv =? -1 then pret 0
  else
    let* current_pos := real_lseek fd 0 SEEK_SET in
    let* size := real_lseek fd 0 SEEK_END in
    do* real_lseek fd current_pos SEEK_SET;
    do* pcall (setlk fd F_UNLCK);
    pret (u64 size).

Definition get_shared_space_file_name (pid : Z) : list ascii :=
  lit "/tmp/defuse_" ++ lit (pretty pid).

Definition unmap (p : space_pointer) (size : Z) : prog W unit :=
  match p with
  | Mapped a => do* pcall (munmap a size); pret tt
  | _ => pret tt
  end.

Definition release_shared_space : M unit :=
  let* p := get in
  if ss_fd (space p) >=? 0 then
    do* sys (unmap (ss_ptr (space p)) (ss_size (space p)));
    do* sys (real_close (ss_fd (space p)));
    update (set_space (SS (-1) (ss_size (space p)) (ss_ptr (space p))))
  else pret tt.

Definition map_space (fd size : Z) : M space_pointer :=
  let* a := sys (real_mmap size fd) in
  let ptr := match a with Some a => Mapped a | None => MapFailed end in
  do* update (set_space (SS fd size ptr));
  pret (match a with Some a => Mapped a | None => NullSpace end).

Definition get_shared_space : M space_pointer :=
  let* p := get in
  if ss_fd (space p) =? -1 then
    let* w := world in
    let* fd := sys (real_open (get_shared_space_file_name (getpid w)) O_RDWR 0) in
    do* update (set_space (SS fd (ss_size (space p)) (ss_ptr (space p))));
    if fd =? -1 then pret NullSpace
    else
      let* size := sys (get_file_size fd) in
      map_space fd size
  else pret (ss_ptr (space p)).

Definition init_shared_space (size : Z) : M space_pointer :=
  let* p := get in
  do* (if negb (ss_fd (space p) =? -1) then sys (unmap (ss_ptr (space p)) (ss_size (space p)))
       else pret tt);
  let* w := world in
  let* fd := sys (real_open (get_shared_space_file_name (getpid w)) (Z.lor O_RDWR O_CREAT) (Z.lor S_IRUSR S_IWUSR)) in
  do* update (set_space (SS fd (ss_size (space p)) (ss_ptr (space p))));
  if fd =? -1 then pret NullSpace
  else
    do* update (set_space (SS fd size (ss_ptr (space p))));
    let* rv := sys (real_ftruncate fd size) in
    if rv =? -1 then pret NullSpace
    else map_space fd size.

(** ** Accesses to the mapping

    A pointer that is not mapped is [Undef]. *)

Definition mapped_at (p : space_pointer) : outcome Z :=
  match p with Mapped a => Ret a | _ => Undef end.

Definition load (p : space_pointer) (off : Z) (n : nat) : M (list ascii) :=
  let* a := plift (mapped_at p) in
  let* w := world in plift (map_load a off n w).

Definition load_u64 (p : space_pointer) (off : Z) : M Z :=
  let* b := load p off 8 in pret (le_val b).

(** Stores the bytes at the offset and returns their number. *)
Definition copy_with_offset (target : space_pointer) (source : list ascii) (offset : Z) : M Z :=
  let* a := plift (mapped_at target) in
  let* w := world in
  let* w := plift (map_store a offset source w) in
  do* (fun s => Ret (tt, (s.1, w)));
  pret (Z.of_nat (length source)).

(** ** Restoring the handles *)

(** The offsets of the mount paths, and the offset behind the section. *)
Fixpoint restore_mount_points (n : nat) (ptr : space_pointer) (current : Z) : M (list Z * Z) :=
  match n with
  | O => pret ([], current)
  | S n =>
      let mp_data := current in
      let current := current + 16 in
      let* len := load_u64 ptr (mp_data + 8) in
      let* (paths, last) := restore_mount_points n ptr (current + len) in
      pret (current :: paths, last)
  end.

(** One record; [find] is [find_mount_from_path]. *)
Definition restore_file (find : list ascii -> M (option nat)) (ptr : space_pointer)
    (mount_paths : list Z) (mount_point_count f_data : Z) : M unit :=
  let* fh := load_u64 ptr f_data in
  let* descriptor := load_u64 ptr (f_data + 8) in
  let* index := load_u64 ptr (f_data + 16) in
  if index <? mount_point_count then
    let* off := plift (deref (mount_paths !! Z.to_nat index)) in
    let* a := plift (mapped_at ptr) in
    let* w := world in
    let* path := plift (map_string a off w) in
    let* mount_point := find path in
    match mount_point with
    | None => pret tt
    | Some mount_point =>
        let real_fd := i32 descriptor in
        let* p := get in
        let* ex := plift (file_handle_exists real_fd (fht p)) in
        if negb ex then
          let* mp := plift (deref (mounts p !! mount_point)) in
          do* (if negb (mp_restore mp =? 0) then
                 do* sys (pcall (call_restore (mp_restore mp) fh)); pret tt
               else pret tt);
          do* table (insert_file_handle real_fd (FHD fh mount_point));
          pret tt
        else pret tt
    end
  else pret tt.

Fixpoint restore_files (n : nat) (find : list ascii -> M (option nat)) (ptr : space_pointer)
    (mount_paths : list Z) (mount_point_count current : Z) : M unit :=
  match n with
  | O => pret tt
  | S n =>
      do* restore_file find ptr mount_paths mount_point_count current;
      restore_files n find ptr mount_paths mount_point_count (current + 24)
  end.

(** The function has no return statement for the value it computes. *)
Definition restore_file_handles_from_shared_space (find : list ascii -> M (option nat)) : M unit :=
  let* ptr := get_shared_space in
  match ptr with
  | NullSpace => pret tt
  | _ =>
      let* mount_point_count := load_u64 ptr 0 in
      let* (mount_paths, current) := restore_mount_points (Z.to_nat mount_point_count) ptr 8 in
      let* file_count := load_u64 ptr current in
      do* restore_files (Z.to_nat file_count) find ptr mount_paths mount_point_count (current + 8);
      release_shared_space
  end.

(** ** Loading the mounts on first use

    [lines] bounds the number of lines read from the table of mounts, [buffer]
    is the stack buffer of the loader. *)
Context (lines : nat) (buffer : list ascii).

Definition load_mounts (find : list ascii -> M (option nat)) : M unit :=
  let* p := get in
  if mounts_loaded_flag p then pret tt
  else
    do* update (set_loaded true);
    do* update (set_mounts []);
    let* l := sys (load_mounts_from_file lines buffer (lit "/proc/mounts") []) in
    do* update (set_mounts l);
    restore_file_handles_from_shared_space find.

(** [get_instance] calls [load_mounts], and through [find_mount_from_path]
    itself, but not again: [mp_initialized] is set before the call. *)
Definition instance_with (find : list ascii -> M (option nat)) : M (list mount_point_data) :=
  let* p := get in
  do* (if mp_initialized p then pret tt
       else do* update (set_mp_initialized true); load_mounts find);
  let* p := get in pret (mounts p).

Definition find_with (instance : M (list mount_point_data)) (path : list ascii) : M (option nat) :=
  let* l := instance in pret (find_loop l 0 path).

Definition get_instance : M (list mount_point_data) :=
  instance_with (find_with (instance_with (fun _ => plift Undef))).

Definition find_mount_from_path (path : list ascii) : M (option nat) := find_with get_instance path.

Definition load_mounts_void : M unit := do* get_instance; load_mounts find_mount_from_path.

Definition get_all_mounts : M (list mount_point_data) := get_instance.

Definition find_mount_and_strip_path (path : option (list ascii)) : M (option nat * option (list ascii)) :=
  let* l := get_instance in plift (find_and_strip l path).

(** The pointer is to data in the table; here its value. *)
Definition find_file_handle (fd : Z) : M (option file_handle_data) :=
  if fd >=? MAX_FILES then pret None
  else
    do* load_mounts_void;
    let* p := get in plift (lookup_file_handle fd (fht p)).

(** ** Saving the handles *)

Fixpoint save_mount_points (mpd : list mount_point_data) (ptr : space_pointer) (off : Z) : M Z :=
  match mpd with
  | [] => pret off
  | m :: mpd =>
      let mp_path_len := Z.of_nat (length (mp_mount_path m)) in
      let mp_data := le_bytes 8 (mp_index m) ++ le_bytes 8 (mp_path_len + 1) in
      let* n := copy_with_offset ptr mp_data off in
      let off := off + n in
      let* n := copy_with_offset ptr (mp_mount_path m) off in
      let off := off + n in
      do* copy_with_offset ptr [nul] off;
      save_mount_points mpd ptr (off + 1)
  end.

(** The data of the handle at a descriptor, through the pointer in the table. *)
Definition handle_of (st : file_handle_table) (fd : Z) : outcome file_handle_data :=
  let! p := arr_get (file_handles st) fd in
  let! l := deref p in
  let! o := deref (heap st !! l) in
  Ret (f_data o).

(** [n] entries of the array of descriptors, from position [i]. *)
Fixpoint save_files (n : nat) (i : Z) (ptr : space_pointer) (off : Z) : M Z :=
  match n with
  | O => pret off
  | S n =>
      let* p := get in
      let* fd := plift (arr_get (used_file_descriptors (fht p)) i) in
      let* fhd := plift (handle_of (fht p) fd) in
      let* mp := plift (deref (mounts p !! mount fhd)) in
      do* (if negb (mp_save mp =? 0) then
             do* sys (pcall (call_save (mp_save mp) (file_handle fhd))); pret tt
           else pret tt);
      let f_data := le_bytes 8 (file_handle fhd) ++ le_bytes 8 fd ++ le_bytes 8 (mp_index mp) in
      let* k := copy_with_offset ptr f_data off in
      save_files n (i + 1) ptr (off + k)
  end.

Definition mount_point_file_size (mpd : list mount_point_data) : Z :=
  fold_left (fun size m => size + (16 + Z.of_nat (length (mp_mount_path m)))) mpd 8.

(** The writes to the shared file, from its start. *)
Definition write_image (ptr : space_pointer) (mpd : list mount_point_data) (file_count : Z) : M Z :=
  let* off := copy_with_offset ptr (le_bytes 8 (Z.of_nat (length mpd))) 0 in
  let* off := save_mount_points mpd ptr off in
  let* k := copy_with_offset ptr (le_bytes 8 file_count) off in
  let* p := get in
  save_files (Z.to_nat (used_file_descriptor_pos (fht p))) 0 ptr (off + k).

Definition save_file_handles_to_shared_space : M Z :=
  let* p := get in
  let file_count := u64 (used_file_descriptor_pos (fht p)) in
  if 0 <? file_count then
    let* mpd := get_all_mounts in
    let shared_space_size := i32 (mount_point_file_size mpd + 8 + file_count * 24) in
    let* shared_space_ptr := init_shared_space shared_space_size in
    match shared_space_ptr with
    | NullSpace => pret (-1)
    | _ =>
        do* write_image shared_space_ptr mpd file_count;
        do* release_shared_space;
        pret 0
    end
  else pret 0.
End Code.

(** The name of the shared file. *)
Abbreviation space_name w := (get_shared_space_file_name (getpid w)).

(** ** The image of the handles in the shared file *)

Definition encode_mount (m : mount_point_data) : list ascii :=
  le_bytes 8 (mp_index m) ++ le_bytes 8 (Z.of_nat (length (mp_mount_path m)) + 1) ++
  mp_mount_path m ++ [nul].

(** A record: the descriptor, the data, the index of the mount. *)
Definition encode_file (r : Z * file_handle_data * Z) : list ascii :=
  let '(fd, d, i) := r in le_bytes 8 (file_handle d) ++ le_bytes 8 fd ++ le_bytes 8 i.

Definition encode_mounts (mpd : list mount_point_data) : list ascii :=
  le_bytes 8 (Z.of_nat (length mpd)) ++ flat_map encode_mount mpd.

Definition encode_files (rs : list (Z * file_handle_data * Z)) : list ascii :=
  le_bytes 8 (Z.of_nat (length rs)) ++ flat_map encode_file rs.

Definition image (mpd : list mount_point_data) (rs : list (Z * file_handle_data * Z)) : list ascii :=
  encode_mounts mpd ++ encode_files rs.

(** Entry [i] of the array of descriptors is the record [r]. *)
Definition record_at (p : process) (i : Z) (r : Z * file_handle_data * Z) : Prop :=
  let '(fd, d, idx) := r in
  arr_get (used_file_descriptors (fht p)) i = Ret fd /\ handle_of (fht p) fd = Ret d /\
  exists m, mounts p !! mount d = Some m /\ mp_index m = idx.

Lemma length_encode_mount m : length (encode_mount m) = (16 + length (mp_mount_path m) + 1)%nat.
Proof. unfold encode_mount. rewrite !length_app, !length_le_bytes. simpl. lia. Qed.
Lemma length_encode_file r : length (encode_file r) = 24%nat.
Proof. destruct r as [[fd d] i]. unfold encode_file. rewrite !length_app, !length_le_bytes. done. Qed.
Lemma length_encode_files rs : length (encode_files rs) = (8 + 24 * length rs)%nat.
Proof.
  unfold encode_files. rewrite length_app, length_le_bytes. f_equal.
  induction rs as [|r rs IH]; [done|]. cbn [flat_map]. rewrite length_app, length_encode_file, IH. simpl. lia.
Qed.

(** The size that is computed leaves the NUL of every path out. *)
Lemma mount_point_file_size_short mpd :
  mount_point_file_size mpd + Z.of_nat (length mpd) = Z.of_nat (length (encode_mounts mpd)).
Proof.
  unfold mount_point_file_size, encode_mounts. rewrite length_app, length_le_bytes.
  rewrite Nat2Z.inj_add. change (Z.of_nat 8) with 8. generalize 8.
  induction mpd as [|m mpd IH]; intros k; cbn [fold_left flat_map length]; [simpl; lia|].
  specialize (IH (k + (16 + Z.of_nat (length (mp_mount_path m))))).
  rewrite length_app, length_encode_mount. lia.
Qed.

Section Saving.
Context {W : Type} `{FileLaws W}.
Implicit Types (p : process) (w : W) (m : mapping) (s bs : list ascii).

(** The mapping at [a] starts with [s] and has room for [n] bytes more. *)
Definition filled (w : W) (a : Z) (f : list ascii) (size : nat) (s : list ascii) (n : nat) : Prop :=
  exists rest, mapped w a = Some (Mapping f size (s ++ rest)) /\ length rest = n.

Lemma copy_filled p w a f size s n bs :
  filled w a f size s n -> (length bs <= n)%nat ->
  exists w', copy_with_offset (Mapped a) bs (Z.of_nat (length s)) (p, w)
             = Ret (Z.of_nat (length bs), (p, w')) /\
    filled w' a f size (s ++ bs) (n - length bs) /\ getpid w' = getpid w.
Proof.
  intros (rest & Hm & Hn) Hl.
  destruct (store_bytes a _ (Z.of_nat (length s)) bs w Hm) as (w' & Es & Hm' & Hp);
    [lia|rewrite Nat2Z.id; cbn; rewrite length_app; lia|].
  exists w'. split; [|split; [|done]].
  - unfold copy_with_offset, pbind, plift, mapped_at, world. cbn [snd]. by rewrite Es.
  - exists (drop (length bs) rest). rewrite Hm'. cbn [m_file m_size m_bytes]. split; [|rewrite length_drop; lia].
    rewrite Nat2Z.id. unfold splice. rewrite take_app_length, drop_app_ge by lia.
    replace (length s + length bs - length s)%nat with (length bs) by lia. by rewrite <- app_assoc.
Qed.

Lemma copy_sigbus p w a f size s n bs :
  filled w a f size s n -> (n < length bs)%nat ->
  copy_with_offset (Mapped a) bs (Z.of_nat (length s)) (p, w) = Undef.
Proof.
  intros (rest & Hm & Hn) Hl. unfold copy_with_offset, pbind, plift, mapped_at, world. cbn [snd].
  erewrite store_sigbus; [done|exact Hm|lia|]. cbn. rewrite length_app. lia.
Qed.

(** A copy in sequence: it either appends the bytes or reaches the end of the
    last page. *)
Lemma copy_bind {A} p w a f size s n bs (k : Z -> prog (process * W) A) :
  filled w a f size s n ->
  exists w',
    (pbind (copy_with_offset (Mapped a) bs (Z.of_nat (length s))) k) (p, w) =
      (if (length bs <=? n)%nat then k (Z.of_nat (length bs)) (p, w') else Undef) /\
    ((length bs <= n)%nat -> filled w' a f size (s ++ bs) (n - length bs) /\ getpid w' = getpid w).
Proof.
  intros Hf. destruct (Nat.leb_spec (length bs) n).
  - destruct (copy_filled p w a f size s n bs Hf) as (w' & E & Hf' & Hp); [lia|].
    exists w'. split; [by apply pbind_ret|done].
  - exists w. split; [|lia]. unfold pbind. by rewrite (copy_sigbus p w a f size s n bs).
Qed.

Lemma off_app s bs : Z.of_nat (length s) + Z.of_nat (length bs) = Z.of_nat (length (s ++ bs)).
Proof. rewrite length_app. lia. Qed.

(** The result of a program that appends [bs] and ends at the offset behind. *)
Definition appended (r : outcome (Z * (process * W))) p w a f size s n bs : Prop :=
  if (length bs <=? n)%nat then
    exists w', r = Ret (Z.of_nat (length (s ++ bs)), (p, w')) /\
      filled w' a f size (s ++ bs) (n - length bs) /\ getpid w' = getpid w
  else r = Undef.

Lemma appended_nil p w a f size s n :
  filled w a f size s n -> appended (Ret (Z.of_nat (length s), (p, w))) p w a f size s n [].
Proof.
  intros Hf. unfold appended. cbn [length Nat.leb]. exists w. rewrite app_nil_r, Nat.sub_0_r. done.
Qed.

(** Appending [bs] first. *)
Lemma appended_after r p w w1 a f size s n bs cs :
  ((length bs <= n)%nat -> getpid w1 = getpid w /\ appended r p w1 a f size (s ++ bs) (n - length bs) cs) ->
  appended (if (length bs <=? n)%nat then r else Undef) p w a f size s n (bs ++ cs).
Proof.
  intros Hr. unfold appended in *. rewrite length_app.
  destruct (Nat.leb_spec (length bs) n).
  - destruct Hr as [Hp Hr]; [done|]. rewrite <- app_assoc in Hr.
    destruct (Nat.leb_spec (length bs + length cs) n);
      (destruct (Nat.leb_spec (length cs) (n - length bs)); [|try lia]); try lia; [|done].
    destruct Hr as (w' & -> & Hf & Hp'). exists w'. split; [done|]. split; [|congruence].
    by rewrite Nat.sub_add_distr.
  - destruct (Nat.leb_spec (length bs + length cs) n); [lia|done].
Qed.

Lemma appended_pid r p w0 w a f size s n bs :
  getpid w0 = getpid w -> appended r p w0 a f size s n bs -> appended r p w a f size s n bs.
Proof.
  unfold appended. intros Hp. destruct (_ <=? _)%nat; [|done].
  intros (w' & ? & ? & ?). exists w'. repeat split; auto. congruence.
Qed.

Lemma copy_then p w a f size s n bs cs (k : Z -> prog (process * W) Z) :
  filled w a f size s n ->
  (forall w1, filled w1 a f size (s ++ bs) (n - length bs) -> getpid w1 = getpid w ->
     appended (k (Z.of_nat (length bs)) (p, w1)) p w1 a f size (s ++ bs) (n - length bs) cs) ->
  appended (pbind (copy_with_offset (Mapped a) bs (Z.of_nat (length s))) k (p, w)) p w a f size s n (bs ++ cs).
Proof.
  intros Hf Hk. destruct (copy_bind p w a f size s n bs k Hf) as (w1 & -> & H').
  apply (appended_after _ _ _ w1). intros Hl. destruct (H' Hl). auto.
Qed.

Lemma appended_bind (e : prog (process * W) Z) (k : Z -> prog (process * W) Z) p w a f size s n bs cs :
  appended (e (p, w)) p w a f size s n bs ->
  (forall w1, filled w1 a f size (s ++ bs) (n - length bs) -> getpid w1 = getpid w ->
     appended (k (Z.of_nat (length (s ++ bs))) (p, w1)) p w1 a f size (s ++ bs) (n - length bs) cs) ->
  appended (pbind e k (p, w)) p w a f size s n (bs ++ cs).
Proof.
  intros He Hk. unfold appended in He. unfold pbind. destruct (Nat.leb_spec (length bs) n) as [Hl|Hl].
  - destruct He as (w1 & -> & Hf & Hp). specialize (Hk w1 Hf Hp).
    pose proof (appended_after _ p w w1 a f size s n bs cs (fun _ => conj Hp Hk)) as Ha.
    by destruct (Nat.leb_spec (length bs) n); [|lia].
  - rewrite He. unfold appended. rewrite length_app. destruct (Nat.leb_spec (length bs + length cs) n); [lia|done].
Qed.

Lemma save_mount_points_spec mpd p w a f size s n :
  filled w a f size s n ->
  appended (save_mount_points mpd (Mapped a) (Z.of_nat (length s)) (p, w)) p w a f size s n
    (flat_map encode_mount mpd).
Proof.
  revert w s n. induction mpd as [|m mpd IH]; intros w s n Hf; cbn [save_mount_points flat_map].
  { by apply appended_nil. }
  unfold encode_mount at 1. rewrite (app_assoc (le_bytes 8 _)), <- app_assoc, <- (app_assoc (mp_mount_path m)).
  apply copy_then; [done|]. intros w1 Hf1 Hp1. rewrite off_app.
  apply copy_then; [done|]. intros w2 Hf2 Hp2. rewrite off_app.
  apply copy_then; [done|]. intros w3 Hf3 Hp3.
  change 1 with (Z.of_nat (length [nul])). rewrite off_app. by apply IH.
Qed.

Lemma save_hook p w a f size s n mp d :
  filled w a f size s n ->
  exists w', (if negb (mp_save mp =? 0) then
                do* sys (pcall (call_save (mp_save mp) (file_handle d))); pret tt
              else pret tt) (p, w) = Ret (tt, (p, w')) /\
    filled w' a f size s n /\ getpid w' = getpid w.
Proof.
  intros (rest & Hm & Hn). destruct (negb _); [|by exists w; repeat split; exists rest].
  exists (call_save (mp_save mp) (file_handle d) w).2.
  unfold sys, pzoom, pbind, pcall, pret. cbn [fst snd].
  pose proof (save_mapped (mp_save mp) (file_handle d) w a) as Hsm.
  pose proof (save_pid (mp_save mp) (file_handle d) w) as Hsp.
  destruct (call_save _ _ w) as [r w']. cbn [fst snd] in *. split; [done|]. split; [|done].
  exists rest. by rewrite Hsm.
Qed.

Lemma save_files_spec rs i p w a f size s n :
  filled w a f size s n -> (forall j r, rs !! j = Some r -> record_at p (i + Z.of_nat j) r) ->
  appended (save_files (length rs) i (Mapped a) (Z.of_nat (length s)) (p, w)) p w a f size s n
    (flat_map encode_file rs).
Proof.
  revert i w s n. induction rs as [|r rs IH]; intros i w s n Hf Hr; cbn [save_files flat_map length].
  { by apply appended_nil. }
  pose proof (Hr 0%nat r eq_refl) as H0r. destruct r as [[fd d] idx]. rewrite Z.add_0_r in H0r.
  destruct H0r as (Hfd & Hd & mp & Hmp & <-).
  unfold pbind at 1, get. cbn [fst]. rewrite Hfd. unfold plift at 1, pbind at 1. rewrite Hd.
  unfold plift at 1, pbind at 1. rewrite Hmp. unfold deref, plift at 1, pbind at 1.
  destruct (save_hook p w a f size s n mp d Hf) as (w0 & E0 & Hf0 & Hp0). rewrite (pbind_ret _ _ _ _ _ E0).
  apply (appended_pid _ _ w0); [done|]. apply copy_then; [done|]. intros w1 Hf1 Hp1.
  rewrite off_app. apply IH; [done|].
  intros j r Hj. replace (i + 1 + Z.of_nat j) with (i + Z.of_nat (S j)) by lia. by apply Hr.
Qed.

Lemma get_instance_loaded lines buffer p w :
  mp_initialized p = true -> get_instance lines buffer (p, w) = Ret (mounts p, (p, w)).
Proof. intros Hi. unfold get_instance, instance_with, pbind, get. cbn [fst]. by rewrite Hi. Qed.

Lemma init_shared_space_spec p w size :
  ss_fd (space p) = -1 -> 0 <= size ->
  match init_shared_space size (p, w) with
  | Ret (r, (p', w')) => exists sp, p' = set_space sp p /\
      (r = NullSpace \/
       exists a fd c, r = Mapped a /\ 0 <= fd /\ sp = SS fd size (Mapped a) /\ length c = Z.to_nat size /\
         mapped w' a = Some (Mapping (space_name w) (length c) (page_pad c)) /\ getpid w' = getpid w)
  | Undef => True
  | Exit => False
  end.
Proof.
  intros Hfd Hsz. unfold init_shared_space. unfold pbind at 1, get. cbn [fst]. rewrite Hfd. cbn [negb Z.eqb Pos.eqb].
  unfold pbind at 1, pret at 1. unfold pbind at 1, world at 1. cbn [snd].
  set (name := space_name w).
  destruct (open_returns name (Z.lor O_RDWR O_CREAT) (Z.lor S_IRUSR S_IWUSR) w) as (fd & w1 & E1 & Hfd1).
  unfold sys at 1, pzoom. unfold pbind at 1. cbn [fst snd]. rewrite E1.
  unfold pbind at 1, update. cbn [fst snd].
  destruct Hfd1 as [Hpos| ->]; [|eexists; split; [reflexivity|by left]].
  destruct (Z.eqb_spec fd (-1)); [lia|].
  destruct (open_name _ _ _ _ _ _ E1 Hpos) as (Hn & _ & _ & Hp1).
  unfold pbind at 1. cbn [fst snd]. unfold pbind at 1, sys at 1, pzoom. cbn [fst snd].
  destruct (ftruncate_returns fd size w1) as (r & w2 & E2 & Hr). rewrite E2.
  destruct Hr as [-> | ->]; [|eexists; split; [reflexivity|by left]]. cbn [Z.eqb].
  destruct (ftruncate_size _ _ _ _ _ E2 Hn Hsz) as (Hn2 & (c & Hc & Hlc) & Hp2).
  unfold map_space, sys, pzoom, pbind, update, pret. cbn [fst snd]. pose proof (mmap_no_exit size fd w2) as Hx.
  destruct (real_mmap size fd w2) as [[[a|] w3]| |] eqn:E3; [| |done|done];
    (eexists; split; [reflexivity|]); [right|by left].
  destruct (mmap_bytes _ _ _ _ _ _ _ E3 Hn2 Hc) as (Hm & Hp3); [lia|].
  exists a, fd, c. repeat (split; [done|]). cbn [snd]. congruence.
Qed.

Lemma release_mapped p w a fd size f n bytes :
  space p = SS fd size (Mapped a) -> 0 <= fd -> mapped w a = Some (Mapping f n bytes) ->
  exists w', release_shared_space (p, w) = Ret (tt, (set_space (SS (-1) size (Mapped a)) p, w')) /\
    file w' f = Some (take n bytes) /\ getpid w' = getpid w.
Proof.
  intros Hsp Hfd Hm. unfold release_shared_space. unfold pbind at 1, get. cbn [fst]. rewrite Hsp.
  cbn [ss_fd ss_size ss_ptr]. destruct (Z.geb_spec fd 0); [|lia].
  unfold sys, pzoom, unmap, pbind, pcall, update, pret. cbn [fst snd].
  destruct (munmap_file a size w _ Hm) as [Hf Hp]. destruct (munmap a size w) as [r1 w1]. cbn [fst snd] in *.
  destruct (close_file fd w1) as (r2 & w2 & E & Hf2 & Hp2). rewrite E.
  exists w2. rewrite Hf2. repeat split; [exact Hf|congruence].
Qed.

(** The part of [save_file_handles_to_shared_space] that writes the image. *)
Lemma save_writes mpd rs p w a f size n :
  filled w a f size [] n -> (forall j r, rs !! j = Some r -> record_at p (Z.of_nat j) r) ->
  used_file_descriptor_pos (fht p) = Z.of_nat (length rs) -> Z.of_nat (length rs) < 2 ^ 64 ->
  appended (write_image (Mapped a) mpd (u64 (used_file_descriptor_pos (fht p))) (p, w))
    p w a f size [] n (image mpd rs).
Proof.
  intros Hf Hr Hpos Hlt. unfold write_image, image, encode_mounts, encode_files. rewrite <- app_assoc.
  change 0 with (Z.of_nat (length (@nil ascii))) at 1. apply copy_then; [done|]. intros w1 Hf1 Hp1.
  apply appended_bind; [by apply save_mount_points_spec|]. intros w2 Hf2 Hp2.
  rewrite Hpos, wrap_small by lia. apply copy_then; [done|]. intros w3 Hf3 Hp3.
  unfold pbind at 1, get. cbn [fst]. rewrite Hpos, off_app, Nat2Z.id. by apply save_files_spec.
Qed.

(** The size of the shared file. *)
Definition saved_size (mpd : list mount_point_data) (rs : list (Z * file_handle_data * Z)) : nat :=
  (length (image mpd rs) - length mpd)%nat.

Lemma saved_size_eq mpd rs :
  mount_point_file_size mpd + 8 + Z.of_nat (length rs) * 24 = Z.of_nat (saved_size mpd rs) /\
  (length mpd <= length (image mpd rs))%nat /\ (24 * length rs <= saved_size mpd rs)%nat.
Proof.
  unfold saved_size, image. rewrite length_app, length_encode_files.
  pose proof (mount_point_file_size_short mpd).
  assert (length mpd <= length (encode_mounts mpd))%nat; [|lia].
  unfold encode_mounts. rewrite length_app, length_le_bytes.
  assert (length mpd <= length (flat_map encode_mount mpd))%nat; [|lia].
  clear. induction mpd as [|m mpd IH]; [done|]. cbn [flat_map length].
  rewrite length_app, length_encode_mount. lia.
Qed.

(** What a run of [save_file_handles_to_shared_space] with open handles does:
    it fails to set the file up, or calls a null [mmap], or writes the image, or dies
    of SIGBUS when the image is longer than the pages of the file. *)
Definition save_result (r : outcome (Z * (process * W))) p w rs : Prop :=
  r = Undef \/
  (exists sp w', r = Ret (-1, (set_space sp p, w'))) \/
  if (length (image (mounts p) rs) <=? page_up (saved_size (mounts p) rs))%nat then
    exists sp w', r = Ret (0, (set_space sp p, w')) /\ ss_fd sp = -1 /\
      file w' (space_name w) = Some (take (saved_size (mounts p) rs) (image (mounts p) rs))
  else r = Undef.

Lemma save_spec lines buffer p w rs :
  mp_initialized p = true -> ss_fd (space p) = -1 ->
  (forall j r, rs !! j = Some r -> record_at p (Z.of_nat j) r) ->
  used_file_descriptor_pos (fht p) = Z.of_nat (length rs) -> (0 < length rs)%nat ->
  Z.of_nat (saved_size (mounts p) rs) < 2 ^ 31 ->
  save_result (save_file_handles_to_shared_space lines buffer (p, w)) p w rs.
Proof.
  intros Hi Hfd Hrs Hpos Hne Hsz. destruct (saved_size_eq (mounts p) rs) as (Hs & Hle & Hlt).
  unfold save_file_handles_to_shared_space. unfold pbind at 1, get at 1. cbn [fst].
  rewrite Hpos, wrap_small by lia. destruct (Z.ltb_spec 0 (Z.of_nat (length rs))); [|lia].
  unfold get_all_mounts. rewrite (pbind_ret _ _ _ _ _ (get_instance_loaded _ _ _ _ Hi)).
  rewrite Hs, swrap_small by lia.
  pose proof (init_shared_space_spec p w (Z.of_nat (saved_size (mounts p) rs)) Hfd ltac:(lia)) as Hr.
  destruct (init_shared_space _ (p, w)) as [[r [p' w1]]| |] eqn:E; [|done|].
  2: { left. unfold pbind. by rewrite E. }
  destruct Hr as (sp & -> & Hr). right. rewrite (pbind_ret _ _ _ _ _ E). destruct Hr as [-> |(a & fd & c & -> & Hfd0 & -> & Hc & Hm & Hp)].
  { left. eexists _, _. reflexivity. }
  right. rewrite Nat2Z.id in Hc.
  assert (filled w1 a (space_name w) (saved_size (mounts p) rs) [] (page_up (saved_size (mounts p) rs))) as Hf.
  { exists (page_pad c). rewrite Hc in Hm. split; [done|]. by rewrite length_page_pad, Hc. }
  set (p1 := set_space (SS fd (Z.of_nat (saved_size (mounts p) rs)) (Mapped a)) p) in *.
  pose proof (save_writes (mounts p) rs p1 w1 a _ _ _ Hf Hrs Hpos ltac:(lia)) as Ha.
  change (fht p1) with (fht p) in Ha. rewrite Hpos, wrap_small in Ha by lia.
  unfold appended in Ha. rewrite app_nil_l in Ha. destruct (Nat.leb_spec (length (image (mounts p) rs)) (page_up (saved_size (mounts p) rs))).
  - destruct Ha as (w2 & E2 & (rest & Hm2 & _) & Hp2). rewrite (pbind_ret _ _ _ _ _ E2).
    destruct (release_mapped p1 w2 a fd _ _ _ _ eq_refl Hfd0 Hm2) as (w3 & E3 & Hfile & Hp3).
    rewrite (pbind_ret _ _ _ _ _ E3). eexists _, w3. split; [reflexivity|]. split; [done|].
    rewrite Hfile, take_app_le; [done|]. unfold saved_size. lia.
  - unfold pbind. by rewrite Ha.
Qed.
End Saving.

(** ** Reading the image back *)

Lemma exists_repr st m fd :
  table_repr st m -> 0 <= fd < MAX_FILES ->
  file_handle_exists fd st = Ret (bool_decide (is_Some (m !! fd))).
Proof.
  intros Hr Hfd. pose proof Hr as [Hinv _]. unfold file_handle_exists. rewrite geb_false by lia.
  destruct (repr_slot _ _ fd Hr Hfd) as [[Hs ->]|(l & o & Hs & Ho & ->)];
    rewrite (arr_get_Some _ _ _ (proj1 Hfd) Hs); unfold mbind, outcome_bind; cbn [file_handle_use_count_internal].
  - by rewrite bool_decide_eq_false_2 by (by intros []).
  - unfold deref, mbind, outcome_bind. rewrite Ho. rewrite bool_decide_eq_true_2 by eauto.
    destruct (inv_live _ Hinv _ _ Hs) as (o' & Ho' & Hc). simplify_eq.
    pose proof (refs_pos _ _ _ Hs). destruct (Z.gtb_spec (use_count o) 0); [done|lia].
Qed.

Lemma insert_repr st m fd d :
  table_repr st m -> 0 <= fd < MAX_FILES -> m !! fd = None ->
  exists st', insert_file_handle fd d st = Ret (0, st') /\ table_repr st' (<[fd := d]> m).
Proof.
  intros Hr Hfd Hm. destruct (simulate_insert st m fd d Hr ltac:(lia)) as (st' & E & Hr').
  cbn [table_op_exec spec_op] in E, Hr'. rewrite geb_false, Hm in E, Hr' by lia. exists st'. split; [|done].
  unfold mbind, outcome_bind in E. destruct (insert_file_handle fd d st) as [[rv st1]| |]; try discriminate.
  by injection E as -> ->.
Qed.

Section Restoring.
Context {W : Type} `{FileLaws W}.
Implicit Types (p : process) (w : W) (s B : list ascii).

Abbreviation M := (prog (process * W)).

Lemma load_u64_at p w a f size s v rest :
  mapped w a = Some (Mapping f size (s ++ le_bytes 8 v ++ rest)) -> 0 <= v < 2 ^ 64 ->
  load_u64 (Mapped a) (Z.of_nat (length s)) (p, w) = Ret (v, (p, w)).
Proof.
  intros Hm Hv. unfold load_u64, load, pbind, plift, mapped_at, world, pret. cbn [snd].
  rewrite (load_bytes a _ (Z.of_nat (length s)) 8 w Hm); [|lia|].
  - cbn [m_bytes]. rewrite Nat2Z.id, drop_app_length.
    assert (take 8 (le_bytes 8 v ++ rest) = le_bytes 8 v) as ->
      by (rewrite <- (length_le_bytes 8 v) at 1; apply take_app_length).
    rewrite le_val_bytes. change (8 * Z.of_nat 8) with 64. by rewrite Z.mod_small.
  - cbn [m_bytes]. rewrite Nat2Z.id, !length_app, length_le_bytes. lia.
Qed.

(** The same, at an offset given as a number. *)
Lemma load_u64_off p w a f size s v rest off :
  mapped w a = Some (Mapping f size (s ++ le_bytes 8 v ++ rest)) -> 0 <= v < 2 ^ 64 ->
  off = Z.of_nat (length s) -> load_u64 (Mapped a) off (p, w) = Ret (v, (p, w)).
Proof. intros Hm Hv ->. by eapply load_u64_at. Qed.

(** The offsets are those of the mount paths in the bytes [B]. *)
Definition paths_at B (offs : list Z) (mpd : list mount_point_data) : Prop :=
  Forall2 (fun o m => 0 <= o /\ exists r, drop (Z.to_nat o) B = mp_mount_path m ++ nul :: r) offs mpd.

Lemma restore_mount_points_spec mpd p w a f size B s rest :
  mapped w a = Some (Mapping f size B) -> B = s ++ flat_map encode_mount mpd ++ rest ->
  Z.of_nat (length B) < 2 ^ 64 ->
  exists offs, restore_mount_points (length mpd) (Mapped a) (Z.of_nat (length s)) (p, w) =
    Ret ((offs, Z.of_nat (length (s ++ flat_map encode_mount mpd))), (p, w)) /\ paths_at B offs mpd.
Proof.
  intros Hm. revert s. induction mpd as [|m mpd IH]; intros s HB Hlen; cbn [restore_mount_points flat_map length].
  { exists []. rewrite app_nil_r. split; [done|constructor]. }
  cbn [flat_map] in HB. rewrite <- app_assoc in HB.
  assert (Z.of_nat (length (mp_mount_path m)) + 1 < 2 ^ 64) as Hl.
  { rewrite HB, !length_app, length_encode_mount in Hlen. lia. }
  assert (B = (s ++ le_bytes 8 (mp_index m)) ++ le_bytes 8 (Z.of_nat (length (mp_mount_path m)) + 1) ++
              (mp_mount_path m ++ [nul]) ++ flat_map encode_mount mpd ++ rest) as HB1.
  { rewrite HB. unfold encode_mount. by rewrite <- !app_assoc. }
  assert (load_u64 (Mapped a) (Z.of_nat (length s) + 8) (p, w)
          = Ret (Z.of_nat (length (mp_mount_path m)) + 1, (p, w))) as E.
  { rewrite HB1 in Hm. eapply load_u64_off; [exact Hm|lia|]. rewrite length_app, length_le_bytes. lia. }
  rewrite (pbind_ret _ _ _ _ _ E).
  destruct (IH (s ++ encode_mount m)) as (offs & E2 & Hp); [by rewrite <- app_assoc|done|].
  replace (Z.of_nat (length s) + 16 + (Z.of_nat (length (mp_mount_path m)) + 1))
    with (Z.of_nat (length (s ++ encode_mount m))) by (rewrite length_app, length_encode_mount; lia).
  rewrite (pbind_ret _ _ _ _ _ E2). eexists. split; [by rewrite app_assoc|]. constructor; [|done].
  split; [lia|]. exists (flat_map encode_mount mpd ++ rest). rewrite HB1.
  rewrite app_assoc, drop_app_ge by (rewrite !length_app, !length_le_bytes; lia).
  rewrite !length_app, !length_le_bytes. replace (_ - _)%nat with 0%nat by lia.
  by rewrite drop_0, <- app_assoc.
Qed.

(** [find] looks up in the loaded array. *)
Definition finds (find : list ascii -> M (option nat)) : Prop :=
  forall p w path, mp_initialized p = true ->
    find path (p, w) = Ret (find_loop (mounts p) 0 path, (p, w)).

Lemma find_with_finds lines buffer find : finds (find_with (instance_with lines buffer find)).
Proof.
  intros p w path Hi. unfold find_with, instance_with, pbind, get. cbn [fst]. by rewrite Hi.
Qed.

Definition add_handle (fd : Z) (d : file_handle_data) (t : gmap Z file_handle_data) : gmap Z file_handle_data :=
  match t !! fd with Some _ => t | None => <[fd := d]> t end.

Lemma restore_hook p w a mp fh :
  exists w', (if negb (mp_restore mp =? 0) then
                do* sys (pcall (call_restore (mp_restore mp) fh)); pret tt
              else pret tt) (p, w) = Ret (tt, (p, w')) /\ mapped w' a = mapped w a.
Proof.
  destruct (negb _); [|by exists w].
  exists (call_restore (mp_restore mp) fh w).2. unfold sys, pzoom, pbind, pcall, pret. cbn [fst snd].
  pose proof (restore_mapped (mp_restore mp) fh w a). by destruct (call_restore _ _ w).
Qed.

(** No mount point is a prefix of a later one. *)
Definition unambiguous (mpd : list mount_point_data) : Prop :=
  forall i m, mpd !! i = Some m -> find_loop mpd 0 (mp_mount_path m) = Some i.

(** A record that [restore_file] can read. *)
Definition record_ok (mpd : list mount_point_data) (r : Z * file_handle_data * Z) : Prop :=
  let '(fd, d, idx) := r in
  0 <= fd < MAX_FILES /\ 0 <= file_handle d < 2 ^ 64 /\ idx = Z.of_nat (mount d) /\
  (mount d < length mpd)%nat.

Lemma restore_file_spec find p w a f size B s rest mpd offs fd d idx t :
  finds find -> mapped w a = Some (Mapping f size B) -> B = s ++ encode_file (fd, d, idx) ++ rest ->
  record_ok mpd (fd, d, idx) -> paths_at B offs mpd -> Z.of_nat (length mpd) < 2 ^ 64 ->
  Forall (fun m => nonul (mp_mount_path m)) mpd ->
  mp_initialized p = true -> map mp_mount_path (mounts p) = map mp_mount_path mpd ->
  unambiguous (mounts p) -> table_repr (fht p) t ->
  exists st w',
    restore_file find (Mapped a) offs (Z.of_nat (length mpd)) (Z.of_nat (length s)) (p, w) =
      Ret (tt, (set_fht st p, w')) /\
    table_repr st (add_handle fd d t) /\ mapped w' a = mapped w a.
Proof.
  intros Hfind Hm HB (Hfd & Hfh & -> & Hmt) Hoffs Hlen Hnn Hi Hpaths Hun Hr.
  unfold encode_file in HB. rewrite <- !app_assoc in HB. unfold restore_file.
  assert (mapped w a = Some (Mapping f size (s ++ le_bytes 8 (file_handle d) ++ le_bytes 8 fd ++
            le_bytes 8 (Z.of_nat (mount d)) ++ rest))) as Hm1 by (by rewrite <- HB).
  rewrite (pbind_ret _ _ _ _ _ (load_u64_at p w a f size s _ _ Hm1 Hfh)).
  pose proof Hm1 as Hm2. rewrite (app_assoc s) in Hm2.
  erewrite (pbind_ret _ _ (p, w)); [|eapply load_u64_off; [exact Hm2|unfold MAX_FILES in Hfd; lia|rewrite length_app, length_le_bytes; lia]].
  pose proof Hm2 as Hm3. rewrite (app_assoc (s ++ _)) in Hm3.
  erewrite (pbind_ret _ _ (p, w)); [|eapply load_u64_off; [exact Hm3|lia|rewrite !length_app, !length_le_bytes; lia]].
  destruct (Z.ltb_spec (Z.of_nat (mount d)) (Z.of_nat (length mpd))); [|lia].
  destruct (lookup_lt_is_Some_2 mpd (mount d) Hmt) as [m Hmd].
  destruct (Forall2_lookup_r _ _ _ _ _ Hoffs Hmd) as (o & Ho & Ho0 & r & Hdrop).
  rewrite Nat2Z.id, Ho. unfold deref, plift at 1, pbind at 1. unfold mapped_at, plift at 1, pbind at 1.
  unfold pbind at 1, world at 1. cbn [snd]. rewrite (string_bytes a _ o w Hm Ho0). cbn [m_bytes]. rewrite Hdrop.
  rewrite Forall_lookup in Hnn. rewrite cstring_app_nul by (by eapply Hnn). unfold plift at 1, pbind at 1.
  rewrite (pbind_ret _ _ _ _ _ (Hfind p w (mp_mount_path m) Hi)).
  assert (exists m', mounts p !! mount d = Some m' /\ mp_mount_path m' = mp_mount_path m) as (m' & Hm' & Hpm).
  { apply (f_equal (fun l => l !! mount d)) in Hpaths. rewrite !list_lookup_fmap, Hmd in Hpaths.
    destruct (mounts p !! mount d) as [m'|]; [|done]. injection Hpaths as E. eauto. }
  rewrite <- Hpm, (Hun _ _ Hm'). unfold pbind at 1, get. cbn [fst].
  rewrite swrap_small by (unfold MAX_FILES in *; lia).
  rewrite (exists_repr _ _ _ Hr Hfd). unfold plift at 1, pbind at 1. unfold add_handle.
  case_bool_decide as Hex; cbn [negb].
  { destruct Hex as [d' ->]. exists (fht p), w. by destruct p. }
  apply eq_None_not_Some in Hex. rewrite Hex, Hm'. unfold deref, plift at 1, pbind at 1.
  destruct (restore_hook p w a m' (file_handle d)) as (w1 & E1 & Hmw). rewrite (pbind_ret _ _ _ _ _ E1).
  destruct (insert_repr (fht p) t fd d Hr Hfd Hex) as (st & E2 & Hr2).
  exists st, w1. split; [|done]. unfold table, pzoom, pbind. cbn [fst snd].
  replace (FHD (file_handle d) (mount d)) with d by (by destruct d). by rewrite E2.
Qed.

Lemma restore_files_spec find rs p w a f size B s rest mpd offs t :
  finds find -> mapped w a = Some (Mapping f size B) -> B = s ++ flat_map encode_file rs ++ rest ->
  Forall (record_ok mpd) rs -> paths_at B offs mpd -> Z.of_nat (length mpd) < 2 ^ 64 ->
  Forall (fun m => nonul (mp_mount_path m)) mpd ->
  mp_initialized p = true -> map mp_mount_path (mounts p) = map mp_mount_path mpd ->
  unambiguous (mounts p) -> table_repr (fht p) t ->
  exists st w',
    restore_files (length rs) find (Mapped a) offs (Z.of_nat (length mpd)) (Z.of_nat (length s)) (p, w) =
      Ret (tt, (set_fht st p, w')) /\
    table_repr st (fold_left (fun t '(fd, d, _) => add_handle fd d t) rs t) /\ mapped w' a = mapped w a.
Proof.
  intros Hfind. revert p w s t. induction rs as [|[[fd d] idx] rs IH];
    intros p w s t Hm HB Hok Hoffs Hlen Hnn Hi Hpaths Hun Hr; cbn [restore_files length fold_left].
  { exists (fht p), w. by destruct p. }
  cbn [flat_map] in HB. rewrite <- app_assoc in HB. apply Forall_cons in Hok as [Hr1 Hok].
  destruct (restore_file_spec find p w a f size B s (flat_map encode_file rs ++ rest) mpd offs fd d idx t)
    as (st & w1 & E & Hr' & Hmw); try done.
  rewrite (pbind_ret _ _ _ _ _ E).
  replace (Z.of_nat (length s) + 24) with (Z.of_nat (length (s ++ encode_file (fd, d, idx))))
    by (rewrite length_app, length_encode_file; lia).
  destruct (IH (set_fht st p) w1 (s ++ encode_file (fd, d, idx)) (add_handle fd d t)) as (st2 & w2 & E2 & Hr2 & Hmw2);
    try done; [by rewrite Hmw|by rewrite <- app_assoc|].
  exists st2, w2. split; [exact E2|]. split; [exact Hr2|congruence].
Qed.
End Restoring.

Section HandOver.
Context {W : Type} `{FileLaws W}.
Implicit Types (p : process) (w : W) (s B c : list ascii).

Lemma get_file_size_spec fd w name c :
  fd_name w fd = Some name -> file w name = Some c -> Z.of_nat (length c) < 2 ^ 64 ->
  exists n w', get_file_size fd w = Ret (n, w') /\ (n = 0 \/ n = Z.of_nat (length c)) /\
    fd_name w' fd = Some name /\ file w' name = Some c.
Proof.
  intros Hn Hc Hl. unfold get_file_size. unfold pbind at 1, pcall.
  destruct (lock_files fd F_RDLCK w) as (Hn1 & Hf1). destruct (setlk fd F_RDLCK w) as [r w1].
  cbn [fst snd] in *. rewrite <- Hn1 in Hn. rewrite <- Hf1 in Hc.
  destruct (Z.eqb_spec r (-1)); [exists 0, w1; auto|].
  destruct (seek_file fd 0 SEEK_SET w1 name c Hn Hc) as (r2 & w2 & E2 & _ & Hn2 & Hf2).
  rewrite (pbind_ret _ _ _ _ _ E2). rewrite <- Hn2 in Hn. rewrite <- Hf2 in Hc.
  destruct (seek_file fd 0 SEEK_END w2 name c Hn Hc) as (r3 & w3 & E3 & Hr3 & Hn3 & Hf3).
  rewrite (pbind_ret _ _ _ _ _ E3). rewrite <- Hn3 in Hn. rewrite <- Hf3 in Hc.
  destruct (seek_file fd r2 SEEK_SET w3 name c Hn Hc) as (r4 & w4 & E4 & _ & Hn4 & Hf4).
  rewrite (pbind_ret _ _ _ _ _ E4). rewrite <- Hn4 in Hn. rewrite <- Hf4 in Hc.
  destruct (lock_files fd F_UNLCK w4) as (Hn5 & Hf5). unfold pbind, pret.
  destruct (setlk fd F_UNLCK w4) as [r5 w5]. cbn [fst snd] in *. exists (Z.of_nat (length c)), w5.
  rewrite Hr3 by done. rewrite wrap_small by lia. rewrite Hn5, Hf5. auto.
Qed.

(** Opening, locking and mapping the file may each be refused; a mapping has the file. *)
Lemma get_shared_space_spec p w c :
  ss_fd (space p) = -1 -> file w (space_name w) = Some c -> Z.of_nat (length c) < 2 ^ 64 ->
  match get_shared_space (p, w) with
  | Ret (r, (p', w')) =>
      fht p' = fht p /\
      match r with
      | Mapped a => exists fd, p' = set_space (SS fd (Z.of_nat (length c)) (Mapped a)) p /\ 0 <= fd /\
          mapped w' a = Some (Mapping (space_name w) (length c) (page_pad c))
      | NullSpace => True
      | MapFailed => False
      end
  | Undef => True
  | Exit => False
  end.
Proof.
  intros Hfd Hc Hl. unfold get_shared_space. unfold pbind at 1, get. cbn [fst]. rewrite Hfd. cbn [Z.eqb Pos.eqb].
  unfold pbind at 1, world at 1. cbn [snd]. set (name := space_name w) in *.
  destruct (open_returns name O_RDWR 0 w) as (fd & w1 & E1 & Hpos).
  unfold pbind at 1, sys at 1, pzoom. cbn [fst snd]. rewrite E1. unfold pbind at 1, update. cbn [fst snd].
  destruct (Z.eqb_spec fd (-1)); [done|]. destruct Hpos as [Hpos|]; [|done].
  destruct (open_name _ _ _ _ _ _ E1 Hpos) as (Hn & _ & Hsame & Hp). specialize (Hsame c Hc eq_refl).
  destruct (get_file_size_spec fd w1 name c Hn Hsame) as (n1 & w2 & E2 & Hn1 & Hn2 & Hc2); [lia|].
  unfold pbind at 1, sys at 1, pzoom. cbn [fst snd]. rewrite E2.
  unfold map_space, sys, pzoom, pbind, update, pret. cbn [fst snd]. pose proof (mmap_no_exit n1 fd w2) as Hx.
  destruct (real_mmap n1 fd w2) as [[[a|] w3]| |] eqn:E3; [|done|done|done]. split; [done|].
  destruct Hn1 as [-> | ->]; [by destruct (mmap_empty fd w2 a w3)|].
  destruct (mmap_bytes _ _ _ _ _ _ _ E3 Hn2 Hc2 eq_refl) as (Hm & _). by exists fd.
Qed.

(** The whole of [restore_file_handles_from_shared_space] on a file whose
    mapping starts with an image. *)
Lemma restore_spec find p w c mpd rs z a fd w1 :
  finds find ->
  get_shared_space (p, w) = Ret (Mapped a, (set_space (SS fd (Z.of_nat (length c)) (Mapped a)) p, w1)) -> 0 <= fd ->
  mapped w1 a = Some (Mapping (space_name w) (length c) (page_pad c)) ->
  page_pad c = image mpd rs ++ z ->
  Z.of_nat (length (page_pad c)) < 2 ^ 64 -> Forall (record_ok mpd) rs ->
  Forall (fun m => nonul (mp_mount_path m)) mpd -> mp_initialized p = true ->
  map mp_mount_path (mounts p) = map mp_mount_path mpd -> unambiguous (mounts p) ->
  forall t, table_repr (fht p) t ->
  exists st sp w',
    restore_file_handles_from_shared_space find (p, w) = Ret (tt, (set_space sp (set_fht st p), w')) /\
    table_repr st (fold_left (fun t '(fd, d, _) => add_handle fd d t) rs t).
Proof.
  intros Hfind E1 Hfd0 Hm HB Hlen Hok Hnn Hi Hpaths Hun t Ht.
  unfold restore_file_handles_from_shared_space. rewrite (pbind_ret _ _ _ _ _ E1).
  set (p1 := set_space _ p). set (B := page_pad c) in *.
  assert (B = [] ++ le_bytes 8 (Z.of_nat (length mpd)) ++ flat_map encode_mount mpd ++ encode_files rs ++ z) as HB1
    by (rewrite HB; unfold image, encode_mounts; by rewrite <- !app_assoc).
  assert (Z.of_nat (length mpd) < 2 ^ 64) as Hmpd.
  { destruct (saved_size_eq mpd rs) as (_ & Hle & _). rewrite HB, length_app in Hlen. lia. }
  pose proof Hm as Hm1. rewrite HB1 in Hm1.
  assert (load_u64 (Mapped a) 0 (p1, w1) = Ret (Z.of_nat (length mpd), (p1, w1))) as E2
    by (eapply load_u64_off; [exact Hm1|lia|done]).
  rewrite (pbind_ret _ _ _ _ _ E2), Nat2Z.id.
  destruct (restore_mount_points_spec mpd p1 w1 a _ _ B (le_bytes 8 (Z.of_nat (length mpd))) (encode_files rs ++ z) Hm HB1 Hlen)
    as (offs & E3 & Hoffs). rewrite length_le_bytes in E3. rewrite (pbind_ret _ _ _ _ _ E3).
  fold (encode_mounts mpd).
  assert (B = encode_mounts mpd ++ le_bytes 8 (Z.of_nat (length rs)) ++ flat_map encode_file rs ++ z) as HB2
    by (rewrite HB; unfold image, encode_files; by rewrite <- !app_assoc).
  assert (Z.of_nat (length rs) < 2 ^ 64) as Hrs.
  { rewrite HB in Hlen. unfold image in Hlen. rewrite !length_app, length_encode_files in Hlen. lia. }
  pose proof Hm as Hm2. rewrite HB2 in Hm2.
  erewrite (pbind_ret _ _ (p1, w1)); [|eapply load_u64_off; [exact Hm2|lia|reflexivity]].
  rewrite app_assoc in HB2. rewrite Nat2Z.id.
  destruct (restore_files_spec find rs p1 w1 a (space_name w) (length c) B (encode_mounts mpd ++ le_bytes 8 (Z.of_nat (length rs))) z mpd offs t)
    as (st & w2 & E4 & Hr & Hmw); try done.
  rewrite length_app, length_le_bytes, Nat2Z.inj_add in E4. rewrite (pbind_ret _ _ _ _ _ E4).
  rewrite <- Hmw in Hm.
  destruct (release_mapped (set_fht st p1) w2 a fd _ _ _ _ eq_refl Hfd0 Hm) as (w3 & E5 & _).
  rewrite E5. eexists st, _, w3. split; [reflexivity|done].
Qed.
End HandOver.

(** ** The records of a consistent process *)

(** The table and the array of descriptors are right, and every handle belongs
    to a mount of the array whose index is its position. *)
Record consistent (p : process) : Prop := {
  c_inv : fht_inv (fht p);
  c_used : used_inv (fht p);
  c_init : mp_initialized p = true;
  c_space : ss_fd (space p) = -1;
  c_handles : forall fd d, handle_at (fht p) fd = Some d ->
    0 <= file_handle d < 2 ^ 64 /\
    exists m, mounts p !! mount d = Some m /\ mp_index m = Z.of_nat (mount d);
  c_paths : Forall (fun m => nonul (mp_mount_path m)) (mounts p) }.

Lemma list_choice {A} (P : nat -> A -> Prop) n :
  (forall j, (j < n)%nat -> exists r, P j r) ->
  exists rs, length rs = n /\ forall j r, rs !! j = Some r -> P j r.
Proof.
  induction n as [|n IH]; intros Hex; [by exists []|].
  destruct IH as (rs & Hl & Hrs); [auto|]. destruct (Hex n) as [r Hr]; [lia|].
  exists (rs ++ [r]). rewrite length_app. split; [simpl; lia|]. intros j r' Hj.
  apply lookup_app_Some in Hj as [Hj|[Hj Hj']]; [auto|]. apply list_lookup_singleton_Some in Hj' as [E <-].
  by replace j with n by lia.
Qed.

Lemma records_exist p :
  consistent p ->
  exists rs, used_file_descriptor_pos (fht p) = Z.of_nat (length rs) /\
    (forall j r, rs !! j = Some r -> record_at p (Z.of_nat j) r) /\
    Forall (record_ok (mounts p)) rs /\
    (forall fd d i, (fd, d, i) ∈ rs -> handle_at (fht p) fd = Some d) /\
    (forall fd d, handle_at (fht p) fd = Some d -> exists i, (fd, d, i) ∈ rs).
Proof.
  intros Hc. pose proof (c_inv p Hc) as Hinv. destruct (c_used p Hc) as [Hu1 Hu2].
  assert (0 <= used_file_descriptor_pos (fht p)) as Hpos by (rewrite (inv_pos _ Hinv); apply count_range).
  destruct (list_choice (fun j r => let '(fd, d, i) := r in
    record_at p (Z.of_nat j) r /\ record_ok (mounts p) r /\ handle_at (fht p) fd = Some d)
    (Z.to_nat (used_file_descriptor_pos (fht p)))) as (rs & Hl & Hrs).
  { intros j Hj. destruct (Hu1 (Z.of_nat j) ltac:(lia)) as (fd & l & Hfd & Hrange & Hl & _).
    destruct (inv_live _ Hinv _ _ Hl) as (o & Ho & _).
    assert (handle_at (fht p) fd = Some (f_data o)) as Hh by (by rewrite handle_at_in, Hl, Ho).
    destruct (c_handles p Hc _ _ Hh) as (Hfh & m & Hm & Hidx).
    exists (fd, f_data o, Z.of_nat (mount (f_data o))). repeat split; try done; try lia.
    - by apply arr_get_Some; [lia|].
    - unfold handle_of. rewrite (arr_get_Some _ _ _ (proj1 Hrange) Hl).
      unfold mbind, outcome_bind, deref. by rewrite Ho.
    - eauto.
    - by eapply lookup_lt_Some. }
  exists rs. split; [lia|]. split; [|split; [|split]].
  - intros j [[fd d] i] Hj. by apply (Hrs _ _ Hj).
  - apply Forall_lookup. intros j [[fd d] i] Hj. by apply (Hrs _ _ Hj).
  - intros fd d i Hin. apply list_elem_of_lookup in Hin as [j Hj]. by apply (Hrs _ _ Hj).
  - intros fd d Hh. unfold handle_at in Hh. destruct (0 <=? fd) eqn:E0; [|done].
    destruct (fd <? MAX_FILES) eqn:E1; [|done]. cbn [andb] in Hh. bools.
    destruct (file_handles (fht p) !! Z.to_nat fd) as [[l|]|] eqn:El; try done.
    destruct (Hu2 fd l E0 El) as (i & _ & Hi & Hufd).
    destruct (lookup_lt_is_Some_2 rs (Z.to_nat i) ltac:(lia)) as [[[fd' d'] i'] Hr].
    destruct (Hrs _ _ Hr) as ((Hget & _) & _ & Hh'). apply arr_get_inv in Hget as [_ Hget].
    rewrite Nat2Z.id in Hget. simplify_eq. exists i'. apply list_elem_of_lookup. exists (Z.to_nat i).
    rewrite Hr. repeat f_equal. rewrite handle_at_in, El in Hh' by lia. congruence.
Qed.

Lemma fold_add_handle h (rs : list (Z * file_handle_data * Z)) t :
  (forall fd d i, (fd, d, i) ∈ rs -> h fd = Some d) -> (forall fd d, t !! fd = Some d -> h fd = Some d) ->
  (forall fd d, h fd = Some d -> is_Some (t !! fd) \/ exists i, (fd, d, i) ∈ rs) ->
  forall fd, fold_left (fun t '(fd, d, _) => add_handle fd d t) rs t !! fd = h fd.
Proof.
  revert t. induction rs as [|[[fd0 d0] i0] rs IH]; intros t Hrs Ht Hall fd; cbn [fold_left].
  - destruct (h fd) as [d|] eqn:E.
    + destruct (Hall _ _ E) as [[d' Hd']|[i Hi]]; [|by apply not_elem_of_nil in Hi].
      rewrite Hd'. apply Ht in Hd'. congruence.
    + destruct (t !! fd) as [d|] eqn:E'; [|done]. apply Ht in E'. congruence.
  - assert (h fd0 = Some d0) as H0 by (eapply Hrs; apply elem_of_cons; by left).
    apply IH.
    + intros fd1 d1 i1 Hin. eapply Hrs. apply elem_of_cons. by right.
    + intros fd1 d1. unfold add_handle. destruct (t !! fd0) eqn:E; [apply Ht|].
      rewrite lookup_insert. case_decide; [intros [= <-]; by subst|apply Ht].
    + intros fd1 d1 Hh. unfold add_handle. destruct (Hall _ _ Hh) as [Hs|[i Hi]].
      * left. destruct (t !! fd0); [done|]. rewrite lookup_insert. case_decide; eauto.
      * apply elem_of_cons in Hi as [[= -> -> ->]|Hi]; [|eauto]. left.
        destruct (t !! fd0) eqn:E; [eauto|]. rewrite lookup_insert_eq. eauto.
Qed.

(** ** The bytes that are cut off *)

Lemma le_bytes_small v : 0 <= v < 256 -> le_bytes 8 v = byte_of_Z v :: replicate 7 nul.
Proof. intros Hv. cbn [le_bytes]. rewrite (Z.div_small v 256) by lia. reflexivity. Qed.

(** The file lacks one byte per mount; up to seven, they are the upper bytes of
    the index in the last record, which the padding of the page restores. *)
Lemma page_pad_image mpd rs :
  rs <> [] -> Forall (record_ok mpd) rs -> (length mpd <= 7)%nat ->
  (length (image mpd rs) <= page_up (saved_size mpd rs))%nat ->
  exists z, page_pad (take (saved_size mpd rs) (image mpd rs)) = image mpd rs ++ z.
Proof.
  intros Hne Hok Hmpd Hfit. destruct rs as [|[[fd d] idx] rs _] using rev_ind; [done|].
  apply Forall_app in Hok as [_ Hok]. apply Forall_singleton in Hok as (_ & _ & -> & Hmt).
  assert (exists x, image mpd (rs ++ [(fd, d, Z.of_nat (mount d))]) = x ++ replicate 7 nul) as (x & Hx).
  { eexists. unfold image, encode_files. rewrite flat_map_app. cbn [flat_map encode_file].
    rewrite app_nil_r, (le_bytes_small (Z.of_nat (mount d))) by lia.
    change (byte_of_Z ?b :: replicate 7 nul) with ([byte_of_Z b] ++ replicate 7 nul).
    by rewrite !app_assoc. }
  unfold saved_size in *. rewrite Hx in *. rewrite length_app, length_replicate in *.
  set (k := length mpd) in *. set (n := page_up (length x + 7 - k)) in *.
  exists (replicate (n - (length x + 7)) nul). unfold page_pad.
  rewrite take_app_ge by lia. replace (length x + 7 - k - length x)%nat with (7 - k)%nat by lia.
  rewrite take_replicate, length_app, length_replicate. replace ((7 - k) `min` 7)%nat with (7 - k)%nat by lia.
  replace (length x + (7 - k))%nat with (length x + 7 - k)%nat by lia. fold n.
  rewrite <- !app_assoc, <- !replicate_add. do 2 f_equal. lia.
Qed.

Lemma page_up_lt n : (page_up n < n + 4096)%nat.
Proof.
  unfold page_up, PAGE_SIZE. pose proof (Z.div_mod (Z.of_nat n + 4096 - 1) 4096 ltac:(lia)).
  pose proof (Z.mod_pos_bound (Z.of_nat n + 4096 - 1) 4096 ltac:(lia)). lia.
Qed.

Section Properties.
Context {W : Type} `{FileLaws W}.

(** C10: Open files survive exec.  A process whose table is consistent (the array of
    descriptors in use is intact, every handle belongs to a mount of the array), with
    a file open, at most seven mounts and less than 2 GiB to save, saves its handles;
    when that call succeeds, a new image of the process (same pid, a fresh table, the
    same mount points loaded, none a prefix of a later one) that finds the shared file
    unchanged and gets it mapped restores them: the call returns, and every descriptor
    stands for the same library handle of the same mount as before.  When the system
    refuses to open or to map the file the call returns with the table empty, and
    when [mmap] is a null pointer the process dies. *)
Theorem exec_hands_over_handles lines buffer lines' buffer' (p p1 p2 : process) (w w1 w2 : W) :
  consistent p -> 0 < used_file_descriptor_pos (fht p) -> (length (mounts p) <= 7)%nat ->
  mount_point_file_size (mounts p) + 8 + used_file_descriptor_pos (fht p) * 24 < 2 ^ 31 ->
  save_file_handles_to_shared_space lines buffer (p, w) = Ret (0, (p1, w1)) ->
  fht p2 = FileHandles.get_instance -> mp_initialized p2 = true -> ss_fd (space p2) = -1 ->
  map mp_mount_path (mounts p2) = map mp_mount_path (mounts p) -> unambiguous (mounts p2) ->
  getpid w2 = getpid w -> file w2 (space_name w) = file w1 (space_name w) ->
  let restore := restore_file_handles_from_shared_space (find_mount_from_path lines' buffer') (p2, w2) in
  match get_shared_space (p2, w2) with
  | Ret (Mapped _, _) => exists p3 w3, restore = Ret (tt, (p3, w3)) /\
      fht_inv (fht p3) /\ forall fd, handle_at (fht p3) fd = handle_at (fht p) fd
  | Ret (_, s) => restore = Ret (tt, s) /\ fht s.1 = FileHandles.get_instance
  | _ => restore = Undef
  end.
Proof.
  intros Hc Hpos Hmpd Hsz Hsave Hfht Hi2 Hfd2 Hpaths Hun Hpid Hfile restore.
  destruct (records_exist p Hc) as (rs & Hlen & Hat & Hok & Hin & Hall).
  assert (0 < length rs)%nat as Hne by lia. destruct (saved_size_eq (mounts p) rs) as (Hs & Hle & H24).
  assert (Z.of_nat (saved_size (mounts p) rs) < 2 ^ 31) as Hsz' by lia.
  pose proof (save_spec lines buffer p w rs (c_init p Hc) (c_space p Hc) Hat Hlen Hne Hsz') as Hr.
  rewrite Hsave in Hr. destruct Hr as [?|[(? & ? & ?)|Hr]]; [done|done|].
  destruct (Nat.leb_spec (length (image (mounts p) rs)) (page_up (saved_size (mounts p) rs))) as [Hfit|]; [|done].
  destruct Hr as (sp & w' & [= -> ->] & _ & Hf). rewrite Hf in Hfile.
  destruct (page_pad_image (mounts p) rs) as (z & Hz); [intros ->; simpl in Hne; lia|done..|].
  assert (length (take (saved_size (mounts p) rs) (image (mounts p) rs)) = saved_size (mounts p) rs) as Hlt
    by (rewrite length_take; unfold saved_size; lia).
  pose proof (page_up_lt (saved_size (mounts p) rs)) as Hup. rewrite <- Hpid in Hfile.
  pose proof (get_shared_space_spec p2 w2 _ Hfd2 Hfile ltac:(lia)) as Hg. unfold restore.
  destruct (get_shared_space (p2, w2)) as [[r [p' w3]]| |] eqn:Eg; [|done|].
  2: { unfold restore_file_handles_from_shared_space, pbind. by rewrite Eg. }
  destruct Hg as [Hp' Hg]. destruct r as [| |a].
  - unfold restore_file_handles_from_shared_space. rewrite (pbind_ret _ _ _ _ _ Eg). cbn [fst]. by rewrite Hp', Hfht.
  - done.
  - destruct Hg as (fd & -> & Hfd & Hm).
    destruct (restore_spec (find_mount_from_path lines' buffer') p2 w2 _ (mounts p) rs z a fd w3
      (find_with_finds _ _ _) Eg Hfd Hm Hz) with (t := (∅ : gmap Z file_handle_data)) as (st & sp' & w4 & E & Hrep);
      try done; [rewrite length_page_pad, Hlt; lia|apply (c_paths p Hc)|rewrite Hfht; apply get_instance_repr|].
    exists (set_space sp' (set_fht st p2)), w4. split; [done|]. destruct Hrep as [Hinv Hh]. split; [done|].
    intros fd'. rewrite <- (fold_add_handle (handle_at (fht p)) rs ∅ Hin); [by rewrite Hh|..].
    + intros ? ? Hx. by rewrite lookup_empty in Hx.
    + intros ? ? Hx. right. eauto.
Qed.

(** The size of the shared file does not count the NUL behind each mount
    path. When the image of a consistent process does not fit into the pages of
    a file of that size, saving either fails to set the file up or writes
    behind its last page, which ends the process with SIGBUS. *)
Theorem save_overruns_last_page lines buffer (p : process) (w : W) :
  consistent p -> 0 < used_file_descriptor_pos (fht p) ->
  let size := mount_point_file_size (mounts p) + 8 + used_file_descriptor_pos (fht p) * 24 in
  size < 2 ^ 31 -> (page_up (Z.to_nat size) < Z.to_nat size + length (mounts p))%nat ->
  save_file_handles_to_shared_space lines buffer (p, w) = Undef \/
  exists p1 w1, save_file_handles_to_shared_space lines buffer (p, w) = Ret (-1, (p1, w1)).
Proof.
  intros Hc Hpos size Hsz Hover. destruct (records_exist p Hc) as (rs & Hlen & Hat & _).
  destruct (saved_size_eq (mounts p) rs) as (Hs & Hle & H24). unfold size in *. rewrite Hlen, Hs in *.
  assert (length (image (mounts p) rs) = saved_size (mounts p) rs + length (mounts p))%nat as Hi
    by (unfold saved_size; lia).
  rewrite Nat2Z.id in Hover.
  pose proof (save_spec lines buffer p w rs (c_init p Hc) (c_space p Hc) Hat Hlen ltac:(lia) Hsz) as Hr.
  destruct Hr as [->|[(? & ? & ->)|Hr]]; [by left|right; eauto|]. left.
  destruct (Nat.leb_spec (length (image (mounts p) rs)) (page_up (saved_size (mounts p) rs))); [lia|done].
Qed.
End Properties.
