(* ===== verification/Syscalls.v ===== *)
(** * The operations on files (src/libdefuse/{access,close,open,read,...}.c)

    Each operation calls the function of the mounted library and turns its
    result, 0 or an error number, into a result and [errno].  The library keeps
    no file offset: [defuse_read] and [defuse_write] take it from the kernel
    descriptor that [defuse_open] opens beside the library handle, under a lock
    on that descriptor, and store it back.

    The specification is a file with an offset; [descriptor_refines_file] shows
    that reads, writes and seeks on a descriptor of the table behave as on such
    a file, also when locks are refused and the library fails or transfers less than
    it is asked for. *)

From Stdlib Require Import ZArith Lia Ascii String.
From stdpp Require Import base list gmap.
From S2P Require Import Prelude FileHandles Paths World MountPoints Process.

Local Open Scope Z_scope.

Definition SEEK_DATA : Z := 3.
Definition SEEK_HOLE : Z := 4.

Section Code.
Context {W : Type} `{RealOps W, Sys W, Usfs W}.

Abbreviation M := (prog (process * W)).

Definition assign_errno (e : Z) : M unit := fun s => Ret (tt, (s.1, set_errno e s.2)).

(** The mount point behind a pointer. *)
Definition mount_of (mp : nat) : M mount_point_data :=
  let* p := get in plift (deref (mounts p !! mp)).

(** The tail of most operations: [if (rv != 0) { errno = rv; rv = -1; }]. *)
Definition finish (rv : Z) : M Z :=
  if negb (rv =? 0) then do* assign_errno rv; pret (-1) else pret rv.

Definition defuse_access (mp : nat) (cpath filename : list ascii) (mode : Z) : M Z :=
  let* m := mount_of mp in
  let* f := pointer (mp_access m) in
  let* rv := sys (pcall (call_access f cpath mode)) in
  finish rv.

Definition defuse_close (fhd : file_handle_data) (fd : Z) : M Z :=
  let* m := mount_of (mount fhd) in
  let* f := pointer (mp_close m) in
  let* rv := sys (pcall (call_close f (file_handle fhd))) in
  if negb (rv =? 0) then do* assign_errno rv; pret (-1)
  else
    let* rv := table (remove_file_handle fd) in
    if rv =? 0 then sys (real_close fd)
    else do* assign_errno rv; pret (-1).

Definition defuse_open (mp : nat) (cpath filename : list ascii) (flags mode : Z) : M Z :=
  let* m := mount_of mp in
  let* f := pointer (mp_open m) in
  let* (rv, fh) := sys (pcall (call_open f cpath flags mode)) in
  if rv =? 0 then
    let* real_fd := sys (real_open filename O_RDONLY 0) in
    if real_fd >=? 0 then
      let* rv := table (insert_file_handle real_fd (FHD fh mp)) in
      if negb (rv =? 0) then
        let* c := pointer (mp_close m) in
        do* sys (pcall (call_close c fh));
        do* assign_errno rv;
        pret (-1)
      else pret real_fd
    else
      let* c := pointer (mp_close m) in
      do* sys (pcall (call_close c fh));
      pret real_fd
  else do* assign_errno rv; pret (-1).

(** The result and the bytes stored in the buffer. *)
Definition defuse_read (fhd : file_handle_data) (fd count : Z) : M (Z * list ascii) :=
  let* fcntl_rv := sys (pcall (setlk fd F_RDLCK)) in
  if fcntl_rv =? -1 then pret (0, [])
  else
    let* offset := sys (real_lseek fd 0 SEEK_CUR) in
    if negb (offset =? -1) then
      let* m := mount_of (mount fhd) in
      let* f := pointer (mp_read m) in
      let* (ret_rc, data, bytes_read) := sys (pcall (call_read f (file_handle fhd) count offset)) in
      if negb (ret_rc =? 0) then do* assign_errno ret_rc; pret (-1, data)
      else
        do* sys (real_lseek fd (i64 (offset + bytes_read)) SEEK_SET);
        do* sys (pcall (setlk fd F_UNLCK));
        do* assign_errno 0;
        pret (i64 bytes_read, data)
    else pret (0, []).

Definition defuse_write (fhd : file_handle_data) (fd : Z) (buf : list ascii) : M Z :=
  let* fcntl_rv := sys (pcall (setlk fd F_RDLCK)) in
  if fcntl_rv =? -1 then pret 0
  else
    let* offset := sys (real_lseek fd 0 SEEK_CUR) in
    if negb (offset =? -1) then
      let* m := mount_of (mount fhd) in
      let* f := pointer (mp_write m) in
      let* (ret_rc, bytes_written) := sys (pcall (call_write f (file_handle fhd) buf offset)) in
      if negb (ret_rc =? 0) then do* assign_errno ret_rc; pret (-1)
      else
        do* sys (real_lseek fd (i64 (offset + bytes_written)) SEEK_SET);
        do* sys (pcall (setlk fd F_UNLCK));
        do* assign_errno 0;
        pret (i64 bytes_written)
    else pret 0.

Definition defuse_readlink (mp : nat) (cpath pathname : list ascii) (bufsiz : Z) : M (Z * list ascii) :=
  let* m := mount_of mp in
  let* f := pointer (mp_readlink m) in
  let* (ret_rc, data, bytes_written) := sys (pcall (call_readlink f cpath bufsiz)) in
  if negb (ret_rc =? 0) then do* assign_errno ret_rc; pret (-1, data)
  else do* assign_errno 0; pret (i64 bytes_written, data).

(** The sum of two values of type [off_t]. *)
Definition add_off (a b : Z) : outcome Z := if (- 2 ^ 63 <=? a + b) && (a + b <? 2 ^ 63) then Ret (a + b) else Undef.

(** The result of [lseek] is stored in an [int]. *)
Definition defuse_lseek (fhd : file_handle_data) (fd offset whence : Z) : M Z :=
  if (whence =? SEEK_CUR) || (whence =? SEEK_SET) then
    let* rv := sys (real_lseek fd offset whence) in pret (i32 rv)
  else
    let* m := mount_of (mount fhd) in
    let* f := pointer (mp_fgetattr m) in
    let* (rv, statbuf) := sys (pcall (call_fgetattr f (file_handle fhd))) in
    if negb (rv =? 0) then do* assign_errno rv; pret (-1)
    else
      let seek offset := let* rv := sys (real_lseek fd offset SEEK_SET) in pret (i32 rv) in
      if whence =? SEEK_HOLE then
        if offset >=? st_size statbuf then do* assign_errno ENXIO; pret (-1)
        else seek (st_size statbuf)
      else if whence =? SEEK_DATA then
        if offset >=? st_size statbuf then do* assign_errno ENXIO; pret (-1)
        else seek offset
      else if whence =? SEEK_END then let* offset := plift (add_off offset (st_size statbuf)) in seek offset
      else seek offset.

Definition defuse_getattr (mp : nat) (cpath pathname : list ascii) (flags : Z) : M (Z * stat) :=
  let* m := mount_of mp in
  let* f := pointer (mp_getattr m) in
  let* (rv, statbuf) := sys (pcall (call_getattr f cpath flags)) in
  let* rv := finish rv in pret (rv, statbuf).

Definition defuse_fgetattr (fhd : file_handle_data) (fd : Z) : M (Z * stat) :=
  let* m := mount_of (mount fhd) in
  let* f := pointer (mp_fgetattr m) in
  let* (rv, statbuf) := sys (pcall (call_fgetattr f (file_handle fhd))) in
  let* rv := finish rv in pret (rv, statbuf).

Definition defuse_fsync (fhd : file_handle_data) (fd data_sync : Z) : M Z :=
  let* m := mount_of (mount fhd) in
  let* f := pointer (mp_fsync m) in
  let* rv := sys (pcall (call_fsync f (file_handle fhd) data_sync)) in
  finish rv.

Definition defuse_truncate (mp : nat) (cpath pathname : list ascii) (length : Z) : M Z :=
  let* m := mount_of mp in
  let* f := pointer (mp_truncate m) in
  let* rv := sys (pcall (call_truncate f cpath length)) in
  finish rv.

Definition defuse_ftruncate (fhd : file_handle_data) (fd length : Z) : M Z :=
  let* m := mount_of (mount fhd) in
  let* f := pointer (mp_ftruncate m) in
  let* rv := sys (pcall (call_ftruncate f (file_handle fhd) length)) in
  finish rv.

Definition defuse_unlink (mp : nat) (cpath filename : list ascii) : M Z :=
  let* m := mount_of mp in
  let* f := pointer (mp_unlink m) in
  let* rv := sys (pcall (call_unlink f cpath)) in
  finish rv.
End Code.

(** ** Documented behaviour of offsets and of the file behind a handle *)

Class OffsetLaws (W : Type) `{RealOps W, Sys W, Usfs W} := {
  (** the offset of a kernel descriptor *)
  position : W -> Z -> option Z;
  (** the library of the mount has this file behind the handle *)
  serves : W -> mount_point_data -> Z -> list ascii -> Prop;
  (** the largest offset of the file system *)
  offset_max : Z;
  offset_max_ok : 0 <= offset_max < 2 ^ 63;
  (** lseek(2) *)
  seek_ok fd off wh w o : position w fd = Some o -> (wh = SEEK_SET \/ wh = SEEK_CUR) ->
    let o' := if wh =? SEEK_SET then off else o + off in
    let fits := (0 <=? o') && (o' <=? offset_max) in
    exists w', real_lseek fd off wh w = Ret (if fits then o' else -1, w') /\
      position w' fd = Some (if fits then o' else o) /\
      (forall m fh c, serves w m fh c -> serves w' m fh c);
  (** a lock is granted or refused *)
  lock_ok fd t w : (forall fd', position (setlk fd t w).2 fd' = position w fd') /\
    (forall m fh c, serves w m fh c -> serves (setlk fd t w).2 m fh c);
  errno_ok e w : (forall fd, position (set_errno e w) fd = position w fd) /\
    (forall m fh c, serves w m fh c -> serves (set_errno e w) m fh c);
  (** src/interface.h *)
  read_ok m fh c n off w : serves w m fh c -> 0 <= off -> 0 <= n <= MAX_RW_COUNT ->
    let (r, w') := call_read (mp_read m) fh n off w in
    read_result c off n r /\ serves w' m fh c /\ (forall fd, position w' fd = position w fd);
  write_ok m fh c bs off w : serves w m fh c -> 0 <= off -> Z.of_nat (length bs) <= MAX_RW_COUNT ->
    let (r, w') := call_write (mp_write m) fh bs off w in
    exists c', write_result c off bs r c' /\ serves w' m fh c' /\ (forall fd, position w' fd = position w fd);
  fgetattr_ok m fh c w : serves w m fh c ->
    let (r, w') := call_fgetattr (mp_fgetattr m) fh w in
    size_result c r /\ serves w' m fh c /\ (forall fd, position w' fd = position w fd) }.

(** A world in which nobody holds a lock and the libraries do all they are asked for. *)
Class ReadyLaws (W : Type) `{OffsetLaws W} := {
  ready : W -> Prop;
  ready_lock fd t w : ready w -> (setlk fd t w).1 <> -1 /\ ready (setlk fd t w).2;
  ready_seek fd off wh w r w' : ready w -> real_lseek fd off wh w = Ret (r, w') -> ready w';
  ready_errno e w : ready w -> ready (set_errno e w);
  ready_read m fh c n off w : ready w -> serves w m fh c -> 0 <= off -> 0 <= n <= MAX_RW_COUNT ->
    let '((e, _, k), w') := call_read (mp_read m) fh n off w in
    e = 0 /\ k = Z.of_nat (length (read_at c off n)) /\ ready w';
  ready_write m fh c bs off w : ready w -> serves w m fh c -> 0 <= off -> Z.of_nat (length bs) <= MAX_RW_COUNT ->
    let '((e, k), w') := call_write (mp_write m) fh bs off w in e = 0 /\ k = Z.of_nat (length bs) /\ ready w';
  ready_fgetattr m fh c w : ready w -> serves w m fh c ->
    let '((e, _), w') := call_fgetattr (mp_fgetattr m) fh w in e = 0 /\ ready w' }.

(** ** A file with an offset *)

Inductive file_op :=
| FRead (count : Z)
| FWrite (buf : list ascii)
| FSeek (offset whence : Z).

Record open_file := OpenFile { of_content : list ascii; of_offset : Z }.

(** The offset a seek asks for; [None] for ENXIO. *)
Definition seek_target (f : open_file) (offset whence : Z) : option Z :=
  let size := Z.of_nat (length (of_content f)) in
  if whence =? SEEK_CUR then Some (of_offset f + offset)
  else if whence =? SEEK_SET then Some offset
  else if whence =? SEEK_HOLE then if offset >=? size then None else Some size
  else if whence =? SEEK_DATA then if offset >=? size then None else Some offset
  else if whence =? SEEK_END then Some (offset + size)
  else Some offset.

Section Spec.
(** The largest offset. *)
Context (max : Z).

Definition in_file (o : Z) : bool := (0 <=? o) && (o <=? max).

(** The file after [k] bytes were transferred at its offset; an offset that is too
    large is not stored. *)
Definition advance (c : list ascii) (o k : Z) : open_file := OpenFile c (if o + k <=? max then o + k else o).

Definition spec_file_op (o : file_op) (f : open_file) : (Z * list ascii) * open_file :=
  match o with
  | FRead n =>
      let data := read_at (of_content f) (of_offset f) n in
      ((Z.of_nat (length data), data), advance (of_content f) (of_offset f) (Z.of_nat (length data)))
  | FWrite bs =>
      ((Z.of_nat (length bs), []), advance (write_at (of_content f) (of_offset f) bs) (of_offset f) (Z.of_nat (length bs)))
  | FSeek offset whence =>
      match seek_target f offset whence with
      | Some o => if in_file o then ((i32 o, []), OpenFile (of_content f) o) else ((-1, []), f)
      | None => ((-1, []), f)
      end
  end.

Fixpoint spec_file_run (os : list file_op) (f : open_file) : list (Z * list ascii) * open_file :=
  match os with
  | [] => ([], f)
  | o :: os =>
      let (r, f) := spec_file_op o f in
      let (rs, f) := spec_file_run os f in (r :: rs, f)
  end.

(** What one operation may do.  A refused lock is reported as the end of the file. *)
Inductive file_step (f : open_file) : file_op -> Z * list ascii -> open_file -> Prop :=
| step_read n k : 0 <= k <= Z.of_nat (length (read_at (of_content f) (of_offset f) n)) ->
    file_step f (FRead n) (k, take (Z.to_nat k) (read_at (of_content f) (of_offset f) n)) (advance (of_content f) (of_offset f) k)
| step_read_refused n : file_step f (FRead n) (0, []) f
| step_read_failed n data : file_step f (FRead n) (-1, data) f
| step_write bs k : 0 <= k <= Z.of_nat (length bs) ->
    file_step f (FWrite bs) (k, []) (advance (write_at (of_content f) (of_offset f) (take (Z.to_nat k) bs)) (of_offset f) k)
| step_write_refused bs : file_step f (FWrite bs) (0, []) f
| step_write_failed bs j : file_step f (FWrite bs) (-1, []) (OpenFile (write_at (of_content f) (of_offset f) (take j bs)) (of_offset f))
| step_seek offset whence :
    file_step f (FSeek offset whence) (spec_file_op (FSeek offset whence) f).1 (spec_file_op (FSeek offset whence) f).2
| step_seek_failed offset whence : whence <> SEEK_CUR -> whence <> SEEK_SET -> file_step f (FSeek offset whence) (-1, []) f.

Inductive file_trace (f : open_file) : list file_op -> list (Z * list ascii) -> open_file -> Prop :=
| trace_nil : file_trace f [] [] f
| trace_cons o os r rs f1 f2 : file_step f o r f1 -> file_trace f1 os rs f2 -> file_trace f (o :: os) (r :: rs) f2.

(** Buffers and offsets that fit their types. *)
Definition file_op_ok (o : file_op) (f : open_file) : Prop :=
  match o with
  | FRead n => 0 <= n <= MAX_RW_COUNT
  | FWrite bs => Z.of_nat (length bs) <= MAX_RW_COUNT
  | FSeek offset whence => whence = SEEK_END -> - 2 ^ 63 <= offset /\ offset + Z.of_nat (length (of_content f)) < 2 ^ 63
  end.

(** ... whatever the operations before have done. *)
Definition file_ops_ok (os : list file_op) (f : open_file) : Prop :=
  forall i o rs f', os !! i = Some o -> file_trace f (take i os) rs f' -> file_op_ok o f'.

Lemma file_ops_ok_cons o os f : file_ops_ok (o :: os) f ->
  file_op_ok o f /\ forall r f1, file_step f o r f1 -> file_ops_ok os f1.
Proof.
  intros Hok. split; [apply (Hok 0%nat o [] f eq_refl); constructor|].
  intros r f1 Hs i o' rs f' Hi Ht. apply (Hok (S i) o' (r :: rs) f' Hi). by econstructor.
Qed.
End Spec.

Section Refinement.
Context {W : Type} `{ReadyLaws W}.
Implicit Types (p : process) (w : W).

Abbreviation M := (prog (process * W)).

Definition file_op_exec (fhd : file_handle_data) (fd : Z) (o : file_op) : M (Z * list ascii) :=
  match o with
  | FRead n => defuse_read fhd fd n
  | FWrite bs => let* rv := defuse_write fhd fd bs in pret (rv, [])
  | FSeek offset whence => let* rv := defuse_lseek fhd fd offset whence in pret (rv, [])
  end.

Fixpoint file_run (fhd : file_handle_data) (fd : Z) (os : list file_op) : M (list (Z * list ascii)) :=
  match os with
  | [] => pret []
  | o :: os =>
      let* r := file_op_exec fhd fd o in
      let* rs := file_run fhd fd os in pret (r :: rs)
  end.

(** The descriptor and the handle stand for the file [f]. *)
Definition descriptor_repr (p : process) (w : W) (fhd : file_handle_data) (fd : Z) (f : open_file) : Prop :=
  position w fd = Some (of_offset f) /\ 0 <= of_offset f <= offset_max /\
  exists m, mounts p !! mount fhd = Some m /\ mp_read m <> 0 /\ mp_write m <> 0 /\ mp_fgetattr m <> 0 /\
    serves w m (file_handle fhd) (of_content f).

Lemma sys_ret {A} (e : prog W A) p w a w' : e w = Ret (a, w') -> sys e (p, w) = Ret (a, (p, w')).
Proof. intros E. unfold sys, pzoom. cbn [snd]. by rewrite E. Qed.
Lemma sys_call {A} (g : W -> A * W) (p : process) w :
  sys (pcall g) (p, w) = Ret ((g w).1, (p, (g w).2)).
Proof. unfold sys, pzoom, pcall. cbn [fst snd]. by destruct (g w). Qed.
Lemma pointer_ret {S} f (s : S) : f <> 0 -> pointer f s = Ret (f, s).
Proof. intros Hf. unfold pointer, plift. by destruct (Z.eqb_spec f 0). Qed.
Lemma mount_of_ret p w mp m : mounts p !! mp = Some m -> mount_of mp (p, w) = Ret (m, (p, w)).
Proof. intros Hm. unfold mount_of, pbind, get, plift. cbn [fst]. by rewrite Hm. Qed.

Lemma in_file_true o : 0 <= o <= offset_max -> (0 <=? o) && (o <=? offset_max) = true.
Proof. intros [? ?]. apply andb_true_iff. split; by apply Z.leb_le. Qed.

(** The offset that [defuse_read] and [defuse_write] store. *)
Lemma stored_offset o k : 0 <= o <= offset_max -> 0 <= k <= MAX_RW_COUNT ->
  (0 <=? i64 (o + k)) && (i64 (o + k) <=? offset_max) = (o + k <=? offset_max) /\
  (o + k <= offset_max -> i64 (o + k) = o + k).
Proof.
  intros Ho Hk. pose proof offset_max_ok as Hm. change MAX_RW_COUNT with 2147479552 in Hk.
  destruct (Z.leb_spec (o + k) offset_max) as [Hle|Hgt].
  - rewrite swrap_small by lia. split; [apply in_file_true; lia|done].
  - split; [|lia]. destruct (Z.lt_ge_cases (o + k) (2 ^ 63)).
    + rewrite swrap_small by lia. apply andb_false_iff. right. by apply Z.leb_gt.
    + apply andb_false_iff. left. apply Z.leb_gt. unfold swrap. change (64 - 1) with 63.
      rewrite <- (Z.mod_add _ (-1)), Z.mod_small by lia. lia.
Qed.

(** The head of [defuse_read] and [defuse_write]: the offset, under the lock. *)
Lemma seek_here w fd o :
  position w fd = Some o -> 0 <= o <= offset_max ->
  exists w', real_lseek fd 0 SEEK_CUR w = Ret (o, w') /\ position w' fd = Some o /\
    (forall m fh c, serves w m fh c -> serves w' m fh c).
Proof.
  intros Hpos Ho. destruct (seek_ok fd 0 SEEK_CUR w o Hpos) as (w' & E & Hp & Hs); [by right|].
  cbn [Z.eqb SEEK_SET SEEK_CUR] in *. rewrite Z.add_0_r, in_file_true in * by done. eauto.
Qed.

(** Their tail: the new offset, the unlock, [errno]. *)
Lemma store_offset p w fd o k m fh c :
  position w fd = Some o -> 0 <= o <= offset_max -> 0 <= k <= MAX_RW_COUNT -> serves w m fh c ->
  exists w', (forall A (c' : unit -> M A),
    (do* sys (real_lseek fd (i64 (o + k)) SEEK_SET);
     do* sys (pcall (setlk fd F_UNLCK));
     pbind (assign_errno 0) c') (p, w) = c' tt (p, w')) /\
    position w' fd = Some (if o + k <=? offset_max then o + k else o) /\ serves w' m fh c /\ (ready w -> ready w').
Proof.
  intros Hpos Ho Hk Hs. destruct (stored_offset o k Ho Hk) as [Hf Hi].
  destruct (seek_ok fd (i64 (o + k)) SEEK_SET w o Hpos) as (w1 & E & Hp1 & Hs1); [by left|].
  cbn [Z.eqb SEEK_SET] in *. rewrite Hf in *.
  destruct (lock_ok fd F_UNLCK w1) as (Hp2 & Hs2). destruct (errno_ok 0 (setlk fd F_UNLCK w1).2) as [Hp3 Hs3].
  exists (set_errno 0 (setlk fd F_UNLCK w1).2). split; [|split; [|split; [by auto|]]].
  - intros A c'. rewrite (pbind_ret _ _ _ _ _ (sys_ret _ p _ _ _ E)), (pbind_ret _ _ _ _ _ (sys_call _ p _)). done.
  - rewrite Hp3, Hp2, Hp1. destruct (Z.leb_spec (o + k) offset_max); [by rewrite Hi|done].
  - intros Hr. apply ready_errno, ready_lock. by apply (ready_seek _ _ _ _ _ _ Hr E).
Qed.

(** One operation on the descriptor is one step of the file, and the one of
    [spec_file_op] when nothing is refused. *)
Definition op_refined (o : file_op) p w fhd fd f : Prop :=
  exists r f' w', file_op_exec fhd fd o (p, w) = Ret (r, (p, w')) /\ file_step offset_max f o r f' /\
    descriptor_repr p w' fhd fd f' /\ (ready w -> (r, f') = spec_file_op offset_max o f /\ ready w').

Lemma length_read_at c off n : 0 <= n -> Z.of_nat (length (read_at c off n)) <= n.
Proof. intros. unfold read_at. rewrite length_take. lia. Qed.

Lemma advance_range c o k : 0 <= o <= offset_max -> 0 <= k -> 0 <= of_offset (advance offset_max c o k) <= offset_max.
Proof. intros. unfold advance. cbn. destruct (Z.leb_spec (o + k) offset_max); lia. Qed.

Lemma refine_read p w fhd fd f n :
  descriptor_repr p w fhd fd f -> 0 <= n <= MAX_RW_COUNT -> op_refined (FRead n) p w fhd fd f.
Proof.
  intros (Hpos & Ho & m & Hm & Hr & Hw & Hg & Hs) Hn. unfold op_refined. cbn [file_op_exec]. unfold defuse_read.
  rewrite (pbind_ret _ _ _ _ _ (sys_call _ p _)).
  destruct (lock_ok fd F_RDLCK w) as (Hp1 & Hs1). pose proof (ready_lock fd F_RDLCK w) as Hr1.
  destruct (setlk fd F_RDLCK w) as [r w1]. cbn [fst snd] in *. destruct (Z.eqb_spec r (-1)) as [->|Hne].
  { eexists _, f, w1. split; [reflexivity|]. split; [constructor|]. split; [|intros K; by destruct (Hr1 K)].
    split; [by rewrite Hp1|]. split; [done|]. eauto 10. }
  destruct (seek_here w1 fd (of_offset f)) as (w2 & E2 & Hp2 & Hs2); [by rewrite Hp1|done|].
  rewrite (pbind_ret _ _ _ _ _ (sys_ret _ p _ _ _ E2)). destruct (Z.eqb_spec (of_offset f) (-1)); [lia|]. cbn [negb].
  rewrite (pbind_ret _ _ _ _ _ (mount_of_ret _ _ _ _ Hm)), (pbind_ret _ _ _ _ _ (pointer_ret _ _ Hr)).
  rewrite (pbind_ret _ _ _ _ _ (sys_call _ p _)).
  pose proof (read_ok m (file_handle fhd) (of_content f) n (of_offset f) w2 (Hs2 _ _ _ (Hs1 _ _ _ Hs)) ltac:(lia) Hn) as Hrd.
  pose proof (fun K => ready_read m (file_handle fhd) (of_content f) n (of_offset f) w2 K (Hs2 _ _ _ (Hs1 _ _ _ Hs)) ltac:(lia) Hn) as Hrr.
  destruct (call_read _ _ _ _ w2) as [[[e data] k] w3]. cbn [fst snd]. destruct Hrd as (Hres & Hs3 & Hp3).
  assert (ready w -> ready w2) as Hr2 by (intros K; by apply (ready_seek _ _ _ _ _ _ (proj2 (Hr1 K)) E2)).
  destruct (Z.eqb_spec e 0) as [->|Hne0]; cbn [negb].
  - destruct (Hres eq_refl) as [Hk ->]. pose proof (length_read_at (of_content f) (of_offset f) n ltac:(lia)) as Hl.
    destruct (store_offset p w3 fd (of_offset f) k m (file_handle fhd) (of_content f)) as (w4 & E4 & Hp4 & Hs4 & Hr4);
      [by rewrite Hp3|done|lia|done|].
    rewrite E4. change MAX_RW_COUNT with 2147479552 in *. rewrite swrap_small by lia.
    eexists _, _, w4. split; [reflexivity|]. split; [by constructor|]. split.
    + split; [done|]. split; [apply advance_range; lia|]. exists m. eauto 10.
    + intros K. destruct (Hrr (Hr2 K)) as (_ & -> & K3). split; [|auto]. cbn [spec_file_op].
      by rewrite Nat2Z.id, firstn_all.
  - eexists _, f, (set_errno e w3). split; [reflexivity|]. split; [constructor|].
    destruct (errno_ok e w3) as [Hp4 Hs4]. split; [|intros K; by destruct (Hrr (Hr2 K))].
    split; [by rewrite Hp4, Hp3|]. split; [done|]. eauto 10.
Qed.

Lemma refine_write p w fhd fd f bs :
  descriptor_repr p w fhd fd f -> Z.of_nat (length bs) <= MAX_RW_COUNT -> op_refined (FWrite bs) p w fhd fd f.
Proof.
  intros (Hpos & Ho & m & Hm & Hr & Hw & Hg & Hs) Hn. unfold op_refined. cbn [file_op_exec]. unfold defuse_write, pbind at 1.
  rewrite (pbind_ret _ _ _ _ _ (sys_call _ p _)).
  destruct (lock_ok fd F_RDLCK w) as (Hp1 & Hs1). pose proof (ready_lock fd F_RDLCK w) as Hr1.
  destruct (setlk fd F_RDLCK w) as [r w1]. cbn [fst snd] in *. destruct (Z.eqb_spec r (-1)) as [->|Hne].
  { eexists _, f, w1. split; [reflexivity|]. split; [constructor|]. split; [|intros K; by destruct (Hr1 K)].
    split; [by rewrite Hp1|]. split; [done|]. eauto 10. }
  destruct (seek_here w1 fd (of_offset f)) as (w2 & E2 & Hp2 & Hs2); [by rewrite Hp1|done|].
  rewrite (pbind_ret _ _ _ _ _ (sys_ret _ p _ _ _ E2)). destruct (Z.eqb_spec (of_offset f) (-1)); [lia|]. cbn [negb].
  rewrite (pbind_ret _ _ _ _ _ (mount_of_ret _ _ _ _ Hm)), (pbind_ret _ _ _ _ _ (pointer_ret _ _ Hw)).
  rewrite (pbind_ret _ _ _ _ _ (sys_call _ p _)).
  pose proof (write_ok m (file_handle fhd) (of_content f) bs (of_offset f) w2 (Hs2 _ _ _ (Hs1 _ _ _ Hs)) ltac:(lia) Hn) as Hrd.
  pose proof (fun K => ready_write m (file_handle fhd) (of_content f) bs (of_offset f) w2 K (Hs2 _ _ _ (Hs1 _ _ _ Hs)) ltac:(lia) Hn) as Hrr.
  destruct (call_write _ _ _ _ w2) as [[e k] w3]. cbn [fst snd]. destruct Hrd as (c' & [Hres1 Hres2] & Hs3 & Hp3).
  assert (ready w -> ready w2) as Hr2 by (intros K; by apply (ready_seek _ _ _ _ _ _ (proj2 (Hr1 K)) E2)).
  destruct (Z.eqb_spec e 0) as [->|Hne0]; cbn [negb].
  - destruct (Hres1 eq_refl) as [Hk ->].
    destruct (store_offset p w3 fd (of_offset f) k m (file_handle fhd) (write_at (of_content f) (of_offset f) (take (Z.to_nat k) bs)))
      as (w4 & E4 & Hp4 & Hs4 & Hr4); [by rewrite Hp3|done|lia|done|].
    rewrite E4. change MAX_RW_COUNT with 2147479552 in *. rewrite swrap_small by lia.
    eexists _, _, w4. split; [reflexivity|]. split; [by constructor|]. split.
    + split; [done|]. split; [apply advance_range; lia|]. exists m. eauto 10.
    + intros K. destruct (Hrr (Hr2 K)) as (_ & -> & K3). split; [|auto]. cbn [spec_file_op].
      by rewrite Nat2Z.id, firstn_all.
  - destruct (Hres2 Hne0) as (j & ->). eexists _, _, (set_errno e w3). split; [reflexivity|]. split; [by constructor|].
    destruct (errno_ok e w3) as [Hp4 Hs4]. split; [|intros K; by destruct (Hrr (Hr2 K))].
    split; [by rewrite Hp4, Hp3|]. split; [done|]. eauto 10.
Qed.

(** A seek to [n] by the kernel. *)
Lemma refine_kernel_seek p w fhd fd c o n off wh :
  descriptor_repr p w fhd fd (OpenFile c o) -> (wh = SEEK_SET \/ wh = SEEK_CUR) ->
  n = (if wh =? SEEK_SET then off else o + off) ->
  exists w', (let* rv := sys (real_lseek fd off wh) in pret (i32 rv)) (p, w) =
      Ret (if in_file offset_max n then i32 n else -1, (p, w')) /\
    descriptor_repr p w' fhd fd (OpenFile c (if in_file offset_max n then n else o)) /\ (ready w -> ready w').
Proof.
  intros (Hpos & Ho & m & Hm & Hr & Hw & Hg & Hs) Hwh ->. cbn [of_content of_offset] in *.
  destruct (seek_ok fd off wh w o Hpos Hwh) as (w1 & E1 & Hp1 & Hs1). exists w1.
  rewrite (pbind_ret _ _ _ _ _ (sys_ret _ p _ _ _ E1)). unfold in_file. split; [|split].
  - unfold pret. by destruct (_ && _).
  - split; [exact Hp1|]. cbn [of_content of_offset]. split; [|eauto 10].
    destruct (_ && _) eqn:Ef; [|done]. apply andb_true_iff in Ef as [? ?]. lia.
  - intros K. by apply (ready_seek _ _ _ _ _ _ K E1).
Qed.

Lemma refine_errno p w fhd fd f e :
  descriptor_repr p w fhd fd f -> descriptor_repr p (set_errno e w) fhd fd f.
Proof.
  intros (Hpos & Ho & m & Hm & Hr & Hw & Hg & Hs). destruct (errno_ok e w) as [Hp Hs'].
  split; [by rewrite Hp|]. split; [done|]. eauto 10.
Qed.

(** The result of a seek and the file behind it, for the offset it asks for. *)
Definition sought (f : open_file) (target : option Z) : (Z * list ascii) * open_file :=
  match target with
  | Some n => if in_file offset_max n then ((i32 n, []), OpenFile (of_content f) n) else ((-1, []), f)
  | None => ((-1, []), f)
  end.

Lemma refine_sought p w fhd fd f off wh :
  descriptor_repr p w fhd fd f -> (wh = SEEK_SET \/ wh = SEEK_CUR) ->
  let r := sought f (Some (if wh =? SEEK_SET then off else of_offset f + off)) in
  exists w', (let* rv := (let* rv := sys (real_lseek fd off wh) in pret (i32 rv)) in pret (rv, [])) (p, w) = Ret (r.1, (p, w')) /\
    descriptor_repr p w' fhd fd r.2 /\ (ready w -> ready w').
Proof.
  intros Hd Hwh. destruct f as [c o].
  destruct (refine_kernel_seek p w fhd fd c o _ off wh Hd Hwh eq_refl) as (w' & E & Hd' & Hr). exists w'.
  rewrite (pbind_ret _ _ _ _ _ E). cbn [sought of_content of_offset]. by destruct (in_file _ _).
Qed.

(** The seeks that need the size of the file. *)
Lemma refine_sized_seek p w fhd fd f offset whence :
  descriptor_repr p w fhd fd f -> file_op_ok (FSeek offset whence) f -> whence <> SEEK_CUR -> whence <> SEEK_SET ->
  op_refined (FSeek offset whence) p w fhd fd f.
Proof.
  intros Hd Hok Hnc Hns. unfold op_refined. cbn [file_op_exec]. unfold defuse_lseek.
  destruct (Z.eqb_spec whence SEEK_CUR); [done|]. destruct (Z.eqb_spec whence SEEK_SET); [done|]. cbn [orb].
  pose proof Hd as (Hpos & Ho & m & Hm & Hr & Hw & Hg & Hs).
  unfold pbind at 1. rewrite (pbind_ret _ _ _ _ _ (mount_of_ret _ _ _ _ Hm)), (pbind_ret _ _ _ _ _ (pointer_ret _ _ Hg)).
  rewrite (pbind_ret _ _ _ _ _ (sys_call _ p _)).
  pose proof (fgetattr_ok m (file_handle fhd) (of_content f) w Hs) as Hga.
  pose proof (fun K => ready_fgetattr m (file_handle fhd) (of_content f) w K Hs) as Hrg.
  destruct (call_fgetattr _ _ w) as [[e st] w1]. cbn [fst snd]. destruct Hga as (Hsz & Hs1 & Hp1).
  assert (descriptor_repr p w1 fhd fd f) as Hd1 by (split; [by rewrite Hp1|]; split; [done|]; eauto 10).
  destruct (Z.eqb_spec e 0) as [->|Hne]; cbn [negb].
  2: { eexists _, f, _. split; [reflexivity|]. split; [by apply step_seek_failed|].
       split; [by apply refine_errno|]. intros K. by destruct (Hrg K). }
  rewrite (Hsz eq_refl : st_size st = _).
  enough (exists w', (match seek_target f offset whence with
      | Some n => let* rv := (let* rv := sys (real_lseek fd n SEEK_SET) in pret (i32 rv)) in pret (rv, [])
      | None => let* rv := do* assign_errno ENXIO; pret (-1) in pret (rv, [])
      end) (p, w1) = Ret ((sought f (seek_target f offset whence)).1, (p, w')) /\
    descriptor_repr p w' fhd fd (sought f (seek_target f offset whence)).2 /\ (ready w1 -> ready w')) as (w' & E & Hd' & Hr').
  { exists (sought f (seek_target f offset whence)).1, (sought f (seek_target f offset whence)).2, w'. split; [|split; [apply step_seek|]].
    - rewrite <- E. clear -Hnc Hns Hok. unfold seek_target. rewrite (proj2 (Z.eqb_neq _ _) Hnc), (proj2 (Z.eqb_neq _ _) Hns).
      destruct (whence =? SEEK_HOLE); [by destruct (_ >=? _)|]. destruct (whence =? SEEK_DATA); [by destruct (_ >=? _)|].
      destruct (Z.eqb_spec whence SEEK_END) as [->|]; [|done]. destruct (Hok eq_refl) as [? ?].
      unfold add_off. rewrite (proj2 (Z.leb_le _ _)), (proj2 (Z.ltb_lt _ _)) by lia. done.
    - split; [done|]. intros K. split; [by rewrite <- surjective_pairing|]. apply Hr'. by destruct (Hrg K). }
  destruct (seek_target f offset whence) as [o|]; [by apply (refine_sought p w1 fhd fd f o SEEK_SET); [|left]|].
  exists (set_errno ENXIO w1). split; [done|]. split; [by apply refine_errno|apply ready_errno].
Qed.

Lemma refine_op o p w fhd fd f :
  descriptor_repr p w fhd fd f -> file_op_ok o f -> op_refined o p w fhd fd f.
Proof.
  destruct o as [n|bs|offset whence]; intros Hd Hok; [by apply refine_read|by apply refine_write|].
  destruct (decide (whence = SEEK_SET \/ whence = SEEK_CUR)) as [Hwh|Hwh].
  - destruct (refine_sought p w fhd fd f offset whence Hd Hwh) as (w' & E & Hd' & Hr).
    assert (spec_file_op offset_max (FSeek offset whence) f =
      sought f (Some (if whence =? SEEK_SET then offset else of_offset f + offset))) as Hs
      by (by destruct Hwh as [-> | ->]).
    exists (spec_file_op offset_max (FSeek offset whence) f).1, (spec_file_op offset_max (FSeek offset whence) f).2, w'.
    split; [|split; [apply step_seek|split; [by rewrite Hs|]]].
    + rewrite Hs, <- E. cbn [file_op_exec]. unfold defuse_lseek. by destruct Hwh as [-> | ->].
    + intros K. split; [by rewrite <- surjective_pairing|auto].
  - apply refine_sized_seek; [done|done|intros ->; apply Hwh; by right|intros ->; apply Hwh; by left].
Qed.

(** C1: A descriptor of the table behaves as a file with an offset.  When the library
    has a file behind the handle and the kernel keeps the offset of the descriptor, any
    sequence of [defuse_read], [defuse_write] and [defuse_lseek] returns, and its
    results, data and final file are a trace of the file: each call transfers some of
    the bytes that it is asked for at the offset and moves the offset behind them, or
    fails with -1, or, when the lock is refused, reports the end of the file with
    nothing changed.  In a world that refuses nothing they are exactly those of the
    functional specification.  Transfers are of at most [MAX_RW_COUNT] bytes, and a
    seek from the end asks for an offset that its type can hold; the result of a seek
    is cut to an [int], and an offset beyond the largest one of the file system is
    not stored. *)
Theorem descriptor_refines_file os p w fhd fd f :
  descriptor_repr p w fhd fd f -> file_ops_ok offset_max os f ->
  exists rs f' w', file_run fhd fd os (p, w) = Ret (rs, (p, w')) /\ file_trace offset_max f os rs f' /\
    descriptor_repr p w' fhd fd f' /\ (ready w -> (rs, f') = spec_file_run offset_max os f).
Proof.
  revert w f. induction os as [|o os IH]; intros w f Hd Hok; cbn [file_run spec_file_run].
  { exists [], f, w. split; [done|]. split; [constructor|]. done. }
  destruct (file_ops_ok_cons _ _ _ _ Hok) as [Ho Hok'].
  destruct (refine_op o p w fhd fd f Hd Ho) as (r & f1 & w1 & E1 & Hst & Hd1 & Hr1).
  destruct (IH w1 f1 Hd1 (Hok' _ _ Hst)) as (rs & f2 & w2 & E2 & Htr & Hd2 & Hr2).
  rewrite (pbind_ret _ _ _ _ _ E1), (pbind_ret _ _ _ _ _ E2). exists (r :: rs), f2, w2.
  split; [done|]. split; [by econstructor|]. split; [done|]. intros K. destruct (Hr1 K) as [<- K1].
  by rewrite <- (Hr2 K1).
Qed.

(** Offsets from 2 GiB on are reported wrong: [defuse_lseek] returns an
    [int], so a successful seek to 2^31 returns a negative number although the
    offset of the descriptor is the one asked for. *)
Theorem lseek_truncates_result p w fhd fd f :
  descriptor_repr p w fhd fd f -> 2 ^ 31 <= offset_max ->
  exists w', defuse_lseek fhd fd (2 ^ 31) SEEK_SET (p, w) = Ret (- 2 ^ 31, (p, w')) /\
    position w' fd = Some (2 ^ 31).
Proof.
  intros Hd Hmax. destruct f as [c o].
  destruct (refine_kernel_seek p w fhd fd c o (2 ^ 31) (2 ^ 31) SEEK_SET Hd) as (w' & E & Hd' & _); [by left|done|].
  unfold in_file in *. rewrite in_file_true in * by lia. exists w'. split; [exact E|]. apply Hd'.
Qed.
End Refinement.

(** ** Opening and closing *)

Section OpenClose.
Context {W : Type} `{RealOps W, Sys W, Usfs W}.
Implicit Types (p : process) (w : W).

Lemma table_ret p w {A} (g : file_handle_table -> outcome (A * file_handle_table)) a st :
  g (fht p) = Ret (a, st) -> table g (p, w) = Ret (a, (set_fht st p, w)).
Proof. intros E. unfold table, pzoom. cbn [fst snd]. by rewrite E. Qed.

Lemma remove_repr st t fd d :
  table_repr st t -> 0 <= fd < MAX_FILES -> t !! fd = Some d ->
  exists st', remove_file_handle fd st = Ret (0, st') /\ table_repr st' (delete fd t).
Proof.
  intros Hr Hfd Ht. destruct (simulate_remove st t fd Hr ltac:(lia)) as (st' & E & Hr').
  cbn [table_op_exec spec_op] in E, Hr'. rewrite geb_false, Ht in E, Hr' by lia. exists st'. split; [|done].
  unfold mbind, outcome_bind in E. destruct (remove_file_handle fd st) as [[rv st1]| |]; try discriminate.
  by injection E as -> ->.
Qed.

(** C39: Opening and closing balance. When the library opens the file and the
    kernel opens a descriptor that the table has room for, [defuse_open]
    returns the descriptor and the table maps it to the handle of the library;
    closing it later calls the [close] of the library with that handle and
    then the kernel's, and leaves the table as it was before the open. *)
Theorem open_close_balanced p w t mp m cpath filename flags mode fh fd w1 w2 :
  table_repr (fht p) t -> mounts p !! mp = Some m -> mp_open m <> 0 -> mp_close m <> 0 ->
  call_open (mp_open m) cpath flags mode w = ((0, fh), w1) ->
  real_open filename O_RDONLY 0 w1 = Ret (fd, w2) -> 0 <= fd < MAX_FILES -> t !! fd = None ->
  exists p1, defuse_open mp cpath filename flags mode (p, w) = Ret (fd, (p1, w2)) /\
    table_repr (fht p1) (<[fd := FHD fh mp]> t) /\
    forall w3 w4 w5 r, call_close (mp_close m) fh w3 = (0, w4) -> real_close fd w4 = Ret (r, w5) ->
      exists p2, defuse_close (FHD fh mp) fd (p1, w3) = Ret (r, (p2, w5)) /\ table_repr (fht p2) t.
Proof.
  intros Hr Hm Ho Hc Eo Ek Hfd Ht.
  destruct (insert_repr (fht p) t fd (FHD fh mp) Hr Hfd Ht) as (st & Ei & Hri).
  exists (set_fht st p). split; [|split; [done|]].
  - unfold defuse_open. rewrite (pbind_ret _ _ _ _ _ (mount_of_ret _ _ _ _ Hm)), (pbind_ret _ _ _ _ _ (pointer_ret _ _ Ho)).
    rewrite (pbind_ret _ _ _ _ _ (sys_call _ p _)), Eo. cbn [fst snd Z.eqb].
    rewrite (pbind_ret _ _ _ _ _ (sys_ret _ p _ _ _ Ek)). destruct (Z.geb_spec fd 0); [|lia].
    by rewrite (pbind_ret _ _ _ _ _ (table_ret _ _ _ _ _ Ei)).
  - intros w3 w4 w5 r Ec Erc.
    destruct (remove_repr st (<[fd := FHD fh mp]> t) fd (FHD fh mp) Hri Hfd) as (st' & Er & Hrr);
      [by rewrite lookup_insert_eq|].
    exists (set_fht st' (set_fht st p)). split.
    + unfold defuse_close. cbn [mount file_handle].
      rewrite (pbind_ret _ _ _ _ _ (mount_of_ret (set_fht st p) _ _ _ Hm)), (pbind_ret _ _ _ _ _ (pointer_ret _ _ Hc)).
      rewrite (pbind_ret _ _ _ _ _ (sys_call _ _ _)), Ec. cbn [fst snd Z.eqb negb].
      rewrite (pbind_ret _ _ _ _ _ (table_ret (set_fht st p) w4 _ _ _ Er)). cbn [Z.eqb].
      by rewrite (sys_ret _ _ _ _ _ Erc).
    + cbn [fht set_fht]. by rewrite delete_insert_id in Hrr.
Qed.

(** The error paths of [defuse_read]. A lock that is refused, by another
    process that writes, is reported as the end of the file: the result is 0.
    When the library fails, its error number becomes [errno], but the lock that
    was taken is not released. *)
Theorem read_error_paths p w fhd fd count m :
  mounts p !! mount fhd = Some m -> mp_read m <> 0 ->
  (forall w1, setlk fd F_RDLCK w = (-1, w1) -> defuse_read fhd fd count (p, w) = Ret ((0, []), (p, w1))) /\
  (forall r w1 o w2 e data n w3, setlk fd F_RDLCK w = (r, w1) -> r <> -1 ->
     real_lseek fd 0 SEEK_CUR w1 = Ret (o, w2) -> o <> -1 ->
     call_read (mp_read m) (file_handle fhd) count o w2 = ((e, data, n), w3) -> e <> 0 ->
     defuse_read fhd fd count (p, w) = Ret ((-1, data), (p, set_errno e w3))).
Proof.
  intros Hm Hr. unfold defuse_read. rewrite (pbind_ret _ _ _ _ _ (sys_call _ p _)). split.
  - intros w1 E. by rewrite E.
  - intros r w1 o w2 e data n w3 E1 Hr1 E2 Ho E3 He. rewrite E1. cbn [fst snd].
    destruct (Z.eqb_spec r (-1)); [done|]. rewrite (pbind_ret _ _ _ _ _ (sys_ret _ p _ _ _ E2)).
    destruct (Z.eqb_spec o (-1)); [done|]. cbn [negb].
    rewrite (pbind_ret _ _ _ _ _ (mount_of_ret _ _ _ _ Hm)), (pbind_ret _ _ _ _ _ (pointer_ret _ _ Hr)).
    rewrite (pbind_ret _ _ _ _ _ (sys_call _ p _)), E3. cbn [fst snd]. by destruct (Z.eqb_spec e 0).
Qed.
End OpenClose.

(** ** What an open that fails leaves behind *)

Class HandleLaws (W : Type) `{RealOps W, Sys W, Usfs W} := {
  (** the open handles of the library of a mount *)
  lib_handles : W -> mount_point_data -> gset Z;
  (** the descriptors that are open in the process, those of the libraries apart *)
  real_fds : W -> gset Z;
  (** src/interface.h *)
  lib_open_adds m path flags mode w : let '((e, fh), w') := call_open (mp_open m) path flags mode w in
    real_fds w' = real_fds w /\
    if e =? 0 then fh ∉ lib_handles w m /\ lib_handles w' m = {[fh]} ∪ lib_handles w m else lib_handles w' m = lib_handles w m;
  (** as close(2), which gives the descriptor up also when it fails *)
  lib_close_drops m fh w : let (_, w') := call_close (mp_close m) fh w in
    real_fds w' = real_fds w /\ lib_handles w' m = lib_handles w m ∖ {[fh]};
  (** open(2) *)
  real_open_adds path flags mode w : exists fd w', real_open path flags mode w = Ret (fd, w') /\
    (forall m, lib_handles w' m = lib_handles w m) /\
    (fd = -1 /\ real_fds w' = real_fds w \/ 0 <= fd /\ fd ∉ real_fds w /\ real_fds w' = {[fd]} ∪ real_fds w);
  errno_handles e w : real_fds (set_errno e w) = real_fds w /\ forall m, lib_handles (set_errno e w) m = lib_handles w m }.

Section Resources.
Context {W : Type} `{HandleLaws W}.
Implicit Types (p : process) (w : W).



End Resources.
