(* ===== verification/ToyWorld.v ===== *)
(** * A small world

    A world in which the laws of World.v and Syscalls.v hold: files and open
    descriptors in finite maps, mappings as copies that are written back when
    they are unmapped, one library whose files are in another map; a limit makes the
    library transfer less than it is asked for, or the system refuse locks.  The
    theorems about the library code are applied to it below. *)

From Stdlib Require Import ZArith Lia Ascii String.
From stdpp Require Import base list gmap strings.
From S2P Require Import Prelude FileHandles Paths World MountPoints Process Syscalls.

Local Open Scope Z_scope.

Record toy := Toy {
  t_errno : Z;
  t_pid : Z;
  t_files : gmap (list ascii) (list ascii);
  t_fds : gmap Z (list ascii * Z);
  t_maps : gmap Z mapping;
  t_next : nat;
  (** the files of the library and its open handles *)
  t_usfs : gmap (list ascii) (list ascii);
  t_handles : gmap Z (list ascii);
  (** the most bytes the library transfers at a time; locks are refused at 0 *)
  t_limit : option nat }.

Definition with_errno v w := Toy v (t_pid w) (t_files w) (t_fds w) (t_maps w) (t_next w) (t_usfs w) (t_handles w) (t_limit w).
Definition with_files v w := Toy (t_errno w) (t_pid w) v (t_fds w) (t_maps w) (t_next w) (t_usfs w) (t_handles w) (t_limit w).
Definition with_fds v w := Toy (t_errno w) (t_pid w) (t_files w) v (t_maps w) (t_next w) (t_usfs w) (t_handles w) (t_limit w).
Definition with_maps v w := Toy (t_errno w) (t_pid w) (t_files w) (t_fds w) v (t_next w) (t_usfs w) (t_handles w) (t_limit w).
Definition with_next v w := Toy (t_errno w) (t_pid w) (t_files w) (t_fds w) (t_maps w) v (t_usfs w) (t_handles w) (t_limit w).
Definition with_usfs v w := Toy (t_errno w) (t_pid w) (t_files w) (t_fds w) (t_maps w) (t_next w) v (t_handles w) (t_limit w).
Definition with_handles v w := Toy (t_errno w) (t_pid w) (t_files w) (t_fds w) (t_maps w) (t_next w) (t_usfs w) v (t_limit w).

Definition with_limit v w := Toy (t_errno w) (t_pid w) (t_files w) (t_fds w) (t_maps w) (t_next w) (t_usfs w) (t_handles w) v.

Definition toy_empty : toy := Toy 0 7 ∅ ∅ ∅ 3 ∅ ∅ None.

(** A number from [n] on that is not a key. *)
Definition above {A} (m : gmap Z A) (n : Z) : Z := map_fold (fun k _ acc => Z.max acc (k + 1)) n m.

Lemma above_gt {A} (m : gmap Z A) n : n <= above m n /\ forall k, is_Some (m !! k) -> k < above m n.
Proof.
  unfold above. apply (map_fold_weak_ind (fun r (m : gmap Z A) => n <= r /\ forall k, is_Some (m !! k) -> k < r)).
  - split; [lia|]. intros k [x Hx]. by rewrite lookup_empty in Hx.
  - intros i x m' r _ [Hn Hk]. split; [lia|]. intros k [y Hy].
    apply lookup_insert_Some in Hy as [[-> _]|[_ Hy]]; [lia|]. specialize (Hk k ltac:(eauto)). lia.
Qed.

Lemma above_fresh {A} (m : gmap Z A) n : m !! above m n = None.
Proof. destruct (m !! above m n) eqn:E; [|done]. pose proof (proj2 (above_gt m n) (above m n) ltac:(eauto)). lia. Qed.

(** ** The system *)

Definition toy_open (p : list ascii) (flags mode : Z) : prog toy Z := fun w =>
  let c := t_files w !! p in
  if bool_decide (is_Some c) || negb (Z.land flags O_CREAT =? 0) then
    let c := if negb (Z.land flags O_TRUNC =? 0) then [] else default [] c in
    let fd := above (t_fds w) (Z.of_nat (t_next w)) in
    Ret (fd, with_next (S (t_next w)) (with_fds (<[fd := (p, 0)]> (t_fds w)) (with_files (<[p := c]> (t_files w)) w)))
  else Ret (-1, with_errno ENOENT w).

Definition toy_contents (w : toy) (fd : Z) : option (list ascii) :=
  '(p, _) ← t_fds w !! fd; t_files w !! p.

Definition toy_mmap (n fd : Z) : prog toy (option Z) := fun w =>
  if n =? 0 then Ret (None, with_errno EINVAL w)
  else match t_fds w !! fd with
  | Some (p, _) =>
      match t_files w !! p with
      | Some c =>
          let a := Z.of_nat (t_next w) in
          Ret (Some a, with_next (S (t_next w)) (with_maps (<[a := Mapping p (length c) (page_pad c)]> (t_maps w)) w))
      | None => Ret (None, with_errno EBADF w)
      end
  | None => Ret (None, with_errno EBADF w)
  end.

Definition toy_read (fd n : Z) : prog toy (Z * list ascii) := fun w =>
  match t_fds w !! fd with
  | Some (p, o) =>
      let data := read_at (default [] (t_files w !! p)) o n in
      Ret ((Z.of_nat (length data), data), with_fds (<[fd := (p, o + Z.of_nat (length data))]> (t_fds w)) w)
  | None => Ret ((-1, []), with_errno EBADF w)
  end.

Definition toy_close (fd : Z) : prog toy Z := fun w => Ret (0, with_fds (delete fd (t_fds w)) w).

Definition toy_lseek (fd off wh : Z) : prog toy Z := fun w =>
  match t_fds w !! fd with
  | Some (p, o) =>
      let size := Z.of_nat (length (default [] (t_files w !! p))) in
      let o' := if wh =? SEEK_SET then off else if wh =? SEEK_CUR then o + off else size + off in
      if (o' <? 0) || negb (wh =? SEEK_END) && (2 ^ 63 - 1 <? o') then Ret (-1, with_errno EINVAL w)
      else Ret (o', with_fds (<[fd := (p, o')]> (t_fds w)) w)
  | None => Ret (-1, with_errno EBADF w)
  end.

Definition toy_ftruncate (fd n : Z) : prog toy Z := fun w =>
  match t_fds w !! fd with
  | Some (p, _) =>
      let c := default [] (t_files w !! p) in
      let k := Z.to_nat n in
      Ret (0, with_files (<[p := take k c ++ replicate (k - length c) nul]> (t_files w)) w)
  | None => Ret (-1, with_errno EBADF w)
  end.

#[export] Instance toy_real : RealOps toy := {
  real_open := toy_open; real_mmap := toy_mmap; real_read := toy_read; real_close := toy_close;
  real_lseek := toy_lseek; real_ftruncate := toy_ftruncate }.

Definition toy_munmap (a n : Z) (w : toy) : Z * toy :=
  match t_maps w !! a with
  | Some m => (0, with_maps (delete a (t_maps w)) (with_files (<[m_file m := take (m_size m) (m_bytes m)]> (t_files w)) w))
  | None => (-1, w)
  end.

Definition in_mapping (m : mapping) (off : Z) (n : nat) : bool :=
  (0 <=? off) && (Z.to_nat off + n <=? length (m_bytes m))%nat.

Definition toy_load (a off : Z) (n : nat) (w : toy) : outcome (list ascii) :=
  match t_maps w !! a with
  | Some m => if in_mapping m off n then Ret (take n (drop (Z.to_nat off) (m_bytes m))) else Undef
  | None => Undef
  end.

Definition toy_store (a off : Z) (bs : list ascii) (w : toy) : outcome toy :=
  match t_maps w !! a with
  | Some m =>
      if in_mapping m off (length bs) then
        Ret (with_maps (<[a := Mapping (m_file m) (m_size m) (splice (m_bytes m) (Z.to_nat off) bs)]> (t_maps w)) w)
      else Undef
  | None => Undef
  end.

Definition toy_string (a off : Z) (w : toy) : outcome (list ascii) :=
  match t_maps w !! a with
  | Some m => if 0 <=? off then cstring (drop (Z.to_nat off) (m_bytes m)) else Undef
  | None => Undef
  end.

#[export] Instance toy_sys : Sys toy := {
  errno := t_errno; set_errno := with_errno; getpid := t_pid; current_dir := fun _ => Some (lit "/");
  setlk := fun _ _ w => (if bool_decide (t_limit w = Some 0%nat) then -1 else 0, w); munmap := toy_munmap; map_load := toy_load; map_store := toy_store;
  map_string := toy_string }.

(** ** The library *)

Definition toy_symbol (h : Z) (n : list ascii) : option Z :=
  if (h =? 1) && negb (bool_decide (n = lit "usfs_finalize")) then
    (fun r => Z.of_nat (S r.1)) <$> list_find (fun t : list ascii * target * bool => t.1.1 = n) targets
  else None.

Definition toy_handle (p : list ascii) : option Z := if bool_decide (p = lit "/lib/toy.so") then Some 1 else None.

Definition toy_stat (size : Z) : stat := Stat 0 0 33188 1 0 0 0 size 4096 0 0 0 0.

Definition toy_lib_open (path : list ascii) (flags : Z) (w : toy) : (Z * Z) * toy :=
  let c := t_usfs w !! path in
  if bool_decide (is_Some c) || negb (Z.land flags O_CREAT =? 0) then
    let fh := above (t_handles w) (Z.of_nat (t_next w)) in
    ((0, fh), with_next (S (t_next w)) (with_handles (<[fh := path]> (t_handles w))
                (with_usfs (<[path := default [] c]> (t_usfs w)) w)))
  else ((ENOENT, 0), w).

Definition lib_content (w : toy) (fh : Z) : option (list ascii * list ascii) :=
  match t_handles w !! fh with
  | Some path => match t_usfs w !! path with Some c => Some (path, c) | None => None end
  | None => None
  end.

Definition limited (k : option nat) (l : list ascii) : list ascii := match k with Some k => take k l | None => l end.

Definition toy_lib_read (fh n off : Z) (w : toy) : (Z * list ascii * Z) * toy :=
  match lib_content w fh with
  | Some (_, c) => let data := limited (t_limit w) (read_at c off n) in ((0, data, Z.of_nat (length data)), w)
  | None => ((EBADF, [], 0), w)
  end.

Definition toy_lib_write (fh : Z) (bs : list ascii) (off : Z) (w : toy) : (Z * Z) * toy :=
  match lib_content w fh with
  | Some (path, c) =>
      let bs := limited (t_limit w) bs in
      ((0, Z.of_nat (length bs)), with_usfs (<[path := write_at c off bs]> (t_usfs w)) w)
  | None => ((EBADF, 0), w)
  end.

Definition toy_lib_fgetattr (fh : Z) (w : toy) : (Z * stat) * toy :=
  match lib_content w fh with
  | Some (_, c) => ((0, toy_stat (Z.of_nat (length c))), w)
  | None => ((EBADF, toy_stat 0), w)
  end.

Definition toy_lib_path {A} (d : A) (f : list ascii -> A) (path : list ascii) (w : toy) : (Z * A) * toy :=
  match t_usfs w !! path with
  | Some c => ((0, f c), w)
  | None => ((ENOENT, d), w)
  end.

#[export] Instance toy_usfs : Usfs toy := {
  dlopen := fun p w => (toy_handle p, w);
  dlsym := fun h n w => (toy_symbol h n, w);
  dlclose := fun _ w => w;
  call_init := fun _ _ _ w => w;
  call_access := fun _ p _ w => let '((r, _), w) := toy_lib_path tt (fun _ => tt) p w in (r, w);
  call_open := fun _ p fl _ => toy_lib_open p fl;
  call_close := fun _ fh w =>
    if bool_decide (is_Some (t_handles w !! fh)) then (0, with_handles (delete fh (t_handles w)) w) else (EBADF, w);
  call_getattr := fun _ p _ w => toy_lib_path (toy_stat 0) (fun c => toy_stat (Z.of_nat (length c))) p w;
  call_fgetattr := fun _ fh => toy_lib_fgetattr fh;
  call_fsync := fun _ _ _ w => (0, w);
  call_ftruncate := fun _ _ _ w => (ENOSYS, w);
  call_truncate := fun _ _ _ w => (ENOSYS, w);
  call_read := fun _ fh n off => toy_lib_read fh n off;
  call_write := fun _ fh bs off => toy_lib_write fh bs off;
  call_unlink := fun _ p w => (0, with_usfs (delete p (t_usfs w)) w);
  call_readlink := fun _ p _ w => ((EINVAL, [], 0), w);
  call_save := fun _ _ w => (0, w);
  call_restore := fun _ _ w => (0, w) }.

(** ** The laws *)

#[export] Instance toy_dl_laws : DlLaws toy.
Proof.
  refine {| lib_handle := toy_handle; lib_symbol := toy_symbol |}; [done|done|].
  intros h n f. unfold toy_symbol. destruct (_ && _); [|done].
  destruct (list_find _ _) as [[i x]|]; [|done]. intros [= <-]. lia.
Defined.

#[export] Instance toy_read_laws : ReadLaws toy.
Proof.
  refine {| reads_as := fun w fd s => exists p o c, t_fds w !! fd = Some (p, o) /\ 0 <= o /\
    t_files w !! p = Some c /\ drop (Z.to_nat o) c = s |}; try (intros; assumption).
  - intros w fd c s (p & o & b & Hfd & Ho & Hp & Hd). cbn [real_read toy_real]. unfold toy_read.
    rewrite Hfd, Hp. change (default [] (Some b)) with b. unfold read_at. rewrite Hd. cbn [take length Z.to_nat Pos.to_nat Pos.iter_op Init.Nat.add]. eexists. split; [reflexivity|].
    exists p, (o + 1), b. cbn [t_fds with_fds t_files]. rewrite lookup_insert_eq. repeat split; try done; [lia|].
    replace (Z.to_nat (o + 1)) with (Z.to_nat o + 1)%nat by lia. by rewrite <- drop_drop, Hd.
  - intros w fd (p & o & b & Hfd & Ho & Hp & Hd). cbn [real_read toy_real]. unfold toy_read.
    rewrite Hfd, Hp. change (default [] (Some b)) with b. unfold read_at. rewrite Hd. cbn [take length].
    eexists. split; [reflexivity|]. exists p, (o + 0), b. cbn [t_fds with_fds t_files].
    rewrite lookup_insert_eq. repeat split; try done; [lia|]. by rewrite Z.add_0_r.
Defined.

#[export] Instance toy_file_laws : FileLaws toy.
Proof.
  refine {| file := fun w p => t_files w !! p; fd_name := fun w fd => fst <$> t_fds w !! fd;
            mapped := fun w a => t_maps w !! a |}; cbn [real_open real_mmap real_close real_ftruncate
            toy_real toy_sys toy_usfs setlk munmap map_load map_store map_string getpid call_save call_restore].
  - intros p fl md w. unfold toy_open. pose proof (proj1 (above_gt (t_fds w) (Z.of_nat (t_next w)))).
    destruct (_ || _); eexists _, _; (split; [reflexivity|lia]).
  - intros fd n w. unfold toy_ftruncate. destruct (t_fds w !! fd) as [[p o]|]; eexists _, _; split; eauto.
  - intros n fd w. unfold toy_mmap. destruct (n =? 0); [done|]. destruct (t_fds w !! fd) as [[p o]|]; [|done].
    by destruct (t_files w !! p).
  - intros p fl md w fd w'. unfold toy_open. destruct (_ || _) eqn:E; intros [= <- <-] Hfd; [|lia].
    cbn [t_fds t_files t_pid with_next with_fds with_files]. rewrite lookup_insert_eq, lookup_insert_eq.
    split; [done|]. split; [eauto|]. split; [|done]. intros c -> Hz. by rewrite Hz.
  - intros fd n w p w'. unfold toy_ftruncate. destruct (t_fds w !! fd) as [[p' o]|] eqn:E; [|done].
    intros [= <-] [= ->] Hn. cbn [t_fds t_files t_pid with_files]. rewrite E, lookup_insert_eq.
    split; [done|]. split; [|done]. eexists. split; [reflexivity|].
    rewrite length_app, length_take, length_replicate. lia.
  - done.
  - intros n fd w a p c w'. unfold toy_mmap. destruct (n =? 0); [done|]. destruct (t_fds w !! fd) as [[p' o]|] eqn:E; [|done].
    intros Hm [= ->] Hc Hn. rewrite Hc in Hm. injection Hm as <- <-.
    cbn [t_maps t_pid with_next with_maps]. by rewrite lookup_insert_eq.
  - intros a n w m Hm. unfold toy_munmap. rewrite Hm. cbn [snd t_files t_pid with_maps with_files].
    by rewrite lookup_insert_eq.
  - intros fd w. eexists _, _. split; [reflexivity|]. done.
  - intros a m off n w Hm Ho Hl. unfold toy_load, in_mapping. rewrite Hm.
    destruct (Z.leb_spec 0 off); [|lia]. destruct (Nat.leb_spec (Z.to_nat off + n) (length (m_bytes m))); [done|lia].
  - intros a m off w Hm Ho. unfold toy_string. rewrite Hm. destruct (Z.leb_spec 0 off); [done|lia].
  - intros a m off bs w Hm Ho Hl. unfold toy_store, in_mapping. rewrite Hm.
    destruct (Z.leb_spec 0 off); [|lia]. destruct (Nat.leb_spec (Z.to_nat off + length bs) (length (m_bytes m))); [|lia].
    eexists. split; [reflexivity|]. cbn [t_maps t_pid with_maps]. by rewrite lookup_insert_eq.
  - intros a m off bs w Hm Ho Hl. unfold toy_store, in_mapping. rewrite Hm.
    destruct (Z.leb_spec 0 off); [|done]. destruct (Nat.leb_spec (Z.to_nat off + length bs) (length (m_bytes m))); [lia|done].
  - done.
  - done.
  - done.
  - done.
  - intros fd off wh w p c Hn Hc. unfold real_lseek, toy_real, toy_lseek.
    destruct (t_fds w !! fd) as [[p' o]|] eqn:E; [|done]. injection Hn as ->. rewrite Hc.
    change (default [] (Some c)) with c.
    set (o' := if wh =? SEEK_SET then off else if wh =? SEEK_CUR then o + off else Z.of_nat (length c) + off).
    destruct (_ || _) eqn:Eb; (eexists _, _; split; [reflexivity|]); (split; [intros -> ->|]);
      cbn [t_fds t_files with_errno with_fds]; try done.
    + unfold o' in Eb. cbn [Z.eqb SEEK_SET SEEK_END SEEK_CUR Pos.eqb negb andb orb] in Eb. bools. lia.
    + unfold o'. cbn [Z.eqb SEEK_SET SEEK_END SEEK_CUR Pos.eqb]. lia.
    + split; [|done]. intros fd'. destruct (decide (fd' = fd)) as [->|]; [by rewrite lookup_insert_eq, E|by rewrite lookup_insert_ne].
Defined.

Lemma length_limited k l : (length (limited k l) <= length l)%nat /\ limited k l = take (length (limited k l)) l.
Proof.
  destruct k as [k|]; cbn [limited]; [|by rewrite firstn_all].
  rewrite length_take. split; [lia|]. destruct (Nat.le_ge_cases k (length l)).
  - by rewrite Nat.min_l.
  - by rewrite Nat.min_r, firstn_all, take_ge.
Qed.

#[export] Instance toy_offset_laws : OffsetLaws toy.
Proof.
  refine {| position := fun w fd => snd <$> t_fds w !! fd; offset_max := 2 ^ 63 - 1;
            serves := fun w _ fh c => exists path, lib_content w fh = Some (path, c) |};
    cbn [real_lseek toy_real setlk set_errno toy_sys call_read call_write call_fgetattr toy_usfs].
  - lia.
  - intros fd off wh w o Hp Hwh. unfold toy_lseek. destruct (t_fds w !! fd) as [[p o0]|] eqn:E; [|done].
    injection Hp as ->.
    replace (if wh =? SEEK_SET then off else if wh =? SEEK_CUR then o + off else _)
      with (if wh =? SEEK_SET then off else o + off) by (by destruct Hwh as [-> | ->]).
    replace (negb (wh =? SEEK_END)) with true by (by destruct Hwh as [-> | ->]). cbn [andb].
    set (o' := if wh =? SEEK_SET then off else o + off). set (fits := (0 <=? o') && (o' <=? 2 ^ 63 - 1)).
    assert ((o' <? 0) || (2 ^ 63 - 1 <? o') = negb fits) as ->.
    { unfold fits. rewrite negb_andb, !Z.leb_antisym, !negb_involutive. done. }
    destruct fits; (eexists; split; [reflexivity|]); cbn [t_fds with_errno with_fds].
    + by rewrite lookup_insert_eq.
    + by rewrite E.
  - done.
  - done.
  - intros m fh c n off w (path & Hc) Ho Hn. unfold toy_lib_read. rewrite Hc. split; [|eauto]. intros _.
    destruct (length_limited (t_limit w) (read_at c off n)) as [Hl He]. split; [lia|]. by rewrite Nat2Z.id.
  - intros m fh c bs off w (path & Hc) Ho Hn. unfold toy_lib_write. rewrite Hc.
    exists (write_at c off (limited (t_limit w) bs)). destruct (length_limited (t_limit w) bs) as [Hl He]. split.
    + split; [|done]. intros _. split; [lia|]. by rewrite Nat2Z.id, <- He.
    + split; [|done]. exists path. unfold lib_content in *. cbn [t_handles t_usfs with_usfs].
      destruct (t_handles w !! fh) as [path'|]; [|done]. destruct (t_usfs w !! path') as [c'|]; [|done].
      injection Hc as -> ->. by rewrite lookup_insert_eq.
  - intros m fh c w (path & Hc). unfold toy_lib_fgetattr. rewrite Hc. split; [done|]. eauto.
Defined.

#[export] Instance toy_ready_laws : ReadyLaws toy.
Proof.
  refine {| ready := fun w => t_limit w = None |};
    cbn [real_lseek toy_real setlk set_errno toy_sys call_read call_write call_fgetattr toy_usfs serves toy_offset_laws].
  - intros fd t w Hr. cbn [fst snd]. by rewrite Hr.
  - intros fd off wh w r w' Hr. unfold toy_lseek. destruct (t_fds w !! fd) as [[p o]|]; [|by intros [= _ <-]].
    destruct (_ || _); by intros [= _ <-].
  - done.
  - intros m fh c n off w Hr (path & Hc) _ _. unfold toy_lib_read. rewrite Hc, Hr. done.
  - intros m fh c bs off w Hr (path & Hc) _ _. unfold toy_lib_write. rewrite Hc, Hr. done.
  - intros m fh c w Hr (path & Hc). unfold toy_lib_fgetattr. by rewrite Hc.
Defined.

#[export] Instance toy_handle_laws : HandleLaws toy.
Proof.
  refine {| lib_handles := fun w _ => dom (t_handles w); real_fds := fun w => dom (t_fds w) |};
    cbn [real_open toy_real set_errno toy_sys call_open call_close toy_usfs].
  - intros m path flags mode w. unfold toy_lib_open. destruct (_ || _); [|done].
    cbn [t_fds t_handles with_next with_handles with_usfs Z.eqb]. split; [done|]. split.
    + apply not_elem_of_dom, above_fresh.
    + by rewrite dom_insert_L.
  - intros m fh w. case_bool_decide as Hb; cbn [t_fds t_handles with_handles].
    + by rewrite dom_delete_L.
    + split; [done|]. apply not_elem_of_dom_2 in Hb || (rewrite <- elem_of_dom in Hb). set_solver.
  - intros path flags mode w. unfold toy_open. destruct (_ || _); eexists _, _; (split; [reflexivity|]); (split; [done|]); [right|by left].
    cbn [t_fds with_next with_fds with_files]. split; [pose proof (proj1 (above_gt (t_fds w) (Z.of_nat (t_next w)))); lia|].
    split; [apply not_elem_of_dom, above_fresh|by rewrite dom_insert_L].
  - done.
Defined.

(** ** Applications: mounts *)

Definition toy_lines : list mount_line :=
  [Other (lit "proc /proc proc rw 0 0"); Entry (lit "/mnt/a") (lit "/data") (lit "/lib/toy.so");
   Entry (lit "/mnt/b") (lit "/more") (lit "/lib/toy.so")].

Definition toy_text (ls : list mount_line) : toy := with_files {[lit "/proc/mounts" := table_text ls]} toy_empty.

Definition nonulb (s : list ascii) : bool := negb (existsb (Ascii.eqb nul) s).
Definition notinb (c : ascii) (s : list ascii) : bool := negb (existsb (Ascii.eqb c) s).

Lemma notinb_spec c s : notinb c s = true -> c ∉ s.
Proof.
  unfold notinb. intros Hn Hin. apply negb_true_iff in Hn. apply list_elem_of_In in Hin.
  assert (existsb (Ascii.eqb c) s = true) as E; [|congruence].
  apply existsb_exists. exists c. split; [done|]. apply Ascii.eqb_refl.
Qed.

(** [line_ok] as a test. *)
Definition line_okb (l : mount_line) : bool :=
  notinb newline (line_text l) && notinb nul (line_text l) &&
  (0 <? length (line_text l))%nat && (length (line_text l) <? 512)%nat &&
  match l with
  | Other s => negb (prefixb (lit "defuse") s)
  | Entry mp b lib =>
      (0 <? length mp)%nat && (0 <? length b)%nat && (0 <? length lib)%nat &&
      notinb "=" mp && notinb "=" b && forallb (fun c => negb (isspace c)) mp &&
      forallb option_char b && forallb option_char lib
  end.

Lemma forallb_Forall {A} (f : A -> bool) l : forallb f l = true -> Forall (fun a => f a = true) l.
Proof. rewrite forallb_forall, Forall_forall. intros Hf x Hx. apply Hf. by apply list_elem_of_In. Qed.

Lemma line_okb_spec l : line_okb l = true -> line_ok l.
Proof.
  unfold line_okb, line_ok. intros Hl.
  repeat match type of Hl with _ && _ = true => apply andb_true_iff in Hl as [Hl ?] end. bools.
  split; [by apply notinb_spec|]. split; [by apply notinb_spec|]. split; [lia|].
  destruct l as [s|mp b lib]; [by bools|].
  repeat match goal with H : _ && _ = true |- _ => apply andb_true_iff in H as [? ?] end. bools.
  split; [by destruct mp; simpl in *; [lia|]|]. split; [by destruct b; simpl in *; [lia|]|].
  split; [by destruct lib; simpl in *; [lia|]|].
  split; [by apply notinb_spec|]. split; [by apply notinb_spec|]. split; [|by split; apply forallb_Forall].
  eapply Forall_impl; [by apply forallb_Forall|]. intros c Hc. cbn beta in Hc. by bools.
Qed.

Lemma lines_ok_dec ls : forallb line_okb ls = true -> Forall line_ok ls.
Proof. intros Hl. eapply Forall_impl; [by apply forallb_Forall|]. apply line_okb_spec. Qed.

Lemma load_mounts_roundtrip_witness :
  exists w', load_mounts_from_file 4 (replicate 512 nul) (lit "/proc/mounts") [] (toy_text toy_lines) =
    Ret (entry_mounts 0 (entries toy_lines), w').
Proof.
  apply (load_mounts_roundtrip (W := toy) toy_lines 4 (replicate 512 nul) (lit "/proc/mounts") 3 (toy_text toy_lines)
    (with_next 4 (with_fds {[3 := (lit "/proc/mounts", 0)]} (toy_text toy_lines)))).
  - apply lines_ok_dec. reflexivity.
  - apply (forallb_Forall (fun e : list ascii * list ascii * list ascii => loadable (W := toy) e.2)). vm_compute. reflexivity.
  - apply Nat.leb_le. reflexivity.
  - apply length_replicate.
  - apply Nat.ltb_lt. reflexivity.
  - vm_compute. reflexivity.
  - lia.
  - exists (lit "/proc/mounts"), 0, (table_text toy_lines). repeat split; lia || reflexivity.
  - intros w. eexists. reflexivity.
Defined.

Definition toy_many : list mount_line := replicate 17 (Entry (lit "/mnt/a") (lit "/data") (lit "/lib/toy.so")).

Lemma load_mounts_overflow_witness :
  load_mounts_from_file 18 (replicate 512 nul) (lit "/proc/mounts") [] (toy_text toy_many) = Undef.
Proof.
  apply (load_mounts_overflow (W := toy) toy_many 18 (replicate 512 nul) (lit "/proc/mounts") 3 (toy_text toy_many)
    (with_next 4 (with_fds {[3 := (lit "/proc/mounts", 0)]} (toy_text toy_many)))).
  - apply lines_ok_dec. reflexivity.
  - apply (forallb_Forall (fun e : list ascii * list ascii * list ascii => loadable (W := toy) e.2)). vm_compute. reflexivity.
  - apply Nat.ltb_lt. reflexivity.
  - apply length_replicate.
  - apply Nat.ltb_lt. reflexivity.
  - vm_compute. reflexivity.
  - lia.
  - exists (lit "/proc/mounts"), 0, (table_text toy_many). repeat split; lia || reflexivity.
Defined.

Lemma load_mount_complete_witness :
  exists m w', load_mount (lit "/mnt/a") (lit "/data") (lit "/lib/toy.so") toy_empty = Ret (Some m, w') /\
    mp_read m <> 0 /\ mp_finalize m = 0.
Proof.
  destruct (load_mount_complete (W := toy) (lit "/mnt/a") (lit "/data") (lit "/lib/toy.so") toy_empty)
    as (r & w' & E & [_ Hs] & Hm).
  destruct Hs as [m ->]; [vm_compute; reflexivity|]. destruct (Hm m eq_refl) as (_ & _ & _ & Ht).
  exists m, w'. split; [exact E|]. split.
  - destruct (Ht (lit "usfs_read") T_read true) as [_ Hn]; [|by apply Hn].
    apply list_elem_of_lookup. exists 4%nat. reflexivity.
  - destruct (Ht (lit "usfs_finalize") T_finalize false) as [Hn _]; [|exact Hn].
    apply list_elem_of_lookup. exists 1%nat. reflexivity.
Defined.

(** ** Applications: exec *)

Lemma inserted_repr st t fd d :
  table_repr st t -> 0 <= fd < MAX_FILES -> t !! fd = None -> table_repr (inserted fd d st) (<[fd := d]> t).
Proof.
  intros Hr Hfd Ht. destruct (insert_repr st t fd d Hr Hfd Ht) as (st' & E & Hr').
  destruct (repr_slot st t fd Hr Hfd) as [[Hs _]|(l & o & _ & _ & E')]; [|congruence].
  rewrite (insert_free st (proj1 Hr) fd d Hfd Hs) in E. by injection E as <-.
Qed.

Definition two_handles : gmap Z file_handle_data := <[1 := FHD 8 0]> (<[0 := FHD 7 0]> ∅).

Lemma two_open_repr : table_repr two_open two_handles.
Proof.
  apply inserted_repr; [|unfold MAX_FILES; lia|done].
  apply inserted_repr; [apply get_instance_repr|unfold MAX_FILES; lia|done].
Qed.

(** A process with two files of the first mount open. *)
Definition toy_process (mpd : list mount_point_data) : process :=
  Process two_open mpd true true (SS (-1) 0 NullSpace).

Definition fresh_process (mpd : list mount_point_data) : process :=
  Process FileHandles.get_instance mpd true true (SS (-1) 0 NullSpace).

Lemma toy_process_consistent mpd m :
  mpd !! 0%nat = Some m -> mp_index m = 0 -> Forall (fun m => nonul (mp_mount_path m)) mpd ->
  consistent (toy_process mpd).
Proof.
  intros Hm Hi Hp. destruct two_open_inv as [Hinv Hu]. split; try done.
  cbn [fht toy_process mounts]. intros fd d Hh. rewrite <- (proj2 two_open_repr) in Hh.
  unfold two_handles in Hh. apply lookup_insert_Some in Hh as [[_ <-]|[_ Hh]];
    [|apply lookup_insert_Some in Hh as [[_ <-]|[_ Hh]]; [|by rewrite lookup_empty in Hh]];
    (split; [cbn; lia|by exists m]).
Qed.

Definition toy_mount_a : mount_point_data :=
  Eval vm_compute in entry_mount (W := toy) 0 (lit "/mnt/a", lit "/data", lit "/lib/toy.so").
Definition toy_mount_b : mount_point_data :=
  Eval vm_compute in entry_mount (W := toy) 1 (lit "/mnt/b", lit "/more", lit "/lib/toy.so").
Definition toy_mounts : list mount_point_data := [toy_mount_a; toy_mount_b].

Definition saved_world (mpd : list mount_point_data) : process * toy :=
  match save_file_handles_to_shared_space 0 [] (toy_process mpd, toy_empty) with
  | Ret (_, s) => s
  | _ => (toy_process mpd, toy_empty)
  end.

Lemma saved_world_mapped : exists a s, get_shared_space (fresh_process toy_mounts, (saved_world toy_mounts).2) = Ret (Mapped a, s).
Proof. eexists _, _. vm_compute. reflexivity. Qed.

Lemma exec_hands_over_handles_witness :
  exists p3 w3,
    restore_file_handles_from_shared_space (find_mount_from_path 0 [])
      (fresh_process toy_mounts, (saved_world toy_mounts).2) = Ret (tt, (p3, w3)) /\
    fht_inv (fht p3) /\ forall fd, handle_at (fht p3) fd = handle_at two_open fd.
Proof.
  refine (_ (exec_hands_over_handles (W := toy) 0 [] 0 [] (toy_process toy_mounts) (saved_world toy_mounts).1
    (fresh_process toy_mounts) toy_empty (saved_world toy_mounts).2 (saved_world toy_mounts).2
    _ _ _ _ _ _ _ _ _ _ _ _)).
  - destruct saved_world_mapped as (a & s & E). rewrite E. exact (fun K => K).
  - apply (toy_process_consistent toy_mounts toy_mount_a); [reflexivity|reflexivity|].
    repeat constructor; apply notinb_spec; reflexivity.
  - vm_compute. reflexivity.
  - apply Nat.leb_le. vm_compute. reflexivity.
  - vm_compute. reflexivity.
  - vm_compute. reflexivity.
  - exact (eq_refl (FileHandles.get_instance)).
  - exact (eq_refl true).
  - exact (eq_refl (-1)).
  - exact (eq_refl (map mp_mount_path toy_mounts)).
  - intros i m Hi. destruct i as [|[|i]];
      [injection Hi as <-; vm_compute; reflexivity|injection Hi as <-; vm_compute; reflexivity|done].
  - vm_compute. reflexivity.
  - exact (eq_refl (file (saved_world toy_mounts).2 (space_name toy_empty))).
Defined.

(** Mount points "/m0", "/m1", ... with a component of [k] more characters. *)
Definition numbered_mount (k i : nat) : mount_point_data :=
  MPD (Z.of_nat i) (lit "/m" ++ [ascii_of_nat (48 + i)] ++ replicate k "x"%char) [] [] 0 0 1 1 1 1 1 1 1 1 1 1 1 1 0 0.

Lemma save_overruns_last_page_witness :
  save_file_handles_to_shared_space 0 [] (toy_process [numbered_mount 4013 0], toy_empty) = Undef \/
  exists p1 w1, save_file_handles_to_shared_space 0 [] (toy_process [numbered_mount 4013 0], toy_empty) = Ret (-1, (p1, w1)).
Proof.
  apply (save_overruns_last_page (W := toy) 0 [] (toy_process [numbered_mount 4013 0]) toy_empty).
  - apply (toy_process_consistent _ (numbered_mount 4013 0)); [reflexivity|reflexivity|].
    constructor; [|constructor]. apply notinb_spec. vm_compute. reflexivity.
  - vm_compute. reflexivity.
  - vm_compute. reflexivity.
  - apply Nat.ltb_lt. vm_compute. reflexivity.
Defined.

(** A process with nine mounts and a file of the last one open. *)
Definition nine_process : process :=
  Process (inserted 0 (FHD 7 8) FileHandles.get_instance) (map (numbered_mount 0) (seq 0 9)) true true
    (SS (-1) 0 NullSpace).

(** With more than seven mounts the bytes that the size leaves out contain
    the index of the mount in the last record: a file of the ninth mount that
    is open across exec comes back as a file of the first mount. *)
Theorem nine_mounts_lose_index :
  handle_at (fht nine_process) 0 = Some (FHD 7 8) /\
  exists p1 w1 p2 w2,
    save_file_handles_to_shared_space 0 [] (nine_process, toy_empty) = Ret (0, (p1, w1)) /\
    restore_file_handles_from_shared_space (find_mount_from_path 0 [])
      (fresh_process (map (numbered_mount 0) (seq 0 9)), w1) = Ret (tt, (p2, w2)) /\
    handle_at (fht p2) 0 = Some (FHD 7 0).
Proof.
  split; [vm_compute; reflexivity|]. eexists _, _, _, _.
  split; [vm_compute; reflexivity|]. split; vm_compute; reflexivity.
Qed.

(** ** Applications: operations on files *)

(** Descriptor 5 at offset 2, library handle 9 for the file "/f" of six bytes. *)
Definition toy_file_world : toy :=
  with_fds {[5 := (lit "/mnt/a/f", 2)]} (with_files {[lit "/mnt/a/f" := []]}
    (with_usfs {[lit "/f" := lit "abcdef"]} (with_handles {[9 := lit "/f"]} toy_empty))).

Lemma toy_descriptor k :
  descriptor_repr (toy_process toy_mounts) (with_limit k toy_file_world) (FHD 9 0) 5 (OpenFile (lit "abcdef") 2).
Proof.
  split; [reflexivity|]. split; [cbn; lia|].
  exists toy_mount_a. repeat (split; [done|]). by exists (lit "/f").
Qed.

Lemma ops_ok_dec os f :
  forallb (fun o => match o with
    | FRead n => (0 <=? n) && (n <=? MAX_RW_COUNT)
    | FWrite bs => Z.of_nat (length bs) <=? MAX_RW_COUNT
    | FSeek _ whence => negb (whence =? SEEK_END)
    end) os = true -> file_ops_ok offset_max os f.
Proof.
  intros Hos i o rs f' Hi _. rewrite forallb_forall in Hos.
  specialize (Hos o (proj1 (list_elem_of_In _ _) (list_elem_of_lookup_2 _ _ _ Hi))). destruct o; cbn [file_op_ok].
  - apply andb_prop in Hos as [? ?]. lia.
  - lia.
  - intros ->. done.
Qed.

(** Nothing is refused; then the library transfers two bytes at most. *)
Lemma descriptor_refines_file_witness :
  let os := [FRead 3; FSeek 6 SEEK_SET; FWrite (lit "gh"); FSeek (-4) SEEK_CUR; FRead 9] in
  (exists w', file_run (FHD 9 0) 5 os (toy_process toy_mounts, toy_file_world) =
    Ret ([(3, lit "cde"); (6, []); (2, []); (4, []); (4, lit "efgh")], (toy_process toy_mounts, w')) /\
    descriptor_repr (toy_process toy_mounts) w' (FHD 9 0) 5 (OpenFile (lit "abcdefgh") 8)) /\
  (exists rs f' w', file_run (FHD 9 0) 5 os (toy_process toy_mounts, with_limit (Some 2%nat) toy_file_world) = Ret (rs, (toy_process toy_mounts, w')) /\
    file_trace offset_max (OpenFile (lit "abcdef") 2) os rs f' /\ rs !! 0%nat = Some (2, lit "cd")).
Proof.
  intros os. split.
  - destruct (descriptor_refines_file (W := toy) os (toy_process toy_mounts) toy_file_world (FHD 9 0) 5
      (OpenFile (lit "abcdef") 2) (toy_descriptor None) (ops_ok_dec os (OpenFile (lit "abcdef") 2) eq_refl)) as (rs & f' & w' & E & _ & Hd & Hr).
    specialize (Hr eq_refl). cbv in Hr. injection Hr as -> ->. exists w'. split; [exact E|exact Hd].
  - destruct (descriptor_refines_file (W := toy) os (toy_process toy_mounts) (with_limit (Some 2%nat) toy_file_world) (FHD 9 0) 5
      (OpenFile (lit "abcdef") 2) (toy_descriptor _) (ops_ok_dec os (OpenFile (lit "abcdef") 2) eq_refl)) as (rs & f' & w' & E & Ht & _).
    exists rs, f', w'. split; [exact E|]. split; [exact Ht|]. clear Ht. vm_compute in E. injection E as <- _. reflexivity.
Defined.

Lemma lseek_truncates_result_witness :
  exists w', defuse_lseek (FHD 9 0) 5 (2 ^ 31) SEEK_SET (toy_process toy_mounts, toy_file_world) =
    Ret (- 2 ^ 31, (toy_process toy_mounts, w')) /\ position w' 5 = Some (2 ^ 31).
Proof.
  apply (lseek_truncates_result (W := toy) (toy_process toy_mounts) toy_file_world (FHD 9 0) 5
    (OpenFile (lit "abcdef") 2) (toy_descriptor None)). by vm_compute.
Defined.

(** A world whose next descriptor is [fd]; the mount point has the real file. *)
Definition toy_open_world (fd : nat) : toy :=
  with_next fd (with_usfs {[lit "/f" := lit "abcdef"]} (with_files {[lit "/mnt/a/f" := []]} toy_empty)).

Definition opened_lib : toy := (toy_lib_open (lit "/f") O_RDONLY (toy_open_world 3)).2.
Definition opened_kernel : toy :=
  match toy_open (lit "/mnt/a/f") O_RDONLY 0 opened_lib with Ret (_, w) => w | _ => toy_empty end.

Lemma open_close_balanced_witness :
  exists p1 p2 w2, defuse_open 0 (lit "/f") (lit "/mnt/a/f") O_RDONLY 0 (toy_process toy_mounts, toy_open_world 3) =
      Ret (4, (p1, opened_kernel)) /\
    table_repr (fht p1) (<[4 := FHD 3 0]> two_handles) /\
    defuse_close (FHD 3 0) 4 (p1, opened_kernel) = Ret (0, (p2, w2)) /\ table_repr (fht p2) two_handles.
Proof.
  destruct (open_close_balanced (W := toy) (toy_process toy_mounts) (toy_open_world 3) two_handles 0 toy_mount_a
    (lit "/f") (lit "/mnt/a/f") O_RDONLY 0 3 4 opened_lib opened_kernel) as (p1 & E1 & Hr1 & Hc).
  - exact two_open_repr.
  - reflexivity.
  - discriminate.
  - discriminate.
  - vm_compute. reflexivity.
  - vm_compute. reflexivity.
  - unfold MAX_FILES. lia.
  - reflexivity.
  - destruct (Hc opened_kernel (with_handles ∅ opened_kernel) (with_fds ∅ (with_handles ∅ opened_kernel)) 0)
      as (p2 & E2 & Hr2); [vm_compute; reflexivity|vm_compute; reflexivity|].
    exists p1, p2, (with_fds ∅ (with_handles ∅ opened_kernel)).
    split; [exact E1|]. split; [exact Hr1|]. split; [exact E2|exact Hr2].
Defined.


Lemma read_error_paths_witness :
  defuse_read (FHD 77 0) 5 3 (toy_process toy_mounts, toy_file_world) =
    Ret ((-1, []), (toy_process toy_mounts, with_errno EBADF (with_fds {[5 := (lit "/mnt/a/f", 2)]} toy_file_world))).
Proof.
  destruct (read_error_paths (W := toy) (toy_process toy_mounts) toy_file_world (FHD 77 0) 5 3 toy_mount_a) as (_ & H2).
  - reflexivity.
  - discriminate.
  - apply (H2 0 toy_file_world 2 (with_fds {[5 := (lit "/mnt/a/f", 2)]} toy_file_world) EBADF [] 0);
      try discriminate; vm_compute; reflexivity.
Defined.
