(* ===== verification/Lddefuse.v ===== *)
(** * The preloaded library (src/lddefuse)

    The functions of the C library that the preloaded library replaces: each
    resolves its path, or looks its descriptor up, and calls the operation of
    Syscalls.v when a mounted file system is concerned and the real function
    otherwise.

    The real functions are called through the table [real_ops] of addresses that
    [load_glibc_ops] fills with [dlsym].  The C library is a parameter: the class
    [Libc] has one operation per function that is called, at an address.  The
    [real_] operations that src/libdefuse calls are instances of World.v over the
    table. *)

From Stdlib Require Import ZArith Lia Ascii String.
From stdpp Require Import base list gmap strings.
From S2P Require Import Prelude FileHandles Paths World MountPoints Process Syscalls ToyWorld.

Local Open Scope Z_scope.

Definition O_TMPFILE : Z := 4259840.
Definition AT_SYMLINK_NOFOLLOW : Z := 256.

(** The functions of the C library, by address. *)
Class Libc (W : Type) := {
  (** [dlsym (RTLD_NEXT, name)]; [None] when [dlerror] reports an error *)
  next_symbol : string -> W -> option Z * W;
  c_open : Z -> list ascii -> Z -> Z -> W -> Z * W;
  c_mmap : Z -> Z -> Z -> W -> option Z * W;
  c_read : Z -> Z -> Z -> W -> (Z * list ascii) * W;
  c_write : Z -> Z -> list ascii -> W -> Z * W;
  c_close : Z -> Z -> W -> Z * W;
  c_lseek : Z -> Z -> Z -> Z -> W -> Z * W;
  c_ftruncate : Z -> Z -> Z -> W -> Z * W;
  c_access : Z -> list ascii -> Z -> W -> Z * W;
  c_readlink : Z -> list ascii -> Z -> W -> (Z * list ascii) * W;
  c_truncate : Z -> list ascii -> Z -> W -> Z * W;
  c_unlink : Z -> list ascii -> W -> Z * W;
  c_fsync : Z -> Z -> W -> Z * W;
  (** the [__xstat] and the [__fxstat] family *)
  c_stat : Z -> Z -> list ascii -> W -> (Z * stat) * W;
  c_fstat : Z -> Z -> Z -> W -> (Z * stat) * W;
  (** the exec functions, with their arguments and environment *)
  c_exec : Z -> list ascii -> list (list ascii) -> option (list (list ascii)) -> W -> Z * W;
  c_fexec : Z -> Z -> list (list ascii) -> list (list ascii) -> W -> Z * W }.

(** ** The table of real functions *)

(** The world with the static data of glibc_ops.c: the table, by field name, a
    missing field being null, and the flag of [load_glibc_ops]. *)
Record linked (W : Type) := Linked {
  real_ops : gmap string Z;
  load_glibc_ops_flag : bool;
  below_world : W }.
Arguments Linked {W}.
Arguments real_ops {W}.
Arguments load_glibc_ops_flag {W}.
Arguments below_world {W}.

(** The fields that are assigned, in order; each from the symbol of its name. *)
Definition glibc_fields : list string :=
  [ "open"; "open64"; "openat"; "openat64"; "creat"; "creat64"; "unlink"; "unlinkat"; "rename";
    "renameat"; "read"; "pread"; "readv"; "write"; "pwrite"; "writev"; "truncate"; "ftruncate";
    "fallocate"; "close"; "lseek"; "__xstat"; "__fxstat"; "__fxstatat"; "__lxstat"; "futimesat";
    "utimes"; "utime"; "futimes"; "dup"; "dup2"; "dup3"; "chown"; "fchown"; "fchownat";
    "lchown"; "chmod"; "fchmod"; "fchmodat"; "lchmod"; "mkdir"; "mkdirat"; "rmdir"; "readlink";
    "readlinkat"; "symlink"; "symlinkat"; "link"; "linkat"; "opendir"; "fdopendir"; "readdir";
    "readdir64"; "readdir_r"; "readdir64_r"; "closedir"; "access"; "faccessat"; "flock";
    "fcntl"; "sync"; "fsync"; "fdatasync"; "posix_fadvise"; "statfs"; "fstatfs"; "statvfs";
    "fstatvfs"; "__xmknod"; "__xmknodat"; "sendfile"; "setxattr"; "lsetxattr"; "fsetxattr";
    "getxattr"; "lgetxattr"; "fgetxattr"; "listxattr"; "llistxattr"; "flistxattr";
    "removexattr"; "lremovexattr"; "fremovexattr"; "munmap"; "msync"; "execl"; "execlp";
    "execle"; "execv"; "execve"; "execvp"; "execvpe"; "fexecve"]%string.

(** With [_LARGEFILE64_SOURCE]. *)
Definition glibc_fields64 : list string :=
  [ "__xstat64"; "__fxstat64"; "__fxstatat64"; "__lxstat64"; "statfs64"; "fstatfs64";
    "posix_fadvise64"; "sendfile64"]%string.

Section Ops.
Context {W : Type} `{Libc W}.

Definition base {A} (e : prog W A) : prog (linked W) A :=
  pzoom below_world (fun w l => Linked (real_ops l) (load_glibc_ops_flag l) w) e.

Definition dlsym_exit_on_error (name : string) : prog (linked W) Z :=
  let* sym := base (pcall (next_symbol name)) in
  match sym with Some f => pret f | None => pexit end.

Definition load_real_op (name : string) : prog (linked W) Z := dlsym_exit_on_error name.

Definition assign_op (name : string) (f : Z) : prog (linked W) unit :=
  pmodify (fun l => Linked (<[name := f]> (real_ops l)) (load_glibc_ops_flag l) (below_world l)).

Fixpoint load_fields (names : list string) : prog (linked W) unit :=
  match names with
  | [] => pret tt
  | name :: names =>
      let* f := dlsym_exit_on_error name in
      do* assign_op name f;
      load_fields names
  end.

Definition load_glibc_ops : prog (linked W) unit :=
  let* l := pget in
  if negb (load_glibc_ops_flag l) then
    do* pmodify (fun l => Linked ∅ (load_glibc_ops_flag l) (below_world l));
    do* load_fields glibc_fields;
    do* load_fields glibc_fields64;
    pmodify (fun l => Linked (real_ops l) true (below_world l))
  else pret tt.

(** The address in a field; a call through a null field is [Undef]. *)
Definition op (name : string) : prog (linked W) Z :=
  let* l := pget in pointer (default 0 (real_ops l !! name)).

(** A call of a real function. *)
Definition call {A} (name : string) (f : Z -> W -> A * W) : prog (linked W) A :=
  let* a := op name in base (pcall (f a)).

(** The mode is read from the arguments only when the flags need it. *)
Definition linked_open (filename : list ascii) (flags mode : Z) : prog (linked W) Z :=
  let mode := if negb (Z.land flags O_CREAT =? 0) || (Z.land flags O_TMPFILE =? O_TMPFILE)
              then mode else 0 in
  call "open" (fun f => c_open f filename flags mode).

#[export] Instance linked_real : RealOps (linked W) := {
  real_open := linked_open;
  real_mmap := fun len fd => call "mmap" (fun f => c_mmap f len fd);
  real_read := fun fd count => call "read" (fun f => c_read f fd count);
  real_close := fun fd => call "close" (fun f => c_close f fd);
  real_lseek := fun fd offset whence => call "lseek" (fun f => c_lseek f fd offset whence);
  real_ftruncate := fun fd length => call "ftruncate" (fun f => c_ftruncate f fd length) }.
End Ops.

(** The system and the libraries below the table. *)
Section Lift.
Context {W : Type} `{Sys W, Usfs W}.

Definition lift1 {A} (f : W -> A * W) (l : linked W) : A * linked W :=
  let (a, w) := f (below_world l) in (a, Linked (real_ops l) (load_glibc_ops_flag l) w).
Definition lift0 (f : W -> W) (l : linked W) : linked W :=
  Linked (real_ops l) (load_glibc_ops_flag l) (f (below_world l)).

#[export] Instance linked_sys : Sys (linked W) := {
  errno := fun l => errno (below_world l);
  set_errno := fun e => lift0 (set_errno e);
  getpid := fun l => getpid (below_world l);
  current_dir := fun l => current_dir (below_world l);
  setlk := fun fd t => lift1 (setlk fd t);
  munmap := fun a n => lift1 (munmap a n);
  map_load := fun a off n l => map_load a off n (below_world l);
  map_store := fun a off bs l =>
    (fun w => Linked (real_ops l) (load_glibc_ops_flag l) w) <$> map_store a off bs (below_world l);
  map_string := fun a off l => map_string a off (below_world l) }.

#[export] Instance linked_usfs : Usfs (linked W) := {
  dlopen := fun p => lift1 (dlopen p);
  dlsym := fun h n => lift1 (dlsym h n);
  dlclose := fun h => lift0 (dlclose h);
  call_init := fun f m b => lift0 (call_init f m b);
  call_access := fun f p m => lift1 (call_access f p m);
  call_open := fun f p fl md => lift1 (call_open f p fl md);
  call_close := fun f fh => lift1 (call_close f fh);
  call_getattr := fun f p fl => lift1 (call_getattr f p fl);
  call_fgetattr := fun f fh => lift1 (call_fgetattr f fh);
  call_fsync := fun f fh d => lift1 (call_fsync f fh d);
  call_ftruncate := fun f fh n => lift1 (call_ftruncate f fh n);
  call_truncate := fun f p n => lift1 (call_truncate f p n);
  call_read := fun f fh n off => lift1 (call_read f fh n off);
  call_write := fun f fh bs off => lift1 (call_write f fh bs off);
  call_unlink := fun f p => lift1 (call_unlink f p);
  call_readlink := fun f p n => lift1 (call_readlink f p n);
  call_save := fun f fh => lift1 (call_save f fh);
  call_restore := fun f fh => lift1 (call_restore f fh) }.
End Lift.

(** ** The functions that are replaced *)

Section Dispatch.
Context {W : Type} `{Libc W, Sys W, Usfs W}.
(** The bound of the loader, its buffer, and the stack buffer of [resolve_path]. *)
Context (lines : nat) (buffer path_buffer : list ascii).

Abbreviation M := (prog (process * linked W)).

(** [DEFUSE_OP], followed by the call of the real function. *)
Definition DEFUSE_OP {A} (defuse : nat -> list ascii -> M A) (real : M A) (path : list ascii) : M A :=
  let* w := world in
  let* cpath := plift (resolve_path path_buffer (current_dir w) (Some path)) in
  let* (mp_data, cpath) := find_mount_and_strip_path lines buffer ((fun s => s ++ [nul]) <$> cpath) in
  match mp_data with
  | Some mp =>
      let* b := plift (deref cpath) in
      let* cpath := plift (cstring b) in
      defuse mp cpath
  | None => real
  end.

(** [DEFUSE_FD_OP], followed by the call of the real function. *)
Definition DEFUSE_FD_OP {A} (defuse : file_handle_data -> M A) (real : M A) (fd : Z) : M A :=
  let* fhd := find_file_handle lines buffer fd in
  match fhd with
  | Some fhd => defuse fhd
  | None => real
  end.

Definition real_call {A} (name : string) (f : Z -> W -> A * W) : M A := sys (call name f).

(** *** fcntl.c *)

Definition open_common (path : list ascii) (flags mode : Z) : M Z :=
  DEFUSE_OP (fun mp cpath => defuse_open mp cpath path flags mode)
            (real_call "open" (fun f => c_open f path flags mode)) path.

(** The mode argument, read only when a file may be created. *)
Definition mode_arg (flags mode : Z) : Z := if negb (Z.land flags O_CREAT =? 0) then mode else 0.

Definition openat (dirfd : Z) (path : list ascii) (flags mode : Z) : M Z :=
  open_common path flags (mode_arg flags mode).
Definition open (path : list ascii) (flags mode : Z) : M Z :=
  open_common path flags (mode_arg flags mode).
Definition creat (path : list ascii) (mode : Z) : M Z :=
  open_common path (Z.lor (Z.lor O_CREAT O_WRONLY) O_TRUNC) mode.
Definition open64 (path : list ascii) (flags mode : Z) : M Z :=
  open_common path (Z.lor flags O_LARGEFILE) (mode_arg flags mode).
Definition creat64 (path : list ascii) (mode : Z) : M Z :=
  open_common path (Z.lor (Z.lor (Z.lor O_CREAT O_WRONLY) O_TRUNC) O_LARGEFILE) mode.

(** *** stat.c *)

Definition STAT_WRAPPER (func : string) (flags vers : Z) (path : list ascii) : M (Z * stat) :=
  DEFUSE_OP (fun mp cpath => defuse_getattr mp cpath path flags)
            (real_call func (fun f => c_stat f vers path)) path.
Definition FSTAT_WRAPPER (func : string) (vers fd : Z) : M (Z * stat) :=
  DEFUSE_FD_OP (fun fhd => defuse_fgetattr fhd fd) (real_call func (fun f => c_fstat f vers fd)) fd.

Definition __xstat := STAT_WRAPPER "__xstat" 0.
Definition __lxstat := STAT_WRAPPER "__lxstat" AT_SYMLINK_NOFOLLOW.
Definition __fxstat := FSTAT_WRAPPER "__fxstat".
Definition __xstat64 := STAT_WRAPPER "__xstat64" 0.
Definition __lxstat64 := STAT_WRAPPER "__lxstat64" AT_SYMLINK_NOFOLLOW.
Definition __fxstat64 := FSTAT_WRAPPER "__fxstat64".

(** *** unistd.c *)

Definition access (path : list ascii) (mode : Z) : M Z :=
  DEFUSE_OP (fun mp cpath => defuse_access mp cpath path mode)
            (real_call "access" (fun f => c_access f path mode)) path.
Definition close (fd : Z) : M Z :=
  DEFUSE_FD_OP (fun fhd => defuse_close fhd fd) (real_call "close" (fun f => c_close f fd)) fd.

(** The exec functions save the open handles and call the real function, whose
    address is looked up anew. *)
Definition exec_common (symbol : string) (run : Z -> W -> Z * W) : M Z :=
  do* save_file_handles_to_shared_space lines buffer;
  let* f := sys (load_real_op symbol) in
  let* f := pointer f in
  sys (base (pcall (run f))).

Definition execv (path : list ascii) (argv : list (list ascii)) : M Z :=
  exec_common "execv" (fun f => c_exec f path argv None).
Definition execve (filename : list ascii) (argv envp : list (list ascii)) : M Z :=
  exec_common "execve" (fun f => c_exec f filename argv (Some envp)).
Definition execvp (file : list ascii) (argv : list (list ascii)) : M Z :=
  exec_common "execvp" (fun f => c_exec f file argv None).
Definition execvpe (file : list ascii) (argv envp : list (list ascii)) : M Z :=
  exec_common "execvep" (fun f => c_exec f file argv (Some envp)).
Definition fexecve (fd : Z) (argv envp : list (list ascii)) : M Z :=
  exec_common "fexecve" (fun f => c_fexec f fd argv envp).

Definition fdatasync (fd : Z) : M Z :=
  DEFUSE_FD_OP (fun fhd => defuse_fsync fhd fd 1) (real_call "fdatasync" (fun f => c_fsync f fd)) fd.
Definition fsync (fd : Z) : M Z :=
  DEFUSE_FD_OP (fun fhd => defuse_fsync fhd fd 0) (real_call "fsync" (fun f => c_fsync f fd)) fd.
Definition ftruncate (fd length : Z) : M Z :=
  DEFUSE_FD_OP (fun fhd => defuse_ftruncate fhd fd length)
               (real_call "ftruncate" (fun f => c_ftruncate f fd length)) fd.
Definition lseek (fd offset whence : Z) : M Z :=
  DEFUSE_FD_OP (fun fhd => defuse_lseek fhd fd offset whence)
               (real_call "lseek" (fun f => c_lseek f fd offset whence)) fd.
Definition read (fd count : Z) : M (Z * list ascii) :=
  DEFUSE_FD_OP (fun fhd => defuse_read fhd fd count) (real_call "read" (fun f => c_read f fd count)) fd.
Definition readlink (path : list ascii) (bufsiz : Z) : M (Z * list ascii) :=
  DEFUSE_OP (fun mp cpath => defuse_readlink mp cpath path bufsiz)
            (real_call "readlink" (fun f => c_readlink f path bufsiz)) path.
Definition truncate (path : list ascii) (length : Z) : M Z :=
  DEFUSE_OP (fun mp cpath => defuse_truncate mp cpath path length)
            (real_call "truncate" (fun f => c_truncate f path length)) path.
Definition unlink (path : list ascii) : M Z :=
  DEFUSE_OP (fun mp cpath => defuse_unlink mp cpath path)
            (real_call "unlink" (fun f => c_unlink f path)) path.
Definition write (fd : Z) (buf : list ascii) : M Z :=
  DEFUSE_FD_OP (fun fhd => defuse_write fhd fd buf) (real_call "write" (fun f => c_write f fd buf)) fd.

(** *** lddefuse.c: the constructor *)

Definition start_up : M unit := do* sys load_glibc_ops; load_mounts_void lines buffer.
End Dispatch.

(** ** Dispatch *)

Section DispatchProofs.
Context {W : Type} `{Libc W, Sys W, Usfs W}.
Context (lines : nat) (buffer path_buffer : list ascii).

Abbreviation M := (prog (process * linked W)).

(** The path an operation is called with, resolved. *)
Definition resolved (cwd path : list ascii) : list ascii :=
  print (normalize (split_slash (tail (full_path cwd path)))).

(** C33: An operation on a path goes to the first mount point that is a prefix of
    the resolved path, with the rest of that path, and to the C library with
    the path as it was given when there is none. *)
Theorem path_dispatch {A} (defuse : nat -> list ascii -> M A) (real : M A) p (w : linked W) cwd path :
  mp_initialized p = true -> length path_buffer = PATH_MAX -> current_dir w = Some cwd -> path <> [] ->
  hd_error (full_path cwd path) = Some slash -> nonul (full_path cwd path) ->
  (2 * length (full_path cwd path) <= PATH_MAX)%nat -> (1 < length (resolved cwd path))%nat ->
  DEFUSE_OP lines buffer path_buffer defuse real path (p, w) =
    match find_loop (mounts p) 0 (resolved cwd path) with
    | Some k => match mounts p !! k with
                | Some m => defuse k (below (mp_mount_path m) (resolved cwd path)) (p, w)
                | None => Undef
                end
    | None => real (p, w)
    end.
Proof.
  intros Hi Hb Hcwd Hne Hhd Hnn Hlen H1r. unfold DEFUSE_OP. unfold pbind at 1, world at 1. cbn [snd].
  rewrite Hcwd, resolve_path_correct by done. fold (resolved cwd path). unfold plift at 1, pbind at 1.
  assert (nonul (resolved cwd path)) as Hnr.
  { apply nonul_normalize. destruct (full_path cwd path) as [|c t]; [done|]. injection Hhd as ->.
    cbn [tail]. by rewrite (proj1 (split_slash_spec t)). }
  destruct (strip_loop_spec (mounts p) 0 (resolved cwd path) Hnr H1r) as (buf & E & Hs).
  unfold find_mount_and_strip_path. unfold pbind at 1.
  rewrite (pbind_ret _ _ _ _ _ (get_instance_loaded lines buffer p w Hi)).
  unfold find_and_strip, plift, mbind, outcome_bind. cbn [fmap option_fmap option_map]. rewrite E.
  replace (match mounts p with [] => Ret (find_loop (mounts p) 0 (resolved cwd path), Some buf) | _ :: _ => _ end)
    with (Ret (find_loop (mounts p) 0 (resolved cwd path), Some buf)) by (by destruct (mounts p)).
  pose proof (find_loop_spec (mounts p) 0 (resolved cwd path)) as Hf.
  destruct (find_loop (mounts p) 0 (resolved cwd path)) as [k|]; [|done].
  destruct Hf as (m & _ & Hm & _). rewrite Nat.sub_0_r in *. rewrite Hm in *.
  unfold pbind, deref. by rewrite Hs.
Qed.

Lemma load_mounts_void_loaded p (w : linked W) :
  mp_initialized p = true -> mounts_loaded_flag p = true ->
  load_mounts_void lines buffer (p, w) = Ret (tt, (p, w)).
Proof.
  intros Hi Hl. unfold load_mounts_void. rewrite (pbind_ret _ _ _ _ _ (get_instance_loaded lines buffer p w Hi)).
  unfold load_mounts, pbind, get. cbn [fst]. by rewrite Hl.
Qed.

(** C34: An operation on a descriptor goes to the library whose handle the table
    has for it, and to the C library otherwise, in an otherwise unchanged
    process. *)
Theorem descriptor_dispatch {A} (defuse : file_handle_data -> M A) (real : M A) p (w : linked W) t fd :
  mp_initialized p = true -> mounts_loaded_flag p = true -> table_repr (fht p) t -> 0 <= fd ->
  DEFUSE_FD_OP lines buffer defuse real fd (p, w) =
    match t !! fd with Some d => defuse d (p, w) | None => real (p, w) end.
Proof.
  intros Hi Hl Hr Hfd. unfold DEFUSE_FD_OP, find_file_handle. destruct (geb_spec fd) as [[E Hge]|[E Hlt]]; rewrite E.
  - destruct Hr as [_ Hm]. rewrite Hm. unfold handle_at.
    destruct (Z.ltb_spec fd MAX_FILES); [lia|]. by rewrite andb_false_r.
  - unfold pbind at 1. rewrite (pbind_ret _ _ _ _ _ (load_mounts_void_loaded p w Hi Hl)).
    unfold pbind, get, plift. cbn [fst]. pose proof Hr as [Hinv Hm].
    rewrite (lookup_eq _ Hinv) by lia. rewrite Hm, handle_at_in by lia.
    by destruct (file_handles (fht p) !! Z.to_nat fd) as [[l|]|]; [destruct (heap (fht p) !! l)|..].
Qed.
End DispatchProofs.

(** ** The table of real functions *)

Section Linking.
Context {W : Type} `{Libc W}.
Implicit Types (l : linked W).

Lemma load_fields_spec names l l' :
  load_fields names l = Ret (tt, l') ->
  load_glibc_ops_flag l' = load_glibc_ops_flag l /\
  (forall n, n ∉ names -> real_ops l' !! n = real_ops l !! n) /\
  (forall n, n ∈ names -> exists f w, (next_symbol n w).1 = Some f /\ real_ops l' !! n = Some f).
Proof.
  revert l. induction names as [|name names IH]; intros l E; cbn [load_fields] in E.
  - injection E as <-. split; [done|]. split; [done|]. intros n Hn. by apply not_elem_of_nil in Hn.
  - apply pbind_inv in E as (f & l1 & E1 & E). apply pbind_inv in E as ([] & l2 & [= <-] & E).
    destruct (IH _ E) as (Hf & Hout & Hin). cbn [real_ops load_glibc_ops_flag] in *.
    unfold dlsym_exit_on_error, base, pzoom, pbind, pcall in E1.
    destruct (next_symbol name (below_world l)) as [[g|] w] eqn:En; [|done]. injection E1 as <- <-.
    cbn [real_ops load_glibc_ops_flag] in *. split; [done|]. split.
    + intros n Hn. apply not_elem_of_cons in Hn as [Hne Hn]. rewrite Hout by done. by rewrite lookup_insert_ne.
    + intros n Hn. destruct (decide (n ∈ names)) as [Hn'|Hn']; [by apply Hin|].
      apply elem_of_cons in Hn as [->|]; [|done]. exists g, (below_world l). rewrite En. split; [done|].
      rewrite Hout by done. by rewrite lookup_insert_eq.
Qed.

Lemma load_glibc_ops_spec l l' :
  load_glibc_ops_flag l = false -> load_glibc_ops l = Ret (tt, l') ->
  (forall n, n ∈ glibc_fields ++ glibc_fields64 ->
     exists f w, (next_symbol n w).1 = Some f /\ real_ops l' !! n = Some f) /\
  (forall n, n ∉ glibc_fields ++ glibc_fields64 -> real_ops l' !! n = None).
Proof.
  intros Hf E. unfold load_glibc_ops in E. apply pbind_inv in E as (l0 & l1 & [= <- <-] & E). rewrite Hf in E.
  apply pbind_inv in E as ([] & l2 & [= <-] & E). apply pbind_inv in E as ([] & l3 & E3 & E).
  apply pbind_inv in E as ([] & l4 & E4 & E). injection E as <-.
  apply load_fields_spec in E3 as (_ & Hout3 & Hin3). apply load_fields_spec in E4 as (_ & Hout4 & Hin4).
  cbn [real_ops] in *. split; intros n Hn.
  - destruct (decide (n ∈ glibc_fields64)) as [H64|H64]; [by apply Hin4|]. rewrite Hout4 by done.
    apply Hin3. apply elem_of_app in Hn as [?|?]; done.
  - rewrite not_elem_of_app in Hn. destruct Hn as [H1 H2]. rewrite Hout4, Hout3 by done. by rewrite lookup_empty.
Qed.

(** [load_glibc_ops] fills every field it names with the symbol of its name,
    but does not name [mmap]: after it has returned, the real functions behind
    the replaced ones have addresses, and [real_mmap] calls a null pointer. *)
Theorem load_glibc_ops_omits_mmap l l' :
  load_glibc_ops_flag l = false -> load_glibc_ops l = Ret (tt, l') ->
  (forall n, n ∈ glibc_fields -> exists f w, (next_symbol n w).1 = Some f /\ real_ops l' !! n = Some f) /\
  forall len fd, real_mmap len fd l' = Undef.
Proof.
  intros Hf E. destruct (load_glibc_ops_spec l l' Hf E) as [Hin Hout]. split.
  - intros n Hn. apply Hin. apply elem_of_app. by left.
  - intros len fd. cbn [real_mmap linked_real]. unfold call, op, pbind, pget. rewrite Hout; [done|].
    apply (bool_decide_unpack ("mmap"%string ∉ glibc_fields ++ glibc_fields64)). vm_compute. exact I.
Qed.

Lemma call_ret {A} name (f : Z -> W -> A * W) l a :
  real_ops l !! name = Some a -> a <> 0 ->
  call name f l = Ret ((f a (below_world l)).1,
    Linked (real_ops l) (load_glibc_ops_flag l) (f a (below_world l)).2).
Proof.
  intros Hn Ha. unfold call, op, base, pbind, pget, pzoom, pcall. rewrite Hn. cbn [default from_option id].
  rewrite pointer_ret by done. by destruct (f a (below_world l)).
Qed.
End Linking.

Section Exec.
Context {W : Type} `{Libc W, Sys W, Usfs W}.

(** Under the preloaded library every exec with an open file of a mount
    crashes: once the shared file is opened and sized, saving the handles calls
    the null [mmap]. *)
Theorem exec_with_open_files_crashes lines buffer symbol run p (l : linked W) fo ft fd w1 r w2 :
  mp_initialized p = true -> ss_fd (space p) = -1 -> 0 < used_file_descriptor_pos (fht p) < 2 ^ 64 ->
  real_ops l !! "open"%string = Some fo -> fo <> 0 ->
  real_ops l !! "ftruncate"%string = Some ft -> ft <> 0 -> real_ops l !! "mmap"%string = None ->
  c_open fo (space_name l) (Z.lor O_RDWR O_CREAT) (Z.lor S_IRUSR S_IWUSR) (below_world l) = (fd, w1) -> 0 <= fd ->
  c_ftruncate ft fd (i32 (mount_point_file_size (mounts p) + 8 + used_file_descriptor_pos (fht p) * 24)) w1 = (r, w2) ->
  r <> -1 ->
  exec_common lines buffer symbol run (p, l) = Undef.
Proof.
  intros Hi Hs Hpos Ho Hfo Ht Hft Hm Eo Hfd Et Hr.
  assert (save_file_handles_to_shared_space lines buffer (p, l) = Undef) as E;
    [|unfold exec_common, pbind; by rewrite E].
  unfold save_file_handles_to_shared_space. unfold pbind at 1, get at 1. cbn [fst].
  rewrite wrap_small by lia. destruct (Z.ltb_spec 0 (used_file_descriptor_pos (fht p))); [|lia].
  unfold get_all_mounts. rewrite (pbind_ret _ _ _ _ _ (get_instance_loaded _ _ _ _ Hi)).
  set (size := i32 _) in *. unfold pbind at 1, init_shared_space. unfold pbind at 1, get at 1. cbn [fst].
  rewrite Hs. cbn [Z.eqb negb Pos.eqb]. unfold pbind at 1, pret at 1. unfold pbind at 1, world at 1. cbn [snd].
  assert (real_open (space_name l) (Z.lor O_RDWR O_CREAT) (Z.lor S_IRUSR S_IWUSR) l =
    Ret (fd, Linked (real_ops l) (load_glibc_ops_flag l) w1)) as E1.
  { cbn [real_open linked_real]. unfold linked_open.
    change (negb (Z.land (Z.lor O_RDWR O_CREAT) O_CREAT =? 0)) with true. cbn [orb].
    rewrite (call_ret _ _ _ _ Ho Hfo), Eo. done. }
  rewrite (pbind_ret _ _ _ _ _ (sys_ret _ p _ _ _ E1)). unfold pbind at 1, update at 1. cbn [fst snd].
  destruct (Z.eqb_spec fd (-1)); [lia|]. unfold pbind at 1, update at 1. cbn [fst snd].
  set (l1 := Linked (real_ops l) (load_glibc_ops_flag l) w1) in *.
  assert (real_ftruncate fd size l1 = Ret (r, Linked (real_ops l) (load_glibc_ops_flag l) w2)) as E2.
  { cbn [real_ftruncate linked_real]. rewrite (call_ret "ftruncate" _ l1 ft Ht Hft). unfold l1.
    cbn [below_world real_ops load_glibc_ops_flag]. rewrite Et. done. }
  rewrite (pbind_ret _ _ _ _ _ (sys_ret _ _ _ _ _ E2)). destruct (Z.eqb_spec r (-1)); [done|].
  unfold map_space, pbind at 1, sys, pzoom. cbn [snd fst real_mmap linked_real].
  unfold call, op, pbind at 1, pbind at 1, pget. cbn [real_ops]. by rewrite Hm.
Qed.

(** [execvpe] looks the symbol "execvep" up, which the C library does not
    have: the process ends with an error message instead. *)
Theorem execvpe_always_exits lines buffer p (l : linked W) file argv envp rv p' l' :
  save_file_handles_to_shared_space lines buffer (p, l) = Ret (rv, (p', l')) ->
  (next_symbol "execvep" (below_world l')).1 = None ->
  execvpe lines buffer file argv envp (p, l) = Exit.
Proof.
  intros E Hn. unfold execvpe, exec_common. rewrite (pbind_ret _ _ _ _ _ E).
  unfold sys, load_real_op, dlsym_exit_on_error, base, pzoom, pbind, pcall. cbn [snd].
  destruct (next_symbol "execvep" (below_world l')) as [o w]. cbn [fst] in Hn. by subst o.
Qed.
End Exec.

(** ** Applications *)

Definition run_toy {A} (d : A) (e : prog toy A) (w : toy) : A * toy :=
  match e w with Ret r => r | _ => (d, w) end.

#[export] Instance toy_libc : Libc toy := {
  next_symbol := fun n w => (if bool_decide (n = "execvep"%string) then None else Some 1, w);
  c_open := fun _ p fl md => run_toy (-1) (toy_open p fl md);
  c_mmap := fun _ len fd => run_toy None (toy_mmap len fd);
  c_read := fun _ fd n => run_toy (-1, []) (toy_read fd n);
  c_write := fun _ _ bs w => (Z.of_nat (length bs), w);
  c_close := fun _ fd => run_toy (-1) (toy_close fd);
  c_lseek := fun _ fd off wh => run_toy (-1) (toy_lseek fd off wh);
  c_ftruncate := fun _ fd n => run_toy (-1) (toy_ftruncate fd n);
  c_access := fun _ _ _ w => (0, w);
  c_readlink := fun _ _ _ w => ((-1, []), w);
  c_truncate := fun _ _ _ w => (0, w);
  c_unlink := fun _ _ w => (0, w);
  c_fsync := fun _ _ w => (0, w);
  c_stat := fun _ _ _ w => ((0, toy_stat 0), w);
  c_fstat := fun _ _ _ w => ((0, toy_stat 0), w);
  c_exec := fun _ _ _ _ w => (-1, w);
  c_fexec := fun _ _ _ _ w => (-1, w) }.

Definition unlinked : linked toy := Linked ∅ false toy_empty.
Definition linked_toy : linked toy :=
  match load_glibc_ops unlinked with Ret (_, l) => l | _ => unlinked end.

Lemma path_dispatch_witness :
  DEFUSE_OP 0 [] (replicate PATH_MAX nul) (fun k s => pret (Some (k, s))) (pret None) (lit "/mnt/./b//x")
    (toy_process toy_mounts, linked_toy) = Ret (Some (1%nat, lit "/x"), (toy_process toy_mounts, linked_toy)).
Proof.
  rewrite (path_dispatch (W := toy) 0 [] (replicate PATH_MAX nul) (fun k s => pret (Some (k, s))) (pret None)
    (toy_process toy_mounts) linked_toy (lit "/") (lit "/mnt/./b//x")).
  - reflexivity.
  - reflexivity.
  - apply length_replicate.
  - vm_compute. reflexivity.
  - discriminate.
  - reflexivity.
  - apply notinb_spec. reflexivity.
  - apply Nat.leb_le. reflexivity.
  - apply Nat.ltb_lt. reflexivity.
Defined.

Lemma descriptor_dispatch_witness :
  DEFUSE_FD_OP 0 [] (fun d => pret (file_handle d)) (pret (-1)) 1 (toy_process toy_mounts, linked_toy) =
    Ret (8, (toy_process toy_mounts, linked_toy)).
Proof.
  rewrite (descriptor_dispatch (W := toy) 0 [] (fun d => pret (file_handle d)) (pret (-1))
    (toy_process toy_mounts) linked_toy two_handles 1).
  - reflexivity.
  - reflexivity.
  - reflexivity.
  - exact two_open_repr.
  - lia.
Defined.

Lemma load_glibc_ops_omits_mmap_witness :
  (forall n, n ∈ glibc_fields -> exists f w, (next_symbol n w : option Z * toy).1 = Some f /\ real_ops linked_toy !! n = Some f) /\
  forall len fd, real_mmap len fd linked_toy = Undef.
Proof.
  apply (load_glibc_ops_omits_mmap (W := toy) unlinked linked_toy).
  - reflexivity.
  - vm_compute. reflexivity.
Defined.

Definition sized_space : toy :=
  (run_toy (-1) (toy_open (space_name linked_toy) (Z.lor O_RDWR O_CREAT) (Z.lor S_IRUSR S_IWUSR)) (below_world linked_toy)).2.

Lemma exec_with_open_files_crashes_witness :
  execve 0 [] (lit "/bin/sh") [] [] (toy_process toy_mounts, linked_toy) = Undef.
Proof.
  apply (exec_with_open_files_crashes (W := toy) 0 [] "execve" (fun f => c_exec f (lit "/bin/sh") [] (Some []))
    (toy_process toy_mounts) linked_toy 1 1 3 sized_space 0 (run_toy (-1) (toy_ftruncate 3 108) sized_space).2).
  - reflexivity.
  - reflexivity.
  - vm_compute. split; reflexivity.
  - vm_compute. reflexivity.
  - discriminate.
  - vm_compute. reflexivity.
  - discriminate.
  - vm_compute. reflexivity.
  - vm_compute. reflexivity.
  - lia.
  - vm_compute. reflexivity.
  - discriminate.
Defined.

Lemma execvpe_always_exits_witness :
  execvpe 0 [] (lit "sh") [] [] (fresh_process toy_mounts, linked_toy) = Exit.
Proof.
  apply (execvpe_always_exits (W := toy) 0 [] (fresh_process toy_mounts) linked_toy (lit "sh") [] [] 0
    (fresh_process toy_mounts) linked_toy).
  - vm_compute. reflexivity.
  - reflexivity.
Defined.
