(* ===== verification/Crc32c.v ===== *)
(** * CRC-32C (src/usfs_wrap/hdfs/crc32c.c)

    The checksum of HDFS packets.  The software version takes eight bytes at a
    time through eight tables; the hardware version runs three crc instructions
    side by side on blocks and joins the results with tables that apply zero
    bytes to a checksum, built by squaring matrices over GF(2).

    The reference is the shift register, one bit at a time.  Both versions are
    shown to compute it for every length, alignment and start value, so that the
    choice that [crc32c] makes by the processor does not show.

    The crc32 instruction is a parameter with its documented result. *)

From Stdlib Require Import ZArith Lia Ascii String.
From stdpp Require Import base list.
From S2P Require Import Prelude.

Local Open Scope Z_scope.

Definition POLY : Z := 2197175160. (* 0x82f63b78 *)

(** ** The code *)

(** [crc & 1 ? (crc >> 1) ^ POLY : crc >> 1] *)
Definition crc_bit (crc : Z) : Z :=
  if Z.land crc 1 =? 0 then Z.shiftr crc 1 else Z.lxor (Z.shiftr crc 1) POLY.

(** A loop that fills an array. *)
Fixpoint fill {A} (f : Z -> outcome A) (n : nat) (i : Z) : outcome (list A) :=
  match n with
  | O => Ret []
  | S n => let! a := f i in let! l := fill f n (i + 1) in Ret (a :: l)
  end.

(** The first row of the table, eight steps for each byte. *)
Definition crc32c_row0 : outcome (list Z) :=
  fill (fun n => Ret (crc_bit (crc_bit (crc_bit (crc_bit (crc_bit (crc_bit (crc_bit (crc_bit n))))))))) 256 0.

(** The entries [k] further down in a column. *)
Fixpoint crc32c_column (row0 : list Z) (k : nat) (crc : Z) : outcome (list Z) :=
  match k with
  | O => Ret []
  | S k =>
      let! t := arr_get row0 (Z.land crc 255) in
      let crc := Z.lxor t (Z.shiftr crc 8) in
      let! l := crc32c_column row0 k crc in Ret (crc :: l)
  end.

(** The table by columns: entry [n] holds [crc32c_table[0][n]] to
    [crc32c_table[7][n]]. *)
Definition crc32c_init_sw : outcome (list (list Z)) :=
  let! row0 := crc32c_row0 in
  fill (fun n => let! crc := arr_get row0 n in
                 let! l := crc32c_column row0 7 crc in Ret (crc :: l)) 256 0.

(** [crc32c_table[k][n]] *)
Definition crc32c_table (t : list (list Z)) (k n : Z) : outcome Z :=
  let! c := arr_get t n in arr_get c k.

Definition crc_step_byte (t : list (list Z)) (crc : Z) (b : ascii) : outcome Z :=
  let! x := crc32c_table t 0 (Z.land (Z.lxor crc (Z_of_byte b)) 255) in
  Ret (Z.lxor x (Z.shiftr crc 8)).

(** The bytes up to an address that is a multiple of eight. *)
Fixpoint crc_align (t : list (list Z)) (crc addr : Z) (buf : list ascii) : outcome (Z * list ascii) :=
  match buf with
  | b :: buf' =>
      if negb (Z.land addr 7 =? 0) then
        let! crc := crc_step_byte t crc b in crc_align t crc (addr + 1) buf'
      else Ret (crc, buf)
  | [] => Ret (crc, [])
  end.

Definition crc_step_word (t : list (list Z)) (crc word : Z) : outcome Z :=
  let crc := Z.lxor crc word in
  let! t7 := crc32c_table t 7 (Z.land crc 255) in
  let! t6 := crc32c_table t 6 (Z.land (Z.shiftr crc 8) 255) in
  let! t5 := crc32c_table t 5 (Z.land (Z.shiftr crc 16) 255) in
  let! t4 := crc32c_table t 4 (Z.land (Z.shiftr crc 24) 255) in
  let! t3 := crc32c_table t 3 (Z.land (Z.shiftr crc 32) 255) in
  let! t2 := crc32c_table t 2 (Z.land (Z.shiftr crc 40) 255) in
  let! t1 := crc32c_table t 1 (Z.land (Z.shiftr crc 48) 255) in
  let! t0 := crc32c_table t 0 (Z.shiftr crc 56) in
  Ret (Z.lxor (Z.lxor (Z.lxor (Z.lxor (Z.lxor (Z.lxor (Z.lxor t7 t6) t5) t4) t3) t2) t1) t0).

(** The loops over words and over the remaining bytes; [fuel] bounds the words. *)
Fixpoint crc_words_sw (fuel : nat) (t : list (list Z)) (crc : Z) (buf : list ascii) : outcome (Z * list ascii) :=
  if (8 <=? length buf)%nat then
    match fuel with
    | O => Undef
    | S fuel =>
        let! crc := crc_step_word t crc (le_val (take 8 buf)) in
        crc_words_sw fuel t crc (drop 8 buf)
    end
  else Ret (crc, buf).

Fixpoint crc_bytes_sw (t : list (list Z)) (crc : Z) (buf : list ascii) : outcome Z :=
  match buf with
  | [] => Ret crc
  | b :: buf => let! crc := crc_step_byte t crc b in crc_bytes_sw t crc buf
  end.

(** [addr] is the address of [buf]. *)
Definition crc32c_sw (crci addr : Z) (buf : list ascii) : outcome Z :=
  let! t := crc32c_init_sw in
  let crc := Z.lxor crci 4294967295 in
  let! (crc, buf) := crc_align t crc addr buf in
  let! (crc, buf) := crc_words_sw (length buf) t crc buf in
  let! crc := crc_bytes_sw t crc buf in
  Ret (Z.lxor (u32 crc) 4294967295).

(** *** Matrices over GF(2) *)

Fixpoint gf2_matrix_times_loop (mat : list Z) (vec sum : Z) : outcome Z :=
  if vec =? 0 then Ret sum
  else match mat with
       | [] => Undef
       | m :: mat =>
           gf2_matrix_times_loop mat (Z.shiftr vec 1)
             (if Z.land vec 1 =? 0 then sum else Z.lxor sum m)
       end.
Definition gf2_matrix_times (mat : list Z) (vec : Z) : outcome Z := gf2_matrix_times_loop mat vec 0.

Definition gf2_matrix_square (mat : list Z) : outcome (list Z) :=
  fill (fun n => let! v := arr_get mat n in gf2_matrix_times mat v) 32 0.

(** Rows 1 to 31 of the operator for one zero bit: [row] doubles. *)
Fixpoint one_bit_rows (n : nat) (row : Z) : list Z :=
  match n with
  | O => []
  | S n => row :: one_bit_rows n (u32 (Z.shiftl row 1))
  end.

(** The loop of [crc32c_zeros_op]: two squares per round. *)
Fixpoint zeros_op_loop (fuel : nat) (odd : list Z) (len : Z) : outcome (list Z) :=
  match fuel with
  | O => Undef
  | S fuel =>
      let! even := gf2_matrix_square odd in
      let len := Z.shiftr len 1 in
      if len =? 0 then Ret even
      else
        let! odd := gf2_matrix_square even in
        let len := Z.shiftr len 1 in
        if len =? 0 then Ret odd else zeros_op_loop fuel odd len
  end.

(** [len] has 64 bits, two of which are shifted out per round. *)
Definition crc32c_zeros_op (len : Z) : outcome (list Z) :=
  let odd := POLY :: one_bit_rows 31 1 in
  let! even := gf2_matrix_square odd in
  let! odd := gf2_matrix_square even in
  zeros_op_loop 32 odd len.

(** The four tables. *)
Definition crc32c_zeros (len : Z) : outcome (list (list Z)) :=
  let! op := crc32c_zeros_op len in
  fill (fun k => fill (fun n => gf2_matrix_times op (u32 (Z.shiftl n (8 * k)))) 256 0) 4 0.

Definition crc32c_shift (zeros : list (list Z)) (crc : Z) : outcome Z :=
  let get k i := let! z := arr_get zeros k in arr_get z i in
  let! z0 := get 0 (Z.land crc 255) in
  let! z1 := get 1 (Z.land (Z.shiftr crc 8) 255) in
  let! z2 := get 2 (Z.land (Z.shiftr crc 16) 255) in
  let! z3 := get 3 (Z.shiftr crc 24) in
  Ret (Z.lxor (Z.lxor (Z.lxor z0 z1) z2) z3).

(** *** The hardware version *)

Definition LONG : nat := Z.to_nat 8192.
Definition SHORT : nat := Z.to_nat 256.

Section Hardware.
(** The instructions: the destination register and the memory operand. *)
Context (crc32b : Z -> ascii -> Z) (crc32q : Z -> Z -> Z).

(** The quadword at an offset. *)
Definition quad (buf : list ascii) (off : nat) : Z := le_val (take 8 (drop off buf)).

(** Three instructions per round, on the quadwords at [off], [off + size] and
    [off + 2 * size]. *)
Fixpoint crc_three (n size off : nat) (buf : list ascii) (crc0 crc1 crc2 : Z) : Z * Z * Z :=
  match n with
  | O => (crc0, crc1, crc2)
  | S n =>
      crc_three n size (off + 8) buf (crc32q crc0 (quad buf off))
        (crc32q crc1 (quad buf (off + size))) (crc32q crc2 (quad buf (off + 2 * size)))
  end.

(** The loop over blocks of [3 * size] bytes. *)
Fixpoint crc_blocks (fuel size : nat) (zeros : list (list Z)) (crc0 : Z) (buf : list ascii)
    : outcome (Z * list ascii) :=
  if (3 * size <=? length buf)%nat then
    match fuel with
    | O => Undef
    | S fuel =>
        let '(crc0, crc1, crc2) := crc_three (size / 8) size 0 buf crc0 0 0 in
        let! s := crc32c_shift zeros (u32 crc0) in
        let crc0 := Z.lxor s crc1 in
        let! s := crc32c_shift zeros (u32 crc0) in
        let crc0 := Z.lxor s crc2 in
        crc_blocks fuel size zeros crc0 (drop (3 * size) buf)
    end
  else Ret (crc0, buf).

Fixpoint crc_align_hw (crc addr : Z) (buf : list ascii) : Z * list ascii :=
  match buf with
  | b :: buf' => if negb (Z.land addr 7 =? 0) then crc_align_hw (crc32b crc b) (addr + 1) buf' else (crc, buf)
  | [] => (crc, [])
  end.

(** The [n] quadwords that are left. *)
Fixpoint crc_words_hw (n : nat) (crc : Z) (buf : list ascii) : Z * list ascii :=
  match n with
  | O => (crc, buf)
  | S n => crc_words_hw n (crc32q crc (quad buf 0)) (drop 8 buf)
  end.

Definition crc32c_hw (crc addr : Z) (buf : list ascii) : outcome Z :=
  let! crc32c_long := crc32c_zeros (Z.of_nat LONG) in
  let! crc32c_short := crc32c_zeros (Z.of_nat SHORT) in
  let crc0 := Z.lxor crc 4294967295 in
  let (crc0, buf) := crc_align_hw crc0 addr buf in
  let! (crc0, buf) := crc_blocks (length buf) LONG crc32c_long crc0 buf in
  let! (crc0, buf) := crc_blocks (length buf) SHORT crc32c_short crc0 buf in
  let (crc0, buf) := crc_words_hw (length buf / 8) crc0 buf in
  let crc0 := fold_left crc32b buf crc0 in
  Ret (Z.lxor (u32 crc0) 4294967295).

(** [sse42] is the answer of cpuid. *)
Definition crc32c (sse42 : bool) (crc addr : Z) (buf : list ascii) : outcome Z :=
  if sse42 then crc32c_hw crc addr buf else crc32c_sw crc addr buf.
End Hardware.

(** ** The reference: a shift register *)

Definition zero_bits (n : nat) (crc : Z) : Z := Nat.iter n crc_bit crc.
Definition crc_byte (crc : Z) (b : ascii) : Z := zero_bits 8 (Z.lxor crc (Z_of_byte b)).
Definition crc_ref (crc : Z) (buf : list ascii) : Z := fold_left crc_byte buf crc.
Definition crc32c_ref (crc : Z) (buf : list ascii) : Z :=
  Z.lxor (crc_ref (Z.lxor crc 4294967295) buf) 4294967295.

(** ** Linearity *)

Abbreviation word32 c := (0 <= c < 2 ^ 32).

Lemma crc_bit_eq c : crc_bit c = Z.lxor (Z.shiftr c 1) (if Z.odd c then POLY else 0).
Proof.
  unfold crc_bit. change 1 with (Z.ones 1) at 1. rewrite Z.land_ones by lia. change (2 ^ 1) with 2.
  rewrite Zmod_odd. destruct (Z.odd c); cbn [Z.eqb]; [done|by rewrite Z.lxor_0_r].
Qed.

Lemma odd_lxor a b : Z.odd (Z.lxor a b) = xorb (Z.odd a) (Z.odd b).
Proof. rewrite <- !Z.bit0_odd. apply Z.lxor_spec. Qed.

Lemma crc_bit_lxor a b : crc_bit (Z.lxor a b) = Z.lxor (crc_bit a) (crc_bit b).
Proof.
  rewrite !crc_bit_eq, Z.shiftr_lxor, odd_lxor. apply Z.bits_inj'. intros n Hn. rewrite !Z.lxor_spec.
  destruct (Z.odd a), (Z.odd b); cbn [xorb]; rewrite ?Z.bits_0;
    destruct (Z.testbit (Z.shiftr a 1) n), (Z.testbit (Z.shiftr b 1) n); by destruct (Z.testbit POLY n).
Qed.

Lemma crc_bit_double c : crc_bit (2 * c) = c.
Proof.
  rewrite crc_bit_eq, Z.odd_mul. cbn [Z.odd andb]. rewrite Z.lxor_0_r, Z.shiftr_div_pow2 by lia.
  change (2 ^ 1) with 2. rewrite Z.mul_comm. by apply Z.div_mul.
Qed.

Lemma lxor_word32 a b : word32 a -> word32 b -> word32 (Z.lxor a b).
Proof.
  intros Ha Hb. assert (0 <= Z.lxor a b) by (apply Z.lxor_nonneg; lia). split; [done|].
  destruct (Z.eq_dec (Z.lxor a b) 0) as [->|]; [lia|]. apply Z.log2_lt_pow2; [lia|].
  pose proof (Z.log2_lxor a b ltac:(lia) ltac:(lia)).
  assert (forall c, word32 c -> Z.log2 c < 32) as Hlog.
  { intros c Hc. destruct (Z.eq_dec c 0) as [->|]; [done|]. apply Z.log2_lt_pow2; lia. }
  pose proof (Hlog a Ha). pose proof (Hlog b Hb). lia.
Qed.

Lemma crc_bit_range c : word32 c -> word32 (crc_bit c).
Proof.
  intros Hc. rewrite crc_bit_eq. apply lxor_word32; [|destruct (Z.odd c); unfold POLY; lia].
  rewrite Z.shiftr_div_pow2 by lia. change (2 ^ 1) with 2. split; [apply Z.div_pos; lia|].
  apply Z.div_lt_upper_bound; lia.
Qed.

Lemma zero_bits_S n c : zero_bits (S n) c = crc_bit (zero_bits n c).
Proof. done. Qed.

Lemma zero_bits_add m n c : zero_bits (m + n) c = zero_bits m (zero_bits n c).
Proof. unfold zero_bits. apply Nat.iter_add. Qed.

Lemma zero_bits_lxor n a b : zero_bits n (Z.lxor a b) = Z.lxor (zero_bits n a) (zero_bits n b).
Proof. induction n as [|n IH]; [done|]. by rewrite !zero_bits_S, IH, crc_bit_lxor. Qed.

Lemma zero_bits_0 n : zero_bits n 0 = 0.
Proof. induction n as [|n IH]; [done|]. by rewrite zero_bits_S, IH. Qed.

Lemma zero_bits_range n c : word32 c -> word32 (zero_bits n c).
Proof. intros Hc. induction n as [|n IH]; [done|]. rewrite zero_bits_S. by apply crc_bit_range. Qed.

Lemma zero_bits_shiftl n c : zero_bits n (Z.shiftl c (Z.of_nat n)) = c.
Proof.
  revert c. induction n as [|n IH]; intros c; [by rewrite Z.shiftl_0_r|].
  unfold zero_bits in *. rewrite Nat.iter_succ_r, Z.shiftl_mul_pow2 by lia.
  replace (c * 2 ^ Z.of_nat (S n)) with (2 * (c * 2 ^ Z.of_nat n))
    by (rewrite Nat2Z.inj_succ, Z.pow_succ_r by lia; ring).
  rewrite crc_bit_double, <- Z.shiftl_mul_pow2 by lia. apply IH.
Qed.

(** A number and its low byte. *)
Lemma low_byte y : y = Z.lxor (Z.land y 255) (Z.shiftl (Z.shiftr y 8) 8).
Proof.
  apply Z.bits_inj'. intros n Hn. rewrite Z.lxor_spec, Z.land_spec, Z.shiftl_spec by lia.
  change 255 with (Z.ones 8). destruct (Z.ltb_spec n 8).
  - rewrite Z.ones_spec_low by lia. rewrite (Z.testbit_neg_r _ (n - 8)) by lia. by rewrite andb_true_r, xorb_false_r.
  - rewrite Z.ones_spec_high by lia. rewrite Z.shiftr_spec by lia. replace (n - 8 + 8) with n by lia.
    by rewrite andb_false_r, xorb_false_l.
Qed.

(** Eight steps on the low byte, and the rest moves down. *)
Lemma zero_bits_split k y :
  zero_bits (8 + k) y = Z.lxor (zero_bits (8 + k) (Z.land y 255)) (zero_bits k (Z.shiftr y 8)).
Proof.
  rewrite (low_byte y) at 1. rewrite zero_bits_lxor. f_equal.
  rewrite (Nat.add_comm 8 k), zero_bits_add. f_equal. apply (zero_bits_shiftl 8).
Qed.

(** The whole buffer at once. *)
Lemma crc_ref_zero_bits buf crc : crc_ref crc buf = zero_bits (8 * length buf) (Z.lxor crc (le_val buf)).
Proof.
  revert crc. induction buf as [|b buf IH]; intros crc; [by cbn; rewrite Z.lxor_0_r|].
  cbn [crc_ref fold_left le_val length]. fold (crc_ref (crc_byte crc b) buf). rewrite IH.
  replace (8 * S (length buf))%nat with (8 * length buf + 8)%nat by lia. rewrite zero_bits_add. f_equal.
  assert (Z_of_byte b + 256 * le_val buf = Z.lxor (Z_of_byte b) (Z.shiftl (le_val buf) 8)) as ->.
  { rewrite <- Z.add_nocarry_lxor; [rewrite Z.shiftl_mul_pow2 by lia; change (2 ^ 8) with 256; lia|].
    apply Z.bits_inj'. intros n Hn. rewrite Z.land_spec, Z.shiftl_spec, Z.bits_0 by lia.
    destruct (Z.ltb_spec n 8); [by rewrite (Z.testbit_neg_r _ (n - 8)), andb_false_r by lia|].
    assert (Z.testbit (Z_of_byte b) n = false) as ->; [|done]. pose proof (Z_of_byte_range b).
    destruct (Z.eq_dec (Z_of_byte b) 0) as [->|]; [apply Z.bits_0|]. apply Z.bits_above_log2; [lia|].
    apply Z.lt_le_trans with 8; [|lia]. apply Z.log2_lt_pow2; lia. }
  rewrite <- Z.lxor_assoc, zero_bits_lxor. unfold crc_byte. f_equal. symmetry. apply (zero_bits_shiftl 8).
Qed.

Lemma Z_of_byte_word32 b : word32 (Z_of_byte b).
Proof. pose proof (Z_of_byte_range b). lia. Qed.

Lemma crc_ref_range buf crc : word32 crc -> word32 (crc_ref crc buf).
Proof.
  revert crc. induction buf as [|b buf IH]; intros crc Hc; [done|]. cbn [crc_ref fold_left].
  apply IH. apply zero_bits_range, lxor_word32; [done|apply Z_of_byte_word32].
Qed.

Lemma crc_ref_app crc a b : crc_ref crc (a ++ b) = crc_ref (crc_ref crc a) b.
Proof. apply fold_left_app. Qed.

(** A checksum that starts from another one is that of zero bytes, joined. *)
Lemma crc_ref_join crc b : crc_ref crc b = Z.lxor (zero_bits (8 * length b) crc) (crc_ref 0 b).
Proof. by rewrite !crc_ref_zero_bits, zero_bits_lxor, Z.lxor_0_l. Qed.

(** ** Arrays that are filled by a loop *)

Lemma fill_spec {A} (f : Z -> outcome A) (g : Z -> A) n i :
  (forall j, i <= j < i + Z.of_nat n -> f j = Ret (g j)) ->
  exists l, fill f n i = Ret l /\ length l = n /\
    forall j, 0 <= j < Z.of_nat n -> arr_get l j = Ret (g (i + j)).
Proof.
  revert i. induction n as [|n IH]; intros i Hf; cbn [fill].
  { exists []. split; [done|]. split; [done|]. intros; lia. }
  rewrite Hf by lia. destruct (IH (i + 1)) as (l & E & Hl & Hg); [intros; apply Hf; lia|].
  unfold mbind, outcome_bind. rewrite E. exists (g i :: l). split; [done|]. split; [cbn; lia|].
  intros j Hj. destruct (Z.eq_dec j 0) as [->|]; [by rewrite Z.add_0_r|].
  specialize (Hg (j - 1) ltac:(lia)). replace (i + 1 + (j - 1)) with (i + j) in Hg by lia. rewrite <- Hg.
  unfold arr_get. destruct (Z.leb_spec 0 j), (Z.leb_spec 0 (j - 1)); try lia.
  by replace (Z.to_nat j) with (S (Z.to_nat (j - 1))) by lia.
Qed.

Lemma land_255_range y : 0 <= Z.land y 255 < 256.
Proof. change 255 with (Z.ones 8). rewrite Z.land_ones by lia. by apply Z.mod_pos_bound. Qed.

Lemma shiftr_range y n m : 0 <= n -> 0 <= m -> 0 <= y < 2 ^ (n + m) -> 0 <= Z.shiftr y n < 2 ^ m.
Proof.
  intros Hn Hm Hy. rewrite Z.shiftr_div_pow2 by lia. split; [apply Z.div_pos; lia|].
  apply Z.div_lt_upper_bound; [apply Z.pow_pos_nonneg; lia|]. rewrite <- Z.pow_add_r by lia. lia.
Qed.

(** ** The software version *)

Definition is_table (t : list (list Z)) : Prop :=
  forall k n, 0 <= k < 8 -> 0 <= n < 256 -> crc32c_table t k n = Ret (zero_bits (8 * (Z.to_nat k + 1)) n).

Lemma crc32c_column_spec row0 k crc :
  (forall n, 0 <= n < 256 -> arr_get row0 n = Ret (zero_bits 8 n)) ->
  exists l, crc32c_column row0 k crc = Ret l /\ length l = k /\
    forall j, (j < k)%nat -> l !! j = Some (zero_bits (8 * (j + 1)) crc).
Proof.
  intros Hrow. revert crc. induction k as [|k IH]; intros crc; cbn [crc32c_column].
  { exists []. split; [done|]. split; [done|]. intros; lia. }
  rewrite Hrow by apply land_255_range. unfold mbind, outcome_bind.
  assert (Z.lxor (zero_bits 8 (Z.land crc 255)) (Z.shiftr crc 8) = zero_bits 8 crc) as ->
    by (symmetry; apply (zero_bits_split 0)).
  destruct (IH (zero_bits 8 crc)) as (l & -> & Hl & Hg). eexists. split; [reflexivity|]. split; [cbn; lia|].
  intros [|j] Hj; [done|]. cbn [lookup list_lookup]. rewrite Hg by lia. f_equal.
  replace (8 * (S j + 1))%nat with (8 * (j + 1) + 8)%nat by lia. by rewrite zero_bits_add.
Qed.

Lemma crc32c_init_sw_spec : exists t, crc32c_init_sw = Ret t /\ is_table t.
Proof.
  unfold crc32c_init_sw, crc32c_row0.
  destruct (fill_spec (fun n => Ret (crc_bit (crc_bit (crc_bit (crc_bit (crc_bit (crc_bit (crc_bit (crc_bit n)))))))))
    (zero_bits 8) 256 0) as (row0 & E & _ & Hrow); [done|].
  unfold mbind, outcome_bind. rewrite E.
  assert (forall n, 0 <= n < 256 -> arr_get row0 n = Ret (zero_bits 8 n)) as Hrow' by (intros; by rewrite Hrow).
  match goal with |- context [fill ?g 256 0] => set (f := g) end.
  assert (forall n, 0 <= n < 256 -> exists c, f n = Ret c /\
    forall j, (j < 8)%nat -> c !! j = Some (zero_bits (8 * (j + 1)) n)) as Hf.
  { intros n Hn. unfold f. rewrite Hrow' by done.
    destruct (crc32c_column_spec row0 7 (zero_bits 8 n) Hrow') as (l & -> & Hl & Hg).
    eexists. split; [reflexivity|]. intros [|j] Hj; [done|]. cbn [lookup list_lookup]. rewrite Hg by lia. f_equal.
    replace (8 * (S j + 1))%nat with (8 * (j + 1) + 8)%nat by lia. by rewrite zero_bits_add. }
  destruct (fill_spec f (fun n => match f n with Ret c => c | _ => [] end) 256 0) as (t & E' & _ & Ht).
  { intros j Hj. destruct (Hf j ltac:(lia)) as (c & -> & _). done. }
  exists t. split; [exact E'|]. intros k n Hk Hn. unfold crc32c_table, mbind, outcome_bind. rewrite Ht by lia.
  destruct (Hf n Hn) as (c & Ec & Hc). rewrite Z.add_0_l, Ec. apply arr_get_Some; [lia|]. apply Hc. lia.
Qed.

Section Software.
Context (t : list (list Z)) (Ht : is_table t).

Lemma crc_step_byte_spec crc b : word32 crc -> crc_step_byte t crc b = Ret (crc_byte crc b).
Proof using Ht.
  intros Hc. unfold crc_step_byte. rewrite Ht by (try apply land_255_range; lia).
  unfold mbind, outcome_bind, crc_byte. f_equal.
  change (zero_bits 8 ?y) with (zero_bits (8 + 0) y). rewrite (zero_bits_split 0 (Z.lxor crc (Z_of_byte b))).
  f_equal. change (zero_bits 0 ?y) with y. rewrite Z.shiftr_lxor.
  assert (Z.shiftr (Z_of_byte b) 8 = 0) as ->; [|by rewrite Z.lxor_0_r].
  pose proof (Z_of_byte_range b). rewrite Z.shiftr_div_pow2 by lia. by apply Z.div_small.
Qed.

Lemma crc_bytes_sw_spec buf crc : word32 crc -> crc_bytes_sw t crc buf = Ret (crc_ref crc buf).
Proof using Ht.
  revert crc. induction buf as [|b buf IH]; intros crc Hc; [done|]. cbn [crc_bytes_sw].
  rewrite crc_step_byte_spec by done. unfold mbind, outcome_bind. apply IH.
  apply zero_bits_range, lxor_word32; [done|apply Z_of_byte_word32].
Qed.

Lemma crc_align_spec buf crc addr : word32 crc ->
  exists a b, buf = a ++ b /\ crc_align t crc addr buf = Ret (crc_ref crc a, b).
Proof using Ht.
  revert crc addr. induction buf as [|b buf IH]; intros crc addr Hc; cbn [crc_align]; [by exists [], []|].
  destruct (negb _); [|by exists [], (b :: buf)].
  rewrite crc_step_byte_spec by done. unfold mbind, outcome_bind.
  destruct (IH (crc_byte crc b) (addr + 1)) as (x & y & -> & E);
    [apply zero_bits_range, lxor_word32; [done|apply Z_of_byte_word32]|].
  exists (b :: x), y. split; [done|]. exact E.
Qed.

(** Eight tables for eight bytes. *)
Lemma crc_step_word_spec crc bs :
  word32 crc -> length bs = 8%nat -> crc_step_word t crc (le_val bs) = Ret (crc_ref crc bs).
Proof using Ht.
  intros Hc Hl. rewrite crc_ref_zero_bits, Hl. unfold crc_step_word. set (y := Z.lxor crc (le_val bs)).
  assert (0 <= y < 2 ^ 64) as Hy.
  { pose proof (le_val_range bs) as Hr. rewrite Hl in Hr. change (8 * Z.of_nat 8) with 64 in Hr.
    assert (0 <= y) by (apply Z.lxor_nonneg; lia). split; [done|].
    destruct (Z.eq_dec y 0) as [->|]; [lia|]. apply Z.log2_lt_pow2; [lia|].
    pose proof (Z.log2_lxor crc (le_val bs) ltac:(lia) ltac:(lia)).
    assert (forall c, 0 <= c < 2 ^ 64 -> Z.log2 c < 64) as Hlog.
    { intros c Hc'. destruct (Z.eq_dec c 0) as [->|]; [done|]. apply Z.log2_lt_pow2; lia. }
    pose proof (Hlog crc ltac:(lia)). pose proof (Hlog (le_val bs) Hr). unfold y in *. lia. }
  assert (0 <= Z.shiftr y 56 < 256) as Hs by (apply (shiftr_range y 56 8); lia).
  unfold mbind, outcome_bind. rewrite !Ht by (try apply land_255_range; lia). f_equal.
  assert (forall k i, (8 <= k)%nat -> 0 <= i -> zero_bits k (Z.shiftr y i) =
    Z.lxor (zero_bits k (Z.land (Z.shiftr y i) 255)) (zero_bits (k - 8) (Z.shiftr y (i + 8)))) as Hsp.
  { intros k i Hk Hi. replace k with (8 + (k - 8))%nat at 1 2 by lia.
    by rewrite zero_bits_split, Z.shiftr_shiftr by lia. }
  change (zero_bits (8 * 8) y) with (zero_bits 64 (Z.shiftr y 0)).
  rewrite (Hsp 64%nat 0), (Hsp (64 - 8)%nat), (Hsp (64 - 8 - 8)%nat), (Hsp (64 - 8 - 8 - 8)%nat),
    (Hsp (64 - 8 - 8 - 8 - 8)%nat), (Hsp (64 - 8 - 8 - 8 - 8 - 8)%nat),
    (Hsp (64 - 8 - 8 - 8 - 8 - 8 - 8)%nat) by lia.
  by rewrite Z.shiftr_0_r, !Z.lxor_assoc.
Qed.

Lemma crc_words_sw_spec fuel buf crc : word32 crc -> (length buf <= fuel)%nat ->
  exists a b, buf = a ++ b /\ crc_words_sw fuel t crc buf = Ret (crc_ref crc a, b).
Proof using Ht.
  revert buf crc. induction fuel as [|fuel IH]; intros buf crc Hc Hf; cbn [crc_words_sw];
    (destruct (Nat.leb_spec 8 (length buf)); [|by exists [], buf]); [lia|].
  rewrite crc_step_word_spec by (rewrite ?length_take; done || lia). unfold mbind, outcome_bind.
  destruct (IH (drop 8 buf) (crc_ref crc (take 8 buf))) as (a & b & E & ->);
    [by apply crc_ref_range|rewrite length_drop; lia|].
  exists (take 8 buf ++ a), b. split; [by rewrite <- app_assoc, <- E, take_drop|]. by rewrite crc_ref_app.
Qed.
End Software.

Lemma crc32c_sw_ref crc addr buf : word32 crc -> crc32c_sw crc addr buf = Ret (crc32c_ref crc buf).
Proof.
  intros Hc. unfold crc32c_sw. destruct crc32c_init_sw_spec as (t & -> & Ht). unfold mbind, outcome_bind.
  assert (word32 (Z.lxor crc 4294967295)) as Hc' by (apply lxor_word32; lia).
  destruct (crc_align_spec t Ht buf (Z.lxor crc 4294967295) addr Hc') as (a & b & -> & ->).
  destruct (crc_words_sw_spec t Ht (length b) b (crc_ref (Z.lxor crc 4294967295) a)) as (c & d & -> & ->);
    [by apply crc_ref_range|done|].
  rewrite crc_bytes_sw_spec by (try apply crc_ref_range; try apply crc_ref_range; done).
  unfold crc32c_ref. rewrite !crc_ref_app, wrap_small; [done|]. by repeat apply crc_ref_range.
Qed.

(** ** Matrices over GF(2) *)

(** The matrix of the operator that applies [n] zero bits. *)
Definition is_matrix (mat : list Z) (n : nat) : Prop :=
  length mat = 32%nat /\ forall i, (i < 32)%nat -> mat !! i = Some (zero_bits n (2 ^ Z.of_nat i)).

Lemma odd_shiftl v i : 0 <= i ->
  Z.shiftl v i = Z.lxor (if Z.odd v then 2 ^ i else 0) (Z.shiftl (Z.shiftr v 1) (i + 1)).
Proof.
  intros Hi. apply Z.bits_inj'. intros k Hk. rewrite Z.lxor_spec, !Z.shiftl_spec by lia.
  destruct (Z.lt_total k i) as [Hlt|[->|Hgt]].
  - rewrite !(Z.testbit_neg_r _ (k - _)) by lia. destruct (Z.odd v); rewrite ?Z.bits_0; [|done].
    by rewrite Z.pow2_bits_false by lia.
  - rewrite Z.sub_diag, Z.bit0_odd, (Z.testbit_neg_r _ (i - (i + 1))) by lia.
    destruct (Z.odd v); rewrite ?Z.bits_0; [by rewrite Z.pow2_bits_true by lia|done].
  - rewrite Z.shiftr_spec by lia. replace (k - (i + 1) + 1) with (k - i) by lia.
    assert (Z.testbit (if Z.odd v then 2 ^ i else 0) k = false) as ->; [|by rewrite xorb_false_l].
    destruct (Z.odd v); rewrite ?Z.bits_0; [|done]. by rewrite Z.pow2_bits_false by lia.
Qed.

Lemma gf2_times_loop_spec n mat i v sum :
  (forall j, (j < length mat)%nat -> mat !! j = Some (zero_bits n (2 ^ (i + Z.of_nat j)))) -> 0 <= i ->
  0 <= v < 2 ^ Z.of_nat (length mat) ->
  gf2_matrix_times_loop mat v sum = Ret (Z.lxor sum (zero_bits n (Z.shiftl v i))).
Proof.
  revert i v sum. induction mat as [|m mat IH]; intros i v sum Hm Hi Hv; cbn [gf2_matrix_times_loop].
  - cbn in Hv. assert (v = 0) as -> by lia. by rewrite Z.shiftl_0_l, zero_bits_0, Z.lxor_0_r.
  - destruct (Z.eqb_spec v 0) as [->|Hv0]; [by rewrite Z.shiftl_0_l, zero_bits_0, Z.lxor_0_r|].
    pose proof (Hm 0%nat ltac:(cbn; lia)) as Hm0. injection Hm0 as ->. rewrite Z.add_0_r in *.
    rewrite (IH (i + 1)); [| |lia|].
    + f_equal. rewrite (odd_shiftl v i), zero_bits_lxor by lia. change 1 with (Z.ones 1) at 1.
      rewrite Z.land_ones by lia. change (2 ^ 1) with 2. rewrite Zmod_odd.
      destruct (Z.odd v); cbn [Z.eqb]; rewrite ?zero_bits_0, ?Z.lxor_0_l; [by rewrite Z.lxor_assoc|done].
    + intros j Hj. specialize (Hm (S j) ltac:(cbn; lia)).
      etransitivity; [exact Hm|]. do 3 f_equal. lia.
    + apply (shiftr_range v 1 (Z.of_nat (length mat))); [lia..|]. cbn [length] in Hv.
      by replace (1 + Z.of_nat (length mat)) with (Z.of_nat (S (length mat))) by lia.
Qed.

Lemma gf2_matrix_times_spec mat n v :
  is_matrix mat n -> word32 v -> gf2_matrix_times mat v = Ret (zero_bits n v).
Proof.
  intros [Hl Hm] Hv. unfold gf2_matrix_times. rewrite (gf2_times_loop_spec n mat 0); rewrite ?Hl; [|done|lia|done].
  by rewrite Z.lxor_0_l, Z.shiftl_0_r.
Qed.

Lemma pow_word32 i : (i < 32)%nat -> word32 (2 ^ Z.of_nat i).
Proof. intros. split; [apply Z.pow_nonneg; lia|]. apply Z.pow_lt_mono_r; lia. Qed.

Lemma gf2_matrix_square_spec mat n :
  is_matrix mat n -> exists sq, gf2_matrix_square mat = Ret sq /\ is_matrix sq (n + n).
Proof.
  intros Hmat. pose proof Hmat as [Hl Hm]. unfold gf2_matrix_square.
  destruct (fill_spec (fun i => let! v := arr_get mat i in gf2_matrix_times mat v)
    (fun i => zero_bits (n + n) (2 ^ i)) 32 0) as (sq & E & Hlen & Hg).
  - intros j Hj. rewrite (arr_get_Some mat j (zero_bits n (2 ^ j))) by (try lia; rewrite Hm by lia; do 3 f_equal; lia).
    unfold mbind, outcome_bind. rewrite zero_bits_add. apply gf2_matrix_times_spec; [done|].
    apply zero_bits_range. rewrite <- (Z2Nat.id j) by lia. apply pow_word32. lia.
  - exists sq. split; [done|]. split; [done|]. intros i Hi. specialize (Hg (Z.of_nat i) ltac:(lia)).
    apply arr_get_inv in Hg as [_ Hg]. by rewrite Nat2Z.id in Hg.
Qed.

Lemma one_bit_rows_spec n row i : 0 <= row -> row * 2 ^ Z.of_nat n <= 2 ^ 32 -> (i < n)%nat ->
  one_bit_rows n row !! i = Some (row * 2 ^ Z.of_nat i).
Proof.
  revert row i. induction n as [|n IH]; intros row i Hr Hb Hi; [lia|]. cbn [one_bit_rows].
  destruct i as [|i]; [cbn; f_equal; lia|]. cbn [lookup list_lookup].
  rewrite Nat2Z.inj_succ, Z.pow_succ_r in Hb by lia.
  destruct n as [|n]; [lia|]. rewrite Nat2Z.inj_succ, Z.pow_succ_r in Hb by lia.
  assert (0 < 2 ^ Z.of_nat n) by (apply Z.pow_pos_nonneg; lia).
  rewrite Z.shiftl_mul_pow2 by lia. change (2 ^ 1) with 2. unfold wrap. rewrite Z.mod_small by nia.
  rewrite IH; [|lia| |lia]; rewrite Nat2Z.inj_succ, Z.pow_succ_r by lia; [f_equal; lia|lia].
Qed.

Lemma one_bit_matrix : is_matrix (POLY :: one_bit_rows 31 1) 1.
Proof.
  split; [done|]. intros [|i] Hi; [done|]. cbn [lookup list_lookup]. rewrite one_bit_rows_spec by lia.
  f_equal. rewrite Z.mul_1_l, zero_bits_S, Nat2Z.inj_succ, Z.pow_succ_r by lia. symmetry. apply crc_bit_double.
Qed.

(** The operator for [n] zero bytes, [n] the largest power of two up to [len]. *)
Lemma zeros_op_loop_spec fuel odd m len :
  is_matrix odd m -> 0 <= len < 2 ^ (2 * Z.of_nat fuel) -> (0 < fuel)%nat ->
  exists op, zeros_op_loop fuel odd len = Ret op /\ is_matrix op (2 * m * 2 ^ Z.to_nat (Z.log2 len)).
Proof.
  revert odd m len. induction fuel as [|fuel IH]; intros odd m len Hodd Hlen Hf; [lia|]. cbn [zeros_op_loop].
  destruct (gf2_matrix_square_spec odd m Hodd) as (even & Ee & He). unfold mbind, outcome_bind. rewrite Ee.
  assert (forall x, 0 <= x -> Z.shiftr x 1 = 0 -> Z.log2 x = 0) as Hlow.
  { intros x Hx E. apply Z.shiftr_eq_0_iff in E as [->|[? ?]]; [done|]. pose proof (Z.log2_nonneg x). lia. }
  assert (forall x, 0 <= x -> Z.shiftr x 1 <> 0 -> 0 <= Z.shiftr x 1 /\ Z.log2 x = 1 + Z.log2 (Z.shiftr x 1)) as Hhigh.
  { intros x Hx E. split; [by apply Z.shiftr_nonneg|]. rewrite Z.shiftr_eq_0_iff in E. assert (0 < x) by lia.
    rewrite Z.log2_shiftr by lia. lia. }
  destruct (Z.eqb_spec (Z.shiftr len 1) 0) as [H0|H0].
  { exists even. split; [done|]. rewrite (Hlow len) by lia.
    change (2 ^ Z.to_nat 0)%nat with 1%nat. by replace (2 * m * 1)%nat with (m + m)%nat by lia. }
  destruct (gf2_matrix_square_spec even (m + m) He) as (odd' & Eo & Ho). rewrite Eo.
  destruct (Hhigh len ltac:(lia) H0) as [Hn1 Hlog]. pose proof (Z.log2_nonneg (Z.shiftr len 1)).
  destruct (Z.eqb_spec (Z.shiftr (Z.shiftr len 1) 1) 0) as [H1|H1].
  { exists odd'. split; [done|]. rewrite Hlog, (Hlow _ Hn1 H1).
    change (2 ^ Z.to_nat (1 + 0))%nat with 2%nat. by replace (2 * m * 2)%nat with (m + m + (m + m))%nat by lia. }
  destruct (Hhigh _ Hn1 H1) as [Hn2 Hlog2]. pose proof (Z.log2_nonneg (Z.shiftr (Z.shiftr len 1) 1)).
  assert (Z.shiftr (Z.shiftr len 1) 1 < 2 ^ (2 * Z.of_nat fuel)) as Hlt.
  { rewrite Z.shiftr_shiftr by lia. apply (shiftr_range len 2 (2 * Z.of_nat fuel)); [lia..|].
    by replace (2 + 2 * Z.of_nat fuel) with (2 * Z.of_nat (S fuel)) by lia. }
  destruct (IH odd' (m + m + (m + m))%nat (Z.shiftr (Z.shiftr len 1) 1) Ho) as (op & E & Hop); [lia| |].
  { destruct fuel; [|lia]. cbn in Hlt. lia. }
  exists op. split; [done|]. rewrite Hlog, Hlog2.
  replace (Z.to_nat (1 + (1 + Z.log2 (Z.shiftr (Z.shiftr len 1) 1))))
    with (2 + Z.to_nat (Z.log2 (Z.shiftr (Z.shiftr len 1) 1)))%nat by lia.
  rewrite Nat.pow_add_r. change (2 ^ 2)%nat with 4%nat.
  by replace (2 * m * (4 * 2 ^ Z.to_nat (Z.log2 (Z.shiftr (Z.shiftr len 1) 1))))%nat
    with (2 * (m + m + (m + m)) * 2 ^ Z.to_nat (Z.log2 (Z.shiftr (Z.shiftr len 1) 1)))%nat by lia.
Qed.

Lemma crc32c_zeros_op_spec len :
  0 <= len < 2 ^ 64 ->
  exists op, crc32c_zeros_op len = Ret op /\ is_matrix op (8 * 2 ^ Z.to_nat (Z.log2 len)).
Proof.
  intros Hlen. unfold crc32c_zeros_op.
  destruct (gf2_matrix_square_spec _ _ one_bit_matrix) as (even & -> & He). unfold mbind, outcome_bind.
  destruct (gf2_matrix_square_spec even _ He) as (odd & -> & Ho).
  apply (zeros_op_loop_spec 32 odd 4 len Ho); lia.
Qed.

(** The tables for [2 ^ k] bytes. *)
Definition is_zeros (zeros : list (list Z)) (n : nat) : Prop :=
  forall j i, 0 <= j < 4 -> 0 <= i < 256 ->
    (let! z := arr_get zeros j in arr_get z i) = Ret (zero_bits n (Z.shiftl i (8 * j))).

Lemma crc32c_zeros_spec k :
  0 <= k < 64 -> exists zeros, crc32c_zeros (2 ^ k) = Ret zeros /\ is_zeros zeros (8 * 2 ^ Z.to_nat k).
Proof.
  intros Hk. unfold crc32c_zeros.
  destruct (crc32c_zeros_op_spec (2 ^ k)) as (op & -> & Hop);
    [split; [apply Z.pow_nonneg; lia|apply Z.pow_lt_mono_r; lia]|].
  rewrite Z.log2_pow2 in Hop by lia. set (n := (8 * 2 ^ Z.to_nat k)%nat) in *.
  unfold mbind at 1, outcome_bind at 1. set (g := fun j => fill _ 256 0).
  assert (forall j, 0 <= j < 4 -> exists z, g j = Ret z /\
    forall i, 0 <= i < 256 -> arr_get z i = Ret (zero_bits n (Z.shiftl i (8 * j)))) as Hg.
  { intros j Hj. unfold g.
    destruct (fill_spec (fun i => gf2_matrix_times op (u32 (Z.shiftl i (8 * j))))
      (fun i => zero_bits n (Z.shiftl i (8 * j))) 256 0) as (z & E & _ & Hz); [|exists z; split; [done|by intros i Hi; rewrite Hz]].
    intros i Hi. assert (word32 (Z.shiftl i (8 * j))) as Hw.
    { rewrite Z.shiftl_mul_pow2 by lia. assert (2 ^ (8 * j) <= 2 ^ 24) by (apply Z.pow_le_mono_r; lia).
      assert (0 < 2 ^ (8 * j)) by (apply Z.pow_pos_nonneg; lia). change (2 ^ 32) with (256 * 2 ^ 24). nia. }
    rewrite wrap_small by done. by apply gf2_matrix_times_spec. }
  destruct (fill_spec g (fun j => match g j with Ret z => z | _ => [] end) 4 0) as (zeros & E & _ & Hz).
  { intros j Hj. destruct (Hg j ltac:(lia)) as (z & -> & _). done. }
  exists zeros. split; [exact E|]. intros j i Hj Hi. rewrite Hz by lia. rewrite Z.add_0_l.
  destruct (Hg j Hj) as (z & -> & Hz'). unfold mbind, outcome_bind. by apply Hz'.
Qed.

Lemma crc32c_shift_spec zeros n crc :
  is_zeros zeros n -> word32 crc -> crc32c_shift zeros crc = Ret (zero_bits n crc).
Proof.
  intros Hz Hc. unfold crc32c_shift.
  assert (0 <= Z.shiftr crc 24 < 256) as Hs by (apply (shiftr_range crc 24 8); lia).
  cbv zeta beta.
  rewrite (Hz 0), (Hz 1), (Hz 2), (Hz 3) by first [apply land_255_range|lia]. unfold mbind, outcome_bind.
  f_equal. rewrite <- !zero_bits_lxor. f_equal.
  assert (forall i, 0 <= i -> Z.shiftl (Z.shiftr crc i) i =
    Z.lxor (Z.shiftl (Z.land (Z.shiftr crc i) 255) i) (Z.shiftl (Z.shiftr crc (i + 8)) (i + 8))) as Hsp.
  { intros i Hi. rewrite (low_byte (Z.shiftr crc i)) at 1. rewrite Z.shiftl_lxor, Z.shiftr_shiftr by lia.
    rewrite Z.shiftl_shiftl by lia. by rewrite (Z.add_comm 8 i). }
  rewrite <- (Z.shiftr_0_r crc) at 5. rewrite <- (Z.shiftl_0_r (Z.shiftr crc 0)).
  rewrite (Hsp 0), (Hsp (0 + 8)), (Hsp (0 + 8 + 8)) by lia. rewrite Z.shiftr_0_r, !Z.lxor_assoc. done.
Qed.

(** ** The hardware version computes the reference *)

(** What the processor's manual says of the instructions: the remainder by the
    reflected Castagnoli polynomial after the operand's bits, low bit first. *)
Record crc32_instruction (crc32b : Z -> ascii -> Z) (crc32q : Z -> Z -> Z) : Prop := {
  crc32b_spec : forall c b, word32 c -> crc32b c b = zero_bits 8 (Z.lxor c (Z_of_byte b));
  crc32q_spec : forall c v, word32 c -> 0 <= v < 2 ^ 64 -> crc32q c v = zero_bits 64 (Z.lxor c v);
}.

Section HardwareProofs.
Context (crc32b : Z -> ascii -> Z) (crc32q : Z -> Z -> Z) (HI : crc32_instruction crc32b crc32q).

Lemma crc32b_ref buf crc : word32 crc -> fold_left crc32b buf crc = crc_ref crc buf.
Proof using HI.
  revert crc. induction buf as [|b buf IH]; intros crc Hc; [done|]. cbn [fold_left crc_ref].
  rewrite (crc32b_spec _ _ HI) by done. fold (crc_byte crc b). apply IH.
  apply (crc_ref_range [b] crc Hc).
Qed.

Lemma crc32q_ref crc buf off :
  word32 crc -> (off + 8 <= length buf)%nat -> crc32q crc (quad buf off) = crc_ref crc (take 8 (drop off buf)).
Proof using HI.
  intros Hc Hl. assert (length (take 8 (drop off buf)) = 8%nat) as Hl8 by (rewrite length_take, length_drop; lia).
  rewrite crc_ref_zero_bits, Hl8. unfold quad. apply (crc32q_spec _ _ HI); [done|].
  pose proof (le_val_range (take 8 (drop off buf))) as H. by rewrite Hl8 in H.
Qed.

Lemma take_drop_step {A} n off (l : list A) :
  take (8 * S n) (drop off l) = take 8 (drop off l) ++ take (8 * n) (drop (off + 8) l).
Proof.
  replace (8 * S n)%nat with (8 + 8 * n)%nat by lia. rewrite <- drop_drop. by rewrite take_take_drop.
Qed.

Lemma crc_three_spec n size off buf crc0 crc1 crc2 :
  word32 crc0 -> word32 crc1 -> word32 crc2 -> (off + 8 * n + 2 * size <= length buf)%nat ->
  crc_three crc32q n size off buf crc0 crc1 crc2 =
    (crc_ref crc0 (take (8 * n) (drop off buf)), crc_ref crc1 (take (8 * n) (drop (off + size) buf)),
     crc_ref crc2 (take (8 * n) (drop (off + 2 * size) buf))).
Proof using HI.
  revert off crc0 crc1 crc2. induction n as [|n IH]; intros off crc0 crc1 crc2 H0 H1 H2 Hl; [done|].
  cbn [crc_three]. rewrite !crc32q_ref by (done || lia).
  rewrite IH by (try apply crc_ref_range; done || lia). rewrite !take_drop_step, !crc_ref_app.
  by replace (off + 8 + size)%nat with (off + size + 8)%nat by lia;
    replace (off + 8 + 2 * size)%nat with (off + 2 * size + 8)%nat by lia.
Qed.

Lemma crc_blocks_spec fuel k zeros buf crc : let size := (8 * k)%nat in
  is_zeros zeros (8 * size) -> (0 < k)%nat -> word32 crc -> (length buf <= fuel)%nat ->
  exists a b, buf = a ++ b /\ crc_blocks crc32q fuel size zeros crc buf = Ret (crc_ref crc a, b).
Proof using HI.
  intros size Hz Hk. revert buf crc. induction fuel as [|fuel IH]; intros buf crc Hc Hf; cbn [crc_blocks];
    (destruct (Nat.leb_spec (3 * size) (length buf)); [|by exists [], buf]); [lia|].
  unfold size at 1. rewrite Nat.mul_comm, Nat.div_mul by lia.
  rewrite crc_three_spec by (done || lia). fold size. rewrite !Nat.add_0_l, drop_0.
  set (x := take size buf). set (y := take size (drop size buf)). set (z := take size (drop (2 * size) buf)).
  assert (length y = size) as Hy by (unfold y; rewrite length_take, length_drop; lia).
  assert (length z = size) as Hl by (unfold z; rewrite length_take, length_drop; lia).
  assert (word32 (crc_ref crc x)) as Hx by by apply crc_ref_range.
  rewrite wrap_small by done. rewrite (crc32c_shift_spec _ _ _ Hz) by done. unfold mbind, outcome_bind.
  assert (Z.lxor (zero_bits (8 * size) (crc_ref crc x)) (crc_ref 0 y) = crc_ref crc (x ++ y)) as ->
    by (by rewrite crc_ref_app, (crc_ref_join (crc_ref crc x) y), Hy).
  assert (word32 (crc_ref crc (x ++ y))) as Hxy by by apply crc_ref_range.
  rewrite wrap_small by done. rewrite (crc32c_shift_spec _ _ _ Hz) by done.
  assert (Z.lxor (zero_bits (8 * size) (crc_ref crc (x ++ y))) (crc_ref 0 z) = crc_ref crc ((x ++ y) ++ z)) as ->
    by (by rewrite (crc_ref_app _ (x ++ y)), (crc_ref_join (crc_ref crc (x ++ y)) z), Hl).
  destruct (IH (drop (3 * size) buf) (crc_ref crc ((x ++ y) ++ z))) as (a & b & Eb & E);
    [by apply crc_ref_range|rewrite length_drop; lia|].
  exists (((x ++ y) ++ z) ++ a), b. rewrite E. split; [|by rewrite (crc_ref_app _ _ a)].
  rewrite <- (app_assoc _ a b), <- Eb. unfold x, y, z. rewrite take_take_drop.
  replace (size + size + size)%nat with (3 * size)%nat by lia.
  replace (2 * size)%nat with (size + size)%nat by lia. rewrite take_take_drop.
  replace (size + size + size)%nat with (3 * size)%nat by lia. by rewrite take_drop.
Qed.

Lemma crc_align_hw_spec buf crc addr : word32 crc ->
  exists a b, buf = a ++ b /\ crc_align_hw crc32b crc addr buf = (crc_ref crc a, b).
Proof using HI.
  revert crc addr. induction buf as [|b buf IH]; intros crc addr Hc; cbn [crc_align_hw]; [by exists [], []|].
  destruct (negb _); [|by exists [], (b :: buf)].
  rewrite (crc32b_spec _ _ HI) by done. fold (crc_byte crc b).
  destruct (IH (crc_byte crc b) (addr + 1) (crc_ref_range [b] crc Hc)) as (a & d & -> & ->).
  by exists (b :: a), d.
Qed.

Lemma crc_words_hw_spec n buf crc : word32 crc -> (8 * n <= length buf)%nat ->
  crc_words_hw crc32q n crc buf = (crc_ref crc (take (8 * n) buf), drop (8 * n) buf).
Proof using HI.
  revert buf crc. induction n as [|n IH]; intros buf crc Hc Hl; [done|]. cbn [crc_words_hw].
  rewrite crc32q_ref by (done || lia). rewrite drop_0, IH; [|by apply crc_ref_range|rewrite length_drop; lia].
  rewrite <- crc_ref_app, take_take_drop, drop_drop.
  by replace (8 + 8 * n)%nat with (8 * S n)%nat by lia.
Qed.

Lemma crc32c_hw_ref crc addr buf :
  word32 crc -> crc32c_hw crc32b crc32q crc addr buf = Ret (crc32c_ref crc buf).
Proof using HI.
  intros Hc. unfold crc32c_hw.
  destruct (crc32c_zeros_spec 13) as (long & El & Hlong); [lia|].
  destruct (crc32c_zeros_spec 8) as (short & Es & Hshort); [lia|].
  change (Z.of_nat LONG) with (2 ^ 13). rewrite El.
  change (Z.of_nat SHORT) with (2 ^ 8). rewrite Es. unfold mbind, outcome_bind.
  assert (word32 (Z.lxor crc 4294967295)) as Hc' by (apply lxor_word32; lia).
  destruct (crc_align_hw_spec buf (Z.lxor crc 4294967295) addr Hc') as (a & b & -> & ->).
  destruct (crc_blocks_spec (length b) 1024 long b (crc_ref (Z.lxor crc 4294967295) a))
    as (c & d & -> & E); [exact Hlong|lia|by apply crc_ref_range|done|].
  change (crc_blocks crc32q (length (c ++ d)) LONG long) with (crc_blocks crc32q (length (c ++ d)) (8 * 1024) long).
  rewrite E, <- crc_ref_app.
  destruct (crc_blocks_spec (length d) 32 short d (crc_ref (Z.lxor crc 4294967295) (a ++ c)))
    as (e & f & -> & E'); [exact Hshort|lia|by apply crc_ref_range|done|].
  change (crc_blocks crc32q (length (e ++ f)) SHORT short) with (crc_blocks crc32q (length (e ++ f)) (8 * 32) short).
  rewrite E', <- crc_ref_app.
  rewrite crc_words_hw_spec; [|by apply crc_ref_range|apply Nat.mul_div_le; lia].
  rewrite crc32b_ref by (by repeat apply crc_ref_range).
  rewrite <- !crc_ref_app, <- !app_assoc, take_drop. rewrite wrap_small by (by apply crc_ref_range). done.
Qed.
End HardwareProofs.

(** ** The checksum of the code *)

(** An instruction that is the shift register. *)
Definition soft_crc32b (c : Z) (b : ascii) : Z := crc_byte c b.
Definition soft_crc32q (c v : Z) : Z := zero_bits 64 (Z.lxor c v).

Lemma soft_instruction : crc32_instruction soft_crc32b soft_crc32q.
Proof. by split. Qed.

Lemma crc32c_eq_ref crc32b crc32q sse42 crc addr buf :
  crc32_instruction crc32b crc32q -> word32 crc ->
  crc32c crc32b crc32q sse42 crc addr buf = Ret (crc32c_ref crc buf).
Proof. intros HI Hc. destruct sse42; [by apply crc32c_hw_ref|by apply crc32c_sw_ref]. Qed.

Lemma crc32c_ref_range crc buf : word32 crc -> word32 (crc32c_ref crc buf).
Proof. intros Hc. apply lxor_word32; [|lia]. apply crc_ref_range, lxor_word32; [done|lia]. Qed.

Lemma crc_bit_nonzero c : 0 < c < 2 ^ 32 -> crc_bit c <> 0.
Proof.
  intros Hc E. rewrite crc_bit_eq in E. apply Z.lxor_eq in E.
  rewrite Z.shiftr_div_pow2 in E by lia. change (2 ^ 1) with 2 in E. destruct (Z.odd c) eqn:Ho.
  - assert (c / 2 < 2 ^ 31) by (apply Z.div_lt_upper_bound; lia). unfold POLY in E. lia.
  - rewrite (Z.div_mod c 2) in Hc by lia. rewrite Zmod_odd, Ho in Hc. lia.
Qed.

Lemma zero_bits_nonzero n c : 0 < c < 2 ^ 32 -> zero_bits n c <> 0.
Proof.
  intros Hc. induction n as [|n IH]; [cbn; lia|]. rewrite zero_bits_S. apply crc_bit_nonzero.
  pose proof (zero_bits_range n c ltac:(lia)). lia.
Qed.

(** Bits that differ in a burst give different registers. *)
Lemma crc_ref_burst crc a b k m :
  length a = length b -> (k <= 8 * length a)%nat -> 0 < m < 2 ^ 32 ->
  Z.lxor (le_val a) (le_val b) = Z.shiftl m (Z.of_nat k) -> crc_ref crc a <> crc_ref crc b.
Proof.
  intros Hl Hk Hm Hd E. rewrite !crc_ref_zero_bits, <- Hl in E. apply Z.lxor_eq_0_iff in E.
  rewrite <- zero_bits_lxor in E. revert E.
  replace (Z.lxor (Z.lxor crc (le_val a)) (Z.lxor crc (le_val b))) with (Z.shiftl m (Z.of_nat k)).
  - replace (8 * length a)%nat with (8 * length a - k + k)%nat by lia.
    rewrite zero_bits_add, zero_bits_shiftl. by apply zero_bits_nonzero.
  - rewrite <- Hd. apply Z.bits_inj'. intros n Hn. rewrite !Z.lxor_spec. by destruct (Z.testbit crc n); destruct (Z.testbit (le_val a) n), (Z.testbit (le_val b) n).
Qed.

(** C17: The software version with its eight tables and the hardware version with
    its three interleaved streams, matrix tables and alignment loops both compute
    the bitwise CRC-32C, for every start value, address and length, with any
    instruction that does what the processor's manual says; neither reads outside
    its tables or runs out of rounds. *)
Theorem crc32c_any_processor crc32b crc32q sse42 crc addr buf :
  crc32_instruction crc32b crc32q -> word32 crc ->
  crc32c crc32b crc32q sse42 crc addr buf = Ret (crc32c_ref crc buf).
Proof. apply crc32c_eq_ref. Qed.

Lemma crc32c_any_processor_witness :
  crc32c soft_crc32b soft_crc32q true 0 3 (lit "123456789") = Ret 3808858755.
Proof.
  rewrite (crc32c_any_processor soft_crc32b soft_crc32q true 0 3 (lit "123456789") soft_instruction).
  - vm_compute. reflexivity.
  - lia.
Defined.

(** A checksum can be continued: the checksum of a first part, given as the
    start value for the second part, is the checksum of the whole, also when the
    parts lie at different addresses or the processor changes in between. *)
Theorem crc32c_incremental crc32b crc32q s1 s2 s3 crc addr1 addr2 a b :
  crc32_instruction crc32b crc32q -> word32 crc ->
  (let! c := crc32c crc32b crc32q s1 crc addr1 a in crc32c crc32b crc32q s2 c addr2 b)
    = crc32c crc32b crc32q s3 crc addr1 (a ++ b).
Proof.
  intros HI Hc. rewrite !crc32c_eq_ref by done. unfold mbind, outcome_bind.
  rewrite crc32c_eq_ref; [|done|by apply crc32c_ref_range]. f_equal. unfold crc32c_ref.
  by rewrite Z.lxor_assoc, Z.lxor_nilpotent, Z.lxor_0_r, crc_ref_app.
Qed.

Lemma crc32c_incremental_witness :
  (let! c := crc32c soft_crc32b soft_crc32q true 0 5 (lit "12345") in
   crc32c soft_crc32b soft_crc32q false c 2 (lit "6789"))
    = crc32c soft_crc32b soft_crc32q true 0 5 (lit "12345" ++ lit "6789").
Proof.
  apply (crc32c_incremental soft_crc32b soft_crc32q true false true 0 5 2 (lit "12345") (lit "6789") soft_instruction).
  lia.
Defined.

(** C38: Two buffers of the same length whose bits differ only within a burst of
    32 bits never have the same checksum, whichever version computes it. *)
Theorem crc32c_detects_bursts crc32b crc32q s1 s2 crc addr1 addr2 a b k m :
  crc32_instruction crc32b crc32q -> word32 crc -> length a = length b -> (k <= 8 * length a)%nat ->
  0 < m < 2 ^ 32 -> Z.lxor (le_val a) (le_val b) = Z.shiftl m (Z.of_nat k) ->
  crc32c crc32b crc32q s1 crc addr1 a <> crc32c crc32b crc32q s2 crc addr2 b.
Proof.
  intros HI Hc Hl Hk Hm Hd E. rewrite !crc32c_eq_ref in E by done. injection E as E. unfold crc32c_ref in E.
  eapply (crc_ref_burst (Z.lxor crc 4294967295) a b k m Hl Hk Hm Hd).
  apply (f_equal (fun x => Z.lxor x 4294967295)) in E.
  by rewrite !Z.lxor_assoc, !Z.lxor_nilpotent, !Z.lxor_0_r in E.
Qed.

Lemma crc32c_detects_bursts_witness :
  crc32c soft_crc32b soft_crc32q true 0 1 (lit "block 1") <> crc32c soft_crc32b soft_crc32q false 0 1 (lit "block 2").
Proof.
  apply (crc32c_detects_bursts soft_crc32b soft_crc32q true false 0 1 1 (lit "block 1") (lit "block 2") 48 3
    soft_instruction); [lia|reflexivity|cbn; lia|lia|vm_compute; reflexivity].
Defined.
