(* ===== verification/Cache.v ===== *)
(** * The attribute cache of the sftp file system (src/usfs_wrap/sshfs/cache.c)

    A hash table from paths to nodes with attributes, directory entries and a
    link target, each with a time until which it is valid, in front of the
    operations of another file system.  Every function that takes the lock is one
    program here; an execution of many threads is a sequence of them.

    The hash table (GLib), the clock, the operations below the cache and the
    options parser (libfuse) are parameters with their documented behaviour.  The
    contract is a map from paths to attributes with expiry times, which knows
    neither nodes nor cleaning: [cache_refines_expiry_map].  The counter of writes
    keeps attributes out of the cache that were asked for before a write
    ([write_drops_attr_in_flight]); the attributes that are in the cache already
    survive the write ([write_keeps_stale_attr]). *)

From Stdlib Require Import ZArith Lia Ascii String.
From stdpp Require Import base list gmap.
From S2P Require Import Prelude World.

Local Open Scope Z_scope.

Definition DEFAULT_CACHE_TIMEOUT_SECS : Z := 20.
Definition DEFAULT_MAX_CACHE_SIZE : Z := 10000.
Definition DEFAULT_CACHE_CLEAN_INTERVAL_SECS : Z := 60.
Definition DEFAULT_MIN_CACHE_CLEAN_INTERVAL_SECS : Z := 5.

Record node := Node {
  node_stat : stat; stat_valid : Z;
  dir : option (list (list ascii)); dir_valid : Z;
  link : option (list ascii); link_valid : Z;
  valid : Z }.

Definition zero_stat : stat := Stat 0 0 0 0 0 0 0 0 0 0 0 0 0.
(** [g_new0 (struct node, 1)] *)
Definition new_node : node := Node zero_stat 0 None 0 None 0 0.

(** ** What the cache uses *)

(** GLib's hash table, with strings as keys. *)
Class GHashTable := {
  ghash : Type;
  g_hash_table_new : ghash;
  g_hash_table_lookup : ghash -> list ascii -> option node;
  g_hash_table_insert : list ascii -> node -> ghash -> ghash;
  g_hash_table_remove : list ascii -> ghash -> ghash;
  g_hash_table_foreach_remove : (list ascii -> node -> bool) -> ghash -> ghash;
  g_hash_table_size : ghash -> Z }.

Class GHashLaws `{GHashTable} : Prop := {
  lookup_new : forall k, g_hash_table_lookup g_hash_table_new k = None;
  lookup_inserted : forall k v t, g_hash_table_lookup (g_hash_table_insert k v t) k = Some v;
  lookup_inserted_ne : forall k k' v t, k <> k' ->
    g_hash_table_lookup (g_hash_table_insert k v t) k' = g_hash_table_lookup t k';
  lookup_removed : forall k t, g_hash_table_lookup (g_hash_table_remove k t) k = None;
  lookup_removed_ne : forall k k' t, k <> k' ->
    g_hash_table_lookup (g_hash_table_remove k t) k' = g_hash_table_lookup t k';
  lookup_foreach_removed : forall f t k, g_hash_table_lookup (g_hash_table_foreach_remove f t) k =
    match g_hash_table_lookup t k with Some v => if f k v then None else Some v | None => None end }.

(** The file system below ([struct sshfs_operations]), and the clock. *)
Class NextOper (W : Type) := {
  time : W -> Z * W;
  (** the result and the attributes stored *)
  next_getattr : list ascii -> Z -> W -> (Z * stat) * W;
  next_unlink : list ascii -> W -> Z * W;
  (** buffer, size, offset, file *)
  next_write : list ascii -> Z -> Z -> Z -> W -> Z * W;
  next_truncate : list ascii -> Z -> Z -> W -> Z * W }.

(** The clock does not go backwards: [clock] is the last time that was read. *)
Class ClockLaws (W : Type) `{NextOper W} := {
  clock : W -> Z;
  time_clock : forall w, clock w <= (time w).1 /\ clock (time w).2 = (time w).1 }.

Record file_handle := FileHandle { is_open : bool; fs_fh : Z }.

Record cache `{GHashTable} := Cache {
  stat_timeout_secs : Z; dir_timeout_secs : Z; link_timeout_secs : Z;
  max_size : Z; clean_interval_secs : Z; min_clean_interval_secs : Z;
  table : ghash; last_cleaned : Z; write_ctr : Z }.

Section Code.
Context `{GHashTable} {W : Type} `{NextOper W}.

(** The cache, the handles of open directories by address, and the world. *)
Record cst := Cst { the_cache : cache; handles : gmap Z file_handle; world : W }.

Definition set_table (t : ghash) (c : cache) : cache :=
  Cache _ (stat_timeout_secs c) (dir_timeout_secs c) (link_timeout_secs c) (max_size c) (clean_interval_secs c)
    (min_clean_interval_secs c) t (last_cleaned c) (write_ctr c).
Definition set_last_cleaned (t : Z) (c : cache) : cache :=
  Cache _ (stat_timeout_secs c) (dir_timeout_secs c) (link_timeout_secs c) (max_size c) (clean_interval_secs c)
    (min_clean_interval_secs c) (table c) t (write_ctr c).
Definition set_write_ctr (n : Z) (c : cache) : cache :=
  Cache _ (stat_timeout_secs c) (dir_timeout_secs c) (link_timeout_secs c) (max_size c) (clean_interval_secs c)
    (min_clean_interval_secs c) (table c) (last_cleaned c) n.

Definition with_cache (f : cache -> cache) (s : cst) : cst := Cst (f (the_cache s)) (handles s) (world s).
Definition with_table (f : ghash -> ghash) : prog cst unit :=
  pmodify (with_cache (fun c => set_table (f (table c)) c)).
Definition get_cache : prog cst cache := fun s => Ret (the_cache s, s).
Definition below {A} (f : W -> A * W) : prog cst A := fun s =>
  let (a, w) := f (world s) in Ret (a, Cst (the_cache s) (handles s) w).

(** ** The table *)

Definition cache_clean_entry (now : Z) (_ : list ascii) (n : node) : bool := now >? valid n.

Definition cache_clean : prog cst unit :=
  let* now := below time in
  let* c := get_cache in
  if (now >? last_cleaned c + min_clean_interval_secs c) &&
     ((g_hash_table_size (table c) >? max_size c) || (now >? last_cleaned c + clean_interval_secs c))
  then do* with_table (g_hash_table_foreach_remove (cache_clean_entry now));
       pmodify (with_cache (set_last_cleaned now))
  else pret tt.

Definition cache_lookup (path : list ascii) : prog cst (option node) :=
  let* c := get_cache in pret (g_hash_table_lookup (table c) path).

Definition cache_purge (path : list ascii) : prog cst unit := with_table (g_hash_table_remove path).

(** [strrchr (path, '/') - path] *)
Fixpoint last_slash (path : list ascii) : option nat :=
  match path with
  | [] => None
  | a :: path =>
      match last_slash path with
      | Some i => Some (S i)
      | None => if Ascii.eqb a "/" then Some O else None
      end
  end.

(** The key of the directory that holds [path]. *)
Definition parent_key (path : list ascii) : option (list ascii) :=
  match last_slash path with
  | Some O => Some (lit "/")
  | Some i => Some (take i path)
  | None => None
  end.

Definition cache_purge_parent (path : list ascii) : prog cst unit :=
  match parent_key path with Some k => cache_purge k | None => pret tt end.

Definition cache_invalidate (path : list ascii) : prog cst unit := cache_purge path.

Definition cache_invalidate_write (path : list ascii) : prog cst unit :=
  do* cache_purge path;
  pmodify (with_cache (fun c => set_write_ctr (u64 (write_ctr c + 1)) c)).

Definition cache_invalidate_dir (path : list ascii) : prog cst unit :=
  do* cache_purge path; cache_purge_parent path.

(** [strncmp (key, path, strlen (path)) == 0] *)
Definition cache_del_children (path key : list ascii) (_ : node) : bool := prefixb path key.

Definition cache_do_rename (from to : list ascii) : prog cst unit :=
  do* with_table (g_hash_table_foreach_remove (cache_del_children from));
  do* cache_purge from;
  do* cache_purge to;
  do* cache_purge_parent from;
  cache_purge_parent to.

(** The node, created on demand. *)
Definition cache_get (path : list ascii) : prog cst node :=
  let* n := cache_lookup path in
  match n with
  | Some n => pret n
  | None => do* with_table (g_hash_table_insert path new_node); pret new_node
  end.

(** The node of [cache_get] after assignments to its fields. *)
Definition store_node (path : list ascii) (n : node) : prog cst unit := with_table (g_hash_table_insert path n).

Definition cache_add_attr (path : list ascii) (stbuf : stat) (wrctr : Z) : prog cst unit :=
  let* c := get_cache in
  if wrctr =? write_ctr c then
    let* n := cache_get path in
    let* now := below time in
    let sv := now + stat_timeout_secs c in
    do* store_node path (Node stbuf sv (dir n) (dir_valid n) (link n) (link_valid n)
                           (if sv >? valid n then sv else valid n));
    cache_clean
  else pret tt.

Definition cache_add_dir (path : list ascii) (d : list (list ascii)) : prog cst unit :=
  let* c := get_cache in
  let* n := cache_get path in
  let* now := below time in
  let dv := now + dir_timeout_secs c in
  do* store_node path (Node (node_stat n) (stat_valid n) (Some d) dv (link n) (link_valid n)
                         (if dv >? valid n then dv else valid n));
  cache_clean.

(** The length of a string in a buffer of which [maxsize] bytes are looked at. *)
Fixpoint my_strnlen (s : list ascii) (maxsize : Z) : outcome nat :=
  if maxsize =? 0 then Ret O
  else match s with
       | [] => Undef
       | a :: s => if Ascii.eqb a nul then Ret O else let! n := my_strnlen s (maxsize - 1) in Ret (S n)
       end.

Definition cache_add_link (path buf : list ascii) (size : Z) : prog cst unit :=
  let* c := get_cache in
  let* n := cache_get path in
  let* len := plift (my_strnlen buf (u64 (size - 1))) in
  let* now := below time in
  let lv := now + link_timeout_secs c in
  do* store_node path (Node (node_stat n) (stat_valid n) (dir n) (dir_valid n) (Some (take len buf)) lv
                         (if lv >? valid n then lv else valid n));
  cache_clean.

(** The error and the attributes. *)
Definition cache_get_attr (path : list ascii) : prog cst (Z * option stat) :=
  let* n := cache_lookup path in
  match n with
  | Some n =>
      let* now := below time in
      if stat_valid n - now >=? 0 then pret (0, Some (node_stat n)) else pret (- EAGAIN, None)
  | None => pret (- EAGAIN, None)
  end.

Definition cache_get_write_ctr : prog cst Z := let* c := get_cache in pret (write_ctr c).

(** ** The operations *)

Definition cache_getattr (path : list ascii) (fi : Z) : prog cst (Z * stat) :=
  let* (err, st) := cache_get_attr path in
  match st with
  | Some st => pret (err, st)
  | None =>
      let* wrctr := cache_get_write_ctr in
      let* (err, st) := below (next_getattr path fi) in
      if err =? 0 then do* cache_add_attr path st wrctr; pret (err, st) else pret (err, st)
  end.

(** The result and the buffer; without a valid entry the code tests a variable
    that it has not set. *)
Definition cache_readlink (path buf : list ascii) (size : Z) : prog cst (Z * list ascii) :=
  let* n := cache_lookup path in
  match n with
  | Some n =>
      let* now := below time in
      if link_valid n - now >=? 0 then
        let* l := plift (deref (link n)) in
        let* buf := plift (strncpy buf 0 l (Z.to_nat (u64 (size - 1)))) in
        let* buf := plift (arr_set buf (u64 (size - 1)) nul) in
        pret (0, buf)
      else plift Undef
  | None => plift Undef
  end.

(** [p] is the result of [malloc]; the result and [fi->fh]. *)
Definition cache_opendir (p : Z) (path : list ascii) (fh : Z) : prog cst (Z * Z) :=
  if p =? 0 then pret (- ENOMEM, fh)
  else do* pmodify (fun s => Cst (the_cache s) (<[p := FileHandle false 0]> (handles s)) (world s)); pret (0, p).

Definition cache_releasedir (path : list ascii) (fh : Z) : prog cst (Z * Z) :=
  let* cfi := (fun s => match handles s !! fh with Some c => Ret (c, s) | None => Undef end) in
  do* pmodify (fun s => Cst (the_cache s) (delete fh (handles s)) (world s));
  if is_open cfi then plift Undef else pret (0, fh).

(** [filler] is the caller's function: name, attributes, offset. *)
Definition cache_readdir (path : list ascii) (filler : list ascii -> option stat -> Z -> prog cst Z)
    (offset fh : Z) : prog cst Z :=
  if negb (offset =? 0) then pexit
  else
    let* n := cache_lookup path in
    let miss :=
      let* cfi := (fun s => match handles s !! fh with Some c => Ret (c, s) | None => Undef end) in
      let* fh := if is_open cfi then pret (fs_fh cfi)
                 else do* pmodify (fun s => Cst (the_cache s) (<[fh := FileHandle true fh]> (handles s)) (world s));
                      pret fh in
      plift Undef in
    match n with
    | Some n =>
        match dir n with
        | Some d =>
            let* now := below time in
            if dir_valid n - now >=? 0 then
              do* fold_right (fun name k => do* filler name None 0; k) (pret tt) d; pret 0
            else miss
        | None => miss
        end
    | None => miss
    end.

(** The names collected so far, and [ch]'s path, filler and counter. *)
Definition cache_dirfill (ch_path : list ascii) (filler : list ascii -> option stat -> Z -> prog cst Z)
    (wrctr : Z) (ch_dir : list (list ascii)) (name : list ascii) (stbuf : stat) (off : Z)
    : prog cst (Z * list (list ascii)) :=
  let* err := filler name (Some stbuf) off in
  if err =? 0 then
    let ch_dir := ch_dir ++ [name] in
    if negb (Z.land (st_mode stbuf) S_IFMT =? 0) then
      let* basepath := plift (match ch_path with [] => Undef | [_] => Ret [] | _ => Ret ch_path end) in
      do* cache_add_attr (basepath ++ lit "/" ++ name) stbuf wrctr;
      pret (err, ch_dir)
    else pret (err, ch_dir)
  else pret (err, ch_dir).

Definition cache_mknod (path : list ascii) : prog cst Z := do* cache_invalidate_dir path; pret 0.
Definition cache_mkdir (path : list ascii) : prog cst Z := do* cache_invalidate_dir path; pret 0.

Definition cache_unlink (path : list ascii) : prog cst Z :=
  let* err := below (next_unlink path) in
  if err =? 0 then do* cache_invalidate_dir path; pret err else pret err.

Definition cache_rmdir (path : list ascii) : prog cst Z := do* cache_invalidate_dir path; pret 0.
Definition cache_symlink (from to : list ascii) : prog cst Z := do* cache_invalidate_dir to; pret 0.
Definition cache_rename (from to : list ascii) (flags : Z) : prog cst Z := do* cache_do_rename from to; pret 0.
Definition cache_link (from to : list ascii) : prog cst Z :=
  do* cache_invalidate from; do* cache_invalidate_dir to; pret 0.
Definition cache_chmod (path : list ascii) : prog cst Z := do* cache_invalidate path; pret 0.
Definition cache_chown (path : list ascii) : prog cst Z := do* cache_invalidate path; pret 0.
Definition cache_utimens (path : list ascii) : prog cst Z := do* cache_invalidate path; pret 0.

Definition cache_write (buf : list ascii) (size offset fi : Z) : prog cst Z :=
  let* res := below (next_write buf size offset fi) in
  if res >=? 0 then do* cache_invalidate_write (lit ""); pret res else pret res.

Definition cache_create (path : list ascii) : prog cst Z := do* cache_invalidate_dir path; pret 0.

Definition cache_truncate (path : list ascii) (size fi : Z) : prog cst Z :=
  let* err := below (next_truncate path size fi) in
  if err =? 0 then do* cache_invalidate path; pret err else pret err.

(** [struct sshfs_operations] *)
Record sshfs_operations := SshfsOperations {
  op_read : option (Z -> Z -> Z -> prog cst (Z * list ascii));
  op_write : option (list ascii -> Z -> Z -> Z -> prog cst Z);
  op_fsync : option (Z -> Z -> prog cst Z);
  op_release : option (list ascii -> Z -> prog cst Z);
  op_truncate : option (list ascii -> Z -> Z -> prog cst Z);
  op_getattr : option (list ascii -> Z -> prog cst (Z * stat));
  op_unlink : option (list ascii -> prog cst Z) }.

Definition cache_fill (oper : sshfs_operations) : sshfs_operations :=
  SshfsOperations (op_read oper)
    (if op_write oper then Some cache_write else None)
    (op_fsync oper) (op_release oper)
    (if op_truncate oper then Some cache_truncate else None)
    (if op_getattr oper then Some cache_getattr else None)
    (if op_unlink oper then Some cache_unlink else None).

Definition cache_wrap (oper : sshfs_operations) : prog cst sshfs_operations :=
  do* with_table (fun _ => g_hash_table_new); pret (cache_fill oper).

(** The defaults, which [fuse_opt_parse] may change. *)
Definition cache_parse_options (fuse_opt_parse : cache -> Z * cache) : prog cst Z := fun s =>
  let c := the_cache s in
  let (res, c) := fuse_opt_parse
    (Cache _ DEFAULT_CACHE_TIMEOUT_SECS DEFAULT_CACHE_TIMEOUT_SECS DEFAULT_CACHE_TIMEOUT_SECS
       DEFAULT_MAX_CACHE_SIZE DEFAULT_CACHE_CLEAN_INTERVAL_SECS DEFAULT_MIN_CACHE_CLEAN_INTERVAL_SECS
       (table c) (last_cleaned c) (write_ctr c)) in
  Ret (res, with_cache (fun _ => c) s).
End Code.
Arguments cst {_} W.

(** ** The contract: attributes with expiry times *)

(** What one thread does while it holds the lock. *)
Inductive action :=
| GetAttr (path : list ascii)
| AddAttr (path : list ascii) (st : stat) (wrctr : Z)
| AddDir (path : list ascii) (d : list (list ascii))
| AddLink (path buf : list ascii) (size : Z)
| Invalidate (path : list ascii)
| InvalidateWrite (path : list ascii)
| InvalidateDir (path : list ascii)
| DoRename (from to : list ascii)
| GetWriteCtr.

Record contract := Contract { attrs : gmap (list ascii) (stat * Z); writes : Z }.

Definition forget_parent (path : list ascii) (m : gmap (list ascii) (stat * Z)) :=
  match parent_key path with Some k => delete k m | None => m end.

(** [now] is the time of the action, [timeout] how long attributes are kept. *)
Definition contract_step (timeout : Z) (a : action) (now : Z) (k : contract) : contract :=
  match a with
  | AddAttr p st wrctr =>
      if wrctr =? writes k then Contract (<[p := (st, now + timeout)]> (attrs k)) (writes k) else k
  | Invalidate p => Contract (delete p (attrs k)) (writes k)
  | InvalidateWrite p => Contract (delete p (attrs k)) (u64 (writes k + 1))
  | InvalidateDir p => Contract (forget_parent p (delete p (attrs k))) (writes k)
  | DoRename from to =>
      Contract (forget_parent to (forget_parent from (delete to (delete from
        (filter (fun x => prefixb from x.1 = false) (attrs k)))))) (writes k)
  | GetAttr _ | AddDir _ _ | AddLink _ _ _ | GetWriteCtr => k
  end.

(** The attributes that are valid at a time. *)
Definition contract_attr (m : gmap (list ascii) (stat * Z)) (now : Z) (path : list ascii) : option stat :=
  match m !! path with Some (st, e) => if now <=? e then Some st else None | None => None end.

Definition node_attr (n : option node) (now : Z) : option stat :=
  match n with Some n => if now <=? stat_valid n then Some (node_stat n) else None | None => None end.

(** A node lives as long as anything in it. *)
Definition node_ok (n : node) : Prop := stat_valid n <= valid n /\ dir_valid n <= valid n /\ link_valid n <= valid n.

(** From [now] on, the table and the contract have the same attributes. *)
Definition agrees (lk : list ascii -> option node) (now : Z) (m : gmap (list ascii) (stat * Z)) : Prop :=
  0 < now /\ (forall k n, lk k = Some n -> node_ok n) /\
  (forall k t, now <= t -> contract_attr m t k = node_attr (lk k) t).

Section Agrees.
Implicit Types (lk : list ascii -> option node) (m : gmap (list ascii) (stat * Z)).

Lemma agrees_later lk now now' m : agrees lk now m -> now <= now' -> agrees lk now' m.
Proof. intros (Hp & Hok & Ha) Hn. split; [lia|]. split; [done|]. intros k t Ht. apply Ha. lia. Qed.

Lemma agrees_remove lk lk' now m path :
  agrees lk now m -> lk' path = None -> (forall k, path <> k -> lk' k = lk k) -> agrees lk' now (delete path m).
Proof.
  intros (Hp & Hok & Ha) He Hne. split; [done|]. split.
  - intros k n Hk. destruct (decide (path = k)) as [<-|Hd]; [congruence|]. apply (Hok k). by rewrite <- Hne.
  - intros k t Ht. unfold contract_attr. destruct (decide (path = k)) as [<-|Hd].
    + by rewrite lookup_delete_eq, He.
    + rewrite lookup_delete_ne, Hne by done. by apply Ha.
Qed.

Lemma agrees_filter lk lk' now m (P : list ascii -> bool) :
  agrees lk now m ->
  (forall k, lk' k = match lk k with Some n => if P k then None else Some n | None => None end) ->
  agrees lk' now (filter (fun x => P x.1 = false) m).
Proof.
  intros (Hp & Hok & Ha) Hl. split; [done|]. split.
  - intros k n Hk. rewrite Hl in Hk. destruct (lk k) eqn:E; [|done]. destruct (P k); [done|].
    apply (Hok k). congruence.
  - intros k t Ht. rewrite Hl. specialize (Ha k t Ht). unfold contract_attr in *.
    destruct (P k) eqn:E.
    + rewrite map_lookup_filter_None_2; [by destruct (lk k)|]. right. intros x Hx. cbn. congruence.
    + destruct (m !! k) as [x|] eqn:Em.
      * rewrite (map_lookup_filter_Some_2 _ m k x Em E), Ha. by destruct (lk k).
      * rewrite map_lookup_filter_None_2 by (by left). rewrite Ha. by destruct (lk k).
Qed.

(** Cleaning takes only what has expired. *)
Lemma agrees_clean lk lk' now m :
  agrees lk now m ->
  (forall k, lk' k = match lk k with Some n => if cache_clean_entry now k n then None else Some n | None => None end) ->
  agrees lk' now m.
Proof.
  intros (Hp & Hok & Ha) Hl. split; [done|]. split.
  - intros k n Hk. rewrite Hl in Hk. destruct (lk k) eqn:E; [|done].
    destruct (cache_clean_entry now k _); [done|]. apply (Hok k). congruence.
  - intros k t Ht. rewrite Hl, (Ha k t Ht). destruct (lk k) as [n|] eqn:E; [|done].
    unfold cache_clean_entry. destruct (now >? valid n) eqn:Ec; [|done]. cbn.
    destruct (Hok k n E) as [Hs _]. bools. by destruct (Z.leb_spec t (stat_valid n)); [lia|].
Qed.

Lemma agrees_store lk lk' now m path n :
  agrees lk now m -> node_ok n -> lk' path = Some n -> (forall k, path <> k -> lk' k = lk k) ->
  agrees lk' now (<[path := (node_stat n, stat_valid n)]> m).
Proof.
  intros (Hp & Hok & Ha) Hn He Hne. split; [done|]. split.
  - intros k n' Hk. destruct (decide (path = k)) as [<-|Hd]; [by simplify_eq|]. apply (Hok k). by rewrite <- Hne.
  - intros k t Ht. unfold contract_attr. destruct (decide (path = k)) as [<-|Hd].
    + by rewrite lookup_insert_eq, He.
    + rewrite lookup_insert_ne, Hne by done. by apply Ha.
Qed.

(** A node whose attributes do not change. *)
Lemma agrees_same_attr lk lk' now m path n :
  agrees lk now m -> node_ok n -> (forall t, now <= t -> node_attr (lk path) t = node_attr (Some n) t) ->
  lk' path = Some n -> (forall k, path <> k -> lk' k = lk k) -> agrees lk' now m.
Proof.
  intros (Hp & Hok & Ha) Hn Hs He Hne. split; [done|]. split.
  - intros k n' Hk. destruct (decide (path = k)) as [<-|Hd]; [by simplify_eq|]. apply (Hok k). by rewrite <- Hne.
  - intros k t Ht. destruct (decide (path = k)) as [<-|Hd]; [by rewrite He, <- Hs, Ha|].
    rewrite Hne by done. by apply Ha.
Qed.
End Agrees.

Section Simulation.
Context `{GHashLaws} {W : Type} `{!NextOper W} `{!ClockLaws W}.

Definition exec (a : action) : prog (cst W) unit :=
  match a with
  | GetAttr p => do* cache_get_attr p; pret tt
  | AddAttr p st wrctr => cache_add_attr p st wrctr
  | AddDir p d => cache_add_dir p d
  | AddLink p buf size => cache_add_link p buf size
  | Invalidate p => cache_invalidate p
  | InvalidateWrite p => cache_invalidate_write p
  | InvalidateDir p => cache_invalidate_dir p
  | DoRename from to => cache_do_rename from to
  | GetWriteCtr => do* cache_get_write_ctr; pret tt
  end.

(** Actions in the order of the lock, with the time at which each one started. *)
Fixpoint run (l : list action) : prog (cst W) (list Z) :=
  match l with
  | [] => pret []
  | a :: l => fun s => (do* exec a; let* ts := run l in pret ((time (world s)).1 :: ts)) s
  end.

Definition contract_run (timeout : Z) (l : list action) (ts : list Z) (k : contract) : contract :=
  fold_left (fun k x => contract_step timeout x.1 x.2 k) (combine l ts) k.

Definition sim (timeout : Z) (s : cst W) (k : contract) : Prop :=
  stat_timeout_secs (the_cache s) = timeout /\ write_ctr (the_cache s) = writes k /\
  agrees (g_hash_table_lookup (table (the_cache s))) (clock (world s)) (attrs k).

(** The buffer of a link target holds a string. *)
Definition action_ok (a : action) : Prop :=
  match a with AddLink _ buf _ => nul ∈ buf | _ => True end.

Lemma purge_sim T s k p : sim T s k ->
  exists s', cache_purge p s = Ret (tt, s') /\ sim T s' (Contract (delete p (attrs k)) (writes k)).
Proof using All.
  intros (HT & Hw & Ha). eexists. split; [reflexivity|]. split; [done|]. split; [done|].
  eapply agrees_remove; [exact Ha|apply lookup_removed|]. intros k' Hk. by apply lookup_removed_ne.
Qed.

Lemma purge_parent_sim T s k p : sim T s k ->
  exists s', cache_purge_parent p s = Ret (tt, s') /\ sim T s' (Contract (forget_parent p (attrs k)) (writes k)).
Proof using All.
  intros Hs. unfold cache_purge_parent, forget_parent. destruct (parent_key p); [by apply purge_sim|].
  exists s. split; [done|]. by destruct k.
Qed.

Lemma time_sim T s k : sim T s k ->
  exists s', below time s = Ret ((time (world s)).1, s') /\ sim T s' k /\
    clock (world s') = (time (world s)).1 /\ the_cache s' = the_cache s.
Proof using All.
  intros (HT & Hw & Ha). unfold below. destruct (time (world s)) as [t w] eqn:E. eexists. split; [reflexivity|].
  pose proof (time_clock (world s)) as [Hle He]. rewrite E in *. cbn in *.
  split; [|done]. split; [done|]. split; [done|]. cbn. by eapply agrees_later; [|rewrite He].
Qed.

Lemma clean_sim T s k : sim T s k -> exists s', cache_clean s = Ret (tt, s') /\ sim T s' k.
Proof using All.
  intros Hs. unfold cache_clean. destruct (time_sim T s k Hs) as (s1 & E1 & Hs1 & Hc & _).
  rewrite (pbind_ret _ _ _ _ _ E1). rewrite <- Hc. unfold pbind at 1, get_cache.
  destruct (_ && _)%bool; [|exists s1; by split]. eexists. split; [reflexivity|].
  destruct Hs1 as (HT & Hw & Ha). split; [done|]. split; [done|].
  eapply agrees_clean; [exact Ha|]. intros q. apply lookup_foreach_removed.
Qed.

Lemma new_node_attr t : 0 < t -> node_attr (Some new_node) t = None.
Proof. intros Ht. cbn. by destruct (Z.leb_spec t 0); [lia|]. Qed.

Lemma get_sim T s k p : sim T s k ->
  exists n s', cache_get p s = Ret (n, s') /\ sim T s' k /\ world s' = world s /\ node_ok n /\
    g_hash_table_lookup (table (the_cache s')) p = Some n.
Proof using All.
  intros (HT & Hw & Ha). unfold cache_get, cache_lookup, get_cache, pbind, pret. cbv beta iota.
  pose proof Ha as (Hp & Hok & _).
  destruct (g_hash_table_lookup (table (the_cache s)) p) as [n|] eqn:E.
  - exists n, s. split; [done|]. split; [by split|]. split; [done|]. split; [by apply (Hok p)|done].
  - exists new_node. eexists. split; [reflexivity|]. split; [|split; [done|]; split; [done|apply lookup_inserted]].
    split; [done|]. split; [done|].
    eapply agrees_same_attr; [exact Ha| |intros t Ht|apply lookup_inserted|intros q Hq; by apply lookup_inserted_ne].
    + by split_and!.
    + rewrite E, new_node_attr; [done|exact (Z.lt_le_trans _ _ _ Hp Ht)].
Qed.

(** Storing a node and cleaning: [m] is what the contract says of it. *)
Lemma store_sim T s k p n m :
  sim T s k -> node_ok n ->
  (forall lk', lk' p = Some n -> (forall q, p <> q -> lk' q = g_hash_table_lookup (table (the_cache s)) q) ->
     agrees lk' (clock (world s)) m) ->
  exists s', (do* store_node p n; cache_clean) s = Ret (tt, s') /\ sim T s' (Contract m (writes k)).
Proof using All.
  intros (HT & Hw & Ha) Hn Hm. unfold pbind at 1, store_node, with_table, pmodify. apply clean_sim.
  split; [done|]. split; [done|]. apply Hm; [apply lookup_inserted|]. intros q Hq. by apply lookup_inserted_ne.
Qed.

Lemma valid_max a b : let v := if a >? b then a else b in a <= v /\ b <= v.
Proof. cbn. rewrite Z.gtb_ltb. destruct (Z.ltb_spec b a); lia. Qed.

Lemma node_ok_attr n st sv : node_ok n ->
  node_ok (Node st sv (dir n) (dir_valid n) (link n) (link_valid n) (if sv >? valid n then sv else valid n)).
Proof. intros (Hs & Hd & Hl). destruct (valid_max sv (valid n)). split_and!; cbn in *; lia. Qed.
Lemma node_ok_dir n d dv : node_ok n ->
  node_ok (Node (node_stat n) (stat_valid n) d dv (link n) (link_valid n) (if dv >? valid n then dv else valid n)).
Proof. intros (Hs & Hd & Hl). destruct (valid_max dv (valid n)). split_and!; cbn in *; lia. Qed.
Lemma node_ok_link n l lv : node_ok n ->
  node_ok (Node (node_stat n) (stat_valid n) (dir n) (dir_valid n) l lv (if lv >? valid n then lv else valid n)).
Proof. intros (Hs & Hd & Hl). destruct (valid_max lv (valid n)). split_and!; cbn in *; lia. Qed.

Lemma add_attr_sim T s k p st c : sim T s k ->
  exists s', cache_add_attr p st c s = Ret (tt, s') /\
    sim T s' (contract_step T (AddAttr p st c) (time (world s)).1 k).
Proof using All.
  intros Hs. pose proof Hs as (HT & Hw & _). unfold cache_add_attr, pbind at 1, get_cache. cbn [contract_step].
  rewrite Hw. destruct (c =? writes k); [|by exists s].
  destruct (get_sim T s k p Hs) as (n & s1 & E1 & Hs1 & Hw1 & Hn & Hl). rewrite (pbind_ret _ _ _ _ _ E1).
  destruct (time_sim T s1 k Hs1) as (s2 & E2 & Hs2 & Hc2 & Hcc). rewrite (pbind_ret _ _ _ _ _ E2). cbv zeta.
  rewrite HT, <- Hw1. apply store_sim; [done|by apply node_ok_attr|]. intros lk' He Hne.
  destruct Hs2 as (_ & _ & Ha). by eapply (agrees_store _ lk' _ _ p _ Ha _ He Hne).
  Unshelve. by apply node_ok_attr.
Qed.

(** The two functions that leave the attributes alone. *)
Lemma add_other_sim T s k p (f : node -> Z -> node) :
  sim T s k -> (forall n t, node_ok n -> node_ok (f n t) /\ node_stat (f n t) = node_stat n /\
                                          stat_valid (f n t) = stat_valid n) ->
  exists n s1, cache_get p s = Ret (n, s1) /\
    exists s', (let* now := below time in do* store_node p (f n now); cache_clean) s1 = Ret (tt, s') /\ sim T s' k.
Proof using All.
  intros Hs Hf. destruct (get_sim T s k p Hs) as (n & s1 & E1 & Hs1 & Hw1 & Hn & Hl). exists n, s1. split; [done|].
  destruct (time_sim T s1 k Hs1) as (s2 & E2 & Hs2 & Hc2 & Hcc). rewrite (pbind_ret _ _ _ _ _ E2).
  set (t := (time (world s1)).1). destruct (Hf n t Hn) as (Hn' & Hst & Hsv).
  destruct (store_sim T s2 k p (f n t) (attrs k)) as (s' & E & Hs'); [done..| |exists s'; split; [exact E|by destruct k]].
  intros lk' He Hne. destruct Hs2 as (_ & _ & Ha). eapply agrees_same_attr; [exact Ha|done| |done|exact Hne].
  intros t' _. rewrite Hcc, Hl. cbn. by rewrite Hst, Hsv.
Qed.

Lemma my_strnlen_ret buf n : nul ∈ buf -> exists k, my_strnlen buf n = Ret k.
Proof.
  revert n. induction buf as [|a buf IH]; intros n Hin; [by apply not_elem_of_nil in Hin|]. cbn [my_strnlen].
  destruct (n =? 0); [eauto|]. destruct (Ascii.eqb a nul) eqn:E; [eauto|].
  apply elem_of_cons in Hin as [<-|Hin]; [by rewrite Ascii.eqb_refl in E|].
  destruct (IH (n - 1) Hin) as [k ->]. unfold mbind, outcome_bind. eauto.
Qed.

(** Looking attributes up, in the contract's terms. *)
Lemma get_attr_sim T s k p : sim T s k ->
  exists s', sim T s' k /\ the_cache s' = the_cache s /\
    cache_get_attr p s = Ret (match contract_attr (attrs k) (time (world s)).1 p with
                              | Some st => (0, Some st) | None => (- EAGAIN, None) end, s').
Proof using All.
  intros Hs. pose proof Hs as (_ & _ & _ & _ & Ha). pose proof (time_clock (world s)) as [Hle _].
  rewrite (Ha p (time (world s)).1 Hle). unfold cache_get_attr, cache_lookup, get_cache, pbind at 1 2, pret. cbv beta iota.
  destruct (g_hash_table_lookup (table (the_cache s)) p) as [n|]; [|exists s; by split_and!].
  destruct (time_sim T s k Hs) as (s1 & E1 & Hs1 & _ & Hcc). rewrite (pbind_ret _ _ _ _ _ E1).
  exists s1. split; [done|]. split; [done|]. cbn [node_attr]. set (now := (time (world s)).1).
  rewrite Z.geb_leb. by destruct (Z.leb_spec 0 (stat_valid n - now)), (Z.leb_spec now (stat_valid n)); try lia.
Qed.

Lemma exec_sim T s k a : sim T s k -> action_ok a ->
  exists s', exec a s = Ret (tt, s') /\ sim T s' (contract_step T a (time (world s)).1 k).
Proof using All.
  intros Hs Hok. destruct a as [p|p st c|p d|p buf size|p|p|p|from to|]; cbn [exec contract_step].
  - destruct (get_attr_sim T s k p Hs) as (s' & Hs' & _ & E). exists s'. by rewrite (pbind_ret _ _ _ _ _ E).
  - by apply add_attr_sim.
  - unfold cache_add_dir, pbind at 1, get_cache.
    destruct (add_other_sim T s k p (fun n now => let dv := now + dir_timeout_secs (the_cache s) in
      Node (node_stat n) (stat_valid n) (Some d) dv (link n) (link_valid n) (if dv >? valid n then dv else valid n)))
      as (n & s1 & E1 & s' & E & Hs'); [done|intros; by split; [apply node_ok_dir|]|].
    exists s'. by rewrite (pbind_ret _ _ _ _ _ E1).
  - unfold cache_add_link, pbind at 1, get_cache. destruct (my_strnlen_ret buf (u64 (size - 1)) Hok) as [len El].
    destruct (add_other_sim T s k p (fun n now => let lv := now + link_timeout_secs (the_cache s) in
      Node (node_stat n) (stat_valid n) (dir n) (dir_valid n) (Some (take len buf)) lv
        (if lv >? valid n then lv else valid n)))
      as (n & s1 & E1 & s' & E & Hs'); [done|intros; by split; [apply node_ok_link|]|].
    exists s'. rewrite (pbind_ret _ _ _ _ _ E1), El. by unfold pbind at 1, plift.
  - by apply purge_sim.
  - destruct (purge_sim T s k p Hs) as (s1 & E1 & Hs1). unfold cache_invalidate_write.
    rewrite (pbind_ret _ _ _ _ _ E1). eexists. split; [reflexivity|]. destruct Hs1 as (HT & Hw & Ha).
    split; [done|]. split; [by cbn; rewrite Hw|done].
  - destruct (purge_sim T s k p Hs) as (s1 & E1 & Hs1). unfold cache_invalidate_dir.
    rewrite (pbind_ret _ _ _ _ _ E1). by destruct (purge_parent_sim T s1 _ p Hs1) as (s' & E & Hs'); eauto.
  - unfold cache_do_rename. destruct Hs as (HT & Hw & Ha). unfold pbind at 1, with_table, pmodify.
    match goal with |- context [pbind _ _ ?x] => set (s0 := x) end.
    assert (sim T s0 (Contract (filter (fun x => prefixb from x.1 = false) (attrs k)) (writes k))) as G0.
    { split; [done|]. split; [done|]. eapply agrees_filter; [exact Ha|]. intros q. apply lookup_foreach_removed. }
    destruct (purge_sim T s0 _ from G0) as (s1 & E1 & G1). rewrite (pbind_ret _ _ _ _ _ E1).
    destruct (purge_sim T s1 _ to G1) as (s2 & E2 & G2). rewrite (pbind_ret _ _ _ _ _ E2).
    destruct (purge_parent_sim T s2 _ from G2) as (s3 & E3 & G3). rewrite (pbind_ret _ _ _ _ _ E3).
    destruct (purge_parent_sim T s3 _ to G3) as (s4 & E4 & G4). by exists s4.
  - by exists s.
Qed.

Lemma run_sim T l s k : sim T s k -> Forall action_ok l ->
  exists ts s', run l s = Ret (ts, s') /\ sim T s' (contract_run T l ts k).
Proof using All.
  revert s k. induction l as [|a l IH]; intros s k Hs Hl; [by exists [], s|].
  apply Forall_cons in Hl as [Ha Hl]. destruct (exec_sim T s k a Hs Ha) as (s1 & E1 & H1).
  destruct (IH s1 _ H1 Hl) as (ts & s' & E & H'). exists ((time (world s)).1 :: ts), s'. split; [|exact H'].
  cbn [run]. rewrite (pbind_ret _ _ _ _ _ E1). by rewrite (pbind_ret _ _ _ _ _ E).
Qed.

(** C14: The attribute cache is a map with expiry times.  From the empty table,
    whatever lock-protected sections the threads run and in whatever order, all of
    them return, and the next lookup of a path gives what a map gives in which an
    addition stores the attributes with the time plus the timeout, an invalidation
    deletes the path (and its parent), and a rename deletes what starts with the old
    name.  Nodes shared with directory listings and link targets, nodes made on
    demand and the cleaning of the table do not show. *)
Theorem cache_refines_expiry_map l s path :
  table (the_cache s) = g_hash_table_new -> 0 < clock (world s) -> Forall action_ok l ->
  exists ts s' s'', run l s = Ret (ts, s') /\
    let k := contract_run (stat_timeout_secs (the_cache s)) l ts (Contract ∅ (write_ctr (the_cache s))) in
    cache_get_attr path s' = Ret (match contract_attr (attrs k) (time (world s')).1 path with
                                  | Some st => (0, Some st) | None => (- EAGAIN, None) end, s'').
Proof using All.
  intros Ht Hp Hl.
  destruct (run_sim (stat_timeout_secs (the_cache s)) l s (Contract ∅ (write_ctr (the_cache s)))) as (ts & s' & E & Hs').
  - split; [done|]. split; [done|]. rewrite Ht. split; [done|]. split; intros q; rewrite lookup_new; [done|].
    intros t _. done.
  - done.
  - destruct (get_attr_sim _ _ _ path Hs') as (s'' & _ & _ & Eg). by exists ts, s', s''.
Qed.

Definition is_write (a : action) : bool := match a with InvalidateWrite _ => true | _ => false end.

Lemma contract_step_writes T a t k : 0 <= writes k < 2 ^ 64 ->
  writes (contract_step T a t k) = u64 (writes k + if is_write a then 1 else 0).
Proof.
  intros Hk. destruct a; cbn [contract_step is_write]; rewrite ?Z.add_0_r; try (symmetry; by apply wrap_small); [|done].
  destruct (_ =? _); symmetry; by apply wrap_small.
Qed.

Lemma contract_run_writes T l ts k : 0 <= writes k < 2 ^ 64 -> length ts = length l ->
  writes (contract_run T l ts k) = u64 (writes k + count is_write l).
Proof.
  revert ts k. induction l as [|a l IH]; intros ts k Hk Hl.
  - cbn. rewrite Z.add_0_r. symmetry. by apply wrap_small.
  - destruct ts as [|t ts]; [done|]. unfold contract_run. cbn [combine fold_left fst snd].
    fold (contract_run T l ts (contract_step T a t k)). rewrite IH; [|rewrite contract_step_writes by done; apply wrap_range; lia|by injection Hl].
    rewrite contract_step_writes by done. unfold wrap. rewrite Zplus_mod_idemp_l. cbn [count].
    by rewrite <- Z.add_assoc.
Qed.

Lemma run_length l s ts s' : run l s = Ret (ts, s') -> length ts = length l.
Proof.
  revert s ts s'. induction l as [|a l IH]; intros s ts s' E; [by injection E as <-|]. cbn [run] in E.
  apply pbind_inv in E as (? & s1 & _ & E). apply pbind_inv in E as (ts' & s2 & E2 & E).
  injection E as <- _. cbn. f_equal. by eapply IH.
Qed.

(** Attributes that were asked for before a write do not enter the cache after
    it.  A thread reads the counter of writes and goes to the server; when other
    threads complete at least one write, and fewer than 2^64, before it adds the
    answer, the cache is left as it is. *)
Theorem write_drops_attr_in_flight l1 l2 s path st :
  table (the_cache s) = g_hash_table_new -> 0 < clock (world s) -> 0 <= write_ctr (the_cache s) < 2 ^ 64 ->
  Forall action_ok l1 -> Forall action_ok l2 -> 0 < count is_write l2 < 2 ^ 64 ->
  exists ts1 s1 wrctr ts2 s2, run l1 s = Ret (ts1, s1) /\ cache_get_write_ctr s1 = Ret (wrctr, s1) /\
    run l2 s1 = Ret (ts2, s2) /\ cache_add_attr path st wrctr s2 = Ret (tt, s2).
Proof using All.
  intros Ht Hp Hc H1 H2 Hn.
  destruct (run_sim (stat_timeout_secs (the_cache s)) l1 s (Contract ∅ (write_ctr (the_cache s)))) as (ts1 & s1 & E1 & Hs1).
  { split; [done|]. split; [done|]. rewrite Ht. split; [done|]. by split; intros q; rewrite lookup_new. }
  { done. }
  destruct (run_sim _ l2 s1 _ Hs1 H2) as (ts2 & s2 & E2 & Hs2).
  exists ts1, s1, (write_ctr (the_cache s1)), ts2, s2. split; [done|]. split; [done|]. split; [done|].
  unfold cache_add_attr, pbind at 1, get_cache. destruct (Z.eqb_spec (write_ctr (the_cache s1)) (write_ctr (the_cache s2))) as [E|]; [|done].
  destruct Hs1 as (_ & Hw1 & _), Hs2 as (_ & Hw2 & _). rewrite Hw1, Hw2 in E. exfalso. revert E.
  rewrite (contract_run_writes _ l2) by (try (rewrite contract_run_writes by (done || by eapply run_length); apply wrap_range; lia); by eapply run_length).
  rewrite contract_run_writes by (done || by eapply run_length). cbn [writes].
  pose proof (wrap_range 64 (write_ctr (the_cache s) + count is_write l1) ltac:(lia)) as Hr.
  set (x := u64 _) in *. unfold wrap. intros E. symmetry in E.
  destruct (Z.lt_ge_cases (x + count is_write l2) (2 ^ 64)).
  - rewrite Z.mod_small in E by lia. lia.
  - replace (x + count is_write l2) with (x + count is_write l2 - 2 ^ 64 + 1 * 2 ^ 64) in E by lia.
    rewrite Z.mod_add, Z.mod_small in E by lia. lia.
Qed.

(** A write does not drop the attributes of the file that is written.  The
    entry that is purged is that of the empty path, so that after a successful
    write a [getattr] of the file is answered from the cache, with the attributes
    from before the write, until they expire; the server is not asked. *)
Theorem write_keeps_stale_attr s path n buf size offset fi fi' res w1 now w2 :
  g_hash_table_lookup (table (the_cache s)) path = Some n -> path <> [] ->
  next_write buf size offset fi (world s) = (res, w1) -> 0 <= res ->
  time w1 = (now, w2) -> now <= stat_valid n ->
  exists s', (do* cache_write buf size offset fi; cache_getattr path fi') s = Ret ((0, node_stat n), s') /\ world s' = w2.
Proof using All.
  intros Hl Hne Hw Hr Ht Hv.
  set (c1 := set_write_ctr (u64 (write_ctr (the_cache s) + 1))
               (set_table (g_hash_table_remove (lit "") (table (the_cache s))) (the_cache s))).
  assert (cache_write buf size offset fi s = Ret (res, Cst c1 (handles s) w1)) as E1.
  { unfold cache_write, pbind at 1, below. rewrite Hw. cbv beta iota.
    by rewrite Z.geb_leb, (proj2 (Z.leb_le 0 res) Hr). }
  assert (cache_get_attr path (Cst c1 (handles s) w1) = Ret ((0, Some (node_stat n)), Cst c1 (handles s) w2)) as E2.
  { unfold cache_get_attr, cache_lookup, get_cache, pbind, pret, below. cbn [the_cache c1 set_write_ctr set_table table].
    rewrite lookup_removed_ne, Hl by (by intros <-). cbn [world]. rewrite Ht. cbv beta iota.
    rewrite Z.geb_leb, (proj2 (Z.leb_le 0 (stat_valid n - now))) by lia. done. }
  exists (Cst c1 (handles s) w2). split; [|done]. rewrite (pbind_ret _ _ _ _ _ E1).
  unfold cache_getattr. by rewrite (pbind_ret _ _ _ _ _ E2).
Qed.
End Simulation.

(** ** An instance: a hash table, a clock that advances, a server with one file *)

Module CacheExample.
#[export] Instance gmap_hash : GHashTable := {|
  ghash := gmap (list ascii) node;
  g_hash_table_new := ∅;
  g_hash_table_lookup := fun t k => t !! k;
  g_hash_table_insert := fun k v t => <[k := v]> t;
  g_hash_table_remove := fun k t => delete k t;
  g_hash_table_foreach_remove := fun f t => filter (fun x => f x.1 x.2 = false) t;
  g_hash_table_size := fun t => Z.of_nat (size t) |}.

#[export] Instance gmap_hash_laws : GHashLaws.
Proof.
  split; cbn.
  - intros k. apply lookup_empty.
  - intros k v t. apply lookup_insert_eq.
  - intros k k' v t Hne. by apply lookup_insert_ne.
  - intros k t. apply lookup_delete_eq.
  - intros k k' t Hne. by apply lookup_delete_ne.
  - intros f t k. destruct (t !! k) as [n|] eqn:E.
    + destruct (f k n) eqn:Ef.
      * apply map_lookup_filter_None_2. right. intros x Hx. cbn. congruence.
      * by apply map_lookup_filter_Some_2.
    + apply map_lookup_filter_None_2. by left.
Qed.

Record server := Server { server_clock : Z; server_size : Z }.

Definition sized (n : Z) : stat := Stat 0 0 33188 1 0 0 0 n 4096 0 0 0 0.

#[export] Instance server_ops : NextOper server := {|
  time := fun w => (server_clock w + 1, Server (server_clock w + 1) (server_size w));
  next_getattr := fun _ _ w => ((0, sized (server_size w)), w);
  next_unlink := fun _ w => (0, w);
  next_write := fun _ n off _ w => (n, Server (server_clock w) (Z.max (server_size w) (off + n)));
  next_truncate := fun _ n _ w => (0, Server (server_clock w) n) |}.

#[export] Program Instance server_laws : ClockLaws server := {| clock := server_clock |}.
Next Obligation. intros w. cbn. lia. Qed.

(** The default options, nothing cached, five minutes after the start. *)
Definition started : cst server := Cst (Cache _ 20 20 20 10000 60 5 g_hash_table_new 0 0) ∅ (Server 300 10).

Definition mixed : list action :=
  [AddAttr (lit "/a") (sized 10) 0; AddDir (lit "/a") [lit "b"]; AddAttr (lit "/ab") (sized 1) 0;
   AddLink (lit "/l") (lit "t" ++ [nul]) 2; InvalidateWrite (lit ""); AddAttr (lit "/c") (sized 2) 0;
   InvalidateDir (lit "/ab/x"); GetAttr (lit "/a")].

(** The counter was 0 when the attributes of /c were asked for. *)
Definition mixed_cached (path : string) : outcome (Z * option stat) :=
  match run mixed started with
  | Ret (_, s) => match cache_get_attr (lit path) s with Ret (r, _) => Ret r | _ => Undef end
  | _ => Undef
  end.
Lemma mixed_cached_values :
  mixed_cached "/a" = Ret (0, Some (sized 10)) /\ mixed_cached "/ab" = Ret (- EAGAIN, None) /\
  mixed_cached "/c" = Ret (- EAGAIN, None).
Proof. vm_compute. done. Qed.

Lemma cache_refines_expiry_map_witness :
  exists ts s' s'', run mixed started = Ret (ts, s') /\
    let k := contract_run 20 mixed ts (Contract ∅ 0) in
    cache_get_attr (lit "/a") s' = Ret (match contract_attr (attrs k) (time (world s')).1 (lit "/a") with
                                        | Some st => (0, Some st) | None => (- EAGAIN, None) end, s'').
Proof.
  apply (cache_refines_expiry_map mixed started (lit "/a")); [reflexivity|reflexivity|].
  repeat constructor.
Defined.

Lemma write_drops_attr_in_flight_witness :
  exists ts1 s1 wrctr ts2 s2, run mixed started = Ret (ts1, s1) /\ cache_get_write_ctr s1 = Ret (wrctr, s1) /\
    run [InvalidateWrite (lit "")] s1 = Ret (ts2, s2) /\ cache_add_attr (lit "/f") (sized 10) wrctr s2 = Ret (tt, s2).
Proof.
  apply (write_drops_attr_in_flight mixed [InvalidateWrite (lit "")] started (lit "/f") (sized 10));
    [reflexivity|reflexivity|cbn; lia|repeat constructor|repeat constructor|cbn; lia].
Defined.

(** The file has been looked at and is cached with ten bytes. *)
Definition looked_at : cst server :=
  Eval vm_compute in match cache_getattr (lit "/f") 0 started with Ret (_, s) => s | _ => started end.

(** A write of 90 bytes at offset 10 makes it 100 bytes; the answer is 10. *)
Lemma write_keeps_stale_attr_witness :
  exists s', (do* cache_write (replicate 90 "x"%char) 90 10 0; cache_getattr (lit "/f") 0) looked_at
               = Ret ((0, sized 10), s') /\ world s' = Server 303 100.
Proof.
  apply (write_keeps_stale_attr looked_at (lit "/f") (Node (sized 10) 321 None 0 None 0 321)
           (replicate 90 "x"%char) 90 10 0 0 90 (Server 302 100) 303 (Server 303 100));
    [vm_compute; reflexivity|done|reflexivity|lia|reflexivity|cbn; lia].
Defined.
End CacheExample.
