(* ===== verification/SftpBuf.v ===== *)
(** * The buffers of the sftp client (src/usfs_wrap/sshfs/sshfs_wrap.c)

    A request is built in a buffer that grows; a reply is taken apart from the
    front, every read checked against the size.  The memory of the process is a
    parameter: an allocation gives bytes of unknown content, or fails, which ends
    the process.

    The theorems: what the [buf_add] functions write the [buf_get] functions read
    back, for any sequence of fields ([sftp_fields_roundtrip]); the decoders of
    attributes, file system data and directory listings never touch memory outside
    of a reply, whatever bytes the server sends ([sftp_decoders_safe]); and they
    decode the listings that the protocol describes ([sftp_entries_decoded]). *)

From Stdlib Require Import ZArith Lia Ascii String.
From stdpp Require Import base list.
From S2P Require Import Prelude World Cache.

Local Open Scope Z_scope.

Definition SSH_FILEXFER_ATTR_SIZE : Z := 1.
Definition SSH_FILEXFER_ATTR_UIDGID : Z := 2.
Definition SSH_FILEXFER_ATTR_PERMISSIONS : Z := 4.
Definition SSH_FILEXFER_ATTR_ACMODTIME : Z := 8.
Definition SSH_FILEXFER_ATTR_EXTENDED : Z := 2147483648.
Definition S_ISLNK (m : Z) : bool := Z.land m S_IFMT =? S_IFLNK.

(** [malloc] and [realloc]: the new block, or a null pointer. *)
Class Heap := {
  malloc : Z -> option (list ascii);
  realloc : list ascii -> Z -> option (list ascii) }.

Class HeapLaws `{Heap} : Prop := {
  malloc_size : forall n b, 0 < n -> malloc n = Some b -> Z.of_nat (length b) = n;
  realloc_size : forall b n b', 0 < n -> realloc b n = Some b' -> Z.of_nat (length b') = n;
  realloc_keeps : forall b n b', 0 < n -> realloc b n = Some b' ->
    take (Nat.min (length b) (length b')) b' = take (Nat.min (length b) (length b')) b }.

(** Memory does not run out. *)
Class HeapPlenty `{Heap} : Prop := {
  malloc_some : forall n, is_Some (malloc n);
  realloc_some : forall b n, is_Some (realloc b n) }.

Record buffer := Buffer { buf_p : option (list ascii); buf_len : Z; buf_size : Z }.

(** Copies of [n] bytes; a copy of no bytes does nothing. *)
Definition mem_store (p : option (list ascii)) (off : Z) (data : list ascii) : outcome (option (list ascii)) :=
  match data, p with
  | [], _ => Ret p
  | _, None => Undef
  | _, Some l =>
      if (0 <=? off) && (off + Z.of_nat (length data) <=? Z.of_nat (length l))
      then Ret (Some (splice l (Z.to_nat off) data)) else Undef
  end.
Definition mem_load (p : option (list ascii)) (off n : Z) : outcome (list ascii) :=
  if n =? 0 then Ret []
  else match p with
       | None => Undef
       | Some l =>
           if (0 <=? off) && (off + n <=? Z.of_nat (length l))
           then Ret (take (Z.to_nat n) (drop (Z.to_nat off) l)) else Undef
       end.

Section Code.
Context `{Heap}.

Definition buf_init (size : Z) : outcome buffer :=
  if size =? 0 then Ret (Buffer None 0 0)
  else match malloc size with None => Exit | Some l => Ret (Buffer (Some l) 0 size) end.

Definition buf_finish (b : buffer) : buffer := Buffer (buf_p b) (buf_size b) (buf_size b).

(** The memory is freed first. *)
Definition buf_clear (b : buffer) : outcome buffer := buf_init 0.

Definition buf_resize (b : buffer) (len : Z) : outcome buffer :=
  let size := Z.land (u64 (buf_len b + len + 63)) (u64 (Z.lnot 31)) in
  match (match buf_p b with None => malloc size | Some l => realloc l size end) with
  | None => Exit
  | Some l => Ret (Buffer (Some l) (buf_len b) size)
  end.

Definition buf_check_add (b : buffer) (len : Z) : outcome buffer :=
  if u64 (buf_len b + len) >? buf_size b then buf_resize b len else Ret b.

Definition buf_add_mem (b : buffer) (data : list ascii) : outcome buffer :=
  let l := Z.of_nat (length data) in
  let! b := buf_check_add b l in
  let! p := mem_store (buf_p b) (buf_len b) data in
  Ret (Buffer p (u64 (buf_len b + l)) (buf_size b)).

Definition buf_add_buf (b bufa : buffer) : outcome buffer :=
  let! data := mem_load (buf_p bufa) 0 (buf_len bufa) in buf_add_mem b data.

Definition buf_add_uint8 (b : buffer) (val : Z) : outcome buffer := buf_add_mem b [byte_of_Z val].

(** [htonl] *)
Definition buf_add_uint32 (b : buffer) (val : Z) : outcome buffer := buf_add_mem b (be_bytes 4 val).

Definition buf_add_uint64 (b : buffer) (val : Z) : outcome buffer :=
  let! b := buf_add_uint32 b (u32 (Z.shiftr val 32)) in
  buf_add_uint32 b (Z.land val 4294967295).

Definition buf_add_data (b data : buffer) : outcome buffer :=
  let! b := buf_add_uint32 b (u32 (buf_len data)) in
  let! d := mem_load (buf_p data) 0 (buf_len data) in
  buf_add_mem b d.

(** A string with its terminator in memory. *)
Definition buf_add_string (b : buffer) (str : list ascii) : outcome buffer :=
  buf_add_data b (Buffer (Some (str ++ [nul])) (Z.of_nat (length str)) 0).

(** [realpath], for the configured base path. *)
Definition remote_path (base_path path : list ascii) : outcome (list ascii) :=
  match path with
  | [] => Undef
  | _ :: rest =>
      match base_path with
      | _ :: _ =>
          match rest with
          | _ :: _ =>
              if negb (bool_decide (last base_path = Some "/"%char))
              then Ret (base_path ++ lit "/" ++ rest) else Ret (base_path ++ rest)
          | [] => Ret base_path
          end
      | [] => match rest with _ :: _ => Ret rest | [] => Ret (lit ".") end
      end
  end.
Definition buf_add_path (base_path : list ascii) (b : buffer) (path : list ascii) : outcome buffer :=
  let! realpath := remote_path base_path path in buf_add_string b realpath.

(** ** Reading a reply *)

(** [None] is the result -1. *)
Definition buf_check_get (len : Z) : prog buffer (option unit) := fun b =>
  Ret (if u64 (buf_len b + len) >? buf_size b then None else Some tt, b).

Definition buf_get_mem (len : Z) : prog buffer (option (list ascii)) :=
  let* ok := buf_check_get len in
  match ok with
  | None => pret None
  | Some _ => fun b =>
      let! d := mem_load (buf_p b) (buf_len b) len in
      Ret (Some d, Buffer (buf_p b) (u64 (buf_len b + len)) (buf_size b))
  end.

Definition buf_get_uint8 : prog buffer (option Z) :=
  let* d := buf_get_mem 1 in pret (match d with Some d => Some (le_val d) | None => None end).

(** [ntohl] *)
Definition buf_get_uint32 : prog buffer (option Z) :=
  let* d := buf_get_mem 4 in pret (match d with Some d => Some (be_val d) | None => None end).

Definition buf_get_uint64 : prog buffer (option Z) :=
  let* val1 := buf_get_uint32 in
  match val1 with
  | None => pret None
  | Some val1 =>
      let* val2 := buf_get_uint32 in
      pret (match val2 with None => None | Some val2 => Some (u64 (Z.shiftl val1 32 + val2)) end)
  end.

Definition buf_get_data : prog buffer (option buffer) :=
  let* len := buf_get_uint32 in
  match len with
  | None => pret None
  | Some len =>
      let* b := pget in
      if len >? u64 (buf_size b - buf_len b) then pret None
      else
        let* data := plift (buf_init (u32 (len + 1))) in
        let data := Buffer (buf_p data) (buf_len data) len in
        let* d := buf_get_mem len in
        match d with
        | None => pret None
        | Some d =>
            let* p := plift (mem_store (buf_p data) 0 d) in
            pret (Some (Buffer p (buf_len data) (buf_size data)))
        end
  end.

(** The memory of the string, with its terminator. *)
Definition buf_get_string : prog buffer (option (list ascii)) :=
  let* data := buf_get_data in
  match data with
  | None => pret None
  | Some data =>
      let* p := plift (mem_store (buf_p data) (buf_size data) [nul]) in
      let* p := plift (deref p) in
      pret (Some p)
  end.

(** ** Attributes *)

Inductive nomap_kind := NOMAP_IGNORE | NOMAP_ERROR.

(** The fields of [struct sshfs] that the decoders look at. *)
Record sshfs_ids := SshfsIds {
  remote_uid_detected : bool;
  remote_uid : Z; local_uid : Z; remote_gid : Z; local_gid : Z;
  idmap_file : bool;
  uid_map : option (Z -> option Z); gid_map : option (Z -> option Z);
  nomap : nomap_kind;
  blksize : Z;
  follow_symlinks : bool }.

(** [None] is the result -1. *)
Definition translate_id (cfg : sshfs_ids) (id : Z) (map : Z -> option Z) : option Z :=
  match map id with
  | Some id => Some id
  | None => match nomap cfg with NOMAP_ERROR => None | NOMAP_IGNORE => Some id end
  end.

(** The extended attributes are skipped.  Each takes eight bytes of the reply or
    more, so that [fuel] exceeds the size of the reply. *)
Fixpoint skip_extended (fuel : nat) (i extcount : Z) : prog buffer (option unit) :=
  if i <? extcount then
    match fuel with
    | O => plift Undef
    | S fuel =>
        let* tmp := buf_get_data in
        match tmp with
        | None => pret None
        | Some _ =>
            let* tmp := buf_get_data in
            match tmp with None => pret None | Some _ => skip_extended fuel (i + 1) extcount end
        end
    end
  else pret (Some tt).

(** [if (flag && get == -1) return -EIO], the value otherwise. *)
Definition get_if (flag : bool) {A} (default : A) (get : prog buffer (option A)) : prog buffer (option A) :=
  if flag then get else pret (Some default).
Definition get_two : prog buffer (option (Z * Z)) :=
  let* a := buf_get_uint32 in
  match a with
  | None => pret None
  | Some a => let* b := buf_get_uint32 in pret (match b with None => None | Some b => Some (a, b) end)
  end.
Definition has_flag (flags f : Z) : bool := negb (Z.land flags f =? 0).

Definition map_id (cfg : sshfs_ids) (map : option (Z -> option Z)) (id : Z) : option Z :=
  match idmap_file cfg, map with true, Some map => translate_id cfg id map | _, _ => Some id end.

(** The size of the file in blocks of 512 bytes. *)
Definition attr_blocks (cfg : sshfs_ids) (size : Z) : Z :=
  if blksize cfg =? 0 then 0
  else Z.shiftr (Z.land (u64 (size + blksize cfg - 1)) (u64 (Z.lnot (u64 (blksize cfg - 1))))) 9.

Definition attr_stat (cfg : sshfs_ids) (size uid gid mode atime mtime : Z) : stat :=
  Stat 0 0 mode 1 uid gid 0 (i64 size) (blksize cfg) (attr_blocks cfg size) atime mtime mtime.

(** The result, the flags, and the attributes when the result is 0. *)
Definition buf_get_attrs (cfg : sshfs_ids) : prog buffer (Z * Z * option stat) :=
  let* flags := buf_get_uint32 in
  match flags with
  | None => pret (- EIO, 0, None)
  | Some flags =>
      let eio := pret (- EIO, flags, None) in
      let* size := get_if (has_flag flags SSH_FILEXFER_ATTR_SIZE) 0 buf_get_uint64 in
      match size with None => eio | Some size =>
      let* ids := get_if (has_flag flags SSH_FILEXFER_ATTR_UIDGID) (0, 0) get_two in
      match ids with None => eio | Some (uid, gid) =>
      let* mode := get_if (has_flag flags SSH_FILEXFER_ATTR_PERMISSIONS) (Z.lor S_IFREG 511) buf_get_uint32 in
      match mode with None => eio | Some mode =>
      let* times := get_if (has_flag flags SSH_FILEXFER_ATTR_ACMODTIME) (0, 0) get_two in
      match times with None => eio | Some (atime, mtime) =>
      let* ext := get_if (has_flag flags SSH_FILEXFER_ATTR_EXTENDED) tt
        (let* extcount := buf_get_uint32 in
         match extcount with
         | None => pret None
         | Some extcount => let* b := pget in skip_extended (S (Z.to_nat (buf_size b))) 0 extcount
         end) in
      match ext with None => eio | Some _ =>
      let uid := if remote_uid_detected cfg && (uid =? remote_uid cfg) then local_uid cfg else uid in
      let gid := if remote_uid_detected cfg && (gid =? remote_gid cfg) then local_gid cfg else gid in
      match map_id cfg (uid_map cfg) uid with None => pret (- EPERM, flags, None) | Some uid =>
      match map_id cfg (gid_map cfg) gid with None => pret (- EPERM, flags, None) | Some gid =>
      pret (0, flags, Some (attr_stat cfg size uid gid mode atime mtime))
      end end end end end end end
  end.

(** [struct statvfs] *)
Record statvfs := Statvfs {
  f_bsize : Z; f_frsize : Z; f_blocks : Z; f_bfree : Z; f_bavail : Z;
  f_files : Z; f_ffree : Z; f_favail : Z; f_namemax : Z }.

Fixpoint get_uint64s (n : nat) : prog buffer (option (list Z)) :=
  match n with
  | O => pret (Some [])
  | S n =>
      let* v := buf_get_uint64 in
      match v with
      | None => pret None
      | Some v => let* l := get_uint64s n in pret (match l with None => None | Some l => Some (v :: l) end)
      end
  end.

Definition buf_get_statvfs : prog buffer (option statvfs) :=
  let* l := get_uint64s 11 in
  pret (match l with
        | Some [bsize; frsize; blocks; bfree; bavail; files; ffree; favail; fsid; flag; namemax] =>
            Some (Statvfs bsize frsize blocks bfree bavail files ffree favail namemax)
        | _ => None
        end).

(** The result and the names and attributes given to [filler].  An entry takes
    twelve bytes or more; [fuel] exceeds the size of the reply. *)
Fixpoint get_entries_loop (cfg : sshfs_ids) (fuel : nat) (i count : Z) : prog buffer (Z * list (list ascii * stat)) :=
  if i <? count then
    match fuel with
    | O => plift Undef
    | S fuel =>
        let* name := buf_get_string in
        match name with
        | None => pret (- EIO, [])
        | Some name =>
            let* longname := buf_get_string in
            match longname with
            | None => pret (-1, [])
            | Some _ =>
                let* (err, _, st) := buf_get_attrs cfg in
                match st with
                | None => pret (err, [])
                | Some st =>
                    let st := if follow_symlinks cfg && S_ISLNK (st_mode st)
                              then Stat (st_dev st) (st_ino st) 0 (st_nlink st) (st_uid st) (st_gid st) (st_rdev st)
                                     (st_size st) (st_blksize st) (st_blocks st) (st_atime st) (st_mtime st) (st_ctime st)
                              else st in
                    let* (err, l) := get_entries_loop cfg fuel (i + 1) count in
                    pret (err, (cstr name, st) :: l)
                end
            end
        end
    end
  else pret (0, []).

Definition buf_get_entries (cfg : sshfs_ids) : prog buffer (Z * list (list ascii * stat)) :=
  let* count := buf_get_uint32 in
  match count with
  | None => pret (- EIO, [])
  | Some count => let* b := pget in get_entries_loop cfg (S (Z.to_nat (buf_size b))) 0 count
  end.
End Code.

(** ** Safety: no reply makes a decoder leave it *)

(** A reply of which [off] bytes have been read. *)
Definition reply_at (l : list ascii) (off : nat) : buffer := Buffer (Some l) (Z.of_nat off) (Z.of_nat (length l)).

Section Safety.
Context `{HeapLaws}.

(** An allocation fails. *)
Definition no_memory : Prop := exists n, malloc n = None.

(** [e] stays in the reply and does not move back; when it succeeds it has read
    [k] bytes.  It ends the process only when memory runs out. *)
Definition safe_read {A} (k : nat) (ok : A -> bool) (e : prog buffer A) : Prop :=
  forall l off, (off <= length l)%nat -> Z.of_nat (length l) < 2 ^ 32 ->
    wp no_memory e (reply_at l off) (fun r b => exists off', b = reply_at l off' /\ (off <= off' <= length l)%nat /\
      (ok r = true -> (off + k <= off')%nat)).
Definition some {A} (o : option A) : bool := match o with Some _ => true | None => false end.

Lemma safe_weaken {A} k k' ok ok' (e : prog buffer A) :
  safe_read k ok e -> (k' <= k)%nat -> (forall r, ok' r = true -> ok r = true) -> safe_read k' ok' e.
Proof.
  intros Hs Hk Ho l off Ho' Hl. eapply wp_mono; [by apply Hs|]. cbn. intros r b (off' & -> & Hoff & Hr).
  exists off'. split; [done|]. split; [done|]. intros E. specialize (Hr (Ho r E)). lia.
Qed.

Lemma safe_ret {A} ok (a : A) : safe_read 0 ok (pret a).
Proof. intros l off Ho Hl. exists off. split; [done|]. lia. Qed.

Lemma safe_fail {A} k ok (a : A) : ok a = false -> safe_read k ok (pret a).
Proof. intros Hf l off Ho Hl. exists off. split; [done|]. split; [lia|]. congruence. Qed.

(** One read after the other. *)
Lemma safe_bind {A B} j k ok ok' (e : prog buffer A) (f : A -> prog buffer B) :
  safe_read j ok e ->
  (forall a, ok a = true -> safe_read k ok' (f a)) -> (forall a, ok a = false -> safe_read (j + k) ok' (f a)) ->
  safe_read (j + k) ok' (pbind e f).
Proof.
  intros He Hf Hn l off Ho Hl. apply wp_bind. eapply wp_mono; [by apply He|]. cbn.
  intros a b (off' & -> & Hoff & Ha). destruct (ok a) eqn:E.
  - eapply wp_mono; [apply (Hf a E); lia|]. cbn. intros r b (off'' & -> & Hoff' & Hr).
    exists off''. split; [done|]. split; [lia|]. intros Hr'. specialize (Ha eq_refl). specialize (Hr Hr'). lia.
  - eapply wp_mono; [apply (Hn a E); lia|]. cbn. intros r b (off'' & -> & Hoff' & Hr).
    exists off''. split; [done|]. split; [lia|]. intros Hr'. specialize (Hr Hr'). lia.
Qed.

(** Reads from a reply. *)
Lemma get_mem_at n l off : 0 <= n < 2 ^ 32 -> (off <= length l)%nat -> Z.of_nat (length l) < 2 ^ 32 ->
  buf_get_mem n (reply_at l off) =
    Ret (if (off + Z.to_nat n <=? length l)%nat
         then (Some (take (Z.to_nat n) (drop off l)), reply_at l (off + Z.to_nat n)) else (None, reply_at l off)).
Proof.
  intros Hn Ho Hl. unfold buf_get_mem, buf_check_get, pbind. cbn [reply_at buf_len buf_size].
  rewrite wrap_small by lia. rewrite Z.gtb_ltb.
  destruct (Z.ltb_spec (Z.of_nat (length l)) (Z.of_nat off + n)), (Nat.leb_spec (off + Z.to_nat n) (length l)); try lia; [done|].
  unfold mem_load, mbind, outcome_bind. cbn [reply_at buf_p buf_len buf_size]. rewrite wrap_small by lia.
  unfold reply_at. rewrite Nat2Z.inj_add, Z2Nat.id by lia. destruct (Z.eqb_spec n 0) as [->|Hn0]; [done|].
  rewrite (proj2 (Z.leb_le 0 (Z.of_nat off))) by lia. rewrite (proj2 (Z.leb_le _ _)) by lia. by rewrite Nat2Z.id.
Qed.

Lemma get_uint32_at l off : (off <= length l)%nat -> Z.of_nat (length l) < 2 ^ 32 ->
  buf_get_uint32 (reply_at l off) =
    Ret (if (off + 4 <=? length l)%nat
         then (Some (be_val (take 4 (drop off l))), reply_at l (off + 4)) else (None, reply_at l off)).
Proof.
  intros Ho Hl. unfold buf_get_uint32, pbind. rewrite get_mem_at by lia. change (Z.to_nat 4) with 4%nat.
  by destruct (_ <=? _)%nat.
Qed.

Lemma be_val_4 l : length l = 4%nat -> 0 <= be_val l < 2 ^ 32.
Proof. intros Hl. pose proof (be_val_range l) as Hr. by rewrite Hl in Hr. Qed.

(** The data that a length announces. *)
Lemma get_data_at l off : (off <= length l)%nat -> Z.of_nat (length l) < 2 ^ 32 ->
  wp no_memory buf_get_data (reply_at l off) (fun r b => exists off', b = reply_at l off' /\ (off <= off' <= length l)%nat /\
    match r with
    | None => (length l < off + 4)%nat \/ Z.of_nat (length l) < Z.of_nat (off + 4) + be_val (take 4 (drop off l))
    | Some d =>
        let n := be_val (take 4 (drop off l)) in
        off' = (off + 4 + Z.to_nat n)%nat /\ buf_size d = n /\ 0 <= n /\
        exists m x, buf_p d = Some m /\ m = take (Z.to_nat n) (drop (off + 4) l) ++ [x]
    end).
Proof using All.
  intros Ho Hl. unfold buf_get_data. apply wp_bind. unfold wp at 1. rewrite get_uint32_at by done.
  destruct (Nat.leb_spec (off + 4) (length l)) as [H4|H4]; [|exists off; split; [done|]; split; [lia|by left]].
  pose proof (be_val_4 (take 4 (drop off l)) ltac:(rewrite length_take, length_drop; lia)) as Hn.
  set (n := be_val (take 4 (drop off l))) in *. apply wp_bind, wp_get. cbn [reply_at buf_size buf_len].
  rewrite (wrap_small 64) by lia. rewrite Z.gtb_ltb.
  destruct (Z.ltb_spec (Z.of_nat (length l) - Z.of_nat (off + 4)) n); [exists (off + 4)%nat; split; [done|]; split; [lia|right; fold n; lia]|].
  rewrite wrap_small by lia. apply wp_bind. unfold wp at 1, plift, buf_init.
  destruct (Z.eqb_spec (n + 1) 0); [lia|]. destruct (malloc (n + 1)) as [m|] eqn:Em; [|by exists (n + 1)].
  apply malloc_size in Em; [|lia]. apply wp_bind. unfold wp at 1. rewrite get_mem_at by lia.
  destruct (Nat.leb_spec (off + 4 + Z.to_nat n) (length l)); [|lia]. cbn [buf_p].
  set (d := take (Z.to_nat n) (drop (off + 4) l)).
  assert (length d = Z.to_nat n) as Hd by (unfold d; rewrite length_take, length_drop; lia).
  assert (exists p x, mem_store (Some m) 0 d = Ret (Some p) /\ p = d ++ [x]) as (p & x & -> & ->).
  { destruct (drop (Z.to_nat n) m) as [|x [|? ?]] eqn:Ex;
      apply (f_equal length) in Ex as Hx; rewrite length_drop in Hx; cbn in Hx; try lia.
    exists (d ++ [x]), x. split; [|done]. unfold mem_store. destruct d as [|c d']; [|].
    - f_equal. f_equal. cbn in Hd. rewrite <- Hd in Ex. by rewrite drop_0 in Ex.
    - rewrite (proj2 (Z.leb_le 0 0)), (proj2 (Z.leb_le _ _)) by lia. unfold splice. cbn [andb].
      change (Z.to_nat 0) with O. by rewrite take_0, Nat.add_0_l, Hd, Ex. }
  apply wp_ret. cbn [buf_size buf_p].
  exists (off + 4 + Z.to_nat n)%nat. split_and!; [done|lia|lia|done|done|lia|by eexists _, _].
Qed.

Lemma safe_uint32 : safe_read 4 some buf_get_uint32.
Proof.
  intros l off Ho Hl. unfold wp. rewrite get_uint32_at by done. destruct (Nat.leb_spec (off + 4) (length l)).
  - exists (off + 4)%nat. split; [done|]. lia.
  - exists off. split; [done|]. split; [lia|done].
Qed.

Lemma safe_uint64 : safe_read 8 some buf_get_uint64.
Proof.
  unfold buf_get_uint64. change 8%nat with (4 + (4 + 0))%nat. eapply safe_bind; [apply safe_uint32|..].
  - intros [a|] ?; [|done]. eapply safe_bind; [apply safe_uint32|..].
    + intros ? _. apply safe_ret.
    + intros [?|] ?; [done|]. by apply safe_fail.
  - intros [?|] ?; [done|]. by apply safe_fail.
Qed.

Lemma safe_data : safe_read 4 some buf_get_data.
Proof using All.
  intros l off Ho Hl. eapply wp_mono; [by apply get_data_at|]. cbn. intros r b (off' & -> & Hoff & Hr).
  exists off'. split; [done|]. split; [done|]. destruct r; [|done]. destruct Hr as (-> & _). lia.
Qed.

Lemma safe_string : safe_read 4 some buf_get_string.
Proof using All.
  intros l off Ho Hl. unfold buf_get_string. apply wp_bind. eapply wp_mono; [by apply get_data_at|].
  cbv beta. intros [d|] b (off' & -> & Hoff & Hr); [|exists off'; split; [done|]; by split].
  destruct Hr as (-> & Hn & Hp & m & x & Em & ->). apply wp_bind.
  set (n := be_val _) in *. set (s := take (Z.to_nat n) (drop (off + 4) l)) in *.
  assert (length s = Z.to_nat n) as Hs by (unfold s; rewrite length_take, length_drop; lia).
  unfold wp at 1, plift, mem_store. rewrite Hn, Em, (proj2 (Z.leb_le 0 n) Hp), length_app, Hs. cbn [length].
  rewrite (proj2 (Z.leb_le _ _)) by lia. cbn. eexists. split; [done|]. split; [lia|]. intros _. lia.
Qed.

(** A read that may fail, and what follows when it does not. *)
Lemma safe_opt {A B} j k ok' (e : prog buffer (option A)) (f : option A -> prog buffer B) n :
  safe_read j some e -> f None = pret n -> ok' n = false -> (forall a, safe_read k ok' (f (Some a))) ->
  safe_read (j + k) ok' (pbind e f).
Proof.
  intros He Hn Hok Hf. eapply safe_bind; [exact He|..]; intros [a|] Ha; try done.
  rewrite Hn. by apply safe_fail.
Qed.

Lemma safe_if flag {A} (d : A) get k : safe_read k some get -> safe_read 0 some (get_if flag d get).
Proof.
  intros Hg. unfold get_if. destruct flag; [|apply safe_ret]. eapply safe_weaken; [exact Hg|lia|done].
Qed.

Lemma safe_two : safe_read 8 some get_two.
Proof.
  unfold get_two. apply (safe_opt 4 4 _ _ _ None); [apply safe_uint32|done|done|]. intros a.
  change 4%nat with (4 + 0)%nat. apply (safe_opt 4 0 _ _ _ None); [apply safe_uint32|done|done|]. intros b. apply safe_ret.
Qed.

Lemma safe_extended fuel i cnt l off :
  (off <= length l)%nat -> Z.of_nat (length l) < 2 ^ 32 -> (length l - off < fuel)%nat ->
  wp no_memory (skip_extended fuel i cnt) (reply_at l off) (fun r b => exists off', b = reply_at l off' /\ (off <= off' <= length l)%nat).
Proof using All.
  revert i off. induction fuel as [|fuel IH]; intros i off Ho Hl Hf; cbn [skip_extended]; [lia|].
  destruct (i <? cnt); [|exists off; split; [done|lia]].
  apply wp_bind. eapply wp_mono; [by apply safe_data|]. cbn. intros [d|] b (off1 & -> & H1 & Hd); [|by exists off1].
  specialize (Hd eq_refl). apply wp_bind. eapply wp_mono; [apply safe_data; lia|]. cbn.
  intros [d'|] b (off2 & -> & H2 & Hd'); [|exists off2; split; [done|lia]]. specialize (Hd' eq_refl).
  eapply wp_mono; [apply IH; lia|]. cbn. intros r b (off3 & -> & H3). exists off3. split; [done|lia].
Qed.

Definition attrs_ok (r : Z * Z * option stat) : bool := some r.2.

Lemma safe_attrs cfg : safe_read 4 attrs_ok (buf_get_attrs cfg).
Proof using All.
  unfold buf_get_attrs. change 4%nat with (4 + (0 + (0 + (0 + (0 + (0 + 0))))))%nat.
  apply (safe_opt _ _ _ _ _ (- EIO, 0, None)); [apply safe_uint32|done|done|]. intros flags.
  apply (safe_opt _ _ _ _ _ (- EIO, flags, None)); [eapply safe_if, safe_uint64|done|done|]. intros size.
  apply (safe_opt _ _ _ _ _ (- EIO, flags, None)); [eapply safe_if, safe_two|done|done|]. intros [uid gid].
  apply (safe_opt _ _ _ _ _ (- EIO, flags, None)); [eapply safe_if, safe_uint32|done|done|]. intros mode.
  apply (safe_opt _ _ _ _ _ (- EIO, flags, None)); [eapply safe_if, safe_two|done|done|]. intros [atime mtime].
  apply (safe_opt _ _ _ _ _ (- EIO, flags, None)); [|done|done|].
  - apply (safe_if _ _ _ 4). change 4%nat with (4 + 0)%nat. apply (safe_opt _ 0 _ _ _ None); [apply safe_uint32|done|done|].
    intros cnt l off Ho Hl. apply wp_bind, wp_get. eapply wp_mono; [apply safe_extended; cbn; lia|]. cbn.
    intros r b (off' & -> & Hoff). exists off'. split; [done|]. lia.
  - intros _. cbv zeta. destruct (map_id cfg (uid_map cfg) _); [|by apply safe_fail].
    destruct (map_id cfg (gid_map cfg) _); [|by apply safe_fail]. apply safe_ret.
Qed.

Lemma safe_uint64s n : safe_read 0 some (get_uint64s n).
Proof using All.
  induction n as [|n IH]; [apply safe_ret|]. cbn [get_uint64s]. change 0%nat with (0 + (0 + 0))%nat.
  apply (safe_opt _ _ _ _ _ None); [eapply safe_weaken; [apply safe_uint64|lia|done]|done|done|]. intros v.
  apply (safe_opt _ _ _ _ _ None); [done|done|done|]. intros l. apply safe_ret.
Qed.

Lemma safe_entries_loop cfg fuel i cnt l off :
  (off <= length l)%nat -> Z.of_nat (length l) < 2 ^ 32 -> (length l - off < fuel)%nat ->
  wp no_memory (get_entries_loop cfg fuel i cnt) (reply_at l off)
    (fun r b => exists off', b = reply_at l off' /\ (off <= off' <= length l)%nat).
Proof using All.
  revert i off. induction fuel as [|fuel IH]; intros i off Ho Hl Hf; cbn [get_entries_loop]; [lia|].
  destruct (i <? cnt); [|exists off; split; [done|lia]].
  apply wp_bind. eapply wp_mono; [by apply safe_string|]. cbn. intros [d|] b (off1 & -> & H1 & Hd); [|by exists off1].
  specialize (Hd eq_refl). apply wp_bind. eapply wp_mono; [apply safe_string; lia|]. cbn.
  intros [d'|] b (off2 & -> & H2 & Hd'); [|exists off2; split; [done|lia]]. specialize (Hd' eq_refl).
  apply wp_bind. eapply wp_mono; [apply safe_attrs; lia|]. cbn.
  intros [[err fl] st] b (off3 & -> & H3 & Ha). destruct st as [st|]; [|exists off3; split; [done|lia]].
  specialize (Ha eq_refl). apply wp_bind. eapply wp_mono; [apply IH; lia|]. cbn.
  intros [err' l'] b (off4 & -> & H4). exists off4. split; [done|lia].
Qed.

(** What a decoder may do to a reply: it ends inside it, and the process is ended
    only for want of memory. *)
Definition stays_inside {A} (e : prog buffer A) (l : list ascii) : Prop :=
  wp no_memory e (reply_at l 0) (fun _ b => exists off, b = reply_at l off /\ (off <= length l)%nat).
End Safety.

(** ** Round trips *)

(** [x & ~31] *)
Lemma land_not_31 x : 0 <= x < 2 ^ 64 -> Z.land x (u64 (Z.lnot 31)) = 32 * (x / 32).
Proof.
  intros Hx. change (u64 (Z.lnot 31)) with (Z.shiftl (Z.ones 59) 5).
  rewrite (Z.mul_comm 32). change 32 with (2 ^ 5). rewrite <- Z.shiftr_div_pow2, <- Z.shiftl_mul_pow2 by lia.
  apply Z.bits_inj'. intros i Hi. rewrite Z.land_spec, !Z.shiftl_spec by lia. destruct (Z.ltb_spec i 5).
  - rewrite !(Z.testbit_neg_r _ (i - 5)) by lia. apply andb_false_r.
  - rewrite Z.shiftr_spec by lia. replace (i - 5 + 5) with i by lia. destruct (Z.ltb_spec i 64).
    + rewrite Z.ones_spec_low by lia. apply andb_true_r.
    + rewrite Z.ones_spec_high by lia. rewrite andb_false_r. symmetry.
      destruct (Z.eq_dec x 0) as [->|]; [apply Z.bits_0|].
      apply Z.bits_above_log2; [lia|]. apply (Z.lt_le_trans _ 64); [|lia]. apply Z.log2_lt_pow2; lia.
Qed.

Section RoundTrip.
Context `{HeapLaws} `{!HeapPlenty}.

(** The buffer holds the bytes [c]. *)
Definition holds (b : buffer) (c : list ascii) : Prop :=
  buf_len b = Z.of_nat (length c) /\
  match buf_p b with
  | None => c = [] /\ buf_size b = 0
  | Some l => buf_size b = Z.of_nat (length l) /\ exists rest, l = c ++ rest
  end.

Lemma splice_end (c rest d : list ascii) :
  (length d <= length rest)%nat -> splice (c ++ rest) (length c) d = (c ++ d) ++ drop (length d) rest.
Proof. intros Hl. unfold splice. by rewrite take_app_length, drop_app_add, app_assoc. Qed.

Lemma store_holds b c d : holds b c -> Z.of_nat (length (c ++ d)) <= buf_size b -> Z.of_nat (length (c ++ d)) < 2 ^ 63 ->
  exists b', (let! p := mem_store (buf_p b) (buf_len b) d in
              Ret (Buffer p (u64 (buf_len b + Z.of_nat (length d))) (buf_size b))) = Ret b' /\ holds b' (c ++ d).
Proof.
  intros [Hlen Hp] Hs Hm. rewrite length_app in *. rewrite Hlen, (wrap_small 64) by lia.
  assert (forall p, match p with None => c ++ d = [] /\ buf_size b = 0
    | Some l => buf_size b = Z.of_nat (length l) /\ exists rest, l = (c ++ d) ++ rest end ->
    holds (Buffer p (Z.of_nat (length c) + Z.of_nat (length d)) (buf_size b)) (c ++ d)) as Hh.
  { intros p Hp'. split; [cbn; rewrite length_app; lia|exact Hp']. }
  unfold mem_store. destruct d as [|x d].
  - eexists. split; [reflexivity|]. apply Hh. by rewrite app_nil_r.
  - destruct (buf_p b) as [l|]; [|destruct Hp as [-> Hz]; cbn in *; lia]. destruct Hp as (Hz & rest & ->).
    rewrite length_app in Hz. rewrite length_app, (proj2 (Z.leb_le 0 (Z.of_nat (length c)))), (proj2 (Z.leb_le _ _)) by lia.
    eexists. split; [reflexivity|]. apply Hh. rewrite Nat2Z.id, splice_end by lia. split; [|by eexists].
    rewrite !length_app, length_drop. lia.
Qed.

Lemma resize_holds b c n : holds b c -> 0 <= n -> Z.of_nat (length c) + n < 2 ^ 63 ->
  exists b', buf_resize b n = Ret b' /\ holds b' c /\ Z.of_nat (length c) + n <= buf_size b'.
Proof using All.
  intros [Hlen Hp] Hn Hm. unfold buf_resize. rewrite Hlen, (wrap_small 64 (_ + _ + 63)), land_not_31 by lia.
  set (size := 32 * ((Z.of_nat (length c) + n + 63) / 32)).
  assert (Z.of_nat (length c) + n + 32 <= size) as Hsz.
  { unfold size. pose proof (Z.div_mod (Z.of_nat (length c) + n + 63) 32 ltac:(lia)).
    pose proof (Z.mod_pos_bound (Z.of_nat (length c) + n + 63) 32 ltac:(lia)). lia. }
  assert (0 < size) as Hpos by lia. clearbody size.
  destruct (buf_p b) as [l|].
  - destruct (realloc_some l size) as [l' E]. rewrite E. destruct Hp as (Hz & rest & ->).
    pose proof (realloc_size _ _ _ Hpos E) as Hl'. pose proof (realloc_keeps _ _ _ Hpos E) as Hk.
    eexists. split; [reflexivity|]. split; [|cbn; lia]. split; [done|]. cbn. split; [done|].
    exists (drop (length c) l'). rewrite <- (take_drop (length c) l') at 1. f_equal.
    apply (f_equal (take (length c))) in Hk. rewrite !take_take, !Nat.min_l in Hk by (rewrite length_app; lia).
    by rewrite Hk, take_app_length.
  - destruct (malloc_some size) as [l' E]. rewrite E. destruct Hp as [-> Hz].
    pose proof (malloc_size _ _ Hpos E) as Hl'. eexists. split; [reflexivity|]. split; [|cbn in *; lia].
    split; [done|]. cbn. split; [done|]. by exists l'.
Qed.

Lemma add_mem_holds b c d : holds b c -> Z.of_nat (length (c ++ d)) < 2 ^ 63 ->
  exists b', buf_add_mem b d = Ret b' /\ holds b' (c ++ d).
Proof using All.
  intros Hb Hm. pose proof Hb as [Hlen _]. rewrite length_app in Hm. unfold buf_add_mem, buf_check_add.
  rewrite Hlen, (wrap_small 64) by lia. rewrite Z.gtb_ltb.
  destruct (Z.ltb_spec (buf_size b) (Z.of_nat (length c) + Z.of_nat (length d))) as [Hlt|Hge].
  - destruct (resize_holds b c (Z.of_nat (length d)) Hb) as (b1 & -> & Hb1 & Hs1); [lia..|].
    apply store_holds; [done|rewrite length_app; lia..].
  - apply (store_holds b c d Hb); rewrite length_app; lia.
Qed.

(** ** Fields *)

Inductive field :=
| FUint8 (v : Z)
| FUint32 (v : Z)
| FUint64 (v : Z)
| FString (s : list ascii).

Definition field_ok (f : field) : Prop :=
  match f with
  | FUint8 v => 0 <= v < 2 ^ 8
  | FUint32 v => 0 <= v < 2 ^ 32
  | FUint64 v => 0 <= v < 2 ^ 64
  | FString s => nonul s
  end.

Definition field_bytes (f : field) : list ascii :=
  match f with
  | FUint8 v => [byte_of_Z v]
  | FUint32 v => be_bytes 4 v
  | FUint64 v => be_bytes 4 (Z.shiftr v 32) ++ be_bytes 4 (Z.land v 4294967295)
  | FString s => be_bytes 4 (Z.of_nat (length s)) ++ s
  end.

Definition add_field (b : buffer) (f : field) : outcome buffer :=
  match f with
  | FUint8 v => buf_add_uint8 b v
  | FUint32 v => buf_add_uint32 b v
  | FUint64 v => buf_add_uint64 b v
  | FString s => buf_add_string b s
  end.

Fixpoint add_fields (b : buffer) (l : list field) : outcome buffer :=
  match l with
  | [] => Ret b
  | f :: l => let! b := add_field b f in add_fields b l
  end.

(** Reads a field of the same type. *)
Definition get_field (f : field) : prog buffer (option field) :=
  match f with
  | FUint8 _ => let* v := buf_get_uint8 in pret (option_map FUint8 v)
  | FUint32 _ => let* v := buf_get_uint32 in pret (option_map FUint32 v)
  | FUint64 _ => let* v := buf_get_uint64 in pret (option_map FUint64 v)
  | FString _ => let* v := buf_get_string in pret (option_map (fun p => FString (cstr p)) v)
  end.

Fixpoint get_fields (l : list field) : prog buffer (option (list field)) :=
  match l with
  | [] => pret (Some [])
  | f :: l =>
      let* v := get_field f in
      match v with
      | None => pret None
      | Some v => let* vs := get_fields l in pret (option_map (cons v) vs)
      end
  end.

Lemma load_string s rest : mem_load (Some (s ++ rest)) 0 (Z.of_nat (length s)) = Ret s.
Proof.
  unfold mem_load. destruct (Z.eqb_spec (Z.of_nat (length s)) 0) as [E|]; [by destruct s|].
  rewrite length_app, (proj2 (Z.leb_le 0 0)), (proj2 (Z.leb_le _ _)) by lia. cbn [andb].
  by rewrite Nat2Z.id, drop_0, take_app_length.
Qed.

Lemma add_field_holds b c f : field_ok f -> holds b c -> Z.of_nat (length (c ++ field_bytes f)) < 2 ^ 32 ->
  exists b', add_field b f = Ret b' /\ holds b' (c ++ field_bytes f).
Proof using All.
  intros Hf Hb Hm. destruct f as [v|v|v|s]; cbn [add_field field_bytes field_ok] in *.
  - apply add_mem_holds; [done|lia].
  - apply add_mem_holds; [done|lia].
  - rewrite app_assoc in *. unfold buf_add_uint64, buf_add_uint32.
    rewrite (wrap_small 32); [|rewrite Z.shiftr_div_pow2 by lia; split; [apply Z.div_pos; lia|apply Z.div_lt_upper_bound; lia]].
    destruct (add_mem_holds b c (be_bytes 4 (Z.shiftr v 32)) Hb) as (b1 & -> & Hb1); [rewrite length_app in Hm; lia|].
    unfold mbind, outcome_bind. apply add_mem_holds; [done|lia].
  - rewrite app_assoc in *. unfold buf_add_string, buf_add_data, buf_add_uint32. cbn [buf_len buf_p].
    rewrite (wrap_small 32) by (rewrite length_app in Hm; lia).
    destruct (add_mem_holds b c (be_bytes 4 (Z.of_nat (length s))) Hb) as (b1 & -> & Hb1); [rewrite length_app in Hm; lia|].
    unfold mbind, outcome_bind. rewrite load_string. apply add_mem_holds; [done|lia].
Qed.

Lemma add_fields_holds l b c : Forall field_ok l -> holds b c ->
  Z.of_nat (length (c ++ concat (map field_bytes l))) < 2 ^ 32 ->
  exists b', add_fields b l = Ret b' /\ holds b' (c ++ concat (map field_bytes l)).
Proof using All.
  revert b c. induction l as [|f l IH]; intros b c Hl Hb Hm; cbn [add_fields map concat] in *.
  - exists b. by rewrite app_nil_r.
  - apply Forall_cons in Hl as [Hf Hl]. rewrite app_assoc in *.
    destruct (add_field_holds b c f Hf Hb) as (b1 & -> & Hb1); [rewrite length_app in Hm; lia|].
    unfold mbind, outcome_bind. by apply IH.
Qed.

(** ** Decoding *)

(** [e] reads exactly the bytes [x] and gives [v]. *)
Definition decodes {A} (x : list ascii) (e : prog buffer A) (v : A) : Prop :=
  forall pre post, Z.of_nat (length (pre ++ x ++ post)) < 2 ^ 32 ->
    e (reply_at (pre ++ x ++ post) (length pre)) =
      Ret (v, reply_at (pre ++ x ++ post) (length pre + length x)).

Lemma decodes_ret {A} (v : A) : decodes [] (pret v) v.
Proof. intros pre post _. unfold pret. by rewrite Nat.add_0_r. Qed.

Lemma decodes_bind {A B} x y (e : prog buffer A) (k : A -> prog buffer B) v w :
  decodes x e v -> decodes y (k v) w -> decodes (x ++ y) (pbind e k) w.
Proof.
  intros He Hk pre post Hl. rewrite <- app_assoc in *.
  rewrite (pbind_ret _ _ _ _ _ (He pre (y ++ post) Hl)). rewrite (app_assoc pre x) in *.
  specialize (Hk (pre ++ x) post Hl). rewrite length_app in Hk. rewrite Hk, length_app.
  by rewrite Nat.add_assoc.
Qed.

Lemma decodes_map {A B} x (e : prog buffer A) (f : A -> B) v :
  decodes x e v -> decodes x (let* a := e in pret (f a)) (f v).
Proof. intros He. rewrite <- (app_nil_r x). eapply decodes_bind; [exact He|apply decodes_ret]. Qed.

Lemma take_drop_middle (pre x post : list ascii) : take (length x) (drop (length pre) (pre ++ x ++ post)) = x.
Proof. by rewrite drop_app_length, take_app_length. Qed.

Lemma decodes_mem x : decodes x (buf_get_mem (Z.of_nat (length x))) (Some x).
Proof using All.
  intros pre post Hl. rewrite !length_app in Hl. rewrite get_mem_at by (rewrite ?length_app; lia).
  rewrite Nat2Z.id, take_drop_middle, (proj2 (Nat.leb_le _ _)); [done|]. rewrite !length_app. lia.
Qed.

Lemma decodes_uint8 v : 0 <= v < 2 ^ 8 -> decodes [byte_of_Z v] buf_get_uint8 (Some v).
Proof using All.
  intros Hv. unfold buf_get_uint8. rewrite <- (Z.mod_small v (2 ^ 8)) at 2 by done.
  replace (v mod 2 ^ 8) with (le_val [byte_of_Z v]) by (cbn [le_val]; rewrite Z_of_byte_of_Z; change (2 ^ 8) with 256; lia).
  apply (decodes_map [byte_of_Z v] _ (fun d => match d with Some d => Some (le_val d) | None => None end)
    (Some [byte_of_Z v])). apply (decodes_mem [byte_of_Z v]).
Qed.

Lemma decodes_uint32 v : 0 <= v < 2 ^ 32 -> decodes (be_bytes 4 v) buf_get_uint32 (Some v).
Proof using All.
  intros Hv. unfold buf_get_uint32. rewrite <- (Z.mod_small v (2 ^ 32)) at 2 by done.
  change (2 ^ 32) with (2 ^ (8 * Z.of_nat 4)). rewrite <- (be_val_bytes 4 v).
  apply (decodes_map (be_bytes 4 v) _ (fun d => match d with Some d => Some (be_val d) | None => None end)
    (Some (be_bytes 4 v))).
  pose proof (decodes_mem (be_bytes 4 v)) as Hd. by rewrite length_be_bytes in Hd.
Qed.

Lemma halves v : 0 <= v < 2 ^ 64 ->
  0 <= Z.shiftr v 32 < 2 ^ 32 /\ 0 <= Z.land v 4294967295 < 2 ^ 32 /\
  u64 (Z.shiftl (Z.shiftr v 32) 32 + Z.land v 4294967295) = v.
Proof.
  intros Hv. change 4294967295 with (Z.ones 32). rewrite Z.land_ones, Z.shiftr_div_pow2, Z.shiftl_mul_pow2 by lia.
  pose proof (Z.mod_pos_bound v (2 ^ 32) ltac:(lia)). split; [split; [apply Z.div_pos; lia|apply Z.div_lt_upper_bound; lia]|].
  split; [done|]. rewrite Z.mul_comm, <- Z.div_mod by lia. by apply wrap_small.
Qed.

Lemma decodes_uint64 v : 0 <= v < 2 ^ 64 -> decodes (field_bytes (FUint64 v)) buf_get_uint64 (Some v).
Proof using All.
  intros Hv. destruct (halves v Hv) as (H1' & H2' & E). unfold buf_get_uint64. cbn [field_bytes].
  eapply decodes_bind; [by apply decodes_uint32|]. cbv beta iota.
  replace (Some v) with (Some (u64 (Z.shiftl (Z.shiftr v 32) 32 + Z.land v 4294967295))) by congruence.
  apply (decodes_map _ _ (fun o => match o with None => None | Some v2 => Some (u64 (Z.shiftl (Z.shiftr v 32) 32 + v2)) end)
    (Some (Z.land v 4294967295))). by apply decodes_uint32.
Qed.

Lemma get_data_bytes pre s post :
  let l := pre ++ (be_bytes 4 (Z.of_nat (length s)) ++ s) ++ post in
  Z.of_nat (length l) < 2 ^ 32 ->
  exists d x, buf_get_data (reply_at l (length pre)) = Ret (Some d, reply_at l (length pre + (4 + length s))) /\
    buf_p d = Some (s ++ [x]) /\ buf_size d = Z.of_nat (length s).
Proof using All.
  intros l Hl. assert (length pre + 4 + length s + length post = length l)%nat as Hlen
    by (unfold l; rewrite !length_app, length_be_bytes; lia).
  assert (take 4 (drop (length pre) l) = be_bytes 4 (Z.of_nat (length s))) as E4.
  { unfold l. rewrite drop_app_length, <- app_assoc.
    rewrite <- (length_be_bytes 4 (Z.of_nat (length s))) at 1. by rewrite take_app_length. }
  assert (be_val (be_bytes 4 (Z.of_nat (length s))) = Z.of_nat (length s)) as En
    by (rewrite be_val_bytes; apply Z.mod_small; lia).
  pose proof (get_data_at l (length pre) ltac:(lia) Hl) as Hd. cbv zeta in Hd. rewrite E4, En in Hd. unfold wp in Hd.
  destruct (buf_get_data (reply_at l (length pre))) as [[[d|] b]| |]; [| |destruct Hd as [n Hn]; by destruct (malloc_some n) as [? ?]; congruence|done].
  - destruct Hd as (off' & -> & _ & -> & Hz & _ & m & x & Hm & ->). exists d, x.
    rewrite Nat2Z.id in *. split; [by rewrite Nat.add_assoc|]. split; [|done]. rewrite Hm. do 2 f_equal.
    unfold l. rewrite <- (length_be_bytes 4 (Z.of_nat (length s))) at 1.
    rewrite <- (app_assoc _ s post), app_assoc, <- length_app. apply take_drop_middle.
  - destruct Hd as (off' & _ & _ & [?|?]); lia.
Qed.

Lemma decodes_string s :
  decodes (field_bytes (FString s)) buf_get_string (Some (s ++ [nul])).
Proof using All.
  intros pre post Hl. cbn [field_bytes] in *. unfold buf_get_string.
  destruct (get_data_bytes pre s post Hl) as (d & x & E & Hp & Hz). rewrite (pbind_ret _ _ _ _ _ E).
  unfold pbind, plift, mem_store. rewrite Hp, Hz, (proj2 (Z.leb_le 0 _)), length_app, (proj2 (Z.leb_le _ _)) by (cbn; lia).
  cbn [andb deref]. unfold pret. rewrite Nat2Z.id, splice_end by (cbn; lia). cbn [length drop].
  by rewrite app_nil_r, !length_app, length_be_bytes.
Qed.

Lemma decodes_field f : field_ok f -> decodes (field_bytes f) (get_field f) (Some f).
Proof using All.
  intros Hf. destruct f as [v|v|v|s]; cbn [get_field field_bytes field_ok] in *.
  - apply (decodes_map _ _ (option_map FUint8) (Some v)). by apply decodes_uint8.
  - apply (decodes_map _ _ (option_map FUint32) (Some v)). by apply decodes_uint32.
  - apply (decodes_map _ _ (option_map FUint64) (Some v)). by apply decodes_uint64.
  - rewrite <- (cstr_app_nul s []) at 3 by done.
    apply (decodes_map _ _ (option_map (fun p => FString (cstr p))) (Some (s ++ [nul]))). apply decodes_string.
Qed.

Lemma decodes_fields l : Forall field_ok l -> decodes (concat (map field_bytes l)) (get_fields l) (Some l).
Proof using All.
  induction l as [|f l IH]; intros Hl; cbn [get_fields map concat]; [apply decodes_ret|].
  apply Forall_cons in Hl as [Hf Hl]. eapply decodes_bind; [by apply decodes_field|]. cbv beta iota.
  apply (decodes_map _ _ (option_map (cons f)) (Some l)). by apply IH.
Qed.

(** C28: Requests are read back as they were written.  Fields of any number and
    type, added one after the other to a new buffer, which grows by reallocation,
    leave in it bytes from which the reading functions get the same fields, and
    nothing else; strings without a null byte, up to 4 GiB in all. *)
Theorem sftp_fields_roundtrip l :
  Forall field_ok l -> Z.of_nat (length (concat (map field_bytes l))) < 2 ^ 32 ->
  exists b b' bytes, (let! b := buf_init 0 in add_fields b l) = Ret b /\
    mem_load (buf_p b) 0 (buf_len b) = Ret bytes /\
    get_fields l (reply_at bytes 0) = Ret (Some l, b') /\ buf_len b' = buf_size b'.
Proof using All.
  intros Hl Hm. destruct (add_fields_holds l (Buffer None 0 0) [] Hl) as (b & E & Hlen & Hp); [by split|done|].
  cbn [app] in *. set (c := concat (map field_bytes l)) in *.
  exists b, (reply_at c (length c)), c. split; [exact E|]. split; [|split; [|done]].
  - rewrite Hlen. destruct (buf_p b) as [m|].
    + destruct Hp as (_ & rest & ->). apply load_string.
    + destruct Hp as [-> _]. done.
  - pose proof (decodes_fields l Hl [] [] ltac:(by rewrite app_nil_l, app_nil_r)) as Hd.
    by rewrite app_nil_l, app_nil_r in Hd.
Qed.

(** ** The replies that the protocol describes *)

(** Attributes as the server sends them: each part may be left out. *)
Record wire_attrs := WireAttrs {
  w_size : option Z; w_ids : option (Z * Z); w_mode : option Z; w_times : option (Z * Z);
  w_ext : option (list (list ascii * list ascii)) }.

Definition bit_if {A} (o : option A) (f : Z) : Z := match o with Some _ => f | None => 0 end.
Definition wire_flags (w : wire_attrs) : Z :=
  bit_if (w_size w) SSH_FILEXFER_ATTR_SIZE + bit_if (w_ids w) SSH_FILEXFER_ATTR_UIDGID +
  bit_if (w_mode w) SSH_FILEXFER_ATTR_PERMISSIONS + bit_if (w_times w) SSH_FILEXFER_ATTR_ACMODTIME +
  bit_if (w_ext w) SSH_FILEXFER_ATTR_EXTENDED.

Definition bytes_if {A} (o : option A) (f : A -> list ascii) : list ascii :=
  match o with Some a => f a | None => [] end.
Definition pair_bytes (p : Z * Z) : list ascii := be_bytes 4 p.1 ++ be_bytes 4 p.2.
Definition ext_bytes (e : list ascii * list ascii) : list ascii :=
  field_bytes (FString e.1) ++ field_bytes (FString e.2).
Definition wire_bytes (w : wire_attrs) : list ascii :=
  be_bytes 4 (wire_flags w) ++ bytes_if (w_size w) (fun v => field_bytes (FUint64 v)) ++
  bytes_if (w_ids w) pair_bytes ++ bytes_if (w_mode w) (be_bytes 4) ++ bytes_if (w_times w) pair_bytes ++
  bytes_if (w_ext w) (fun l => be_bytes 4 (Z.of_nat (length l)) ++ concat (map ext_bytes l)).

Definition pair_ok (p : Z * Z) : Prop := 0 <= p.1 < 2 ^ 32 /\ 0 <= p.2 < 2 ^ 32.
Definition all_of {A} (P : A -> Prop) (o : option A) : Prop := match o with Some a => P a | None => True end.
Definition wire_ok (w : wire_attrs) : Prop :=
  all_of (fun v => 0 <= v < 2 ^ 63) (w_size w) /\ all_of pair_ok (w_ids w) /\
  all_of (fun v => 0 <= v < 2 ^ 32) (w_mode w) /\ all_of pair_ok (w_times w).

Definition wire_uid (cfg : sshfs_ids) (w : wire_attrs) : Z :=
  let uid := (default (0, 0) (w_ids w)).1 in
  if remote_uid_detected cfg && (uid =? remote_uid cfg) then local_uid cfg else uid.
Definition wire_gid (cfg : sshfs_ids) (w : wire_attrs) : Z :=
  let gid := (default (0, 0) (w_ids w)).2 in
  if remote_uid_detected cfg && (gid =? remote_gid cfg) then local_gid cfg else gid.

(** The attributes for the caller: a regular file of mode 0777 when the server
    does not say, sizes in blocks of 4096 bytes, links as unknown when they are to
    be followed. *)
Definition wire_stat (cfg : sshfs_ids) (w : wire_attrs) : stat :=
  let size := default 0 (w_size w) in
  let times := default (0, 0) (w_times w) in
  Stat 0 0 (default 33279 (w_mode w)) 1 (wire_uid cfg w) (wire_gid cfg w) 0 size 4096
    (8 * ((size + 4095) / 4096)) times.1 times.2 times.2.

Lemma wire_flags_range w : 0 <= wire_flags w < 2 ^ 32.
Proof. destruct w as [[?|] [?|] [?|] [?|] [?|]]; by split; vm_compute. Qed.

Lemma wire_flags_spec w :
  has_flag (wire_flags w) SSH_FILEXFER_ATTR_SIZE = some (w_size w) /\
  has_flag (wire_flags w) SSH_FILEXFER_ATTR_UIDGID = some (w_ids w) /\
  has_flag (wire_flags w) SSH_FILEXFER_ATTR_PERMISSIONS = some (w_mode w) /\
  has_flag (wire_flags w) SSH_FILEXFER_ATTR_ACMODTIME = some (w_times w) /\
  has_flag (wire_flags w) SSH_FILEXFER_ATTR_EXTENDED = some (w_ext w).
Proof. destruct w as [[?|] [?|] [?|] [?|] [?|]]; by vm_compute. Qed.

Lemma decodes_if {A} (o : option A) d f get :
  all_of (fun v => decodes (f v) get (Some v)) o -> decodes (bytes_if o f) (get_if (some o) d get) (Some (default d o)).
Proof. intros Ho. destruct o as [v|]; [exact Ho|]. apply decodes_ret. Qed.

Lemma decodes_two p : pair_ok p -> decodes (pair_bytes p) get_two (Some p).
Proof using All.
  intros [H1' H2']. destruct p as [a b]. unfold pair_bytes, get_two. cbn in H1', H2'.
  eapply decodes_bind; [by apply decodes_uint32|]. cbv beta iota.
  apply (decodes_map _ _ (fun o => match o with None => None | Some b => Some (a, b) end) (Some b)).
  by apply decodes_uint32.
Qed.

(** Data that is read and thrown away. *)
Lemma decodes_skip {A} s y (k : option buffer -> prog buffer A) v :
  (forall d, decodes y (k (Some d)) v) -> decodes (field_bytes (FString s) ++ y) (let* tmp := buf_get_data in k tmp) v.
Proof using All.
  intros Hk pre post Hl. cbn [field_bytes] in *. rewrite <- (app_assoc _ y post) in *.
  destruct (get_data_bytes pre s (y ++ post) Hl) as (d & x & E & _).
  rewrite (pbind_ret _ _ _ _ _ E). rewrite (app_assoc pre) in *. specialize (Hk d _ post Hl).
  rewrite !length_app, length_be_bytes in *. rewrite Hk. do 3 f_equal. lia.
Qed.

Lemma decodes_extended fuel l i : (length l < fuel)%nat ->
  decodes (concat (map ext_bytes l)) (skip_extended fuel i (i + Z.of_nat (length l))) (Some tt).
Proof using All.
  revert fuel i. induction l as [|e l IH]; intros [|fuel] i Hf; cbn [length] in Hf; try lia; cbn [skip_extended map concat length].
  - rewrite Z.add_0_r, Z.ltb_irrefl. apply decodes_ret.
  - destruct (Z.ltb_spec i (i + Z.of_nat (S (length l)))); [|lia]. unfold ext_bytes at 1. rewrite <- app_assoc.
    apply decodes_skip. intros _. cbv beta iota. apply decodes_skip. intros _. cbv beta iota.
    replace (i + Z.of_nat (S (length l))) with (i + 1 + Z.of_nat (length l)) by lia. apply IH. lia.
Qed.

(** A loop whose fuel is taken from the size of the reply. *)
Lemma decodes_fuel {A} x (e : nat -> prog buffer A) n v :
  (n <= length x)%nat -> (forall fuel, (n < fuel)%nat -> decodes x (e fuel) v) ->
  decodes x (let* b := pget in e (S (Z.to_nat (buf_size b)))) v.
Proof.
  intros Hn He pre post Hl. unfold pbind, pget. cbn [reply_at buf_size]. rewrite Nat2Z.id. apply He; [|done].
  rewrite !length_app. lia.
Qed.

Lemma ext_bytes_length l : (length l <= length (concat (map ext_bytes l)))%nat.
Proof.
  induction l as [|e l IH]; [done|]. cbn [map concat length]. unfold ext_bytes at 1. cbn [field_bytes].
  rewrite !length_app, length_be_bytes. lia.
Qed.

(** The size rounded up to blocks of 4096 bytes, in units of 512. *)
Lemma attr_blocks_4096 cfg size : blksize cfg = 4096 -> 0 <= size < 2 ^ 63 ->
  attr_blocks cfg size = 8 * ((size + 4095) / 4096).
Proof.
  intros Hb Hs. unfold attr_blocks. rewrite Hb. cbn [Z.eqb]. replace (size + 4096 - 1) with (size + 4095) by lia.
  rewrite wrap_small by lia. set (x := size + 4095).
  change (u64 (Z.lnot (u64 (4096 - 1)))) with (Z.shiftl (Z.ones 52) 12).
  replace (8 * (x / 4096)) with (Z.shiftl (Z.shiftr x 12) 3)
    by (rewrite Z.shiftr_div_pow2, Z.shiftl_mul_pow2 by lia; change (2 ^ 12) with 4096; lia).
  apply Z.bits_inj'. intros i Hi. rewrite Z.shiftr_spec, Z.land_spec, !Z.shiftl_spec by lia.
  destruct (Z.ltb_spec i 3).
  - rewrite !(Z.testbit_neg_r _ (i - 3)), !(Z.testbit_neg_r _ (i + 9 - 12)) by lia. apply andb_false_r.
  - rewrite Z.shiftr_spec by lia. replace (i - 3 + 12) with (i + 9) by lia. destruct (Z.ltb_spec (i + 9) 64).
    + rewrite Z.ones_spec_low by lia. apply andb_true_r.
    + rewrite Z.ones_spec_high by lia. rewrite andb_false_r. symmetry. apply Z.bits_above_log2; [lia|].
      apply (Z.lt_le_trans _ 64); [|lia]. apply Z.log2_lt_pow2; lia.
Qed.

Lemma decodes_attrs cfg w : idmap_file cfg = false -> blksize cfg = 4096 -> wire_ok w ->
  decodes (wire_bytes w) (buf_get_attrs cfg) (0, wire_flags w, Some (wire_stat cfg w)).
Proof using All.
  intros Hi Hb (Hsize & Hids & Hmode & Htimes). destruct (wire_flags_spec w) as (F1 & F2 & F3 & F4 & F5).
  unfold wire_bytes, buf_get_attrs. eapply decodes_bind; [apply decodes_uint32, wire_flags_range|].
  cbv beta iota zeta. rewrite F1, F2, F3, F4, F5. clear F1 F2 F3 F4 F5.
  eapply decodes_bind; [apply decodes_if; destruct (w_size w); [|done]; apply decodes_uint64; cbn in Hsize; lia|].
  cbv beta iota. eapply decodes_bind; [apply decodes_if; destruct (w_ids w); [by apply decodes_two|done]|].
  cbv beta iota. rewrite (surjective_pairing (default (0, 0) (w_ids w))).
  eapply decodes_bind; [apply decodes_if; destruct (w_mode w); [by apply decodes_uint32|done]|].
  cbv beta iota. eapply decodes_bind; [apply decodes_if; destruct (w_times w); [by apply decodes_two|done]|].
  cbv beta iota. rewrite (surjective_pairing (default (0, 0) (w_times w))).
  rewrite <- (app_nil_r (bytes_if (w_ext w) _)). eapply (decodes_bind _ _ _ _ (Some tt)).
  - destruct (w_ext w) as [l|]; [|apply decodes_ret]. cbn [bytes_if get_if some].
    intros pre post Hl. pose proof (ext_bytes_length l). rewrite !length_app, length_be_bytes in Hl.
    eapply decodes_bind; [apply decodes_uint32; lia| |rewrite !length_app, length_be_bytes; lia]. cbv beta iota.
    apply (decodes_fuel _ (fun fuel => skip_extended fuel 0 (Z.of_nat (length l))) (length l)); [done|].
    intros fuel Hf. by apply (decodes_extended fuel l 0).
  - cbv beta iota zeta. unfold map_id. rewrite Hi.
    replace (attr_stat _ _ _ _ _ _ _) with (wire_stat cfg w); [apply decodes_ret|].
    unfold wire_stat, attr_stat. rewrite Hb, attr_blocks_4096, swrap_small; destruct (w_size w); cbn in *; done || lia.
Qed.

(** Directory entries: a name, a line for people, attributes. *)
Record wire_entry := WireEntry { e_name : list ascii; e_long : list ascii; e_attrs : wire_attrs }.

Definition entry_bytes (e : wire_entry) : list ascii :=
  field_bytes (FString (e_name e)) ++ field_bytes (FString (e_long e)) ++ wire_bytes (e_attrs e).
Definition entries_bytes (es : list wire_entry) : list ascii :=
  be_bytes 4 (Z.of_nat (length es)) ++ concat (map entry_bytes es).
Definition entry_ok (e : wire_entry) : Prop := nonul (e_name e) /\ wire_ok (e_attrs e).

(** What the caller is told of an entry. *)
Definition entry_shown (cfg : sshfs_ids) (e : wire_entry) : list ascii * stat :=
  let st := wire_stat cfg (e_attrs e) in
  (e_name e,
   if follow_symlinks cfg && S_ISLNK (st_mode st)
   then Stat 0 0 0 1 (st_uid st) (st_gid st) 0 (st_size st) 4096 (st_blocks st) (st_atime st) (st_mtime st) (st_ctime st)
   else st).

Lemma decodes_entries_loop cfg fuel es i : idmap_file cfg = false -> blksize cfg = 4096 -> Forall entry_ok es ->
  (length es < fuel)%nat ->
  decodes (concat (map entry_bytes es)) (get_entries_loop cfg fuel i (i + Z.of_nat (length es))) (0, map (entry_shown cfg) es).
Proof using All.
  intros Hi Hb. revert fuel i. induction es as [|e es IH]; intros [|fuel] i Hes Hf; cbn [length] in Hf; try lia;
    cbn [get_entries_loop map concat length].
  - rewrite Z.add_0_r, Z.ltb_irrefl. apply decodes_ret.
  - apply Forall_cons in Hes as [[Hn Hw] Hes]. destruct (Z.ltb_spec i (i + Z.of_nat (S (length es)))); [|lia].
    unfold entry_bytes at 1. rewrite <- !app_assoc.
    eapply decodes_bind; [apply decodes_string|]. cbv beta iota. eapply decodes_bind; [apply decodes_string|].
    cbv beta iota. eapply decodes_bind; [by apply decodes_attrs|]. cbv beta iota zeta.
    replace (i + Z.of_nat (S (length es))) with (i + 1 + Z.of_nat (length es)) by lia.
    rewrite (cstr_app_nul (e_name e) [] Hn).
    pose proof (IH fuel (i + 1) Hes ltac:(lia)) as Hr.
    apply (decodes_map _ _ (fun x => let '(err, l) := x in (err, entry_shown cfg e :: l)) (0, map (entry_shown cfg) es)) in Hr.
    intros pre post Hl. rewrite <- (Hr pre post Hl). unfold pbind.
    destruct (get_entries_loop _ _ _ _ _) as [[[err l] b]| |]; done.
Qed.

Lemma entries_length es : (length es <= length (concat (map entry_bytes es)))%nat.
Proof.
  induction es as [|e es IH]; [done|]. cbn [map concat length]. unfold entry_bytes at 1. cbn [field_bytes].
  rewrite !length_app, length_be_bytes. lia.
Qed.

Lemma entries_decoded cfg es :
  idmap_file cfg = false -> blksize cfg = 4096 -> Forall entry_ok es ->
  Z.of_nat (length (entries_bytes es)) < 2 ^ 32 ->
  buf_get_entries cfg (reply_at (entries_bytes es) 0) =
    Ret ((0, map (entry_shown cfg) es), reply_at (entries_bytes es) (length (entries_bytes es))).
Proof using All.
  intros Hi Hb Hes Hl. pose proof (entries_length es) as He.
  assert (decodes (entries_bytes es) (buf_get_entries cfg) (0, map (entry_shown cfg) es)) as Hd.
  { unfold entries_bytes, buf_get_entries in *. rewrite length_app, length_be_bytes in Hl.
    eapply decodes_bind; [apply decodes_uint32; lia|]. cbv beta iota.
    apply (decodes_fuel _ (fun fuel => get_entries_loop cfg fuel 0 (Z.of_nat (length es))) (length es)); [done|].
    intros fuel Hf. by apply (decodes_entries_loop cfg fuel es 0). }
  specialize (Hd [] []). rewrite app_nil_l, app_nil_r in Hd. by apply Hd.
Qed.

(** A directory listing is decoded as the protocol describes it: from a reply
    with any number of entries, whose attributes may leave out any part and carry
    extended attributes, the caller gets all the names in order with their
    attributes, and the whole reply has been read. *)
Theorem sftp_entries_decoded cfg es :
  idmap_file cfg = false -> blksize cfg = 4096 -> Forall entry_ok es ->
  Z.of_nat (length (entries_bytes es)) < 2 ^ 32 ->
  buf_get_entries cfg (reply_at (entries_bytes es) 0) =
    Ret ((0, map (entry_shown cfg) es), reply_at (entries_bytes es) (length (entries_bytes es))).
Proof using All. apply entries_decoded. Qed.
End RoundTrip.

(** C27: Whatever bytes a server sends, the decoders of attributes, of file system
    data, of strings and of directory listings return and leave the read position
    inside the reply: no copy touches memory outside the reply or the blocks that
    were allocated, and the loops over counts from the reply end before the
    buffer's size in rounds.  The process ends only when an allocation fails. *)
Theorem sftp_decoders_safe `{HeapLaws} cfg l :
  Z.of_nat (length l) < 2 ^ 32 ->
  stays_inside (buf_get_attrs cfg) l /\ stays_inside buf_get_statvfs l /\
  stays_inside buf_get_string l /\ stays_inside (buf_get_entries cfg) l.
Proof.
  intros Hl. assert (forall A k ok (e : prog buffer A), safe_read k ok e -> stays_inside e l) as Hs.
  { intros A k ok e He. unfold stays_inside. eapply wp_mono; [apply He; [lia|done]|]. cbn.
    intros r b (off & -> & Hoff & _). exists off. split; [done|lia]. }
  split; [eapply Hs, safe_attrs|]. split; [|split; [eapply Hs, safe_string|]].
  - unfold buf_get_statvfs, stays_inside. apply wp_bind. eapply wp_mono; [apply safe_uint64s; [lia|done]|]. cbv beta.
    intros r b (off & -> & Hoff & _). apply wp_ret. exists off. split; [done|lia].
  - unfold buf_get_entries, stays_inside. apply wp_bind. eapply wp_mono; [apply safe_uint32; [lia|done]|]. cbv beta.
    intros [cnt|] b (off & -> & Hoff & _); [|exists off; split; [done|lia]].
    apply wp_bind, wp_get. eapply wp_mono; [apply safe_entries_loop; cbn; lia|]. cbn.
    intros r b (off' & -> & Hoff'). exists off'. split; [done|lia].
Qed.

Module SftpExample.
(** Memory that is never short; new bytes are question marks. *)
#[export] Instance plain_heap : Heap := {|
  malloc := fun n => Some (replicate (Z.to_nat n) "?"%char);
  realloc := fun b n => Some (take (Z.to_nat n) b ++ replicate (Z.to_nat n - length b) "?"%char) |}.

#[export] Instance plain_heap_laws : HeapLaws.
Proof.
  split.
  - intros n b Hn [= <-]. rewrite length_replicate. lia.
  - intros b n b' Hn [= <-]. rewrite length_app, length_take, length_replicate. lia.
  - intros b n b' Hn [= <-]. rewrite length_app, length_take, length_replicate.
    destruct (Nat.le_ge_cases (Z.to_nat n) (length b)) as [Hle|Hle].
    + replace (Nat.min (length b) _) with (Z.to_nat n) by lia.
      rewrite take_app_le by (rewrite length_take; lia). by rewrite take_take, Nat.min_id.
    + replace (Nat.min (length b) _) with (length b) by lia.
      rewrite (take_ge b (Z.to_nat n)) by lia. by rewrite take_app_length, firstn_all.
Qed.

#[export] Instance plain_heap_plenty : HeapPlenty.
Proof. split; intros; by eexists. Qed.

Definition plain_cfg : sshfs_ids := SshfsIds true 1000 500 1000 500 false None None NOMAP_ERROR 4096 true.

Definition request : list field := [FUint32 17; FString (lit "/etc/motd"); FUint64 (2 ^ 40); FUint8 255; FString (lit "")].

Lemma sftp_fields_roundtrip_witness :
  exists b b' bytes, (let! b := buf_init 0 in add_fields b request) = Ret b /\
    mem_load (buf_p b) 0 (buf_len b) = Ret bytes /\
    get_fields request (reply_at bytes 0) = Ret (Some request, b') /\ buf_len b' = buf_size b'.
Proof.
  apply (sftp_fields_roundtrip request).
  - repeat constructor; cbn [field_ok e_name]; try (cbn; lia); by apply (bool_decide_eq_true_1 (nul ∉ _)).
  - vm_compute. done.
Defined.

(** A listing that announces more entries than the reply has room for. *)
Lemma sftp_decoders_safe_witness :
  stays_inside (buf_get_attrs plain_cfg) (replicate 40 "255"%char) /\
  stays_inside buf_get_statvfs (replicate 40 "255"%char) /\
  stays_inside buf_get_string (replicate 40 "255"%char) /\
  stays_inside (buf_get_entries plain_cfg) (replicate 40 "255"%char).
Proof. apply (sftp_decoders_safe plain_cfg (replicate 40 "255"%char)). vm_compute. done. Defined.

Definition listing : list wire_entry :=
  [WireEntry (lit "a") (lit "-rw-r--r-- a") (WireAttrs (Some 5000) (Some (1000, 0)) (Some 33188) (Some (7, 8)) None);
   WireEntry (lit "l") (lit "") (WireAttrs None None (Some 41471) None (Some [(lit "x@y", lit "z")]))].

Lemma sftp_entries_decoded_witness :
  buf_get_entries plain_cfg (reply_at (entries_bytes listing) 0) =
    Ret ((0, [(lit "a", Stat 0 0 33188 1 500 0 0 5000 4096 16 7 8 8); (lit "l", Stat 0 0 0 1 0 0 0 0 4096 0 0 0 0)]),
         reply_at (entries_bytes listing) (length (entries_bytes listing))).
Proof.
  apply (sftp_entries_decoded plain_cfg listing).
  - reflexivity.
  - reflexivity.
  - repeat constructor; cbn [field_ok e_name]; try (cbn; lia); by apply (bool_decide_eq_true_1 (nul ∉ _)).
  - vm_compute. done.
Defined.
End SftpExample.
