(* ===== verification/SftpConn.v ===== *)
(** * The connection of the sftp client (src/usfs_wrap/sshfs/sshfs_wrap.c)

    Messages to and from the server: a length, a type, an identifier and a body.
    The system may write and read them in pieces.  A connection starts with a
    version message in each direction; the server's may follow other output of
    ssh.  Processes, sockets and terminals are parameters ([Channel], [Dialer]).

    The theorems: a message that is sent in pieces is received in pieces as the
    same message ([sftp_messages_cross]); the client finds the version message
    behind any output that does not look like one ([init_reply_found]). *)

From Stdlib Require Import ZArith Lia Ascii String.
From stdpp Require Import base list.
From S2P Require Import Prelude World Cache SftpBuf.

Local Open Scope Z_scope.

Definition SSH_FXP_INIT : Z := 1.
Definition SSH_FXP_VERSION : Z := 2.
Definition SSH_FXP_LSTAT : Z := 7.
Definition SSH_FXP_STAT : Z := 17.
Definition SSH_FXP_STATUS : Z := 101.
Definition SSH_FXP_ATTRS : Z := 105.
Definition PROTO_VERSION : Z := 3.
Definition MAX_REPLY_LEN : Z := Z.shiftl 1 17.
Definition SFTP_MAX_IOV : Z := 3.
Definition SFTP_EXT_POSIX_RENAME : list ascii := lit "posix-rename@openssh.com".
Definition SFTP_EXT_STATVFS : list ascii := lit "statvfs@openssh.com".
Definition SFTP_EXT_HARDLINK : list ascii := lit "hardlink@openssh.com".
Definition SFTP_EXT_FSYNC : list ascii := lit "fsync@openssh.com".
Definition O_NOCTTY : Z := 256.

(** ** The system *)

Class Channel (W : Type) := {
  (** the result of [writev]; some of the bytes have been written *)
  writev : Z -> list (list ascii) -> W -> Z * W;
  (** the result of [read] and the bytes stored *)
  read_fd : Z -> Z -> W -> (Z * list ascii) * W;
  close_fd : Z -> W -> W }.

Class Dialer (W : Type) := {
  addrinfo : Type;
  (** [None] when the name cannot be resolved *)
  getaddrinfo : list ascii -> list ascii -> W -> option addrinfo * W;
  socket : addrinfo -> W -> Z * W;
  connect : Z -> addrinfo -> W -> Z * W;
  set_nodelay : Z -> W -> W;
  (** [None] for -1 *)
  socketpair : W -> option (Z * Z) * W;
  (** the parent's result of [fork]; the child runs ssh on the second socket *)
  fork_ssh : Z -> W -> Z * W;
  waitpid : Z -> W -> W;
  open_fd : list ascii -> Z -> W -> Z * W;
  grantpt : Z -> W -> Z * W;
  unlockpt : Z -> W -> Z * W;
  ptsname : Z -> W -> list ascii;
  write_fd : Z -> list ascii -> W -> W;
  (** waits for input on two descriptors: the result, and which of them has some *)
  poll2 : Z -> Z -> Z -> W -> (Z * (bool * bool)) * W;
  getuid : W -> Z;
  getgid : W -> Z;
  (** [pthread_create] *)
  thread_create : W -> Z * W }.

(** ** State *)

Record conn := Conn {
  processing_thread_started : bool;
  rfd : Z; wfd : Z;
  connver : Z;
  req_count : Z; dir_count : Z; file_count : Z }.

(** Options; they do not change once the client has started. *)
Record options := Options {
  password_stdin : bool; reconnect : bool; passive : bool;
  directport : option (list ascii);
  delay_connect : bool; no_check_root : bool }.

(** The rest of [struct sshfs] that connecting uses, with the system. *)
Record session (W : Type) := Session {
  conns : list conn;
  idctr : Z;
  ptyfd : Z; ptypassivefd : Z;
  password : option (list ascii);
  host : list ascii;
  ext_posix_rename : bool; rename_workaround : bool;
  ext_statvfs : bool; ext_hardlink : bool; ext_fsync : bool;
  server_version : Z;
  detect_uid : bool;
  ids : sshfs_ids;
  num_connect : Z;
  connvers : Z;
  os : W }.
Arguments Session {W}.
Arguments conns {W}. Arguments idctr {W}. Arguments ptyfd {W}. Arguments ptypassivefd {W}.
Arguments password {W}. Arguments host {W}. Arguments ext_posix_rename {W}.
Arguments rename_workaround {W}. Arguments ext_statvfs {W}. Arguments ext_hardlink {W}.
Arguments ext_fsync {W}. Arguments server_version {W}. Arguments detect_uid {W}. Arguments ids {W}.
Arguments num_connect {W}. Arguments connvers {W}. Arguments os {W}.

Section Setters.
Context {W : Type}.
Implicit Types (s : session W).

Definition set_conns l s := Session l (idctr s) (ptyfd s) (ptypassivefd s) (password s) (host s)
  (ext_posix_rename s) (rename_workaround s) (ext_statvfs s) (ext_hardlink s) (ext_fsync s)
  (server_version s) (detect_uid s) (ids s) (num_connect s) (connvers s) (os s).
Definition set_idctr v s := Session (conns s) v (ptyfd s) (ptypassivefd s) (password s) (host s)
  (ext_posix_rename s) (rename_workaround s) (ext_statvfs s) (ext_hardlink s) (ext_fsync s)
  (server_version s) (detect_uid s) (ids s) (num_connect s) (connvers s) (os s).
Definition set_pty v v' s := Session (conns s) (idctr s) v v' (password s) (host s)
  (ext_posix_rename s) (rename_workaround s) (ext_statvfs s) (ext_hardlink s) (ext_fsync s)
  (server_version s) (detect_uid s) (ids s) (num_connect s) (connvers s) (os s).
Definition set_password v s := Session (conns s) (idctr s) (ptyfd s) (ptypassivefd s) v (host s)
  (ext_posix_rename s) (rename_workaround s) (ext_statvfs s) (ext_hardlink s) (ext_fsync s)
  (server_version s) (detect_uid s) (ids s) (num_connect s) (connvers s) (os s).
Definition set_host v s := Session (conns s) (idctr s) (ptyfd s) (ptypassivefd s) (password s) v
  (ext_posix_rename s) (rename_workaround s) (ext_statvfs s) (ext_hardlink s) (ext_fsync s)
  (server_version s) (detect_uid s) (ids s) (num_connect s) (connvers s) (os s).
Definition set_exts pr rw sv hl fs s := Session (conns s) (idctr s) (ptyfd s) (ptypassivefd s) (password s) (host s)
  pr rw sv hl fs (server_version s) (detect_uid s) (ids s) (num_connect s) (connvers s) (os s).
Definition set_version v s := Session (conns s) (idctr s) (ptyfd s) (ptypassivefd s) (password s) (host s)
  (ext_posix_rename s) (rename_workaround s) (ext_statvfs s) (ext_hardlink s) (ext_fsync s)
  v (detect_uid s) (ids s) (num_connect s) (connvers s) (os s).
Definition set_detect_uid v s := Session (conns s) (idctr s) (ptyfd s) (ptypassivefd s) (password s) (host s)
  (ext_posix_rename s) (rename_workaround s) (ext_statvfs s) (ext_hardlink s) (ext_fsync s)
  (server_version s) v (ids s) (num_connect s) (connvers s) (os s).
Definition set_ids v s := Session (conns s) (idctr s) (ptyfd s) (ptypassivefd s) (password s) (host s)
  (ext_posix_rename s) (rename_workaround s) (ext_statvfs s) (ext_hardlink s) (ext_fsync s)
  (server_version s) (detect_uid s) v (num_connect s) (connvers s) (os s).
Definition set_num_connect v s := Session (conns s) (idctr s) (ptyfd s) (ptypassivefd s) (password s) (host s)
  (ext_posix_rename s) (rename_workaround s) (ext_statvfs s) (ext_hardlink s) (ext_fsync s)
  (server_version s) (detect_uid s) (ids s) v (connvers s) (os s).
Definition set_connvers v s := Session (conns s) (idctr s) (ptyfd s) (ptypassivefd s) (password s) (host s)
  (ext_posix_rename s) (rename_workaround s) (ext_statvfs s) (ext_hardlink s) (ext_fsync s)
  (server_version s) (detect_uid s) (ids s) (num_connect s) v (os s).
Definition set_os (w : W) s := Session (conns s) (idctr s) (ptyfd s) (ptypassivefd s) (password s) (host s)
  (ext_posix_rename s) (rename_workaround s) (ext_statvfs s) (ext_hardlink s) (ext_fsync s)
  (server_version s) (detect_uid s) (ids s) (num_connect s) (connvers s) w.

(** A call of the system. *)
Definition on_os {A} (e : prog W A) : prog (session W) A := pzoom os set_os e.
Definition ocall {A} (f : W -> A * W) : prog (session W) A := on_os (pcall f).
Definition omodify (f : W -> W) : prog (session W) unit := on_os (pmodify f).

(** [conn->f], [conn->f = v] *)
Definition conn_get (c : nat) : prog (session W) conn := fun s =>
  let! x := deref (conns s !! c) in Ret (x, s).
Definition conn_upd (c : nat) (f : conn -> conn) : prog (session W) unit := fun s =>
  let! x := deref (conns s !! c) in Ret (tt, set_conns (<[c := f x]> (conns s)) s).
End Setters.

Definition set_fds (r w : Z) (x : conn) : conn :=
  Conn (processing_thread_started x) r w (connver x) (req_count x) (dir_count x) (file_count x).
Definition set_started (b : bool) (x : conn) : conn :=
  Conn b (rfd x) (wfd x) (connver x) (req_count x) (dir_count x) (file_count x).
Definition set_connver (v : Z) (x : conn) : conn :=
  Conn (processing_thread_started x) (rfd x) (wfd x) v (req_count x) (dir_count x) (file_count x).
Definition add_req_count (d : Z) (x : conn) : conn :=
  Conn (processing_thread_started x) (rfd x) (wfd x) (connver x) (i32 (req_count x + d)) (dir_count x) (file_count x).

(** ** Messages *)

Section Messages.
Context `{Heap} {W : Type} `{!Channel W}.

(** The segments without the first [res] bytes; segments that are used up go. *)
Fixpoint iov_advance (res : Z) (iov : list (list ascii)) : list (list ascii) :=
  match iov with
  | [] => []
  | s :: rest =>
      if u32 res <? Z.of_nat (length s) then drop (Z.to_nat res) s :: rest
      else iov_advance (res - Z.of_nat (length s)) rest
  end.

Definition iov_size (iov : list (list ascii)) : nat := length (concat iov) + length iov.

(** Each round takes a byte or a segment away, so that [iov_size] rounds are enough. *)
Fixpoint do_write_loop (fuel : nat) (fd : Z) (iov : list (list ascii)) : prog W Z :=
  match iov with
  | [] => pret 0
  | _ =>
      match fuel with
      | O => plift Undef
      | S fuel =>
          let* res := pcall (writev fd iov) in
          let res := i32 res in
          if res =? -1 then pret (-1)
          else if res =? 0 then pret (-1)
          else do_write_loop fuel fd (iov_advance res iov)
      end
  end.
Definition do_write (fd : Z) (iov : list (list ascii)) : prog W Z := do_write_loop (iov_size iov) fd iov.

Definition buf_to_iov (b : buffer) : outcome (list ascii) := mem_load (buf_p b) 0 (buf_len b).

Fixpoint iov_length (iov : list (list ascii)) : Z :=
  match iov with [] => 0 | s :: rest => u64 (Z.of_nat (length s) + iov_length rest) end.

(** The failed assertion ends the process. *)
Definition sftp_send_iov (fd : Z) (type id : Z) (iov : list (list ascii)) : prog W Z :=
  if Z.of_nat (length iov) >? SFTP_MAX_IOV - 1 then pexit
  else
    let* buf := plift (
      let! buf := buf_init 9 in
      let! buf := buf_add_uint32 buf (u32 (iov_length iov + 5)) in
      let! buf := buf_add_uint8 buf type in
      buf_add_uint32 buf id) in
    let* head := plift (buf_to_iov buf) in
    do_write fd (head :: iov).

(** [size] bytes to [p + off]; [None] is the result -1.  A round reads a byte or
    more. *)
Fixpoint do_read_loop (fuel : nat) (fd : Z) (p : option (list ascii)) (off size : Z) : prog W (option (option (list ascii))) :=
  if size =? 0 then pret (Some p)
  else
    match fuel with
    | O => plift Undef
    | S fuel =>
        let* (res, bytes) := pcall (read_fd fd size) in
        let res := i32 res in
        if res =? -1 then pret None
        else if res =? 0 then pret None
        else
          let* p := plift (mem_store p off (take (Z.to_nat res) bytes)) in
          do_read_loop fuel fd p (off + res) (u64 (size - res))
    end.
Definition do_read (fd : Z) (b : buffer) : prog W (option buffer) :=
  let* r := do_read_loop (Z.to_nat (buf_size b)) fd (buf_p b) 0 (buf_size b) in
  pret (match r with Some p => Some (Buffer p (buf_len b) (buf_size b)) | None => None end).

(** The type of a message, and a buffer with the rest of it. *)
Definition sftp_read (fd : Z) : prog W (option (Z * buffer)) :=
  let* buf2 := plift (buf_init 5) in
  let* r := do_read fd buf2 in
  match r with
  | None => pret None
  | Some buf2 =>
      let* (len, buf2) := plift (buf_get_uint32 buf2) in
      match len with
      | None => pret None
      | Some len =>
          if len >? MAX_REPLY_LEN then pret None
          else
            let* (type, buf2) := plift (buf_get_uint8 buf2) in
            match type with
            | None => pret None
            | Some type =>
                let* buf := plift (buf_init (u32 (len - 1))) in
                let* r := do_read fd buf in
                pret (match r with Some buf => Some (type, buf) | None => None end)
            end
      end
  end.
End Messages.

(** ** Connecting *)

Section Connecting.
Context `{Heap} {W : Type} `{!Channel W} `{!Dialer W}.
Context (opts : options).
(** How many bytes of other output the client looks through; the code has no limit. *)
Context (patience : nat).

Definition sftp_get_id : prog (session W) Z := fun s =>
  Ret (idctr s, set_idctr (u32 (idctr s + 1)) s).

Definition send_iov (c : nat) (type id : Z) (iov : list (list ascii)) : prog (session W) Z :=
  let* x := conn_get c in on_os (sftp_send_iov (wfd x) type id iov).
Definition read_msg (c : nat) : prog (session W) (option (Z * buffer)) :=
  let* x := conn_get c in on_os (sftp_read (rfd x)).

(** What the first nine bytes are: an error (-1), something else (1), or the
    version message (0). *)
Inductive init_reply := InitError | InitOther | InitVersion (version : Z).

Definition ext_is (name value : list ascii) (ext extdata : list ascii) : bool :=
  bool_decide (cstr ext = name) && bool_decide (cstr extdata = value).

Definition note_extension (ext extdata : list ascii) (s : session W) : session W :=
  let pr := ext_is SFTP_EXT_POSIX_RENAME (lit "1") ext extdata in
  set_exts (ext_posix_rename s || pr) (rename_workaround s && negb pr)
    (ext_statvfs s || ext_is SFTP_EXT_STATVFS (lit "2") ext extdata)
    (ext_hardlink s || ext_is SFTP_EXT_HARDLINK (lit "1") ext extdata)
    (ext_fsync s || ext_is SFTP_EXT_FSYNC (lit "1") ext extdata) s.

(** [None] is the result -1.  An extension takes eight bytes or more. *)
Fixpoint read_extensions (fuel : nat) (buf2 : buffer) : prog (session W) (option unit) :=
  match fuel with
  | O => plift Undef
  | S fuel =>
      let* (ext, buf2) := plift (buf_get_string buf2) in
      match ext with
      | None => pret None
      | Some ext =>
          let* (extdata, buf2) := plift (buf_get_string buf2) in
          match extdata with
          | None => pret None
          | Some extdata =>
              do* pmodify (note_extension ext extdata);
              if buf_len buf2 <? buf_size buf2 then read_extensions fuel buf2 else pret (Some tt)
          end
      end
  end.

Definition sftp_init_reply_ok (fd : Z) (buf : buffer) : prog (session W) init_reply :=
  let* (len, buf) := plift (buf_get_uint32 buf) in
  match len with
  | None => pret InitError
  | Some len =>
      if (len <? 5) || (len >? MAX_REPLY_LEN) then pret InitOther
      else
        let* (type, buf) := plift (buf_get_uint8 buf) in
        match type with
        | None => pret InitError
        | Some type =>
            if negb (type =? SSH_FXP_VERSION) then pret InitOther
            else
              let* (version, buf) := plift (buf_get_uint32 buf) in
              match version with
              | None => pret InitError
              | Some version =>
                  if len >? 5 then
                    let* buf2 := plift (buf_init (len - 5)) in
                    let* r := on_os (do_read fd buf2) in
                    match r with
                    | None => pret InitError
                    | Some buf2 =>
                        let* r := read_extensions (S (Z.to_nat (buf_size buf2))) buf2 in
                        pret (match r with Some _ => InitVersion version | None => InitError end)
                    end
                  else pret (InitVersion version)
              end
        end
  end.

(** The bytes move down by one and one more is read; [None] is the result -1. *)
Fixpoint find_init_loop (fuel : nat) (fd : Z) (buf : buffer) : prog (session W) (option Z) :=
  let* r := sftp_init_reply_ok fd buf in
  match r with
  | InitError => pret None
  | InitVersion version => pret (Some version)
  | InitOther =>
      match fuel with
      | O => plift Undef
      | S fuel =>
          let* d := plift (mem_load (buf_p buf) 1 (buf_size buf - 1)) in
          let* p := plift (mem_store (buf_p buf) 0 d) in
          let* r := on_os (do_read_loop 1 fd p (buf_size buf - 1) 1) in
          match r with
          | None => pret None
          | Some p => find_init_loop fuel fd (Buffer p 0 (buf_size buf))
          end
      end
  end.
Definition sftp_find_init_reply (fd : Z) : prog (session W) (option Z) :=
  let* buf := plift (buf_init 9) in
  let* r := on_os (do_read fd buf) in
  match r with
  | None => pret None
  | Some buf => find_init_loop patience fd buf
  end.

(** Bytes of the terminal until the prompt; the password answers it.  The terminal
    has no part once ssh has output. *)
Fixpoint pty_expect_bytes (fuel : nat) (fd : Z) (buf : list ascii) : prog (session W) (option unit) :=
  let passwd_str := lit "assword:" in
  let* s := pget in
  let* (res, (revents0, _)) := ocall (poll2 fd (ptyfd s) 60000) in
  if res =? -1 then pret None
  else if res =? 0 then pret None
  else if (revents0 : bool) then pret (Some tt)
  else
    let* (res, bytes) := ocall (read_fd (ptyfd s) 1) in
    if res =? -1 then pret None
    else if res =? 0 then pret None
    else
      let* c := plift (deref (head bytes)) in
      let buf := buf ++ [c] in
      let* buf :=
        if (length buf =? length passwd_str)%nat then
          do* (if bool_decide (buf = passwd_str) then
                 let* pw := plift (deref (password s)) in omodify (write_fd (ptyfd s) pw)
               else pret tt);
          pret (drop 1 buf)
        else pret buf in
      match fuel with O => plift Undef | S fuel => pty_expect_bytes fuel fd buf end.
Definition pty_expect_loop (c : nat) : prog (session W) Z :=
  let* x := conn_get c in
  let* r := pty_expect_bytes patience (rfd x) [] in
  match r with
  | None => pret (-1)
  | Some _ =>
      do* (if negb (reconnect opts) then
             let* s := pget in
             do* plift (deref (password s)); pmodify (set_password None)
           else pret tt);
      pret 0
  end.

Definition sftp_init (c : nat) : prog (session W) Z :=
  let* res := send_iov c SSH_FXP_INIT PROTO_VERSION [] in
  if res =? -1 then pret (-1)
  else
    let* res := if password_stdin opts then pty_expect_loop c else pret 0 in
    if res =? -1 then pret (-1)
    else
      let* x := conn_get c in
      let* version := sftp_find_init_reply (rfd x) in
      match version with
      | None => pret (-1)
      | Some version => do* pmodify (set_version version); pret 0
      end.

(** The common part of [sftp_detect_uid] and [sftp_check_root]: a request for the
    attributes of a directory before there is a thread for replies.  The result of
    [buf_get_attrs], or [None]. *)
Definition stat_reply (c : nat) (type : Z) (dir : list ascii) (size : Z) : prog (session W) (option (Z * Z * option stat)) :=
  let* id := sftp_get_id in
  let* buf := plift (let! buf := buf_init size in buf_add_string buf dir) in
  let* iov := plift (buf_to_iov buf) in
  let* res := send_iov c type id [iov] in
  if res =? -1 then pret None
  else
    let* r := read_msg c in
    match r with
    | None => pret None
    | Some (type, buf) =>
        if negb (type =? SSH_FXP_ATTRS) && negb (type =? SSH_FXP_STATUS) then pret None
        else
          let* (replid, buf) := plift (buf_get_uint32 buf) in
          match replid with
          | None => pret None
          | Some replid =>
              if negb (replid =? id) then pret None
              else if type =? SSH_FXP_STATUS then pret None
              else
                let* s := pget in
                let* (attrs, _) := plift (buf_get_attrs (ids s) buf) in
                pret (Some attrs)
          end
    end.

Definition found_uid (r l rg lg : Z) (i : sshfs_ids) : sshfs_ids :=
  SshfsIds true r l rg lg (idmap_file i) (uid_map i) (gid_map i) (nomap i) (blksize i) (follow_symlinks i).

Definition sftp_detect_uid (c : nat) : prog (session W) unit :=
  let* r := stat_reply c SSH_FXP_STAT (lit ".") 5 in
  match r with
  | Some (_, flags, Some st) =>
      if has_flag flags SSH_FILEXFER_ATTR_UIDGID then
        pmodify (fun s => set_ids (found_uid (st_uid st) (getuid (os s)) (st_gid st) (getgid (os s)) (ids s)) s)
      else pret tt
  | _ => pret tt
  end.

Definition S_ISDIR (m : Z) : bool := Z.land m S_IFMT =? S_IFDIR.

Definition sftp_check_root (c : nat) (base_path : list ascii) : prog (session W) Z :=
  let remote_dir := match base_path with [] => lit "." | _ => base_path end in
  let* r := stat_reply c SSH_FXP_LSTAT remote_dir 0 in
  match r with
  | Some (_, flags, Some st) =>
      if negb (has_flag flags SSH_FILEXFER_ATTR_PERMISSIONS) then pret (-1)
      else if negb (S_ISDIR (st_mode st)) then pret (-1)
      else pret 0
  | Some (err2, _, None) => pret err2
  | None => pret (-1)
  end.

(** A terminal: its descriptor or -1, and the name of the other end. *)
Definition pty_master : prog (session W) (Z * list ascii) :=
  let* mfd := ocall (open_fd (lit "/dev/ptmx") (Z.lor O_RDWR O_NOCTTY)) in
  if mfd =? -1 then pret (-1, [])
  else
    let* r := ocall (grantpt mfd) in
    if negb (r =? 0) then pret (-1, [])
    else
      let* r := ocall (unlockpt mfd) in
      if negb (r =? 0) then pret (-1, [])
      else let* s := pget in pret (mfd, ptsname mfd (os s)).

(** The terminal that ssh asks for the password on. *)
Definition open_terminal : prog (session W) Z :=
  let* (fd, ptyname) := pty_master in
  do* pmodify (fun s => set_pty fd (ptypassivefd s) s);
  if fd =? -1 then pret (-1)
  else
    let* pfd := ocall (open_fd ptyname (Z.lor O_RDWR O_NOCTTY)) in
    do* pmodify (fun s => set_pty (ptyfd s) pfd s);
    pret (if pfd =? -1 then -1 else 0).

Definition start_ssh (c : nat) : prog (session W) Z :=
  let* r := if password_stdin opts then open_terminal else pret 0 in
  if r =? -1 then pret (-1)
  else
    let* sp := ocall socketpair in
    match sp with
    | None => pret (-1)
    | Some (sock0, sock1) =>
        do* conn_upd c (set_fds sock0 sock0);
        let* pid := ocall (fork_ssh sock1) in
        if pid =? -1 then do* omodify (close_fd sock1); pret (-1)
        else
          do* omodify (waitpid pid);
          do* omodify (close_fd sock1);
          pret 0
    end.

Definition connect_passive (c : nat) : prog (session W) Z :=
  do* conn_upd c (set_fds 0 1); pret 0.

Definition connect_to (c : nat) (host port : list ascii) : prog (session W) Z :=
  let* ai := ocall (getaddrinfo host port) in
  match ai with
  | None => pret (-1)
  | Some ai =>
      let* sock := ocall (socket ai) in
      if sock =? -1 then pret (-1)
      else
        let* err := ocall (connect sock ai) in
        if err =? -1 then do* omodify (close_fd sock); pret (-1)
        else
          do* omodify (set_nodelay sock);
          do* conn_upd c (set_fds sock sock);
          pret 0
  end.

Definition close_conn (c : nat) : prog (session W) unit :=
  let* x := conn_get c in
  do* omodify (close_fd (rfd x));
  do* (if negb (rfd x =? wfd x) then omodify (close_fd (wfd x)) else pret tt);
  do* conn_upd c (set_fds (-1) (-1));
  let* s := pget in
  do* (if negb (ptyfd s =? -1) then
         do* omodify (close_fd (ptyfd s)); pmodify (fun s => set_pty (-1) (ptypassivefd s) s)
       else pret tt);
  if negb (ptypassivefd s =? -1) then
    do* omodify (close_fd (ptypassivefd s)); pmodify (fun s => set_pty (ptyfd s) (-1) s)
  else pret tt.

Definition connect_remote (c : nat) : prog (session W) Z :=
  let* s := pget in
  let* err :=
    if passive opts then connect_passive c
    else match directport opts with
         | Some port => connect_to c (host s) port
         | None => start_ssh c
         end in
  let* err := if err =? 0 then sftp_init c else pret err in
  do* (if negb (err =? 0) then close_conn c
       else pmodify (fun s => set_num_connect (u32 (num_connect s + 1)) s));
  pret err.

Definition start_processing_thread (c : nat) : prog (session W) Z :=
  let* x := conn_get c in
  if processing_thread_started x then pret 0
  else
    let* err := if rfd x =? -1 then connect_remote c else pret 0 in
    if negb (err =? 0) then pret (- EIO)
    else
      let* s := pget in
      do* (if detect_uid s then
             do* sftp_detect_uid c; pmodify (set_detect_uid false)
           else pret tt);
      let* err := ocall thread_create in
      if negb (err =? 0) then pret (- EIO)
      else do* conn_upd c (set_started true); pret 0.

(** The host name and the directory of "host:directory"; the name is moved to the
    front of the string without its brackets. *)
Fixpoint split_host (bracket : bool) (s d : list ascii) : outcome (list ascii * list ascii) :=
  match s with
  | [] => Undef
  | c :: rest =>
      if bracket then
        if Ascii.eqb c "]"%char then split_host false rest d
        else if Ascii.eqb c nul then Exit
        else split_host true rest (d ++ [c])
      else
        if Ascii.eqb c nul || Ascii.eqb c ":"%char then Ret (d, rest)
        else if Ascii.eqb c "["%char then split_host true rest d
        else split_host false rest (d ++ [c])
  end.
Definition find_base_path : prog (session W) (list ascii) :=
  let* s := pget in
  let* (d, rest) := plift (split_host false (host s ++ [nul]) []) in
  do* pmodify (set_host d);
  (** the caller copies the string *)
  plift (cstring rest).

(** The tables are new and empty. *)
Definition ssh_connect (base_path : list ascii) : prog (session W) Z :=
  if negb (delay_connect opts) then
    let* r := connect_remote 0 in
    if r =? -1 then pret (-1)
    else if negb (no_check_root opts) then
      let* r := sftp_check_root 0 base_path in
      pret (if negb (r =? 0) then -1 else 0)
    else pret 0
  else pret 0.
End Connecting.

(** ** A connection that works *)

Class Duplex (W : Type) `{Channel W} := {
  connected : W -> Z -> Prop;
  (** what has been written to a descriptor, and what will be read from it *)
  wire_out : W -> Z -> list ascii;
  wire_in : W -> Z -> list ascii;
  (** a part is written, or all *)
  writev_piece fd iov w : connected w fd -> concat iov <> [] ->
    exists n w', writev fd iov w = (Z.of_nat n, w') /\ (0 < n <= length (concat iov))%nat /\ Z.of_nat n < 2 ^ 31 /\
      wire_out w' fd = wire_out w fd ++ take n (concat iov) /\
      (forall f, wire_in w' f = wire_in w f) /\ (forall f, connected w f -> connected w' f);
  (** a part of what there is, and no more than was asked for *)
  read_piece fd n w : connected w fd -> 0 < n -> wire_in w fd <> [] ->
    exists k w', read_fd fd n w = ((Z.of_nat k, take k (wire_in w fd)), w') /\
      (0 < k <= length (wire_in w fd))%nat /\ Z.of_nat k <= n /\ Z.of_nat k < 2 ^ 31 /\
      wire_in w' fd = drop k (wire_in w fd) /\
      (forall f, wire_out w' f = wire_out w f) /\ (forall f, connected w f -> connected w' f) }.

(** A message on the wire. *)
Definition message (type : Z) (rest : list ascii) : list ascii :=
  be_bytes 4 (Z.of_nat (length rest) + 1) ++ [byte_of_Z type] ++ rest.

Section HeapFacts.
Context `{HeapLaws} `{!HeapPlenty}.

Lemma buf_init_block n : 0 < n -> exists m, buf_init n = Ret (Buffer (Some m) 0 n) /\ Z.of_nat (length m) = n.
Proof using All.
  intros Hn. unfold buf_init. destruct (Z.eqb_spec n 0); [lia|].
  destruct (malloc_some n) as [m E]. rewrite E. exists m. split; [done|]. by apply (malloc_size n).
Qed.

Lemma init_holds n : 0 <= n -> exists b, buf_init n = Ret b /\ holds b [].
Proof using All.
  intros Hn. destruct (Z.eq_dec n 0) as [->|]; [by exists (Buffer None 0 0)|].
  destruct (buf_init_block n) as (m & E & Hm); [lia|]. exists (Buffer (Some m) 0 n). split; [done|].
  split; [done|]. split; [done|by exists m].
Qed.

Lemma load_holds b c : holds b c -> buf_to_iov b = Ret c.
Proof.
  intros [Hl Hp]. unfold buf_to_iov. rewrite Hl. destruct (buf_p b) as [m|].
  - destruct Hp as (_ & rest & ->). apply load_string.
  - by destruct Hp as [-> _].
Qed.
End HeapFacts.

Section MessageProofs.
Context `{HeapLaws} `{!HeapPlenty} {W : Type} `{Duplex W}.
Implicit Types (w : W).

Lemma advance_spec n iov : (n <= length (concat iov))%nat -> Z.of_nat n < 2 ^ 31 ->
  concat (iov_advance (Z.of_nat n) iov) = drop n (concat iov) /\
  (iov_advance (Z.of_nat n) iov <> [] -> concat (iov_advance (Z.of_nat n) iov) <> []) /\
  (iov_size (iov_advance (Z.of_nat n) iov) + n <= iov_size iov)%nat.
Proof.
  revert n. induction iov as [|s iov IH]; intros n Hn Hs; cbn [concat iov_advance] in *.
  - rewrite drop_nil. unfold iov_size in *. cbn in *. split; [done|]. split; [done|lia].
  - rewrite length_app in Hn. rewrite wrap_small by lia.
    destruct (Z.ltb_spec (Z.of_nat n) (Z.of_nat (length s))) as [Hlt|Hge].
    + rewrite Nat2Z.id. cbn [concat]. rewrite drop_app_le by lia. split; [done|]. split.
      * intros _ E. apply (f_equal length) in E. rewrite length_app, length_drop in E. cbn in E. lia.
      * unfold iov_size. cbn [concat length]. rewrite !length_app, length_drop. lia.
    + replace (Z.of_nat n - Z.of_nat (length s)) with (Z.of_nat (n - length s)) by lia.
      destruct (IH (n - length s)%nat) as (E1 & E2 & E3); [lia|lia|]. rewrite drop_app_ge by lia.
      split; [done|]. split; [done|]. unfold iov_size in *. cbn [concat length]. rewrite length_app. lia.
Qed.

Lemma i32_of_nat n : Z.of_nat n < 2 ^ 31 -> i32 (Z.of_nat n) = Z.of_nat n.
Proof. intros. apply swrap_small; cbn; lia. Qed.

Lemma do_write_loop_all fuel fd iov w : (iov_size iov <= fuel)%nat -> (iov <> [] -> concat iov <> []) -> connected w fd ->
  exists w', do_write_loop fuel fd iov w = Ret (0, w') /\ wire_out w' fd = wire_out w fd ++ concat iov /\
    (forall f, wire_in w' f = wire_in w f) /\ (forall f, connected w f -> connected w' f).
Proof using All.
  revert iov w. induction fuel as [|fuel IH]; intros iov w Hf Hne Hc.
  - destruct iov as [|s iov]; [|unfold iov_size in Hf; cbn in Hf; lia].
    exists w. cbn. by rewrite app_nil_r.
  - destruct iov as [|s iov]; [exists w; cbn; by rewrite app_nil_r|].
    cbn [do_write_loop]. set (l := s :: iov) in *. assert (concat l <> []) as Hl by by apply Hne. clearbody l.
    destruct (writev_piece fd l w Hc Hl) as (n & w1 & E & Hn & Hs & Ho & Hi & Hk).
    unfold pcall. rewrite (pbind_ret _ _ _ (Z.of_nat n) w1) by by rewrite E.
    rewrite i32_of_nat by done. destruct (Z.eqb_spec (Z.of_nat n) (-1)); [lia|]. destruct (Z.eqb_spec (Z.of_nat n) 0); [lia|].
    destruct (advance_spec n l) as (E1 & E2 & E3); [lia|done|].
    destruct (IH (iov_advance (Z.of_nat n) l) w1) as (w2 & -> & Ho2 & Hi2 & Hk2); [lia|done|by apply Hk|].
    exists w2. split; [done|]. rewrite Ho2, Ho, E1, <- app_assoc, take_drop. split; [done|].
    split; [intros f; by rewrite Hi2, Hi|auto].
Qed.

Lemma do_write_all fd iov w : concat iov <> [] -> connected w fd ->
  exists w', do_write fd iov w = Ret (0, w') /\ wire_out w' fd = wire_out w fd ++ concat iov /\
    (forall f, wire_in w' f = wire_in w f) /\ (forall f, connected w f -> connected w' f).
Proof using All. intros. by apply do_write_loop_all. Qed.

(** Reading to the end of a block. *)
Lemma do_read_loop_all fuel fd m off x rest w :
  (length x <= fuel)%nat -> (off + length x = length m)%nat -> Z.of_nat (length m) < 2 ^ 63 ->
  connected w fd -> wire_in w fd = x ++ rest ->
  exists w', do_read_loop fuel fd (Some m) (Z.of_nat off) (Z.of_nat (length x)) w = Ret (Some (Some (take off m ++ x)), w') /\
    wire_in w' fd = rest /\ (forall f, wire_out w' f = wire_out w f) /\ (forall f, connected w f -> connected w' f).
Proof using All.
  revert m off x w. induction fuel as [|fuel IH]; intros m off x w Hf Hm Hb Hc Hi.
  all: destruct (Nat.eq_dec (length x) 0%nat) as [E0|E0];
    [destruct x; [|done]; exists w; cbn [do_read_loop length]; cbn in Hm; rewrite Nat.add_0_r in Hm; subst off;
     rewrite firstn_all, app_nil_r; done|]. { lia. }
  cbn [do_read_loop]. destruct (Z.eqb_spec (Z.of_nat (length x)) 0); [lia|].
  destruct (read_piece fd (Z.of_nat (length x)) w Hc) as (k & w1 & E & Hk & Hkx & Hs & Hi1 & Ho1 & Hc1);
    [lia|rewrite Hi; by destruct x|]. unfold pcall at 1. rewrite (pbind_ret _ _ _ _ _ (f_equal Ret E)). cbv beta iota.
  rewrite i32_of_nat by done. destruct (Z.eqb_spec (Z.of_nat k) (-1)); [lia|]. destruct (Z.eqb_spec (Z.of_nat k) 0); [lia|].
  assert (take k (wire_in w fd) = take k x) as -> by (rewrite Hi, take_app_le by lia; done).
  rewrite Nat2Z.id, take_take, Nat.min_id.
  assert (mem_store (Some m) (Z.of_nat off) (take k x) = Ret (Some (splice m off (take k x)))) as Est.
  { unfold mem_store. destruct (take k x) eqn:Et; [apply (f_equal length) in Et; rewrite length_take in Et; cbn in Et; lia|].
    rewrite <- Et, length_take, (proj2 (Z.leb_le 0 _)), (proj2 (Z.leb_le _ _)) by lia. cbn [andb]. by rewrite Nat2Z.id. }
  rewrite Est. unfold plift at 1. rewrite (pbind_ret _ _ _ (Some (splice m off (take k x))) w1) by done.
  rewrite (wrap_small 64) by lia. rewrite <- Nat2Z.inj_add.
  replace (Z.of_nat (length x) - Z.of_nat k) with (Z.of_nat (length (drop k x))) by (rewrite length_drop; lia).
  assert (length (splice m off (take k x)) = length m) as El.
  { unfold splice. rewrite !length_app, !length_take, length_drop. lia. }
  destruct (IH (splice m off (take k x)) (off + k)%nat (drop k x) w1) as (w2 & -> & Hi2 & Ho2 & Hc2);
    [rewrite length_drop; lia|rewrite El, length_drop; lia|by rewrite El|by apply Hc1|rewrite Hi1, Hi, drop_app_le by lia; done|].
  exists w2. split; [|split; [done|split; [intros f; by rewrite Ho2, Ho1|auto]]].
  do 4 f_equal. unfold splice. rewrite app_assoc, take_app_le by (rewrite length_app, !length_take; lia).
  rewrite take_ge by (rewrite length_app, !length_take; lia). by rewrite <- app_assoc, take_drop.
Qed.

(** The buffer that a reply with the bytes [x] is read into. *)
Definition reply_buf (x : list ascii) : buffer := match x with [] => Buffer None 0 0 | _ => reply_at x 0 end.

Lemma do_read_new fd x rest w : Z.of_nat (length x) < 2 ^ 63 -> connected w fd -> wire_in w fd = x ++ rest ->
  exists b w', buf_init (Z.of_nat (length x)) = Ret b /\ do_read fd b w = Ret (Some (reply_buf x), w') /\
    wire_in w' fd = rest /\ (forall f, wire_out w' f = wire_out w f) /\ (forall f, connected w f -> connected w' f).
Proof using All.
  intros Hx Hc Hi. destruct x as [|a x].
  - exists (Buffer None 0 0), w. done.
  - destruct (buf_init_block (Z.of_nat (length (a :: x)))) as (m & E & Hm); [cbn; lia|].
    exists (Buffer (Some m) 0 (Z.of_nat (length (a :: x)))). rewrite E. unfold do_read. cbn [buf_size buf_p buf_len].
    destruct (do_read_loop_all (length (a :: x)) fd m 0 (a :: x) rest w) as (w' & E' & Hi' & Ho' & Hc'); [done|lia|lia|done|done|].
    exists w'. split; [done|]. rewrite Nat2Z.id. change (Z.of_nat 0) with 0 in E'.
    rewrite (pbind_ret _ _ _ _ _ E'). rewrite take_0, app_nil_l. done.
Qed.

Lemma get_uint8_head v x : 0 <= v < 256 -> Z.of_nat (length x) < 2 ^ 31 ->
  forall pre, (length pre <= 100)%nat ->
  buf_get_uint8 (reply_at (pre ++ byte_of_Z v :: x) (length pre)) =
    Ret (Some v, reply_at (pre ++ byte_of_Z v :: x) (length pre + 1)).
Proof using All.
  intros Hv Hx pre Hp. apply (decodes_uint8 v Hv pre x). rewrite !length_app. cbn [length]. lia.
Qed.

Lemma sftp_read_message fd type x rest w : 0 <= type < 256 -> Z.of_nat (length x) < MAX_REPLY_LEN ->
  connected w fd -> wire_in w fd = message type x ++ rest ->
  exists w', sftp_read fd w = Ret (Some (type, reply_buf x), w') /\
    wire_in w' fd = rest /\ (forall f, wire_out w' f = wire_out w f) /\ (forall f, connected w f -> connected w' f).
Proof using All.
  intros Ht Hx Hc Hi. change MAX_REPLY_LEN with 131072 in Hx. unfold message in Hi. rewrite <- !app_assoc in Hi. cbn [app] in Hi.
  set (hd := be_bytes 4 (Z.of_nat (length x) + 1)) in *.
  assert (length hd = 4%nat) as Hh by apply length_be_bytes.
  destruct (do_read_new fd (hd ++ [byte_of_Z type]) (x ++ rest) w) as (b & w1 & E & Er & Hi1 & Ho1 & Hc1);
    [rewrite length_app, Hh; cbn; lia|done|rewrite Hi, <- app_assoc; done|].
  rewrite length_app, Hh in E. change (Z.of_nat (4 + length [byte_of_Z type])) with 5 in E.
  unfold sftp_read. unfold plift at 1. rewrite E. rewrite (pbind_ret _ _ _ b w) by done.
  rewrite (pbind_ret _ _ _ _ _ Er). cbv iota.
  assert (reply_buf (hd ++ [byte_of_Z type]) = reply_at (hd ++ [byte_of_Z type]) 0) as -> by by destruct hd.
  pose proof (decodes_uint32 (Z.of_nat (length x) + 1) ltac:(lia) [] [byte_of_Z type]) as Hd.
  rewrite !app_nil_l in Hd. change (length (@nil ascii)) with 0%nat in Hd. fold hd in Hd. rewrite Hd by (rewrite length_app, Hh; cbn; lia).
  unfold plift at 1. rewrite (pbind_ret _ _ _ _ w1 eq_refl). cbv beta iota.
  change MAX_REPLY_LEN with 131072. rewrite Z.gtb_ltb. destruct (Z.ltb_spec 131072 (Z.of_nat (length x) + 1)); [lia|].
  fold hd. rewrite Hh. change (0 + 4)%nat with 4%nat. rewrite <- Hh, (get_uint8_head type []) by (cbn in *; lia).
  unfold plift at 1. rewrite (pbind_ret _ _ _ _ w1 eq_refl). cbv beta iota.
  rewrite wrap_small by lia. replace (Z.of_nat (length x) + 1 - 1) with (Z.of_nat (length x)) by lia.
  destruct (do_read_new fd x rest w1) as (b2 & w2 & E2 & Er2 & Hi2 & Ho2 & Hc2); [lia|by apply Hc1|done|].
  unfold plift at 1. rewrite E2. rewrite (pbind_ret _ _ _ b2 w1) by done. rewrite (pbind_ret _ _ _ _ _ Er2).
  exists w2. split; [done|]. split; [done|]. split; [intros f; by rewrite Ho2, Ho1|auto].
Qed.

Lemma iov_length_concat iov : Z.of_nat (length (concat iov)) < 2 ^ 64 -> iov_length iov = Z.of_nat (length (concat iov)).
Proof.
  induction iov as [|s iov IH]; intros Hl; cbn [iov_length concat] in *; [done|]. rewrite length_app in *.
  rewrite IH by lia. rewrite wrap_small by lia. lia.
Qed.

Lemma sftp_send_message fd type id iov w : (length iov <= 2)%nat -> Z.of_nat (length (concat iov)) + 5 < 2 ^ 32 -> connected w fd ->
  exists w', sftp_send_iov fd type id iov w = Ret (0, w') /\
    wire_out w' fd = wire_out w fd ++ message type (be_bytes 4 id ++ concat iov) /\
    (forall f, wire_in w' f = wire_in w f) /\ (forall f, connected w f -> connected w' f).
Proof using All.
  intros Hn Hl Hc. unfold sftp_send_iov. rewrite Z.gtb_ltb.
  destruct (Z.ltb_spec (SFTP_MAX_IOV - 1) (Z.of_nat (length iov))); [unfold SFTP_MAX_IOV in *; lia|].
  rewrite iov_length_concat, (wrap_small 32) by lia.
  destruct (init_holds 9 ltac:(lia)) as (b0 & E0 & H0').
  destruct (add_mem_holds b0 [] (be_bytes 4 (Z.of_nat (length (concat iov)) + 5)) H0') as (b1 & E1 & H1');
    [rewrite length_app, length_be_bytes; cbn; lia|].
  destruct (add_mem_holds b1 _ [byte_of_Z type] H1') as (b2 & E2 & H2'); [rewrite !length_app, length_be_bytes; cbn; lia|].
  destruct (add_mem_holds b2 _ (be_bytes 4 id) H2') as (b3 & E3 & H3'); [rewrite !length_app, !length_be_bytes; cbn; lia|].
  rewrite (pbind_ret _ _ _ b3 w).
  2: { unfold plift, mbind, outcome_bind. rewrite E0. unfold buf_add_uint32 at 1. rewrite E1.
       unfold buf_add_uint8. rewrite E2. unfold buf_add_uint32. by rewrite E3. }
  rewrite (load_holds _ _ H3'). unfold plift at 1. rewrite (pbind_ret _ _ _ _ w eq_refl).
  set (h := (([] ++ be_bytes 4 (Z.of_nat (length (concat iov)) + 5)) ++ [byte_of_Z type]) ++ be_bytes 4 id).
  destruct (do_write_all fd (h :: iov) w) as (w' & -> & Ho & Hi & Hk); [|done|].
  { cbn [concat]. intros E. apply (f_equal length) in E. unfold h in E. rewrite !length_app, !length_be_bytes in E. cbn in E. lia. }
  exists w'. split; [done|]. split; [|done]. rewrite Ho. f_equal. cbn [concat]. unfold h, message.
  rewrite app_nil_l, <- !app_assoc. do 2 f_equal. rewrite length_app, length_be_bytes. lia.
Qed.
End MessageProofs.

(** C22: Messages arrive as they were sent.  A message sent with [sftp_send_iov] goes
    out complete, into however many pieces the system breaks it, and a reader at the
    other end, whose system hands the stream out in pieces of its own, gets from
    [sftp_read] the type, the identifier and the body, and leaves what follows;
    for bodies that fit the limit of the reader. *)
Theorem sftp_messages_cross `{HeapLaws} `{!HeapPlenty} {W V : Type} `{Duplex W} `{Duplex V}
    (fd fd' type id : Z) (iov : list (list ascii)) (w : W) (v : V) (rest : list ascii) :
  0 <= type < 256 -> (length iov <= 2)%nat -> Z.of_nat (length (concat iov)) + 4 < MAX_REPLY_LEN ->
  connected w fd -> connected v fd' ->
  exists w' x, sftp_send_iov fd type id iov w = Ret (0, w') /\ wire_out w' fd = wire_out w fd ++ x /\
    (wire_in v fd' = x ++ rest ->
     exists v', sftp_read fd' v = Ret (Some (type, reply_at (be_bytes 4 id ++ concat iov) 0), v') /\
       wire_in v' fd' = rest).
Proof.
  intros Ht Hn Hl Hw Hv. change MAX_REPLY_LEN with 131072 in Hl.
  destruct (sftp_send_message fd type id iov w) as (w' & E & Ho & _); [done|lia|done|].
  exists w', (message type (be_bytes 4 id ++ concat iov)). split; [done|]. split; [done|]. intros Hi.
  destruct (sftp_read_message fd' type (be_bytes 4 id ++ concat iov) rest v) as (v' & E' & Hi' & _);
    [done|rewrite length_app, length_be_bytes; change MAX_REPLY_LEN with 131072; lia|done|done|].
  exists v'. by destruct (be_bytes 4 id) eqn:Eb; [apply (f_equal length) in Eb; rewrite length_be_bytes in Eb|].
Qed.

(** ** The version message *)

Definition version_message (version : Z) (exts : list (list ascii * list ascii)) : list ascii :=
  message SSH_FXP_VERSION (be_bytes 4 version ++ concat (map ext_bytes exts)).

(** The test that the client makes on nine bytes. *)
Definition looks_like_version (win : list ascii) : bool :=
  (5 <=? be_val (take 4 win)) && (be_val (take 4 win) <=? MAX_REPLY_LEN) &&
  (le_val (take 1 (drop 4 win)) =? SSH_FXP_VERSION).

Section VersionProofs.
Context `{HeapLaws} `{!HeapPlenty} {W : Type} `{Duplex W}.
Implicit Types (s : session W) (e : list ascii * list ascii).

Lemma set_os_os w s : os (set_os w s) = w.
Proof. done. Qed.

(** What a server announces, one extension after the other. *)
Definition note_all (exts : list (list ascii * list ascii)) s : session W :=
  foldl (fun s e => note_extension (e.1 ++ [nul]) (e.2 ++ [nul]) s) s exts.

Lemma note_all_os exts s : os (note_all exts s) = os s.
Proof. unfold note_all. revert s. induction exts as [|e exts IH]; intros s; cbn; [done|]. by rewrite IH. Qed.

Lemma read_extensions_all exts fuel pre s : exts <> [] -> (length exts <= fuel)%nat ->
  Z.of_nat (length (pre ++ concat (map ext_bytes exts))) < 2 ^ 32 ->
  read_extensions fuel (reply_at (pre ++ concat (map ext_bytes exts)) (length pre)) s = Ret (Some tt, note_all exts s).
Proof using All.
  revert fuel pre s. induction exts as [|e exts IH]; intros fuel pre s Hne Hf Hl; [done|].
  destruct fuel as [|fuel]; [cbn in Hf; lia|]. cbn [map concat read_extensions] in *.
  set (post := concat (map ext_bytes exts)) in *. unfold ext_bytes in Hl |- *.
  pose proof (decodes_string e.1 pre (field_bytes (FString e.2) ++ post)) as H1'.
  pose proof (decodes_string e.2 (pre ++ field_bytes (FString e.1)) post) as H2'.
  rewrite <- !app_assoc in *. rewrite (length_app pre (field_bytes (FString e.1))) in H2'. specialize (H1' Hl). specialize (H2' Hl).
  unfold plift. rewrite H1'. rewrite (pbind_ret _ _ _ _ s eq_refl). cbv beta iota.
  rewrite H2'. rewrite (pbind_ret _ _ _ _ s eq_refl). cbv beta iota.
  unfold pmodify at 1. rewrite (pbind_ret _ _ _ tt (note_extension (e.1 ++ [nul]) (e.2 ++ [nul]) s) eq_refl).
  cbn [reply_at buf_len buf_size].
  assert (length (pre ++ field_bytes (FString e.1) ++ field_bytes (FString e.2) ++ post) =
    length pre + length (field_bytes (FString e.1)) + length (field_bytes (FString e.2)) + length post)%nat as ->
    by (rewrite !length_app; lia).
  destruct (Z.ltb_spec (Z.of_nat (length pre + length (field_bytes (FString e.1)) + length (field_bytes (FString e.2))))
    (Z.of_nat (length pre + length (field_bytes (FString e.1)) + length (field_bytes (FString e.2)) + length post))) as [Hlt|Hge].
  - assert (exts <> []) as Hne' by (intros ->; cbn in post; subst post; cbn in Hlt; lia).
    specialize (IH fuel (pre ++ field_bytes (FString e.1) ++ field_bytes (FString e.2))
      (note_extension (e.1 ++ [nul]) (e.2 ++ [nul]) s) Hne' ltac:(cbn in Hf; lia)).
    rewrite !length_app, <- !app_assoc in IH. rewrite Nat.add_assoc in IH. unfold reply_at in IH |- *. apply IH.
    rewrite !length_app in Hl. lia.
  - destruct exts as [|e' exts]; [done|]. exfalso. assert (length post > 0)%nat; [|lia].
    unfold post. cbn [map concat]. unfold ext_bytes. cbn [field_bytes]. rewrite !length_app, length_be_bytes. lia.
Qed.

(** Nine bytes that are not the start of a version message. *)
Lemma init_reply_other fd win s : length win = 9%nat -> looks_like_version win = false ->
  sftp_init_reply_ok fd (reply_at win 0) s = Ret (InitOther, s).
Proof using All.
  intros Hw Hl. unfold sftp_init_reply_ok, plift. rewrite get_uint32_at by lia. rewrite Hw, drop_0. cbn [Nat.leb Nat.add].
  rewrite (pbind_ret _ _ _ _ s eq_refl). cbv beta iota. unfold looks_like_version in Hl.
  rewrite Z.gtb_ltb. destruct (Z.ltb_spec (be_val (take 4 win)) 5) as [|H5]; [done|].
  destruct (Z.ltb_spec MAX_REPLY_LEN (be_val (take 4 win))) as [|Hm]; [done|]. cbn [orb].
  rewrite (proj2 (Z.leb_le _ _) H5), (proj2 (Z.leb_le _ _) Hm) in Hl. cbn [andb] in Hl.
  assert (buf_get_uint8 (reply_at win 4) = Ret (Some (le_val (take 1 (drop 4 win))), reply_at win 5)) as ->.
  { unfold buf_get_uint8, pbind. rewrite get_mem_at by lia. by rewrite Hw. }
  rewrite (pbind_ret _ _ _ _ s eq_refl). cbv beta iota. by rewrite Hl.
Qed.

Lemma on_os_ret {A} (e : prog W A) s a w : e (os s) = Ret (a, w) -> on_os e s = Ret (a, set_os w s).
Proof. intros E. unfold on_os, pzoom. by rewrite E. Qed.

Lemma exts_length exts : (length exts <= length (concat (map ext_bytes exts)))%nat.
Proof.
  induction exts as [|a l IH]; [done|]. cbn [map concat length]. unfold ext_bytes at 1. cbn [field_bytes].
  rewrite !length_app, length_be_bytes. lia.
Qed.

(** The version message: its first nine bytes have been read, the extensions follow. *)
Lemma init_reply_version fd version exts rest s : 0 <= version < 2 ^ 32 ->
  Z.of_nat (length (concat (map ext_bytes exts))) + 5 <= MAX_REPLY_LEN ->
  connected (os s) fd -> wire_in (os s) fd = concat (map ext_bytes exts) ++ rest ->
  exists w, sftp_init_reply_ok fd (reply_at (take 9 (version_message version exts)) 0) s =
      Ret (InitVersion version, note_all exts (set_os w s)) /\ wire_in w fd = rest.
Proof using All.
  intros Hv Hl Hc Hi. change MAX_REPLY_LEN with 131072 in Hl. set (x := concat (map ext_bytes exts)) in *.
  set (n := Z.of_nat (length x) + 5). set (win := be_bytes 4 n ++ [byte_of_Z 2] ++ be_bytes 4 version).
  assert (take 9 (version_message version exts) = win) as ->.
  { unfold version_message, message. fold x. rewrite length_app, length_be_bytes.
    replace (Z.of_nat (4 + length x) + 1) with n by lia. rewrite !app_assoc. rewrite <- (app_assoc (be_bytes 4 n)).
    fold win. assert (length win = 9%nat) as <- by (unfold win; rewrite !length_app, !length_be_bytes; done).
    by rewrite take_app_length. }
  pose proof (decodes_uint32 n ltac:(lia) [] ([byte_of_Z 2] ++ be_bytes 4 version)) as D1.
  pose proof (decodes_uint8 2 ltac:(lia) (be_bytes 4 n) (be_bytes 4 version)) as D2.
  pose proof (decodes_uint32 version Hv (be_bytes 4 n ++ [byte_of_Z 2]) []) as D3.
  rewrite app_nil_r, <- !app_assoc in D3. rewrite app_nil_l in D1. fold win in D1, D2, D3.
  assert (Z.of_nat (length win) < 2 ^ 32) as Hw by (unfold win; rewrite !length_app, !length_be_bytes; cbn; lia).
  specialize (D1 Hw). specialize (D2 Hw). specialize (D3 Hw). rewrite length_app in D3. rewrite !length_be_bytes in D1, D2, D3.
  cbn [length Nat.add] in D1, D2, D3.
  unfold sftp_init_reply_ok, plift. rewrite D1, (pbind_ret _ _ _ _ s eq_refl). cbv beta iota.
  change MAX_REPLY_LEN with 131072. rewrite Z.gtb_ltb.
  destruct (Z.ltb_spec n 5); [lia|]. destruct (Z.ltb_spec 131072 n); [lia|]. cbn [orb].
  rewrite D2, (pbind_ret _ _ _ _ s eq_refl). cbv beta iota. change (negb (2 =? SSH_FXP_VERSION)) with false. cbv iota.
  rewrite D3, (pbind_ret _ _ _ _ s eq_refl). cbv beta iota. rewrite Z.gtb_ltb.
  destruct exts as [|e exts].
  { destruct (Z.ltb_spec 5 n); [cbn in *; lia|]. exists (os s). by destruct s. }
  assert (0 < length x)%nat as Hx by (unfold x; cbn [map concat]; unfold ext_bytes; cbn [field_bytes]; rewrite !length_app, length_be_bytes; lia).
  destruct (Z.ltb_spec 5 n); [|lia]. replace (n - 5) with (Z.of_nat (length x)) by lia.
  destruct (do_read_new fd x rest (os s)) as (b & w1 & E & Er & Hi1 & _); [lia|done|done|].
  rewrite E, (pbind_ret _ _ _ _ s eq_refl). rewrite (pbind_ret _ _ _ _ _ (on_os_ret _ _ _ _ Er)). cbv iota.
  exists w1. assert (reply_buf x = reply_at x 0) as -> by (destruct x; [cbn in Hx; lia|done]).
  pose proof (read_extensions_all (e :: exts) (S (Z.to_nat (buf_size (reply_at x 0)))) [] (set_os w1 s)) as Hr.
  rewrite app_nil_l in Hr. cbn [reply_at buf_size] in *. rewrite Nat2Z.id in *.
  rewrite (pbind_ret _ _ _ _ _ (Hr ltac:(done) (le_S _ _ (exts_length (e :: exts))) ltac:(fold x; lia))). done.
Qed.

(** One more byte of output. *)
Lemma shift_window fd win c s rest : length win = 9%nat -> connected (os s) fd -> wire_in (os s) fd = c :: rest ->
  exists d p w, mem_load (Some win) 1 (9 - 1) = Ret d /\ mem_store (Some win) 0 d = Ret (Some p) /\
    do_read_loop 1 fd (Some p) (9 - 1) 1 (os s) = Ret (Some (Some (drop 1 win ++ [c])), w) /\
    wire_in w fd = rest /\ connected w fd.
Proof using All.
  intros Hw Hc Hi. destruct win as [|a win]; [done|]. cbn in Hw. injection Hw as Hw.
  exists win, (splice (a :: win) 0 win). cbn [drop].
  assert (length (splice (a :: win) 0 win) = 9%nat) as Hs by (unfold splice; rewrite !length_app, length_drop; cbn; lia).
  destruct (do_read_loop_all 1 fd (splice (a :: win) 0 win) 8 [c] rest (os s)) as (w & E & Hi' & _ & Hc');
    [done|by rewrite Hs|lia|done|done|].
  exists w. split; [|split; [|split; [|split; [done|by apply Hc']]]].
  - unfold mem_load. cbn [length]. rewrite Hw. cbv iota. change (Z.to_nat (9 - 1)) with 8%nat.
    change (drop (Z.to_nat 1) (a :: win)) with win. by rewrite take_ge by lia.
  - unfold mem_store. destruct win as [|b win]; [done|]. cbn [length] in *. by rewrite Hw.
  - change (Z.of_nat 8) with (9 - 1) in E. change (Z.of_nat (length [c])) with 1 in E. rewrite E. do 4 f_equal.
    unfold splice. rewrite take_0, app_nil_l. rewrite take_app_le, take_ge by lia. done.
Qed.

Lemma find_init_loop_all junk fuel fd version exts rest s win : 0 <= version < 2 ^ 32 ->
  Z.of_nat (length (concat (map ext_bytes exts))) + 5 <= MAX_REPLY_LEN -> (length junk <= fuel)%nat ->
  let msg := junk ++ version_message version exts in
  (forall i, (i < length junk)%nat -> looks_like_version (take 9 (drop i msg)) = false) ->
  connected (os s) fd -> win = take 9 msg -> wire_in (os s) fd = drop 9 msg ++ rest ->
  exists w, find_init_loop fuel fd (reply_at win 0) s = Ret (Some version, note_all exts (set_os w s)) /\ wire_in w fd = rest.
Proof using All.
  assert (9 <= length (version_message version exts))%nat as Hmin
    by (unfold version_message, message; rewrite !length_app, !length_be_bytes; cbn; lia).
  revert fuel s win. induction junk as [|c junk IH]; intros fuel s win Hv Hl Hf msg Hjunk Hc -> Hi; cbn [app length] in *; subst msg.
  - destruct (init_reply_version fd version exts rest s Hv Hl Hc) as (w & E & Hw).
    { rewrite Hi. apply (f_equal (fun l => l ++ rest)). unfold version_message, message. rewrite !app_assoc.
      rewrite drop_app_ge by (rewrite !length_app, !length_be_bytes; cbn; lia).
      rewrite !length_app, !length_be_bytes. done. }
    exists w. split; [|done]. destruct fuel; cbn [find_init_loop]; by rewrite (pbind_ret _ _ _ _ _ E).
  - destruct fuel as [|fuel]; [lia|]. cbn [find_init_loop]. set (msg := junk ++ version_message version exts) in *.
    assert (9 <= length msg)%nat as Hmsg by (unfold msg; rewrite length_app; lia).
    assert (length (take 9 (c :: msg)) = 9%nat) as Hw9 by (rewrite length_take; cbn [length]; lia).
    rewrite (pbind_ret _ _ _ _ _ (init_reply_other fd _ s Hw9 (Hjunk 0%nat ltac:(lia)))). cbv iota.
    cbn [reply_at buf_p buf_size]. rewrite Hw9. change (Z.of_nat 9) with 9.
    assert (drop 9 (c :: msg) = drop 8 msg) as E8 by done. rewrite E8 in Hi.
    destruct (drop 8 msg) as [|x tl] eqn:Ed; [apply (f_equal length) in Ed; rewrite length_drop in Ed; cbn in Ed; lia|].
    destruct (shift_window fd _ x s (tl ++ rest) Hw9 Hc Hi) as (d & p & w & E1 & E2 & E3 & Hi' & Hc').
    unfold plift. rewrite E1, (pbind_ret _ _ _ _ s eq_refl), E2, (pbind_ret _ _ _ _ s eq_refl).
    rewrite (pbind_ret _ _ _ _ _ (on_os_ret _ _ _ _ E3)). cbv iota.
    assert (take 9 msg = drop 1 (take 9 (c :: msg)) ++ [x]) as Ew.
    { cbn [take drop]. rewrite (take_S_r msg 8 x); [done|]. by rewrite <- (Nat.add_0_r 8), <- lookup_drop, Ed. }
    destruct (IH fuel (set_os w s) (drop 1 (take 9 (c :: msg)) ++ [x]) Hv Hl ltac:(lia)) as (w' & E' & Hw');
      [intros i Hlt; apply (Hjunk (S i)); lia|done|by rewrite Ew|cbn [set_os os]; rewrite Hi'; f_equal; change 9%nat with (8 + 1)%nat; by rewrite <- (drop_drop msg 1 8), Ed|].
    exists w'. split; [|done]. unfold reply_at in E'. rewrite <- Ew, length_take, Nat.min_l in E' by lia.
    change (Z.of_nat 9) with 9 in E'. change (Z.of_nat 0) with 0 in E'. rewrite <- Ew. rewrite E'. done.
Qed.

Definition announces (exts : list (list ascii * list ascii)) (name value : list ascii) : bool :=
  existsb (fun e => bool_decide (e = (name, value))) exts.

Lemma ext_is_pair name value e : nonul e.1 -> nonul e.2 ->
  ext_is name value (e.1 ++ [nul]) (e.2 ++ [nul]) = bool_decide (e = (name, value)).
Proof.
  intros H1' H2'. unfold ext_is. rewrite !cstr_app_nul by done. destruct e as [n v]. cbn [fst snd].
  destruct (decide (n = name)) as [->|Hn], (decide (v = value)) as [->|Hv];
    rewrite ?(bool_decide_true (name = name)), ?(bool_decide_true (value = value)), ?(bool_decide_false (n = name)),
      ?(bool_decide_false (v = value)) by done; cbn; symmetry;
    [by apply bool_decide_true|apply bool_decide_false; congruence..].
Qed.

Lemma note_all_flags exts s : Forall (fun e => nonul e.1 /\ nonul e.2) exts ->
  ext_posix_rename (note_all exts s) = ext_posix_rename s || announces exts SFTP_EXT_POSIX_RENAME (lit "1") /\
  rename_workaround (note_all exts s) = rename_workaround s && negb (announces exts SFTP_EXT_POSIX_RENAME (lit "1")) /\
  ext_statvfs (note_all exts s) = ext_statvfs s || announces exts SFTP_EXT_STATVFS (lit "2") /\
  ext_hardlink (note_all exts s) = ext_hardlink s || announces exts SFTP_EXT_HARDLINK (lit "1") /\
  ext_fsync (note_all exts s) = ext_fsync s || announces exts SFTP_EXT_FSYNC (lit "1").
Proof using All.
  revert s. induction exts as [|e exts IH]; intros s Hn; unfold announces; cbn [existsb].
  - rewrite !orb_false_r, andb_true_r. done.
  - apply Forall_cons in Hn as [[H1' H2'] Hn]. change (note_all (e :: exts) s) with
      (note_all exts (note_extension (e.1 ++ [nul]) (e.2 ++ [nul]) s)).
    destruct (IH (note_extension (e.1 ++ [nul]) (e.2 ++ [nul]) s) Hn) as (-> & -> & -> & -> & ->).
    unfold note_extension. cbn [set_exts ext_posix_rename rename_workaround ext_statvfs ext_hardlink ext_fsync].
    rewrite !ext_is_pair by done. unfold announces. rewrite !negb_orb, !orb_assoc, !andb_assoc. done.
Qed.

(** C37: The handshake finds the version message.  Output of ssh that comes before it,
    of any length, is read past, provided that no nine bytes of it look like the start
    of such a message.  Then the client has the version, has noted each extension that
    the server announces, and has read nothing of what follows. *)
Theorem init_reply_found fd junk version exts rest (patience : nat) s : 0 <= version < 2 ^ 32 ->
  Z.of_nat (length (concat (map ext_bytes exts))) + 5 <= MAX_REPLY_LEN ->
  Forall (fun e => nonul e.1 /\ nonul e.2) exts -> (length junk <= patience)%nat ->
  (forall i, (i < length junk)%nat -> looks_like_version (take 9 (drop i (junk ++ version_message version exts))) = false) ->
  connected (os s) fd -> wire_in (os s) fd = junk ++ version_message version exts ++ rest ->
  exists s', sftp_find_init_reply patience fd s = Ret (Some version, s') /\ wire_in (os s') fd = rest /\
    ext_posix_rename s' = ext_posix_rename s || announces exts SFTP_EXT_POSIX_RENAME (lit "1") /\
    rename_workaround s' = rename_workaround s && negb (announces exts SFTP_EXT_POSIX_RENAME (lit "1")) /\
    ext_statvfs s' = ext_statvfs s || announces exts SFTP_EXT_STATVFS (lit "2") /\
    ext_hardlink s' = ext_hardlink s || announces exts SFTP_EXT_HARDLINK (lit "1") /\
    ext_fsync s' = ext_fsync s || announces exts SFTP_EXT_FSYNC (lit "1").
Proof using All.
  intros Hv Hl Hn Hp Hjunk Hc Hi. set (msg := junk ++ version_message version exts) in *.
  rewrite app_assoc in Hi. fold msg in Hi.
  assert (9 <= length msg)%nat as Hm by (unfold msg, version_message, message; rewrite !length_app, !length_be_bytes; cbn; lia).
  rewrite <- (take_drop 9 msg), <- app_assoc in Hi.
  assert (length (take 9 msg) = 9%nat) as H9 by (rewrite length_take; lia).
  destruct (do_read_new fd (take 9 msg) (drop 9 msg ++ rest) (os s)) as (b & w & E & Er & Hi' & _ & Hc'); [lia|done|done|].
  rewrite H9 in E. unfold sftp_find_init_reply, plift. change 9 with (Z.of_nat 9). rewrite E.
  rewrite (pbind_ret _ _ _ _ s eq_refl), (pbind_ret _ _ _ _ _ (on_os_ret _ _ _ _ Er)). cbv iota.
  assert (reply_buf (take 9 msg) = reply_at (take 9 msg) 0) as -> by by destruct (take 9 msg).
  destruct (find_init_loop_all junk patience fd version exts rest (set_os w s) (take 9 msg) Hv Hl Hp) as (w' & E' & Hw');
    [done|by apply Hc'|done|done|].
  exists (note_all exts (set_os w' (set_os w s))). split; [done|]. split; [by rewrite note_all_os|].
  by apply (note_all_flags exts (set_os w' (set_os w s))).
Qed.
End VersionProofs.

(** ** "host:directory" *)

Section HostProofs.
Context {W : Type}.
Implicit Types (s : session W).

(** No character of a host name ends or brackets it. *)
Definition plain_host (h : list ascii) : Prop := Forall (fun c => c <> nul /\ c <> ":"%char /\ c <> "["%char) h.

Lemma split_plain h c rest d : plain_host h -> c = nul \/ c = ":"%char ->
  split_host false (h ++ c :: rest) d = Ret (d ++ h, rest).
Proof.
  intros Hh Hc. revert d. induction h as [|a h IH]; intros d; cbn [app split_host].
  - rewrite app_nil_r. by destruct Hc as [-> | ->].
  - apply Forall_cons in Hh as [(H1 & H2 & H3) Hh].
    rewrite (proj2 (Ascii.eqb_neq a nul)), (proj2 (Ascii.eqb_neq a ":"%char)), (proj2 (Ascii.eqb_neq a "["%char)) by done.
    cbn [orb]. rewrite IH by done. by rewrite <- app_assoc.
Qed.

(** The brackets of an address of IPv6 are taken away, with what is inside kept. *)
Lemma split_bracket h c rest d : Forall (fun c => c <> nul /\ c <> "]"%char) h -> c = nul \/ c = ":"%char ->
  split_host false ("["%char :: h ++ "]"%char :: c :: rest) d = Ret (d ++ h, rest).
Proof.
  intros Hh Hc. change (split_host true (h ++ "]"%char :: c :: rest) d = Ret (d ++ h, rest)). revert d.
  induction h as [|a h IH]; intros d; cbn [app split_host].
  - rewrite app_nil_r. by destruct Hc as [-> | ->].
  - apply Forall_cons in Hh as [(H1 & H2) Hh].
    rewrite (proj2 (Ascii.eqb_neq a nul)), (proj2 (Ascii.eqb_neq a "]"%char)) by done.
    rewrite IH by done. by rewrite <- app_assoc.
Qed.

(** "host:directory" and "[address]:directory" are split at the colon; without a
    colon the directory is read behind the end of the string. *)
Theorem base_path_split s h p : nonul p ->
  (plain_host h -> host s = h ++ lit ":" ++ p -> find_base_path s = Ret (p, set_host h s)) /\
  (Forall (fun c => c <> nul /\ c <> "]"%char) h -> host s = lit "[" ++ h ++ lit "]:" ++ p ->
   find_base_path s = Ret (p, set_host h s)) /\
  (plain_host h -> host s = h -> find_base_path s = Undef).
Proof.
  intros Hp. unfold find_base_path, pbind, pget, plift, pmodify. split; [|split].
  - intros Hh ->. rewrite <- app_assoc. cbn [lit list_ascii_of_string app].
    rewrite split_plain by auto. cbn [app]. by rewrite cstring_app_nul.
  - intros Hh ->. rewrite <- !app_assoc. cbn [lit list_ascii_of_string app].
    rewrite split_bracket by auto. cbn [app]. by rewrite cstring_app_nul.
  - intros Hh ->. by rewrite split_plain by auto.
Qed.
End HostProofs.

(** ** Witnesses *)

Module SftpConnExample.
(** A stream that moves at most [p_piece] bytes at a time; all descriptors are its ends. *)
Record pipe := Pipe { p_piece : nat; p_out : list ascii; p_in : list ascii }.

Lemma take_min_length (n : nat) (l : list ascii) : take (n `min` length l) l = take n l.
Proof. by rewrite <- take_take, firstn_all. Qed.

#[export] Instance pipe_channel : Channel pipe := {|
  writev := fun _ iov w => let x := take (S (p_piece w) `min` 1000) (concat iov) in
    (Z.of_nat (length x), Pipe (p_piece w) (p_out w ++ x) (p_in w));
  read_fd := fun _ n w => let x := take (Z.to_nat n `min` (S (p_piece w) `min` 1000)) (p_in w) in
    ((Z.of_nat (length x), x), Pipe (p_piece w) (p_out w) (drop (length x) (p_in w)));
  close_fd := fun _ w => w |}.

#[export, refine] Instance pipe_duplex : Duplex pipe := {|
  connected := fun _ _ => True; wire_out := fun w _ => p_out w; wire_in := fun w _ => p_in w |}.
Proof.
  - intros fd iov w _ Hne. set (n := (S (p_piece w) `min` 1000)%nat). exists (length (take n (concat iov))).
    eexists. split; [reflexivity|]. rewrite length_take.
    assert (0 < length (concat iov))%nat by (destruct (concat iov); [done|cbn; lia]). split; [lia|]. split; [lia|].
    split; [|done]. cbn [p_out]. f_equal. by rewrite take_min_length.
  - intros fd n w _ Hn Hne. set (m := (Z.to_nat n `min` (S (p_piece w) `min` 1000))%nat). exists (length (take m (p_in w))).
    eexists. rewrite length_take.
    assert (0 < length (p_in w))%nat by (destruct (p_in w); [done|cbn; lia]).
    split; [rewrite take_min_length, <- length_take; reflexivity|].
    split; [lia|]. split; [lia|]. split; [lia|]. split; [cbn [p_in]; by rewrite length_take|done].
Defined.

Import SftpBuf.SftpExample.

Definition stat_body : list ascii := be_bytes 4 2 ++ lit "/a".

Definition far_end : pipe := Pipe 5 [] (message 17 (be_bytes 4 7 ++ stat_body ++ lit "!") ++ lit "next").

Lemma sftp_messages_cross_witness :
  exists w' x, sftp_send_iov 4 17 7 [stat_body; lit "!"] (Pipe 2 [] []) = Ret (0, w') /\
    wire_out w' 4 = wire_out (Pipe 2 [] []) 4 ++ x /\
    (wire_in far_end 3 = x ++ lit "next" ->
     exists v', sftp_read 3 far_end =
       Ret (Some (17, reply_at (be_bytes 4 7 ++ concat [stat_body; lit "!"]) 0), v') /\ wire_in v' 3 = lit "next").
Proof.
  apply (sftp_messages_cross (W := pipe) (V := pipe) 4 3 17 7 [stat_body; lit "!"] (Pipe 2 [] []) far_end (lit "next")).
  - done.
  - cbn. lia.
  - vm_compute. done.
  - exact I.
  - exact I.
Defined.

Definition banner : list ascii := lit "Welcome to host" ++ ["010"%char].
Definition server_exts : list (list ascii * list ascii) :=
  [(lit "posix-rename@openssh.com", lit "1"); (lit "statvfs@openssh.com", lit "2"); (lit "fsync@openssh.com", lit "0")].
Definition started : session pipe :=
  Session [Conn false 3 3 0 0 0 0] 0 (-1) (-1) None (lit "h") false true false false false 0 false plain_cfg 0 0
    (Pipe 6 [] (banner ++ version_message 3 server_exts ++ lit "x")).

Lemma init_reply_found_witness :
  exists s', sftp_find_init_reply 50 3 started = Ret (Some 3, s') /\ wire_in (os s') 3 = lit "x" /\
    ext_posix_rename s' = false || announces server_exts SFTP_EXT_POSIX_RENAME (lit "1") /\
    rename_workaround s' = true && negb (announces server_exts SFTP_EXT_POSIX_RENAME (lit "1")) /\
    ext_statvfs s' = false || announces server_exts SFTP_EXT_STATVFS (lit "2") /\
    ext_hardlink s' = false || announces server_exts SFTP_EXT_HARDLINK (lit "1") /\
    ext_fsync s' = false || announces server_exts SFTP_EXT_FSYNC (lit "1").
Proof.
  apply (init_reply_found 3 banner 3 server_exts (lit "x") 50 started).
  - done.
  - vm_compute. done.
  - repeat constructor; by apply (bool_decide_eq_true_1 (nul ∉ _)).
  - vm_compute. lia.
  - intros i Hi. do 16 (destruct i as [|i]; [vm_compute; reflexivity|]). cbn in Hi. lia.
  - exact I.
  - reflexivity.
Defined.
End SftpConnExample.
