(* ===== verification/SftpRequests.v ===== *)
(** * The request table of the sftp client (src/usfs_wrap/sshfs/sshfs_wrap.c)

    Threads of the application send requests; a thread per connection receives
    the replies and gives each to the request with its identifier.  A sender waits
    for its reply ([want_reply]) or leaves a function to be called with it
    ([end_func]), as reading and writing do.  The lock [sshfs.lock] protects the
    table.

    The pieces of the code between two points where the lock changes hands are
    programs on [client].  Put one after the other they are the functions of the
    source ([sftp_request_send], [sftp_request_wait], [process_one_request]), where a
    thread that waits lets the thread of its connection run; as the actions of a
    system of threads ([act]) they interleave in every possible way.

    The theorems: under every interleaving no step uses a request that has been freed
    ([requests_memory_safe]), no request is lost and each gets its own answer
    ([requests_accounted]); a lost connection wakes the threads that wait for it
    ([connection_loss_wakes]), or, when data is on its way, blocks all threads for ever
    ([connection_loss_deadlocks]); over a connection that works a request returns what
    its answer says ([sftp_request_answered]). *)

From Stdlib Require Import ZArith Lia Ascii String.
From stdpp Require Import base list gmap.
From S2P Require Import Prelude World Cache SftpBuf SftpConn.

Local Open Scope Z_scope.

Definition SSH_FXP_READ : Z := 5.
Definition SSH_FXP_READDIR : Z := 12.
Definition SSH_FXP_RMDIR : Z := 15.
Definition SSH_FX_OK : Z := 0.
Definition SSH_FX_EOF : Z := 1.
Definition SSH_FX_NO_SUCH_FILE : Z := 2.
Definition SSH_FX_PERMISSION_DENIED : Z := 3.
Definition SSH_FX_FAILURE : Z := 4.
Definition SSH_FX_BAD_MESSAGE : Z := 5.
Definition SSH_FX_NO_CONNECTION : Z := 6.
Definition SSH_FX_CONNECTION_LOST : Z := 7.
Definition SSH_FX_OP_UNSUPPORTED : Z := 8.
Definition MY_EOF : Z := 1.
Definition ENOTEMPTY : Z := 39.
Definition EOPNOTSUPP : Z := 95.
Definition ECONNABORTED : Z := 103.
Definition ENOTCONN : Z := 107.

Definition sftp_error_to_errno (error : Z) : Z :=
  if error =? SSH_FX_OK then 0
  else if error =? SSH_FX_NO_SUCH_FILE then ENOENT
  else if error =? SSH_FX_PERMISSION_DENIED then EACCES
  else if error =? SSH_FX_FAILURE then EPERM
  else if error =? SSH_FX_BAD_MESSAGE then EBADMSG
  else if error =? SSH_FX_NO_CONNECTION then ENOTCONN
  else if error =? SSH_FX_CONNECTION_LOST then ECONNABORTED
  else if error =? SSH_FX_OP_UNSUPPORTED then EOPNOTSUPP
  else EIO.

(** ** What the table asks of connections *)

Class Transport (L : Type) := {
  t_get_id : prog L Z;
  t_start : nat -> prog L Z;
  (** [conn->req_count += d] *)
  t_count : nat -> Z -> prog L unit;
  t_send : nat -> Z -> Z -> list (list ascii) -> prog L Z;
  t_read : nat -> prog L (option (Z * buffer));
  (** the thread is gone and the connection closed; the next one has a new number *)
  t_close : nat -> prog L unit;
  t_renew : nat -> prog L unit }.

(** The connections of SftpConn.v. *)
Definition close_thread `{Channel W} (c : nat) : prog (session W) unit :=
  do* conn_upd c (set_started false); close_conn c.
Definition new_connver {W} (c : nat) : prog (session W) unit :=
  do* pmodify (fun s => set_connvers (i32 (connvers s + 1)) s);
  let* s := pget in conn_upd c (set_connver (connvers s)).

Definition session_transport `{Heap} {W : Type} `{!Channel W} `{!Dialer W} (opts : options) (patience : nat) :
    Transport (session W) := {|
  t_get_id := sftp_get_id;
  t_start := start_processing_thread opts patience;
  t_count := fun c d => conn_upd c (add_req_count d);
  t_send := send_iov;
  t_read := read_msg;
  t_close := close_thread;
  t_renew := new_connver |}.

(** ** State *)

(** [rq_end]: the function to call at the end, with its data. *)
Record request (D : Type) := Request {
  want_reply : Z;
  rq_end : option D;
  rq_id : Z; rq_len : Z; rq_conn : nat;
  replied : bool; reply_type : Z; reply : buffer;
  rq_error : Z;
  (** the count of the semaphore *)
  ready : nat }.
Arguments Request {D}. Arguments want_reply {D}. Arguments rq_end {D}. Arguments rq_id {D}. Arguments rq_len {D}.
Arguments rq_conn {D}. Arguments replied {D}. Arguments reply_type {D}. Arguments reply {D}. Arguments rq_error {D}.
Arguments ready {D}.

(** [ext]: what the end functions work on.  [locked]: a thread holds the lock and
    will not give it back. *)
Record client (L D E : Type) := Client {
  ses : L;
  reqtab : gmap Z Z;
  requests : gmap Z (request D);
  next_req : Z;
  outstanding_len : Z; max_outstanding_len : Z;
  locked : bool;
  ext : E }.
Arguments Client {L D E}. Arguments ses {L D E}. Arguments reqtab {L D E}. Arguments requests {L D E}.
Arguments next_req {L D E}. Arguments outstanding_len {L D E}. Arguments max_outstanding_len {L D E}.
Arguments locked {L D E}. Arguments ext {L D E}.

(** The end functions: data, request, and the state they change. *)
Class Callbacks (D E : Type) := end_func : D -> Z -> request D -> E -> outcome E.

(** The order in which [g_hash_table_foreach_remove] visits a table. *)
Class TableOrder := table_order : gmap Z Z -> list (Z * Z).
Class TableOrderLaws `{TableOrder} : Prop := table_order_perm m : table_order m ≡ₚ map_to_list m.

Section Setters.
Context {L D E : Type}.
Implicit Types (t : client L D E) (r : request D).

Definition set_ses (v : L) t := Client v (reqtab t) (requests t) (next_req t) (outstanding_len t) (max_outstanding_len t) (locked t) (ext t).
Definition set_reqtab v t := Client (ses t) v (requests t) (next_req t) (outstanding_len t) (max_outstanding_len t) (locked t) (ext t).
Definition set_requests (v : gmap Z (request D)) t := Client (ses t) (reqtab t) v (next_req t) (outstanding_len t) (max_outstanding_len t) (locked t) (ext t).
Definition set_outstanding v t := Client (ses t) (reqtab t) (requests t) (next_req t) v (max_outstanding_len t) (locked t) (ext t).
Definition set_locked v t := Client (ses t) (reqtab t) (requests t) (next_req t) (outstanding_len t) (max_outstanding_len t) v (ext t).
Definition set_ext (v : E) t := Client (ses t) (reqtab t) (requests t) (next_req t) (outstanding_len t) (max_outstanding_len t) (locked t) v.
Definition add_request r t := Client (ses t) (reqtab t) (<[next_req t := r]> (requests t)) (next_req t + 1)
  (outstanding_len t) (max_outstanding_len t) (locked t) (ext t).

Definition set_id id c r := Request (want_reply r) (rq_end r) id (rq_len r) c (replied r) (reply_type r) (reply r) (rq_error r) (ready r).
Definition set_len v r := Request (want_reply r) (rq_end r) (rq_id r) v (rq_conn r) (replied r) (reply_type r) (reply r) (rq_error r) (ready r).
Definition set_error v r := Request (want_reply r) (rq_end r) (rq_id r) (rq_len r) (rq_conn r) (replied r) (reply_type r) (reply r) v (ready r).
Definition set_reply ty b r := Request (want_reply r) (rq_end r) (rq_id r) (rq_len r) (rq_conn r) true ty b (rq_error r) (ready r).
Definition set_want_reply v r := Request v (rq_end r) (rq_id r) (rq_len r) (rq_conn r) (replied r) (reply_type r) (reply r) (rq_error r) (ready r).
Definition post r := Request (want_reply r) (rq_end r) (rq_id r) (rq_len r) (rq_conn r) (replied r) (reply_type r) (reply r) (rq_error r) (S (ready r)).

(** A pointer to a request: freed memory is undefined behaviour. *)
Definition req_get (a : Z) : prog (client L D E) (request D) := fun t => let! r := deref (requests t !! a) in Ret (r, t).
Definition req_upd (a : Z) (f : request D -> request D) : prog (client L D E) unit := fun t =>
  let! r := deref (requests t !! a) in Ret (tt, set_requests (<[a := f r]> (requests t)) t).
Definition on_ses {A} (e : prog L A) : prog (client L D E) A := pzoom ses set_ses e.
End Setters.

(** ** The code *)

Section Code.
Context `{Heap} {L D E : Type} `{!Transport L} `{!Callbacks D E} `{!TableOrder}.
(** the option "reconnect" *)
Context (reconnects : bool).
(** How many messages may arrive while a thread waits; the code has no limit. *)
Context (patience : nat).
Implicit Types (t : client L D E).

(** [if (req->end_func) req->end_func(req)] *)
Definition run_end (a : Z) : prog (client L D E) unit :=
  let* r := req_get a in
  match rq_end r with
  | None => pret tt
  | Some d => fun t => let! e := end_func d a r (ext t) in Ret (tt, set_ext e t)
  end.

Definition request_free (a : Z) : prog (client L D E) unit :=
  let* r := req_get a in
  do* on_ses (t_count (rq_conn r) (-1));
  pmodify (fun t => set_requests (delete a (requests t)) t).

(** Under the lock, which [request_free] asks for again: then the thread stands still
    and the result is [None]. *)
Definition clean_req (c : nat) (id a : Z) : prog (client L D E) (option unit) :=
  let* r := req_get a in
  if negb (rq_conn r =? c)%nat then pret (Some tt)
  else
    do* req_upd a (set_error (- EIO));
    if negb (want_reply r =? 0) then
      do* req_upd a post;
      do* pmodify (fun t => set_reqtab (delete id (reqtab t)) t);
      pret (Some tt)
    else
      do* run_end a;
      do* pmodify (set_locked true);
      pret None.

Fixpoint clean_reqs (c : nat) (l : list (Z * Z)) : prog (client L D E) (option unit) :=
  match l with
  | [] => pret (Some tt)
  | (id, a) :: l =>
      let* r := clean_req c id a in
      match r with None => pret None | Some _ => clean_reqs c l end
  end.

(** [process_requests] after its loop. *)
Definition connection_lost (c : nat) : prog (client L D E) unit :=
  do* on_ses (t_close c);
  let* t := pget in
  let* r := clean_reqs c (table_order (reqtab t)) in
  match r with
  | None => pret tt
  | Some _ =>
      do* on_ses (t_renew c);
      do* pmodify (set_outstanding 0);
      if negb reconnects then pexit else pret tt
  end.

(** [process_one_request] under the lock. *)
Definition take_request (id : Z) : prog (client L D E) (option Z) :=
  let* t := pget in
  match reqtab t !! id with
  | None => pret None
  | Some a =>
      let* r := req_get a in
      do* pmodify (fun t => set_outstanding (u32 (outstanding_len t - rq_len r)) t);
      do* pmodify (fun t => set_reqtab (delete id (reqtab t)) t);
      pret (Some a)
  end.

(** ... and after it. *)
Definition deliver (a type : Z) (buf : buffer) : prog (client L D E) unit :=
  do* req_upd a (set_reply type buf);
  let* r := req_get a in
  if negb (want_reply r =? 0) then req_upd a post
  else do* run_end a; request_free a.

Definition process_one_request (c : nat) : prog (client L D E) Z :=
  let* r := on_ses (t_read c) in
  match r with
  | None => pret (-1)
  | Some (type, buf) =>
      let* (id, buf) := plift (buf_get_uint32 buf) in
      match id with
      | None => pret (-1)
      | Some id =>
          let* a := take_request id in
          do* (match a with Some a => deliver a type buf | None => pret tt end);
          pret 0
      end
  end.

(** A round of [process_requests]. *)
Definition process_requests_step (c : nat) : prog (client L D E) unit :=
  let* res := process_one_request c in
  if res =? -1 then connection_lost c else pret tt.

(** A thread waits while the thread of the connection works, and goes on with the
    lock.  It waits for ever, the result is [false], when that thread stands still. *)
Fixpoint wait_until (fuel : nat) (c : nat) (cond : client L D E -> bool) : prog (client L D E) bool :=
  let* t := pget in
  if locked t then pret false
  else if cond t then pret true
  else match fuel with
       | O => plift Undef
       | S fuel => do* process_requests_step c; wait_until fuel c cond
       end.

Definition status_error (type expect_type serr : Z) : Z :=
  if serr =? SSH_FX_OK then (if expect_type =? SSH_FXP_STATUS then 0 else - EIO)
  else if serr =? SSH_FX_EOF then
    (if (type =? SSH_FXP_READ) || (type =? SSH_FXP_READDIR) then MY_EOF else - EIO)
  else if serr =? SSH_FX_FAILURE then (if type =? SSH_FXP_RMDIR then - ENOTEMPTY else - EPERM)
  else - sftp_error_to_errno serr.

(** The result, and what is left of the reply when it is of the type expected. *)
Definition reply_result (type expect_type : Z) (r : request D) : outcome (Z * option buffer) :=
  if negb (reply_type r =? expect_type) && negb (reply_type r =? SSH_FXP_STATUS) then Ret (- EIO, None)
  else if reply_type r =? SSH_FXP_STATUS then
    let! (serr, _) := buf_get_uint32 (reply r) in
    Ret (match serr with None => - EIO | Some serr => status_error type expect_type serr end, None)
  else
    let! outbuf := buf_init (u64 (buf_size (reply r) - buf_len (reply r))) in
    let! (d, _) := buf_get_mem (buf_size outbuf) (reply r) in
    let! p := mem_store (buf_p outbuf) 0 (default [] d) in
    Ret (0, Some (Buffer p (buf_len outbuf) (buf_size outbuf))).

(** [sftp_request_wait] once there is an error or a reply. *)
Definition request_finish (a type expect_type : Z) : prog (client L D E) (Z * option buffer) :=
  let* r := req_get a in
  let* res := if negb (rq_error r =? 0) then pret (rq_error r, None)
              else plift (reply_result type expect_type r) in
  do* run_end a;
  do* request_free a;
  pret res.

(** [None] when the thread waits for ever. *)
Definition sftp_request_wait (a type expect_type : Z) : prog (client L D E) (option (Z * option buffer)) :=
  let* t := pget in
  let* r := req_get a in
  if locked t then pret None
  else if negb (rq_error r =? 0) then let* res := request_finish a type expect_type in pret (Some res)
  else
    let* ok := wait_until patience (rq_conn r) (fun t => match requests t !! a with Some r => (0 <? ready r)%nat | None => false end) in
    if (ok : bool) then let* res := request_finish a type expect_type in pret (Some res) else pret None.

(** [sftp_readdir_async] gives up a request it has sent: under the lock, a request that
    is still in the table ([sshfs_req_pending]) is left to the thread of its connection.
    The result is [want_reply]. *)
Definition request_give_up (a : Z) : prog (client L D E) Z :=
  let* r := req_get a in
  let* t := pget in
  do* (match reqtab t !! rq_id r with Some _ => req_upd a (set_want_reply 0) | None => pret tt end);
  let* r := req_get a in
  pret (want_reply r).

(** The first part of [sftp_request_send], up to the wait for room: the request, its
    identifier and an error. *)
Definition request_new (c : nat) (len : Z) (begin_func : option (Z -> E -> E)) (end_ : option D) (want : Z) :
    prog (client L D E) (Z * Z * Z) :=
  let* t := pget in
  let a := next_req t in
  do* pmodify (add_request (Request want end_ 0 0 0 false 0 (Buffer None 0 0) 0 0));
  do* pmodify (fun t => match begin_func with Some f => set_ext (f a (ext t)) t | None => t end);
  let* id := on_ses t_get_id in
  do* req_upd a (set_id id c);
  do* on_ses (t_count c 1);
  let* err := on_ses (t_start c) in
  if negb (err =? 0) then pret (a, id, err)
  else
    let len := u64 (len + 9) in
    do* req_upd a (set_len len);
    do* pmodify (fun t => set_outstanding (u32 (outstanding_len t + len)) t);
    pret (a, id, 0).

Definition has_room t : bool := negb (outstanding_len t >? max_outstanding_len t).

Definition request_insert (id a : Z) : prog (client L D E) unit :=
  pmodify (fun t => set_reqtab (<[id := a]> (reqtab t)) t).

(** The request is taken back after sending failed: whether it was still in the table. *)
Definition request_unsend (id : Z) : prog (client L D E) bool :=
  let* t := pget in
  do* pmodify (fun t => set_reqtab (delete id (reqtab t)) t);
  pret (match reqtab t !! id with Some _ => true | None => false end).

(** The label "out" of [sftp_request_send]. *)
Definition request_fail (a type want err : Z) : prog (client L D E) (Z * option Z) :=
  do* req_upd a (set_error err);
  if want =? 0 then do* request_finish a type 0; pret (err, None)
  else pret (err, Some a).

(** The result and the request, for a sender that waits for a reply; [None] when the
    thread waits for room for ever. *)
Definition sftp_request_send (c : nat) (type : Z) (iov : list (list ascii)) (begin_func : option (Z -> E -> E))
    (end_ : option D) (want : Z) : prog (client L D E) (option (Z * option Z)) :=
  let* t := pget in
  if locked t then pret None else
  let* (a, id, err) := request_new c (iov_length iov) begin_func end_ want in
  if negb (err =? 0) then let* res := request_fail a type want err in pret (Some res)
  else
    let* ok := wait_until patience c has_room in
    if negb ok then pret None
    else
      do* request_insert id a;
      let* res := on_ses (t_send c type id iov) in
      if res =? -1 then
        let* rmed := request_unsend id in
        if negb rmed && (want =? 0) then pret (Some (- EIO, None))
        else let* res := request_fail a type want (- EIO) in pret (Some res)
      else pret (Some (0, if want =? 0 then None else Some a)).

Definition sftp_request_iov (c : nat) (type : Z) (iov : list (list ascii)) (expect_type : Z) :
    prog (client L D E) (option (Z * option buffer)) :=
  let* r := sftp_request_send c type iov None None expect_type in
  match r with
  | None => pret None
  | Some (err, req) =>
      if expect_type =? 0 then pret (Some (err, None))
      else let* a := plift (deref req) in sftp_request_wait a type expect_type
  end.

Definition sftp_request (c : nat) (type : Z) (buf : buffer) (expect_type : Z) :
    prog (client L D E) (option (Z * option buffer)) :=
  let* iov := plift (buf_to_iov buf) in
  sftp_request_iov c type [iov] expect_type.
End Code.

(** ** The threads *)

(** Where the sender of a request is: it waits for room, or sends, or has sent; it is
    about to wait for the reply, or sleeps on the semaphore; or it ends a request nobody
    waits for after an error; or it has got back a request that could not be sent.  The
    arguments are local variables: connection, identifier, [want_reply]. *)
Inductive pc :=
| Room (c : nat) (id want : Z)
| Sending (c : nat) (id want : Z)
| Sent (want : Z)
| Waiting
| Asleep
| Failing
| Unsent.

(** [hands]: what the thread of a connection holds between the table and the request.
    [wire]: the requests that the server has got on a connection and not answered.
    [answers]: all messages received. *)
Record config (L D E : Type) := Config {
  cl : client L D E;
  pcs : gmap Z pc;
  hands : gmap nat (Z * Z * buffer);
  wire : gset (nat * Z);
  answers : list (Z * Z * list ascii) }.
Arguments Config {L D E}. Arguments cl {L D E}. Arguments pcs {L D E}. Arguments hands {L D E}.
Arguments wire {L D E}. Arguments answers {L D E}.

Inductive action (D E : Type) :=
| Begin (c : nat) (len : Z) (begin_func : option (Z -> E -> E)) (end_ : option D) (want : Z)
| Enter (a : Z)
| Wire (a : Z)
| Return (a : Z)
| Break (a : Z)
| Abort (a : Z)
| Receive (c : nat) (id type : Z) (body : list ascii)
| Deliver (c : nat)
| Lose (c : nat)
| Sleep (a : Z)
| GiveUp (a : Z)
| Drop (a : Z)
| Finish (a type expect_type : Z)
| Update (e : E).
Arguments Begin {D E}. Arguments Enter {D E}. Arguments Wire {D E}. Arguments Return {D E}. Arguments Break {D E}.
Arguments Abort {D E}. Arguments Receive {D E}. Arguments Deliver {D E}. Arguments Lose {D E}. Arguments Sleep {D E}. Arguments Finish {D E}.
Arguments GiveUp {D E}. Arguments Drop {D E}. Arguments Update {D E}.

(** A message of the server when its identifier has been read. *)
Definition answer_buf (id : Z) (body : list ascii) : buffer := reply_at (be_bytes 4 id ++ body) 4.

(** A reply that arrived can be read. *)
Definition readable {D : Type} (r : request D) : Prop :=
  exists body, reply r = answer_buf (rq_id r) body /\ Z.of_nat (length body) < MAX_REPLY_LEN.

(** The end functions do not go wrong: [live d e] says that what [d] points to is there.
    Then the function returns, for an error and for a reply, and takes away nothing
    that other requests need. *)
Class CallbacksSafe (D E : Type) `{Callbacks D E} := {
  live : D -> E -> Prop;
  end_func_safe d a r e : live d e -> rq_error r <> 0 \/ readable r ->
    exists e', end_func d a r e = Ret e' /\ forall d', live d' e -> live d' e' }.

Section Threads.
Context `{Heap} {L D E : Type} `{!Transport L} `{!Callbacks D E} `{!CallbacksSafe D E} `{!TableOrder}.
Context (reconnects : bool).
(** how many connections there are *)
Context (max_conns : nat).
Implicit Types (t : client L D E) (g : config L D E).

Definition pc_id (p : pc) : option Z := match p with Room _ id _ | Sending _ id _ => Some id | _ => None end.

(** The identifier belongs to a request, a sender or a message that is still around.
    Identifiers are a counter of 32 bits: to come across such a one, 2^32 requests have
    to be made in the meantime. *)
Definition used g (id : Z) : bool :=
  bool_decide (map_Exists (fun _ r => rq_id r = id) (requests (cl g))) ||
  bool_decide (map_Exists (fun _ p => pc_id p = Some id) (pcs g)) ||
  bool_decide (set_Exists (fun x => x.2 = id) (wire g)).

Definition goto g t (a : Z) (p : option pc) : config L D E :=
  Config t (partial_alter (fun _ => p) a (pcs g)) (hands g) (wire g) (answers g).

Definition after_error (want : Z) : option pc := Some (if want =? 0 then Failing else Unsent).

(** One step; [None] when the thread is not there, or cannot go on now. *)
Definition act (x : action D E) g : outcome (option (config L D E)) :=
  let t := cl g in
  match x with
  | Begin c len begin_func end_ want =>
      if locked t || negb (c <? max_conns)%nat then Ret None
      else
        let! (aid, t) := request_new c len begin_func end_ want t in
        let '(a, id, err) := aid in
        if used g id then Ret None
        else if negb (err =? 0) then
          let! (_, t) := req_upd a (set_error err) t in Ret (Some (goto g t a (after_error want)))
        else if has_room t then
          let! (_, t) := request_insert id a t in Ret (Some (goto g t a (Some (Sending c id want))))
        else Ret (Some (goto g t a (Some (Room c id want))))
  | Enter a =>
      match pcs g !! a with
      | Some (Room c id want) =>
          if locked t || negb (has_room t) then Ret None
          else let! (_, t) := request_insert id a t in Ret (Some (goto g t a (Some (Sending c id want))))
      | _ => Ret None
      end
  | Wire a =>
      match pcs g !! a with
      | Some (Sending c id want) =>
          Ret (Some (Config t (<[a := Sent want]> (pcs g)) (hands g) ({[ (c, id) ]} ∪ wire g) (answers g)))
      | _ => Ret None
      end
  | Return a =>
      match pcs g !! a with
      | Some (Sent want) => Ret (Some (goto g t a (if want =? 0 then None else Some Waiting)))
      | _ => Ret None
      end
  | Break a =>
      match pcs g !! a with
      | Some (Sending c id want) =>
          if locked t then Ret None
          else
            let! (rmed, t) := request_unsend id t in
            if negb rmed && (want =? 0) then Ret (Some (goto g t a None))
            else let! (_, t) := req_upd a (set_error (- EIO)) t in Ret (Some (goto g t a (after_error want)))
      | _ => Ret None
      end
  | Abort a =>
      match pcs g !! a with
      | Some Failing =>
          if locked t then Ret None
          else let! (_, t) := request_finish a 0 0 t in Ret (Some (goto g t a None))
      | _ => Ret None
      end
  | Receive c id type body =>
      match hands g !! c with
      | Some _ => Ret None
      | None =>
          if locked t || negb (bool_decide ((c, id) ∈ wire g)) || negb (Z.of_nat (length body) <? MAX_REPLY_LEN) then Ret None
          else
            let! (a, t) := take_request id t in
            Ret (Some (Config t (pcs g)
                   (match a with Some a => <[c := (a, type, answer_buf id body)]> (hands g) | None => hands g end)
                   (wire g ∖ {[ (c, id) ]}) ((id, type, body) :: answers g)))
      end
  | Deliver c =>
      match hands g !! c with
      | None => Ret None
      | Some (a, type, buf) =>
          let! r := deref (requests t !! a) in
          if locked t && (want_reply r =? 0) then Ret None
          else
            let! (_, t) := deliver a type buf t in
            Ret (Some (Config t (pcs g) (delete c (hands g)) (wire g) (answers g)))
      end
  | Lose c =>
      match hands g !! c with
      | Some _ => Ret None
      | None =>
          if locked t || negb (c <? max_conns)%nat then Ret None
          else
            let! (_, t) := connection_lost reconnects c t in
            Ret (Some (Config t (pcs g) (hands g) (filter (fun x => x.1 <> c) (wire g)) (answers g)))
      end
  | Sleep a =>
      match pcs g !! a with
      | Some Waiting =>
          let! r := deref (requests t !! a) in
          if rq_error r =? 0 then Ret (Some (goto g t a (Some Asleep))) else Ret None
      | _ => Ret None
      end
  | GiveUp a =>
      match pcs g !! a with
      | Some Waiting =>
          if locked t then Ret None
          else
            let! (want, t) := request_give_up a t in
            Ret (Some (goto g t a (if want =? 0 then None else Some Waiting)))
      | _ => Ret None
      end
  | Drop a =>
      match pcs g !! a with
      | Some Unsent => Ret (Some (goto g t a None))
      | _ => Ret None
      end
  | Finish a type expect_type =>
      match pcs g !! a with
      | Some Waiting | Some Unsent =>
          let! r := deref (requests t !! a) in
          if locked t || (rq_error r =? 0) then Ret None
          else let! (_, t) := request_finish a type expect_type t in Ret (Some (goto g t a None))
      | Some Asleep =>
          let! r := deref (requests t !! a) in
          if locked t || (ready r =? 0)%nat then Ret None
          else let! (_, t) := request_finish a type expect_type t in Ret (Some (goto g t a None))
      | _ => Ret None
      end
  | Update e => Ret (Some (Config (set_ext e t) (pcs g) (hands g) (wire g) (answers g)))
  end.

(** Nothing has been requested. *)
Definition initial g : Prop :=
  reqtab (cl g) = ∅ /\ requests (cl g) = ∅ /\ locked (cl g) = false /\ pcs g = ∅ /\ hands g = ∅ /\ wire g = ∅.

(** An end function will be called on [d]. *)
Definition uses g (d : D) : Prop := exists a r, requests (cl g) !! a = Some r /\ rq_end r = Some d.

(** What threads outside this file keep to: data that end functions will be called on
    stays, and a new request's data is there. *)
Definition permitted (x : action D E) g : Prop :=
  match x with
  | Begin c len begin_func end_ want =>
      forall d, uses g d \/ end_ = Some d ->
        live d (match begin_func with Some f => f (next_req (cl g)) (ext (cl g)) | None => ext (cl g) end)
  | Update e => forall d, uses g d -> live d e
  | _ => True
  end.

Inductive reachable (g0 : config L D E) : config L D E -> Prop :=
| reachable_refl : reachable g0 g0
| reachable_step g x g' : reachable g0 g -> permitted x g -> act x g = Ret (Some g') -> reachable g0 g'.

(** Any steps whatever. *)
Inductive steps_to (g0 : config L D E) : config L D E -> Prop :=
| steps_refl : steps_to g0 g0
| steps_step g x g' : steps_to g0 g -> act x g = Ret (Some g') -> steps_to g0 g'.
End Threads.

(** ** Every step is safe *)

(** Connections do not go wrong: the operations return and keep the number of
    connections.  Connecting may also end the process. *)
Class TransportSafe (L : Type) `{Transport L} (max_conns : nat) := {
  t_inv : L -> Prop;
  t_get_id_safe l : t_inv l -> wp False t_get_id l (fun _ => t_inv);
  t_start_safe c l : t_inv l -> (c < max_conns)%nat -> wp True (t_start c) l (fun _ => t_inv);
  t_count_safe c d l : t_inv l -> (c < max_conns)%nat -> wp False (t_count c d) l (fun _ => t_inv);
  t_close_safe c l : t_inv l -> (c < max_conns)%nat -> wp False (t_close c) l (fun _ => t_inv);
  t_renew_safe c l : t_inv l -> (c < max_conns)%nat -> wp False (t_renew c) l (fun _ => t_inv) }.

Section Invariant.
Context `{HeapLaws} {L D E : Type} `{!Transport L} `{!Callbacks D E} `{!TableOrder}.
Context (reconnects : bool) (max_conns : nat) `{!TransportSafe L max_conns} `{!CallbacksSafe D E} `{!TableOrderLaws}.
Implicit Types (t : client L D E) (r : request D) (g : config L D E).

(** Nothing has happened to the request yet. *)
Definition pristine r : Prop := replied r = false /\ rq_error r = 0 /\ ready r = 0%nat.

Definition in_table g (a : Z) r : Prop := reqtab (cl g) !! rq_id r = Some a.
Definition in_hand g (a : Z) : Prop := exists c type buf, hands g !! c = Some (a, type, buf).

(** A reply is on its way. *)
Definition pending g a r : Prop :=
  pristine r /\ (in_table g a r /\ ~ in_hand g a \/ ~ in_table g a r /\ in_hand g a).
(** The reply is a message that came for this request. *)
Definition own_answer g r : Prop :=
  exists body, (rq_id r, reply_type r, body) ∈ answers g /\ reply r = answer_buf (rq_id r) body /\
    Z.of_nat (length body) < MAX_REPLY_LEN.
(** The sender can go on, with an error or with an answer to its own request. *)
Definition finished g a r : Prop :=
  ~ in_table g a r /\ ~ in_hand g a /\ want_reply r <> 0 /\
  (rq_error r <> 0 \/ rq_error r = 0 /\ (0 < ready r)%nat /\ own_answer g r).

Definition no_refs g (a : Z) : Prop := (forall id, reqtab (cl g) !! id <> Some a) /\ ~ in_hand g a.

(** The request could not be sent and is in nobody's way. *)
Definition leaked g (a : Z) r : Prop := want_reply r <> 0 /\ rq_error r <> 0 /\ no_refs g a.

(** The thread that made the request and the request fit together. *)
Definition good g (a : Z) : Prop :=
  match requests (cl g) !! a with
  | None =>
      no_refs g a /\
      match pcs g !! a with
      | None => True
      | Some (Sending _ _ want) | Some (Sent want) => want = 0
      | Some _ => False
      end
  | Some r =>
      (forall id, reqtab (cl g) !! id = Some a -> id = rq_id r) /\ (rq_conn r < max_conns)%nat /\
      match pcs g !! a with
      | None => want_reply r = 0 /\ pending g a r \/ leaked g a r
      | Some Unsent => leaked g a r
      | Some (Room c id want) => c = rq_conn r /\ id = rq_id r /\ want = want_reply r /\ pristine r /\ no_refs g a
      | Some Failing => rq_error r <> 0 /\ no_refs g a
      | Some (Sending c id want) => c = rq_conn r /\ id = rq_id r /\ want = want_reply r /\ ~ in_hand g a /\ (pending g a r \/ finished g a r)
      | Some (Sent want) => want = want_reply r /\ (pending g a r \/ finished g a r)
      | Some Waiting => want_reply r <> 0 /\ (pending g a r \/ finished g a r)
      | Some Asleep => want_reply r <> 0 /\ (pending g a r \/ finished g a r /\ (0 < ready r)%nat)
      end
  end.

(** The identifier is the one of the request at [a], or its sender holds it. *)
Definition owns g (a id : Z) : Prop :=
  (exists r, requests (cl g) !! a = Some r /\ rq_id r = id) \/ (exists p, pcs g !! a = Some p /\ pc_id p = Some id).

Record inv g : Prop := Inv {
  inv_unlocked : locked (cl g) = false;
  inv_ses : t_inv (ses (cl g));
  inv_good a : good g a;
  inv_fresh a : is_Some (requests (cl g) !! a) \/ is_Some (pcs g !! a) -> a < next_req (cl g);
  inv_owner a a' id : owns g a id -> owns g a' id -> a = a';
  inv_hands c c' a ty ty' b b' : hands g !! c = Some (a, ty, b) -> hands g !! c' = Some (a, ty', b') -> c = c';
  inv_answer c a ty b r : hands g !! c = Some (a, ty, b) -> requests (cl g) !! a = Some r -> rq_conn r = c /\
    exists body, (rq_id r, ty, body) ∈ answers g /\ b = answer_buf (rq_id r) body /\ Z.of_nat (length body) < MAX_REPLY_LEN;
  inv_wire_conn c id a r : (c, id) ∈ wire g -> requests (cl g) !! a = Some r -> rq_id r = id -> rq_conn r = c;
  inv_wire c id a p : (c, id) ∈ wire g -> pcs g !! a = Some p -> pc_id p = Some id -> False;
  inv_live d : uses g d -> live d (ext (cl g)) }.

(** *** What the pieces of the code change *)

Definition evolves t (rs : gmap Z (request D)) (tab : gmap Z Z) (t' : client L D E) : Prop :=
  requests t' = rs /\ reqtab t' = tab /\ locked t' = locked t /\ next_req t' = next_req t /\ t_inv (ses t') /\
  forall d, live d (ext t) -> live d (ext t').

Lemma wp_ses {A} (X : Prop) (e : prog L A) t (Q : A -> client L D E -> Prop) :
  wp X e (ses t) (fun a l => Q a (set_ses l t)) -> wp X (on_ses e) t Q.
Proof. unfold wp, on_ses, pzoom. by destruct (e (ses t)) as [[a l]| |]. Qed.

Lemma wp_req_get X t a r (Q : request D -> client L D E -> Prop) : requests t !! a = Some r -> Q r t -> wp X (req_get a) t Q.
Proof. intros E'. unfold wp, req_get. by rewrite E'. Qed.
Lemma wp_req_upd X t a r f (Q : unit -> client L D E -> Prop) : requests t !! a = Some r ->
  Q tt (set_requests (<[a := f r]> (requests t)) t) -> wp X (req_upd a f) t Q.
Proof. intros E'. unfold wp, req_upd. by rewrite E'. Qed.

(** The data of the end function is there. *)
Definition end_live t r : Prop := forall d, rq_end r = Some d -> live d (ext t).
Lemma inv_end g a r : (forall d, uses g d -> live d (ext (cl g))) -> requests (cl g) !! a = Some r -> end_live (cl g) r.
Proof. intros I Hr d Hd. apply I. by exists a, r. Qed.

Lemma wp_run_end X t a r (Q : unit -> client L D E -> Prop) : requests t !! a = Some r -> end_live t r ->
  rq_error r <> 0 \/ readable r -> (forall e, (forall d, live d (ext t) -> live d e) -> Q tt (set_ext e t)) -> wp X (run_end a) t Q.
Proof using CallbacksSafe0.
  intros E' Hd Hr HQ. apply wp_bind, (wp_req_get _ _ _ r _ E'). destruct (rq_end r) as [d|] eqn:Ed.
  - unfold wp, mbind, outcome_bind. destruct (end_func_safe d a r (ext t) (Hd d Ed) Hr) as (e & -> & He). by apply HQ.
  - apply wp_ret. specialize (HQ (ext t) (fun _ K => K)). by destruct t.
Qed.

Lemma wp_request_free X t a r : requests t !! a = Some r -> (rq_conn r < max_conns)%nat -> t_inv (ses t) ->
  wp X (request_free a) t (fun _ => evolves t (delete a (requests t)) (reqtab t)).
Proof using TransportSafe0.
  intros E' Hc Hs. apply wp_bind, (wp_req_get _ _ _ r _ E'). apply wp_bind, wp_ses. eapply wp_mono; [by apply wp_never, t_count_safe|].
  intros [] l Hl. by apply wp_modify.
Qed.

Lemma wp_deliver t a r type buf : requests t !! a = Some r -> (rq_conn r < max_conns)%nat -> t_inv (ses t) ->
  end_live t r -> readable (set_reply type buf r) ->
  wp True (deliver a type buf) t (fun _ => evolves t
    (if want_reply r =? 0 then delete a (requests t) else <[a := post (set_reply type buf r)]> (requests t)) (reqtab t)).
Proof using TransportSafe0 CallbacksSafe0.
  intros E' Hc Hs Hd Hre. apply wp_bind, (wp_req_upd _ _ _ r _ _ E'). set (r1 := set_reply type buf r).
  set (t1 := set_requests _ t). assert (requests t1 !! a = Some r1) as E1 by (cbn; by rewrite lookup_insert_eq).
  apply wp_bind, (wp_req_get _ _ _ r1 _ E1). change (want_reply r1) with (want_reply r).
  destruct (want_reply r =? 0); cbn [negb].
  - apply wp_bind, (wp_run_end _ _ _ r1 _ E1 Hd (or_intror Hre)). intros e He. eapply wp_mono; [by apply (wp_request_free _ _ _ r1)|].
    intros [] t' (K1 & K2 & K3 & K4 & K5 & K6). cbn in K1. rewrite delete_insert_eq in K1. repeat (split; [done|]). auto.
  - apply (wp_req_upd _ _ _ r1 _ _ E1). cbn. by rewrite insert_insert_eq.
Qed.

Lemma store_fits m d : (length d <= length m)%nat -> exists p, mem_store (Some m) 0 d = Ret p.
Proof.
  intros Hd. unfold mem_store. destruct d as [|x d]; [by eexists|].
  rewrite (proj2 (Z.leb_le 0 0)), (proj2 (Z.leb_le _ _)) by lia. by eexists.
Qed.

Lemma wp_request_finish t a r type expect : requests t !! a = Some r -> (rq_conn r < max_conns)%nat -> t_inv (ses t) ->
  end_live t r -> rq_error r <> 0 \/ readable r ->
  wp True (request_finish a type expect) t (fun _ => evolves t (delete a (requests t)) (reqtab t)).
Proof using All.
  intros E' Hc Hs Hd He. apply wp_bind, (wp_req_get _ _ _ r _ E'). apply wp_bind.
  assert (wp True (if negb (rq_error r =? 0) then pret (rq_error r, None) else plift (reply_result type expect r)) t
    (fun _ t' => t' = t)) as Hres.
  { destruct (Z.eqb_spec (rq_error r) 0) as [Hz|]; [|done]. destruct He as [|(body & Hb & Hl)]; [done|]. clear Hd.
    cbn [negb]. unfold wp, plift. change MAX_REPLY_LEN with 131072 in Hl.
    assert (length (be_bytes 4 (rq_id r) ++ body) = 4 + length body)%nat as Hlen by by rewrite length_app, length_be_bytes.
    unfold reply_result. rewrite Hb. unfold answer_buf. destruct (_ && _); [done|].
    destruct (reply_type r =? SSH_FXP_STATUS).
    - rewrite get_uint32_at by lia. by destruct (_ <=? _)%nat.
    - cbn [reply_at buf_size buf_len]. rewrite Hlen. rewrite (wrap_small 64) by lia.
      replace (Z.of_nat (4 + length body) - Z.of_nat 4) with (Z.of_nat (length body)) by lia.
      unfold buf_init. destruct (Z.eqb_spec (Z.of_nat (length body)) 0) as [Hz0|].
      + unfold mbind, outcome_bind. cbn [buf_size]. rewrite get_mem_at by lia. by destruct (_ <=? _)%nat.
      + destruct (malloc (Z.of_nat (length body))) as [m|] eqn:Em; [|done]. unfold mbind, outcome_bind. cbn [buf_size buf_p buf_len].
        rewrite get_mem_at by lia. destruct (_ <=? _)%nat; [|done]. cbn [default].
        assert (0 < Z.of_nat (length body)) as Hpos by lia. pose proof (malloc_size _ _ Hpos Em) as Hm.
        destruct (store_fits m (take (Z.to_nat (Z.of_nat (length body))) (drop 4 (be_bytes 4 (rq_id r) ++ body)))) as [p Hp];
          [rewrite length_take; lia|]. unfold id. by rewrite Hp. }
  eapply wp_mono; [exact Hres|]. intros res ? ->. apply wp_bind, (wp_run_end _ _ _ r _ E' Hd He). intros e Hl.
  apply wp_bind. eapply wp_mono; [by apply (wp_request_free _ _ _ r)|]. intros [] t' (K1 & K2 & K3 & K4 & K5 & K6).
  apply wp_ret. repeat (split; [done|]). auto.
Qed.

Lemma wp_request_new t c len f e want : t_inv (ses t) -> (c < max_conns)%nat ->
  wp True (request_new c len f e want) t (fun res t' => exists r, res.1.1 = next_req t /\
    requests t' = <[next_req t := r]> (requests t) /\ reqtab t' = reqtab t /\ locked t' = locked t /\
    next_req t' = next_req t + 1 /\ t_inv (ses t') /\
    rq_id r = res.1.2 /\ rq_conn r = c /\ want_reply r = want /\ pristine r /\ rq_end r = e /\
    ext t' = match f with Some f => f (next_req t) (ext t) | None => ext t end).
Proof using TransportSafe0.
  intros Hs Hc. unfold request_new. apply wp_bind, wp_get, wp_bind, wp_modify, wp_bind, wp_modify.
  set (r0 := Request want e 0 0 0 false 0 (Buffer None 0 0) 0 0).
  set (t1 := add_request r0 t). set (t2 := match f with Some f => set_ext (f (next_req t) (ext t1)) t1 | None => t1 end).
  assert (requests t2 = <[next_req t := r0]> (requests t) /\ reqtab t2 = reqtab t /\ locked t2 = locked t /\
    next_req t2 = next_req t + 1 /\ ses t2 = ses t /\ ext t2 = match f with Some f => f (next_req t) (ext t) | None => ext t end)
    as (E1 & E2 & E3 & E4 & E5 & E6) by (unfold t2; by destruct f).
  clearbody t2. apply wp_bind, wp_ses. eapply wp_mono; [apply wp_never, t_get_id_safe; by rewrite E5|]. intros id l Hl.
  apply wp_bind, (wp_req_upd _ _ _ r0); [cbn; by rewrite E1, lookup_insert_eq|].
  set (r1 := set_id id c r0). apply wp_bind, wp_ses. eapply wp_mono; [by apply wp_never, t_count_safe|]. intros [] l1 Hl1.
  apply wp_bind, wp_ses. eapply wp_mono; [by apply t_start_safe|]. intros err l2 Hl2. cbn [requests set_ses set_requests].
  destruct (negb (err =? 0)).
  - apply wp_ret. exists r1. cbn. by rewrite E1, E2, E3, E4, E6, insert_insert_eq.
  - apply wp_bind, (wp_req_upd _ _ _ r1); [cbn; by rewrite lookup_insert_eq|]. apply wp_bind, wp_modify, wp_ret.
    exists (set_len (u64 (len + 9)) r1). cbn. by rewrite E1, E2, E3, E4, E6, !insert_insert_eq.
Qed.

Lemma wp_take_request t id : (forall a, reqtab t !! id = Some a -> is_Some (requests t !! a)) -> t_inv (ses t) ->
  wp True (take_request id) t (fun o t' => o = reqtab t !! id /\ evolves t (requests t) (delete id (reqtab t)) t').
Proof.
  intros Hl Hs. unfold take_request. apply wp_bind, wp_get. destruct (reqtab t !! id) as [a|] eqn:Ea.
  - destruct (Hl a eq_refl) as [r Er]. apply wp_bind, (wp_req_get _ _ _ r _ Er). apply wp_bind, wp_modify, wp_bind, wp_modify, wp_ret.
    done.
  - apply wp_ret. split; [done|]. by rewrite delete_id.
Qed.

(** *** Steps change one request *)

Lemma good_frame g g' x : requests (cl g') !! x = requests (cl g) !! x -> pcs g' !! x = pcs g !! x ->
  (forall id, reqtab (cl g') !! id = Some x <-> reqtab (cl g) !! id = Some x) -> (in_hand g' x <-> in_hand g x) ->
  answers g ⊆ answers g' -> good g x -> good g' x.
Proof.
  intros Hr Hp Ht Hh Ha. unfold good. rewrite Hr, Hp.
  assert (no_refs g x -> no_refs g' x) as Hn by (intros [K1 K3]; split; [intros id; by rewrite Ht|by rewrite Hh]).
  destruct (requests (cl g) !! x) as [r|]; [|intros [K1 K3]; auto].
  assert (in_table g' x r <-> in_table g x r) as Hi by apply Ht.
  assert (pending g x r -> pending g' x r) as Hpe by (unfold pending; by rewrite Hi, Hh).
  assert (finished g x r -> finished g' x r) as Hfi.
  { unfold finished. rewrite Hi, Hh. intros (K1 & K3 & K4 & K5). split; [done|]. split; [done|]. split; [done|].
    destruct K5 as [|(K6 & K7 & body & K8 & K9)]; [by left|]. right. split; [done|]. split; [done|]. exists body. auto. }
  intros (K1 & Hc & K3). split; [intros id; rewrite Ht; apply K1|]. split; [done|].
  assert (leaked g x r -> leaked g' x r) as Hle by (unfold leaked; tauto).
  destruct (pcs g !! x) as [[c id want|c id want|want| | | |]|]; rewrite ?Hh; tauto.
Qed.

(** A step that concerns the request and the thread at [a]. *)
Record one_step g g' (a : Z) : Prop := OneStep {
  os_unlocked : locked (cl g') = false;
  os_ses : t_inv (ses (cl g'));
  os_requests x : x <> a -> requests (cl g') !! x = requests (cl g) !! x;
  os_pcs x : x <> a -> pcs g' !! x = pcs g !! x;
  os_table x id : x <> a -> reqtab (cl g') !! id = Some x <-> reqtab (cl g) !! id = Some x;
  os_hands x c ty b : x <> a -> hands g' !! c = Some (x, ty, b) <-> hands g !! c = Some (x, ty, b);
  os_answers : answers g ⊆ answers g';
  os_good : good g' a;
  os_next : next_req (cl g) <= next_req (cl g') /\ a < next_req (cl g');
  os_owns id : owns g' a id -> owns g a id \/ forall x, ~ owns g x id;
  os_hand c c' ty ty' b b' : hands g' !! c = Some (a, ty, b) -> hands g' !! c' = Some (a, ty', b') -> c = c';
  os_answer c ty b r : hands g' !! c = Some (a, ty, b) -> requests (cl g') !! a = Some r -> rq_conn r = c /\
    exists body, (rq_id r, ty, body) ∈ answers g' /\ b = answer_buf (rq_id r) body /\ Z.of_nat (length body) < MAX_REPLY_LEN;
  os_wire c id : (c, id) ∈ wire g' -> (c, id) ∈ wire g \/ owns g a id /\ forall p, pcs g' !! a = Some p -> pc_id p <> Some id;
  os_wire_conn c r : (c, rq_id r) ∈ wire g' -> requests (cl g') !! a = Some r -> rq_conn r = c;
  os_pc p id c : pcs g' !! a = Some p -> pc_id p = Some id -> (c, id) ∉ wire g';
  os_live d : uses g' d -> live d (ext (cl g')) }.

Lemma inv_one_step g g' a : inv g -> one_step g g' a -> inv g'.
Proof.
  intros I S. assert (forall x id, x <> a -> owns g' x id <-> owns g x id) as Hown.
  { intros x id Hx. unfold owns. by rewrite (os_requests _ _ _ S x Hx), (os_pcs _ _ _ S x Hx). }
  split.
  - apply S.
  - apply S.
  - intros x. destruct (decide (x = a)) as [->|Hx]; [apply S|]. apply (good_frame g);
      [by apply (os_requests _ _ _ S)|by apply (os_pcs _ _ _ S)|intros id; by apply (os_table _ _ _ S)| |apply (os_answers _ _ _ S)|apply (inv_good _ I)].
    unfold in_hand. split; intros (c & ty & b & Hh); exists c, ty, b; by apply (os_hands _ _ _ S x c ty b Hx).
  - intros x Hx. destruct (decide (x = a)) as [->|Hne]; [apply S|].
    rewrite (os_requests _ _ _ S x Hne), (os_pcs _ _ _ S x Hne) in Hx. pose proof (inv_fresh _ I x Hx). pose proof (os_next _ _ _ S). lia.
  - intros x y id K1 K3. destruct (decide (x = a)) as [->|Hx], (decide (y = a)) as [->|Hy]; [done| | |].
    + apply Hown in K3; [|done]. destruct (os_owns _ _ _ S id K1) as [K4|K4]; [by apply (inv_owner _ I a y id)|by destruct (K4 y)].
    + apply Hown in K1; [|done]. destruct (os_owns _ _ _ S id K3) as [K4|K4]; [by apply (inv_owner _ I x a id)|by destruct (K4 x)].
    + apply Hown in K1, K3; [|done..]. by apply (inv_owner _ I x y id).
  - intros c c' x ty ty' b b' K1 K3. destruct (decide (x = a)) as [->|Hx]; [by eapply (os_hand _ _ _ S)|].
    apply (os_hands _ _ _ S) in K1, K3; [|done..]. by eapply (inv_hands _ I).
  - intros c x ty b r K1 K3. destruct (decide (x = a)) as [->|Hx]; [by eapply (os_answer _ _ _ S)|].
    apply (os_hands _ _ _ S) in K1; [|done]. rewrite (os_requests _ _ _ S x Hx) in K3.
    destruct (inv_answer _ I _ _ _ _ _ K1 K3) as (Hcn & body & K4 & K5). split; [done|]. exists body. split; [by apply S|done].
  - intros c id x r Hw Hr <-. destruct (decide (x = a)) as [->|Hx]; [by apply (os_wire_conn _ _ _ S)|].
    rewrite (os_requests _ _ _ S x Hx) in Hr. destruct (os_wire _ _ _ S c _ Hw) as [Hw'|[Ho _]]; [by apply (inv_wire_conn _ I c (rq_id r) x)|].
    destruct Hx. apply (inv_owner _ I x a (rq_id r)); [|done]. left. by exists r.
  - intros c id x p Hw Hp Hid. destruct (decide (x = a)) as [->|Hx]; [by apply (os_pc _ _ _ S p id c Hp Hid)|].
    rewrite (os_pcs _ _ _ S x Hx) in Hp. destruct (os_wire _ _ _ S c id Hw) as [Hw'|[Ho _]]; [by apply (inv_wire _ I c id x p)|].
    apply Hx, (inv_owner _ I x a id); [|done]. right. by exists p.
  - apply S.
Qed.

Lemma table_request g id a : inv g -> reqtab (cl g) !! id = Some a ->
  exists r, requests (cl g) !! a = Some r /\ rq_id r = id.
Proof.
  intros I Ht. pose proof (inv_good _ I a) as G. unfold good in G. destruct (requests (cl g) !! a) as [r|].
  - exists r. split; [done|]. by rewrite (proj1 G id Ht).
  - by destruct G as [[G _] _], (G id).
Qed.

Lemma hand_request g c a ty b : inv g -> hands g !! c = Some (a, ty, b) -> exists r, requests (cl g) !! a = Some r.
Proof.
  intros I Hh. pose proof (inv_good _ I a) as G. unfold good in G. destruct (requests (cl g) !! a) as [r|]; [by exists r|].
  destruct G as [[_ G] _]. destruct G. by exists c, ty, b.
Qed.

(** Only the request that has an identifier is in the table under it. *)
Lemma table_owner g id a x : inv g -> owns g a id -> reqtab (cl g) !! id = Some x -> x = a.
Proof.
  intros I Ho Ht. destruct (table_request g id x I Ht) as (r & Hr & Hid). apply (inv_owner _ I x a id); [|done].
  left. by exists r.
Qed.

Lemma used_false g id : used g id = false -> (forall x, ~ owns g x id) /\ forall c, (c, id) ∉ wire g.
Proof.
  unfold used. intros Hu. apply orb_false_iff in Hu as [Hu Hw]. apply orb_false_iff in Hu as [Hr Hp]. bools. split.
  - intros x [(r & Er & Hid)|(p & Ep & Hid)]; [apply Hr|apply Hp]; unfold map_Exists; eauto.
  - intros c Hc. apply Hw. exists (c, id). done.
Qed.

Lemma fresh_request g : inv g ->
  requests (cl g) !! next_req (cl g) = None /\ pcs g !! next_req (cl g) = None /\ no_refs g (next_req (cl g)).
Proof.
  intros I. set (a := next_req (cl g)).
  assert (requests (cl g) !! a = None) as Hr.
  { destruct (requests (cl g) !! a) eqn:Er; [|done]. assert (a < next_req (cl g)); [|unfold a in *; lia].
    apply (inv_fresh _ I). left. by eexists. }
  assert (pcs g !! a = None) as Hp.
  { destruct (pcs g !! a) eqn:Er; [|done]. assert (a < next_req (cl g)); [|unfold a in *; lia].
    apply (inv_fresh _ I). right. by eexists. }
  split; [done|]. split; [done|]. pose proof (inv_good _ I a) as G. unfold good in G. rewrite Hr in G. apply G.
Qed.

(** The sender uses its request later. *)
Definition needs_request (p : pc) : bool :=
  match p with Waiting | Asleep | Unsent => true | Sending _ _ want | Sent want => negb (want =? 0) | _ => false end.

(** The lock is taken for ever; what threads still use is there. *)
Definition stuck g : Prop :=
  locked (cl g) = true /\
  (forall c a ty b, hands g !! c = Some (a, ty, b) -> is_Some (requests (cl g) !! a)) /\
  (forall a p, pcs g !! a = Some p -> needs_request p = true -> is_Some (requests (cl g) !! a)).

Lemma inv_needs g a p : inv g -> pcs g !! a = Some p -> needs_request p = true -> is_Some (requests (cl g) !! a).
Proof.
  intros I Hp Hn. pose proof (inv_good _ I a) as G. unfold good in G. rewrite Hp in G.
  destruct (requests (cl g) !! a) as [r|]; [by eexists|]. destruct p as [| |want| | | |]; destruct G as [_ G]; try done; by rewrite G in Hn.
Qed.

(** The outcome of a step: the process goes on in order, or ends, or stands still. *)
Definition safe_step (o : outcome (option (config L D E))) : Prop :=
  match o with Ret (Some g') => inv g' \/ stuck g' | Ret None | Exit => True | Undef => False end.

Lemma wp_let {A} (e : prog (client L D E) A) t Q (k : A * client L D E -> outcome (option (config L D E))) :
  wp True e t Q -> (forall a t', Q a t' -> safe_step (k (a, t'))) -> safe_step (let! x := e t in k x).
Proof. unfold wp, mbind, outcome_bind. destruct (e t) as [[a t']| |]; auto. Qed.

Lemma lookup_goto g t a p x : pcs (goto g t a p) !! x = if decide (x = a) then p else pcs g !! x.
Proof.
  unfold goto. cbn [pcs]. destruct (decide (x = a)) as [->|Hx]; [by rewrite lookup_partial_alter_eq|by rewrite lookup_partial_alter_ne].
Qed.

(** A new request. *)
Lemma begin_one_step g t' a r p tab id :
  inv g -> a = next_req (cl g) -> used g id = false -> rq_id r = id -> (rq_conn r < max_conns)%nat ->
  requests t' = <[a := r]> (requests (cl g)) -> reqtab t' = tab -> locked t' = false -> t_inv (ses t') ->
  next_req t' = a + 1 -> tab = reqtab (cl g) \/ tab = <[id := a]> (reqtab (cl g)) ->
  (forall id', pc_id p = Some id' -> id' = id) -> (forall d, uses g d \/ rq_end r = Some d -> live d (ext t')) ->
  good (goto g t' a (Some p)) a -> one_step g (goto g t' a (Some p)) a.
Proof.
  intros I -> Hu Hid Hc Er Et El Hs Hn Htab Hp Hlv Hg.
  destruct (fresh_request g I) as (Fr & Fp & Ft & Fh). destruct (used_false g id Hu) as [Uo Uw].
  split.
  - done.
  - done.
  - intros x Hx. cbn. by rewrite Er, lookup_insert_ne.
  - intros x Hx. rewrite lookup_goto. by destruct (decide (x = next_req (cl g))).
  - intros x id' Hx. cbn. rewrite Et. destruct Htab as [-> | ->]; [done|]. destruct (decide (id' = id)) as [->|Hi].
    + rewrite lookup_insert_eq. split; [congruence|]. intros Ht. destruct (Uo x).
      destruct (table_request g id x I Ht) as (rx & ? & ?). left. by exists rx.
    + by rewrite lookup_insert_ne.
  - done.
  - done.
  - done.
  - cbn. lia.
  - intros id' [(r' & Er' & Hid')|(p' & Ep' & Hid')].
    + cbn in Er'. rewrite Er, lookup_insert_eq in Er'. injection Er' as <-. right. rewrite <- Hid', Hid. apply Uo.
    + rewrite lookup_goto, decide_True in Ep' by done. injection Ep' as <-. rewrite (Hp _ Hid'). right. apply Uo.
  - intros c c' ty ty' b b' K1 K2. cbn in K1. destruct Fh. by exists c, ty, b.
  - intros c ty b r' K1. cbn in K1. destruct Fh. by exists c, ty, b.
  - intros c id' Hw. by left.
  - intros c r' Hw Er'. cbn in Hw, Er'. rewrite Er, lookup_insert_eq in Er'. injection Er' as <-. rewrite Hid in Hw. by destruct (Uw c).
  - intros p' id' c. rewrite lookup_goto, decide_True by done. intros [= <-] Hi. rewrite (Hp _ Hi). apply Uw.
  - intros d (x & r' & K1 & K2). cbn in K1 |- *. rewrite Er in K1. apply Hlv. apply lookup_insert_Some in K1 as [[_ <-]|[_ K1]]; [by right|].
    left. by exists x, r'.
Qed.

Lemma act_begin g c len f e want : inv g -> permitted (Begin c len f e want) g -> safe_step (act reconnects max_conns (Begin c len f e want) g).
Proof using All.
  intros I Hper. cbn [act]. destruct (locked (cl g) || negb (c <? max_conns)%nat) eqn:El; [done|].
  apply orb_false_iff in El as [El Hc]. bools. eapply wp_let; [by apply wp_request_new, Hc; apply I|]. cbv beta iota.
  intros [[a id] err] t' (r & Ea & Er & Et & El' & En & Hs & Hid & Hrc & Hw & Hp & He0 & Hex). cbn [fst snd] in *.
  cbn [permitted] in Hper. rewrite <- Hex, <- He0 in Hper. clear Hex.
  destruct (used g id) eqn:Hu; [done|]. destruct (fresh_request g I) as (Fr & Fp & Fn). rewrite <- Ea in *.
  assert (requests t' !! a = Some r) as Era by by rewrite Er, lookup_insert_eq.
  destruct (Z.eqb_spec err 0) as [->|He]; cbn [negb].
  - destruct (has_room t').
    + left. apply (inv_one_step g _ a I), (begin_one_step g _ a r _ (<[id := a]> (reqtab (cl g))) id); try done.
      * by rewrite Hrc.
      * cbn. by rewrite Et.
      * cbn. by rewrite El'.
      * by right.
      * by intros id' [= <-].
      * unfold good. rewrite lookup_goto, decide_True by done. cbn. rewrite Era, Et.
        split; [|split; [by rewrite Hrc|]].
        { intros id'. destruct (decide (id' = id)) as [->|Hne]; [done|]. rewrite lookup_insert_ne by done.
          intros Ht. by destruct Fn as [Fn _], (Fn id'). }
        split; [done|]. split; [done|]. split; [done|]. split; [apply Fn|]. left. split; [done|]. left. split; [|apply Fn].
        unfold in_table. cbn. by rewrite ?Et, Hid, lookup_insert_eq.
    + left. apply (inv_one_step g _ a I), (begin_one_step g _ a r _ (reqtab (cl g)) id); try done.
      * by rewrite Hrc.
      * by rewrite El'.
      * by left.
      * by intros id' [= <-].
      * unfold good. rewrite lookup_goto, decide_True by done. cbn. rewrite Era, Et.
        split; [intros id' Ht; by destruct Fn as [Fn _], (Fn id')|]. split; [by rewrite Hrc|].
        unfold no_refs. cbn. by rewrite Et.
  - unfold req_upd. rewrite Era. cbn [deref]. unfold mbind, outcome_bind. left.
    set (t'' := set_requests _ t'). assert (requests t'' = <[a := set_error err r]> (requests (cl g))) as Er'' by (cbn; by rewrite Er, insert_insert_eq).
    assert (no_refs (goto g t'' a (after_error want)) a) as Fn' by (unfold no_refs; cbn; by rewrite Et).
    unfold after_error in *. apply (inv_one_step g _ a I), (begin_one_step g _ a (set_error err r) _ (reqtab (cl g)) id); try done.
    + cbn. by rewrite Hrc.
    + cbn. by rewrite El'.
    + by left.
    + by destruct (want =? 0).
    + unfold good. rewrite lookup_goto, decide_True by done. cbn [goto cl]. rewrite Er'', lookup_insert_eq.
      split; [intros id' Ht; by destruct Fn' as [Fn' _], (Fn' id')|]. split; [cbn; by rewrite Hrc|].
      destruct (Z.eqb_spec want 0) as [->|Hw0]; [done|]. split; [cbn; by rewrite Hw|]. done.
Qed.

(** A thread goes on with its request. *)
Lemma thread_step g g' a : inv g -> locked (cl g') = false -> t_inv (ses (cl g')) -> next_req (cl g') = next_req (cl g) ->
  (forall x, x <> a -> requests (cl g') !! x = requests (cl g) !! x) ->
  (forall x, x <> a -> pcs g' !! x = pcs g !! x) ->
  (forall x id, x <> a -> reqtab (cl g') !! id = Some x <-> reqtab (cl g) !! id = Some x) ->
  hands g' = hands g -> answers g' = answers g -> wire g' = wire g ->
  is_Some (requests (cl g) !! a) \/ is_Some (pcs g !! a) ->
  (forall r', requests (cl g') !! a = Some r' -> exists r, requests (cl g) !! a = Some r /\
    rq_id r' = rq_id r /\ rq_conn r' = rq_conn r /\ rq_end r' = rq_end r) ->
  (forall p' id, pcs g' !! a = Some p' -> pc_id p' = Some id -> exists p, pcs g !! a = Some p /\ pc_id p = Some id) ->
  (forall d, live d (ext (cl g)) -> live d (ext (cl g'))) -> good g' a -> inv g'.
Proof.
  intros I El Hs En Hr Hp Ht Hh Ha Hw Hlt Hr' Hp' Hlv Hg. apply (inv_one_step g g' a I). split; try done.
  - intros x c ty b _. by rewrite Hh.
  - by rewrite Ha.
  - pose proof (inv_fresh _ I a Hlt). lia.
  - intros id [(r & Er & Hid)|(p & Ep & Hid)]; left.
    + destruct (Hr' r Er) as (r0 & Er0 & E0 & _). left. exists r0. split; [done|]. by rewrite <- E0.
    + destruct (Hp' p id Ep Hid) as (p0 & ?). right. by exists p0.
  - rewrite Hh. intros c c' ty ty' b b'. apply (inv_hands _ I).
  - rewrite Hh, Ha. intros c ty b r K1 K2. destruct (Hr' r K2) as (r0 & Er0 & -> & -> & _). by apply (inv_answer _ I c a ty b r0).
  - intros c id. rewrite Hw. by left.
  - intros c r K1 K2. rewrite Hw in K1. destruct (Hr' r K2) as (r0 & Er0 & E1 & -> & _). rewrite E1 in K1. by apply (inv_wire_conn _ I c (rq_id r0) a).
  - intros p id c K1 K2 K3. rewrite Hw in K3. destruct (Hp' p id K1 K2) as (p0 & K4 & K5). by apply (inv_wire _ I c id a p0).
  - intros d (x & r & K1 & K2). apply Hlv, (inv_live _ I). destruct (decide (x = a)) as [->|Hx].
    + destruct (Hr' r K1) as (r0 & K3 & _ & _ & K4). exists a, r0. by rewrite <- K4.
    + exists x, r. by rewrite <- Hr.
Qed.

(** Where the table changes at an identifier that the request owns. *)
Lemma table_insert_other g a id x id' : inv g -> owns g a id -> x <> a ->
  <[id := a]> (reqtab (cl g)) !! id' = Some x <-> reqtab (cl g) !! id' = Some x.
Proof.
  intros I Ho Hx. destruct (decide (id' = id)) as [->|Hne]; [|by rewrite lookup_insert_ne].
  rewrite lookup_insert_eq. split; [congruence|]. intros Ht. by destruct Hx, (table_owner g id a x I Ho).
Qed.
Lemma table_delete_other g a id x id' : inv g -> owns g a id -> x <> a ->
  delete id (reqtab (cl g)) !! id' = Some x <-> reqtab (cl g) !! id' = Some x.
Proof.
  intros I Ho Hx. destruct (decide (id' = id)) as [->|Hne]; [|by rewrite lookup_delete_ne].
  rewrite lookup_delete_eq. split; [done|]. intros Ht. by destruct Hx, (table_owner g id a x I Ho).
Qed.

Lemma act_enter g a : inv g -> safe_step (act reconnects max_conns (Enter a) g).
Proof using All.
  intros I. cbn [act]. destruct (pcs g !! a) as [[c id want|?|?| | | |]|] eqn:Ep; try done.
  destruct (locked (cl g) || negb (has_room (cl g))) eqn:El; [done|]. apply orb_false_iff in El as [El _].
  pose proof (inv_good _ I a) as G. unfold good in G. rewrite Ep in G.
  destruct (requests (cl g) !! a) as [r|] eqn:Er; [|tauto]. destruct G as (G1 & Gc & Gcc & -> & -> & Gp & Gn & Gh).
  assert (owns g a (rq_id r)) as Ho by (left; by exists r). left. unfold request_insert, pmodify, mbind, outcome_bind.
  eapply (thread_step g _ a I); try done.
  - apply I.
  - intros x Hx. by rewrite lookup_goto, decide_False.
  - intros x id' Hx. cbn. by apply table_insert_other.
  - left. by eexists.
  - intros r' Er'. by exists r'.
  - intros p' id'. rewrite lookup_goto, decide_True by done. intros [= <-] [= <-]. by eexists.
  - unfold good. rewrite lookup_goto, decide_True by done. cbn. rewrite Er. split; [|split; [done|]].
    { intros id'. destruct (decide (id' = rq_id r)) as [->|Hne]; [done|]. rewrite lookup_insert_ne by done. apply G1. }
    split; [done|]. split; [done|]. split; [done|]. split; [done|]. left. split; [done|]. left. split; [|done].
    unfold in_table. cbn. by rewrite lookup_insert_eq.
Qed.

Lemma act_wire g a : inv g -> safe_step (act reconnects max_conns (Wire a) g).
Proof using All.
  intros I. cbn [act]. destruct (pcs g !! a) as [[|c id want| | | | |]|] eqn:Ep; try done. left.
  set (g' := Config _ _ _ _ _). assert (owns g a id) as Ho by (right; by exists (Sending c id want)).
  apply (inv_one_step g g' a I). split; try done.
  - apply I.
  - apply I.
  - intros x Hx. cbn. by rewrite lookup_insert_ne.
  - pose proof (inv_good _ I a) as G. unfold good in G |- *. rewrite Ep in G. cbn. rewrite lookup_insert_eq.
    destruct (requests (cl g) !! a) as [r|]; [|done]. destruct G as (G1 & Gc & _ & _ & Gw & _ & G2).
    split; [done|]. split; [done|]. done.
  - split; [done|]. apply (inv_fresh _ I). right. by eexists.
  - intros id' [(r & Er & Hid)|(p & Epp & Hid)].
    + left. left. by exists r.
    + cbn in Epp. rewrite lookup_insert_eq in Epp. by injection Epp as <-.
  - intros c1 c2 ty ty' b b'. apply (inv_hands _ I).
  - intros c1 ty b r. apply (inv_answer _ I).
  - intros c' id' Hw. cbn in Hw. apply elem_of_union in Hw as [Hw|Hw]; [|by left]. apply elem_of_singleton in Hw as [= -> ->].
    right. split; [done|]. intros p. cbn. rewrite lookup_insert_eq. by intros [= <-].
  - intros c' r Hw Er. cbn in Hw, Er. apply elem_of_union in Hw as [Hw|Hw]; [|by apply (inv_wire_conn _ I c' (rq_id r) a)].
    apply elem_of_singleton in Hw as [= -> _]. pose proof (inv_good _ I a) as G. unfold good in G. rewrite Ep, Er in G.
    destruct G as (_ & _ & -> & _). done.
  - intros p id' c'. cbn. rewrite lookup_insert_eq. by intros [= <-].
  - apply (inv_live _ I).
Qed.

Lemma act_return g a : inv g -> safe_step (act reconnects max_conns (Return a) g).
Proof using All.
  intros I. cbn [act]. destruct (pcs g !! a) as [[| |want| | | |]|] eqn:Ep; try done. left.
  pose proof (inv_good _ I a) as G. unfold good in G. rewrite Ep in G.
  eapply (thread_step g _ a I); try done.
  - apply I.
  - apply I.
  - intros x Hx. by rewrite lookup_goto, decide_False.
  - right. by eexists.
  - intros r' Er'. by exists r'.
  - intros p' id'. rewrite lookup_goto, decide_True by done. by destruct (want =? 0); intros [= <-].
  - unfold good. rewrite lookup_goto, decide_True by done. cbn. destruct (requests (cl g) !! a) as [r|].
    + destruct G as (G1 & Gc & -> & G2). split; [done|]. split; [done|]. destruct (Z.eqb_spec (want_reply r) 0) as [Hz|Hz]; [|done].
      left. split; [done|]. destruct G2 as [G2|(_ & _ & G2 & _)]; done.
    + destruct G as (G1 & ->). done.
Qed.

Lemma act_break g a : inv g -> safe_step (act reconnects max_conns (Break a) g).
Proof using All.
  intros I. cbn [act]. destruct (pcs g !! a) as [[|c id want| | | | |]|] eqn:Ep; try done.
  destruct (locked (cl g)) eqn:El; [done|]. assert (owns g a id) as Ho by (right; by exists (Sending c id want)).
  unfold request_unsend, pbind, pget, pmodify, pret, mbind, outcome_bind. set (t' := set_reqtab _ _).
  pose proof (inv_good _ I a) as G. unfold good in G. rewrite Ep in G.
  destruct (requests (cl g) !! a) as [r|] eqn:Er.
  - destruct G as (G1 & Gc & _ & -> & -> & Gh & G2).
    assert (no_refs (goto g t' a None) a) as Hn.
    { split; [|done]. intros id'. cbn. destruct (decide (id' = rq_id r)) as [->|Hne]; [by rewrite lookup_delete_eq|].
      rewrite lookup_delete_ne by done. intros Ht. by apply Hne, G1. }
    assert ((match reqtab (cl g) !! rq_id r with Some _ => true | None => false end) = false -> want_reply r <> 0) as Hw.
    { intros Hf. destruct G2 as [(_ & [(Ht & _)|(_ & Hh)])|(_ & _ & Hw & _)]; [|by destruct Gh|done].
      unfold in_table in Ht. by rewrite Ht in Hf. }
    assert (negb (match reqtab (cl g) !! rq_id r with Some _ => true | None => false end) && (want_reply r =? 0) = false) as ->.
    { destruct (match reqtab (cl g) !! rq_id r with Some _ => true | None => false end); [done|]. cbn.
      apply Z.eqb_neq. by apply Hw. }
    unfold req_upd. change (requests t' !! a) with (requests (cl g) !! a). rewrite Er. cbn [deref]. unfold mbind, outcome_bind. left.
    eapply (thread_step g _ a I); try done.
    + apply I.
    + intros x Hx. cbn. by rewrite lookup_insert_ne.
    + intros x Hx. by rewrite lookup_goto, decide_False.
    + intros x id' Hx. cbn. by apply (table_delete_other g a).
    + left. by eexists.
    + intros r' Er'. cbn in Er'. rewrite lookup_insert_eq in Er'. injection Er' as <-. by exists r.
    + intros p' id'. rewrite lookup_goto, decide_True by done. unfold after_error. by destruct (want_reply r =? 0); intros [= <-].
    + unfold good. rewrite lookup_goto, decide_True by done. cbn. rewrite lookup_insert_eq.
      split; [intros id' Ht; by destruct Hn as [Hn _], (Hn id')|]. split; [done|]. unfold after_error.
      destruct (Z.eqb_spec (want_reply r) 0) as [Hz|Hz]; [split; [done|apply Hn]|]. split; [done|]. split; [done|apply Hn].
  - destruct G as ((G1 & G2) & ->). assert (reqtab (cl g) !! id = None) as Hnone.
    { destruct (reqtab (cl g) !! id) as [x|] eqn:Et; [|done]. rewrite (table_owner g id a x I Ho Et) in Et. by destruct (G1 id). }
    rewrite Hnone. left. eapply (thread_step g _ a I); try done.
    + apply I.
    + intros x Hx. by rewrite lookup_goto, decide_False.
    + intros x id' Hx. cbn. by apply (table_delete_other g a).
    + right. by eexists.
    + cbn. rewrite Er. done.
    + intros p' id'. by rewrite lookup_goto, decide_True by done.
    + unfold good. rewrite lookup_goto, decide_True by done. cbn. rewrite Er. split; [|done]. split; [|done].
      intros id'. cbn. destruct (decide (id' = id)) as [->|Hne]; [by rewrite lookup_delete_eq|]. rewrite lookup_delete_ne by done. apply G1.
Qed.

(** The sender takes the result and frees the request. *)
Lemma act_end g a r type expect : inv g -> requests (cl g) !! a = Some r -> (rq_conn r < max_conns)%nat -> no_refs g a ->
  rq_error r <> 0 \/ readable r ->
  safe_step (let! (_, t) := request_finish a type expect (cl g) in Ret (Some (goto g t a None))).
Proof using All.
  intros I Er Hc Hn He. pose proof (inv_end g a r (inv_live _ I) Er) as Hd.
  eapply wp_let; [by apply (wp_request_finish _ _ r); [| |apply I| |]|]. cbv beta.
  intros _ t' (Er' & Et' & El' & En' & Hs' & Hlv). left. eapply (thread_step g _ a I).
  - cbn. rewrite El'. apply I.
  - done.
  - done.
  - intros x Hx. cbn. by rewrite Er', lookup_delete_ne.
  - intros x Hx. by rewrite lookup_goto, decide_False.
  - intros x id Hx. cbn. by rewrite Et'.
  - done.
  - done.
  - done.
  - left. by eexists.
  - cbn. rewrite Er', lookup_delete_eq. done.
  - intros p id. by rewrite lookup_goto, decide_True.
  - done.
  - unfold good. rewrite lookup_goto, decide_True by done. cbn. rewrite Er', lookup_delete_eq. split; [|done].
    unfold no_refs. cbn. by rewrite Et'.
Qed.

Lemma act_abort g a : inv g -> safe_step (act reconnects max_conns (Abort a) g).
Proof using All.
  intros I. cbn [act]. destruct (pcs g !! a) as [[| | | | | |]|] eqn:Ep; try done.
  destruct (locked (cl g)) eqn:El; [done|]. pose proof (inv_good _ I a) as G. unfold good in G. rewrite Ep in G.
  destruct (requests (cl g) !! a) as [r|] eqn:Er; [|tauto]. destruct G as (G1 & Gc & Ge & Gn).
  apply (act_end g a r); auto.
Qed.

Lemma finished_no_refs g a r : (forall id, reqtab (cl g) !! id = Some a -> id = rq_id r) -> finished g a r -> no_refs g a.
Proof. intros G1 (Ht & Hh & _). split; [|done]. intros id Hid. apply Ht. unfold in_table. by rewrite <- (G1 id Hid). Qed.

Lemma act_sleep g a : inv g -> safe_step (act reconnects max_conns (Sleep a) g).
Proof using All.
  intros I. cbn [act]. destruct (pcs g !! a) as [[| | | | | |]|] eqn:Ep; try done.
  pose proof (inv_good _ I a) as G. unfold good in G. rewrite Ep in G.
  destruct (requests (cl g) !! a) as [r|] eqn:Er; [|tauto]. cbn [deref]. unfold mbind, outcome_bind.
  destruct (Z.eqb_spec (rq_error r) 0) as [Hz|]; [|done]. left. destruct G as (G1 & Gc & Gw & G2).
  eapply (thread_step g _ a I); try done.
  - apply I.
  - apply I.
  - intros x Hx. by rewrite lookup_goto, decide_False.
  - left. by eexists.
  - intros r' Er'. by exists r'.
  - intros p' id'. rewrite lookup_goto, decide_True by done. by intros [= <-].
  - unfold good. rewrite lookup_goto, decide_True by done. cbn [goto cl]. rewrite Er. split; [done|]. split; [done|]. split; [done|].
    destruct G2 as [G2|G2]; [by left|]. right. split; [done|].
    destruct G2 as (_ & _ & _ & [G2|(_ & G2 & _)]); [by rewrite Hz in G2|done].
Qed.

Lemma act_finished g a r type expect : inv g -> requests (cl g) !! a = Some r -> (rq_conn r < max_conns)%nat ->
  (forall id, reqtab (cl g) !! id = Some a -> id = rq_id r) -> finished g a r ->
  safe_step (let! (_, t) := request_finish a type expect (cl g) in Ret (Some (goto g t a None))).
Proof using All.
  intros I Er Gc G1 Gf. apply (act_end g a r); [done..|by apply (finished_no_refs g a r)|].
  destruct Gf as (_ & _ & _ & [?|(_ & _ & body & _ & ?)]); [by left|]. right. by exists body.
Qed.

Lemma act_finish g a type expect : inv g -> safe_step (act reconnects max_conns (Finish a type expect) g).
Proof using All.
  intros I. cbn [act]. pose proof (inv_good _ I a) as G. unfold good in G.
  destruct (pcs g !! a) as [[| | | | | |]|] eqn:Ep; try done;
    (destruct (requests (cl g) !! a) as [r|] eqn:Er; [|tauto]); destruct G as (G1 & Gc & Gw & G2);
    cbn [deref]; unfold mbind at 1, outcome_bind at 1; (destruct (_ || _) eqn:Eb; [done|]); apply orb_false_iff in Eb as [_ Eb].
  - destruct G2 as [((_ & Gz & _) & _)|Gf]; [by rewrite Gz in Eb|]. by apply (act_finished g a r).
  - destruct G2 as [((_ & _ & Gz) & _)|[Gf _]]; [by rewrite Gz in Eb|]. by apply (act_finished g a r).
  - destruct G2 as [Ge Gn]. apply (act_end g a r); auto.
Qed.

(** In the table nothing has happened to a request. *)
Lemma table_pending g id a r : inv g -> reqtab (cl g) !! id = Some a -> requests (cl g) !! a = Some r ->
  id = rq_id r /\ (rq_conn r < max_conns)%nat /\ pending g a r /\ ~ in_hand g a /\
  match pcs g !! a with
  | None => want_reply r = 0
  | Some (Sending c id want) => c = rq_conn r /\ id = rq_id r /\ want = want_reply r
  | Some (Sent want) => want = want_reply r
  | Some Waiting | Some Asleep => want_reply r <> 0
  | _ => False
  end.
Proof.
  intros I Ht Hr. pose proof (inv_good _ I a) as G. unfold good in G. rewrite Hr in G. destruct G as (G1 & Gc & G2).
  assert (id = rq_id r) as -> by by apply G1. split; [done|]. split; [done|].
  assert (in_table g a r) as Hin by done.
  assert (pending g a r \/ finished g a r -> pending g a r /\ ~ in_hand g a) as Hpf.
  { intros [Hp|(Hf & _)]; [|done]. split; [done|]. by destruct Hp as [_ [[_ ?]|[? _]]]. }
  destruct (pcs g !! a) as [[c' id' want|c' id' want|want| | | |]|] eqn:Ep.
  - destruct G2 as (_ & _ & _ & _ & G2 & _). by destruct (G2 (rq_id r)).
  - destruct Hpf; tauto.
  - destruct Hpf; tauto.
  - destruct Hpf; tauto.
  - destruct Hpf; tauto.
  - destruct G2 as (_ & G2 & _). by destruct (G2 (rq_id r)).
  - destruct G2 as (_ & _ & G2 & _). by destruct (G2 (rq_id r)).
  - destruct G2 as [G2|(_ & _ & G2 & _)]; [destruct Hpf; tauto|by destruct (G2 (rq_id r))].
Qed.

(** A request that the server has got and not answered, when it is in the table. *)
Lemma wire_pending g c a r : inv g -> requests (cl g) !! a = Some r -> (c, rq_id r) ∈ wire g -> reqtab (cl g) !! rq_id r = Some a ->
  pending g a r /\ ~ in_hand g a /\ match pcs g !! a with Some (Room _ _ _) | Some (Sending _ _ _) | Some Failing | Some Unsent => False | _ => True end.
Proof.
  intros I Hr Hw Ht. destruct (table_pending g _ a r I Ht Hr) as (_ & _ & Hp & Hh & Hpc). split; [done|]. split; [done|].
  destruct (pcs g !! a) as [[|c' id want| | | | |]|] eqn:Ep; try done. apply (inv_wire _ I c (rq_id r) a _ Hw Ep).
  by destruct Hpc as (_ & -> & _).
Qed.

Lemma act_receive g c id type body : inv g -> safe_step (act reconnects max_conns (Receive c id type body) g).
Proof using All.
  intros I. cbn [act]. destruct (hands g !! c) as [|] eqn:Eh; [done|].
  destruct (_ || _) eqn:Eb; [done|]. apply orb_false_iff in Eb as [Eb Hlen]. apply orb_false_iff in Eb as [El Hw]. bools.
  eapply wp_let; [apply wp_take_request; [|apply I]|].
  { intros a Ha. destruct (table_request g id a I Ha) as (r & Hr & _). by eexists. }
  cbv beta. intros o t' (-> & Er & Et & El' & En & Hs & Hlv). left.
  assert (forall g', cl g' = t' -> forall d, uses g' d -> live d (ext (cl g'))) as Hlv'.
  { intros g' Eg d (x & r & K1 & K2). rewrite Eg in *. rewrite Er in K1. apply Hlv, (inv_live _ I). by exists x, r. }
  destruct (reqtab (cl g) !! id) as [a|] eqn:Ea.
  - destruct (table_request g id a I Ea) as (r & Hr & Hid). pose proof (inv_good _ I a) as G. unfold good in G. rewrite Hr in G.
    destruct G as (G1 & Gc & G2). subst id.
    destruct (wire_pending g c a r I Hr Hw Ea) as (Gp & Gh & Gpc).
    set (g' := Config _ _ _ _ _). assert (no_refs (Config t' (pcs g) (hands g) (wire g) (answers g)) a) as Hn.
    { split; [|done]. intros id'. cbn. rewrite Et. destruct (decide (id' = rq_id r)) as [->|Hne]; [by rewrite lookup_delete_eq|].
      rewrite lookup_delete_ne by done. intros Ht. by apply Hne, G1. }
    assert (pending g' a r) as Gp'.
    { destruct Gp as [Gp _]. split; [done|]. right. split; [apply Hn|]. exists c. cbn. rewrite lookup_insert_eq. eauto. }
    apply (inv_one_step g g' a I). split.
    + cbn. rewrite El'. apply I.
    + done.
    + intros x Hx. cbn. by rewrite Er.
    + done.
    + intros x id' Hx. cbn. rewrite Et. apply (table_delete_other g a); [done| |done]. left. by exists r.
    + intros x c' ty b Hx. cbn. destruct (decide (c' = c)) as [->|Hc]; [|by rewrite lookup_insert_ne].
      rewrite lookup_insert_eq, Eh. split; [congruence|done].
    + intros y Hy. by right.
    + unfold good. cbn. rewrite Er, Hr. split; [intros id' Ht; by destruct Hn as [Hn _], (Hn id')|]. split; [done|].
      destruct (pcs g !! a) as [[| | | | | |]|] eqn:Ep; try (destruct G2 as [G2 _]; by auto).
      destruct G2 as [[G2 _]|(_ & _ & G2 & _)]; [by left|by destruct (G2 (rq_id r))].
    + cbn. rewrite En. split; [done|]. apply (inv_fresh _ I). left. by eexists.
    + intros id' [(r' & Er' & Hid')|(p & Ep & Hid')]; left; [left|right].
      * cbn in Er'. rewrite Er in Er'. by exists r'.
      * by exists p.
    + intros c1 c2 ty ty' b b'. cbn. intros K1 K2.
      assert (forall c0 ty0 b0, <[c := (a, type, answer_buf (rq_id r) body)]> (hands g) !! c0 = Some (a, ty0, b0) -> c0 = c) as Hc.
      { intros c0 ty0 b0 K0. destruct (decide (c0 = c)) as [->|Hne]; [done|]. rewrite lookup_insert_ne in K0 by done.
        destruct Gh. by exists c0, ty0, b0. }
      by rewrite (Hc _ _ _ K1), (Hc _ _ _ K2).
    + intros c0 ty b r'. cbn. rewrite Er. intros K1 K2. assert (r' = r) as -> by congruence.
      destruct (decide (c0 = c)) as [->|Hne]; [|rewrite lookup_insert_ne in K1 by done; destruct Gh; by exists c0, ty, b].
      rewrite lookup_insert_eq in K1. injection K1 as <- <-. split; [by apply (inv_wire_conn _ I c (rq_id r) a)|].
      exists body. split; [by left|done].
    + intros c' id' Hw'. left. cbn in Hw'. set_solver.
    + intros c' r' Hw' Er'. cbn in Hw', Er'. rewrite Er in Er'. apply (inv_wire_conn _ I c' (rq_id r') a); [set_solver|done|done].
    + intros p id' c' K1 K2 K3. cbn in K1, K3. apply (inv_wire _ I c' id' a p); [set_solver|done|done].
    + by apply Hlv'.
  - split.
    + cbn. rewrite El'. apply I.
    + done.
    + intros x. apply (good_frame g); [cbn; by rewrite Er|done| |done|intros y Hy; by right|apply I].
      intros id'. cbn. by rewrite Et, delete_id.
    + intros x. cbn. rewrite Er, En. apply I.
    + intros x y id'. unfold owns. cbn. rewrite Er. apply (inv_owner _ I).
    + cbn. apply (inv_hands _ I).
    + cbn. rewrite Er. intros c0 x ty b r K1 K2. destruct (inv_answer _ I _ _ _ _ _ K1 K2) as (? & bd & K3 & K4).
      split; [done|]. exists bd. split; [by right|done].
    + cbn. rewrite Er. intros c' id' x r K1. apply (inv_wire_conn _ I). set_solver.
    + cbn. intros c' id' x p K1. apply (inv_wire _ I c'). set_solver.
    + by apply Hlv'.
Qed.

Lemma hand_pending g c a ty b r : inv g -> hands g !! c = Some (a, ty, b) -> requests (cl g) !! a = Some r ->
  pristine r /\ (forall id, reqtab (cl g) !! id <> Some a) /\
  match pcs g !! a with
  | None => want_reply r = 0
  | Some (Sent want) => want = want_reply r
  | Some Waiting | Some Asleep => want_reply r <> 0
  | _ => False
  end.
Proof.
  intros I Hh Hr. pose proof (inv_good _ I a) as G. unfold good in G. rewrite Hr in G. destruct G as (G1 & _ & G2).
  assert (in_hand g a) as Hin by by exists c, ty, b.
  assert (pending g a r \/ finished g a r -> pristine r /\ (forall id, reqtab (cl g) !! id <> Some a)) as Hpf.
  { intros [(Hp & [[_ ?]|[Ht _]])|(_ & Hf & _)]; [done| |done]. split; [done|]. intros id Hid. apply Ht. unfold in_table.
    by rewrite <- (G1 id Hid). }
  destruct (pcs g !! a) as [[c' id' want|c' id' want|want| | | |]|] eqn:Ep.
  - by destruct G2 as (_ & _ & _ & _ & _ & []).
  - by destruct G2 as (_ & _ & _ & [] & _).
  - destruct Hpf; tauto.
  - destruct Hpf; tauto.
  - destruct Hpf; tauto.
  - by destruct G2 as (_ & _ & []).
  - by destruct G2 as (_ & _ & _ & []).
  - destruct G2 as [G2|(_ & _ & _ & [])]; [destruct Hpf; tauto|done].
Qed.

Lemma act_deliver g c : inv g -> safe_step (act reconnects max_conns (Deliver c) g).
Proof using All.
  intros I. cbn [act]. destruct (hands g !! c) as [[[a ty] b]|] eqn:Eh; [|done].
  destruct (hand_request g c a ty b I Eh) as (r & Hr). rewrite Hr. cbn [deref]. unfold mbind at 1, outcome_bind at 1.
  rewrite (inv_unlocked _ I). cbn [andb]. destruct (hand_pending g c a ty b r I Eh Hr) as (Hp & Ht & Hpc).
  pose proof (inv_good _ I a) as G. unfold good in G. rewrite Hr in G. destruct G as (_ & Gc & _).
  destruct (inv_answer _ I c a ty b r Eh Hr) as (_ & body & Hans & Hbuf & Hlen). pose proof (inv_end g a r (inv_live _ I) Hr) as Hd.
  eapply wp_let; [apply (wp_deliver _ _ r); [done|done|apply I|done|by exists body]|].
  cbv beta. intros [] t' (Er & Et & El & En & Hs & Hlv). left.
  set (g' := Config _ _ _ _ _).
  assert (~ in_hand g' a) as Hh'.
  { intros (c' & ty' & b' & Hh). cbn in Hh. apply lookup_delete_Some in Hh as [Hne Hh]. by apply Hne, (inv_hands _ I c c' a ty ty' b b'). }
  assert (no_refs g' a) as Hn by (split; [cbn; by rewrite Et|done]).
  assert (requests (cl g') !! a = if want_reply r =? 0 then None else Some (post (set_reply ty b r))) as Era.
  { cbn. rewrite Er. destruct (want_reply r =? 0); [by rewrite lookup_delete_eq|by rewrite lookup_insert_eq]. }
  apply (inv_one_step g g' a I). split.
  - cbn. rewrite El. apply I.
  - done.
  - intros x Hx. cbn. rewrite Er. destruct (want_reply r =? 0); [by rewrite lookup_delete_ne|by rewrite lookup_insert_ne].
  - done.
  - intros x id Hx. cbn. by rewrite Et.
  - intros x c' ty' b' Hx. cbn. rewrite lookup_delete_Some. split; [tauto|]. intros K. split; [|done]. intros <-. congruence.
  - done.
  - unfold good. rewrite Era. change (pcs g' !! a) with (pcs g !! a). destruct (Z.eqb_spec (want_reply r) 0) as [Hz|Hz].
    + split; [done|]. destruct (pcs g !! a) as [[| | | | | |]|]; try done. by rewrite Hpc.
    + split; [intros id Hid; by destruct Hn as [Hn _], (Hn id)|]. split; [done|].
      assert (finished g' a (post (set_reply ty b r))) as Hf.
      { split; [apply Hn|]. split; [done|]. split; [done|]. right. destruct Hp as (_ & Hp & _). split; [done|]. split; [cbn; lia|].
        by exists body. }
      destruct (pcs g !! a) as [[| | | | | |]|]; try done; (split; [done|right; first [done|split; [done|cbn; lia]]]).
  - cbn. rewrite En. split; [done|]. apply (inv_fresh _ I). left. by eexists.
  - intros id [(r' & Er' & Hid)|(p & Ep & Hid)]; left; [left|right; by exists p]. rewrite Era in Er'.
    destruct (want_reply r =? 0); [done|]. injection Er' as <-. by exists r.
  - intros c1 c2 ty1 ty2 b1 b2 K1. destruct Hh'. by exists c1, ty1, b1.
  - intros c1 ty1 b1 r1 K1. destruct Hh'. by exists c1, ty1, b1.
  - intros c1 id. by left.
  - intros c1 r1 K1 K2. rewrite Era in K2. destruct (want_reply r =? 0); [done|]. injection K2 as <-.
    by apply (inv_wire_conn _ I c1 (rq_id r) a r).
  - intros p id c1. cbn. intros K1 K2 K3. by apply (inv_wire _ I c1 id a p).
  - intros d (x & r' & K1 & K2). apply Hlv, (inv_live _ I). destruct (decide (x = a)) as [->|Hx].
    + rewrite Era in K1. destruct (want_reply r =? 0); [done|]. injection K1 as <-. by exists a, r.
    + exists x, r'. split; [|done]. cbn in K1. rewrite Er in K1. destruct (want_reply r =? 0);
        [by rewrite lookup_delete_ne in K1|by rewrite lookup_insert_ne in K1].
Qed.

(** *** Losing a connection *)

Definition with_cl g t : config L D E := Config t (pcs g) (hands g) (wire g) (answers g).

(** What does not change of a request. *)
Definition kind r : Z * nat * Z := (rq_id r, rq_conn r, want_reply r).
Definition same_kinds t t' : Prop := forall x, kind <$> requests t' !! x = kind <$> requests t !! x.

(** An error for a request that is waited for. *)
Lemma clean_one g t' id a r : inv g -> reqtab (cl g) !! id = Some a -> requests (cl g) !! a = Some r -> want_reply r <> 0 ->
  evolves (cl g) (<[a := post (set_error (- EIO) r)]> (requests (cl g))) (delete id (reqtab (cl g))) t' ->
  inv (with_cl g t') /\ same_kinds (cl g) t'.
Proof.
  intros I Ht Hr Hw (Er & Et & El & En & Hs & Hlv). destruct (table_pending g id a r I Ht Hr) as (-> & Hc & Hp & Hh & Hpc).
  assert (forall id', reqtab t' !! id' <> Some a) as Hnt.
  { intros id'. rewrite Et. destruct (decide (id' = rq_id r)) as [->|Hne]; [by rewrite lookup_delete_eq|].
    rewrite lookup_delete_ne by done. intros K. by apply Hne, (table_pending g id' a r I). }
  split; [|intros x; rewrite Er; destruct (decide (x = a)) as [->|Hx]; [by rewrite lookup_insert_eq, Hr|by rewrite lookup_insert_ne]].
  eapply (thread_step g _ a I); try done.
  - cbn. rewrite El. apply I.
  - intros x Hx. cbn. by rewrite Er, lookup_insert_ne.
  - intros x id' Hx. cbn. rewrite Et. apply (table_delete_other g a); [done| |done]. left. by exists r.
  - left. by eexists.
  - cbn. rewrite Er, lookup_insert_eq. intros r' [= <-]. by exists r.
  - intros p id' K1 K2. by exists p.
  - unfold good. cbn. rewrite Er, lookup_insert_eq. split; [intros id' K; by destruct (Hnt id')|]. split; [done|].
    assert (finished (with_cl g t') a (post (set_error (- EIO) r))) as Hf
      by (split; [apply Hnt|]; split; [done|]; split; [done|]; by left).
    destruct (pcs g !! a) as [[c' id' want|c' id' want|want| | | |]|]; try done.
    + destruct Hpc as (-> & -> & ->). split; [done|]. split; [done|]. split; [done|]. split; [done|]. by right.
    + split; [done|by right].
    + split; [done|by right].
    + split; [done|right; split; [done|cbn; lia]].
Qed.

Lemma clean_req_step g c id a r : inv g -> reqtab (cl g) !! id = Some a -> requests (cl g) !! a = Some r ->
  wp False (clean_req c id a) (cl g) (fun o t' =>
    match o with
    | None => rq_conn r = c /\ want_reply r = 0 /\ locked t' = true /\ same_kinds (cl g) t'
    | Some _ => inv (with_cl g t') /\ same_kinds (cl g) t' /\ (rq_conn r = c -> want_reply r <> 0) /\
        reqtab t' = (if (rq_conn r =? c)%nat then delete id (reqtab (cl g)) else reqtab (cl g))
    end).
Proof using All.
  intros I Ht Hr. unfold clean_req. apply wp_bind, (wp_req_get _ _ _ r _ Hr).
  destruct (Nat.eqb_spec (rq_conn r) c) as [Hc|Hc]; cbn [negb].
  2: { apply wp_ret. split; [by destruct g|]. done. }
  apply wp_bind, (wp_req_upd _ _ _ r _ _ Hr). set (t1 := set_requests _ (cl g)).
  assert (requests t1 !! a = Some (set_error (- EIO) r)) as Hr1 by (cbn; by rewrite lookup_insert_eq).
  destruct (Z.eqb_spec (want_reply r) 0) as [Hz|Hz]; cbn [negb].
  - apply wp_bind, (wp_run_end _ _ _ _ _ Hr1); [exact (inv_end g a r (inv_live _ I) Hr)|by left|]. intros e _. apply wp_bind, wp_modify, wp_ret.
    split; [done|]. split; [done|]. split; [done|]. intros x. cbn.
    destruct (decide (x = a)) as [->|Hx]; [by rewrite lookup_insert_eq, Hr|by rewrite lookup_insert_ne].
  - apply wp_bind, (wp_req_upd _ _ _ _ _ _ Hr1), wp_bind, wp_modify, wp_ret.
    destruct (clean_one g (set_reqtab (delete id (reqtab (cl g))) (set_requests (<[a := post (set_error (- EIO) r)]> (requests t1)) t1)) id a r I Ht Hr Hz)
      as [K1 K2]; [|done]. cbn. rewrite insert_insert_eq. split; [done|]. split; [done|]. split; [done|]. split; [done|]. split; [apply I|done].
Qed.

Lemma same_kinds_trans t1 t2 t3 : same_kinds t1 t2 -> same_kinds t2 t3 -> same_kinds t1 t3.
Proof. intros K1 K2 x. by rewrite K2. Qed.

(** The requests of the connection leave the table, each with an error for its sender,
    unless there is one without a sender that waits. *)
Lemma clean_reqs_all c l g : inv g -> NoDup l.*1 -> (forall id a, (id, a) ∈ l -> reqtab (cl g) !! id = Some a) ->
  wp False (clean_reqs c l) (cl g) (fun o t' =>
    match o with
    | None => locked t' = true /\ same_kinds (cl g) t' /\
        exists id a r, (id, a) ∈ l /\ requests (cl g) !! a = Some r /\ rq_conn r = c /\ want_reply r = 0
    | Some _ => inv (with_cl g t') /\ same_kinds (cl g) t' /\
        (forall id a, reqtab t' !! id = Some a -> reqtab (cl g) !! id = Some a) /\
        forall id a r, (id, a) ∈ l -> requests (cl g) !! a = Some r -> rq_conn r = c ->
          want_reply r <> 0 /\ reqtab t' !! id = None
    end).
Proof using All.
  revert g. induction l as [|[id a] l IH]; intros g I Hnd Hl; cbn [clean_reqs].
  - apply wp_ret. split; [by destruct g|]. split; [done|]. split; [done|]. intros id a r K. by apply elem_of_nil in K.
  - cbn in Hnd. apply NoDup_cons in Hnd as [Hni Hnd].
    assert (reqtab (cl g) !! id = Some a) as Ht by (apply Hl; left).
    destruct (table_request g id a I Ht) as (r & Hr & _).
    apply wp_bind. eapply wp_mono; [by apply clean_req_step|]. cbv beta. intros [[]|] t1; [|intros (K1 & K2 & K3 & K4)].
    2: { apply wp_ret. split; [done|]. split; [done|]. exists id, a, r. split; [left|done]. }
    intros (I1 & Hk1 & Hw1 & Ht1). assert (forall id' a', (id', a') ∈ l -> id' <> id) as Hne.
    { intros id' a' K ->. apply Hni. by apply (list_elem_of_fmap_2 fst) in K. }
    eapply wp_mono; [apply (IH (with_cl g t1) I1 Hnd)|].
    { intros id' a' K. cbn. rewrite Ht1. pose proof (Hne _ _ K). destruct (_ =? _)%nat; [rewrite lookup_delete_ne by done|]; apply Hl; by right. }
    cbv beta. cbn [with_cl cl]. assert (forall x r', requests (cl g) !! x = Some r' -> exists r'', requests t1 !! x = Some r'' /\ kind r'' = kind r') as Hback.
    { intros x r' K. specialize (Hk1 x). rewrite K in Hk1. destruct (requests t1 !! x) as [r''|]; [|done]. exists r''. split; [done|].
      cbn in Hk1. congruence. }
    intros [[]|] t2.
    + intros (I2 & Hk2 & Hs2 & Hall). split; [done|]. split; [by eapply same_kinds_trans|].
      assert (forall id' a', reqtab t1 !! id' = Some a' -> reqtab (cl g) !! id' = Some a') as Hs1.
      { intros id' a'. rewrite Ht1. destruct (_ =? _)%nat; [|done]. intros K. by apply lookup_delete_Some in K as [_ K]. }
      split; [auto|]. intros id' a' r' K1 K2 K3. apply elem_of_cons in K1 as [[= -> ->]|K1].
      * assert (r' = r) as -> by congruence. split; [auto|]. destruct (reqtab t2 !! id) as [y|] eqn:Ey; [|done].
        apply Hs2 in Ey. rewrite Ht1, (proj2 (Nat.eqb_eq _ _) K3), lookup_delete_eq in Ey. done.
      * destruct (Hback a' r' K2) as (r'' & K4 & K5). unfold kind in K5. injection K5 as _ K5 K6.
        rewrite <- K6. apply (Hall id' a' r''); [done|done|congruence].
    + intros (K1 & Hk & id' & a' & r' & K2 & K3 & K4 & K5). split; [done|]. split; [by eapply same_kinds_trans|]. specialize (Hk1 a'). rewrite K3 in Hk1.
      destruct (requests (cl g) !! a') as [r0|] eqn:E0; [|done]. cbn in Hk1. unfold kind in Hk1. injection Hk1 as _ Hk1 Hk2.
      exists id', a', r0. split; [by right|]. split; [done|]. split; congruence.
Qed.

(** Nothing that concerns the requests changes, but messages may be lost. *)
Lemma inv_quiet g g' : inv g -> requests (cl g') = requests (cl g) -> reqtab (cl g') = reqtab (cl g) ->
  next_req (cl g') = next_req (cl g) -> locked (cl g') = false -> t_inv (ses (cl g')) ->
  pcs g' = pcs g -> hands g' = hands g -> answers g' = answers g -> wire g' ⊆ wire g ->
  (forall d, uses g d -> live d (ext (cl g'))) -> inv g'.
Proof.
  intros I Er Et En El Hs Ep Eh Ea Hw Hlv. split.
  - done.
  - done.
  - intros x. apply (good_frame g); [by rewrite Er|by rewrite Ep|by rewrite Et|unfold in_hand; by rewrite Eh|by rewrite Ea|apply I].
  - intros x. rewrite Er, Ep, En. apply I.
  - intros x y id. unfold owns. rewrite Er, Ep. apply (inv_owner _ I).
  - rewrite Eh. apply (inv_hands _ I).
  - rewrite Eh, Er, Ea. apply (inv_answer _ I).
  - intros c id a r K. rewrite Er. apply (inv_wire_conn _ I). by apply Hw.
  - intros c id a p K. rewrite Ep. apply (inv_wire _ I c). by apply Hw.
  - intros d. unfold uses. rewrite Er. apply Hlv.
Qed.

Lemma table_list g : NoDup (table_order (reqtab (cl g))).*1 /\
  forall id a, (id, a) ∈ table_order (reqtab (cl g)) <-> reqtab (cl g) !! id = Some a.
Proof using All.
  split.
  - rewrite table_order_perm. apply NoDup_fst_map_to_list.
  - intros id a. rewrite table_order_perm. apply elem_of_map_to_list.
Qed.

(** A request of the connection that nobody waits for is in the table. *)
Definition unattended g (c : nat) : Prop :=
  exists id a r, reqtab (cl g) !! id = Some a /\ requests (cl g) !! a = Some r /\ rq_conn r = c /\ want_reply r = 0.

Lemma lose_cases g c : inv g -> hands g !! c = None -> (c < max_conns)%nat ->
  unattended g c /\ (exists g', act reconnects max_conns (Lose c) g = Ret (Some g') /\ locked (cl g') = true /\
    pcs g' = pcs g /\ hands g' = hands g /\ same_kinds (cl g) (cl g')) \/
  ~ unattended g c /\
    if reconnects then
      exists g', act reconnects max_conns (Lose c) g = Ret (Some g') /\ inv g' /\
        pcs g' = pcs g /\ hands g' = hands g /\ answers g' = answers g /\ same_kinds (cl g) (cl g') /\
        forall id a r, reqtab (cl g') !! id = Some a -> requests (cl g') !! a = Some r -> rq_conn r <> c
    else act reconnects max_conns (Lose c) g = Exit.
Proof using All.
  intros I Hh Hc. cbn [act]. rewrite Hh, (inv_unlocked _ I), (proj2 (Nat.ltb_lt _ _) Hc). cbn [orb negb].
  destruct (wp_returns _ _ _ (t_close_safe c _ (inv_ses _ I) Hc)) as ([] & l & El & Hl).
  unfold connection_lost. set (t1 := set_ses l (cl g)).
  assert (inv (with_cl g t1)) as I1 by (apply (inv_quiet g); try done; apply I).
  destruct (table_list (with_cl g t1)) as [Hnd Htl].
  pose proof (clean_reqs_all c _ _ I1 Hnd (fun id a K => proj1 (Htl id a) K)) as Hw. cbn [with_cl cl] in Hw, Htl.
  destruct (wp_returns _ _ _ Hw) as (o & t2 & E2 & K). clear Hw.
  rewrite (pbind_ret _ _ _ tt t1) by (unfold on_ses, pzoom; by rewrite El).
  unfold pget. rewrite (pbind_ret _ _ _ t1 t1 eq_refl), (pbind_ret _ _ _ _ _ E2). destruct o as [[]|].
  - right. destruct K as (I2 & Hk & Hs & Hall). split.
    { intros (id & a & r & K1 & K2 & K3 & K4). by destruct (Hall id a r (proj2 (Htl id a) K1) K2 K3). }
    destruct (wp_returns _ _ _ (t_renew_safe c _ (inv_ses _ I2) Hc)) as ([] & l2 & El2 & Hl2). cbn [with_cl cl] in *.
    rewrite (pbind_ret _ _ _ tt (set_ses l2 t2)) by (unfold on_ses, pzoom; by rewrite El2).
    unfold pmodify. rewrite (pbind_ret _ _ _ tt (set_outstanding 0 (set_ses l2 t2)) eq_refl).
    destruct reconnects; [|done]. eexists. split; [reflexivity|]. split.
    { apply (inv_quiet _ _ I2); try done; [apply (inv_unlocked _ I2)|cbn; set_solver|apply (inv_live _ I2)]. }
    split; [done|]. split; [done|]. split; [done|]. split; [done|].
    cbn. intros id a r K1 K2 K3. specialize (Hs id a K1). assert (exists r0, requests (cl g) !! a = Some r0 /\ kind r0 = kind r) as (r0 & Hr0 & Hk0).
    { specialize (Hk a). rewrite K2 in Hk. cbn in Hk. destruct (requests (cl g) !! a) as [r0|]; [|done]. exists r0. split; [done|]. cbn in Hk. congruence. }
    unfold kind in Hk0. injection Hk0 as _ Hk0 _. destruct (Hall id a r0) as [_ Hn]; [by apply Htl|done|congruence|]. congruence.
  - left. destruct K as (K1 & Hk & id & a & r & K2 & K3 & K4). split.
    + exists id, a, r. split; [by apply Htl|done].
    + eexists. split; [reflexivity|done].
Qed.

Lemma act_lose g c : inv g -> safe_step (act reconnects max_conns (Lose c) g).
Proof using All.
  intros I. destruct (hands g !! c) as [h|] eqn:Hh; [cbn [act]; by rewrite Hh|].
  destruct (decide (c < max_conns)%nat) as [Hc|Hc].
  - destruct (lose_cases g c I Hh Hc) as [(_ & g' & -> & Hl & Hpc & Hha & Hk)|(_ & K)].
    2: { revert K. destruct reconnects; [|by intros ->]. intros (g' & -> & I' & _). by left. }
    assert (forall a, is_Some (requests (cl g) !! a) -> is_Some (requests (cl g') !! a)) as Hkeep.
    { intros a [r Hr]. specialize (Hk a). rewrite Hr in Hk. by destruct (requests (cl g') !! a). }
    right. split; [done|]. rewrite Hha, Hpc. split.
    + intros c' a ty b K. apply Hkeep. destruct (hand_request g c' a ty b I K) as (r & ->). by eexists.
    + intros a p K1 K2. apply Hkeep. by apply (inv_needs g a p).
  - cbn [act]. rewrite Hh, (inv_unlocked _ I), (proj2 (Nat.ltb_ge _ _)) by lia. done.
Qed.

(** A request is given up: it stays in the table for the thread of the connection. *)
Lemma act_giveup g a : inv g -> safe_step (act reconnects max_conns (GiveUp a) g).
Proof using All.
  intros I. cbn [act]. destruct (pcs g !! a) as [[| | | | | |]|] eqn:Ep; try done. destruct (locked (cl g)) eqn:El; [done|].
  pose proof (inv_good _ I a) as G. unfold good in G. rewrite Ep in G.
  destruct (requests (cl g) !! a) as [r|] eqn:Er; [|tauto]. destruct G as (G1 & Gc & Gw & G2).
  unfold request_give_up.
  assert (req_get a (cl g) = Ret (r, cl g)) as Eg by (unfold req_get; by rewrite Er).
  destruct (reqtab (cl g) !! rq_id r) as [x|] eqn:Et.
  - assert (x = a) as -> by (apply (table_owner g (rq_id r) a x I); [left; by exists r|done]).
    destruct (table_pending g _ a r I Et Er) as (_ & _ & Gp & Gh & _).
    set (t1 := set_requests (<[a := set_want_reply 0 r]> (requests (cl g))) (cl g)).
    assert (requests t1 !! a = Some (set_want_reply 0 r)) as Er1 by (cbn; by rewrite lookup_insert_eq).
    rewrite (pbind_ret _ _ _ _ _ Eg). unfold pget. rewrite (pbind_ret _ _ _ (cl g) (cl g) eq_refl), Et.
    rewrite (pbind_ret _ _ _ tt t1) by (unfold req_upd; by rewrite Er).
    rewrite (pbind_ret _ _ _ (set_want_reply 0 r) t1) by (unfold req_get; by rewrite Er1). left.
    eapply (thread_step g _ a I); try done.
    + apply I.
    + intros y Hy. cbn. by rewrite lookup_insert_ne.
    + intros y Hy. by rewrite lookup_goto, decide_False.
    + left. by eexists.
    + cbn. rewrite lookup_insert_eq. intros r' [= <-]. by exists r.
    + intros p id. by rewrite lookup_goto, decide_True.
    + unfold good. rewrite lookup_goto, decide_True by done. cbn [goto cl]. rewrite Er1. split; [done|]. split; [done|]. by left.
  - rewrite (pbind_ret _ _ _ _ _ Eg). unfold pget. rewrite (pbind_ret _ _ _ (cl g) (cl g) eq_refl), Et.
    rewrite (pbind_ret _ _ _ tt (cl g) eq_refl), (pbind_ret _ _ _ _ _ Eg).
    unfold pret, mbind, outcome_bind. rewrite (proj2 (Z.eqb_neq _ _) Gw). left. apply (inv_quiet g); try done; [apply I| |apply I].
    cbn. apply map_eq. intros y. destruct (decide (y = a)) as [->|Hy]; [by rewrite lookup_partial_alter_eq|by rewrite lookup_partial_alter_ne].
Qed.

(** A request that could not be sent is forgotten. *)
Lemma act_drop g a : inv g -> safe_step (act reconnects max_conns (Drop a) g).
Proof using All.
  intros I. cbn [act]. destruct (pcs g !! a) as [[| | | | | |]|] eqn:Ep; try done. left.
  pose proof (inv_good _ I a) as G. unfold good in G. rewrite Ep in G.
  destruct (requests (cl g) !! a) as [r|] eqn:Er; [|tauto]. destruct G as (G1 & Gc & Gl).
  eapply (thread_step g _ a I); try done.
  - apply I.
  - apply I.
  - intros y Hy. by rewrite lookup_goto, decide_False.
  - left. by eexists.
  - intros r' Er'. by exists r'.
  - intros p id. by rewrite lookup_goto, decide_True.
  - unfold good. rewrite lookup_goto, decide_True by done. cbn [goto cl]. rewrite Er. split; [done|]. split; [done|]. by right.
Qed.

Lemma act_update g e : inv g -> permitted (Update e) g -> safe_step (act reconnects max_conns (Update e) g).
Proof using All. intros I Hper. left. apply (inv_quiet g); try done; apply I. Qed.

Lemma act_inv x g : inv g -> permitted x g -> safe_step (act reconnects max_conns x g).
Proof using All.
  intros I Hper. destruct x; eauto using act_begin, act_enter, act_wire, act_return, act_break, act_abort, act_receive,
    act_deliver, act_lose, act_sleep, act_finish, act_giveup, act_drop, act_update.
Qed.

Lemma deliver_posts t a r ty b : requests t !! a = Some r -> want_reply r <> 0 ->
  deliver a ty b t = Ret (tt, set_requests (<[a := post (set_reply ty b r)]> (requests t)) t).
Proof.
  intros Hr Hw. unfold deliver. rewrite (pbind_ret _ _ _ tt (set_requests (<[a := set_reply ty b r]> (requests t)) t))
    by (unfold req_upd; by rewrite Hr).
  set (t1 := set_requests _ t). assert (requests t1 !! a = Some (set_reply ty b r)) as H1' by (cbn; by rewrite lookup_insert_eq).
  rewrite (pbind_ret _ _ _ (set_reply ty b r) t1) by (unfold req_get; by rewrite H1').
  cbn [set_reply want_reply]. rewrite (proj2 (Z.eqb_neq _ _) Hw). cbn [negb]. unfold req_upd. rewrite H1'. cbn.
  by rewrite insert_insert_eq.
Qed.

(** Once the lock is taken for ever, a step is the end of a write, or the start of a
    wait, or a reply for a thread that waits for it, or has no part in the table. *)
Lemma act_stuck x g : stuck g ->
  match act reconnects max_conns x g with
  | Ret (Some g') => stuck g' /\ match x with Wire _ | Return _ | Deliver _ | Sleep _ | Drop _ | Update _ => True | _ => False end
  | Ret None => True
  | _ => False
  end.
Proof using All.
  intros (Hl & Hh & Hn). destruct x as [c len f e want|a|a|a|a|a|c id ty body|c|c|a|a|a|a ty ex|e]; cbn [act]; rewrite ?Hl; cbn [orb].
  - done.
  - by destruct (pcs g !! a) as [[]|].
  - destruct (pcs g !! a) as [[|c id want| | | | |]|] eqn:Ep; try done. split; [|done]. split; [done|]. split; [done|].
    cbn. intros x p. destruct (decide (x = a)) as [->|Hx]; [|rewrite lookup_insert_ne by done; apply Hn].
    rewrite lookup_insert_eq. intros [= <-]. by apply (Hn a _ Ep).
  - destruct (pcs g !! a) as [[| |want| | | |]|] eqn:Ep; try done. split; [|done]. split; [done|]. split; [done|].
    intros x p. rewrite lookup_goto. cbn [goto cl]. destruct (decide (x = a)) as [->|Hx]; [|apply Hn].
    destruct (want =? 0) eqn:Ew; [done|]. intros _ _. apply (Hn a _ Ep). cbn. by rewrite Ew.
  - by destruct (pcs g !! a) as [[]|].
  - by destruct (pcs g !! a) as [[]|].
  - by destruct (hands g !! c).
  - destruct (hands g !! c) as [[[a ty] b]|] eqn:Ec; [|done]. destruct (Hh _ _ _ _ Ec) as [r Hr]. rewrite Hr.
    cbn [deref]. unfold mbind, outcome_bind. cbn [andb]. destruct (Z.eqb_spec (want_reply r) 0) as [|Hw]; [done|].
    rewrite (deliver_posts _ _ r) by done. split; [|done].
    assert (forall x, is_Some (requests (cl g) !! x) -> is_Some (<[a := post (set_reply ty b r)]> (requests (cl g)) !! x)) as Hk.
    { intros x K. destruct (decide (x = a)) as [->|Hne]; [rewrite lookup_insert_eq; by eexists|by rewrite lookup_insert_ne]. }
    split; [done|]. cbn. split.
    + intros c' a' ty' b' K. apply lookup_delete_Some in K as [_ K]. by eapply Hk, Hh.
    + intros x p K1 K2. by eapply Hk, Hn.
  - by destruct (hands g !! c).
  - destruct (pcs g !! a) as [[]|] eqn:Ep; try done. destruct (Hn a _ Ep eq_refl) as [r Hr]. rewrite Hr. cbn [deref].
    unfold mbind, outcome_bind. destruct (_ =? _); [|done]. split; [|done]. split; [done|]. split; [done|].
    intros x p. rewrite lookup_goto. cbn [goto cl]. destruct (decide (x = a)) as [->|Hx]; [|apply Hn]. intros _ _. by eexists.
  - by destruct (pcs g !! a) as [[]|].
  - destruct (pcs g !! a) as [[]|] eqn:Ep; try done. split; [|done]. split; [done|]. split; [done|].
    intros x p. rewrite lookup_goto. cbn [goto cl]. destruct (decide (x = a)) as [->|Hx]; [done|apply Hn].
  - destruct (pcs g !! a) as [[]|] eqn:Ep; try done; by destruct (Hn a _ Ep eq_refl) as [r ->].
  - done.
Qed.

Lemma initial_inv g : initial g -> t_inv (ses (cl g)) -> inv g.
Proof.
  intros (Et & Er & El & Ep & Eh & Ew) Hs. split; try done.
  - intros a. unfold good. rewrite Er, lookup_empty. split; [|by rewrite Ep, lookup_empty].
    split; [intros id; by rewrite Et, lookup_empty|]. intros (c & ty & b & K). by rewrite Eh, lookup_empty in K.
  - intros a. rewrite Er, Ep, !lookup_empty. by intros [[]|[]].
  - intros a a' id [(r & K & _)|(p & K & _)]; [by rewrite Er, lookup_empty in K|by rewrite Ep, lookup_empty in K].
  - intros c c' a ty ty' b b' K. by rewrite Eh, lookup_empty in K.
  - intros c a ty b r K. by rewrite Eh, lookup_empty in K.
  - intros c id a r K. rewrite Ew in K. set_solver.
  - intros c id a p K. rewrite Ew in K. set_solver.
  - intros d (a & r & K & _). by rewrite Er, lookup_empty in K.
Qed.

Lemma reachable_sound g0 g : inv g0 \/ stuck g0 -> reachable reconnects max_conns g0 g -> inv g \/ stuck g.
Proof using All.
  intros Hi. induction 1 as [|g x g' Hr IH Hper E']; [done|]. destruct IH as [I|Hs].
  - pose proof (act_inv x g I Hper) as K. by rewrite E' in K.
  - pose proof (act_stuck x g Hs) as K. rewrite E' in K. right. apply K.
Qed.

Lemma reachable_inv g0 g : initial g0 -> t_inv (ses (cl g0)) -> reachable reconnects max_conns g0 g ->
  locked (cl g) = false -> inv g.
Proof using All.
  intros Hi Hs Hr Hl. destruct (reachable_sound g0 g (or_introl (initial_inv g0 Hi Hs)) Hr) as [I|[Hk _]]; [done|congruence].
Qed.

(** C12: Requests are memory-safe under every interleaving.  Senders, the threads that
    receive replies, errors of sending, requests given up or dropped, lost connections
    and repeated connecting may take turns in any order: no step uses a request that has
    been freed or frees one twice, and no end function finds its data gone.  This holds
    as long as the server answers only requests it has got, an identifier does not come
    round while it is in use, and the threads that own the data of end functions keep it
    until they have run. *)
Theorem requests_memory_safe g0 g x : initial g0 -> t_inv (ses (cl g0)) -> reachable reconnects max_conns g0 g ->
  permitted x g -> act reconnects max_conns x g <> Undef.
Proof using All.
  intros Hi Hs Hr Hper. destruct (reachable_sound g0 g (or_introl (initial_inv g0 Hi Hs)) Hr) as [I|Hk].
  - pose proof (act_inv x g I Hper) as K. by destruct (act reconnects max_conns x g) as [[]| |].
  - pose proof (act_stuck x g Hk) as K. by destruct (act reconnects max_conns x g) as [[]| |].
Qed.

(** C4: No request is lost, and each gets its own answer.  While no thread has taken the
    lock for ever, a thread that waits for a reply waits for a request that exists, and
    the request is in the table under its identifier, or a connection's thread has just
    taken it from there, or the wait is over: with an error set, or with a message the
    server sent for this identifier; and then a thread that sleeps has been woken.  A
    request that could not be sent carries an error.  A request that no thread has any
    more, because its answer goes to an end function or because it was given up, is
    attended by nobody ([want_reply] is 0) and in the table or in the hands of a
    connection's thread.  The one other case is a request whose sender dropped it when
    it could not be sent, as [sftp_readdir_async] does: nothing refers to it. *)
Theorem requests_accounted g0 g a r : initial g0 -> t_inv (ses (cl g0)) -> reachable reconnects max_conns g0 g ->
  locked (cl g) = false ->
  (pcs g !! a = Some Waiting \/ pcs g !! a = Some Asleep \/ pcs g !! a = Some Unsent -> is_Some (requests (cl g) !! a)) /\
  (requests (cl g) !! a = Some r ->
   match pcs g !! a with
   | Some Waiting => in_table g a r \/ in_hand g a \/ rq_error r <> 0 \/ own_answer g r
   | Some Asleep => in_table g a r \/ in_hand g a \/ (0 < ready r)%nat /\ (rq_error r <> 0 \/ own_answer g r)
   | Some Unsent => rq_error r <> 0
   | None => want_reply r = 0 /\ (in_table g a r \/ in_hand g a) \/ leaked g a r
   | _ => True
   end).
Proof using All.
  intros Hi Hs Hr Hl. pose proof (reachable_inv g0 g Hi Hs Hr Hl) as I.
  split; [intros [K|[K|K]]; by eapply (inv_needs g a)|].
  intros Hra. pose proof (inv_good _ I a) as G. unfold good in G. rewrite Hra in G. destruct G as (_ & _ & G).
  destruct (pcs g !! a) as [[]|]; [done..| | |done| |].
  - destruct G as (_ & [(_ & [[? _]|[_ ?]])|(_ & _ & _ & [?|(? & ? & ?)])]); auto.
  - destruct G as (_ & [(_ & [[? _]|[_ ?]])|((_ & _ & _ & [?|(? & ? & ?)]) & ?)]); auto.
  - apply G.
  - destruct G as [(Hw & _ & [[? _]|[_ ?]])|?]; auto.
Qed.

(** C19: Losing a connection wakes its threads, when every request of the connection is
    waited for.  With the option "reconnect" set and no request of the connection in the
    table that nobody waits for (reads, writes and requests given up are such), the
    thread of a connection that breaks completes its work and gives the lock back, and
    every thread that sleeps on a reply over that connection can go on.  Without
    "reconnect" the process ends.  With a request nobody waits for, all threads stop
    instead ([connection_loss_deadlocks]). *)
Theorem connection_loss_wakes g0 g c : initial g0 -> t_inv (ses (cl g0)) -> reachable reconnects max_conns g0 g ->
  locked (cl g) = false -> hands g !! c = None -> (c < max_conns)%nat -> ~ unattended g c ->
  if reconnects then
    exists g', act reconnects max_conns (Lose c) g = Ret (Some g') /\ locked (cl g') = false /\
      forall a r type expect, pcs g' !! a = Some Asleep -> requests (cl g') !! a = Some r -> rq_conn r = c ->
        act reconnects max_conns (Finish a type expect) g' <> Ret None
  else act reconnects max_conns (Lose c) g = Exit.
Proof using All.
  intros Hi Hs Hr Hl Hh Hc Hu. pose proof (reachable_inv g0 g Hi Hs Hr Hl) as I.
  destruct (lose_cases g c I Hh Hc) as [[K _]|[_ K]]; [done|]. clear Hr. destruct reconnects; [|done].
  destruct K as (g' & E' & I' & Hp & Hha & _ & Hk & Htab).
  exists g'. split; [done|]. split; [apply I'|]. intros a r type expect Hpa Hra Hrc. cbn [act]. rewrite Hpa, Hra.
  cbn [deref]. unfold mbind at 1, outcome_bind at 1. rewrite (inv_unlocked _ I'). cbn [orb].
  pose proof (inv_good _ I' a) as G. unfold good in G. rewrite Hpa, Hra in G. destruct G as (_ & _ & _ & [(_ & [[K _]|[_ K]])|Hf]).
  - destruct (Htab _ _ _ K Hra Hrc).
  - destruct K as (c' & ty & b & K). destruct (inv_answer _ I' _ _ _ _ _ K Hra) as [<- _]. rewrite Hrc, Hha in K. congruence.
  - destruct Hf as (_ & Hf). destruct (ready r =? 0)%nat eqn:Eb; [bools; lia|].
    destruct (request_finish a type expect (cl g')) as [[? ?]| |]; by intros [=].
Qed.

(** C16: Losing a connection while data is on its way stops the client for good.  When a
    request of the connection that nobody waits for is in the table, as there is for
    each read and write under way, the thread of the connection takes the lock a second
    time in [clean_req]: from then on no thread gets the result of a request or makes a
    new one, whatever else happens. *)
Theorem connection_loss_deadlocks g0 g c : initial g0 -> t_inv (ses (cl g0)) -> reachable reconnects max_conns g0 g ->
  locked (cl g) = false -> hands g !! c = None -> (c < max_conns)%nat -> unattended g c ->
  exists g', act reconnects max_conns (Lose c) g = Ret (Some g') /\
    forall g'', steps_to reconnects max_conns g' g'' -> locked (cl g'') = true /\
      (forall a type expect, act reconnects max_conns (Finish a type expect) g'' = Ret None) /\
      (forall c len f e want, act reconnects max_conns (Begin c len f e want) g'' = Ret None).
Proof using All.
  intros Hi Hs Hr Hl Hh Hc Hu. pose proof (reachable_inv g0 g Hi Hs Hr Hl) as I.
  destruct (lose_cases g c I Hh Hc) as [(_ & g' & E' & Hl' & _)|[K _]]; [|done]. exists g'. split; [done|].
  assert (stuck g') as Hst.
  { pose proof (act_inv (Lose c) g I Logic.I) as K. rewrite E' in K. destruct K as [K|K]; [|done]. pose proof (inv_unlocked _ K). congruence. }
  intros g'' Hr''. assert (stuck g'') as Hst''.
  { clear -Hst Hr'' TransportSafe0 CallbacksSafe0 H2 H0. induction Hr'' as [|g1 x g2 _ IH E']; [done|].
    pose proof (act_stuck x g1 IH) as K. rewrite E' in K. apply K. }
  split; [apply Hst''|]. split.
  - intros a type expect. pose proof (act_stuck (Finish a type expect) g'' Hst'') as K.
    destruct (act reconnects max_conns (Finish a type expect) g'') as [[]| |]; try done. by destruct K as [_ []].
  - intros c' len f e want. cbn [act]. by rewrite (proj1 Hst'').
Qed.
End Invariant.

(** ** A request and its answer *)

(** What the caller gets for an answer of type [ty]. *)
Definition answer_result (type expect_type ty : Z) (body : list ascii) : Z * option buffer :=
  if negb (ty =? expect_type) && negb (ty =? SSH_FXP_STATUS) then (- EIO, None)
  else if ty =? SSH_FXP_STATUS then
    (if (4 <=? length body)%nat then status_error type expect_type (be_val (take 4 body)) else - EIO, None)
  else (0, Some (reply_buf body)).

Section Answers.
Context `{HeapLaws} `{!HeapPlenty} {D : Type}.

Lemma reply_result_answer type expect (r : request D) body :
  reply r = answer_buf (rq_id r) body -> Z.of_nat (length body) < MAX_REPLY_LEN ->
  reply_result type expect r = Ret (answer_result type expect (reply_type r) body).
Proof using All.
  intros Hr Hl. change MAX_REPLY_LEN with 131072 in Hl. unfold reply_result, answer_result. rewrite Hr. unfold answer_buf.
  set (l := be_bytes 4 (rq_id r) ++ body). assert (length l = 4 + length body)%nat as Hlen by (unfold l; by rewrite length_app, length_be_bytes).
  assert (drop 4 l = body) as Hd by (unfold l; rewrite <- (length_be_bytes 4 (rq_id r)) at 1; by rewrite drop_app_length).
  destruct (_ && _); [done|]. destruct (reply_type r =? SSH_FXP_STATUS).
  - rewrite get_uint32_at by lia. rewrite Hd, Hlen. replace (4 + 4 <=? 4 + length body)%nat with (4 <=? length body)%nat; [by destruct (_ <=? _)%nat|].
    destruct (Nat.leb_spec 4 (length body)), (Nat.leb_spec (4 + 4) (4 + length body)); lia || done.
  - cbn [reply_at buf_size buf_len]. rewrite Hlen, (wrap_small 64) by lia.
    replace (Z.of_nat (4 + length body) - Z.of_nat 4) with (Z.of_nat (length body)) by lia.
    assert (forall n, n = length body -> buf_get_mem (Z.of_nat n) (reply_at l 4) = Ret (Some body, reply_at l (4 + n))) as Hg.
    { intros n ->. rewrite get_mem_at by lia. rewrite Nat2Z.id, Hd, Hlen, Nat.leb_refl. by rewrite firstn_all. }
    destruct body as [|b body].
    + change (buf_init (Z.of_nat (length (@nil ascii)))) with (@Ret buffer (Buffer None 0 0)). unfold mbind, outcome_bind. cbn [buf_size].
      pose proof (Hg 0%nat eq_refl) as Hg0. change (Z.of_nat 0) with 0 in Hg0. by rewrite Hg0.
    + destruct (buf_init_block (Z.of_nat (length (b :: body)))) as (m & -> & Hm); [cbn; lia|].
      unfold mbind, outcome_bind. cbn [buf_size buf_p buf_len]. rewrite Hg by done. unfold default, id, mem_store.
      rewrite (proj2 (Z.leb_le 0 0)), (proj2 (Z.leb_le _ _)) by lia. cbn [andb]. do 3 f_equal. unfold splice. cbn [Z.to_nat].
      rewrite take_0, app_nil_l, drop_ge by lia. by rewrite app_nil_r.
Qed.
End Answers.

Section Roundtrip.
Context `{HeapLaws} `{!HeapPlenty} {L D E : Type} `{!Transport L} `{!Callbacks D E} `{!TableOrder}.
Context (reconnects : bool) (patience : nat).
Implicit Types (t : client L D E).

(** The request that an answer belongs to has been found. *)
Definition taken t (l : L) (r : request D) : client L D E :=
  set_reqtab (delete (rq_id r) (reqtab t)) (set_outstanding (u32 (outstanding_len t - rq_len r)) (set_ses l t)).

Lemma answer_taken t c a r ty body l :
  t_read c (ses t) = Ret (Some (ty, reply_at (be_bytes 4 (rq_id r) ++ body) 0), l) -> 0 <= rq_id r < 2 ^ 32 ->
  Z.of_nat (length body) < MAX_REPLY_LEN -> reqtab t !! rq_id r = Some a -> requests t !! a = Some r ->
  process_one_request c t = pbind (deliver a ty (answer_buf (rq_id r) body)) (fun _ => pret 0) (taken t l r).
Proof using All.
  intros Hrd Hid Hlen Ht Hr. change MAX_REPLY_LEN with 131072 in Hlen.
  unfold process_one_request. rewrite (pbind_ret _ _ _ _ (set_ses l t)) by (unfold on_ses, pzoom; by rewrite Hrd). cbv iota.
  pose proof (decodes_uint32 (rq_id r) Hid [] body) as Hd. rewrite app_nil_l, length_be_bytes in Hd.
  change (length (@nil ascii)) with 0%nat in Hd. unfold plift. rewrite (Hd ltac:(rewrite length_app, length_be_bytes; lia)).
  rewrite (pbind_ret _ _ _ _ (set_ses l t) eq_refl). cbv beta iota.
  assert (take_request (rq_id r) (set_ses l t) = Ret (Some a, taken t l r)) as Et.
  { unfold take_request, pbind, pget, req_get, pmodify. cbn [reqtab set_ses requests]. rewrite Ht. cbn [requests set_ses]. by rewrite Hr. }
  by rewrite (pbind_ret _ _ _ _ _ Et).
Qed.

(** The thread of the connection gets an answer while the sender waits. *)
Lemma answer_step t c a r ty body l : locked t = false ->
  t_read c (ses t) = Ret (Some (ty, reply_at (be_bytes 4 (rq_id r) ++ body) 0), l) -> 0 <= rq_id r < 2 ^ 32 ->
  Z.of_nat (length body) < MAX_REPLY_LEN -> reqtab t !! rq_id r = Some a -> requests t !! a = Some r -> want_reply r <> 0 ->
  process_requests_step reconnects c t =
    Ret (tt, Client l (delete (rq_id r) (reqtab t)) (<[a := post (set_reply ty (answer_buf (rq_id r) body) r)]> (requests t))
      (next_req t) (u32 (outstanding_len t - rq_len r)) (max_outstanding_len t) (locked t) (ext t)).
Proof using All.
  intros Hlk Hrd Hid Hlen Ht Hr Hw. unfold process_requests_step, pbind at 1. rewrite (answer_taken t c a r ty body l) by done.
  unfold pbind. by rewrite (deliver_posts (taken t l r) a r).
Qed.

(** ... or the answer to a request that has an end function and no sender waiting. *)
Lemma answer_ends t c a r d ty body l l' e :
  t_read c (ses t) = Ret (Some (ty, reply_at (be_bytes 4 (rq_id r) ++ body) 0), l) -> 0 <= rq_id r < 2 ^ 32 ->
  Z.of_nat (length body) < MAX_REPLY_LEN -> reqtab t !! rq_id r = Some a -> requests t !! a = Some r -> want_reply r = 0 ->
  rq_end r = Some d -> end_func d a (set_reply ty (answer_buf (rq_id r) body) r) (ext t) = Ret e ->
  t_count (rq_conn r) (-1) l = Ret (tt, l') ->
  process_requests_step reconnects c t =
    Ret (tt, Client l' (delete (rq_id r) (reqtab t)) (delete a (requests t))
      (next_req t) (u32 (outstanding_len t - rq_len r)) (max_outstanding_len t) (locked t) e).
Proof using All.
  intros Hrd Hid Hlen Ht Hr Hw Hd He Hc. unfold process_requests_step, pbind at 1. rewrite (answer_taken t c a r ty body l) by done.
  set (r1 := set_reply ty (answer_buf (rq_id r) body) r). set (t1 := set_requests (<[a := r1]> (requests t)) (taken t l r)).
  assert (req_upd a (set_reply ty (answer_buf (rq_id r) body)) (taken t l r) = Ret (tt, t1)) as E1
    by (unfold req_upd; cbn [requests taken set_reqtab set_outstanding set_ses]; by rewrite Hr).
  assert (forall e, req_get a (set_ext e t1) = Ret (r1, set_ext e t1)) as E2
    by (intros e0; unfold req_get; cbn [requests t1 set_ext set_requests]; by rewrite lookup_insert_eq).
  assert (run_end a t1 = Ret (tt, set_ext e t1)) as E3.
  { unfold run_end. change t1 with (set_ext (ext t1) t1) at 1. rewrite (pbind_ret _ _ _ _ _ (E2 (ext t1))). cbn [rq_end r1 set_reply]. rewrite Hd.
    change (ext (set_ext (ext t1) t1)) with (ext t). fold r1 in He. by rewrite He. }
  assert (request_free a (set_ext e t1) = Ret (tt, set_requests (delete a (requests t1)) (set_ses l' (set_ext e t1)))) as E4.
  { unfold request_free. rewrite (pbind_ret _ _ _ _ _ (E2 e)). rewrite (pbind_ret _ _ _ tt (set_ses l' (set_ext e t1))); [done|].
    unfold on_ses, pzoom. change (ses (set_ext e t1)) with l. cbn [rq_conn r1 set_reply]. by rewrite Hc. }
  assert (deliver a ty (answer_buf (rq_id r) body) (taken t l r) = Ret (tt, set_requests (delete a (requests t1)) (set_ses l' (set_ext e t1)))) as E5.
  { unfold deliver. rewrite (pbind_ret _ _ _ _ _ E1). change t1 with (set_ext (ext t1) t1) at 1. rewrite (pbind_ret _ _ _ _ _ (E2 (ext t1))).
    cbn [want_reply r1 set_reply]. rewrite Hw. cbn [Z.eqb negb]. change (set_ext (ext t1) t1) with t1. by rewrite (pbind_ret _ _ _ _ _ E3). }
  rewrite (pbind_ret _ _ _ _ _ E5). unfold pret, t1, set_requests, set_ses, set_ext. cbn.
  by rewrite delete_insert_eq.
Qed.

(** A connection with a thread sends the request and gets the answer to it. *)
Record exchanges (l l' : L) (c : nat) (type id : Z) (payload : list ascii) (ty : Z) (body : list ascii) : Prop := Exchanges {
  ex_link : exists l1 l2 l3 l4 l5, t_get_id l = Ret (id, l1) /\ t_count c 1 l1 = Ret (tt, l2) /\ t_start c l2 = Ret (0, l3) /\
    t_send c type id [payload] l3 = Ret (0, l4) /\
    t_read c l4 = Ret (Some (ty, reply_at (be_bytes 4 id ++ body) 0), l5) /\ t_count c (-1) l5 = Ret (tt, l');
  ex_id : 0 <= id < 2 ^ 32;
  ex_body : Z.of_nat (length body) < MAX_REPLY_LEN }.

(** There is room for the request. *)
Definition fits t (len : nat) : Prop :=
  0 <= outstanding_len t /\ outstanding_len t + Z.of_nat len + 9 <= max_outstanding_len t /\ max_outstanding_len t < 2 ^ 32.

Definition new_req (want id : Z) (end_ : option D) (len : nat) (c : nat) : request D :=
  Request want end_ id (Z.of_nat len + 9) c false 0 (Buffer None 0 0) 0 0.

(** The client with one request more. *)
Definition with_req t (l : L) (tab : gmap Z Z) r (more : Z) (e : E) : client L D E :=
  Client l tab (<[next_req t := r]> (requests t)) (next_req t + 1) (outstanding_len t + more) (max_outstanding_len t) false e.
Definition begun (f : option (Z -> E -> E)) t : E := match f with Some f => f (next_req t) (ext t) | None => ext t end.

Lemma request_new_ret t c want id iov f end_ l1 l2 l3 : locked t = false -> fits t (length (concat iov)) ->
  t_get_id (ses t) = Ret (id, l1) -> t_count c 1 l1 = Ret (tt, l2) -> t_start c l2 = Ret (0, l3) ->
  request_new c (iov_length iov) f end_ want t =
    Ret ((next_req t, id, 0), with_req t l3 (reqtab t) (new_req want id end_ (length (concat iov)) c)
                                (Z.of_nat (length (concat iov)) + 9) (begun f t)).
Proof using All.
  intros Hlk (Ho1 & Ho2 & Ho3) E1 E2 E3.
  unfold request_new, pbind, pget, pmodify, on_ses, pzoom, req_upd.
  assert (forall x, match f with Some f => set_ext (f (next_req t) (ext (add_request x t))) (add_request x t) | None => add_request x t end
    = set_ext (begun f t) (add_request x t)) as Eb by (intros x; by destruct f). rewrite Eb. clear Eb.
  cbn [ses add_request requests set_ext]. rewrite E1.
  cbn [requests set_ses set_ext add_request]. rewrite lookup_insert_eq. cbn [deref ses set_requests set_ses]. unfold mbind, outcome_bind.
  cbn [ses set_requests set_ses]. rewrite E2. cbn [ses set_ses]. rewrite E3. cbn [negb Z.eqb requests set_ses set_requests].
  rewrite !insert_insert_eq, lookup_insert_eq. cbn [deref]. rewrite (iov_length_concat iov) by lia.
  rewrite (wrap_small 64) by lia. unfold pret, set_outstanding.
  cbn [outstanding_len set_requests set_ses set_ext add_request]. rewrite (wrap_small 32) by lia. rewrite insert_insert_eq.
  cbn. by rewrite Hlk.
Qed.

Lemma request_send_ret t c type want id iov f end_ l1 l2 l3 l4 : locked t = false -> fits t (length (concat iov)) ->
  t_get_id (ses t) = Ret (id, l1) -> t_count c 1 l1 = Ret (tt, l2) -> t_start c l2 = Ret (0, l3) ->
  t_send c type id iov l3 = Ret (0, l4) ->
  sftp_request_send reconnects patience c type iov f end_ want t =
    Ret (Some (0, if want =? 0 then None else Some (next_req t)),
         with_req t l4 (<[id := next_req t]> (reqtab t)) (new_req want id end_ (length (concat iov)) c)
           (Z.of_nat (length (concat iov)) + 9) (begun f t)).
Proof using All.
  intros Hlk Hfit E1 E2 E3 E4. unfold sftp_request_send, pget.
  rewrite (pbind_ret _ _ _ t t eq_refl), Hlk, (pbind_ret _ _ _ _ _ (request_new_ret t c want id iov f end_ l1 l2 l3 Hlk Hfit E1 E2 E3)).
  cbn [negb Z.eqb]. set (t1 := with_req t l3 _ _ _ _). destruct Hfit as (Ho1 & Ho2 & Ho3).
  assert (wait_until reconnects patience c has_room t1 = Ret (true, t1)) as Ew.
  { destruct patience; cbn [wait_until]; unfold pget; rewrite (pbind_ret _ _ _ t1 t1 eq_refl); cbn [locked with_req t1];
      unfold has_room; cbn [outstanding_len max_outstanding_len with_req t1]; rewrite Z.gtb_ltb, (proj2 (Z.ltb_ge _ _)) by lia; done. }
  rewrite (pbind_ret _ _ _ _ _ Ew). cbn [negb]. unfold request_insert, pmodify.
  rewrite (pbind_ret _ _ _ tt (set_reqtab (<[id := next_req t]> (reqtab t1)) t1) eq_refl).
  rewrite (pbind_ret _ _ _ 0 (set_ses l4 (set_reqtab (<[id := next_req t]> (reqtab t1)) t1)))
    by (unfold on_ses, pzoom; cbn [ses set_reqtab with_req t1]; by rewrite E4).
  done.
Qed.

Lemma request_finish_ret t a r type expect body l : requests t !! a = Some r -> rq_end r = None -> rq_error r = 0 ->
  reply r = answer_buf (rq_id r) body -> Z.of_nat (length body) < MAX_REPLY_LEN -> t_count (rq_conn r) (-1) (ses t) = Ret (tt, l) ->
  request_finish a type expect t =
    Ret (answer_result type expect (reply_type r) body, set_requests (delete a (requests t)) (set_ses l t)).
Proof using All.
  intros Hr Hen Her Hre Hb E1. unfold request_finish. assert (req_get a t = Ret (r, t)) as Eg by (unfold req_get; by rewrite Hr).
  rewrite (pbind_ret _ _ _ _ _ Eg), Her. cbn [negb Z.eqb]. unfold plift. rewrite (reply_result_answer _ _ r body Hre Hb).
  rewrite (pbind_ret _ _ _ _ t eq_refl). rewrite (pbind_ret _ _ _ tt t) by (unfold run_end; rewrite (pbind_ret _ _ _ _ _ Eg), Hen; done).
  rewrite (pbind_ret _ _ _ tt (set_requests (delete a (requests t)) (set_ses l t))); [done|].
  unfold request_free. rewrite (pbind_ret _ _ _ _ _ Eg). rewrite (pbind_ret _ _ _ tt (set_ses l t)); [done|].
  unfold on_ses, pzoom. by rewrite E1.
Qed.

Lemma request_roundtrip t c type buf payload expect l id ty body : locked t = false -> expect <> 0 ->
  buf_to_iov buf = Ret payload -> fits t (length payload) -> (0 < patience)%nat ->
  requests t !! next_req t = None -> reqtab t !! id = None ->
  exchanges (ses t) l c type id payload ty body ->
  sftp_request reconnects patience c type buf expect t =
    Ret (Some (answer_result type expect ty body),
         Client l (reqtab t) (requests t) (next_req t + 1) (outstanding_len t) (max_outstanding_len t) false (ext t)).
Proof using All.
  intros Hlk Hex Hbuf Hfit Hpat Hfresh Hid [(l1 & l2 & l3 & l4 & l5 & E1 & E2 & E3 & E4 & E5 & E6) Hidr Hbody].
  unfold sftp_request, plift. rewrite Hbuf, (pbind_ret _ _ _ _ t eq_refl). unfold sftp_request_iov.
  assert (concat [payload] = payload) as Hcat by apply app_nil_r.
  rewrite (pbind_ret _ _ _ _ _ (request_send_ret t c type expect id [payload] None None l1 l2 l3 l4 Hlk ltac:(by rewrite Hcat) E1 E2 E3 E4)).
  rewrite Hcat. cbv beta iota. rewrite (proj2 (Z.eqb_neq _ _) Hex). destruct Hfit as (Ho1 & Ho2 & Ho3).
  set (a := next_req t). set (r := new_req expect id None (length payload) c). set (t2 := with_req t l4 _ _ _ _).
  set (r' := post (set_reply ty (answer_buf id body) r)). set (t3 := with_req t l5 (reqtab t) r' 0 (ext t)).
  assert (requests t2 !! a = Some r) as Hr2 by (cbn; by rewrite lookup_insert_eq).
  assert (process_requests_step reconnects c t2 = Ret (tt, t3)) as Estep.
  { rewrite (answer_step t2 c a r ty body l5); try done; [|by cbn; rewrite lookup_insert_eq].
    cbn [reqtab requests outstanding_len rq_len rq_id with_req t2 r new_req next_req max_outstanding_len locked ext].
    rewrite delete_insert_id, insert_insert_eq, (wrap_small 32) by (done || lia). unfold t3, with_req. do 3 f_equal. lia. }
  cbn [deref]. rewrite (pbind_ret _ _ _ a t2 eq_refl).
  unfold sftp_request_wait, pget. rewrite (pbind_ret _ _ _ t2 t2 eq_refl).
  rewrite (pbind_ret _ _ _ r t2) by (unfold req_get; by rewrite Hr2). cbn [locked with_req t2 rq_error r new_req negb Z.eqb].
  set (cond := fun t => _). assert (wait_until reconnects patience c cond t2 = Ret (true, t3)) as Ewait.
  { destruct patience as [|k]; [lia|]. cbn [wait_until]. unfold pget. rewrite (pbind_ret _ _ _ t2 t2 eq_refl).
    cbn [locked with_req t2]. assert (cond t2 = false) as -> by (unfold cond; by rewrite Hr2).
    rewrite (pbind_ret _ _ _ _ _ Estep). assert (cond t3 = true) as Hc3 by (unfold cond; cbn; by rewrite lookup_insert_eq).
    destruct k; cbn [wait_until]; unfold pget; rewrite (pbind_ret _ _ _ t3 t3 eq_refl); cbn [locked with_req t3]; by rewrite Hc3. }
  cbn [rq_conn r new_req]. rewrite (pbind_ret _ _ _ _ _ Ewait). cbv iota.
  rewrite (pbind_ret _ _ _ _ _ (request_finish_ret t3 a r' type expect body l ltac:(cbn; by rewrite lookup_insert_eq) eq_refl eq_refl eq_refl Hbody E6)).
  unfold pret, t3, with_req, set_requests, set_ses. cbn [ses reqtab requests next_req outstanding_len max_outstanding_len locked ext].
  by rewrite delete_insert_id, Z.add_0_r by done.
Qed.
End Roundtrip.

Section Session.
Context `{HeapLaws} `{!HeapPlenty} {W D E : Type} `{Duplex W} `{!Dialer W} `{!Callbacks D E} `{!TableOrder}.
Context (opts : options) (noise : nat) (reconnects : bool) (patience : nat).
#[local] Instance transport : Transport (session W) := session_transport opts noise.

Lemma conn_get_ret c x (s : session W) : conns s !! c = Some x -> conn_get c s = Ret (x, s).
Proof. intros E'. unfold conn_get. by rewrite E'. Qed.
Lemma conn_upd_ret c x f (s : session W) : conns s !! c = Some x -> conn_upd c f s = Ret (tt, set_conns (<[c := f x]> (conns s)) s).
Proof. intros E'. unfold conn_upd. by rewrite E'. Qed.

Lemma session_exchanges (s : session W) c x type payload ty body rest :
  conns s !! c = Some x -> processing_thread_started x = true -> connected (os s) (wfd x) -> connected (os s) (rfd x) ->
  0 <= idctr s < 2 ^ 32 -> 0 <= ty < 256 -> Z.of_nat (length payload) + 5 < 2 ^ 32 -> Z.of_nat (length body) + 4 < MAX_REPLY_LEN ->
  wire_in (os s) (rfd x) = message ty (be_bytes 4 (idctr s) ++ body) ++ rest ->
  exists s', exchanges s s' c type (idctr s) payload ty body /\
    wire_out (os s') (wfd x) = wire_out (os s) (wfd x) ++ message type (be_bytes 4 (idctr s) ++ payload) /\
    wire_in (os s') (rfd x) = rest.
Proof using All.
  intros Hx Hst Hcw Hcr Hid Hty Hpl Hbody Hin. change MAX_REPLY_LEN with 131072 in Hbody.
  set (s1 := set_idctr (u32 (idctr s + 1)) s). set (x1 := add_req_count 1 x). set (s2 := set_conns (<[c := x1]> (conns s1)) s1).
  assert (conns s2 !! c = Some x1) as Hx1 by (cbn; rewrite list_lookup_insert_eq; [done|by eapply lookup_lt_Some]).
  destruct (sftp_send_message (wfd x) type (idctr s) [payload] (os s)) as (w1 & Es & Ho1 & Hi1 & Hc1);
    [cbn; lia|cbn; rewrite app_nil_r; lia|done|]. cbn [concat] in Ho1. rewrite app_nil_r in Ho1.
  destruct (sftp_read_message (rfd x) ty (be_bytes 4 (idctr s) ++ body) rest w1) as (w2 & Er & Hi2 & Ho2 & Hc2);
    [done|rewrite length_app, length_be_bytes; change MAX_REPLY_LEN with 131072; lia|by apply Hc1|by rewrite Hi1|].
  set (s3 := set_os w2 (set_os w1 s2)). exists (set_conns (<[c := add_req_count (-1) x1]> (conns s3)) s3).
  split; [|split; [cbn; by rewrite Ho2|done]].
  split; [|done|change MAX_REPLY_LEN with 131072; lia].
  exists s1, s2, s2, (set_os w1 s2), s3. split; [done|]. split; [by apply (conn_upd_ret c x)|]. split; [|split; [|split]].
  - cbn [t_start transport session_transport]. unfold start_processing_thread. rewrite (pbind_ret _ _ _ _ _ (conn_get_ret c x1 s2 Hx1)).
    cbn [processing_thread_started x1 add_req_count]. by rewrite Hst.
  - cbn [t_send transport session_transport]. unfold send_iov. rewrite (pbind_ret _ _ _ _ _ (conn_get_ret c x1 s2 Hx1)).
    by apply on_os_ret.
  - cbn [t_read transport session_transport]. unfold read_msg. rewrite (pbind_ret _ _ _ _ _ (conn_get_ret c x1 (set_os w1 s2) Hx1)).
    apply on_os_ret. cbn [os set_os rfd x1 add_req_count]. rewrite Er.
    destruct (be_bytes 4 (idctr s)) eqn:Eb; [apply (f_equal length) in Eb; by rewrite length_be_bytes in Eb|done].
  - by apply (conn_upd_ret c x1).
Qed.

(** C18: A request gets its answer.  Over a connection that works, however the system
    breaks up the bytes, [sftp_request] sends one message with the request, and when
    the message that arrives carries its identifier returns what that message says:
    the reply's contents when its type is the one expected, the error for its status
    code, [-EIO] for anything else.  The table, the requests and the count of
    outstanding bytes are as before, and nothing behind the answer has been read. *)
Theorem sftp_request_answered (t : client (session W) D E) c x type buf payload expect ty body rest :
  locked t = false -> expect <> 0 -> buf_to_iov buf = Ret payload -> fits t (length payload) -> (0 < patience)%nat ->
  requests t !! next_req t = None -> reqtab t !! idctr (ses t) = None ->
  conns (ses t) !! c = Some x -> processing_thread_started x = true ->
  connected (os (ses t)) (wfd x) -> connected (os (ses t)) (rfd x) -> 0 <= idctr (ses t) < 2 ^ 32 -> 0 <= ty < 256 ->
  Z.of_nat (length body) + 4 < MAX_REPLY_LEN ->
  wire_in (os (ses t)) (rfd x) = message ty (be_bytes 4 (idctr (ses t)) ++ body) ++ rest ->
  exists s', sftp_request reconnects patience c type buf expect t =
      Ret (Some (answer_result type expect ty body),
           Client s' (reqtab t) (requests t) (next_req t + 1) (outstanding_len t) (max_outstanding_len t) false (ext t)) /\
    wire_out (os s') (wfd x) = wire_out (os (ses t)) (wfd x) ++ message type (be_bytes 4 (idctr (ses t)) ++ payload) /\
    wire_in (os s') (rfd x) = rest.
Proof using All.
  intros Hlk Hex Hbuf Hfit Hpat Hfresh Hid Hx Hst Hcw Hcr Hidr Hty Hbody Hin.
  destruct (session_exchanges (ses t) c x type payload ty body rest) as (s' & He & Ho & Hi); try done.
  { destruct Hfit as (? & ? & ?). lia. }
  exists s'. split; [|done]. by apply (request_roundtrip reconnects patience t c type buf payload expect s' (idctr (ses t)) ty body).
Qed.
End Session.

(** ** Witnesses *)

Module SftpRequestsExample.
Import SftpBuf.SftpExample SftpConn.SftpConnExample.

(** A connection that is always there; the end functions count their calls. *)
#[export] Instance toy_transport : Transport Z := {|
  t_get_id := fun l => Ret (l, u32 (l + 1));
  t_start := fun _ => pret 0;
  t_count := fun _ _ => pret tt;
  t_send := fun _ _ _ _ => pret 0;
  t_read := fun _ => pret None;
  t_close := fun _ => pret tt;
  t_renew := fun _ => pret tt |}.
#[export] Instance toy_transport_safe : TransportSafe Z 1.
Proof. refine {| t_inv := fun _ => True |}; done. Defined.
#[export] Instance toy_callbacks : Callbacks unit nat := fun _ _ _ n => Ret (S n).
#[export] Instance toy_callbacks_safe : CallbacksSafe unit nat.
Proof. refine {| live := fun _ _ => True |}. intros d a r e _ _. by eexists. Defined.
#[export] Instance toy_order : TableOrder := map_to_list.
#[export] Instance toy_order_laws : TableOrderLaws.
Proof. intros m. done. Defined.

Definition toy_start : config Z unit nat := Config (Client 0 ∅ ∅ 0 0 (2 ^ 32 - 1) false 0%nat) ∅ ∅ ∅ [].

Fixpoint run (l : list (action unit nat)) (g : config Z unit nat) : outcome (option (config Z unit nat)) :=
  match l with
  | [] => Ret (Some g)
  | x :: l => let! o := act true 1 x g in match o with Some g => run l g | None => Ret None end
  end.
Definition after (l : list (action unit nat)) : config Z unit nat :=
  match run l toy_start with Ret (Some g) => g | _ => toy_start end.

Lemma run_reachable l g0 g g' : reachable true 1 g0 g -> run l g = Ret (Some g') -> reachable true 1 g0 g'.
Proof.
  revert g. induction l as [|x l IH]; intros g Hr E; cbn [run] in E; [by injection E as <-|].
  destruct (act true 1 x g) as [[g1|]| |] eqn:Ex; try done. apply (IH g1); [|done]. apply (reachable_step _ _ _ g x); [done|by destruct x|done].
Qed.
Lemma after_reachable l : is_ret (run l toy_start) = true -> match run l toy_start with Ret None => false | _ => true end = true ->
  reachable true 1 toy_start (after l).
Proof.
  unfold after. intros H1 H2. destruct (run l toy_start) as [[g|]| |] eqn:E; try done.
  apply (run_reachable l _ toy_start); [apply reachable_refl|done].
Qed.

Lemma toy_initial : initial toy_start.
Proof. done. Defined.

(** One request is waited for; a second has its reply received but not delivered; a third
    has been given up, and a fourth could not be sent and was dropped. *)
Definition busy : config Z unit nat :=
  after [Begin 0 10 None None 101; Begin 0 20 None (Some tt) 0; Begin 0 5 None None 104; Begin 0 5 None None 104;
         Wire 0; Wire 1; Wire 2; Break 3; Return 0; Return 1; Return 2; Sleep 0; GiveUp 2; Drop 3; Receive 0 1 103 (lit "data")].

Lemma requests_accounted_witness :
  (exists r, requests (cl busy) !! 0 = Some r /\
    (in_table busy 0 r \/ in_hand busy 0 \/ (0 < ready r)%nat /\ (rq_error r <> 0 \/ own_answer busy r))) /\
  (exists r, requests (cl busy) !! 2 = Some r /\ (want_reply r = 0 /\ (in_table busy 2 r \/ in_hand busy 2) \/ leaked busy 2 r)).
Proof.
  split; [set (a := 0)|set (a := 2)]; (destruct (requests (cl busy) !! a) as [r|] eqn:E; [|by vm_compute in E]); exists r; (split; [done|]).
  - pose proof (proj2 (requests_accounted true 1 toy_start busy a r toy_initial I ltac:(by apply after_reachable) eq_refl) E) as K.
    assert (pcs busy !! a = Some Asleep) as E' by (vm_compute; reflexivity). rewrite E' in K. exact K.
  - pose proof (proj2 (requests_accounted true 1 toy_start busy a r toy_initial I ltac:(by apply after_reachable) eq_refl) E) as K.
    assert (pcs busy !! a = None) as E' by (vm_compute; reflexivity). rewrite E' in K. exact K.
Defined.

(** The reply to the second request has been delivered. *)
Definition one_waits : config Z unit nat :=
  after [Begin 0 10 None None 101; Begin 0 20 None (Some tt) 0; Wire 0; Wire 1; Return 0; Return 1; Sleep 0; Receive 0 1 103 (lit "data"); Deliver 0].

Lemma connection_loss_wakes_witness :
  exists g', act true 1 (Lose 0) one_waits = Ret (Some g') /\ locked (cl g') = false /\
    forall a r type expect, pcs g' !! a = Some Asleep -> requests (cl g') !! a = Some r -> rq_conn r = 0%nat ->
      act true 1 (Finish a type expect) g' <> Ret None.
Proof.
  apply (connection_loss_wakes true 1 toy_start one_waits 0); try done; [by apply after_reachable|lia|].
  intros (id & a & r & K1 & K2 & _ & K3). assert (reqtab (cl one_waits) = {[0 := 0]}) as E by (vm_compute; reflexivity).
  rewrite E in K1. apply lookup_singleton_Some in K1 as [<- <-].
  assert (want_reply <$> requests (cl one_waits) !! 0 = Some 101) as E2 by (vm_compute; reflexivity).
  rewrite K2 in E2. cbn in E2. congruence.
Defined.

(** A read is under way. *)
Definition reading : config Z unit nat := after [Begin 0 20 None (Some tt) 0; Wire 0; Return 0].

Lemma connection_loss_deadlocks_witness :
  exists g', act true 1 (Lose 0) reading = Ret (Some g') /\
    forall g'', steps_to true 1 g' g'' -> locked (cl g'') = true /\
      (forall a type expect, act true 1 (Finish a type expect) g'' = Ret None) /\
      (forall c len f e want, act true 1 (Begin c len f e want) g'' = Ret None).
Proof.
  apply (connection_loss_deadlocks true 1 toy_start reading 0); try done; [by apply after_reachable|lia|].
  destruct (requests (cl reading) !! 0) as [r|] eqn:E; [|by vm_compute in E]. exists 0, 0, r.
  assert ((fun r => (rq_conn r, want_reply r)) <$> requests (cl reading) !! 0 = Some (0%nat, 0)) as E2 by (vm_compute; reflexivity).
  rewrite E in E2. cbn in E2. split; [vm_compute; reflexivity|]. split; [done|]. split; congruence.
Defined.

#[export, refine] Instance pipe_dialer : Dialer pipe := {|
  addrinfo := unit; getaddrinfo := fun _ _ w => (None, w); socket := fun _ w => (-1, w); connect := fun _ _ w => (-1, w);
  set_nodelay := fun _ w => w; socketpair := fun w => (None, w); fork_ssh := fun _ w => (-1, w); waitpid := fun _ w => w;
  open_fd := fun _ _ w => (-1, w); grantpt := fun _ w => (-1, w); unlockpt := fun _ w => (-1, w); ptsname := fun _ _ => [];
  write_fd := fun _ _ w => w; poll2 := fun _ _ _ w => ((-1, (false, false)), w); getuid := fun _ => 0; getgid := fun _ => 0;
  thread_create := fun w => (0, w) |}.
Defined.

(** A request for a directory to be made; the server refuses. *)
Definition asking : client (session pipe) unit nat :=
  Client (Session [Conn true 3 3 0 0 0 0] 7 (-1) (-1) None (lit "h") false false false false false 3 false plain_cfg 1 0
            (Pipe 4 [] (message 101 (be_bytes 4 7 ++ be_bytes 4 3) ++ lit "more")))
    ∅ ∅ 0 0 (2 ^ 32 - 1) false 0%nat.

Definition answering : conn := Conn true 3 3 0 0 0 0.

Lemma sftp_request_answered_witness :
  exists s', sftp_request (Transport0 := session_transport (Options false true false None false false) 0) true 5 0 14
      (reply_at (lit "x") 1) 101 asking =
      Ret (Some (answer_result 14 101 101 (be_bytes 4 3)),
           Client s' (reqtab asking) (requests asking) (next_req asking + 1) (outstanding_len asking) (max_outstanding_len asking)
             false (ext asking)) /\
    wire_out (os s') (wfd answering) = wire_out (os (ses asking)) (wfd answering) ++ message 14 (be_bytes 4 (idctr (ses asking)) ++ lit "x") /\
    wire_in (os s') (rfd answering) = lit "more".
Proof.
  apply (sftp_request_answered (W := pipe) (Options false true false None false false) 0 true 5 asking 0
    answering 14 (reply_at (lit "x") 1) (lit "x") 101 101 (be_bytes 4 3) (lit "more")); try done.
  lia.
Defined.
End SftpRequestsExample.
