(* ===== verification/SftpLinks.v ===== *)
(** * Targets of symbolic links (src/usfs_wrap/sshfs/sshfs_wrap.c)

    [transform_symlink] makes an absolute target below the base path relative to the
    link.  The theorem says that who follows the new target from the directory of the
    link comes to where the old one leads on the server. *)

From Stdlib Require Import ZArith Lia Ascii String.
From stdpp Require Import base list.
From S2P Require Import Prelude Paths.

Local Open Scope Z_scope.

(** The string without the slashes at its front, and without its first component. *)
Fixpoint skip_slashes (p : list ascii) : list ascii :=
  match p with c :: r => if Ascii.eqb c "/"%char then skip_slashes r else p | [] => [] end.
Fixpoint skip_component (p : list ascii) : list ascii :=
  match p with c :: r => if Ascii.eqb c "/"%char then p else skip_component r | [] => [] end.

(** A round takes a component away. *)
Fixpoint count_loop (fuel : nat) (p : list ascii) : outcome Z :=
  match p, fuel with
  | [], _ => Ret 0
  | _, O => Undef
  | _, S fuel => let! n := count_loop fuel (skip_slashes (skip_component p)) in Ret (n + 1)
  end.
Definition count_components (p : list ascii) : outcome Z := count_loop (length p) (skip_slashes p).

(** What is left when the two have been followed as long as they agree in a component. *)
Fixpoint skip_same (s t : list ascii) : list ascii * list ascii :=
  match s, t with
  | c :: s', d :: t' => if Ascii.eqb c d && negb (Ascii.eqb c "/"%char) then skip_same s' t' else (s, t)
  | _, _ => (s, t)
  end.
(** The condition of the loop. *)
Definition common_goes_on (s t : list ascii) : bool :=
  match s, t with
  | c :: _, d :: _ => Ascii.eqb c d
  | [], d :: _ => Ascii.eqb d "/"%char
  | c :: _, [] => Ascii.eqb c "/"%char
  | [], [] => false
  end.
Fixpoint strip_common (fuel : nat) (s t : list ascii) : outcome (list ascii * list ascii) :=
  let s := skip_slashes s in
  let t := skip_slashes t in
  let '(s', t') := skip_same s t in
  if common_goes_on s' t' then match fuel with O => Undef | S fuel => strip_common fuel s' t' end
  else Ret (s, t).

(** An absolute target below the base path becomes relative to the link.  That the process
    aborts when there is no memory for the result is left out. *)
Definition transform_symlink (b path l : list ascii) : outcome (list ascii) :=
  if negb (bool_decide (head l = Some "/"%char)) || negb (bool_decide (head b = Some "/"%char)) then Ret l
  else
    let! (l', b') := strip_common (length l) l b in
    match b' with
    | _ :: _ => Ret l
    | [] =>
        let! (l', path') := strip_common (length l') l' path in
        let! dotdots := count_components path' in
        if dotdots =? 0 then Ret l
        else
          let dotdots := dotdots - 1 in
          let up := concat (replicate (Z.to_nat dotdots) (lit "../")) in
          Ret (up ++ match l' with _ :: _ => l' | [] => if dotdots =? 0 then lit "." else [] end)
    end.

(** ** Specification on components *)

(** The components of a string, and where a walk along components ends. *)
Definition comps (p : list ascii) : path := filter (fun c => c <> []) (split_slash p : list (list ascii)).
Fixpoint follow (dir cs : path) : path :=
  match cs with
  | [] => dir
  | c :: cs => follow (if bool_decide (c = lit "..") then removelast dir else if bool_decide (c = lit ".") then dir else dir ++ [c]) cs
  end.

Definition plain (c : list ascii) : Prop := c <> lit ".." /\ c <> lit ".".
(** At the end of a component. *)
Definition boundary (p : list ascii) : Prop := p = [] \/ exists r, p = slash :: r.

Lemma noslash_nil : noslash [].
Proof. apply not_elem_of_nil. Qed.
Lemma comps_slash p : comps (slash :: p) = comps p.
Proof. done. Qed.
Lemma comps_component x p : x <> [] -> noslash x -> boundary p -> comps (x ++ p) = x :: comps p.
Proof.
  intros Hx Hn Hp. unfold comps. assert (split_slash (x ++ p) = x :: tail (split_slash p) /\ head (split_slash p) = Some []) as [-> Hh].
  { clear Hx. induction x as [|c x IH]; cbn [app].
    - destruct Hp as [-> |[r ->]]; done.
    - apply noslash_cons in Hn as [Hc Hn]. destruct (IH Hn) as [E Hh]. cbn [split_slash]. rewrite E.
      split; [|done]. destruct (Ascii.eqb_spec c slash); done. }
  rewrite filter_cons_True by done. destruct (split_slash p) as [|y q]; [done|]. cbn in Hh. injection Hh as ->.
  cbn [tail]. by rewrite filter_cons_False by naive_solver.
Qed.

Lemma comps_skip_slashes p : comps (skip_slashes p) = comps p.
Proof. induction p as [|c p IH]; [done|]. cbn [skip_slashes]. destruct (Ascii.eqb_spec c "/"%char) as [-> |]; [by rewrite comps_slash|done]. Qed.
Lemma skip_slashes_head p r : skip_slashes p <> slash :: r.
Proof. induction p as [|c p IH]; [done|]. cbn [skip_slashes]. destruct (Ascii.eqb_spec c "/"%char) as [-> |Hc]; [done|]. by injection 1. Qed.
Lemma skip_slashes_length p : (length (skip_slashes p) <= length p)%nat.
Proof. induction p as [|c p IH]; [done|]. cbn [skip_slashes]. destruct (Ascii.eqb c "/"%char); cbn; lia. Qed.

Lemma skip_component_spec p : exists x, p = x ++ skip_component p /\ noslash x /\ boundary (skip_component p).
Proof.
  induction p as [|c p (x & E & Hx & Hb)]; [exists []; repeat split; [apply noslash_nil|by left]|].
  cbn [skip_component]. destruct (Ascii.eqb_spec c "/"%char) as [-> |Hc].
  - exists []. repeat split; [apply noslash_nil|right; by eexists].
  - exists (c :: x). split; [cbn; by rewrite <- E|]. split; [by apply noslash_cons|done].
Qed.

(** The first component and what follows. *)
Lemma comps_cons c p : c <> slash ->
  exists x, c :: p = x ++ skip_component (c :: p) /\ x <> [] /\ comps (c :: p) = x :: comps (skip_component (c :: p)).
Proof.
  intros Hc. destruct (skip_component_spec (c :: p)) as (x & E & Hx & Hb). exists x. split; [done|].
  assert (x <> []) as Hne.
  { intros ->. cbn [app] in E. rewrite <- E in Hb. destruct Hb as [|[r Hr]]; [done|]. congruence. }
  split; [done|]. rewrite E at 1. by apply comps_component.
Qed.
Lemma comps_nil p : (forall r, p <> slash :: r) -> comps p = [] -> p = [].
Proof. destruct p as [|c p]; [done|]. intros H E. destruct (comps_cons c p) as (x & _ & _ & Ec); [naive_solver|congruence]. Qed.

Lemma count_loop_spec fuel p : (forall r, p <> slash :: r) -> (length p <= fuel)%nat ->
  count_loop fuel p = Ret (Z.of_nat (length (comps p))).
Proof.
  revert p. induction fuel as [|fuel IH]; intros [|c p] Hp Hl; try done; [cbn in Hl; lia|].
  destruct (comps_cons c p) as (x & E & Hx & Ec); [naive_solver|]. cbn [count_loop].
  apply (f_equal length) in E as El. rewrite length_app in El. assert (length x <> 0)%nat by by destruct x.
  rewrite IH; [|apply skip_slashes_head|etrans; [apply skip_slashes_length|]; lia].
  unfold mbind, outcome_bind. rewrite comps_skip_slashes, Ec. cbn [length]. do 2 f_equal. lia.
Qed.
Lemma count_components_spec p : count_components p = Ret (Z.of_nat (length (comps p))).
Proof.
  unfold count_components. rewrite count_loop_spec, comps_skip_slashes; [done|apply skip_slashes_head|apply skip_slashes_length].
Qed.

Lemma skip_same_spec s t s' t' : skip_same s t = (s', t') ->
  exists x, s = x ++ s' /\ t = x ++ t' /\ noslash x /\
    match s', t' with c :: _, d :: _ => c <> d \/ c = slash | _, _ => True end.
Proof.
  revert t. induction s as [|c s IH]; intros t E.
  { injection E as <- <-. exists []. repeat split; apply noslash_nil. }
  destruct t as [|d t].
  { injection E as <- <-. exists []. repeat split; apply noslash_nil. }
  cbn [skip_same] in E. destruct (Ascii.eqb_spec c d) as [<-|Hcd]; cbn [andb] in E.
  - destruct (Ascii.eqb_spec c "/"%char) as [-> |Hc]; cbn [negb] in E.
    + injection E as <- <-. exists []. repeat split; [apply noslash_nil|by right].
    + destruct (IH t E) as (x & -> & -> & Hx & Hm). exists (c :: x). repeat split; [by apply noslash_cons|done].
  - injection E as <- <-. exists []. repeat split; [apply noslash_nil|by left].
Qed.

Lemma skip_same_boundary x s t : noslash x -> boundary s -> boundary t -> skip_same (x ++ s) (x ++ t) = (s, t).
Proof.
  intros Hx Hs Ht. induction x as [|c x IH]; cbn [app skip_same].
  - destruct Hs as [-> |[r ->]], Ht as [-> |[r' ->]]; done.
  - apply noslash_cons in Hx as [Hc Hx]. rewrite Ascii.eqb_refl. destruct (Ascii.eqb_spec c "/"%char); [done|]. by apply IH.
Qed.
Lemma goes_on_boundary s t : boundary s -> boundary t -> common_goes_on s t = false -> s = [] /\ t = [].
Proof. intros [-> |[r ->]] [-> |[r' ->]]; done. Qed.

(** A round that the loop goes on after takes a component that both have. *)
Lemma round_goes_on s t s' t' : (forall r, s <> slash :: r) -> (forall r, t <> slash :: r) ->
  skip_same s t = (s', t') -> common_goes_on s' t' = true ->
  exists x, x <> [] /\ s = x ++ s' /\ comps s = x :: comps s' /\ comps t = x :: comps t'.
Proof.
  intros Hs Ht E Hg. destruct (skip_same_spec s t s' t' E) as (x & -> & -> & Hx & Hm).
  assert (boundary s' /\ boundary t') as [Hbs Hbt].
  { unfold boundary. destruct s' as [|c s'], t' as [|d t']; cbn in Hg; try done; apply Ascii.eqb_eq in Hg; subst; naive_solver. }
  assert (x <> []) as Hne.
  { intros ->. cbn [app] in Hs, Ht. destruct Hbs as [-> |[r ->]]; [|by destruct (Hs r)]. by destruct Hbt as [-> |[r ->]]; [|destruct (Ht r)]. }
  exists x. by rewrite !comps_component.
Qed.
(** After the last round the first components differ, or nothing else is left. *)
Lemma round_ends s t s' t' : (forall r, s <> slash :: r) -> (forall r, t <> slash :: r) ->
  skip_same s t = (s', t') -> common_goes_on s' t' = false -> head (comps s) = head (comps t) -> comps s = comps t.
Proof.
  intros Hs Ht E Hg Hh. destruct s as [|c s], t as [|d t]; try done.
  - destruct (comps_cons d t) as (x & _ & _ & Ec); [naive_solver|]. by rewrite Ec in Hh.
  - destruct (comps_cons c s) as (x & _ & _ & Ec); [naive_solver|]. by rewrite Ec in Hh.
  - destruct (comps_cons c s) as (x & E1 & Hx & Ec); [naive_solver|]. destruct (comps_cons d t) as (y & E2 & Hy & Ed); [naive_solver|].
    rewrite Ec, Ed in Hh |- *. cbn in Hh. injection Hh as <-.
    destruct (skip_component_spec (c :: s)) as (x1 & F1 & Hx1 & Hb1), (skip_component_spec (d :: t)) as (x2 & F2 & Hx2 & Hb2).
    assert (x1 = x) as -> by (rewrite E1 in F1 at 1; by apply app_inv_tail in F1).
    rewrite E1, E2, skip_same_boundary in E by done. injection E as <- <-.
    by destruct (goes_on_boundary _ _ Hb1 Hb2 Hg) as [-> ->].
Qed.

(** The two are left where they stop to agree.  A last component that they share is
    left in both when neither has a slash behind it. *)
Lemma strip_common_spec fuel s t : (length s <= fuel)%nat ->
  exists s' t' x, strip_common fuel s t = Ret (s', t') /\ comps s = x ++ comps s' /\ comps t = x ++ comps t' /\
    (forall r, s' <> slash :: r) /\ (forall r, t' <> slash :: r) /\
    (head (comps s') = head (comps t') -> comps s' = comps t').
Proof.
  revert s t. induction fuel as [|fuel IH]; intros s t Hl; cbn [strip_common];
    destruct (skip_same (skip_slashes s) (skip_slashes t)) as [s' t'] eqn:E; destruct (common_goes_on s' t') eqn:Hg.
  2, 4: exists (skip_slashes s), (skip_slashes t), []; rewrite !comps_skip_slashes; repeat split; try apply skip_slashes_head;
    rewrite <- (comps_skip_slashes s), <- (comps_skip_slashes t); eapply round_ends; eauto using skip_slashes_head.
  all: destruct (round_goes_on _ _ _ _ (skip_slashes_head s) (skip_slashes_head t) E Hg) as (x & Hx & Es & Cs & Ct).
  all: pose proof (skip_slashes_length s) as Hk; rewrite Es, length_app in Hk; assert (length x <> 0)%nat by by destruct x.
  - lia.
  - destruct (IH s' t') as (s1 & t1 & y & -> & C1 & C2 & Hrest); [lia|]. exists s1, t1, (x :: y).
    rewrite comps_skip_slashes in Cs, Ct. by rewrite Cs, Ct, C1, C2.
Qed.

Lemma follow_app dir cs ds : follow dir (cs ++ ds) = follow (follow dir cs) ds.
Proof. revert dir. induction cs as [|c cs IH]; intros dir; [done|]. cbn [app follow]. by rewrite IH. Qed.
Lemma follow_plain dir cs : Forall plain cs -> follow dir cs = dir ++ cs.
Proof.
  intros H. revert dir. induction H as [|c cs [H1 H2] _ IH]; intros dir; [by rewrite app_nil_r|].
  cbn [follow]. rewrite !bool_decide_eq_false_2 by done. by rewrite IH, <- app_assoc.
Qed.
Lemma follow_up dir cs : follow (dir ++ cs) (replicate (length cs) (lit "..")) = dir.
Proof.
  induction cs as [|c cs IH] using rev_ind; [by rewrite app_nil_r|]. rewrite length_app, Nat.add_comm. cbn [length Nat.add replicate follow].
  rewrite bool_decide_eq_true_2 by done. rewrite app_assoc, removelast_last. apply IH.
Qed.
Lemma comps_up n l : comps (concat (replicate n (lit "../")) ++ l) = replicate n (lit "..") ++ comps l.
Proof.
  induction n as [|n IH]; [done|]. cbn [replicate concat]. rewrite <- app_assoc.
  change (lit "../" ++ ?x) with (lit ".." ++ slash :: x). rewrite comps_component, comps_slash, IH; [done|done| |right; by eexists].
  unfold noslash. by intros [? |[? |[]%elem_of_nil]%elem_of_cons]%elem_of_cons.
Qed.

(** The link is at [base ++ same ++ below], the target at [base ++ same ++ comps l]. *)
Lemma relative_target base same below l n :
  Forall plain (same ++ below) -> length below = S n -> (forall r, l <> slash :: r) ->
  let l' := concat (replicate n (lit "../")) ++ match l with _ :: _ => l | [] => if Z.of_nat n =? 0 then lit "." else [] end in
  (forall r, l' <> slash :: r) /\
  follow (follow [] (base ++ removelast (same ++ below))) (comps l') = follow [] (base ++ same ++ comps l).
Proof.
  intros Hp Hn Hl l'. split.
  { unfold l'. intros r. destruct n; [|done]. cbn [replicate concat app]. destruct l; [done|apply Hl]. }
  destruct (exists_last (l := below)) as (dir & c & ->); [by destruct below|]. rewrite length_app in Hn. cbn in Hn.
  assert (n = length dir) as -> by lia. rewrite app_assoc, removelast_last, <- !follow_app, <- app_assoc.
  unfold l'. rewrite comps_up. rewrite app_assoc in Hp. apply Forall_app in Hp as [Hp _]. apply Forall_app in Hp as [Hs Hd].
  rewrite !follow_app, (follow_plain _ dir), follow_up by done.
  destruct l as [|x l]; [|done]. by destruct (_ =? 0).
Qed.

(** C26: A transformed symbolic link leads where the original does.  For a link whose
    path has no "." and "..", [transform_symlink] ends and leaves the target as it is or
    makes it relative; then the components of the new target, followed from the
    directory of the link below the base path, lead where the absolute target leads on
    the server.  It is made relative whenever base path and target are absolute, the
    target is strictly below the base path and the link's path is no prefix of it. *)
Theorem symlink_target_kept b path l : Forall plain (comps path) ->
  exists l', transform_symlink b path l = Ret l' /\
    (l' = l \/ (forall r, l' <> slash :: r) /\
       follow (follow [] (comps b ++ removelast (comps path))) (comps l') = follow [] (comps l)) /\
    (head b = Some slash -> head l = Some slash ->
     forall r, comps l = comps b ++ r -> r <> [] -> ~ comps path `prefix_of` r -> forall q, l' <> slash :: q).
Proof.
  intros Hp. unfold transform_symlink. case_bool_decide as Hl; [|exists l; naive_solver].
  case_bool_decide as Hb; [|exists l; naive_solver]. cbn [negb orb].
  destruct (strip_common_spec (length l) l b) as (l1 & b1 & x & -> & El & Eb & Hl1 & Hb1 & Hh); [done|].
  unfold mbind, outcome_bind. destruct b1 as [|c b1].
  2:{ exists l. split; [done|]. split; [by left|]. intros _ _ r Er Hr. rewrite El, Eb, <- app_assoc in Er. apply app_inv_head in Er.
      destruct (comps (c :: b1)) as [|y ys] eqn:Ey; [by apply comps_nil in Ey|].
      exfalso. apply Hr. rewrite Er in Hh. specialize (Hh eq_refl). by eapply (app_inv_head (y :: ys)); rewrite app_nil_r. }
  change (comps []) with (@nil (list ascii)) in Eb. rewrite app_nil_r in Eb. subst x.
  destruct (strip_common_spec (length l1) l1 path) as (l2 & p2 & y & -> & El2 & Ep & Hl2 & Hp2 & Hh2); [done|].
  rewrite count_components_spec. destruct (comps p2) as [|c below] eqn:Ec.
  { exists l. split; [done|]. split; [by left|]. intros _ _ r Er Hr Hpre. destruct Hpre. rewrite Ep, app_nil_r.
    rewrite El in Er. apply app_inv_head in Er as <-. exists (comps l2). done. }
  cbn [length]. rewrite (proj2 (Z.eqb_neq _ 0)) by lia. replace (Z.of_nat (S (length below)) - 1) with (Z.of_nat (length below)) by lia.
  rewrite Nat2Z.id. eexists. split; [done|].
  destruct (relative_target (comps b) y (c :: below) l2 (length below)) as [H1 H2]; [by rewrite <- Ep|done|done|].
  split; [|done]. right. split; [done|]. rewrite Ep, El, El2. exact H2.
Qed.

Lemma symlink_target_kept_witness :
  exists l', transform_symlink (lit "/home/u/") (lit "/a/c/link") (lit "/home/u/a/b/../d") = Ret l' /\
    (l' = lit "/home/u/a/b/../d" \/ (forall r, l' <> slash :: r) /\
       follow (follow [] (comps (lit "/home/u/") ++ removelast (comps (lit "/a/c/link")))) (comps l') = follow [] (comps (lit "/home/u/a/b/../d"))) /\
    (head (lit "/home/u/") = Some slash -> head (lit "/home/u/a/b/../d") = Some slash ->
     forall r, comps (lit "/home/u/a/b/../d") = comps (lit "/home/u/") ++ r -> r <> [] ->
       ~ comps (lit "/a/c/link") `prefix_of` r -> forall q, l' <> slash :: q).
Proof. apply symlink_target_kept. vm_compute. repeat constructor; by intros. Defined.
