(* ===== verification/SftpFiles.v ===== *)
(** * The file operations of the sftp client (src/usfs_wrap/sshfs/sshfs_wrap.c)

    The operations that the file system interface has, over the requests of
    SftpRequests.v: each encodes its arguments, sends a request and decodes the reply,
    or sends several and waits for them.  The objects that the requests under way share with the
    functions that wait (open files, read chunks, the requests of a chunk, counters of
    synchronous writes) are in finite maps from addresses ([files]), the
    callbacks at the end of a request are the values of [end_data], and the attribute cache
    is a class with what opening a file asks of it ([OpenCache]).  A program may wait
    for ever, when the answers that it waits for do not come: its result is then
    [None] ([hbind] and the notation [let?]). *)

From Stdlib Require Import ZArith Lia Ascii String.
From stdpp Require Import base list gmap.
From S2P Require Import Prelude World Cache SftpBuf SftpConn SftpRequests SftpLinks.

Local Open Scope Z_scope.

Definition SSH_FXP_OPEN : Z := 3.
Definition SSH_FXP_CLOSE : Z := 4.
Definition SSH_FXP_WRITE : Z := 6.
Definition SSH_FXP_FSTAT : Z := 8.
Definition SSH_FXP_SETSTAT : Z := 9.
Definition SSH_FXP_FSETSTAT : Z := 10.
Definition SSH_FXP_OPENDIR : Z := 11.
Definition SSH_FXP_REMOVE : Z := 13.
Definition SSH_FXP_MKDIR : Z := 14.
Definition SSH_FXP_RENAME : Z := 18.
Definition SSH_FXP_READLINK : Z := 19.
Definition SSH_FXP_SYMLINK : Z := 20.
Definition SSH_FXP_HANDLE : Z := 102.
Definition SSH_FXP_DATA : Z := 103.
Definition SSH_FXP_NAME : Z := 104.
Definition SSH_FXP_EXTENDED : Z := 200.
Definition SSH_FXP_EXTENDED_REPLY : Z := 201.
Definition SSH_FXF_READ : Z := 1.
Definition SSH_FXF_WRITE : Z := 2.
Definition SSH_FXF_APPEND : Z := 4.
Definition SSH_FXF_CREAT : Z := 8.
Definition SSH_FXF_TRUNC : Z := 16.
Definition SSH_FXF_EXCL : Z := 32.
Definition RENAME_TEMP_CHARS : Z := 8.
Definition O_ACCMODE : Z := 3.
Definition O_APPEND : Z := 1024.
Definition PATH_MAX : Z := 4096.
Definition EXDEV : Z := 18.
Definition X_OK : Z := 1.
Definition S_ISREG (m : Z) : bool := Z.land m S_IFMT =? S_IFREG.

(** ** State *)

(** [struct sshfs_file]; the requests in [write_reqs] are the writes under way. *)
Record sshfs_file := SshfsFile {
  sf_handle : buffer;
  write_reqs : list Z;
  write_error : Z;
  readahead : option Z;
  next_pos : Z;
  is_seq : bool;
  sf_conn : nat;
  sf_connver : Z;
  sf_modifver : Z }.

(** [sio]: the chunk or the write that the request belongs to. *)
Record read_req := ReadReq { rr_sio : Z; rr_data : buffer; rr_size : Z; rr_res : Z }.

(** The requests in the order they were made. *)
Record read_chunk := ReadChunk {
  ch_offset : Z; ch_size : Z; ch_refs : Z; ch_modifver : Z;
  ch_reqs : list Z;
  num_reqs : Z; sio_error : Z }.

Inductive end_data := ReadEnd (rreq : Z) | WriteEnd (sf : Z) | SyncWriteEnd (sio : Z).

(** Options of the file operations. *)
Record file_options := FileOptions {
  base_path : list ascii;
  renamexdev_workaround : bool; truncate_workaround : bool; fstat_workaround : bool;
  createmode_workaround : bool;
  transform_symlinks : bool; disable_hardlink : bool; dir_cache : bool;
  sync_write : bool; sync_read : bool;
  max_read : Z; max_write : Z;
  r_uid_map : option (Z -> option Z); r_gid_map : option (Z -> option Z) }.

(** The heap of the file operations, by address.  [moved]: writes that a flush waits
    for.  [sios]: the counters of synchronous writes.  [conntab]: the connection of
    the open files with a path, and how many there are. *)
Record files (C : Type) := Files {
  sfiles : gmap Z sshfs_file;
  chunks : gmap Z read_chunk;
  rreqs : gmap Z read_req;
  sios : gmap Z (Z * Z);
  next_file : Z;
  modifver : Z;
  moved : list Z;
  conntab : gmap (list ascii) (Z * nat);
  attr_cache : C }.
Arguments Files {C}. Arguments sfiles {C}. Arguments chunks {C}. Arguments rreqs {C}. Arguments sios {C}.
Arguments next_file {C}. Arguments modifver {C}. Arguments moved {C}. Arguments conntab {C}. Arguments attr_cache {C}.

(** What opening a file asks of the attribute cache. *)
Class OpenCache (C : Type) := {
  oc_write_ctr : prog C Z;
  oc_add_attr : list ascii -> stat -> Z -> prog C unit;
  oc_invalidate : list ascii -> prog C unit }.

(** The cache of Cache.v. *)
#[export] Instance cache_open_cache `{GHashTable} {W : Type} `{!NextOper W} : OpenCache (@cst _ W) := {|
  oc_write_ctr := cache_get_write_ctr; oc_add_attr := cache_add_attr; oc_invalidate := cache_invalidate |}.

Section FileSetters.
Context {C : Type}.
Implicit Types (e : files C).

Definition set_sfiles v e := Files v (chunks e) (rreqs e) (sios e) (next_file e) (modifver e) (moved e) (conntab e) (attr_cache e).
Definition set_chunks v e := Files (sfiles e) v (rreqs e) (sios e) (next_file e) (modifver e) (moved e) (conntab e) (attr_cache e).
Definition set_rreqs v e := Files (sfiles e) (chunks e) v (sios e) (next_file e) (modifver e) (moved e) (conntab e) (attr_cache e).
Definition set_sios v e := Files (sfiles e) (chunks e) (rreqs e) v (next_file e) (modifver e) (moved e) (conntab e) (attr_cache e).
Definition set_next_file v e := Files (sfiles e) (chunks e) (rreqs e) (sios e) v (modifver e) (moved e) (conntab e) (attr_cache e).
Definition set_modifver v e := Files (sfiles e) (chunks e) (rreqs e) (sios e) (next_file e) v (moved e) (conntab e) (attr_cache e).
Definition set_moved v e := Files (sfiles e) (chunks e) (rreqs e) (sios e) (next_file e) (modifver e) v (conntab e) (attr_cache e).
Definition set_attr_cache (v : C) e := Files (sfiles e) (chunks e) (rreqs e) (sios e) (next_file e) (modifver e) (moved e) (conntab e) v.
Definition set_conntab v e := Files (sfiles e) (chunks e) (rreqs e) (sios e) (next_file e) (modifver e) (moved e) v (attr_cache e).

(** [p->f = v] for a pointer into the heap *)
Definition upd {A} (get : files C -> gmap Z A) (set : gmap Z A -> files C -> files C) (a : Z) (f : A -> A) e : outcome (files C) :=
  let! x := deref (get e !! a) in Ret (set (<[a := f x]> (get e)) e).
Definition upd_file := upd sfiles set_sfiles.
Definition upd_chunk := upd chunks set_chunks.
Definition upd_rreq := upd rreqs set_rreqs.
Definition upd_sio := upd sios set_sios.
End FileSetters.

Definition set_handle b f := SshfsFile b (write_reqs f) (write_error f) (readahead f) (next_pos f) (is_seq f) (sf_conn f) (sf_connver f) (sf_modifver f).
Definition set_write_reqs l f := SshfsFile (sf_handle f) l (write_error f) (readahead f) (next_pos f) (is_seq f) (sf_conn f) (sf_connver f) (sf_modifver f).
Definition set_write_error v f := SshfsFile (sf_handle f) (write_reqs f) v (readahead f) (next_pos f) (is_seq f) (sf_conn f) (sf_connver f) (sf_modifver f).
Definition set_readahead c f := SshfsFile (sf_handle f) (write_reqs f) (write_error f) c (next_pos f) (is_seq f) (sf_conn f) (sf_connver f) (sf_modifver f).
Definition set_position p s m f := SshfsFile (sf_handle f) (write_reqs f) (write_error f) (readahead f) p s (sf_conn f) (sf_connver f) m.
Definition set_refs n c := ReadChunk (ch_offset c) (ch_size c) n (ch_modifver c) (ch_reqs c) (num_reqs c) (sio_error c).
Definition set_ch_modifver n c := ReadChunk (ch_offset c) (ch_size c) (ch_refs c) n (ch_reqs c) (num_reqs c) (sio_error c).
Definition set_reqs l c := ReadChunk (ch_offset c) (ch_size c) (ch_refs c) (ch_modifver c) l (num_reqs c) (sio_error c).
Definition add_num_reqs d c := ReadChunk (ch_offset c) (ch_size c) (ch_refs c) (ch_modifver c) (ch_reqs c) (num_reqs c + d) (sio_error c).
Definition set_sio_error v c := ReadChunk (ch_offset c) (ch_size c) (ch_refs c) (ch_modifver c) (ch_reqs c) (num_reqs c) v.
Definition advance n c := ReadChunk (ch_offset c + n) (ch_size c - n) (ch_refs c) (ch_modifver c) (ch_reqs c) (num_reqs c) (sio_error c).

(** ** The ends of requests *)

Section Ends.
Context {C : Type}.

(** The result of a read, and the data: what is left of the reply. *)
Definition read_end_result (size : Z) (data : buffer) (req : request end_data) : outcome (Z * buffer) :=
  if negb (rq_error req =? 0) then Ret (rq_error req, data)
  else if replied req then
    if reply_type req =? SSH_FXP_STATUS then
      let! (serr, _) := buf_get_uint32 (reply req) in
      Ret (match serr with
           | None => - EIO
           | Some serr => if serr =? SSH_FX_EOF then 0 else - sftp_error_to_errno serr
           end, data)
    else if reply_type req =? SSH_FXP_DATA then
      let! (retsize, b) := buf_get_uint32 (reply req) in
      match retsize with
      | None => Ret (- EIO, data)
      | Some retsize =>
          if retsize >? size then Ret (- EIO, data)
          else
            let! (ok, b) := buf_check_get retsize b in
            Ret (match ok with Some _ => (retsize, b) | None => (- EIO, data) end)
      end
    else Ret (- EIO, data)
  else Ret (- EIO, data).

Definition sshfs_read_end (rreq : Z) (req : request end_data) (e : files C) : outcome (files C) :=
  let! rr := deref (rreqs e !! rreq) in
  let! (res, data) := read_end_result (rr_size rr) (rr_data rr) req in
  let! e := upd_rreq rreq (fun rr => ReadReq (rr_sio rr) data (rr_size rr) res) e in
  upd_chunk (rr_sio rr) (add_num_reqs (-1)) e.

(** Whether a write failed: an error, or a status other than success. *)
Definition write_end_error (req : request end_data) (old : Z) : outcome Z :=
  if negb (rq_error req =? 0) then Ret (rq_error req)
  else if replied req then
    if negb (reply_type req =? SSH_FXP_STATUS) then Ret old
    else
      let! (serr, _) := buf_get_uint32 (reply req) in
      Ret (match serr with Some serr => if negb (serr =? SSH_FX_OK) then - EIO else old | None => old end)
  else Ret old.

Definition sshfs_write_end (sf a : Z) (req : request end_data) (e : files C) : outcome (files C) :=
  let! f := deref (sfiles e !! sf) in
  let! err := write_end_error req (write_error f) in
  let! e := upd_file sf (fun f => set_write_reqs (filter (fun x => x <> a) (write_reqs f)) (set_write_error err f)) e in
  Ret (set_moved (filter (fun x => x <> a) (moved e)) e).

Definition sshfs_sync_write_end (sio : Z) (req : request end_data) (e : files C) : outcome (files C) :=
  let! x := deref (sios e !! sio) in
  let! err := write_end_error req x.2 in
  upd_sio sio (fun _ => (x.1 - 1, err)) e.

#[export] Instance file_callbacks : Callbacks end_data (files C) := fun d a req e =>
  match d with
  | ReadEnd rreq => sshfs_read_end rreq req e
  | WriteEnd sf => sshfs_write_end sf a req e
  | SyncWriteEnd sio => sshfs_sync_write_end sio req e
  end.
End Ends.

(** ** Programs that may wait for ever

    [None] when the thread does not come back. *)

Definition hbind {S A B} (e : prog S (option A)) (k : A -> prog S (option B)) : prog S (option B) :=
  pbind e (fun o => match o with Some a => k a | None => pret None end).
Definition hret {S A} (a : A) : prog S (option A) := pret (Some a).
Definition hrun {S A} (e : prog S A) : prog S (option A) := pbind e hret.

Notation "'let?' x ':=' e 'in' k" := (hbind e (fun x => k))
  (at level 10, x pattern, e at level 100, k at level 200) : defuse_scope.
Notation "'do?' e ';' k" := (hbind e (fun _ => k))
  (at level 10, e at level 100, k at level 200) : defuse_scope.

Section Files.
Context `{Heap} {W C : Type} `{!Channel W} `{!Dialer W} `{!TableOrder} `{!OpenCache C}.
Context (opts : options) (noise : nat) (patience : nat) (fopts : file_options).
#[local] Hint Extern 0 (Transport (session _)) => exact (session_transport opts noise) : typeclass_instances.

Abbreviation sshfs := (client (session W) end_data (files C)).
Abbreviation HP A := (prog sshfs (option A)).

Definition fget : HP (files C) := fun t => Ret (Some (ext t), t).
Definition fmodify (f : files C -> files C) : HP unit := hrun (pmodify (fun t => set_ext (f (ext t)) t)).
Definition fupdate (f : files C -> outcome (files C)) : HP unit := fun t =>
  let! e := f (ext t) in Ret (Some tt, set_ext e t).
Definition sget : HP (session W) := fun t => Ret (Some (ses t), t).
Definition lift {A} (o : outcome A) : HP A := hrun (plift o).
(** the lock, for a section that does nothing else *)
Definition lock : HP unit := fun t => Ret (if locked t then None else Some tt, t).

Definition request' (c : nat) (type : Z) (b : buffer) (expect : Z) : HP (Z * option buffer) :=
  sftp_request (reconnect opts) patience c type b expect.

(** ** Pointers to files

    The functions get the address of a [uint64_t] and take it for the address of the
    file.  [FiFile] is the address of a file. *)
Inductive file_ptr := FiNull | FiVar | FiFile (a : Z).

Definition get_sshfs_file (fi : file_ptr) : HP Z :=
  match fi with FiFile a => hret a | _ => lift Undef end.
Definition file_at (a : Z) : HP sshfs_file := let? e := fget in lift (deref (sfiles e !! a)).

(** The connection of a file or of the files open under a path, or the one with the
    least to do. *)
Definition conn_score (x : conn) : Z :=
  u64 (Z.shiftl (req_count x) 43 + Z.shiftl (dir_count x) 22 + Z.shiftl (file_count x) 1 + (if rfd x >=? 0 then 0 else 1)).
Fixpoint best_conn (l : list conn) (i best : nat) (best_score : Z) : nat :=
  match l with
  | [] => best
  | x :: l => if conn_score x <? best_score then best_conn l (i + 1) i (conn_score x) else best_conn l (i + 1) best best_score
  end.
Definition get_conn (f : option sshfs_file) (path : option (list ascii)) : HP nat :=
  let? s := sget in
  if (length (conns s) =? 1)%nat then hret 0%nat
  else match f with
       | Some f => hret (sf_conn f)
       | None =>
           let? ce := match path with
                      | Some path => do? lock; let? e := fget in hret (conntab e !! path)
                      | None => hret None
                      end in
           hret (match ce with Some (_, c) => c | None => best_conn (conns s) 0 0 (2 ^ 64 - 1) end)
       end.

Definition sshfs_file_is_conn (a : Z) : HP bool :=
  do? lock;
  let? f := file_at a in
  let? s := sget in
  let? x := lift (deref (conns s !! sf_conn f)) in
  hret (sf_connver f =? connver x).

Definition sshfs_inc_modifver : HP unit :=
  do? lock; fmodify (fun e => set_modifver (i64 (modifver e + 1)) e).

(** ** Reading *)

Definition new_addr : HP Z :=
  let? e := fget in do? fmodify (set_next_file (next_file e + 1)); hret (next_file e).

Definition free_rreqs (l : list Z) (e : files C) : files C := set_rreqs (foldr delete (rreqs e) l) e.

Definition chunk_free (a : Z) (e : files C) : outcome (files C) :=
  let! ch := deref (chunks e !! a) in
  let e := free_rreqs (ch_reqs ch) e in Ret (set_chunks (delete a (chunks e)) e).
Definition chunk_put (chunk : option Z) (e : files C) : outcome (files C) :=
  match chunk with
  | None => Ret e
  | Some a =>
      let! e := upd_chunk a (fun ch => set_refs (ch_refs ch - 1) ch) e in
      let! ch := deref (chunks e !! a) in
      if ch_refs ch =? 0 then chunk_free a e else Ret e
  end.
Definition chunk_put_locked (chunk : option Z) : HP unit := do? lock; fupdate (chunk_put chunk).

Definition sshfs_read_begin (chunk : Z) (e : files C) : files C :=
  match chunks e !! chunk with Some ch => set_chunks (<[chunk := add_num_reqs 1 ch]> (chunks e)) e | None => e end.

(** handle, offset and length *)
Definition io_buffer (handle : buffer) (offset bsize : Z) : outcome (list ascii) :=
  let! buf := buf_init 0 in
  let! buf := buf_add_buf buf handle in
  let! buf := buf_add_uint64 buf offset in
  let! buf := buf_add_uint32 buf bsize in
  buf_to_iov buf.

(** One request for each piece of [max_read] bytes. *)
Fixpoint send_read_loop (fuel : nat) (sf chunk size offset : Z) : HP unit :=
  if size =? 0 then hret tt
  else match fuel with
  | O => lift Undef
  | S fuel =>
      let bsize := if size <? max_read fopts then size else max_read fopts in
      let? f := file_at sf in
      let? rreq := new_addr in
      do? fmodify (fun e => set_rreqs (<[rreq := ReadReq chunk (Buffer None 0 0) bsize 0]> (rreqs e)) e);
      do? fupdate (upd_chunk chunk (fun ch => set_reqs (ch_reqs ch ++ [rreq]) ch));
      let? iov := lift (io_buffer (sf_handle f) (u64 offset) (u32 bsize)) in
      let? (err, _) := sftp_request_send (reconnect opts) patience (sf_conn f) SSH_FXP_READ [iov]
        (Some (fun _ => sshfs_read_begin chunk)) (Some (ReadEnd rreq)) 0 in
      if negb (err =? 0) then hret tt else send_read_loop fuel sf chunk (size - bsize) (offset + bsize)
  end.
Definition sshfs_send_read (sf size offset : Z) : HP Z :=
  let? chunk := new_addr in
  do? fmodify (fun e => set_chunks (<[chunk := ReadChunk offset size 1 0 [] 0 0]> (chunks e)) e);
  do? send_read_loop (Z.to_nat size) sf chunk size offset;
  hret chunk.

(** Data from the requests of a chunk, oldest first: the bytes, the requests that are
    left, an error or 0.  [sshfs_read_end] has checked that the data of a request are
    there, so that [buf_get_mem] does not fail. *)
Fixpoint take_data (l : list Z) (size : Z) (e : files C) : outcome (list ascii * list Z * Z * files C) :=
  match l with
  | [] => Ret ([], [], 0, e)
  | rr :: rest =>
      if size =? 0 then Ret ([], l, 0, e)
      else
        let! r := deref (rreqs e !! rr) in
        if rr_res r <? 0 then Ret ([], l, rr_res r, e)
        else if rr_res r =? 0 then Ret ([], l, MY_EOF, e)
        else if size <? rr_res r then
          let! (d, data) := buf_get_mem size (rr_data r) in
          let! d := deref d in
          let! e := upd_rreq rr (fun r => ReadReq (rr_sio r) data (rr_size r - size) (rr_res r - size)) e in
          Ret (d, l, 0, e)
        else
          let! (d, data) := buf_get_mem (rr_res r) (rr_data r) in
          let! d := deref d in
          if rr_res r <? rr_size r then
            let! e := upd_rreq rr (fun r => ReadReq (rr_sio r) data (rr_size r) (rr_res r)) e in
            Ret (d, l, MY_EOF, e)
          else
            let! (res, e) := take_data rest (size - rr_res r) (free_rreqs [rr] e) in
            let '(ds, more, err) := res in Ret (d ++ ds, more, err, e)
  end.

(** The result and the bytes stored.  [c] is the connection whose thread works while
    this one waits. *)
Definition wait_chunk (c : nat) (chunk size : Z) : HP (Z * list ascii) :=
  let* ok := wait_until (reconnect opts) patience c (fun t =>
    match chunks (ext t) !! chunk with Some ch => num_reqs ch =? 0 | None => false end) in
  if negb ok then pret None
  else
    let? e := fget in
    let? ch := lift (deref (chunks e !! chunk)) in
    if negb (sio_error ch =? 0) then
      do? chunk_put_locked (Some chunk);
      hret (if negb (sio_error ch =? MY_EOF) then sio_error ch else 0, [])
    else
      let? (d, more, err, e) := lift (take_data (ch_reqs ch) size e) in
      do? fmodify (fun _ => e);
      let res := Z.of_nat (length d) in
      do? fupdate (upd_chunk chunk (fun ch =>
        (if res >? 0 then advance res else fun x => x) (set_sio_error err (set_reqs more ch))));
      do? chunk_put_locked (Some chunk);
      hret (res, d).

Definition sshfs_sync_read (sf size offset : Z) : HP (Z * list ascii) :=
  let? f := file_at sf in
  let? chunk := sshfs_send_read sf size offset in
  wait_chunk (sf_conn f) chunk size.

(** The chunk takes the place of [old]. *)
Definition submit_read (sf size offset : Z) (old : option Z) : HP Z :=
  let? chunk := sshfs_send_read sf size offset in
  do? lock;
  let? e := fget in
  do? fupdate (upd_chunk chunk (set_ch_modifver (modifver e)));
  do? fupdate (chunk_put old);
  do? fupdate (upd_chunk chunk (fun ch => set_refs (ch_refs ch + 1) ch));
  hret chunk.

Definition search_read_chunk (sf offset : Z) : HP (option Z) :=
  let? e := fget in
  let? f := file_at sf in
  match readahead f with
  | None => hret None
  | Some a =>
      let? ch := lift (deref (chunks e !! a)) in
      if (ch_offset ch =? offset) && (ch_modifver ch =? modifver e) then
        do? fupdate (upd_chunk a (fun ch => set_refs (ch_refs ch + 1) ch)); hret (Some a)
      else hret None
  end.

Definition chunk_at (a : Z) : HP read_chunk := let? e := fget in lift (deref (chunks e !! a)).

(** [sshfs_async_read] after the search: [found] is the chunk that was read ahead. *)
Definition read_with (sf : Z) (f : sshfs_file) (found : option Z) (size offset : Z) : HP (Z * list ascii) :=
  let curr_is_seq := is_seq f in
  let? size_found := match found with Some a => let? ch := chunk_at a in hret (ch_size ch) | None => hret 0 end in
  let short := match found with Some _ => size_found <? size | None => false end in
  let chunk_prev := if short then found else None in
  let origsize := size in
  let size := if short then size - size_found else size in
  let offset := if short then offset + size_found else offset in
  let? chunk := match (if short then None else found) with
                | Some a => hret a
                | None => submit_read sf size offset None
                end in
  let? ch := chunk_at chunk in
  do? (if curr_is_seq && (ch_size ch <=? size) then
         let? f := file_at sf in
         let? ra := submit_read sf origsize (offset + size) (readahead f) in
         fupdate (upd_file sf (set_readahead (Some ra)))
       else hret tt);
  let finish := fun before =>
    let? (res, d) := wait_chunk (sf_conn f) chunk size in
    hret (if res <? 0 then res else Z.of_nat (length before) + res, before ++ d) in
  match chunk_prev with
  | None => finish []
  | Some prev =>
      let? ch := chunk_at prev in
      let? (res, d) := wait_chunk (sf_conn f) prev (ch_size ch) in
      if res <? i32 (ch_size ch) then do? chunk_put_locked (Some chunk); hret (res, d)
      else finish d
  end.

Definition sshfs_async_read (sf size offset : Z) : HP (Z * list ascii) :=
  do? lock;
  let? e := fget in
  let? f := file_at sf in
  do? fupdate (upd_file sf (set_position (offset + size) ((next_pos f =? offset) && (sf_modifver f =? modifver e)) (i32 (modifver e))));
  let? found := search_read_chunk sf offset in
  read_with sf f found size offset.

Definition sshfs_read (size offset : Z) (fi : file_ptr) : HP (Z * list ascii) :=
  let? sf := get_sshfs_file fi in
  let? ok := sshfs_file_is_conn sf in
  if negb ok then hret (- EIO, [])
  else if sync_read fopts then sshfs_sync_read sf size offset
  else sshfs_async_read sf size offset.

(** ** Writing *)

Definition sshfs_write_begin (sf a : Z) (e : files C) : files C :=
  match sfiles e !! sf with Some f => set_sfiles (<[sf := set_write_reqs (a :: write_reqs f) f]> (sfiles e)) e | None => e end.

(** One request for each piece of [max_write] bytes, until one fails. *)
Fixpoint write_loop (fuel : nat) (sf : Z) (begin_func : Z -> files C -> files C) (end_ : end_data) (wbuf : list ascii) (offset : Z) : HP Z :=
  match wbuf, fuel with
  | [], _ => hret 0
  | _, O => lift Undef
  | _, S fuel =>
      let size := Z.of_nat (length wbuf) in
      let bsize := if size <? max_write fopts then size else max_write fopts in
      let? f := file_at sf in
      let? iov := lift (io_buffer (sf_handle f) (u64 offset) (u32 bsize)) in
      let? (err, _) := sftp_request_send (reconnect opts) patience (sf_conn f) SSH_FXP_WRITE
        [iov; take (Z.to_nat bsize) wbuf] (Some begin_func) (Some end_) 0 in
      if negb (err =? 0) then hret err
      else write_loop fuel sf begin_func end_ (drop (Z.to_nat bsize) wbuf) (offset + bsize)
  end.

Definition sshfs_async_write (sf : Z) (wbuf : list ascii) (offset : Z) : HP Z :=
  write_loop (length wbuf) sf (sshfs_write_begin sf) (WriteEnd sf) wbuf offset.

Definition sshfs_sync_write_begin (sio _ : Z) (e : files C) : files C :=
  match sios e !! sio with Some (n, err) => set_sios (<[sio := (n + 1, err)]> (sios e)) e | None => e end.

(** The counter is a local variable. *)
Definition sshfs_sync_write (sf : Z) (wbuf : list ascii) (offset : Z) : HP Z :=
  let? f := file_at sf in
  let? sio := new_addr in
  do? fmodify (fun e => set_sios (<[sio := (0, 0)]> (sios e)) e);
  let? err := write_loop (length wbuf) sf (sshfs_sync_write_begin sio) (SyncWriteEnd sio) wbuf offset in
  let* ok := wait_until (reconnect opts) patience (sf_conn f) (fun t =>
    match sios (ext t) !! sio with Some (n, _) => n =? 0 | None => false end) in
  if negb ok then pret None
  else
    let? e := fget in
    let? x := lift (deref (sios e !! sio)) in
    do? fmodify (fun e => set_sios (delete sio (sios e)) e);
    hret (if err =? 0 then x.2 else err).

Definition sshfs_write (wbuf : list ascii) (offset : Z) (fi : file_ptr) : HP Z :=
  let? sf := get_sshfs_file fi in
  let? ok := sshfs_file_is_conn sf in
  if negb ok then hret (- EIO)
  else
    do? sshfs_inc_modifver;
    let? f := file_at sf in
    let? err := if negb (sync_write fopts) && (write_error f =? 0) then sshfs_async_write sf wbuf offset
                else sshfs_sync_write sf wbuf offset in
    hret (if negb (err =? 0) then err else i32 (Z.of_nat (length wbuf))).

(** The writes under way are waited for on a list of their own. *)
Definition sshfs_flush (fi : file_ptr) : HP Z :=
  let? sf := get_sshfs_file fi in
  let? ok := sshfs_file_is_conn sf in
  if negb ok then hret (- EIO)
  else if sync_write fopts then hret 0
  else
    do? lock;
    let? f := file_at sf in
    let mine := write_reqs f in
    do? fupdate (upd_file sf (set_write_reqs []));
    do? fmodify (fun e => set_moved (mine ++ moved e) e);
    let* ok := wait_until (reconnect opts) patience (sf_conn f) (fun t =>
      bool_decide (Forall (fun a => a ∉ moved (ext t)) mine)) in
    if negb ok then pret None
    else
      let? f := file_at sf in
      do? fupdate (upd_file sf (set_write_error 0));
      hret (write_error f).

Definition sshfs_fsync (fi : file_ptr) : HP Z :=
  let? err := sshfs_flush fi in
  if negb (err =? 0) then hret err
  else
    let? s := sget in
    if negb (ext_fsync s) then hret err
    else
      let? sf := get_sshfs_file fi in
      let? f := file_at sf in
      let? buf := lift (let! buf := buf_init 0 in let! buf := buf_add_string buf SFTP_EXT_FSYNC in buf_add_buf buf (sf_handle f)) in
      let? (err, _) := request' (sf_conn f) SSH_FXP_EXTENDED buf SSH_FXP_STATUS in
      hret err.

(** ** Names *)

Definition add_path (b : buffer) (path : list ascii) : outcome buffer := buf_add_path (base_path fopts) b path.

(** A request over any connection that is answered with a status. *)
Definition status_request (type : Z) (build : outcome buffer) : HP Z :=
  let? buf := lift build in
  let? c := get_conn None None in
  let? (err, _) := request' c type buf SSH_FXP_STATUS in
  hret err.

Definition sshfs_mkdir (path : list ascii) (mode : Z) : HP Z :=
  status_request SSH_FXP_MKDIR (
    let! buf := buf_init 0 in
    let! buf := add_path buf path in
    let! buf := buf_add_uint32 buf SSH_FILEXFER_ATTR_PERMISSIONS in
    buf_add_uint32 buf mode).

Definition sshfs_mknod (path : list ascii) (mode : Z) : HP Z :=
  if negb (Z.land mode S_IFMT =? S_IFREG) then hret (- EPERM)
  else
    let? c := get_conn None None in
    let? buf := lift (
      let! buf := buf_init 0 in
      let! buf := add_path buf path in
      let! buf := buf_add_uint32 buf (Z.lor (Z.lor SSH_FXF_WRITE SSH_FXF_CREAT) SSH_FXF_EXCL) in
      let! buf := buf_add_uint32 buf SSH_FILEXFER_ATTR_PERMISSIONS in
      buf_add_uint32 buf mode) in
    let? (err, handle) := request' c SSH_FXP_OPEN buf SSH_FXP_HANDLE in
    if negb (err =? 0) then hret err
    else
      let? handle := lift (deref handle) in
      let? (err2, _) := request' c SSH_FXP_CLOSE (buf_finish handle) SSH_FXP_STATUS in
      hret err2.

Definition sshfs_symlink (from to : list ascii) : HP Z :=
  let? s := sget in
  if server_version s <? 3 then hret (- EPERM)
  else status_request SSH_FXP_SYMLINK (
    let! buf := buf_init 0 in
    let! buf := buf_add_string buf from in
    add_path buf to).

Definition sshfs_unlink (path : list ascii) : HP Z :=
  status_request SSH_FXP_REMOVE (let! buf := buf_init 0 in add_path buf path).

Definition sshfs_rmdir (path : list ascii) : HP Z :=
  status_request SSH_FXP_RMDIR (let! buf := buf_init 0 in add_path buf path).

Definition sshfs_do_rename (from to : list ascii) : HP Z :=
  status_request SSH_FXP_RENAME (let! buf := buf_init 0 in let! buf := add_path buf from in add_path buf to).

Definition sshfs_ext_posix_rename (from to : list ascii) : HP Z :=
  status_request SSH_FXP_EXTENDED (
    let! buf := buf_init 0 in
    let! buf := buf_add_string buf SFTP_EXT_POSIX_RENAME in
    let! buf := add_path buf from in
    add_path buf to).

(** [rand]: the numbers that [rand_r] gives. *)
Definition random_string (rand : list Z) : list ascii := map (fun r => byte_of_Z (48 + r mod 10)) rand.

Definition rename_aside (from to : list ascii) (rand : list Z) (err : Z) : HP Z :=
  if Z.of_nat (length to) + RENAME_TEMP_CHARS <? PATH_MAX then
    let totmp := to ++ random_string (take (Z.to_nat RENAME_TEMP_CHARS) rand) in
    let? tmperr := sshfs_do_rename to totmp in
    if tmperr =? 0 then
      let? err := sshfs_do_rename from to in
      if err =? 0 then sshfs_unlink totmp
      else do? sshfs_do_rename totmp to; hret err
    else hret err
  else hret err.

Definition sshfs_rename (from to : list ascii) (flags : Z) (rand : list Z) : HP Z :=
  if negb (flags =? 0) then hret (- EINVAL)
  else
    let? s := sget in
    let? err := if ext_posix_rename s then sshfs_ext_posix_rename from to else sshfs_do_rename from to in
    let? s := sget in
    let? err := if (err =? - EPERM) && rename_workaround s then rename_aside from to rand err else hret err in
    let err := if (err =? - EPERM) && renamexdev_workaround fopts then - EXDEV else err in
    let? s := sget in
    do? (if (err =? 0) && (1 <? length (conns s))%nat then
           do? lock;
           fmodify (fun e => match conntab e !! from with
                             | Some ce => set_conntab (delete from (<[to := ce]> (conntab e))) e
                             | None => e
                             end)
         else hret tt);
    hret err.

Definition sshfs_link (from to : list ascii) : HP Z :=
  let? s := sget in
  if ext_hardlink s && negb (disable_hardlink fopts) then
    status_request SSH_FXP_EXTENDED (
      let! buf := buf_init 0 in
      let! buf := buf_add_string buf SFTP_EXT_HARDLINK in
      let! buf := add_path buf from in
      add_path buf to)
  else hret (- ENOSYS).

(** ** Attributes *)

(** The file, when a pointer is given: [Some None] without one, [None] when its
    connection is gone. *)
Definition fi_file (fi : file_ptr) : HP (option (option sshfs_file)) :=
  match fi with
  | FiNull => hret (Some None)
  | _ =>
      let? sf := get_sshfs_file fi in
      let? ok := sshfs_file_is_conn sf in
      if negb ok then hret None else let? f := file_at sf in hret (Some (Some f))
  end.

(** A request about a file or a path that is answered with a status. *)
Definition setstat (f : option sshfs_file) (path : list ascii) (cpath : option (list ascii))
    (attrs : buffer -> outcome buffer) : HP Z :=
  let? buf := lift (
    let! buf := buf_init 0 in
    let! buf := match f with None => add_path buf path | Some f => buf_add_buf buf (sf_handle f) end in
    attrs buf) in
  let? c := get_conn f cpath in
  let? (err, _) := request' c (match f with None => SSH_FXP_SETSTAT | Some _ => SSH_FXP_FSETSTAT end) buf SSH_FXP_STATUS in
  hret err.

Definition sshfs_chmod (path : list ascii) (mode : Z) (fi : file_ptr) : HP Z :=
  let? f := fi_file fi in
  match f with
  | None => hret (- EIO)
  | Some f => setstat f path None (fun buf =>
      let! buf := buf_add_uint32 buf SSH_FILEXFER_ATTR_PERMISSIONS in buf_add_uint32 buf mode)
  end.

Definition remote_id (cfg : sshfs_ids) (map : option (Z -> option Z)) (remote local id : Z) : option Z :=
  let id := if remote_uid_detected cfg && (id =? local) then remote else id in
  match map with
  | Some map => if idmap_file cfg then translate_id cfg id map else Some id
  | None => Some id
  end.

Definition sshfs_chown (path : list ascii) (uid gid : Z) (fi : file_ptr) : HP Z :=
  let? f := fi_file fi in
  match f with
  | None => hret (- EIO)
  | Some f =>
      let? s := sget in
      match remote_id (ids s) (r_uid_map fopts) (remote_uid (ids s)) (local_uid (ids s)) uid,
            remote_id (ids s) (r_gid_map fopts) (remote_gid (ids s)) (local_gid (ids s)) gid with
      | Some uid, Some gid =>
          setstat f path None (fun buf =>
            let! buf := buf_add_uint32 buf SSH_FILEXFER_ATTR_UIDGID in
            let! buf := buf_add_uint32 buf uid in
            buf_add_uint32 buf gid)
      | _, _ => hret (- EPERM)
      end
  end.

(** [now]: the time of day. *)
Definition sshfs_utimens (path : list ascii) (asec msec now : Z) (fi : file_ptr) : HP Z :=
  let asec := if asec =? 0 then now else asec in
  let msec := if msec =? 0 then now else msec in
  let? f := fi_file fi in
  match f with
  | None => hret (- EIO)
  | Some f => setstat f path (Some path) (fun buf =>
      let! buf := buf_add_uint32 buf SSH_FILEXFER_ATTR_ACMODTIME in
      let! buf := buf_add_uint32 buf (u32 asec) in
      buf_add_uint32 buf (u32 msec))
  end.

(** The result, and the attributes when it is 0. *)
Definition sshfs_getattr (path : option (list ascii)) (fi : file_ptr) : HP (Z * option stat) :=
  let? f := if fstat_workaround fopts then hret (Some None) else fi_file fi in
  match f with
  | None => hret (- EIO, None)
  | Some f =>
      let? s := sget in
      let? r := match f, path with
                | Some f, _ =>
                    let? buf := lift (let! buf := buf_init 0 in buf_add_buf buf (sf_handle f)) in
                    let? r := request' (sf_conn f) SSH_FXP_FSTAT buf SSH_FXP_ATTRS in hret (Some r)
                | None, Some path =>
                    let? buf := lift (let! buf := buf_init 0 in add_path buf path) in
                    let? c := get_conn None (Some path) in
                    let? r := request' c (if follow_symlinks (ids s) then SSH_FXP_STAT else SSH_FXP_LSTAT) buf SSH_FXP_ATTRS in
                    hret (Some r)
                | None, None => hret None
                end in
      match r with
      | None => hret (- EIO, None)
      | Some (err, outbuf) =>
          if negb (err =? 0) then hret (err, None)
          else
            let? outbuf := lift (deref outbuf) in
            let? s := sget in
            let? (res, _) := lift (buf_get_attrs (ids s) outbuf) in
            hret (res.1.1, res.2)
      end
  end.

Definition sshfs_access (path : list ascii) (mask : Z) : HP Z :=
  if negb (Z.land mask X_OK =? 0) then
    let? (err, st) := sshfs_getattr (Some path) FiNull in
    match st with
    | Some st => hret (if (err =? 0) && S_ISREG (st_mode st) && (Z.land (st_mode st) 73 =? 0) then - EACCES else err)
    | None => hret err
    end
  else hret 0.

(** The result, and the data when the server has them. *)
Definition sshfs_ext_statvfs (path : list ascii) : HP (Z * option statvfs) :=
  let? buf := lift (let! buf := buf_init 0 in let! buf := buf_add_string buf SFTP_EXT_STATVFS in add_path buf path) in
  let? c := get_conn None None in
  let? (err, outbuf) := request' c SSH_FXP_EXTENDED buf SSH_FXP_EXTENDED_REPLY in
  if negb (err =? 0) then hret (err, None)
  else
    let? outbuf := lift (deref outbuf) in
    let? (r, _) := lift (buf_get_statvfs outbuf) in
    hret (match r with None => (- EIO, None) | Some st => (0, Some st) end).

(** [old]: what the caller's structure holds. *)
Definition sshfs_statfs (path : list ascii) (old : statvfs) : HP (Z * statvfs) :=
  let? s := sget in
  if ext_statvfs s then
    let? (err, st) := sshfs_ext_statvfs path in hret (err, default old st)
  else
    let bs := blksize (ids s) in
    if bs =? 0 then lift Undef
    else
      let blocks := 1000 * 1024 * 1024 * 1024 / bs in
      hret (0, Statvfs bs bs blocks blocks blocks 1000000000 1000000000 (f_favail old) 255).

(** ** Opening and closing *)

Definition on_cache {A} (e : prog C A) : HP A := fun t =>
  let! (a, c) := e (attr_cache (ext t)) in Ret (Some a, set_ext (set_attr_cache c (ext t)) t).

(** The flags of the protocol; [None] when the access mode is none. *)
Definition open_pflags (flags : Z) : option Z :=
  let acc := Z.land flags O_ACCMODE in
  let set (f p v : Z) := if negb (Z.land flags f =? 0) then Z.lor v p else v in
  match (if acc =? O_RDONLY then Some SSH_FXF_READ
         else if acc =? O_WRONLY then Some SSH_FXF_WRITE
         else if acc =? O_RDWR then Some (Z.lor SSH_FXF_READ SSH_FXF_WRITE)
         else None) with
  | None => None
  | Some v => Some (set O_APPEND SSH_FXF_APPEND (set O_TRUNC SSH_FXF_TRUNC (set O_EXCL SSH_FXF_EXCL (set O_CREAT SSH_FXF_CREAT v))))
  end.

Definition add_file_count (d : Z) (x : conn) : conn :=
  Conn (processing_thread_started x) (rfd x) (wfd x) (connver x) (req_count x) (dir_count x) (i32 (file_count x + d)).
Definition count_file (c : nat) (d : Z) : HP unit := hrun (on_ses (conn_upd c (add_file_count d))).

(** The connection for a path that is opened, counted when there are several. *)
Definition open_conn (path : list ascii) : HP nat :=
  let? s := sget in
  if (1 <? length (conns s))%nat then
    let? e := fget in
    let? ce := match conntab e !! path with
               | Some ce => hret ce
               | None => let? c := get_conn None None in hret (0, c)
               end in
    do? fmodify (fun e => set_conntab (<[path := (ce.1 + 1, ce.2)]> (conntab e)) e);
    do? count_file ce.2 1;
    hret ce.2
  else hret 0%nat.
(** A file of the path is closed. *)
Definition close_path (c : nat) (path : list ascii) : HP unit :=
  let? s := sget in
  if (1 <? length (conns s))%nat then
    do? lock;
    do? count_file c (-1);
    fupdate (fun e =>
      let! ce := deref (conntab e !! path) in
      Ret (set_conntab (if ce.1 - 1 =? 0 then delete path (conntab e) else <[path := (ce.1 - 1, ce.2)]> (conntab e)) e))
  else hret tt.

(** The attributes of the path that is opened. *)
Definition open_getattr (c : nat) (path : list ascii) : HP (Z * option stat) :=
  let? s := sget in
  let? buf := lift (let! buf := buf_init 0 in add_path buf path) in
  let? (err, outbuf) := request' c (if follow_symlinks (ids s) then SSH_FXP_STAT else SSH_FXP_LSTAT) buf SSH_FXP_ATTRS in
  if negb (err =? 0) then hret (err, None)
  else
    let? outbuf := lift (deref outbuf) in
    let? s := sget in
    let? (res, _) := lift (buf_get_attrs (ids s) outbuf) in
    hret (res.1.1, res.2).

(** The result, and the address of the file when it is 0.  The request to open is sent
    first and waited for last. *)
Definition sshfs_open_common (path : list ascii) (flags mode : Z) : HP (Z * Z) :=
  let? wrctr := if dir_cache fopts then on_cache oc_write_ctr else hret 0 in
  match open_pflags flags with
  | None => hret (- EINVAL, 0)
  | Some pflags =>
      let? sf := new_addr in
      do? lock;
      let? e := fget in
      let? c := open_conn path in
      let? s := sget in
      let? x := lift (deref (conns s !! c)) in
      let? iov := lift (
        let! buf := buf_init 0 in
        let! buf := add_path buf path in
        let! buf := buf_add_uint32 buf pflags in
        let! buf := buf_add_uint32 buf SSH_FILEXFER_ATTR_PERMISSIONS in
        let! buf := buf_add_uint32 buf mode in
        buf_to_iov buf) in
      let? (_, open_req) := sftp_request_send (reconnect opts) patience c SSH_FXP_OPEN [iov] None None 1 in
      let? (err2, st) := open_getattr c path in
      let? open_req := lift (deref open_req) in
      let? (err, handle) := sftp_request_wait (reconnect opts) patience open_req SSH_FXP_OPEN SSH_FXP_HANDLE in
      let? err := if (err =? 0) && negb (err2 =? 0) then
                    let? handle := lift (deref handle) in
                    do? request' c SSH_FXP_CLOSE (buf_finish handle) 0; hret err2
                  else hret err in
      if err =? 0 then
        let? handle := lift (deref handle) in
        let? st := lift (deref st) in
        do? (if dir_cache fopts then on_cache (oc_add_attr path st wrctr) else hret tt);
        do? fmodify (fun e' => set_sfiles (<[sf := SshfsFile (buf_finish handle) [] 0 None 0 false c (connver x)
              (i32 (modifver e))]> (sfiles e')) e');
        hret (0, sf)
      else
        do? (if dir_cache fopts then on_cache (oc_invalidate path) else hret tt);
        do? close_path c path;
        hret (err, 0)
  end.

Definition sshfs_create (path : list ascii) (flags mode : Z) : HP (Z * Z) :=
  sshfs_open_common path flags (if createmode_workaround fopts then 0 else mode).

(** Without a path only the handle is freed. *)
Definition sshfs_release (path : option (list ascii)) (fi : file_ptr) : HP Z :=
  let? sf := get_sshfs_file fi in
  let? ok := sshfs_file_is_conn sf in
  do? (if (ok : bool) then
         do? sshfs_flush fi;
         let? f := file_at sf in
         do? request' (sf_conn f) SSH_FXP_CLOSE (sf_handle f) 0; hret tt
       else hret tt);
  do? fupdate (upd_file sf (set_handle (Buffer None 0 0)));
  match path with
  | None => hret 0
  | Some path =>
      let? f := file_at sf in
      do? chunk_put_locked (readahead f);
      do? close_path (sf_conn f) path;
      do? fmodify (fun e => set_sfiles (delete sf (sfiles e)) e);
      hret 0
  end.

(** ** Truncating *)

(** The variable that the file's address is stored in is what the functions below get. *)
Definition sshfs_truncate_zero (path : list ascii) : HP Z :=
  let? (err, _) := sshfs_open_common path (Z.lor O_WRONLY O_TRUNC) 0 in
  do? (if err =? 0 then do? sshfs_release (Some path) FiVar; hret tt else hret tt);
  hret err.

Definition sshfs_truncate_extend (path : option (list ascii)) (size : Z) (fi : file_ptr) : HP Z :=
  match fi with
  | FiNull =>
      let? path := lift (deref path) in
      let? (res, _) := sshfs_open_common path O_WRONLY 0 in
      if negb (res =? 0) then hret res
      else
        let? res := sshfs_write [nul] (size - 1) FiVar in
        let? res := if res =? 1 then sshfs_flush FiVar else hret res in
        do? sshfs_release (Some path) FiVar;
        hret res
  | _ =>
      let? res := sshfs_write [nul] (size - 1) fi in
      if res =? 1 then sshfs_flush fi else hret res
  end.

Definition calc_buf_size (size offset : Z) : Z := if offset + max_read fopts <? size then max_read fopts else size - offset.

(** The first [size] bytes; the last result of [sshfs_read], 0 or less than 0 when it
    ended the loop, and the bytes. *)
Fixpoint shrink_read (fuel : nat) (size offset res : Z) (data : list ascii) : HP (Z * list ascii) :=
  if offset <? size then
    match fuel with
    | O => lift Undef
    | S fuel =>
        let? (res, d) := sshfs_read (calc_buf_size size offset) offset FiVar in
        if res <=? 0 then hret (res, data) else shrink_read fuel size (offset + res) res (data ++ d)
    end
  else hret (res, data).
Fixpoint shrink_write (fuel : nat) (size offset res : Z) (data : list ascii) : HP Z :=
  if offset <? size then
    match fuel with
    | O => lift Undef
    | S fuel =>
        let n := calc_buf_size size offset in
        let? res := sshfs_write (take (Z.to_nat n) (drop (Z.to_nat offset) data)) offset FiVar in
        if res <? 0 then hret res else shrink_write fuel size (offset + res) res data
    end
  else hret res.
Definition sshfs_truncate_shrink (path : list ascii) (size : Z) : HP Z :=
  if size <? 0 then hret (- ENOMEM) else
  let? (res, _) := sshfs_open_common path O_RDONLY 0 in
  if negb (res =? 0) then hret res
  else
    let? (res, data) := shrink_read (Z.to_nat size) size 0 res [] in
    do? sshfs_release (Some path) FiVar;
    if res <? 0 then hret res
    else
      let data := data ++ replicate (Z.to_nat size - length data) nul in
      let? (res, _) := sshfs_open_common path (Z.lor O_WRONLY O_TRUNC) 0 in
      if negb (res =? 0) then hret res
      else
        let? res := shrink_write (Z.to_nat size) size 0 res data in
        let? res := if res >=? 0 then sshfs_flush FiVar else hret res in
        do? sshfs_release (Some path) FiVar;
        hret res.

Definition sshfs_truncate_workaround (path : option (list ascii)) (size : Z) (fi : file_ptr) : HP Z :=
  if size =? 0 then let? path := lift (deref path) in sshfs_truncate_zero path
  else
    let? (err, st) := sshfs_getattr path fi in
    if negb (err =? 0) then hret err
    else
      let? st := lift (deref st) in
      if st_size st =? size then hret 0
      else if st_size st >? size then let? path := lift (deref path) in sshfs_truncate_shrink path size
      else sshfs_truncate_extend path size fi.

Definition sshfs_truncate (path : option (list ascii)) (size : Z) (fi : file_ptr) : HP Z :=
  let? f := fi_file fi in
  match f with
  | None => hret (- EIO)
  | Some f =>
      do? sshfs_inc_modifver;
      if truncate_workaround fopts then sshfs_truncate_workaround path size fi
      else match f, path with
           | None, None => hret (- EIO)
           | _, _ => setstat f (default [] path) path (fun buf =>
               let! buf := buf_add_uint32 buf SSH_FILEXFER_ATTR_SIZE in buf_add_uint64 buf (u64 size))
           end
  end.

(** ** Links *)

(** The result, and the target cut to the caller's buffer. *)
Definition sshfs_readlink (path : list ascii) (size : Z) : HP (Z * list ascii) :=
  if size <=? 0 then pexit
  else
    let? s := sget in
    if server_version s <? 3 then hret (- EPERM, [])
    else
      let? buf := lift (let! buf := buf_init 0 in add_path buf path) in
      let? c := get_conn None None in
      let? (err, name) := request' c SSH_FXP_READLINK buf SSH_FXP_NAME in
      if negb (err =? 0) then hret (err, [])
      else
        let? name := lift (deref name) in
        let? (count, name) := lift (buf_get_uint32 name) in
        match count with
        | Some 1 =>
            let? (l, _) := lift (buf_get_string name) in
            match l with
            | None => hret (- EIO, [])
            | Some l =>
                let? l := lift (if transform_symlinks fopts then transform_symlink (base_path fopts) path (cstr l) else Ret (cstr l)) in
                hret (0, take (Z.to_nat (size - 1)) l)
            end
        | _ => hret (- EIO, [])
        end.

(** ** The interface of the library

    The functions for open files pass the address of their argument.  The operations
    are those of [sshfs_oper]; with a directory cache [cache_fill] of Cache.v puts its own
    functions before four of them. *)

Definition usfs_open (path : list ascii) (flags mode : Z) : HP (Z * Z) :=
  let? (rc, fh) := sshfs_open_common path flags mode in hret (- rc, fh).
Definition usfs_read (fh size offset : Z) : HP (Z * list ascii) :=
  let? (rc, d) := sshfs_read size offset FiVar in hret (- rc, d).
Definition usfs_write (fh : Z) (buf : list ascii) (offset : Z) : HP Z :=
  let? rc := sshfs_write buf offset FiVar in hret (- rc).
Definition usfs_fsync (fh : Z) : HP Z := let? rc := sshfs_fsync FiVar in hret (- rc).
Definition usfs_truncate (path : list ascii) (length : Z) : HP Z :=
  let? rc := sshfs_truncate (Some path) length FiNull in hret (- rc).
Definition usfs_ftruncate (fh offset : Z) : HP Z :=
  let? rc := sshfs_truncate None offset FiVar in hret (- rc).
Definition usfs_fgetattr (fh : Z) : HP (Z * option stat) :=
  let? (rc, st) := sshfs_getattr None FiVar in hret (- rc, st).
Definition usfs_getattr (path : list ascii) : HP (Z * option stat) :=
  let? (rc, st) := sshfs_getattr (Some path) FiNull in hret (- rc, st).
Definition usfs_unlink (path : list ascii) : HP Z :=
  let? rc := sshfs_unlink path in hret (- rc).
Definition usfs_close (fh : Z) : HP Z := let? rc := sshfs_release None FiVar in hret (- rc).
End Files.
