(* ===== verification/SftpSession.v ===== *)
(** * Connecting is safe, and the client is a safe client

    SftpRequests.v proves the request table safe for any connections and any end
    functions that do not go wrong themselves.  Here the code of the repository is shown
    to be of that kind.

    The connections of SftpConn.v ([session_transport]): whatever the server sends, and
    however the system breaks it up, no step of connecting reads or writes outside a
    buffer ([connecting_is_safe]).  What is asked of the system are bounds on the results
    of its calls ([PeerLaws]); memory may run out, which ends the process.

    The end functions of SftpFiles.v ([file_callbacks]): they return whenever the chunk,
    file or counter they are called for is there ([file_callbacks_safe]). *)

From Stdlib Require Import ZArith Lia Ascii String.
From stdpp Require Import base list gmap.
From S2P Require Import Prelude World Cache SftpBuf SftpConn SftpRequests SftpLinks SftpFiles.

Local Open Scope Z_scope.

(** ** The system *)

(** The results of calls are in their ranges.  [input] bounds what all peers will still
    send; only reading takes from it, and no call adds to it. *)
Class PeerLaws (W : Type) `{!Channel W} `{!Dialer W} := {
  input : W -> nat;
  read_bounded fd n w : 0 < n -> let '(r, bytes, w') := read_fd fd n w in
    -1 <= r <= n /\ r < 2 ^ 31 /\ (0 < r -> Z.of_nat (length bytes) = r) /\ (input w' + Z.to_nat r <= input w)%nat;
  write_bounded fd iov w : let '(r, w') := writev fd iov w in
    -1 <= r <= Z.of_nat (length (concat iov)) /\ r < 2 ^ 31 /\ (input w' <= input w)%nat;
  close_quiet fd w : (input (close_fd fd w) <= input w)%nat;
  getaddrinfo_quiet h p w : (input (getaddrinfo h p w).2 <= input w)%nat;
  socket_quiet ai w : (input (socket ai w).2 <= input w)%nat;
  connect_quiet fd ai w : (input (connect fd ai w).2 <= input w)%nat;
  set_nodelay_quiet fd w : (input (set_nodelay fd w) <= input w)%nat;
  socketpair_quiet w : (input (socketpair w).2 <= input w)%nat;
  fork_quiet fd w : (input (fork_ssh fd w).2 <= input w)%nat;
  waitpid_quiet pid w : (input (waitpid pid w) <= input w)%nat;
  open_quiet p f w : (input (open_fd p f w).2 <= input w)%nat;
  grantpt_quiet fd w : (input (grantpt fd w).2 <= input w)%nat;
  unlockpt_quiet fd w : (input (unlockpt fd w).2 <= input w)%nat;
  write_fd_quiet fd d w : (input (write_fd fd d w) <= input w)%nat;
  poll_quiet fd fd' t w : (input (poll2 fd fd' t w).2 <= input w)%nat;
  thread_quiet w : (input (thread_create w).2 <= input w)%nat }.
#[export] Hint Resolve close_quiet getaddrinfo_quiet socket_quiet connect_quiet set_nodelay_quiet socketpair_quiet fork_quiet
  waitpid_quiet open_quiet grantpt_quiet unlockpt_quiet write_fd_quiet poll_quiet thread_quiet : peer.

(** ** Messages *)

Section Safe.
Context `{HeapLaws} {W : Type} `{!Channel W} `{!Dialer W} `{!PeerLaws W}.

(** An allocation fails. *)
Definition exhausted : Prop := no_memory \/ exists b n, realloc b n = None.

(** A program on the system that does not go wrong; [P] of its result. *)
Definition tame {A} (e : prog W A) (P : A -> Prop) : Prop :=
  forall w, wp exhausted e w (fun a w' => (input w' <= input w)%nat /\ P a).

(** A new buffer, or one that a message has been read to. *)
Definition block (b : buffer) (n : Z) : Prop :=
  n = 0 /\ b = Buffer None 0 0 \/ exists m, b = reply_at m 0 /\ Z.of_nat (length m) = n /\ 0 < n.

(** The computation returns a value with [P], or ends the process for want of memory. *)
Definition may {A} (o : outcome A) (P : A -> Prop) : Prop := match o with Ret a => P a | Exit => exhausted | Undef => False end.
Lemma may_bind {A B} (o : outcome A) (k : A -> outcome B) P Q : may o P -> (forall a, P a -> may (k a) Q) -> may (let! x := o in k x) Q.
Proof. unfold mbind, outcome_bind. destruct o; cbn; auto. Qed.
Lemma may_mono {A} (o : outcome A) (P Q : A -> Prop) : may o P -> (forall a, P a -> Q a) -> may o Q.
Proof. destruct o; cbn; auto. Qed.
Lemma wp_may {S A} (o : outcome A) (s : S) P (Q : A -> S -> Prop) : may o P -> (forall a, P a -> Q a s) -> wp exhausted (plift o) s Q.
Proof. unfold wp, plift. destruct o; cbn; auto. Qed.

Lemma init_may n : 0 <= n -> may (buf_init n) (fun b => block b n).
Proof using H0.
  intros Hn. unfold buf_init. destruct (Z.eqb_spec n 0) as [->|Hz]; [by left|]. destruct (malloc n) as [m|] eqn:Em; [|left; by exists n].
  right. assert (0 < n) as Hp by lia. pose proof (malloc_size _ _ Hp Em). exists m. unfold reply_at. split; [|lia].
  cbn. f_equal. lia.
Qed.

Lemma write_loop_tame fuel fd iov : (iov_size iov <= fuel)%nat -> tame (do_write_loop fuel fd iov) (fun _ => True).
Proof using PeerLaws0.
  revert iov. induction fuel as [|fuel IH]; intros iov Hf w.
  - destruct iov as [|s iov]; [by apply wp_ret|]. unfold iov_size in Hf. cbn in Hf. lia.
  - destruct iov as [|s iov]; [by apply wp_ret|]. cbn [do_write_loop]. apply wp_bind, wp_call.
    pose proof (write_bounded fd (s :: iov) w) as Hw. destruct (writev fd (s :: iov) w) as [r w1]. destruct Hw as (Hr & Hr31 & Hi).
    cbn [fst snd]. rewrite swrap_small by (cbn; lia).
    destruct (Z.eqb_spec r (-1)); [by apply wp_ret|]. destruct (Z.eqb_spec r 0); [by apply wp_ret|].
    destruct (advance_spec (Z.to_nat r) (s :: iov)) as (_ & _ & Hsz); [lia..|]. rewrite Z2Nat.id in Hsz by lia.
    eapply wp_mono; [apply IH; lia|]. cbv beta. intros a w2 [Hi2 _]. split; [lia|done].
Qed.

Lemma read_loop_tame fuel fd m off size : 0 <= off -> 0 <= size < 2 ^ 64 -> off + size <= Z.of_nat (length m) -> size <= Z.of_nat fuel ->
  forall w, wp exhausted (do_read_loop fuel fd (Some m) off size) w (fun r w' =>
    match r with
    | Some p => (exists m', p = Some m' /\ length m' = length m) /\ (input w' + Z.to_nat size <= input w)%nat
    | None => (input w' <= input w)%nat
    end).
Proof using PeerLaws0.
  revert m off size. induction fuel as [|fuel IH]; intros m off size Ho Hs Hm Hf w; cbn [do_read_loop].
  - assert (size = 0) as -> by lia. apply wp_ret. split; [by exists m|cbn; lia].
  - destruct (Z.eqb_spec size 0) as [->|Hz]; [apply wp_ret; split; [by exists m|cbn; lia]|].
    apply wp_bind, wp_call. pose proof (read_bounded fd size w ltac:(lia)) as Hr.
    destruct (read_fd fd size w) as [[r bytes] w1]. destruct Hr as (Hr & Hr31 & Hb & Hi). cbn [fst snd].
    rewrite swrap_small by (cbn; lia).
    destruct (Z.eqb_spec r (-1)); [apply wp_ret; lia|]. destruct (Z.eqb_spec r 0); [apply wp_ret; lia|].
    specialize (Hb ltac:(lia)). rewrite take_ge by lia. apply wp_bind.
    assert (mem_store (Some m) off bytes = Ret (Some (splice m (Z.to_nat off) bytes))) as Est.
    { unfold mem_store. destruct bytes; [cbn in Hb; lia|]. by rewrite (proj2 (Z.leb_le _ _) Ho), (proj2 (Z.leb_le _ _)) by lia. }
    eapply (wp_lift _ _ _ _ _ Est). rewrite wrap_small by lia.
    assert (length (splice m (Z.to_nat off) bytes) = length m) as Hl
      by (unfold splice; rewrite !length_app, length_take, length_drop; lia).
    eapply wp_mono; [apply (IH (splice m (Z.to_nat off) bytes)); rewrite ?Hl; lia|]. cbv beta.
    intros [p|] w2; [|lia]. intros [(m' & -> & Hm') Hi2]. split; [exists m'; split; [done|congruence]|lia].
Qed.

(** A buffer is filled, from at most what the peers send. *)
Lemma read_tame fd b n w : block b n -> n < 2 ^ 64 ->
  wp exhausted (do_read fd b) w (fun r w' =>
    match r with Some b' => block b' n /\ (input w' + Z.to_nat n <= input w)%nat | None => (input w' <= input w)%nat end).
Proof using PeerLaws0.
  intros Hb Hn. unfold do_read. apply wp_bind. destruct Hb as [[-> ->]|(m & -> & Hm & Hp)].
  - cbn. apply wp_ret. split; [by left|cbn; lia].
  - cbn [buf_size buf_p reply_at buf_len]. eapply wp_mono; [apply read_loop_tame; lia|]. cbv beta.
    intros [p|] w'; [|by intros Hi; apply wp_ret]. intros [(m' & -> & Hm') Hi]. apply wp_ret. split; [|lia].
    right. exists m'. unfold reply_at. rewrite Hm'. done.
Qed.

Lemma get_safe {A S} k ok (e : prog buffer A) l off (s : S) (Q : A * buffer -> S -> Prop) : safe_read k ok e ->
  (off <= length l)%nat -> Z.of_nat (length l) < 2 ^ 32 ->
  (forall r off', (off <= off' <= length l)%nat -> (ok r = true -> (off + k <= off')%nat) -> Q (r, reply_at l off') s) ->
  wp exhausted (plift (e (reply_at l off))) s Q.
Proof.
  intros He Ho Hl HQ. specialize (He l off Ho Hl). unfold wp, plift in *. destruct (e (reply_at l off)) as [[r b]| |]; [|by left|done].
  destruct He as (off' & -> & Hoff & Hr). by apply HQ.
Qed.

Lemma safe_uint8 : safe_read 1 some buf_get_uint8.
Proof.
  intros l off Ho Hl. unfold wp, buf_get_uint8, pbind. rewrite get_mem_at by lia. change (Z.to_nat 1) with 1%nat.
  destruct (Nat.leb_spec (off + 1) (length l)); cbn.
  - exists (off + 1)%nat. split; [done|]. lia.
  - exists off. split; [done|]. split; [lia|done].
Qed.

(** Adding to a buffer, with memory that may run out. *)
Lemma resize_may b c n : holds b c -> 0 <= n -> Z.of_nat (length c) + n < 2 ^ 63 ->
  may (buf_resize b n) (fun b' => holds b' c /\ Z.of_nat (length c) + n <= buf_size b').
Proof using H0.
  intros [Hlen Hp] Hn Hm. unfold buf_resize. rewrite Hlen, (wrap_small 64 (_ + _ + 63)), land_not_31 by lia.
  set (size := 32 * ((Z.of_nat (length c) + n + 63) / 32)).
  assert (Z.of_nat (length c) + n + 32 <= size) as Hsz.
  { unfold size. pose proof (Z.div_mod (Z.of_nat (length c) + n + 63) 32 ltac:(lia)).
    pose proof (Z.mod_pos_bound (Z.of_nat (length c) + n + 63) 32 ltac:(lia)). lia. }
  assert (0 < size) as Hpos by lia. clearbody size. destruct (buf_p b) as [l|].
  - destruct (realloc l size) as [l'|] eqn:E; [|right; by exists l, size]. destruct Hp as (Hz & rest & ->).
    pose proof (realloc_size _ _ _ Hpos E) as Hl'. pose proof (realloc_keeps _ _ _ Hpos E) as Hk.
    cbn. split; [|lia]. split; [done|]. cbn. split; [done|].
    exists (drop (length c) l'). rewrite <- (take_drop (length c) l') at 1. f_equal.
    apply (f_equal (take (length c))) in Hk. rewrite !take_take, !Nat.min_l in Hk by (rewrite length_app; lia).
    by rewrite Hk, take_app_length.
  - destruct (malloc size) as [l'|] eqn:E; [|left; by exists size]. destruct Hp as [-> Hz].
    pose proof (malloc_size _ _ Hpos E) as Hl'. cbn. split; [|cbn in *; lia]. split; [done|]. cbn. split; [done|]. by exists l'.
Qed.

Lemma add_mem_may b c d : holds b c -> Z.of_nat (length (c ++ d)) < 2 ^ 63 -> may (buf_add_mem b d) (fun b' => holds b' (c ++ d)).
Proof using H0.
  intros Hb Hm. pose proof Hb as [Hlen _]. rewrite length_app in Hm. unfold buf_add_mem.
  apply (may_bind _ _ (fun b' => holds b' c /\ Z.of_nat (length c) + Z.of_nat (length d) <= buf_size b')).
  - unfold buf_check_add. rewrite Hlen, (wrap_small 64), Z.gtb_ltb by lia.
    destruct (Z.ltb_spec (buf_size b) (Z.of_nat (length c) + Z.of_nat (length d))) as [Hlt|Hge]; [apply resize_may; done || lia|cbn; split; [done|lia]].
  - intros b1 [Hb1 Hs1]. destruct (store_holds b1 c d Hb1) as (b2 & -> & Hb2); [rewrite length_app; lia..|]. done.
Qed.

Lemma block_holds b n : block b n -> holds b [].
Proof. intros [[_ ->]|(m & -> & _)]; [done|]. split; [done|]. cbn. split; [done|]. by exists m. Qed.
Lemma init_add n : 0 <= n -> may (buf_init n) (fun b => holds b []).
Proof using H0. intros Hn. eapply may_mono; [by apply init_may|]. intros b. apply block_holds. Qed.

Lemma add_string_may b c str : holds b c -> Z.of_nat (length c) + Z.of_nat (length str) < 2 ^ 62 ->
  may (buf_add_string b str) (fun b' => exists c', holds b' c').
Proof using H0.
  intros Hb Hs. unfold buf_add_string, buf_add_data. cbn [buf_len buf_p].
  eapply may_bind; [apply (add_mem_may b c); [done|rewrite length_app, length_be_bytes; lia]|]. intros b1 Hb1.
  rewrite load_string. cbn. eapply may_mono; [apply (add_mem_may b1 _ str Hb1); rewrite !length_app, length_be_bytes; lia|].
  intros b2 Hb2. cbv beta in Hb2. by eexists.
Qed.

Lemma send_tame fd type id iov : (length iov <= 2)%nat -> tame (sftp_send_iov fd type id iov) (fun _ => True).
Proof using H0 PeerLaws0.
  intros Hl w. unfold sftp_send_iov. change (SFTP_MAX_IOV - 1) with 2. rewrite Z.gtb_ltb, (proj2 (Z.ltb_ge _ _)) by lia.
  apply wp_bind. eapply wp_may.
  - eapply may_bind; [by apply init_add|]. intros b0 Hb0.
    eapply may_bind; [apply (add_mem_may b0 []); [done|rewrite length_app, length_be_bytes; cbn; lia]|]. intros b1 Hb1.
    eapply may_bind; [apply (add_mem_may b1 _ _ Hb1); rewrite !length_app, length_be_bytes; cbn; lia|]. intros b2 Hb2.
    apply (add_mem_may b2 _ _ Hb2). rewrite !length_app, !length_be_bytes. cbn. lia.
  - intros b Hb. cbv beta in Hb. apply wp_bind. eapply wp_lift; [exact (load_holds b _ Hb)|]. apply write_loop_tame. lia.
Qed.

(** A message of any kind. *)
Lemma sftp_read_tame fd w : wp exhausted (sftp_read fd) w (fun r w' => (input w' <= input w)%nat /\
  match r with Some (_, b) => exists n, block b n /\ n < 2 ^ 32 | None => True end).
Proof using H0 PeerLaws0.
  unfold sftp_read. apply wp_bind. eapply wp_may; [by apply (init_may 5)|]. intros b Hb. apply wp_bind.
  eapply wp_mono; [by apply (read_tame _ b 5)|]. cbv beta. intros [b1|] w1; [|by intros Hi; apply wp_ret].
  intros [[[? _]|(m & -> & Hm & _)] Hi]; [done|]. apply wp_bind, (get_safe 4 some); [apply safe_uint32|lia..|]. intros [len|] o1 Ho1 _.
  2: { apply wp_ret. split; [lia|done]. }
  destruct (len >? MAX_REPLY_LEN) eqn:El; [apply wp_ret; split; [lia|done]|].
  apply wp_bind, (get_safe 1 some); [apply safe_uint8|lia..|]. intros [ty|] o2 Ho2 _; [|apply wp_ret; split; [lia|done]].
  assert (0 <= u32 (len - 1) < 2 ^ 32) as Hn by (apply wrap_range; lia).
  apply wp_bind. eapply wp_may; [apply init_may; lia|]. intros b2 Hb2. apply wp_bind.
  eapply wp_mono; [apply (read_tame _ b2 _ _ Hb2); lia|]. cbv beta. intros [b3|] w3; [|intros Hi3; apply wp_ret; split; [lia|done]].
  intros [Hb3 Hi3]. apply wp_ret. split; [lia|]. exists (u32 (len - 1)). split; [done|lia].
Qed.
End Safe.

(** ** Connecting *)

Section Connecting.
Context `{HeapLaws} {W : Type} `{!Channel W} `{!Dialer W} `{!PeerLaws W}.
Context (opts : options) (patience max_conns : nat).
(** The password is forgotten after the first connection unless "reconnect" is set. *)
Hypothesis password_kept : password_stdin opts = true -> reconnect opts = true.
Implicit Types (s : session W).

(** The connections are there, the peers send less than [patience] bytes, and a password
    that ssh will ask for is there. *)
Definition session_ok s : Prop :=
  (max_conns <= length (conns s))%nat /\ (input (os s) < patience)%nat /\ (password_stdin opts = true -> is_Some (password s)).

(** A program that does not go wrong; under [X] it may end the process. *)
Definition does {A} (X : Prop) (e : prog (session W) A) (P : A -> Prop) : Prop :=
  forall s, session_ok s -> wp X e s (fun a s' => session_ok s' /\ (input (os s') <= input (os s))%nat /\ P a).

Lemma does_ret {A} X (a : A) (P : A -> Prop) : P a -> does X (pret a) P.
Proof. intros HP s Hs. by apply wp_ret. Qed.
Lemma does_bind {A B} X (e : prog (session W) A) (k : A -> prog (session W) B) P Q :
  does X e P -> (forall a, P a -> does X (k a) Q) -> does X (pbind e k) Q.
Proof.
  intros He Hk s Hs. apply wp_bind. eapply wp_mono; [by apply He|]. cbv beta. intros a s1 (Hs1 & Hi1 & Ha).
  eapply wp_mono; [by apply (Hk a)|]. cbv beta. intros b s2 (Hs2 & Hi2 & Hb). split; [done|]. split; [lia|done].
Qed.
Lemma does_seq {A B} X (e : prog (session W) A) (k : A -> prog (session W) B) Q :
  does X e (fun _ => True) -> (forall a, does X (k a) Q) -> does X (pbind e k) Q.
Proof. intros He Hk. eapply does_bind; [exact He|]. intros a _. apply Hk. Qed.
Lemma does_never {A} X (e : prog (session W) A) P : does False e P -> does X e P.
Proof. intros He s Hs. by apply wp_never, He. Qed.
Lemma does_any {A} X (e : prog (session W) A) P : does X e P -> does X e (fun _ => True).
Proof. intros He s Hs. eapply wp_mono; [by apply He|]. by intros a s' (? & ? & _). Qed.

Lemma does_os {A} (e : prog W A) P : (forall w, wp exhausted e w (fun a w' => (input w' <= input w)%nat /\ P a)) -> does exhausted (on_os e) P.
Proof.
  intros He s (Hc & Hi & Hp). specialize (He (os s)). unfold wp, on_os, pzoom in *. destruct (e (os s)) as [[a w]| |]; [|done|done].
  destruct He as [Hw Ha]. split; [|done]. split; [done|]. split; [cbn; lia|done].
Qed.
Lemma does_ocall {A} X (f : W -> A * W) : (forall w, (input (f w).2 <= input w)%nat) -> does X (ocall f) (fun _ => True).
Proof.
  intros Hf s (Hc & Hi & Hp). unfold wp, ocall, on_os, pzoom, pcall. specialize (Hf (os s)). destruct (f (os s)) as [a w].
  split; [|done]. split; [done|]. split; [cbn in *; lia|done].
Qed.
Lemma does_omodify X (f : W -> W) : (forall w, (input (f w) <= input w)%nat) -> does X (omodify f) (fun _ => True).
Proof. intros Hf s (Hc & Hi & Hp). specialize (Hf (os s)). split; [|done]. split; [done|]. split; [cbn; lia|done]. Qed.
Lemma does_get X : does X pget session_ok.
Proof. intros s Hs. by apply wp_get. Qed.
Lemma does_modify X (f : session W -> session W) :
  (forall s, session_ok s -> session_ok (f s) /\ (input (os (f s)) <= input (os s))%nat) -> does X (pmodify f) (fun _ => True).
Proof. intros Hf s Hs. apply wp_modify. by destruct (Hf s Hs). Qed.
Lemma does_conn_get X c : (c < max_conns)%nat -> does X (conn_get c) (fun _ => True).
Proof.
  intros Hc s Hs. destruct (lookup_lt_is_Some_2 (conns s) c) as [x Hx]; [destruct Hs; lia|]. unfold wp, conn_get. by rewrite Hx.
Qed.
Lemma does_conn_upd X c f : (c < max_conns)%nat -> does X (conn_upd c f) (fun _ => True).
Proof.
  intros Hc s Hs. destruct (lookup_lt_is_Some_2 (conns s) c) as [x Hx]; [destruct Hs; lia|]. unfold wp, conn_upd. rewrite Hx.
  cbn. split; [|done]. destruct Hs as (? & ? & ?). split; [cbn; by rewrite length_insert|done].
Qed.
Lemma does_may {A} (o : outcome A) P : may o P -> does exhausted (plift o) P.
Proof. intros Ho s Hs. by eapply wp_may; [exact Ho|]. Qed.

Lemma does_if {A} X (b : bool) (e1 e2 : prog (session W) A) P :
  (b = true -> does X e1 P) -> (b = false -> does X e2 P) -> does X (if b then e1 else e2) P.
Proof. destruct b; auto. Qed.

(** One step of a program that is made of such steps. *)
Ltac walk_step :=
  match goal with
  | |- does _ (pret _) _ => by apply does_ret
  | |- does _ (pbind pget _) _ => eapply does_bind; [apply does_get|intros ? ?]
  | |- does _ (pbind _ _) _ => eapply does_seq; [|intros ?]
  | |- does _ (ocall _) _ => apply does_ocall; intros; eauto with peer
  | |- does _ (omodify _) _ => apply does_omodify; intros; eauto with peer
  | |- does _ (conn_get _) _ => by apply does_conn_get
  | |- does _ (conn_upd _ _) _ => by apply does_conn_upd
  | |- does _ (pmodify _) _ => apply does_modify; intros s' (? & ? & ?); done
  | |- does _ (if ?b then _ else _) _ => destruct b
  | |- does _ (match ?x with _ => _ end) _ => destruct x
  | |- does _ (let '(_, _) := ?x in _) _ => destruct x
  end.
Ltac walk := repeat walk_step.

Lemma close_conn_does X c : (c < max_conns)%nat -> does X (close_conn c) (fun _ => True).
Proof. intros Hc. unfold close_conn. walk. Qed.

Lemma open_terminal_does X : does X open_terminal (fun _ => True).
Proof. unfold open_terminal, pty_master. walk. Qed.

Lemma start_ssh_does X c : (c < max_conns)%nat -> does X (start_ssh opts c) (fun _ => True).
Proof. intros Hc. unfold start_ssh. walk. apply open_terminal_does. Qed.

Lemma connect_to_does X c h p : (c < max_conns)%nat -> does X (connect_to c h p) (fun _ => True).
Proof. intros Hc. unfold connect_to. walk. Qed.

Lemma send_iov_does c type id iov : (c < max_conns)%nat -> (length iov <= 2)%nat -> does exhausted (send_iov c type id iov) (fun _ => True).
Proof using H0. intros Hc Hl. unfold send_iov. walk. apply does_os. by apply send_tame. Qed.
Lemma read_msg_does c : (c < max_conns)%nat ->
  does exhausted (read_msg c) (fun r => match r with Some (_, b) => exists n, block b n /\ n < 2 ^ 32 | None => True end).
Proof using H0. intros Hc. unfold read_msg. walk. apply does_os. apply sftp_read_tame. Qed.

(** Extensions: each takes bytes of the message. *)
Lemma read_extensions_does fuel l off : (off <= length l)%nat -> Z.of_nat (length l) < 2 ^ 32 -> (length l - off < fuel)%nat ->
  does exhausted (read_extensions fuel (reply_at l off)) (fun _ => True).
Proof using H0.
  revert off. induction fuel as [|fuel IH]; intros off Ho Hl Hf s Hs; [lia|]. cbn [read_extensions].
  apply wp_bind, (get_safe 4 some); [apply safe_string|done|done|]. intros [e|] o1 Ho1 He; [|by apply wp_ret].
  apply wp_bind, (get_safe 4 some); [apply safe_string|lia|done|]. intros [x|] o2 Ho2 Hx; [|by apply wp_ret].
  specialize (He eq_refl). specialize (Hx eq_refl). apply wp_bind, wp_modify. cbn [reply_at buf_len buf_size].
  destruct Hs as (Hs1 & Hs2 & Hs3).
  destruct (_ <? _); [|by apply wp_ret]. eapply wp_mono; [apply (IH o2); [lia|done|lia|done]|]. done.
Qed.

Lemma init_reply_does fd m s : length m = 9%nat -> session_ok s ->
  wp exhausted (sftp_init_reply_ok fd (reply_at m 0)) s (fun _ s' => session_ok s' /\ (input (os s') <= input (os s))%nat).
Proof using H0 PeerLaws0.
  intros Hm Hs. unfold sftp_init_reply_ok.
  apply wp_bind, (get_safe 4 some); [apply safe_uint32|lia..|]. intros [len|] o1 Ho1 _; [|by apply wp_ret].
  destruct ((len <? 5) || (len >? MAX_REPLY_LEN)) eqn:El; [by apply wp_ret|]. change MAX_REPLY_LEN with 131072 in El. bools.
  apply wp_bind, (get_safe 1 some); [apply safe_uint8|lia..|]. intros [ty|] o2 Ho2 _; [|by apply wp_ret].
  destruct (negb _); [by apply wp_ret|].
  apply wp_bind, (get_safe 4 some); [apply safe_uint32|lia..|]. intros [v|] o3 Ho3 _; [|by apply wp_ret].
  destruct (len >? 5) eqn:E5; [|by apply wp_ret]. bools. apply wp_bind. eapply wp_may; [apply (init_may (len - 5)); lia|].
  intros b Hb. apply wp_bind.
  eapply wp_mono; [apply (does_os (do_read fd b) (fun r => match r with Some b' => block b' (len - 5) | None => True end)); [|done]|].
  { intros w. eapply wp_mono; [apply (read_tame fd b (len - 5) w Hb); lia|]. cbv beta. intros [b'|] w'; [|done].
    intros [? ?]. split; [lia|done]. }
  cbv beta. intros [b'|] s1 (Hs1 & Hi1 & Hb'); [|by apply wp_ret]. destruct Hb' as [[? _]|(m' & -> & Hm' & _)]; [lia|].
  apply wp_bind. eapply wp_mono; [apply read_extensions_does; [lia..|cbn [reply_at buf_size]; lia|done]|]. cbv beta.
  intros r s2 (Hs2 & Hi2 & _). apply wp_ret. split; [done|lia].
Qed.

(** Other output is skipped byte by byte. *)
Lemma find_init_does fuel fd m s : length m = 9%nat -> session_ok s -> (input (os s) < fuel)%nat ->
  wp exhausted (find_init_loop fuel fd (reply_at m 0)) s (fun _ s' => session_ok s' /\ (input (os s') <= input (os s))%nat).
Proof using H0 PeerLaws0.
  revert m s. induction fuel as [|fuel IH]; intros m s Hm Hs Hf; [lia|]. cbn [find_init_loop]. apply wp_bind.
  eapply wp_mono; [by apply init_reply_does|]. cbv beta. intros [| |v] s1 [Hs1 Hi1]; [by apply wp_ret| |by apply wp_ret].
  cbn [reply_at buf_p buf_size buf_len]. rewrite Hm. change (Z.of_nat 9 - 1) with 8. apply wp_bind.
  assert (mem_load (Some m) 1 8 = Ret (take 8 (drop 1 m))) as El by (unfold mem_load; rewrite Hm; done).
  eapply wp_lift; [exact El|]. apply wp_bind. set (d := take 8 (drop 1 m)).
  assert (length d = 8%nat) as Hd by (unfold d; rewrite length_take, length_drop; lia).
  assert (mem_store (Some m) 0 d = Ret (Some (splice m 0 d))) as Est.
  { unfold mem_store. destruct d as [|x d']; [done|]. rewrite Hd, Hm. done. }
  eapply wp_lift; [exact Est|]. clear El Est.
  assert (length (splice m 0 d) = 9%nat) as Hsp by (unfold splice; rewrite !length_app, length_take, length_drop; lia).
  apply wp_bind. pose proof (read_loop_tame 1 fd (splice m 0 d) 8 1 ltac:(lia) ltac:(lia) ltac:(lia) ltac:(lia) (os s1)) as Hr.
  unfold wp at 1, on_os, pzoom. unfold wp in Hr. destruct (do_read_loop 1 fd (Some (splice m 0 d)) 8 1 (os s1)) as [[[p|] w]| |]; [| |done|done].
  - destruct Hr as [(m' & -> & Hm') Hi]. change (Buffer (Some m') 0 (Z.of_nat 9)) with (Buffer (Some m') (Z.of_nat 0) (Z.of_nat 9)).
    rewrite <- Hsp, <- Hm'. fold (reply_at m' 0). eapply wp_mono; [apply IH|].
    + lia.
    + destruct Hs1 as (? & ? & ?). split; [done|]. split; [cbn; lia|done].
    + cbn. lia.
    + cbv beta. cbn [os set_os]. intros r s2 [Hs2 Hi2]. split; [done|lia].
  - apply wp_ret. destruct Hs1 as (? & ? & ?). split; [split; [done|split; [cbn; lia|done]]|cbn; lia].
Qed.

Lemma find_init_reply_does fd : does exhausted (sftp_find_init_reply patience fd) (fun _ => True).
Proof using H0 PeerLaws0.
  intros s Hs. unfold sftp_find_init_reply. apply wp_bind. eapply wp_may; [by apply (init_may 9)|]. intros b Hb. apply wp_bind.
  eapply wp_mono; [apply (does_os (do_read fd b) (fun r => match r with Some b' => block b' 9 | None => True end)); [|done]|].
  { intros w. eapply wp_mono; [by apply (read_tame fd b 9 w Hb)|]. cbv beta. intros [b'|] w'; [|done]. intros [? ?]. split; [lia|done]. }
  cbv beta. intros [b'|] s1 (Hs1 & Hi1 & Hb'); [|by apply wp_ret]. destruct Hb' as [[? _]|(m & -> & Hm & _)]; [done|].
  eapply wp_mono; [apply (find_init_does patience fd m s1); [lia|done|apply Hs1]|]. cbv beta. intros r s2 [? ?]. split; [done|]. split; [lia|done].
Qed.

(** The terminal is read byte by byte until the prompt; the password answers it. *)
Definition pty_answer (buf : list ascii) (pw : option (list ascii)) (fd : Z) : prog (session W) (list ascii) :=
  if (length buf =? length (lit "assword:"))%nat then
    do* (if bool_decide (buf = lit "assword:") then let* pw := plift (deref pw) in omodify (write_fd fd pw) else pret tt);
    pret (drop 1 buf)
  else pret buf.
Lemma pty_answer_does X buf pw fd : is_Some pw -> does X (pty_answer buf pw fd) (fun _ => True).
Proof.
  intros [p ->]. unfold pty_answer. walk.
  intros s Hs. by eapply wp_lift.
Qed.

Lemma pty_round fuel fd buf s Q : password_stdin opts = true -> session_ok s ->
  (forall r s', session_ok s' -> (input (os s') <= input (os s))%nat -> Q r s') ->
  (forall b s', session_ok s' -> (input (os s') < input (os s))%nat ->
    wp exhausted (match fuel with O => plift Undef | S fuel => pty_expect_bytes fuel fd b end) s' Q) ->
  wp exhausted (pty_expect_bytes fuel fd buf) s Q.
Proof using PeerLaws0.
  intros Hpw Hs Hend Hgo.
  assert (forall r s' s0, session_ok s' -> (input (os s') <= input (os s0))%nat -> (input (os s0) <= input (os s))%nat -> Q r s') as Hend'
    by (intros; apply Hend; [done|lia]).
  assert (wp exhausted (let* s := pget in
    let* (res, (revents0, _)) := ocall (poll2 fd (ptyfd s) 60000) in
    if res =? -1 then pret None else if res =? 0 then pret None else if (revents0 : bool) then pret (Some tt)
    else
      let* (res, bytes) := ocall (read_fd (ptyfd s) 1) in
      if res =? -1 then pret None else if res =? 0 then pret None
      else
        let* c := plift (deref (head bytes)) in
        let* b := pty_answer (buf ++ [c]) (password s) (ptyfd s) in
        match fuel with O => plift Undef | S fuel => pty_expect_bytes fuel fd b end) s Q) as Hw; [|by destruct fuel].
  apply wp_bind, wp_get, wp_bind. eapply wp_mono; [by apply does_ocall; [intros; apply poll_quiet|]|]. cbv beta.
  intros [res [rev0 rev1]] s1 (Hs1 & Hi1 & _). destruct (res =? -1); [by apply wp_ret, Hend|]. destruct (res =? 0); [by apply wp_ret, Hend|].
  destruct rev0; [by apply wp_ret, Hend|]. apply wp_bind. unfold wp at 1, ocall, on_os, pzoom, pcall.
  pose proof (read_bounded (ptyfd s) 1 (os s1) ltac:(lia)) as Hr. destruct (read_fd (ptyfd s) 1 (os s1)) as [[r bytes] w2].
  destruct Hr as (Hr & _ & Hb & Hi). assert (session_ok (set_os w2 s1)) as Hs2.
  { destruct Hs1 as (? & ? & ?). split; [done|]. split; [cbn; lia|done]. }
  destruct (Z.eqb_spec r (-1)); [apply wp_ret, Hend; [done|cbn; lia]|]. destruct (Z.eqb_spec r 0); [apply wp_ret, Hend; [done|cbn; lia]|].
  destruct bytes as [|c bytes]; [cbn in Hb; lia|]. apply wp_bind. eapply wp_lift; [done|]. apply wp_bind.
  eapply wp_mono; [by apply pty_answer_does; [apply Hs|]|]. cbv beta. intros b s3 (Hs3 & Hi3 & _). apply Hgo; [done|]. cbn in Hi3. lia.
Qed.

Lemma pty_bytes_does fuel fd buf s : password_stdin opts = true -> session_ok s -> (input (os s) <= fuel)%nat ->
  wp exhausted (pty_expect_bytes fuel fd buf) s (fun _ s' => session_ok s' /\ (input (os s') <= input (os s))%nat).
Proof using PeerLaws0.
  intros Hpw. revert buf s. induction fuel as [|fuel IH]; intros buf s Hs Hf; apply pty_round; try done; intros b s' Hs' Hi; [lia|].
  eapply wp_mono; [apply IH; [done|lia]|]. cbv beta. intros r s2 [? ?]. split; [done|lia].
Qed.

Lemma pty_expect_does c : password_stdin opts = true -> (c < max_conns)%nat -> does exhausted (pty_expect_loop opts patience c) (fun _ => True).
Proof using PeerLaws0 password_kept.
  intros Hpw Hc. unfold pty_expect_loop. rewrite (password_kept Hpw). cbn [negb]. walk.
  intros s Hs. eapply wp_mono; [apply pty_bytes_does; [done|done|destruct Hs; lia]|]. by intros ? ? [? ?].
Qed.

Lemma sftp_init_does c : (c < max_conns)%nat -> does exhausted (sftp_init opts patience c) (fun _ => True).
Proof using H0 PeerLaws0 password_kept.
  intros Hc. unfold sftp_init. eapply does_seq; [apply send_iov_does; [done|cbn; lia]|]. intros r. destruct (r =? -1); [walk|].
  eapply does_seq; [apply does_if; [intros Hpw; by apply pty_expect_does|intros _; walk]|]. intros r'.
  destruct (r' =? -1); walk. apply find_init_reply_does.
Qed.

(** The attributes of a directory, from whatever message arrives. *)
Lemma stat_reply_does c type dir size : (c < max_conns)%nat -> 0 <= size -> Z.of_nat (length dir) < 2 ^ 60 ->
  does exhausted (stat_reply c type dir size) (fun _ => True).
Proof using H0 PeerLaws0.
  intros Hc Hz Hd. unfold stat_reply. eapply does_seq; [intros s (? & ? & ?); done|]. intros id.
  eapply does_bind; [apply does_may; eapply may_bind; [by apply init_add|]; intros b Hb; apply (add_string_may b [] dir Hb); cbn; lia|].
  cbv beta. intros b (x & Hb). eapply does_bind; [apply (does_may _ (fun _ => True)); by rewrite (load_holds b x Hb)|].
  intros iov _. eapply does_seq; [apply send_iov_does; [done|cbn; lia]|]. intros r. destruct (r =? -1); [walk|].
  eapply does_bind; [by apply read_msg_does|]. cbv beta. intros [[ty b']|]; [|intros _; walk]. intros (n & Hb' & Hn).
  destruct (_ && _); [walk|]. destruct Hb' as [[_ ->]|(m & -> & Hm & _)].
  - intros s Hs. apply wp_bind. eapply wp_lift; [done|]. by apply wp_ret.
  - intros s Hs. apply wp_bind, (get_safe 4 some); [apply safe_uint32|lia..|]. intros [v|] o Ho _; [|by apply wp_ret].
    destruct (negb _); [by apply wp_ret|]. destruct (ty =? _); [by apply wp_ret|]. apply wp_bind, wp_get, wp_bind.
    apply (get_safe 4 attrs_ok); [apply safe_attrs|lia..|]. intros r' o' _ _. by apply wp_ret.
Qed.

Lemma detect_uid_does c : (c < max_conns)%nat -> does exhausted (sftp_detect_uid c) (fun _ => True).
Proof using H0 PeerLaws0.
  intros Hc. unfold sftp_detect_uid. eapply does_seq; [apply stat_reply_does; [done|lia|cbn; lia]|]. intros r. walk.
Qed.

Lemma connect_remote_does c : (c < max_conns)%nat -> does exhausted (connect_remote opts patience c) (fun _ => True).
Proof using H0 PeerLaws0 password_kept.
  intros Hc. unfold connect_remote, connect_passive. walk; auto using connect_to_does, start_ssh_does, sftp_init_does, close_conn_does.
Qed.

Lemma start_thread_does c : (c < max_conns)%nat -> does exhausted (start_processing_thread opts patience c) (fun _ => True).
Proof using H0 PeerLaws0 password_kept.
  intros Hc. unfold start_processing_thread. walk; auto using connect_remote_does, detect_uid_does.
Qed.

Lemma ssh_connect_does base : (0 < max_conns)%nat -> Z.of_nat (length base) < 2 ^ 60 -> does exhausted (ssh_connect opts patience base) (fun _ => True).
Proof using H0 PeerLaws0 password_kept.
  intros Hc Hb. unfold ssh_connect. walk; [by apply connect_remote_does|]. unfold sftp_check_root. walk.
  apply stat_reply_does; [done|lia|]. destruct base; cbn in *; lia.
Qed.

(** C32: Connecting to a server is safe whatever the server sends.  Starting a connection's
    thread, which connects, looks for the version message in the output, reads the
    extensions and asks for the user's number, and connecting at the start of the client,
    which also checks the root directory, return with the connections in order for every
    answer of the system and every stream of bytes from the peers: no read or write falls
    outside its buffer, no loop goes on without reading, and the process ends only when
    memory runs out.  The bytes of a run are bounded by [patience], which is arbitrary;
    a password from standard input needs the option "reconnect", as it is forgotten
    after the first connection otherwise. *)
Theorem connecting_is_safe s c base : session_ok s -> (c < max_conns)%nat -> Z.of_nat (length base) < 2 ^ 60 ->
  match start_processing_thread opts patience c s with
  | Ret (res, s') => session_ok s' /\ (input (os s') <= input (os s))%nat
  | Exit => exhausted
  | Undef => False
  end /\
  match ssh_connect opts patience base s with
  | Ret (res, s') => session_ok s' /\ (input (os s') <= input (os s))%nat
  | Exit => exhausted
  | Undef => False
  end.
Proof using H0 PeerLaws0 password_kept.
  intros Hs Hc Hb. pose proof (start_thread_does c Hc s Hs) as K1. pose proof (ssh_connect_does base ltac:(lia) Hb s Hs) as K2.
  unfold wp in *. split.
  - destruct (start_processing_thread opts patience c s) as [[r s']| |]; [|done..]. by destruct K1 as (? & ? & _).
  - destruct (ssh_connect opts patience base s) as [[r s']| |]; [|done..]. by destruct K2 as (? & ? & _).
Qed.

(** The connections of the client are what the request table asks for. *)
Lemma does_true {A} (e : prog (session W) A) P s : does exhausted e P -> session_ok s -> wp True e s (fun _ => session_ok).
Proof.
  intros He Hs. specialize (He s Hs). unfold wp in *. destruct (e s) as [[a s']| |]; [apply He|done|done].
Qed.
Lemma does_false {A} (e : prog (session W) A) P s : does False e P -> session_ok s -> wp False e s (fun _ => session_ok).
Proof. intros He Hs. eapply wp_mono; [by apply He|]. by intros a s' (? & _). Qed.

#[local] Hint Extern 0 (Transport (session _)) => exact (session_transport opts patience) : typeclass_instances.
Definition session_transport_safe : TransportSafe (session W) max_conns.
Proof using H0 PeerLaws0 password_kept.
  refine {| t_inv := session_ok |}.
  - by intros s (? & ? & ?).
  - intros c s Hs Hc. eapply does_true; [by apply start_thread_does|done].
  - intros c d s Hs Hc. eapply does_false; [by apply does_conn_upd|done].
  - intros c s Hs Hc. eapply does_false; [|done]. unfold t_close, session_transport, close_thread.
    eapply does_seq; [by apply does_conn_upd|]. intros _. by apply close_conn_does.
  - intros c s Hs Hc. eapply does_false; [|done]. unfold t_renew, session_transport, new_connver. walk.
Defined.
End Connecting.

(** ** The ends of requests *)

Section Ends.
Context {C : Type}.
Implicit Types (e : files C).

(** What the end of a request changes is there. *)
Definition end_data_live (d : end_data) e : Prop :=
  match d with
  | ReadEnd rreq => exists rr, rreqs e !! rreq = Some rr /\ is_Some (chunks e !! rr_sio rr)
  | WriteEnd sf => is_Some (sfiles e !! sf)
  | SyncWriteEnd sio => is_Some (sios e !! sio)
  end.

Lemma reply_status (r : request end_data) : readable r -> exists v b, buf_get_uint32 (reply r) = Ret (v, b).
Proof.
  intros (body & -> & Hl). change MAX_REPLY_LEN with 131072 in Hl. unfold answer_buf.
  rewrite get_uint32_at by (rewrite ?length_app, ?length_be_bytes; lia). destruct (_ <=? _)%nat; by eexists _, _.
Qed.

Lemma read_end_ret size data (r : request end_data) : rq_error r <> 0 \/ readable r -> exists x, read_end_result size data r = Ret x.
Proof.
  intros Hr. unfold read_end_result. destruct (Z.eqb_spec (rq_error r) 0) as [Hz|]; [|by eexists]. cbn [negb].
  destruct (replied r); [|by eexists]. destruct Hr as [|Hr]; [done|]. destruct (reply_status r Hr) as (v & b & ->).
  destruct (_ =? _); [by eexists|]. destruct (_ =? _); [|by eexists]. unfold mbind, outcome_bind.
  destruct v as [v|]; [|by eexists]. destruct (v >? size); by eexists.
Qed.
Lemma write_end_ret old (r : request end_data) : rq_error r <> 0 \/ readable r -> exists x, write_end_error r old = Ret x.
Proof.
  intros Hr. unfold write_end_error. destruct (Z.eqb_spec (rq_error r) 0) as [Hz|]; [|by eexists]. cbn [negb].
  destruct (replied r); [|by eexists]. destruct Hr as [|Hr]; [done|]. destruct (negb _); [by eexists|].
  destruct (reply_status r Hr) as (v & b & ->). by eexists.
Qed.

Lemma is_Some_insert {A} (m : gmap Z A) k v i : is_Some (m !! i) -> is_Some (<[k := v]> m !! i).
Proof. intros Hi. destruct (decide (i = k)) as [->|Hne]; [rewrite lookup_insert_eq; by eexists|by rewrite lookup_insert_ne]. Qed.

#[export] Instance file_callbacks_safe : CallbacksSafe end_data (files C).
Proof.
  refine {| live := end_data_live |}. intros d a r e Hd Hr. unfold end_func, file_callbacks. destruct d as [rreq|sf|sio].
  - destruct Hd as (rr & Err & ch & Ech). unfold sshfs_read_end. rewrite Err. cbn [deref].
    destruct (read_end_ret (rr_size rr) (rr_data rr) r Hr) as [[res data] E1]. unfold mbind, outcome_bind. rewrite E1.
    unfold upd_rreq, upd_chunk, upd. rewrite Err. cbn. rewrite Ech. cbn. eexists. split; [reflexivity|].
    intros [rq|f|i]; cbn; [|done|done]. intros (rr' & K1 & K2). destruct (decide (rq = rreq)) as [->|Hne].
    + rewrite lookup_insert_eq. eexists. split; [reflexivity|]. cbn. by apply is_Some_insert; rewrite Ech.
    + rewrite lookup_insert_ne by done. exists rr'. split; [done|]. by apply is_Some_insert.
  - destruct Hd as (f & Ef). unfold sshfs_write_end. rewrite Ef. cbn [deref].
    destruct (write_end_ret (write_error f) r Hr) as [err E1]. unfold mbind, outcome_bind. rewrite E1.
    unfold upd_file, upd. rewrite Ef. cbn. eexists. split; [reflexivity|].
    intros [rq|f'|i]; cbn; [done| |done]. apply is_Some_insert.
  - destruct Hd as (x & Ex). unfold sshfs_sync_write_end. rewrite Ex. cbn [deref].
    destruct (write_end_ret x.2 r Hr) as [err E1]. unfold mbind, outcome_bind. rewrite E1.
    unfold upd_sio, upd. rewrite Ex. cbn. eexists. split; [reflexivity|].
    intros [rq|f'|i]; cbn; [done|done|]. apply is_Some_insert.
Defined.
End Ends.

(** ** Witnesses *)

Module SftpSessionExample.
Import SftpBuf.SftpExample SftpConn.SftpConnExample SftpRequests.SftpRequestsExample.

#[export, refine] Instance pipe_peer : PeerLaws pipe := {| input := fun w => length (p_in w) |}.
Proof.
  1: { intros fd n w Hn. cbn -[Nat.min]. set (x := take _ (p_in w)).
    assert (length x <= Z.to_nat n `min` 1000)%nat as Hx by (unfold x; rewrite length_take; lia).
    assert (length x <= length (p_in w))%nat by (unfold x; rewrite length_take; lia).
    split; [lia|]. split; [lia|]. split; [done|]. rewrite length_drop. lia. }
  1: { intros fd iov w. cbn -[Nat.min]. rewrite length_take. lia. }
  all: done.
Defined.

(** Standard input and output are the connection; the server greets and gives its
    version. *)
Definition standard : options := Options false true true None false false.
Definition greeted : session pipe :=
  Session [Conn false (-1) (-1) 0 0 0 0] 7 (-1) (-1) None (lit "h") false false false false false 0 false plain_cfg 0 0
    (Pipe 4 [] (banner ++ version_message 3 server_exts)).

#[export] Instance greeted_transport : Transport (session pipe) := session_transport standard 200.
Lemma standard_kept : password_stdin standard = true -> reconnect standard = true.
Proof. done. Qed.
#[export] Instance greeted_safe : TransportSafe (session pipe) 1 := session_transport_safe standard 200 1 standard_kept.

Lemma greeted_ok : session_ok standard 200 1 greeted.
Proof. split; [cbn; lia|]. split; [|done]. apply Nat.ltb_lt. vm_compute. reflexivity. Qed.

Lemma connecting_is_safe_witness :
  match start_processing_thread standard 200 0 greeted with
  | Ret (res, s') => session_ok standard 200 1 s' /\ (input (os s') <= input (os greeted))%nat
  | Exit => exhausted
  | Undef => False
  end /\
  match ssh_connect standard 200 (lit "/home") greeted with
  | Ret (res, s') => session_ok standard 200 1 s' /\ (input (os s') <= input (os greeted))%nat
  | Exit => exhausted
  | Undef => False
  end.
Proof. apply (connecting_is_safe standard 200 1 standard_kept greeted 0 (lit "/home") greeted_ok); [lia|cbn; lia]. Defined.

(** A chunk of a file with one request, for which nothing has been sent yet. *)
Definition one_chunk : files unit :=
  Files ∅ {[ 0 := ReadChunk 0 4 1 0 [0] 0 0 ]} {[ 0 := ReadReq 0 (Buffer None 0 0) 4 0 ]} ∅ 1 0 [] ∅ tt.
Definition client_start : config (session pipe) end_data (files unit) :=
  Config (Client greeted ∅ ∅ 0 0 (2 ^ 32 - 1) false one_chunk) ∅ ∅ ∅ [].

Definition step (x : action end_data (files unit)) (g : config (session pipe) end_data (files unit)) :=
  match act true 1 x g with Ret (Some g') => g' | _ => g end.

(** The request connects and goes out, and its answer is there. *)
Definition sent_read := step (Begin 0 20 (Some (fun _ => sshfs_read_begin 0)) (Some (ReadEnd 0)) 0) client_start.
Definition answered := step (Receive 0 7 103 (be_bytes 4 4 ++ lit "data")) (step (Return 0) (step (Wire 0) sent_read)).

Lemma answered_reachable : reachable true 1 client_start answered.
Proof.
  assert (forall x g, reachable true 1 client_start g -> permitted x g ->
    match act true 1 x g with Ret (Some _) => true | _ => false end = true -> reachable true 1 client_start (step x g)) as Hstep.
  { intros x g Hr Hp Ha. unfold step. destruct (act true 1 x g) as [[g'|]| |] eqn:E; try done. by apply (reachable_step _ _ _ g x). }
  unfold answered. repeat (apply Hstep; [|done|vm_compute; reflexivity]). apply Hstep; [apply reachable_refl| |vm_compute; reflexivity].
  intros d [(a & r & K & _)|[= <-]]; [done|]. eexists. split; [reflexivity|]. by eexists.
Qed.

Lemma requests_memory_safe_witness : act true 1 (Deliver 0) answered <> Undef.
Proof.
  apply (requests_memory_safe true 1 client_start answered); [done|exact greeted_ok|exact answered_reachable|done].
Defined.
End SftpSessionExample.
