(* ===== verification/SftpTransfers.v ===== *)
(** * Requests under way on an sftp connection

    What reading and writing files share: a connection that is up ([live]), the
    requests that nobody waits for in particular with the answers that they will get
    ([flight]), and the state of a client in which some of them are under way
    ([flying]).  A request that is sent joins them ([send_flies]); an answer that
    arrives, in whatever order and in whatever pieces, ends its request
    ([answer_arrives]); a thread that waits takes in answers until its condition holds,
    and the invariant of the client's functions is kept by every callback
    ([wait_drains]). *)

From Stdlib Require Import ZArith Lia Ascii String.
From stdpp Require Import base list gmap sets.
From S2P Require Import Prelude World Cache SftpBuf SftpConn SftpRequests SftpFiles.

Local Open Scope Z_scope.

(** ** Running programs that may wait for ever *)

Lemma hbind_ret {S A B} (e : prog S (option A)) (k : A -> prog S (option B)) s a s' :
  e s = Ret (Some a, s') -> hbind e k s = k a s'.
Proof. intros E. unfold hbind. by rewrite (pbind_ret _ _ _ _ _ E). Qed.

(** ** The contents of a request to read or write *)

(** Identifiers from [id] on. *)
Fixpoint numbered {A} (id : Z) (ps : list A) : list (Z * A) :=
  match ps with [] => [] | p :: ps => (id, p) :: numbered (id + 1) ps end.
Lemma numbered_app {A} id (ps qs : list A) : numbered id (ps ++ qs) = numbered id ps ++ numbered (id + Z.of_nat (length ps)) qs.
Proof.
  revert id. induction ps as [|p ps IH]; intros id; cbn [numbered app length]; [by rewrite Z.add_0_r|]. rewrite IH. do 3 f_equal. lia.
Qed.


Section IoBuffer.
Context `{HeapLaws} `{!HeapPlenty}.

Definition io_bytes (h : list ascii) (off n : Z) : list ascii := h ++ field_bytes (FUint64 off) ++ be_bytes 4 n.
Lemma io_bytes_length h off n : length (io_bytes h off n) = (length h + 12)%nat.
Proof. unfold io_bytes. cbn [field_bytes]. rewrite !length_app, !length_be_bytes. lia. Qed.

Lemma io_buffer_bytes b h off n : holds b h -> Z.of_nat (length h) < 2 ^ 31 -> 0 <= off < 2 ^ 64 -> 0 <= n < 2 ^ 32 ->
  io_buffer b off n = Ret (io_bytes h off n).
Proof using All.
  intros Hb Hh Ho Hn. pose proof (io_bytes_length h off n) as Hl. unfold io_bytes in Hl.
  destruct (init_holds 0 ltac:(lia)) as (b0 & E0 & Hb0). unfold io_buffer. rewrite E0. unfold mbind, outcome_bind, buf_add_buf.
  change (mem_load (buf_p b) 0 (buf_len b)) with (buf_to_iov b). rewrite (load_holds b h Hb). unfold mbind, outcome_bind.
  destruct (add_mem_holds b0 [] h Hb0) as (b1 & -> & Hb1); [cbn; lia|].
  destruct (add_field_holds b1 h (FUint64 off) Ho Hb1) as (b2 & E2 & Hb2); [rewrite app_assoc, length_app in Hl; lia|].
  cbn [add_field] in E2. rewrite E2. destruct (add_field_holds b2 (h ++ field_bytes (FUint64 off)) (FUint32 n) Hn Hb2) as (b3 & E3 & Hb3);
    [cbn [field_bytes] in *; rewrite <- app_assoc, Hl; lia|].
  cbn [add_field field_bytes] in E3, Hb3. rewrite E3. rewrite (load_holds b3 _ Hb3). unfold io_bytes. by rewrite <- app_assoc.
Qed.
End IoBuffer.

(** ** Requests on their way *)

Section Link.
Context `{HeapLaws} `{!HeapPlenty} {W : Type} `{Duplex W} `{!Dialer W}.
Implicit Types (s : session W) (k : conn).

(** The connection [c] works, over the descriptors and with the number of [k]. *)
Definition same_link (x k : conn) : Prop :=
  processing_thread_started x = true /\ rfd x = rfd k /\ wfd x = wfd k /\ connver x = connver k.
Definition live s (c : nat) k : Prop :=
  connected (os s) (wfd k) /\ connected (os s) (rfd k) /\ exists x, conns s !! c = Some x /\ same_link x k.

Lemma live_count s c k d : live s c k ->
  exists s', conn_upd c (add_req_count d) s = Ret (tt, s') /\ live s' c k /\ os s' = os s /\ idctr s' = idctr s.
Proof.
  intros (Hw & Hr & x & Hx & Hk). eexists. split; [by apply (conn_upd_ret c x)|]. split; [|done].
  split; [done|]. split; [done|]. exists (add_req_count d x). split; [|done].
  cbn. rewrite list_lookup_insert_eq; [done|by eapply lookup_lt_Some].
Qed.

Lemma live_start s c k opts noise : live s c k -> start_processing_thread opts noise c s = Ret (0, s).
Proof.
  intros (Hw & Hr & x & Hx & Hk & _). unfold start_processing_thread.
  rewrite (pbind_ret _ _ _ _ _ (conn_get_ret c x s Hx)). by rewrite Hk.
Qed.

Lemma live_send s c k type id iov : live s c k -> (length iov <= 2)%nat -> Z.of_nat (length (concat iov)) + 5 < 2 ^ 32 ->
  exists s', send_iov c type id iov s = Ret (0, s') /\ live s' c k /\ idctr s' = idctr s /\
    wire_out (os s') (wfd k) = wire_out (os s) (wfd k) ++ message type (be_bytes 4 id ++ concat iov) /\
    wire_in (os s') (rfd k) = wire_in (os s) (rfd k).
Proof using All.
  intros (Hw & Hr & x & Hx & Hst & E1 & E2 & E3) Hn Hl.
  destruct (sftp_send_message (wfd k) type id iov (os s)) as (w' & Es & Ho & Hi & Hc); try done.
  exists (set_os w' s). split; [|split; [|done]].
  - unfold send_iov. rewrite (pbind_ret _ _ _ _ _ (conn_get_ret c x s Hx)). apply on_os_ret. by rewrite E2.
  - split; [by apply Hc|]. split; [by apply Hc|]. by exists x.
Qed.

Lemma live_read s c k ty x rest : live s c k -> 0 <= ty < 256 -> x <> [] -> Z.of_nat (length x) < MAX_REPLY_LEN ->
  wire_in (os s) (rfd k) = message ty x ++ rest ->
  exists s', read_msg c s = Ret (Some (ty, reply_at x 0), s') /\ live s' c k /\ idctr s' = idctr s /\
    wire_in (os s') (rfd k) = rest /\ wire_out (os s') (wfd k) = wire_out (os s) (wfd k).
Proof using All.
  intros (Hw & Hr & y & Hy & Hst & E1 & E2 & E3) Ht Hx Hl Hi.
  destruct (sftp_read_message (rfd k) ty x rest (os s)) as (w' & Es & Hi' & Ho & Hc); try done.
  exists (set_os w' s). split; [|split; [|by rewrite <- Ho]].
  - unfold read_msg. rewrite (pbind_ret _ _ _ _ _ (conn_get_ret c y s Hy)). apply on_os_ret. rewrite E1, Es. by destruct x.
  - split; [by apply Hc|]. split; [by apply Hc|]. by exists y.
Qed.
End Link.

(** A request that has been sent, and the answer that it gets. *)
Record flight := Flight { fl_addr : Z; fl_rq : request end_data; fl_type : Z; fl_body : list ascii }.
Definition fl_id (p : flight) : Z := rq_id (fl_rq p).
Definition answer_of (p : flight) : list ascii := message (fl_type p) (be_bytes 4 (fl_id p) ++ fl_body p).
Definition answers (l : list flight) : list ascii := concat (map answer_of l).
Definition total_len (l : list flight) : Z := foldr (fun p n => rq_len (fl_rq p) + n) 0 l.

(** Nobody waits for the answer; an end function takes it. *)
Record flight_ok (c : nat) (p : flight) : Prop := FlightOk {
  fo_want : want_reply (fl_rq p) = 0;
  fo_conn : rq_conn (fl_rq p) = c;
  fo_error : rq_error (fl_rq p) = 0;
  fo_len : 0 <= rq_len (fl_rq p);
  fo_id : 0 <= fl_id p < 2 ^ 32;
  fo_type : 0 <= fl_type p < 256;
  fo_body : Z.of_nat (length (fl_body p)) + 4 < MAX_REPLY_LEN }.
Definition answered (p : flight) : request end_data :=
  set_reply (fl_type p) (answer_buf (fl_id p) (fl_body p)) (fl_rq p).

Section Flights.
Context `{HeapLaws} `{!HeapPlenty} {W C : Type} `{Duplex W} `{!Dialer W} `{!TableOrder}.
Context (opts : options) (noise : nat) (patience : nat).
#[local] Hint Extern 0 (Transport (session _)) => exact (session_transport opts noise) : typeclass_instances.
Abbreviation cl := (client (session W) end_data (files C)).
Implicit Types (t : cl) (k : conn).

(** The table of requests: those of [pend] over connection [c], and the others. *)
Record flying t (c : nat) k (pend : list flight) (tab : gmap Z Z) (reqs : gmap Z (request end_data)) (out : Z) : Prop := Flying {
  fly_unlocked : locked t = false;
  fly_live : live (ses t) c k;
  fly_tab : reqtab t = list_to_map (map (fun p => (fl_id p, fl_addr p)) pend) ∪ tab;
  fly_reqs : requests t = list_to_map (map (fun p => (fl_addr p, fl_rq p)) pend) ∪ reqs;
  fly_len : outstanding_len t = out + total_len pend;
  fly_ids : NoDup (map fl_id pend);
  fly_addrs : NoDup (map fl_addr pend);
  fly_apart : Forall (fun p => tab !! fl_id p = None /\ reqs !! fl_addr p = None) pend;
  fly_ok : Forall (flight_ok c) pend;
  fly_out : 0 <= out;
  fly_max : outstanding_len t <= max_outstanding_len t < 2 ^ 32 }.

Lemma total_len_perm l l' : l ≡ₚ l' -> total_len l = total_len l'.
Proof. induction 1; cbn [total_len foldr] in *; unfold total_len in *; cbn; lia. Qed.

Lemma not_in_keys {A} (f : flight -> Z) (g : flight -> A) l i :
  (list_to_map (map (fun p => (f p, g p)) l) : gmap Z A) !! i = None -> i ∉ map f l.
Proof. intros E%not_elem_of_list_to_map_2. by rewrite map_map in E. Qed.

Lemma total_len_pos c l : Forall (flight_ok c) l -> 0 <= total_len l.
Proof. induction 1 as [|q l []]; unfold total_len in *; cbn [foldr]; lia. Qed.

Lemma flying_perm t c k pend pend' tab reqs out : pend ≡ₚ pend' -> flying t c k pend tab reqs out -> flying t c k pend' tab reqs out.
Proof.
  intros Hp [].
  assert (NoDup (map fl_id pend')) by by rewrite <- Hp. assert (NoDup (map fl_addr pend')) by by rewrite <- Hp.
  split; try done; try by rewrite <- Hp.
  - rewrite fly_tab0. f_equal. apply list_to_map_proper; [by rewrite map_map|by rewrite Hp].
  - rewrite fly_reqs0. f_equal. apply list_to_map_proper; [by rewrite map_map|by rewrite Hp].
  - by rewrite <- (total_len_perm _ _ Hp).
Qed.

Lemma flying_ext t c k pend tab reqs out e : flying t c k pend tab reqs out -> flying (set_ext e t) c k pend tab reqs out.
Proof. intros []. by split. Qed.

(** What a step of waiting leaves as it is. *)
Record quiet k t t' : Prop := Quiet {
  qu_out : wire_out (os (ses t')) (wfd k) = wire_out (os (ses t)) (wfd k);
  qu_id : idctr (ses t') = idctr (ses t);
  qu_next : next_req t' = next_req t;
  qu_max : max_outstanding_len t' = max_outstanding_len t }.
Lemma quiet_refl k t : quiet k t t.
Proof. by split. Qed.
#[local] Hint Resolve quiet_refl : core.
Lemma quiet_trans k t1 t2 t3 : quiet k t1 t2 -> quiet k t2 t3 -> quiet k t1 t3.
Proof. intros [] []. split; congruence. Qed.

(** An answer arrives. *)
Lemma answer_arrives t c k p d pend rest tab reqs out e : flying t c k (p :: pend) tab reqs out ->
  wire_in (os (ses t)) (rfd k) = answer_of p ++ rest -> rq_end (fl_rq p) = Some d ->
  end_func d (fl_addr p) (answered p) (ext t) = Ret e ->
  exists t', process_requests_step (reconnect opts) c t = Ret (tt, t') /\ flying t' c k pend tab reqs out /\ ext t' = e /\
    wire_in (os (ses t')) (rfd k) = rest /\ quiet k t t'.
Proof using All.
  intros [] Hin Hd He. apply Forall_cons in fly_ok0 as [[] Hoks]. apply Forall_cons in fly_apart0 as [[Hat Har] Hap].
  cbn [map] in *. apply NoDup_cons in fly_ids0 as [Hi1 Hi2], fly_addrs0 as [Ha1 Ha2].
  destruct (live_read (ses t) c k (fl_type p) (be_bytes 4 (fl_id p) ++ fl_body p) rest fly_live0) as (s1 & E1 & L1 & I1 & W1 & O1); try done.
  { rewrite length_app, length_be_bytes. change MAX_REPLY_LEN with 131072 in *. lia. }
  destruct (live_count s1 c k (-1) L1) as (s2 & E2 & L2 & O2 & I2).
  cbn [list_to_map foldr fst snd] in fly_tab0, fly_reqs0. unfold total_len in fly_len0. cbn [foldr] in fly_len0. fold (total_len pend) in fly_len0.
  pose proof (total_len_pos c pend Hoks) as Hpos.
  eexists. split.
  { apply (answer_ends (reconnect opts) patience t c (fl_addr p) (fl_rq p) d (fl_type p) (fl_body p) s1 s2 e); try done.
    - change MAX_REPLY_LEN with 131072 in *. lia.
    - rewrite fly_tab0. apply lookup_union_Some_l. apply lookup_insert_eq.
    - rewrite fly_reqs0. apply lookup_union_Some_l. apply lookup_insert_eq.
    - by rewrite fo_conn0. }
  split; [|split; [done|split; [cbn; by rewrite O2|split; cbn; congruence]]].
  split; cbn [locked ses reqtab requests outstanding_len max_outstanding_len]; try done.
  - rewrite fly_tab0. rewrite <- insert_union_l, delete_insert_id; [done|]. apply lookup_union_None. split; [|done].
    apply not_elem_of_list_to_map_1. by rewrite map_map.
  - rewrite fly_reqs0. rewrite <- insert_union_l, delete_insert_id; [done|]. apply lookup_union_None. split; [|done].
    apply not_elem_of_list_to_map_1. by rewrite map_map.
  - rewrite (wrap_small 32); lia.
  - rewrite (wrap_small 32); lia.
Qed.

(** A thread waits until a condition holds that all the answers establish. *)
Lemma wait_drains (inv : list flight -> files C -> Prop) (cond : cl -> bool) c k tab reqs out rest :
  (forall p pend e, inv (p :: pend) e -> exists d e', rq_end (fl_rq p) = Some d /\
     end_func d (fl_addr p) (answered p) e = Ret e' /\ inv pend e') ->
  (forall t, inv [] (ext t) -> cond t = true) ->
  forall fuel pend t, flying t c k pend tab reqs out -> wire_in (os (ses t)) (rfd k) = answers pend ++ rest ->
  inv pend (ext t) -> (length pend <= fuel)%nat ->
  exists n t', wait_until (reconnect opts) fuel c cond t = Ret (true, t') /\ cond t' = true /\
    flying t' c k (drop n pend) tab reqs out /\ wire_in (os (ses t')) (rfd k) = answers (drop n pend) ++ rest /\
    inv (drop n pend) (ext t') /\ quiet k t t'.
Proof using All.
  intros Hstep Hend. induction fuel as [|fuel IH]; intros pend t Hf Hin Hi Hl.
  - destruct pend; [|cbn in Hl; lia]. exists 0%nat, t. cbn [wait_until]. unfold pget. rewrite (pbind_ret _ _ _ t t eq_refl).
    rewrite (fly_unlocked _ _ _ _ _ _ _ Hf), (Hend t Hi). done.
  - cbn [wait_until]. unfold pget. rewrite (pbind_ret _ _ _ t t eq_refl), (fly_unlocked _ _ _ _ _ _ _ Hf).
    destruct (cond t) eqn:Ec; [by exists 0%nat, t|]. destruct pend as [|p pend]; [by rewrite (Hend t Hi) in Ec|].
    destruct (Hstep _ _ _ Hi) as (d & e' & Hd & He & Hi'). unfold answers in Hin. cbn [map concat] in Hin. rewrite <- app_assoc in Hin.
    destruct (answer_arrives t c k p d pend _ tab reqs out e' Hf Hin Hd He) as (t1 & E1 & Hf1 & <- & Hin1 & Q1).
    destruct (IH pend t1 Hf1 Hin1 Hi') as (n & t' & E' & Hc' & Hf' & Hin' & Hi'' & Q'); [cbn in Hl; lia|].
    exists (S n), t'. rewrite (pbind_ret _ _ _ _ _ E1). split_and!; try done. by eapply quiet_trans.
Qed.

(** Room for [n] requests of [len] bytes, and identifiers that are free below [lim]. *)
Record ready_for t (lim room : Z) : Prop := ReadyFor {
  rf_room : outstanding_len t + room <= max_outstanding_len t;
  rf_addrs : forall a, next_req t <= a -> requests t !! a = None;
  rf_ids : forall i, idctr (ses t) <= i < lim -> reqtab t !! i = None;
  rf_id : 0 <= idctr (ses t);
  rf_lim : lim < 2 ^ 32 }.

(** A request is sent that nobody waits for. *)
Lemma send_flies t c k pend tab reqs out lim room type iov f d ty body : flying t c k pend tab reqs out ->
  ready_for t lim room -> Z.of_nat (length (concat iov)) + 9 <= room -> idctr (ses t) < lim -> (length iov <= 2)%nat ->
  0 <= ty < 256 -> Z.of_nat (length body) + 4 < MAX_REPLY_LEN ->
  let p := Flight (next_req t) (new_req 0 (idctr (ses t)) (Some d) (length (concat iov)) c) ty body in
  exists t', sftp_request_send (reconnect opts) patience c type iov f (Some d) 0 t = Ret (Some (0, None), t') /\
    flying t' c k (p :: pend) tab reqs out /\ ready_for t' lim (room - (Z.of_nat (length (concat iov)) + 9)) /\
    ext t' = begun f t /\ next_req t' = next_req t + 1 /\ idctr (ses t') = idctr (ses t) + 1 /\ max_outstanding_len t' = max_outstanding_len t /\
    wire_in (os (ses t')) (rfd k) = wire_in (os (ses t)) (rfd k) /\
    wire_out (os (ses t')) (wfd k) = wire_out (os (ses t)) (wfd k) ++ message type (be_bytes 4 (idctr (ses t)) ++ concat iov).
Proof using All.
  intros Hf [] Hroom Hlim Hn Hty Hbody p. pose proof Hf as [].
  pose proof (total_len_pos c pend fly_ok0) as Hpos. cbn zeta in *.
  destruct (live_count (set_idctr (u32 (idctr (ses t) + 1)) (ses t)) c k 1 fly_live0) as (s1 & E1 & L1 & O1 & I1).
  destruct (live_send s1 c k type (idctr (ses t)) iov L1 Hn) as (s2 & E2 & L2 & I2 & O2 & W2); [lia|].
  rewrite O1 in O2, W2. rewrite I1 in I2. cbn [idctr set_idctr os] in *. rewrite (wrap_small 32) in I2 by lia.
  eexists. split.
  { apply (request_send_ret (reconnect opts) patience t c type 0 (idctr (ses t)) iov f (Some d) (set_idctr (u32 (idctr (ses t) + 1)) (ses t)) s1 s1 s2); try done.
    - unfold fits. lia.
    - by apply (live_start s1 c k). }
  cbn [Z.eqb]. split; [|split; [|done]].
  - split; cbn [locked ses reqtab requests outstanding_len max_outstanding_len with_req]; try done.
    + by rewrite fly_tab0, insert_union_l.
    + by rewrite fly_reqs0, insert_union_l.
    + unfold total_len. cbn [foldr]. fold (total_len pend). cbn [fl_rq p rq_len new_req]. lia.
    + cbn [map]. apply NoDup_cons. split; [|done]. apply (not_in_keys fl_id fl_addr). pose proof (rf_ids0 (idctr (ses t)) ltac:(lia)) as Hnone.
      rewrite fly_tab0 in Hnone. by apply lookup_union_None in Hnone as [Hnone _].
    + cbn [map]. apply NoDup_cons. split; [|done]. apply (not_in_keys fl_addr fl_rq). pose proof (rf_addrs0 (next_req t) ltac:(lia)) as Hnone.
      rewrite fly_reqs0 in Hnone. by apply lookup_union_None in Hnone as [Hnone _].
    + apply Forall_cons. split; [|done]. change (fl_addr p) with (next_req t). change (fl_id p) with (idctr (ses t)).
      pose proof (rf_ids0 (idctr (ses t)) ltac:(lia)) as H1'. rewrite fly_tab0 in H1'. apply lookup_union_None in H1' as [_ ?].
      pose proof (rf_addrs0 (next_req t) ltac:(lia)) as H2'. rewrite fly_reqs0 in H2'. by apply lookup_union_None in H2' as [_ ?].
    + apply Forall_cons. split; [|done]. split; cbn; try done; try lia.
    + lia.
  - split; cbn [next_req requests reqtab ses outstanding_len max_outstanding_len with_req].
    + lia.
    + intros a Ha. rewrite lookup_insert_ne by lia. apply rf_addrs0. lia.
    + intros i Hi. rewrite I2 in Hi. rewrite lookup_insert_ne by lia. apply rf_ids0. lia.
    + lia.
    + done.
Qed.

Lemma lookup_pending_drop {A} (f : flight -> Z) (g : flight -> A) (l : list flight) (m : gmap Z A) n i :
  (list_to_map (map (fun p => (f p, g p)) l) ∪ m) !! i = None -> (list_to_map (map (fun p => (f p, g p)) (drop n l)) ∪ m) !! i = None.
Proof.
  rewrite !lookup_union_None. intros [Hl Hm]. split; [|done]. apply not_in_keys in Hl. apply not_elem_of_list_to_map_1.
  rewrite map_map. intros Hin. apply Hl. revert Hin. change (i ∈ map f (drop n l) -> i ∈ map f l). rewrite <- skipn_map. apply subseteq_drop.
Qed.

(** After waiting there is still room, and what was free is free. *)
Lemma ready_after t t' c k pend n tab reqs out lim room : flying t c k pend tab reqs out -> flying t' c k (drop n pend) tab reqs out ->
  quiet k t t' -> ready_for t lim room -> ready_for t' lim room.
Proof.
  intros Hf Hf' [_ Q2 Q3 Q4] []. pose proof (fly_len _ _ _ _ _ _ _ Hf). pose proof (fly_len _ _ _ _ _ _ _ Hf').
  pose proof (fly_ok _ _ _ _ _ _ _ Hf) as Hok. rewrite <- (take_drop n pend) in Hok. apply Forall_app in Hok as [Hok _]. apply total_len_pos in Hok.
  assert (total_len pend = total_len (take n pend) + total_len (drop n pend)) as Ht.
  { rewrite <- (take_drop n pend) at 1. unfold total_len. generalize (take n pend) as l. induction l as [|p l IH]; cbn [app foldr]; lia. }
  split; rewrite ?Q2, ?Q3, ?Q4; try done.
  - lia.
  - intros a Ha. specialize (rf_addrs0 a Ha). rewrite (fly_reqs _ _ _ _ _ _ _ Hf) in rf_addrs0. rewrite (fly_reqs _ _ _ _ _ _ _ Hf'). by apply lookup_pending_drop.
  - intros i Hi. specialize (rf_ids0 i Hi). rewrite (fly_tab _ _ _ _ _ _ _ Hf) in rf_ids0. rewrite (fly_tab _ _ _ _ _ _ _ Hf'). by apply lookup_pending_drop.
Qed.
End Flights.
