(* ===== verification/SftpReads.v ===== *)
(** * Reading files over an sftp connection

    [sshfs_read] with synchronous reads and with read-ahead, run over a connection on which
    the answers of a server arrive in any order.  The invariant [reads_ok] says of
    every chunk which of its pieces have arrived, which are under way and which are still to
    be asked for; [serving] adds the open file.  It is kept, and a read returns the
    bytes of the file ([sshfs_read_returns_file]).  Errors are lost
    ([failed_read_is_eof]). *)

From Stdlib Require Import ZArith Lia Ascii String.
From stdpp Require Import base list gmap sets.
From S2P Require Import Prelude World Cache SftpBuf SftpConn SftpRequests SftpFiles SftpTransfers.

Local Open Scope Z_scope.

(** ** A file and the answers about it *)

Definition read_at (F : list ascii) (off n : Z) : list ascii := take (Z.to_nat n) (drop (Z.to_nat off) F).

(** The answer of a server to a request for [n] bytes at [off]; [text] is its message
    at the end of the file. *)
Definition read_answer (text F : list ascii) (off n : Z) : Z * list ascii :=
  match read_at F off n with
  | [] => (SSH_FXP_STATUS, be_bytes 4 SSH_FX_EOF ++ text)
  | d => (SSH_FXP_DATA, be_bytes 4 (Z.of_nat (length d)) ++ d)
  end.

(** The pieces of at most [mx] bytes that a read is divided into, and messages about
    them with identifiers from [id] on. *)
Fixpoint pieces (fuel : nat) (mx size off : Z) : list (Z * Z) :=
  if size =? 0 then []
  else match fuel with
       | O => []
       | S fuel => let n := if size <? mx then size else mx in (off, n) :: pieces fuel mx (size - n) (off + n)
       end.
Definition request_of (h : list ascii) (q : Z * (Z * Z)) : list ascii :=
  message SSH_FXP_READ (be_bytes 4 q.1 ++ io_bytes h q.2.1 q.2.2).
Definition reply_of (text F : list ascii) (q : Z * (Z * Z)) : list ascii :=
  let (ty, body) := read_answer text F q.2.1 q.2.2 in message ty (be_bytes 4 q.1 ++ body).

Lemma read_at_length F off n : (length (read_at F off n) = Z.to_nat n `min` (length F - Z.to_nat off))%nat.
Proof. unfold read_at. by rewrite length_take, length_drop. Qed.
Lemma read_at_split F off n k : 0 <= off -> 0 <= k <= n ->
  read_at F off n = read_at F off k ++ read_at F (off + k) (n - k).
Proof.
  intros Ho Hk. unfold read_at. rewrite Z2Nat.inj_add, <- drop_drop by lia.
  rewrite <- (take_drop (Z.to_nat k) (drop (Z.to_nat off) F)) at 1. rewrite take_app, take_take, length_take, length_drop.
  f_equal; [f_equal; lia|]. destruct (decide (Z.to_nat k <= length F - Z.to_nat off)%nat).
  - f_equal. lia.
  - rewrite !(drop_ge (drop _ _)) by (rewrite length_drop; lia). by rewrite !take_nil.
Qed.
(** A short piece is the last one. *)
Lemma read_at_short F off n k : 0 <= off -> 0 <= n -> Z.of_nat (length (read_at F off n)) < n -> n <= k -> read_at F off k = read_at F off n.
Proof.
  intros Ho Hn Hs Hk. rewrite read_at_length in Hs. unfold read_at.
  rewrite !take_ge; [done| |]; rewrite length_drop; lia.
Qed.
Lemma read_at_end F off n : 0 <= off -> Z.of_nat (length F) <= off -> read_at F off n = [].
Proof. intros Ho H. unfold read_at. rewrite drop_ge by lia. apply take_nil. Qed.
Lemma read_at_nil F off n : 0 < n -> 0 <= off -> read_at F off n = [] -> Z.of_nat (length F) <= off.
Proof. intros Hn Ho E. apply (f_equal length) in E. rewrite read_at_length in E. cbn in E. lia. Qed.
Lemma read_at_take F off n k : 0 <= k <= n -> take (Z.to_nat k) (read_at F off n) = read_at F off k.
Proof. intros Hk. unfold read_at. rewrite take_take. f_equal. lia. Qed.
Lemma read_at_drop F off n k : 0 <= off -> 0 <= k <= n -> drop (Z.to_nat k) (read_at F off n) = read_at F (off + k) (n - k).
Proof.
  intros Ho Hk. unfold read_at. rewrite skipn_firstn_comm, drop_drop. f_equal; [lia|]. f_equal. lia.
Qed.

(** ** Chunks *)

(** What a chunk is, but for the count of requests. *)
Definition shape (ch : read_chunk) : Z * Z * Z * Z * list Z * Z :=
  (ch_offset ch, ch_size ch, ch_refs ch, ch_modifver ch, ch_reqs ch, sio_error ch).
Definition others {C} (e : files C) := (sfiles e, sios e, modifver e, moved e, conntab e, attr_cache e).

Section Chunks.
Context (text : list ascii).
Implicit Types (F : list ascii) (m : gmap Z read_req) (pend : list flight) (r : read_req) (ch : read_chunk).

Definition waits pend (rr : Z) : Prop := exists p, p ∈ pend /\ rq_end (fl_rq p) = Some (ReadEnd rr).
Definition piece_done F (off : Z) r : Prop :=
  let d := read_at F off (rr_size r) in
  rr_res r = Z.of_nat (length d) /\
  (d = [] \/ exists l o, rr_data r = reply_at l o /\ drop o l = d /\ (o <= length l)%nat /\ Z.of_nat (length l) < 2 ^ 32).
(** The answer to the piece is on its way, or has been taken. *)
Definition piece_ok pend F (off : Z) (rr : Z) r : Prop :=
  (exists p, p ∈ pend /\ rq_end (fl_rq p) = Some (ReadEnd rr) /\ (fl_type p, fl_body p) = read_answer text F off (rr_size r)) \/
  (~ waits pend rr /\ piece_done F off r).

(** The pieces of a chunk follow each other from [off] on. *)
Fixpoint covers m pend F (l : list Z) (off size : Z) : Prop :=
  match l with
  | [] => size = 0
  | rr :: l => exists r, m !! rr = Some r /\ 0 < rr_size r <= size /\ piece_ok pend F off rr r /\
      covers m pend F l (off + rr_size r) (size - rr_size r)
  end.

Definition owner m (p : flight) : option Z :=
  match rq_end (fl_rq p) with Some (ReadEnd rr) => rr_sio <$> m !! rr | _ => None end.
Definition pending_of m pend (a : Z) : list flight := filter (fun p => owner m p = Some a) pend.

(** [todo]: what has not been asked for yet. *)
Record chunk_ok m pend F (todo a : Z) ch : Prop := ChunkOk {
  co_off : 0 <= ch_offset ch;
  co_size : 0 <= ch_size ch;
  co_nodup : NoDup (ch_reqs ch);
  co_owns : Forall (fun rr => rr_sio <$> m !! rr = Some a) (ch_reqs ch);
  co_num : num_reqs ch = Z.of_nat (length (pending_of m pend a));
  co_data : sio_error ch = 0 /\ covers m pend F (ch_reqs ch) (ch_offset ch) (ch_size ch - todo) \/
            sio_error ch = MY_EOF /\ Z.of_nat (length F) <= ch_offset ch /\ pending_of m pend a = [] }.

Record reads_ok {C} (disk : Z -> list ascii) (todo : Z -> Z) pend (e : files C) : Prop := ReadsOk {
  ro_chunks : forall a ch, chunks e !! a = Some ch -> chunk_ok (rreqs e) pend (disk a) (todo a) a ch;
  ro_pend : Forall (fun p => exists rr r ch, rq_end (fl_rq p) = Some (ReadEnd rr) /\ rreqs e !! rr = Some r /\
              chunks e !! rr_sio r = Some ch /\ rr ∈ ch_reqs ch) pend;
  ro_ends : NoDup (map (fun p => rq_end (fl_rq p)) pend);
  ro_fresh : forall x, next_file e <= x -> chunks e !! x = None /\ rreqs e !! x = None }.

Lemma covers_mono m m' pend pend' F l off size :
  (forall rr r o, rr ∈ l -> m !! rr = Some r -> piece_ok pend F o rr r ->
     exists r', m' !! rr = Some r' /\ rr_size r' = rr_size r /\ piece_ok pend' F o rr r') ->
  covers m pend F l off size -> covers m' pend' F l off size.
Proof.
  revert off size. induction l as [|rr l IH]; intros off size Hm; [done|]. cbn [covers]. intros (r & Hr & Hs & Hp & Hc).
  destruct (Hm rr r off) as (r' & Hr' & Hs' & Hp'); [by left|done|done|]. exists r'. rewrite Hs'. do 3 (split; [done|]).
  apply IH; [|done]. intros. apply Hm; [by right|done|done].
Qed.

(** The piece that a request of a chunk is for. *)
Lemma covers_piece m pend F l off size rr : covers m pend F l off size -> rr ∈ l -> 0 <= off ->
  exists r o, m !! rr = Some r /\ 0 <= o /\ 0 < rr_size r /\ piece_ok pend F o rr r.
Proof.
  revert off size. induction l as [|x l IH]; intros off size Hc Hin Ho; [by apply elem_of_nil in Hin|].
  destruct Hc as (r & Hr & Hs & Hp & Hc). apply elem_of_cons in Hin as [-> |Hin]; [exists r, off; split_and!; lia || done|].
  by eapply IH in Hc; [|done|lia].
Qed.

(** *** An answer arrives *)

Lemma waits_cons p pend rr : rq_end (fl_rq p) <> Some (ReadEnd rr) -> waits (p :: pend) rr <-> waits pend rr.
Proof.
  intros Hp. split; intros (q & Hq & E); exists q; (split; [|done]); [|by right].
  by apply elem_of_cons in Hq as [-> |].
Qed.
Lemma piece_ok_cons p pend F off rr r : rq_end (fl_rq p) <> Some (ReadEnd rr) ->
  piece_ok (p :: pend) F off rr r -> piece_ok pend F off rr r.
Proof.
  intros Hp [(q & Hq & Ee & Ea)|[Hw Hd]].
  - left. exists q. split; [|done]. by apply elem_of_cons in Hq as [-> |].
  - right. by rewrite waits_cons in Hw.
Qed.

(** Of all requests under way only one ends with a piece. *)
Lemma only_waiter p pend rr : NoDup (map (fun p => rq_end (fl_rq p)) (p :: pend)) -> rq_end (fl_rq p) = Some (ReadEnd rr) -> ~ waits pend rr.
Proof.
  cbn [map]. intros [Hn _]%NoDup_cons Hp (q & Hq & E). apply Hn. rewrite Hp, <- E. by apply (list_elem_of_fmap_2 (fun p => rq_end (fl_rq p))).
Qed.
Lemma first_piece p pend F off rr r : NoDup (map (fun p => rq_end (fl_rq p)) (p :: pend)) -> rq_end (fl_rq p) = Some (ReadEnd rr) ->
  piece_ok (p :: pend) F off rr r -> (fl_type p, fl_body p) = read_answer text F off (rr_size r).
Proof.
  intros Hn Hp [(q & Hq & Ee & Ea)|[Hw _]]; [|destruct Hw; exists p; split; [by left|done]].
  apply elem_of_cons in Hq as [-> |Hq]; [done|]. destruct (only_waiter p pend rr Hn Hp). by exists q.
Qed.

Lemma owner_ext m m' p : (forall rr, rr_sio <$> m' !! rr = rr_sio <$> m !! rr) -> owner m' p = owner m p.
Proof. intros E. unfold owner. destruct (rq_end (fl_rq p)) as [[]|]; [|done..]. apply E. Qed.
Lemma pending_ext m m' pend a : (forall rr, rr_sio <$> m' !! rr = rr_sio <$> m !! rr) -> pending_of m' pend a = pending_of m pend a.
Proof. intros E. unfold pending_of. apply list_filter_iff. intros p. by rewrite (owner_ext m m'). Qed.

Lemma pending_cons m p pend a : pending_of m (p :: pend) a = if decide (owner m p = Some a) then p :: pending_of m pend a else pending_of m pend a.
Proof. done. Qed.

Lemma read_answer_inj F o o' n : read_answer text F o n = read_answer text F o' n -> read_at F o n = read_at F o' n.
Proof.
  unfold read_answer. destruct (read_at F o n) as [|b d], (read_at F o' n) as [|b' d']; try done.
  intros [_ E]%pair_equal_spec. by apply app_inj_1 in E as [_ E]; [|by rewrite !length_be_bytes].
Qed.

(** The piece [rr] of chunk [a] has come. *)
Lemma chunk_ok_arrives m p pend rr r r' F todo b ch :
  NoDup (map (fun p => rq_end (fl_rq p)) (p :: pend)) -> rq_end (fl_rq p) = Some (ReadEnd rr) -> m !! rr = Some r ->
  rr_sio r' = rr_sio r -> rr_size r' = rr_size r -> (rr_sio r = b -> forall o, (fl_type p, fl_body p) = read_answer text F o (rr_size r) -> piece_done F o r') ->
  chunk_ok m (p :: pend) F todo b ch ->
  chunk_ok (<[rr := r']> m) pend F todo b (if decide (rr_sio r = b) then add_num_reqs (-1) ch else ch).
Proof.
  intros Hnd Hp Hr Hsio Hsize Hdone [Ho Hs Hn Hown Hnum Hdata]. set (m' := <[rr := r']> m).
  assert (forall x, rr_sio <$> m' !! x = rr_sio <$> m !! x) as Hext.
  { intros x. unfold m'. destruct (decide (x = rr)) as [-> |]; [|by rewrite lookup_insert_ne]. rewrite lookup_insert_eq, Hr. cbn. by rewrite Hsio. }
  assert (owner m p = Some (rr_sio r)) as Hpo by (unfold owner; by rewrite Hp, Hr).
  assert (covers m (p :: pend) F (ch_reqs ch) (ch_offset ch) (ch_size ch - todo) ->
          covers m' pend F (ch_reqs ch) (ch_offset ch) (ch_size ch - todo)) as Hcov.
  { apply covers_mono. intros x rx o Hx Hrx Hpx. unfold m'. destruct (decide (x = rr)) as [-> |Hne].
    - rewrite lookup_insert_eq. exists r'. assert (rx = r) as -> by congruence. split; [done|]. split; [done|]. right.
      split; [by eapply only_waiter|]. apply Hdone; [|by eapply first_piece]. rewrite Forall_forall in Hown. specialize (Hown _ Hx).
      rewrite Hr in Hown. cbn in Hown. congruence.
    - rewrite lookup_insert_ne by done. exists rx. split; [done|]. split; [done|]. eapply piece_ok_cons; [|done]. congruence. }
  rewrite pending_cons in Hnum, Hdata. rewrite <- (pending_ext m m') in Hnum, Hdata by done.
  assert (Forall (fun x => rr_sio <$> m' !! x = Some b) (ch_reqs ch)) as Hown' by (eapply Forall_impl; [exact Hown|]; intros; by rewrite Hext).
  destruct (decide (rr_sio r = b)) as [<- |Hb].
  - rewrite decide_True in Hnum, Hdata by done. split; try done.
    + cbn [num_reqs add_num_reqs]. rewrite Hnum. cbn [length]. lia.
    + left. destruct Hdata as [[? ?]|(_ & _ & ?)]; [|done]. split; [done|by apply Hcov].
  - rewrite decide_False in Hnum, Hdata by congruence. split; try done. destruct Hdata as [[? ?]|?]; [left|by right]. split; [done|by apply Hcov].
Qed.

Context `{HeapLaws} `{!HeapPlenty}.

(** What [sshfs_read_end] makes of the answer. *)
Lemma read_end_answer F off n c p data : (fl_type p, fl_body p) = read_answer text F off n -> flight_ok c p -> 0 <= n ->
  exists data', read_end_result n data (answered p) = Ret (Z.of_nat (length (read_at F off n)), data') /\
    (read_at F off n = [] \/ exists l o, data' = reply_at l o /\ drop o l = read_at F off n /\ (o <= length l)%nat /\ Z.of_nat (length l) < 2 ^ 32).
Proof.
  intros Ha [_ _ Herr _ Hid Hty Hb] Hn. pose proof (read_at_length F off n) as Hlen. unfold read_answer in Ha.
  unfold read_end_result, answered. cbn [rq_error set_reply replied reply_type reply]. rewrite Herr. cbn [Z.eqb negb].
  change MAX_REPLY_LEN with 131072 in *. unfold answer_buf. set (i := be_bytes 4 (fl_id p)). assert (length i = 4%nat) as Hi by apply length_be_bytes.
  destruct (read_at F off n) as [|b d] eqn:Ed; apply pair_equal_spec in Ha as [Et Eb]; rewrite Et, Eb; rewrite Eb, length_app, length_be_bytes in Hb;
    cbn [Z.eqb SSH_FXP_STATUS SSH_FXP_DATA Pos.eqb].
  - pose proof (decodes_uint32 SSH_FX_EOF ltac:(done) i text) as Hd. rewrite Hi in Hd.
    rewrite Hd by (rewrite !length_app, length_be_bytes; lia). eexists. split; [done|by left].
  - set (x := b :: d) in *. pose proof (decodes_uint32 (Z.of_nat (length x)) ltac:(lia) i x) as Hd. rewrite Hi in Hd.
    rewrite Hd by (rewrite !length_app, length_be_bytes; lia). unfold mbind, outcome_bind. rewrite Z.gtb_ltb, (proj2 (Z.ltb_ge _ _)) by lia.
    rewrite length_be_bytes. unfold buf_check_get. cbn [reply_at buf_len buf_size]. rewrite (wrap_small 64) by lia.
    rewrite !length_app, length_be_bytes, Hi, Z.gtb_ltb, (proj2 (Z.ltb_ge _ _)) by lia.
    eexists. split; [done|]. right. exists (i ++ be_bytes 4 (Z.of_nat (length x)) ++ x), 8%nat.
    rewrite !length_app, length_be_bytes, Hi. split_and!; try lia; [done|]. rewrite app_assoc.
    replace 8%nat with (length (i ++ be_bytes 4 (Z.of_nat (length x)))) by (by rewrite length_app, length_be_bytes, Hi). by rewrite drop_app_length.
Qed.

Lemma reads_step {C} disk todo p pend (e : files C) c : reads_ok disk todo (p :: pend) e -> flight_ok c p ->
  exists rr e', rq_end (fl_rq p) = Some (ReadEnd rr) /\ sshfs_read_end rr (answered p) e = Ret e' /\ reads_ok disk todo pend e' /\
    others e' = others e /\ next_file e' = next_file e /\ shape <$> chunks e' = shape <$> chunks e.
Proof using All.
  intros [Hch Hpend Hends Hfresh] Hok. apply Forall_cons in Hpend as [(rr & r & ch & Hp & Hr & Hc & Hin) Hpend].
  set (a := rr_sio r) in *. pose proof (Hch a ch Hc) as [Ho Hs Hn Hown Hnum Hdata].
  destruct Hdata as [[Herr Hcov]|(_ & _ & Hnone)].
  2:{ rewrite pending_cons, decide_True in Hnone; [done|]. unfold owner. by rewrite Hp, Hr. }
  destruct (covers_piece _ _ _ _ _ _ rr Hcov Hin Ho) as (r0 & o & Hr0 & Ho0 & Hsz & Hpo). assert (r0 = r) as -> by congruence.
  pose proof (first_piece _ _ _ _ _ _ Hends Hp Hpo) as Ha.
  destruct (read_end_answer (disk a) o (rr_size r) c p (rr_data r) Ha Hok ltac:(lia)) as (data' & Er & Hdata').
  set (r' := ReadReq a data' (rr_size r) (Z.of_nat (length (read_at (disk a) o (rr_size r))))).
  exists rr, (set_chunks (<[a := add_num_reqs (-1) ch]> (chunks e)) (set_rreqs (<[rr := r']> (rreqs e)) e)).
  split; [done|]. split.
  { unfold sshfs_read_end. rewrite Hr. cbn [deref]. unfold mbind, outcome_bind. rewrite Er. unfold upd_rreq, upd. rewrite Hr. cbn [deref].
    unfold upd_chunk, upd, mbind, outcome_bind. fold a. cbn [chunks set_rreqs]. by rewrite Hc. }
  split; [|split; [done|split; [done|]]].
  - split; cbn [chunks rreqs set_chunks set_rreqs next_file].
    + intros b cb Hb. assert (exists cb0, chunks e !! b = Some cb0 /\ cb = if decide (rr_sio r = b) then add_num_reqs (-1) cb0 else cb0) as (cb0 & Hb0 & ->).
      { fold a. destruct (decide (a = b)) as [<- |]; [rewrite lookup_insert_eq in Hb; exists ch; naive_solver|].
        rewrite lookup_insert_ne in Hb by done. by exists cb. }
      apply (chunk_ok_arrives _ p _ _ r); try done; [|by apply Hch]. fold a. intros <- o' Ho'. rewrite Ha in Ho'. apply read_answer_inj in Ho'.
      unfold piece_done. cbn [rr_size rr_res rr_data r']. rewrite <- Ho'. done.
    + eapply Forall_impl; [exact Hpend|]. intros q (x & rx & cx & Hq & Hx & Hcx & Hinx). exists x.
      assert (exists rx', <[rr := r']> (rreqs e) !! x = Some rx' /\ rr_sio rx' = rr_sio rx) as (rx' & Hx' & Hsx).
      { destruct (decide (x = rr)) as [-> |]; [rewrite lookup_insert_eq; exists r'; split; [done|]; by assert (rx = r) as -> by congruence|]. rewrite lookup_insert_ne by done. by exists rx. }
      exists rx'. rewrite Hsx. destruct (decide (a = rr_sio rx)) as [E|]; [|exists cx; rewrite (lookup_insert_ne (chunks e)) by done; split_and!; done].
      exists (add_num_reqs (-1) ch). rewrite <- E, (lookup_insert_eq (chunks e)). split_and!; try done. by assert (cx = ch) as -> by congruence.
    + by apply NoDup_cons in Hends as [_ ?].
    + intros x Hx. destruct (Hfresh x Hx). rewrite !lookup_insert_ne by congruence. done.
  - cbn [chunks set_chunks]. rewrite fmap_insert. change (shape (add_num_reqs (-1) ch)) with (shape ch). apply insert_id. by rewrite lookup_fmap, Hc.
Qed.

(** *** Taking the data *)

Lemma set_rreqs_same {C} (e : files C) : set_rreqs (rreqs e) e = e.
Proof. by destruct e. Qed.

(** The data of the first piece, all of it or its first [k] bytes. *)
Lemma piece_bytes F off r k : piece_done F off r -> 0 < rr_res r -> 0 <= off -> 0 <= k <= rr_res r -> 0 < rr_size r ->
  exists data', buf_get_mem k (rr_data r) = Ret (Some (read_at F off k), data') /\
    forall x, piece_done F (off + k) (ReadReq x data' (rr_size r - k) (rr_res r - k)).
Proof using All.
  intros [Hres Hdata] Hpos Ho Hk Hsz. pose proof (read_at_length F off (rr_size r)) as Hlen.
  destruct Hdata as [Hd|(l & o & -> & Hd & Hol & Hl)]; [rewrite Hd in Hres; cbn in Hres; lia|].
  assert (length l = o + length (read_at F off (rr_size r)))%nat as Hll by (rewrite <- Hd, length_drop; lia).
  rewrite get_mem_at by lia. rewrite (proj2 (Nat.leb_le _ _)) by lia. eexists. rewrite Hd, read_at_take by lia. split; [done|].
  intros x. unfold piece_done. cbn [rr_res rr_size rr_data]. rewrite <- (read_at_drop F off (rr_size r) k), length_drop by lia.
  split; [lia|]. right. exists l, (o + Z.to_nat k)%nat. rewrite <- drop_drop, Hd. split_and!; lia || done.
Qed.

(** [take_data] takes [want] bytes of the file or all that are left, and leaves the
    chunk in order. *)
Definition takes {C} pend F (l : list Z) (off size want : Z) (e : files C) : Prop :=
  let d := read_at F off want in
  exists more err m', take_data l want e = Ret (d, more, err, set_rreqs m' e) /\
    (err = 0 /\ covers m' pend F more (off + Z.of_nat (length d)) (size - Z.of_nat (length d)) \/
     err = MY_EOF /\ Z.of_nat (length F) <= off + Z.of_nat (length d)) /\
    (exists k, more = drop k l) /\ (forall rr, rr ∉ l -> m' !! rr = rreqs e !! rr) /\
    (forall rr, rr ∈ more -> rr_sio <$> m' !! rr = rr_sio <$> rreqs e !! rr).

Lemma takes_nothing {C} pend F l off size (e : files C) : covers (rreqs e) pend F l off size -> takes pend F l off size 0 e.
Proof.
  intros Hc. exists l, 0, (rreqs e). rewrite set_rreqs_same. split; [by destruct l|]. split; [left|split; [by exists 0%nat|done]].
  split; [done|]. change (read_at F off 0) with (@nil ascii). cbn [length]. by rewrite Z.add_0_r, Z.sub_0_r.
Qed.

(** The tables after the first piece has been changed. *)
Lemma insert_head_frame (m : gmap Z read_req) rr (l : list Z) r r' : m !! rr = Some r -> rr_sio r' = rr_sio r ->
  (forall x, x ∉ rr :: l -> <[rr := r']> m !! x = m !! x) /\
  (forall x, x ∈ rr :: l -> rr_sio <$> <[rr := r']> m !! x = rr_sio <$> m !! x).
Proof.
  intros Hr Hs. split; intros x Hx.
  - rewrite lookup_insert_ne; [done|]. intros ->. apply Hx. by left.
  - destruct (decide (x = rr)) as [-> |]; [rewrite lookup_insert_eq, Hr; cbn; by rewrite Hs|by rewrite lookup_insert_ne].
Qed.

Section FirstPiece.
Context {C : Type} (pend : list flight) (F : list ascii) (rr : Z) (l : list Z) (off size want : Z) (e : files C) (r : read_req).
Context (Hr : rreqs e !! rr = Some r) (Hsz : 0 < rr_size r <= size) (Hp : piece_done F off r) (Hw : ~ waits pend rr).
Context (Hrest : covers (rreqs e) pend F l (off + rr_size r) (size - rr_size r)) (Hnl : rr ∉ l).
Context (Ho : 0 <= off) (Hwant : 0 < want <= size).

Lemma piece_res : rr_res r = Z.of_nat (length (read_at F off (rr_size r))) /\ 0 <= rr_res r <= rr_size r.
Proof using Hp Hsz. destruct Hp as [E _]. pose proof (read_at_length F off (rr_size r)). lia. Qed.

Lemma takes_eof : rr_res r = 0 -> takes pend F (rr :: l) off size want e.
Proof using All.
  intros Hz. destruct piece_res as [Hres _]. pose proof (read_at_length F off (rr_size r)). pose proof (read_at_length F off want).
  assert (read_at F off want = []) as Hd by (apply length_zero_iff_nil; lia).
  exists (rr :: l), MY_EOF, (rreqs e). rewrite set_rreqs_same, Hd. split; [|split; [right; split; [done|]; cbn; lia|split; [by exists 0%nat|done]]].
  cbn [take_data]. rewrite (proj2 (Z.eqb_neq want 0)), Hr by lia. cbn [deref]. unfold mbind, outcome_bind. by rewrite Hz.
Qed.

Lemma takes_part : want < rr_res r -> takes pend F (rr :: l) off size want e.
Proof using All.
  intros Hlt. destruct piece_res as [Hres Hb]. pose proof (read_at_length F off (rr_size r)). pose proof (read_at_length F off want).
  destruct (piece_bytes F off r want Hp) as (data' & Eg & Hd'); [lia..|].
  set (r' := ReadReq (rr_sio r) data' (rr_size r - want) (rr_res r - want)).
  destruct (insert_head_frame (rreqs e) rr l r r' Hr eq_refl) as [Hout Hin].
  exists (rr :: l), 0, (<[rr := r']> (rreqs e)). split; [|split; [left|split; [by exists 0%nat|done]]].
  - cbn [take_data]. rewrite (proj2 (Z.eqb_neq want 0)), Hr by lia. cbn [deref]. unfold mbind, outcome_bind.
    rewrite (proj2 (Z.ltb_ge _ 0)), (proj2 (Z.eqb_neq (rr_res r) 0)), (proj2 (Z.ltb_lt want _)), Eg by lia. cbn [deref].
    unfold upd_rreq, upd. by rewrite Hr.
  - split; [done|]. replace (Z.of_nat (length (read_at F off want))) with want by lia. exists r'. rewrite lookup_insert_eq. split; [done|].
    cbn [rr_size r']. split; [lia|]. split; [right; split; [done|apply Hd']|]. replace (off + want + (rr_size r - want)) with (off + rr_size r) by lia.
    replace (size - want - (rr_size r - want)) with (size - rr_size r) by lia. eapply covers_mono; [|exact Hrest].
    intros x rx ox Hx Hrx Hpx. rewrite lookup_insert_ne by congruence. by exists rx.
Qed.

Lemma piece_whole : 0 < rr_res r -> rr_res r <= want -> exists data',
  buf_get_mem (rr_res r) (rr_data r) = Ret (Some (read_at F off (rr_size r)), data').
Proof using All.
  intros Hpos Hge. destruct piece_res as [Hres Hb]. destruct (piece_bytes F off r (rr_res r) Hp) as (data' & Eg & _); [lia..|].
  exists data'. rewrite Eg. rewrite <- (read_at_take F off (rr_size r)) by lia. by rewrite take_ge by lia.
Qed.

Lemma takes_short : 0 < rr_res r -> rr_res r <= want -> rr_res r < rr_size r -> takes pend F (rr :: l) off size want e.
Proof using All.
  intros Hpos Hge Hshort. destruct piece_res as [Hres Hb]. destruct (piece_whole Hpos Hge) as (data' & Eg).
  pose proof (read_at_length F off (rr_size r)). set (r' := ReadReq (rr_sio r) data' (rr_size r) (rr_res r)).
  destruct (insert_head_frame (rreqs e) rr l r r' Hr eq_refl) as [Hout Hin].
  assert (read_at F off want = read_at F off (rr_size r)) as Hd.
  { destruct (decide (want <= rr_size r)); [|apply read_at_short; lia].
    rewrite <- (read_at_take F off (rr_size r) want) by lia. by rewrite take_ge by lia. }
  exists (rr :: l), MY_EOF, (<[rr := r']> (rreqs e)). rewrite Hd. split; [|split; [right; split; [done|]; lia|split; [by exists 0%nat|done]]].
  cbn [take_data]. rewrite (proj2 (Z.eqb_neq want 0)), Hr by lia. cbn [deref]. unfold mbind, outcome_bind.
  rewrite (proj2 (Z.ltb_ge _ 0)), (proj2 (Z.eqb_neq (rr_res r) 0)), (proj2 (Z.ltb_ge want _)), Eg by lia. cbn [deref].
  rewrite (proj2 (Z.ltb_lt _ _)) by lia. unfold upd_rreq, upd. by rewrite Hr.
Qed.

Lemma takes_whole : rr_res r = rr_size r -> rr_size r <= want ->
  takes pend F l (off + rr_size r) (size - rr_size r) (want - rr_size r) (free_rreqs [rr] e) -> takes pend F (rr :: l) off size want e.
Proof using All.
  intros Hrs Hge (more & err & m' & E & Hmore & [k Hk] & Hout & Hin). destruct piece_res as [Hres Hb].
  destruct (piece_whole ltac:(lia) ltac:(lia)) as (data' & Eg).
  pose proof (read_at_split F off want (rr_size r) Ho ltac:(lia)) as Hd. apply (f_equal length) in Hd as Hdl. rewrite length_app in Hdl.
  exists more, err, m'. split; [|split; [|split; [by exists (S k)|split]]].
  - cbn [take_data]. rewrite (proj2 (Z.eqb_neq want 0)), Hr by lia. cbn [deref]. unfold mbind, outcome_bind.
    rewrite (proj2 (Z.ltb_ge _ 0)), (proj2 (Z.eqb_neq (rr_res r) 0)), (proj2 (Z.ltb_ge want _)), Eg by lia. cbn [deref].
    rewrite (proj2 (Z.ltb_ge _ (rr_size r))) by lia. by rewrite Hrs, E, Hd.
  - rewrite Hdl, Nat2Z.inj_add, <- Hres, Hrs, !Z.add_assoc, Z.sub_add_distr. done.
  - intros x Hx. rewrite Hout by (intros ?; apply Hx; by right). cbn. rewrite lookup_delete_ne; [done|]. intros ->. apply Hx. by left.
  - intros x Hx. rewrite Hin by done. cbn. rewrite lookup_delete_ne; [done|]. intros ->. apply Hnl. subst more. by eapply subseteq_drop.
Qed.
End FirstPiece.

Lemma take_data_ok {C} pend F l : forall off size want (e : files C), covers (rreqs e) pend F l off size -> NoDup l ->
  (forall rr, rr ∈ l -> ~ waits pend rr) -> 0 <= off -> 0 <= want <= size -> takes pend F l off size want e.
Proof using All.
  induction l as [|rr l IH]; intros off size want e Hc Hn Hw Ho Hwant.
  { assert (want = 0) as -> by (cbn in Hc; lia). by apply takes_nothing. }
  destruct (Z.eq_dec want 0) as [-> |Hw0]; [by apply takes_nothing|].
  destruct Hc as (r & Hr & Hsz & Hp & Hrest). apply NoDup_cons in Hn as [Hnl Hn].
  destruct Hp as [(p & Hp & Ep & _)|[Hwr Hp]]; [destruct (Hw rr); [by left|by exists p]|].
  destruct (piece_res F off size r Hsz Hp) as [Hres Hb].
  destruct (Z.eq_dec (rr_res r) 0); [by apply (takes_eof pend F rr l off size want e r); try done; lia|].
  destruct (decide (want < rr_res r)); [by apply (takes_part pend F rr l off size want e r); try done; lia|].
  destruct (decide (rr_res r < rr_size r)); [by apply (takes_short pend F rr l off size want e r); try done; lia|].
  apply (takes_whole pend F rr l off size want e r); try done; try lia. apply IH; try done; try lia.
  - cbn [rreqs free_rreqs set_rreqs foldr]. eapply covers_mono; [|exact Hrest]. intros x rx ox Hx Hrx Hpx.
    rewrite lookup_delete_ne by congruence. by exists rx.
  - intros x Hx. apply Hw. by right.
Qed.

(** *** Changing one chunk *)

Lemma pending_iff m m' pend a : (forall p, p ∈ pend -> owner m' p = owner m p) -> pending_of m' pend a = pending_of m pend a.
Proof.
  unfold pending_of. induction pend as [|p pend IH]; intros E; [done|]. rewrite !filter_cons, (E p) by by left.
  rewrite IH; [done|]. intros q Hq. apply E. by right.
Qed.
Lemma pending_nil m pend a : pending_of m pend a = [] <-> forall p, p ∈ pend -> owner m p <> Some a.
Proof.
  unfold pending_of. split.
  - intros E p Hp Ho. assert (p ∈ filter (fun p => owner m p = Some a) pend) as Hin by by apply list_elem_of_filter.
    rewrite E in Hin. by apply elem_of_nil in Hin.
  - intros Hn. destruct (filter _ pend) as [|p l] eqn:E; [done|]. assert (p ∈ filter (fun p => owner m p = Some a) pend) as Hin by (rewrite E; by left).
    apply list_elem_of_filter in Hin as [Ho Hp]. by destruct (Hn p Hp).
Qed.

(** Pieces of a chunk without requests under way change, and the chunk with them. *)
Lemma reads_update {C} disk todo pend (e : files C) a ch m' oc : reads_ok disk todo pend e -> chunks e !! a = Some ch ->
  pending_of (rreqs e) pend a = [] -> (forall rr, rr ∉ ch_reqs ch -> m' !! rr = rreqs e !! rr) ->
  (forall ch', oc = Some ch' -> pending_of m' pend a = [] -> chunk_ok m' pend (disk a) (todo a) a ch') ->
  reads_ok disk todo pend (set_chunks (partial_alter (fun _ => oc) a (chunks e)) (set_rreqs m' e)).
Proof.
  intros [Hch Hpend Hends Hfresh] Hc Hnone Hout Hnew. pose proof (Hch a ch Hc) as [_ _ _ Hown _ _]. rewrite Forall_forall in Hown. rewrite Forall_forall in Hpend.
  assert (forall p, p ∈ pend -> exists rr r c', rq_end (fl_rq p) = Some (ReadEnd rr) /\ rreqs e !! rr = Some r /\ rr_sio r <> a /\ rr ∉ ch_reqs ch /\
    chunks e !! rr_sio r = Some c' /\ rr ∈ ch_reqs c') as Hp.
  { intros p Hp. destruct (Hpend p Hp) as (rr & r & c' & Ep & Hr & Hc' & Hin). exists rr, r, c'.
    assert (rr_sio r <> a) as Hne. { pose proof (proj1 (pending_nil _ _ _) Hnone p Hp) as Ho. unfold owner in Ho. rewrite Ep, Hr in Ho. cbn in Ho. congruence. }
    split_and!; try done. intros Hx. specialize (Hown rr Hx). rewrite Hr in Hown. cbn in Hown. congruence. }
  assert (forall b, pending_of m' pend b = pending_of (rreqs e) pend b) as Hpo.
  { intros b. apply pending_iff. intros p Hpp. destruct (Hp p Hpp) as (rr & r & c' & Ep & Hr & _ & Hni & _). unfold owner. rewrite Ep. by rewrite Hout. }
  split; cbn [chunks rreqs set_chunks set_rreqs next_file].
  - intros b cb Hb. destruct (decide (a = b)) as [<- |Hne].
    { rewrite lookup_partial_alter_eq in Hb. apply Hnew; [done|]. by rewrite Hpo. }
    rewrite lookup_partial_alter_ne in Hb by done. destruct (Hch b cb Hb) as [Ho Hs Hn Hownb Hnum Hdata].
    assert (forall rr, rr ∈ ch_reqs cb -> m' !! rr = rreqs e !! rr) as Hsame.
    { intros rr Hin. apply Hout. intros Hin'. rewrite Forall_forall in Hownb. specialize (Hownb rr Hin). specialize (Hown rr Hin'). congruence. }
    split; try done; try by rewrite Hpo.
    + rewrite Forall_forall in Hownb |- *. intros rr Hin. rewrite Hsame by done. by apply Hownb.
    + rewrite Hpo. destruct Hdata as [[He Hcov]|Hd]; [left|by right]. split; [done|]. eapply covers_mono; [|exact Hcov].
      intros rr r o Hin Hr Hpk. rewrite Hsame by done. by exists r.
  - apply Forall_forall. intros p Hpp. destruct (Hp p Hpp) as (rr & r & c' & Ep & Hr & Hne & Hni & Hc' & Hin). exists rr, r, c'.
    rewrite Hout, lookup_partial_alter_ne by done. done.
  - done.
  - intros x Hx. destruct (Hfresh x Hx) as [Hx1 Hx2]. split.
    + rewrite lookup_partial_alter_ne by congruence. done.
    + rewrite Hout; [done|]. intros Hin. specialize (Hown x Hin). by rewrite Hx2 in Hown.
Qed.

(** Fields change that the data do not depend on. *)
Lemma reads_set {C} disk todo pend (e : files C) a ch ch' : reads_ok disk todo pend e -> chunks e !! a = Some ch ->
  ch_offset ch' = ch_offset ch -> ch_size ch' = ch_size ch -> ch_reqs ch' = ch_reqs ch -> num_reqs ch' = num_reqs ch -> sio_error ch' = sio_error ch ->
  reads_ok disk todo pend (set_chunks (<[a := ch']> (chunks e)) e).
Proof.
  intros [Hch Hpend Hends Hfresh] Hc E1 E2 E3 E4 E5. split; cbn [chunks rreqs set_chunks next_file].
  - intros b cb Hb. destruct (decide (a = b)) as [<- |]; [|rewrite lookup_insert_ne in Hb by done; by apply Hch].
    rewrite lookup_insert_eq in Hb. injection Hb as <-. destruct (Hch a ch Hc). split; rewrite ?E1, ?E2, ?E3, ?E4, ?E5; done.
  - eapply Forall_impl; [exact Hpend|]. intros p (rr & r & c' & Ep & Hr & Hc' & Hin). exists rr, r.
    destruct (decide (a = rr_sio r)) as [E|]; [|exists c'; by rewrite lookup_insert_ne].
    exists ch'. rewrite E, lookup_insert_eq, E3. by assert (c' = ch) as -> by congruence.
  - done.
  - intros x Hx. destruct (Hfresh x Hx). by rewrite lookup_insert_ne by congruence.
Qed.

Lemma foldr_delete_lookup {A} (m : gmap Z A) (l : list Z) x : x ∉ l -> foldr delete m l !! x = m !! x.
Proof.
  induction l as [|y l IH]; intros Hx; [done|]. cbn [foldr]. rewrite lookup_delete_ne; [apply IH; intros ?; apply Hx; by right|].
  intros ->. apply Hx. by left.
Qed.

(** A reference is given back. *)
Lemma reads_put {C} disk todo pend (e : files C) a ch : reads_ok disk todo pend e -> chunks e !! a = Some ch -> 1 <= ch_refs ch ->
  (ch_refs ch = 1 -> pending_of (rreqs e) pend a = []) ->
  exists e', chunk_put (Some a) e = Ret e' /\ reads_ok disk todo pend e' /\ others e' = others e /\ next_file e' = next_file e /\
    chunks e' = if decide (ch_refs ch = 1) then delete a (chunks e) else <[a := set_refs (ch_refs ch - 1) ch]> (chunks e).
Proof.
  intros Hok Hc Hpos Hlast. unfold chunk_put, upd_chunk, upd. rewrite Hc. cbn [deref]. unfold mbind, outcome_bind. cbn [chunks set_chunks].
  rewrite lookup_insert_eq. cbn [deref ch_refs set_refs]. destruct (decide (ch_refs ch = 1)) as [E|E].
  - rewrite (proj2 (Z.eqb_eq _ _)) by lia. unfold chunk_free, mbind, outcome_bind. cbn [chunks set_chunks]. rewrite lookup_insert_eq. cbn [deref ch_reqs set_refs].
    eexists. split; [done|]. split; [|split; [done|split; [done|cbn; by rewrite delete_insert_eq]]].
    pose proof (reads_update disk todo pend e a ch (foldr delete (rreqs e) (ch_reqs ch)) None Hok Hc (Hlast E)) as Hu.
    assert (reads_ok disk todo pend (set_chunks (delete a (chunks e)) (set_rreqs (foldr delete (rreqs e) (ch_reqs ch)) e))) as Hu' by (apply Hu; [apply foldr_delete_lookup|done]).
    unfold set_chunks, set_rreqs, free_rreqs in *. cbn in *. by rewrite delete_insert_eq.
  - rewrite (proj2 (Z.eqb_neq _ _)) by lia. eexists. split; [done|]. split; [by apply (reads_set _ _ _ _ _ ch)|done].
Qed.

(** Data are taken from a chunk that has no requests under way. *)
Definition taken_from (d : list ascii) (more : list Z) (err : Z) ch : read_chunk :=
  (if Z.of_nat (length d) >? 0 then advance (Z.of_nat (length d)) else fun x => x) (set_sio_error err (set_reqs more ch)).

Lemma reads_take {C} disk todo pend (e : files C) a ch size : reads_ok disk todo pend e -> chunks e !! a = Some ch ->
  pending_of (rreqs e) pend a = [] -> todo a = 0 -> sio_error ch = 0 -> 0 <= size <= ch_size ch ->
  let d := read_at (disk a) (ch_offset ch) size in
  exists more err m', take_data (ch_reqs ch) size e = Ret (d, more, err, set_rreqs m' e) /\
    reads_ok disk todo pend (set_chunks (<[a := taken_from d more err ch]> (chunks e)) (set_rreqs m' e)).
Proof using All.
  intros Hok Hc Hnone Htodo Herr Hs d. pose proof (ro_chunks _ _ _ _ Hok a ch Hc) as [Ho Hsz Hn Hown Hnum Hdata].
  destruct Hdata as [[_ Hcov]|[E _]]; [|by rewrite Herr in E]. rewrite Htodo, Z.sub_0_r in Hcov. rewrite Forall_forall in Hown.
  destruct (take_data_ok pend (disk a) (ch_reqs ch) (ch_offset ch) (ch_size ch) size e Hcov Hn) as (more & err & m' & E & Hmore & [k ->] & Hout & Hin); try done.
  { intros rr Hrr (p & Hp & Ep). apply (proj1 (pending_nil _ _ _) Hnone p Hp). unfold owner. rewrite Ep. by apply Hown. }
  fold d in E, Hmore. exists (drop k (ch_reqs ch)), err, m'. split; [done|]. pose proof (read_at_length (disk a) (ch_offset ch) size) as Hlen. fold d in Hlen.
  set (n := Z.of_nat (length d)) in *.
  assert (forall P : Z -> Z -> Prop, P (ch_offset ch + n) (ch_size ch - n) -> P (ch_offset (taken_from d (drop k (ch_reqs ch)) err ch)) (ch_size (taken_from d (drop k (ch_reqs ch)) err ch))) as Hadv.
  { intros P HP. unfold taken_from. fold n. destruct (Z.gtb_spec n 0); [done|]. cbn. replace n with 0 in HP by lia. by rewrite Z.add_0_r, Z.sub_0_r in HP. }
  assert (forall x, ch_reqs (taken_from d x err ch) = x /\ num_reqs (taken_from d x err ch) = num_reqs ch /\ sio_error (taken_from d x err ch) = err) as Hf
    by (intros x; unfold taken_from; by destruct (_ >? _)). destruct (Hf (drop k (ch_reqs ch))) as (Hf1 & Hf2 & Hf3).
  apply (reads_update disk todo pend e a ch m' (Some _) Hok Hc Hnone Hout). intros ch' E' Hpn. injection E' as <-.
  split.
  - apply (Hadv (fun o _ => 0 <= o)). lia.
  - apply (Hadv (fun _ s => 0 <= s)). lia.
  - rewrite Hf1. eapply sublist_NoDup; [exact Hn|apply sublist_drop].
  - rewrite Hf1. apply Forall_forall. intros rr Hrr. rewrite Hin by done. apply Hown. by eapply subseteq_drop.
  - rewrite Hf2, Hnum, Hpn, Hnone. done.
  - rewrite Hf1, Hf3, Htodo. apply (Hadv (fun o s => err = 0 /\ covers m' pend (disk a) (drop k (ch_reqs ch)) o (s - 0) \/ err = MY_EOF /\ Z.of_nat (length (disk a)) <= o /\ _)).
    rewrite Z.sub_0_r. naive_solver.
Qed.

(** *** Asking for another piece *)

Definition asked_piece {C} (a : Z) ch (n : Z) (e : files C) : files C :=
  let rr := next_file e in
  set_chunks (<[a := add_num_reqs 1 (set_reqs (ch_reqs ch ++ [rr]) ch)]> (chunks e))
    (set_rreqs (<[rr := ReadReq a (Buffer None 0 0) n 0]> (rreqs e)) (set_next_file (rr + 1) e)).
Definition less (todo : Z -> Z) (a n : Z) : Z -> Z := fun b => if decide (b = a) then todo a - n else todo b.

Lemma piece_ok_add p pend F off rr r : rq_end (fl_rq p) <> Some (ReadEnd rr) -> piece_ok pend F off rr r -> piece_ok (p :: pend) F off rr r.
Proof.
  intros Hp [(q & Hq & E)|[Hw Hd]]; [left; exists q; split; [by right|done]|right; split; [|done]]. by rewrite waits_cons.
Qed.
Lemma covers_snoc m pend F l off size rr r : covers m pend F l off size -> m !! rr = Some r -> 0 < rr_size r -> piece_ok pend F (off + size) rr r -> 0 <= size ->
  covers m pend F (l ++ [rr]) off (size + rr_size r).
Proof.
  revert off size. induction l as [|x l IH]; intros off size Hc Hr Hn Hp Hs; cbn [app covers] in *.
  - subst size. rewrite Z.add_0_r in Hp. exists r. split_and!; try done; lia.
  - destruct Hc as (rx & Hx & Hsx & Hpx & Hc). exists rx. split; [done|]. split; [lia|]. split; [done|].
    replace (size + rr_size r - rr_size rx) with (size - rr_size rx + rr_size r) by lia. apply IH; try done; [|lia].
    by replace (off + rr_size rx + (size - rr_size rx)) with (off + size) by lia.
Qed.
Lemma covers_size m pend F l off size : covers m pend F l off size -> 0 <= size.
Proof. revert off size. induction l as [|x l IH]; intros off size; cbn [covers]; [lia|]. intros (r & _ & Hr & _ & Hc). apply IH in Hc. lia. Qed.

Lemma reads_ask {C} disk todo pend (e : files C) a ch n p : reads_ok disk todo pend e -> chunks e !! a = Some ch -> sio_error ch = 0 ->
  0 < n -> rq_end (fl_rq p) = Some (ReadEnd (next_file e)) ->
  (fl_type p, fl_body p) = read_answer text (disk a) (ch_offset ch + (ch_size ch - todo a)) n ->
  reads_ok disk (less todo a n) (p :: pend) (asked_piece a ch n e).
Proof.
  intros [Hch Hpend Hends Hfresh] Hc Herr Hn Hp Ha. destruct (Hfresh (next_file e) ltac:(lia)) as [Hfc Hfr]. set (rr := next_file e) in *.
  set (r := ReadReq a (Buffer None 0 0) n 0). set (m := rreqs e) in *. set (m' := <[rr := r]> m).
  assert (forall x rx, m !! x = Some rx -> m' !! x = Some rx) as Hm by (intros x rx Hx; unfold m'; rewrite lookup_insert_ne by congruence; done).
  assert (forall q, q ∈ pend -> rq_end (fl_rq q) <> Some (ReadEnd rr)) as Hq.
  { intros q Hq E. rewrite Forall_forall in Hpend. destruct (Hpend q Hq) as (x & rx & cx & Ex & Hx & _). congruence. }
  assert (forall b, pending_of m' pend b = pending_of m pend b) as Hpo.
  { intros b. apply pending_iff. intros q Hqq. rewrite Forall_forall in Hpend. destruct (Hpend q Hqq) as (x & rx & cx & Ex & Hx & _).
    unfold owner. by rewrite Ex, Hx, (Hm x rx Hx). }
  assert (owner m' p = Some a) as Hop by (unfold owner, m'; by rewrite Hp, lookup_insert_eq).
  assert (forall b cb, chunks e !! b = Some cb -> chunk_ok m pend (disk b) (todo b) b cb ->
    Forall (fun x => rr_sio <$> m' !! x = Some b) (ch_reqs cb) /\ rr ∉ ch_reqs cb /\
    (covers m pend (disk b) (ch_reqs cb) (ch_offset cb) (ch_size cb - todo b) -> covers m' (p :: pend) (disk b) (ch_reqs cb) (ch_offset cb) (ch_size cb - todo b))) as Hold.
  { intros b cb Hb [_ _ _ Hown _ _]. rewrite Forall_forall in Hown. split; [|split].
    - apply Forall_forall. intros x Hx. specialize (Hown x Hx). destruct (m !! x) as [rx|] eqn:E; [|done]. by rewrite (Hm x rx E).
    - intros Hx. specialize (Hown rr Hx). by rewrite Hfr in Hown.
    - apply covers_mono. intros x rx o Hx Hrx Hpx. exists rx. rewrite (Hm x rx Hrx). split; [done|]. split; [done|]. apply piece_ok_add; [congruence|done]. }
  split; cbn [chunks rreqs set_chunks set_rreqs set_next_file next_file asked_piece]; fold rr; fold m.
  - intros b cb Hb. fold r m'. destruct (decide (a = b)) as [<- |Hne].
    + rewrite lookup_insert_eq in Hb. injection Hb as <-. pose proof (Hch a ch Hc) as Hok. destruct (Hold a ch Hc Hok) as (Hown' & Hni & Hcov). destruct Hok as [Ho Hs Hnd Hown Hnum Hdata].
      destruct Hdata as [[_ Hdata]|[E _]]; [|by rewrite Herr in E]. pose proof (covers_size _ _ _ _ _ _ Hdata) as Hsz.
      split; cbn [ch_offset ch_size ch_reqs num_reqs sio_error set_reqs add_num_reqs]; try done.
      * apply NoDup_app. split; [done|]. split; [|apply NoDup_singleton]. intros x Hx ->%list_elem_of_singleton. done.
      * apply Forall_app. split; [done|]. apply Forall_singleton. unfold m'. by rewrite lookup_insert_eq.
      * rewrite pending_cons, decide_True, Hpo by done. cbn [length]. lia.
      * left. split; [done|]. unfold less. rewrite decide_True by done. replace (ch_size ch - (todo a - n)) with (ch_size ch - todo a + rr_size r) by (cbn; lia).
        apply covers_snoc; [by apply Hcov|unfold m'; by rewrite lookup_insert_eq|done| |done]. left. exists p. split; [by left|done].
    + rewrite lookup_insert_ne in Hb by done. pose proof (Hch b cb Hb) as Hok. destruct (Hold b cb Hb Hok) as (Hown' & Hni & Hcov). destruct Hok as [Ho Hs Hnd Hown Hnum Hdata].
      unfold less. rewrite (decide_False (P := b = a)) by congruence. rewrite <- Hpo in Hnum, Hdata. split; try done; rewrite pending_cons, decide_False by congruence; [done|].
      destruct Hdata as [[? Hd]|?]; [left|by right]. split; [done|by apply Hcov].
  - fold r m'. apply Forall_cons. split.
    + exists rr, r. eexists. split; [done|]. split; [unfold m'; by rewrite lookup_insert_eq|]. cbn [rr_sio r]. rewrite lookup_insert_eq. split; [done|].
      cbn. apply elem_of_app. right. by apply list_elem_of_singleton.
    + eapply Forall_impl; [exact Hpend|]. intros q (x & rx & cx & Ex & Hx & Hcx & Hin). exists x, rx. destruct (decide (a = rr_sio rx)) as [E|].
      * eexists. rewrite <- E, lookup_insert_eq. split; [done|]. split; [by apply Hm|]. split; [done|]. cbn. apply elem_of_app. left.
        by assert (cx = ch) as <- by congruence.
      * exists cx. rewrite lookup_insert_ne by done. split; [done|]. split; [by apply Hm|done].
  - cbn [map]. apply NoDup_cons. split; [|done]. rewrite Hp. intros (q & Eq & Hqq)%list_elem_of_fmap. by destruct (Hq q Hqq).
  - intros x Hx. destruct (Hfresh x ltac:(lia)). assert (x <> a) by congruence. by rewrite !lookup_insert_ne by lia.
Qed.

(** A chunk nothing of which has been asked for. *)
Lemma reads_new {C} disk todo pend (e : files C) off size : reads_ok disk todo pend e -> 0 <= off -> 0 <= size ->
  let a := next_file e in
  reads_ok disk (fun b => if decide (b = a) then size else todo b) pend
    (set_chunks (<[a := ReadChunk off size 1 0 [] 0 0]> (chunks e)) (set_next_file (a + 1) e)).
Proof.
  intros [Hch Hpend Hends Hfresh] Ho Hs a. destruct (Hfresh a ltac:(lia)) as [Hfc Hfr].
  assert (pending_of (rreqs e) pend a = []) as Hnone.
  { apply pending_nil. intros p Hp Hown. rewrite Forall_forall in Hpend. destruct (Hpend p Hp) as (rr & r & ch & Ep & Hr & Hc & _).
    unfold owner in Hown. rewrite Ep, Hr in Hown. cbn in Hown. congruence. }
  split; cbn [chunks rreqs set_chunks set_next_file next_file].
  - intros b cb Hb. destruct (decide (b = a)) as [-> |Hne]; [|rewrite lookup_insert_ne in Hb by done; by apply Hch].
    rewrite lookup_insert_eq in Hb. injection Hb as <-. split; cbn [ch_offset ch_size ch_reqs num_reqs sio_error]; try done.
    + constructor.
    + by rewrite Hnone.
    + left. split; [done|]. cbn. lia.
  - eapply Forall_impl; [exact Hpend|]. intros q (x & rx & cx & Ex & Hx & Hcx & Hin). exists x, rx, cx. rewrite lookup_insert_ne by congruence. done.
  - done.
  - intros x Hx. destruct (Hfresh x ltac:(lia)). by rewrite lookup_insert_ne by lia.
Qed.

(** The order of the requests under way does not matter. *)
Lemma piece_ok_perm pend pend' F off rr r : pend ≡ₚ pend' -> piece_ok pend F off rr r -> piece_ok pend' F off rr r.
Proof. intros Hp. unfold piece_ok, waits. by setoid_rewrite Hp. Qed.
Lemma reads_ok_perm {C} disk todo pend pend' (e : files C) : pend ≡ₚ pend' -> reads_ok disk todo pend e -> reads_ok disk todo pend' e.
Proof.
  intros Hp [Hch Hpend Hends Hfresh]. assert (forall a, pending_of (rreqs e) pend a ≡ₚ pending_of (rreqs e) pend' a) as Hpo by (intros a; unfold pending_of; by rewrite Hp).
  split; [|by rewrite <- Hp|by rewrite <- Hp|done].
  intros a ch Hc. destruct (Hch a ch Hc) as [Ho Hs Hn Hown Hnum Hdata]. split; try done; [by rewrite <- Hpo|].
  destruct Hdata as [[? Hd]|(? & ? & Hd)].
  - left. split; [done|]. eapply covers_mono; [|exact Hd]. intros rr r o _ Hr Hpk. exists r. split; [done|]. split; [done|]. by eapply piece_ok_perm.
  - right. split; [done|]. split; [done|]. specialize (Hpo a). rewrite Hd in Hpo. by apply Permutation_nil_l in Hpo.
Qed.
End Chunks.

Section Reading.
Context `{HeapLaws} `{!HeapPlenty} {W C : Type} `{Duplex W} `{!Dialer W} `{!TableOrder} `{!OpenCache C}.
Context (opts : options) (noise : nat) (patience : nat) (fopts : file_options) (text : list ascii).
#[local] Hint Extern 0 (Transport (session _)) => exact (session_transport opts noise) : typeclass_instances.
Abbreviation cl := (client (session W) end_data (files C)).
Implicit Types (t : cl) (k : conn).

(** The answers to the requests under way are what the connection brings first. *)
Definition reading disk todo t c k pend rest tab reqs out : Prop :=
  flying t c k pend tab reqs out /\ wire_in (os (ses t)) (rfd k) = answers pend ++ rest /\ reads_ok text disk todo pend (ext t).

Lemma reading_ext disk todo t c k pend rest tab reqs out e : reading disk todo t c k pend rest tab reqs out ->
  reads_ok text disk todo pend e -> reading disk todo (set_ext e t) c k pend rest tab reqs out.
Proof. intros (Hf & Hw & _) Hr. split; [by apply flying_ext|done]. Qed.

Lemma quiet_ext k t e : quiet k t (set_ext e t).
Proof. by split. Qed.

(** The files after waiting for the requests of a chunk. *)
Record settled (e e' : files C) : Prop := Settled {
  se_others : others e' = others e;
  se_next : next_file e' = next_file e;
  se_shape : shape <$> chunks e' = shape <$> chunks e }.

Lemma shape_lookup (e e' : files C) a ch : shape <$> chunks e' = shape <$> chunks e -> chunks e !! a = Some ch ->
  exists ch', chunks e' !! a = Some ch' /\ shape ch' = shape ch.
Proof.
  intros E Hc. apply (f_equal (lookup a)) in E. rewrite !lookup_fmap, Hc in E.
  destruct (chunks e' !! a) as [ch'|]; [|done]. exists ch'. split; [done|]. by apply (inj Some) in E.
Qed.

Lemma wait_settles disk todo t c k pend rest tab reqs out a ch : reading disk todo t c k pend rest tab reqs out ->
  chunks (ext t) !! a = Some ch -> (length pend <= patience)%nat ->
  exists n t' ch', wait_until (reconnect opts) patience c (fun t => match chunks (ext t) !! a with Some ch => num_reqs ch =? 0 | None => false end) t = Ret (true, t') /\
    reading disk todo t' c k (drop n pend) rest tab reqs out /\ quiet k t t' /\ settled (ext t) (ext t') /\
    chunks (ext t') !! a = Some ch' /\ shape ch' = shape ch /\ pending_of (rreqs (ext t')) (drop n pend) a = [].
Proof using All.
  intros (Hf & Hw & Hr) Hc Hl. set (cond := fun t => _).
  set (inv := fun pend (e : files C) => reads_ok text disk todo pend e /\ Forall (flight_ok c) pend /\ settled (ext t) e).
  destruct (wait_drains opts noise patience inv cond c k tab reqs out rest) with (fuel := patience) (pend := pend) (t := t)
    as (n & t' & E & Hcond & Hf' & Hw' & (Hr' & _ & Hs) & Hq); try done.
  - intros p l e (Hre & Hall & Hse). apply Forall_cons in Hall as [Hp Hall].
    destruct (reads_step text disk todo p l e c Hre Hp) as (rr & e' & Ep & Ee & Hre' & Ho & Hn & Hsh). exists (ReadEnd rr), e'.
    split; [done|]. split; [done|]. split; [done|]. split; [done|]. destruct Hse. split; congruence.
  - intros t0 (Hre & _ & Hse). destruct (shape_lookup (ext t) (ext t0) a ch (se_shape _ _ Hse) Hc) as (ch0 & Hc0 & _). unfold cond. rewrite Hc0.
    apply Z.eqb_eq. by rewrite (co_num _ _ _ _ _ _ _ (ro_chunks _ _ _ _ _ Hre a ch0 Hc0)).
  - split; [done|]. split; [by apply (fly_ok _ _ _ _ _ _ _ Hf)|by split].
  - destruct (shape_lookup (ext t) (ext t') a ch (se_shape _ _ Hs) Hc) as (ch' & Hc' & Hsh). exists n, t', ch'.
    split; [done|]. split; [done|]. split; [done|]. split; [done|]. split; [done|]. split; [done|].
    unfold cond in Hcond. rewrite Hc' in Hcond. apply Z.eqb_eq in Hcond. rewrite (co_num _ _ _ _ _ _ _ (ro_chunks _ _ _ _ _ Hr' a ch' Hc')) in Hcond.
    apply length_zero_iff_nil. lia.
Qed.

(** The files after data [d] have been taken from chunk [a] and a reference to it has
    been given back. *)
Record drained (e e' : files C) (a : Z) (ch : read_chunk) (d : list ascii) : Prop := Drained {
  dr_others : others e' = others e;
  dr_next : next_file e' = next_file e;
  dr_apart : forall b, b <> a -> shape <$> chunks e' !! b = shape <$> chunks e !! b;
  dr_chunk : ch_refs ch <> 1 -> exists ch', chunks e' !! a = Some ch' /\ ch_refs ch' = ch_refs ch - 1 /\ ch_modifver ch' = ch_modifver ch /\
    ch_offset ch' = ch_offset ch + Z.of_nat (length d) /\ ch_size ch' = ch_size ch - Z.of_nat (length d) }.

Lemma fget_ret t : fget t = Ret (Some (ext t), t).
Proof. done. Qed.
Lemma fmodify_ret f t : fmodify f t = Ret (Some tt, set_ext (f (ext t)) t).
Proof. done. Qed.
Lemma fupdate_ret f t e : f (ext t) = Ret e -> fupdate f t = Ret (Some tt, set_ext e t).
Proof. intros E. unfold fupdate. by rewrite E. Qed.
Lemma lift_ret {A} (a : A) o t : o = Ret a -> lift o t = Ret (Some a, t).
Proof. by intros ->. Qed.
Lemma upd_chunk_ret a f (e : files C) ch : chunks e !! a = Some ch -> upd_chunk a f e = Ret (set_chunks (<[a := f ch]> (chunks e)) e).
Proof. intros E. unfold upd_chunk, upd. by rewrite E. Qed.
Lemma lock_ret t : locked t = false -> lock t = Ret (Some tt, t).
Proof. intros E. unfold lock. by rewrite E. Qed.

(** A reference is given back by a thread that takes the lock. *)
Lemma put_drains disk todo t c k pend rest tab reqs out a ch e0 ch0 d : reading disk todo t c k pend rest tab reqs out ->
  chunks (ext t) !! a = Some ch -> 1 <= ch_refs ch -> pending_of (rreqs (ext t)) pend a = [] ->
  others (ext t) = others e0 -> next_file (ext t) = next_file e0 ->
  (forall b, b <> a -> shape <$> chunks (ext t) !! b = shape <$> chunks e0 !! b) ->
  ch_refs ch = ch_refs ch0 -> ch_modifver ch = ch_modifver ch0 -> ch_offset ch = ch_offset ch0 + Z.of_nat (length d) ->
  ch_size ch = ch_size ch0 - Z.of_nat (length d) ->
  exists t', chunk_put_locked (Some a) t = Ret (Some tt, t') /\ reading disk todo t' c k pend rest tab reqs out /\ quiet k t t' /\
    drained e0 (ext t') a ch0 d.
Proof using All.
  intros Hr Hc Href Hnone Ho Hn Hap E1 E2 E3 E4. pose proof Hr as (Hf & _ & Hok).
  destruct (reads_put text disk todo pend (ext t) a ch Hok Hc Href) as (e' & Ep & Hok' & Ho' & Hn' & Hch); [done|].
  exists (set_ext e' t). split; [|split; [by apply reading_ext|split; [apply quiet_ext|]]].
  - unfold chunk_put_locked. rewrite (hbind_ret _ _ _ _ _ (lock_ret t (fly_unlocked _ _ _ _ _ _ _ Hf))). unfold fupdate. by rewrite Ep.
  - cbn [ext set_ext]. split; [congruence|congruence| |].
    + intros b Hb. rewrite Hch. case_decide; [rewrite lookup_delete_ne by done|rewrite lookup_insert_ne by done]; by apply Hap.
    + intros Hne. rewrite Hch, decide_False by congruence. eexists. rewrite lookup_insert_eq. split; [done|]. cbn. by rewrite E1.
Qed.

Lemma wait_chunk_reads disk todo t c k pend rest tab reqs out a ch size : reading disk todo t c k pend rest tab reqs out ->
  chunks (ext t) !! a = Some ch -> (length pend <= patience)%nat -> todo a = 0 -> 0 <= size <= ch_size ch -> 1 <= ch_refs ch ->
  let d := read_at (disk a) (ch_offset ch) size in
  exists n t', wait_chunk opts noise patience c a size t = Ret (Some (Z.of_nat (length d), d), t') /\
    reading disk todo t' c k (drop n pend) rest tab reqs out /\ quiet k t t' /\ drained (ext t) (ext t') a ch d.
Proof using All.
  intros Hr Hc Hl Htodo Hs Href d.
  destruct (wait_settles disk todo t c k pend rest tab reqs out a ch Hr Hc Hl) as (n & t1 & ch1 & E1 & Hr1 & Hq1 & [Ho1 Hn1 Hsh1] & Hc1 & Hsh & Hnone).
  assert (forall b, b <> a -> shape <$> chunks (ext t1) !! b = shape <$> chunks (ext t) !! b) as Hap by (intros b _; by rewrite <- !lookup_fmap, Hsh1).
  unfold shape in Hsh. injection Hsh as Hx1 Hx2 Hx3 Hx4 Hx5 Hx6. exists n. unfold wait_chunk. rewrite (pbind_ret _ _ _ _ _ E1). cbn [negb].
  rewrite (hbind_ret _ _ _ _ _ (fget_ret t1)), (hbind_ret _ _ _ _ _ (lift_ret ch1 (deref (chunks (ext t1) !! a)) t1 ltac:(by rewrite Hc1))).
  pose proof Hr1 as (Hf1 & _ & Hok1). destruct (Z.eqb_spec (sio_error ch1) 0) as [Herr|Herr]; cbn [negb].
  - destruct (reads_take text disk todo _ (ext t1) a ch1 size Hok1 Hc1 Hnone Htodo Herr) as (more & err & m' & Et & Hok2); [lia|].
    rewrite Hx1 in Et, Hok2. fold d in Et, Hok2. rewrite (hbind_ret _ _ _ _ _ (lift_ret _ _ t1 Et)). cbv beta iota.
    rewrite (hbind_ret _ _ _ _ _ (fmodify_ret _ t1)). set (t2 := set_ext _ t1). set (ch2 := taken_from d more err ch1) in *.
    rewrite (hbind_ret _ _ _ _ _ (fupdate_ret _ t2 _ (upd_chunk_ret a _ (ext t2) ch1 Hc1))). fold (taken_from d more err ch1). fold ch2. set (t3 := set_ext _ t2).
    assert (ch_refs ch2 = ch_refs ch1 /\ ch_modifver ch2 = ch_modifver ch1 /\ ch_offset ch2 = ch_offset ch1 + Z.of_nat (length d) /\ ch_size ch2 = ch_size ch1 - Z.of_nat (length d))
      as (F1 & F2 & F3 & F4) by (unfold ch2, taken_from; destruct (Z.gtb_spec (Z.of_nat (length d)) 0); cbn; lia).
    assert (pending_of m' (drop n pend) a = []) as Hnone2.
    { apply length_zero_iff_nil. pose proof (ro_chunks _ _ _ _ _ Hok2 a ch2 ltac:(apply lookup_insert_eq)) as Hk. apply co_num in Hk. cbn [rreqs set_chunks set_rreqs] in Hk.
      assert (num_reqs ch2 = num_reqs ch1) as Hnn by (unfold ch2, taken_from; by destruct (_ >? _)).
      pose proof (co_num _ _ _ _ _ _ _ (ro_chunks _ _ _ _ _ Hok1 a ch1 Hc1)) as Hk1. rewrite Hnone in Hk1. cbn in Hk1. lia. }
    destruct (put_drains disk todo t3 c k (drop n pend) rest tab reqs out a ch2 (ext t) ch d) as (t4 & Ep & Hr4 & Hq4 & Hd4); try lia; try done.
    + destruct Hr1 as (_ & Hw1 & _). split; [by do 2 apply flying_ext|done].
    + apply lookup_insert_eq.
    + intros b Hb. cbn. rewrite lookup_insert_ne by done. by apply Hap.
    + exists t4. rewrite (hbind_ret _ _ _ _ _ Ep). split; [done|]. split; [done|]. split; [|done].
      eapply quiet_trans; [exact Hq1|]. eapply quiet_trans; [|exact Hq4]. apply (quiet_trans _ _ t2); apply quiet_ext.
  - destruct (co_data _ _ _ _ _ _ _ (ro_chunks _ _ _ _ _ Hok1 a ch1 Hc1)) as [[? _]|(He & Hend & _)]; [done|].
    pose proof (co_off _ _ _ _ _ _ _ (ro_chunks _ _ _ _ _ Hok1 a ch1 Hc1)) as Hoff.
    assert (d = []) as -> by (apply read_at_end; lia).
    destruct (put_drains disk todo t1 c k (drop n pend) rest tab reqs out a ch1 (ext t) ch []) as (t4 & Ep & Hr4 & Hq4 & Hd4); try done; try (cbn [length]; lia).
    exists t4. rewrite (hbind_ret _ _ _ _ _ Ep), He. split; [done|]. split; [done|]. split; [by eapply quiet_trans|done].
Qed.

(** *** Sending the requests of a chunk *)

Lemma reads_ok_todo disk todo todo' pend (e : files C) : (forall a, todo a = todo' a) -> reads_ok text disk todo pend e -> reads_ok text disk todo' pend e.
Proof. intros E []. split; try done. intros a ch Hc. rewrite <- E. by apply ro_chunks0. Qed.

Lemma read_answer_bounds F off n : 0 <= n <= 65536 -> Z.of_nat (length text) <= 65536 ->
  0 <= (read_answer text F off n).1 < 256 /\ Z.of_nat (length (read_answer text F off n).2) + 4 < MAX_REPLY_LEN.
Proof.
  intros Hn Ht. pose proof (read_at_length F off n) as Hl. unfold read_answer. change MAX_REPLY_LEN with 131072.
  destruct (read_at F off n) as [|b d]; cbn [fst snd]; rewrite length_app, length_be_bytes; split; try done; lia.
Qed.

(** What stays the same while the requests of chunk [a] are sent. *)
Record asking (a : Z) (e e' : files C) : Prop := Asking {
  as_others : others e' = others e;
  as_next : next_file e <= next_file e';
  as_apart : forall b, b <> a -> chunks e' !! b = chunks e !! b;
  as_chunk : forall ch, chunks e !! a = Some ch -> exists ch', chunks e' !! a = Some ch' /\ ch_offset ch' = ch_offset ch /\ ch_size ch' = ch_size ch /\
    ch_refs ch' = ch_refs ch /\ ch_modifver ch' = ch_modifver ch /\ sio_error ch' = sio_error ch }.

Lemma asking_trans a e1 e2 e3 : asking a e1 e2 -> asking a e2 e3 -> asking a e1 e3.
Proof.
  intros [A1 A2 A3 A4] [B1 B2 B3 B4]. split; [congruence|lia| |].
  - intros b Hb. by rewrite B3, A3.
  - intros ch Hc. destruct (A4 ch Hc) as (ch2 & Hc2 & E1 & E2 & E3 & E4 & E5). destruct (B4 ch2 Hc2) as (ch3 & Hc3 & F1 & F2 & F3 & F4 & F5).
    exists ch3. split_and!; congruence.
Qed.

(** One round of the loop. *)
Lemma send_piece disk todo t c k pend tab reqs out lim room f h a ch n off :
  flying t c k pend tab reqs out -> reads_ok text disk todo pend (ext t) -> chunks (ext t) !! a = Some ch -> sio_error ch = 0 ->
  off = ch_offset ch + (ch_size ch - todo a) -> 0 <= off < 2 ^ 63 -> 0 < n <= 65536 -> Z.of_nat (length text) <= 65536 ->
  holds (sf_handle f) h -> Z.of_nat (length h) < 2 ^ 30 ->
  ready_for t lim room -> Z.of_nat (length h) + 21 <= room -> idctr (ses t) < lim ->
  let rr := next_file (ext t) in
  let e1 := set_chunks (<[a := set_reqs (ch_reqs ch ++ [rr]) ch]> (chunks (ext t)))
              (set_rreqs (<[rr := ReadReq a (Buffer None 0 0) n 0]> (rreqs (ext t))) (set_next_file (rr + 1) (ext t))) in
  exists t' p, sftp_request_send (reconnect opts) patience c SSH_FXP_READ [io_bytes h off n] (Some (fun _ => sshfs_read_begin a)) (Some (ReadEnd rr)) 0 (set_ext e1 t)
      = Ret (Some (0, None), t') /\
    flying t' c k (p :: pend) tab reqs out /\ reads_ok text disk (less todo a n) (p :: pend) (ext t') /\ ready_for t' lim (room - (Z.of_nat (length h) + 21)) /\
    ext t' = asked_piece a ch n (ext t) /\ idctr (ses t') = idctr (ses t) + 1 /\ next_req t' = next_req t + 1 /\
    wire_in (os (ses t')) (rfd k) = wire_in (os (ses t)) (rfd k) /\
    wire_out (os (ses t')) (wfd k) = wire_out (os (ses t)) (wfd k) ++ request_of h (idctr (ses t), (off, n)) /\
    answer_of p = reply_of text (disk a) (idctr (ses t), (off, n)).
Proof using All.
  intros Hf Hr Hc Herr Hoff Ho Hn Ht Hh Hhl Hrf Hroom Hlim rr e1. pose proof (read_answer_bounds (disk a) off n ltac:(lia) Ht) as [Hty Hbody].
  assert (concat [io_bytes h off n] = io_bytes h off n) as Hcat by apply app_nil_r.
  assert (ready_for (set_ext e1 t) lim room) as Hrf1 by (destruct Hrf; by split).
  destruct (read_answer text (disk a) off n) as [ty body] eqn:Ea. cbn [fst snd] in *.
  destruct (send_flies opts noise patience (set_ext e1 t) c k pend tab reqs out lim room SSH_FXP_READ [io_bytes h off n] (Some (fun _ => sshfs_read_begin a))
    (ReadEnd rr) ty body (flying_ext _ _ _ _ _ _ _ _ Hf) Hrf1) as (t' & E & Hf' & Hrf' & Hext & Hnr & Hid & _ & Hwi & Hwo); try done.
  { rewrite Hcat, io_bytes_length. lia. } { cbn. lia. }
  rewrite Hcat, io_bytes_length in *. cbn [ses set_ext next_req] in *. exists t'. eexists.
  split; [exact E|]. split; [exact Hf'|].
  assert (ext t' = asked_piece a ch n (ext t)) as Hext'.
  { rewrite Hext. unfold begun. cbn [ext set_ext]. unfold sshfs_read_begin. cbn [chunks e1 set_chunks]. rewrite lookup_insert_eq.
    unfold asked_piece, e1, set_chunks, set_rreqs, set_next_file. cbn. by rewrite insert_insert_eq. }
  split; [rewrite Hext'; apply reads_ask; try done; [lia|by cbn; rewrite <- Hoff, Ea]|]. split.
  { replace (Z.of_nat (length h) + 21) with (Z.of_nat (length h + 12) + 9) by lia. done. }
  split; [done|]. split; [done|]. split; [done|]. split; [done|]. split; [done|].
  unfold answer_of, reply_of. cbn [fl_type fl_body fl_id fl_rq fst snd]. by rewrite Ea.
Qed.

Lemma pieces_0 fuel mx off : pieces fuel mx 0 off = [].
Proof. by destruct fuel. Qed.

(** What sending the requests for the pieces [ps] does. *)
Record sends (h F : list ascii) k (ps : list (Z * Z)) t t' (new : list flight) (lim room : Z) : Prop := Sends {
  sd_ready : ready_for t' lim (room - Z.of_nat (length ps) * (Z.of_nat (length h) + 21));
  sd_id : idctr (ses t') = idctr (ses t) + Z.of_nat (length ps);
  sd_in : wire_in (os (ses t')) (rfd k) = wire_in (os (ses t)) (rfd k);
  sd_out : wire_out (os (ses t')) (wfd k) = wire_out (os (ses t)) (wfd k) ++ concat (map (request_of h) (numbered (idctr (ses t)) ps));
  sd_new : map answer_of new ≡ₚ map (reply_of text F) (numbered (idctr (ses t)) ps) }.

Section File.
Context (sf : Z) (f : sshfs_file) (h : list ascii) (c : nat) (k : conn) (tab : gmap Z Z) (reqs : gmap Z (request end_data)) (out lim : Z).
Context (disk : Z -> list ascii).
Context (Hmax : 0 < max_read fopts <= 65536) (Htext : Z.of_nat (length text) <= 65536).
Context (Hconn : sf_conn f = c) (Hhandle : holds (sf_handle f) h) (Hlen : Z.of_nat (length h) < 2 ^ 30).

Lemma file_at_ret t : sfiles (ext t) !! sf = Some f -> file_at sf t = Ret (Some f, t).
Proof using Type. intros E. unfold file_at. rewrite (hbind_ret _ _ _ _ _ (fget_ret t)). apply lift_ret. by rewrite E. Qed.
Lemma new_addr_ret t : new_addr t = Ret (Some (next_file (ext t)), set_ext (set_next_file (next_file (ext t) + 1) (ext t)) t).
Proof. done. Qed.

Lemma send_read_loop_sends fuel : forall todo t pend size off room a ch, let ps := pieces fuel (max_read fopts) size off in
  flying t c k pend tab reqs out -> reads_ok text disk todo pend (ext t) -> chunks (ext t) !! a = Some ch -> sio_error ch = 0 ->
  todo a = size -> off = ch_offset ch + (ch_size ch - size) -> 0 <= off -> off + size < 2 ^ 63 -> 0 <= size <= Z.of_nat fuel ->
  sfiles (ext t) !! sf = Some f -> ready_for t lim room -> Z.of_nat (length ps) * (Z.of_nat (length h) + 21) <= room ->
  idctr (ses t) + Z.of_nat (length ps) <= lim ->
  exists t' new, send_read_loop opts noise patience fopts fuel sf a size off t = Ret (Some tt, t') /\
    flying t' c k (new ++ pend) tab reqs out /\ reads_ok text disk (less todo a size) (new ++ pend) (ext t') /\
    asking a (ext t) (ext t') /\ sends h (disk a) k ps t t' new lim room.
Proof using All.
  induction fuel as [|fuel IH]; intros todo t pend size off room a ch ps Hf Hr Hc Herr Htodo Hoff Ho Hend Hsize Hfile Hrf Hroom Hlim.
  all: destruct (Z.eq_dec size 0) as [Hz|Hz].
  1, 3: exists t, []; unfold ps; rewrite Hz in *; rewrite pieces_0; split; [done|]; split; [done|]; split;
    [eapply reads_ok_todo; [|exact Hr]; intros b; unfold less; case_decide; subst; lia|]; split; [split; [done|lia|done|]; intros ch0 Hc0; exists ch0; by split_and!|];
    split; cbn [length numbered map concat]; rewrite ?Z.mul_0_l, ?Z.sub_0_r, ?Z.add_0_r, ?app_nil_r; done.
  { lia. }
  set (n := if size <? max_read fopts then size else max_read fopts). assert (0 < n <= 65536 /\ n <= size) as Hn by (unfold n; destruct (Z.ltb_spec size (max_read fopts)); lia).
  assert (ps = (off, n) :: pieces fuel (max_read fopts) (size - n) (off + n)) as Hps by (unfold ps; cbn [pieces]; by rewrite (proj2 (Z.eqb_neq _ _) Hz)).
  rewrite Hps in *. cbn [length] in Hroom, Hlim. set (ps' := pieces fuel _ _ _) in *.
  destruct (send_piece disk todo t c k pend tab reqs out lim room f h a ch n off) as (t1 & p & E1 & Hf1 & Hr1 & Hrf1 & Hext1 & Hid1 & _ & Hwi1 & Hwo1 & Hans1);
    try done; try lia; try nia.
  set (ch1 := add_num_reqs 1 (set_reqs (ch_reqs ch ++ [next_file (ext t)]) ch)).
  assert (asking a (ext t) (ext t1)) as Hask1.
  { rewrite Hext1. split; [done|cbn; lia| |].
    - intros b Hb. cbn. by rewrite lookup_insert_ne.
    - intros ch0 Hc0. assert (ch0 = ch) as -> by congruence. exists ch1. cbn. by rewrite lookup_insert_eq. }
  destruct (IH (less todo a n) t1 (p :: pend) (size - n) (off + n) (room - (Z.of_nat (length h) + 21)) a ch1) as (t' & new & E' & Hf' & Hr' & Hask' & Hs');
    try done; try lia; try (fold ps'; lia).
  { rewrite Hext1. cbn. by rewrite lookup_insert_eq. }
  { unfold less. rewrite decide_True by done. lia. }
  { cbn. lia. }
  { by rewrite Hext1. }
  exists t', (new ++ [p]). rewrite <- app_assoc. split; [|split; [done|split; [|split; [by eapply asking_trans|]]]].
  - cbn [send_read_loop]. rewrite (proj2 (Z.eqb_neq _ _) Hz). fold n. rewrite (hbind_ret _ _ _ _ _ (file_at_ret t Hfile)).
    rewrite (hbind_ret _ _ _ _ _ (new_addr_ret t)). set (t0 := set_ext _ t). rewrite (hbind_ret _ _ _ _ _ (fmodify_ret _ t0)). set (t0' := set_ext _ t0).
    rewrite (hbind_ret _ _ _ _ _ (fupdate_ret _ t0' _ (upd_chunk_ret a _ (ext t0') ch Hc))). set (t0'' := set_ext _ t0').
    rewrite (wrap_small 64), (wrap_small 32), (hbind_ret _ _ _ _ _ (lift_ret _ _ t0'' (io_buffer_bytes (sf_handle f) h off n Hhandle ltac:(lia) ltac:(lia) ltac:(lia)))) by lia.
    rewrite Hconn. change t0'' with (set_ext (set_chunks (<[a := set_reqs (ch_reqs ch ++ [next_file (ext t)]) ch]> (chunks (ext t)))
              (set_rreqs (<[next_file (ext t) := ReadReq a (Buffer None 0 0) n 0]> (rreqs (ext t))) (set_next_file (next_file (ext t) + 1) (ext t)))) t).
    rewrite (hbind_ret _ _ _ _ _ E1). cbn [Z.eqb negb]. exact E'.
  - eapply reads_ok_todo; [|exact Hr']. intros b. unfold less. repeat case_decide; lia || done.
  - destruct Hs' as [A1 A2 A3 A4 A5]. fold ps' in A1, A2, A4, A5. split; cbn [length numbered map concat].
    + replace (room - _) with (room - (Z.of_nat (length h) + 21) - Z.of_nat (length ps') * (Z.of_nat (length h) + 21)) by lia. done.
    + lia.
    + congruence.
    + rewrite A4, Hwo1, Hid1, <- app_assoc. done.
    + rewrite map_app. cbn [map]. rewrite Permutation_app_comm. cbn [app]. rewrite Hans1, A5, Hid1. done.
Qed.

Definition no_todo : Z -> Z := fun _ => 0.

(** The files after a chunk has been made and asked for. *)
Record chunk_made (e e' : files C) (a off size refs ver : Z) : Prop := ChunkMade {
  cm_others : others e' = others e;
  cm_next : a < next_file e';
  cm_apart : forall b, b <> a -> chunks e' !! b = chunks e !! b;
  cm_chunk : exists ch, chunks e' !! a = Some ch /\ ch_offset ch = off /\ ch_size ch = size /\ ch_refs ch = refs /\ ch_modifver ch = ver /\ sio_error ch = 0 }.

Lemma send_read_sends t pend size off room : let ps := pieces (Z.to_nat size) (max_read fopts) size off in let a := next_file (ext t) in
  flying t c k pend tab reqs out -> reads_ok text disk no_todo pend (ext t) -> 0 <= off -> 0 <= size -> off + size < 2 ^ 63 ->
  sfiles (ext t) !! sf = Some f -> ready_for t lim room -> Z.of_nat (length ps) * (Z.of_nat (length h) + 21) <= room ->
  idctr (ses t) + Z.of_nat (length ps) <= lim ->
  exists t' new, sshfs_send_read opts noise patience fopts sf size off t = Ret (Some a, t') /\
    flying t' c k (new ++ pend) tab reqs out /\ reads_ok text disk no_todo (new ++ pend) (ext t') /\
    chunk_made (ext t) (ext t') a off size 1 0 /\ sends h (disk a) k ps t t' new lim room.
Proof using All.
  intros ps a Hf Hr Ho Hs Hend Hfile Hrf Hroom Hlim. set (ch := ReadChunk off size 1 0 [] 0 0).
  set (t1 := set_ext (set_chunks (<[a := ch]> (chunks (ext t))) (set_next_file (a + 1) (ext t))) t).
  pose proof (reads_new text disk no_todo pend (ext t) off size Hr Ho Hs) as Hr1. fold a ch in Hr1.
  destruct (send_read_loop_sends (Z.to_nat size) (fun b => if decide (b = a) then size else no_todo b) t1 pend size off room a ch)
    as (t' & new & E & Hf' & Hr' & [Ha1 Ha2 Ha3 Ha4] & [A1 A2 A3 A4 A5]); try done; try lia.
  { by apply flying_ext. }
  { cbn. by rewrite lookup_insert_eq. }
  { cbn. by rewrite decide_True. }
  { cbn. lia. }
  { destruct Hrf. by split. }
  exists t', new. split; [|split; [done|split; [|split; [|by split]]]].
  - unfold sshfs_send_read. rewrite (hbind_ret _ _ _ _ _ (new_addr_ret t)). set (t0 := set_ext _ t). rewrite (hbind_ret _ _ _ _ _ (fmodify_ret _ t0)).
    change (set_ext (set_chunks (<[next_file (ext t) := ReadChunk off size 1 0 [] 0 0]> (chunks (ext t0))) (ext t0)) t0) with t1.
    fold a. rewrite (hbind_ret _ _ _ _ _ E). done.
  - eapply reads_ok_todo; [|exact Hr']. intros b. unfold less, no_todo. repeat case_decide; lia || done.
  - split; [by rewrite Ha1|cbn in Ha2; lia| |].
    + intros b Hb. rewrite Ha3 by done. cbn. by rewrite lookup_insert_ne.
    + destruct (Ha4 ch) as (ch' & Hc' & E1 & E2 & E3 & E4 & E5); [cbn; by rewrite lookup_insert_eq|]. exists ch'. done.
Qed.

(** The chunk [a] is at [off], has [size] bytes to give and at least [m] references. *)
Definition has (e : files C) (a off size m : Z) : Prop :=
  exists ch, chunks e !! a = Some ch /\ ch_offset ch = off /\ ch_size ch = size /\ m <= ch_refs ch.

Lemma has_mono (e e' : files C) a off size m : (shape <$> chunks e' !! a = shape <$> chunks e !! a) -> has e a off size m -> has e' a off size m.
Proof using Type.
  intros E (ch & Hc & H1' & H2' & H3'). rewrite Hc in E. destruct (chunks e' !! a) as [ch'|] eqn:Hc'; [|done]. unfold shape in E. cbn in E.
  injection E as E1 E2 E3 _ _ _. exists ch'. rewrite E1, E2, E3. done.
Qed.

(** The connection, the requests under way and the chunks are in order. *)
Definition in_order t (pend : list flight) (room : Z) : Prop :=
  flying t c k pend tab reqs out /\ reads_ok text disk no_todo pend (ext t) /\ ready_for t lim room.

Lemma in_order_ext t pend room e : in_order t pend room -> reads_ok text disk no_todo pend e -> in_order (set_ext e t) pend room.
Proof using Type. intros (Hf & _ & Hrf) Hr. split; [by apply flying_ext|]. split; [done|]. destruct Hrf. by split. Qed.

(** The chunk that a new one takes the place of loses a reference. *)
Lemma put_old pend (e : files C) old a cha : reads_ok text disk no_todo pend e -> chunks e !! a = Some cha ->
  (forall o, old = Some o -> o <> a /\ exists off s, has e o off s 2) ->
  exists e', chunk_put old e = Ret e' /\ reads_ok text disk no_todo pend e' /\ others e' = others e /\ next_file e' = next_file e /\ chunks e' !! a = Some cha /\
    (forall b off s m, has e b off s m -> Some b <> old -> has e' b off s m) /\ (forall b off s m, has e b off s m -> has e' b off s (m - 1)).
Proof using All.
  intros Hr Hca Hold. assert (forall b off s m, has e b off s m -> has e b off s (m - 1)) as Hless.
  { intros b x s m (ch & Hc & G1 & G2 & G3). exists ch. split_and!; try done. lia. }
  destruct old as [o|]; [|exists e; split_and!; try done; by intros b x s m Hb _].
  destruct (Hold o eq_refl) as (Hoa & oo & so & cho & Hco & _ & _ & Hrefs).
  destruct (reads_put text disk no_todo pend e o cho Hr Hco) as (e' & Ep & Hr' & Ho' & Hn' & Hch'); [lia|lia|]. rewrite decide_False in Hch' by lia.
  assert (forall b off s m, b <> o -> has e b off s m -> has e' b off s m) as Hne by (intros b x s m Hb; apply has_mono; by rewrite Hch', lookup_insert_ne).
  exists e'. split_and!; try done.
  - by rewrite Hch', lookup_insert_ne.
  - intros b x s m Hb Hbo. apply Hne; [congruence|done].
  - intros b x s m Hb. destruct (decide (b = o)) as [-> |]; [|by apply Hne; [|apply Hless]].
    destruct Hb as (chb & Hcb & G1 & G2 & G3). assert (chb = cho) as -> by congruence. exists (set_refs (ch_refs cho - 1) cho).
    rewrite Hch', lookup_insert_eq. split_and!; try done. cbn. lia.
Qed.

(** [submit_read]: a new chunk, with two references; the old one loses a reference. *)
Lemma submit_read_sends t pend size off room old : let ps := pieces (Z.to_nat size) (max_read fopts) size off in let a := next_file (ext t) in
  in_order t pend room -> 0 <= off -> 0 <= size -> off + size < 2 ^ 63 -> sfiles (ext t) !! sf = Some f ->
  Z.of_nat (length ps) * (Z.of_nat (length h) + 21) <= room -> idctr (ses t) + Z.of_nat (length ps) <= lim ->
  (forall o, old = Some o -> exists off s, has (ext t) o off s 2) ->
  exists t' new, submit_read opts noise patience fopts sf size off old t = Ret (Some a, t') /\
    in_order t' (new ++ pend) (room - Z.of_nat (length ps) * (Z.of_nat (length h) + 21)) /\ sends h (disk a) k ps t t' new lim room /\
    others (ext t') = others (ext t) /\ a < next_file (ext t') /\ has (ext t') a off size 2 /\
    (forall b off s m, has (ext t) b off s m -> Some b <> old -> has (ext t') b off s m) /\
    (forall b off s m, has (ext t) b off s m -> has (ext t') b off s (m - 1)).
Proof using All.
  intros ps a (Hf & Hr & Hrf) Ho Hs Hend Hfile Hroom Hlim Hold.
  destruct (send_read_sends t pend size off room) as (t1 & new & E1 & Hf1 & Hr1 & [Hm1 Hm2 Hm3 (ch & Hc & F1 & F2 & F3 & F4 & F5)] & Hsd); try done.
  fold a in E1, Hm2, Hm3, Hc.
  assert (forall b off s m, has (ext t) b off s m -> b <> a) as Hne.
  { intros b o s m (chb & Hb & _) ->. destruct (ro_fresh _ _ _ _ _ Hr a ltac:(done)). congruence. }
  set (ch2 := set_ch_modifver (modifver (ext t1)) ch). set (e2 := set_chunks (<[a := ch2]> (chunks (ext t1))) (ext t1)).
  assert (reads_ok text disk no_todo (new ++ pend) e2) as Hr2 by (by apply (reads_set _ _ _ _ _ _ ch)).
  assert (forall b off s m, has (ext t) b off s m -> has e2 b off s m) as Hb2.
  { intros b o s m Hb. pose proof (Hne _ _ _ _ Hb). revert Hb. apply has_mono. cbn. by rewrite lookup_insert_ne, Hm3. }
  destruct (put_old (new ++ pend) e2 old a ch2 Hr2) as (e3 & Ep & Hr3 & Ho3 & Hn3 & Hc3 & Hb3 & Hb3').
  { apply lookup_insert_eq. }
  { intros o Eo. destruct (Hold o Eo) as (oo & so & Hho). split; [by eapply Hne|]. exists oo, so. by apply Hb2. }
  set (ch4 := set_refs (ch_refs ch2 + 1) ch2). set (e4 := set_chunks (<[a := ch4]> (chunks e3)) e3).
  exists (set_ext e4 (set_ext e3 (set_ext e2 t1))), new. split.
  { unfold submit_read. rewrite (hbind_ret _ _ _ _ _ E1), (hbind_ret _ _ _ _ _ (lock_ret t1 (fly_unlocked _ _ _ _ _ _ _ Hf1))), (hbind_ret _ _ _ _ _ (fget_ret t1)).
    rewrite (hbind_ret _ _ _ _ _ (fupdate_ret _ t1 _ (upd_chunk_ret a _ (ext t1) ch Hc))). fold ch2 e2.
    rewrite (hbind_ret _ _ _ _ _ (fupdate_ret _ (set_ext e2 t1) _ Ep)). by rewrite (hbind_ret _ _ _ _ _ (fupdate_ret _ (set_ext e3 (set_ext e2 t1)) _ (upd_chunk_ret a _ e3 ch2 Hc3))). }
  assert (forall b off s m, has e3 b off s m -> b <> a -> has e4 b off s m) as H34
    by (intros b o s m Hb Hba; revert Hb; apply has_mono; cbn; by rewrite lookup_insert_ne).
  destruct Hsd as [A1 A2 A3 A4 A5]. split; [|split; [|split; [|split; [|split; [|split]]]]].
  - apply in_order_ext; [split; [by do 2 apply flying_ext|split; [done|]]|by apply (reads_set _ _ _ _ _ _ ch2)]. destruct A1. by split.
  - split; try done. destruct A1. by split.
  - change (others e3 = others (ext t)). rewrite Ho3. exact Hm1.
  - cbn. rewrite Hn3. cbn. lia.
  - exists ch4. cbn. rewrite lookup_insert_eq. split_and!; try done. cbn. lia.
  - intros b o s m Hb Hbo. apply H34; [apply Hb3; [by apply Hb2|done]|by eapply Hne].
  - intros b o s m Hb. apply H34; [by apply Hb3', Hb2|by eapply Hne].
Qed.
End File.

(** *** Waiting for a chunk *)

Lemma wait_has disk t c k pend rest tab reqs out a off s m size : reading disk no_todo t c k pend rest tab reqs out ->
  has (ext t) a off s m -> (length pend <= patience)%nat -> 0 <= size <= s -> 1 <= m ->
  let d := read_at (disk a) off size in
  exists n t', wait_chunk opts noise patience c a size t = Ret (Some (Z.of_nat (length d), d), t') /\
    reading disk no_todo t' c k (drop n pend) rest tab reqs out /\ quiet k t t' /\ others (ext t') = others (ext t) /\ next_file (ext t') = next_file (ext t) /\
    (forall b o s m, b <> a -> has (ext t) b o s m -> has (ext t') b o s m) /\
    (2 <= m -> has (ext t') a (off + Z.of_nat (length d)) (s - Z.of_nat (length d)) (m - 1)).
Proof using All.
  intros Hr (ch & Hc & <- & <- & Hm) Hl Hs Hm1 d.
  destruct (wait_chunk_reads disk no_todo t c k pend rest tab reqs out a ch size Hr Hc Hl) as (n & t' & E & Hr' & Hq & [D1 D2 D3 D4]); [done|done|lia|].
  exists n, t'. do 5 (split; [done|]). split.
  - intros b o s m' Hb. apply has_mono. by apply D3.
  - intros Hm2. destruct D4 as (ch' & Hc' & E1 & E2 & E3 & E4); [lia|]. exists ch'. split_and!; try done. lia.
Qed.

(** The answers are those to the requests under way, in some order. *)
Lemma answers_order t c k pend tab reqs out disk msgs rest : flying t c k pend tab reqs out -> reads_ok text disk no_todo pend (ext t) ->
  msgs ≡ₚ map answer_of pend -> wire_in (os (ses t)) (rfd k) = concat msgs ++ rest ->
  exists order, order ≡ₚ pend /\ reading disk no_todo t c k order rest tab reqs out.
Proof using All.
  intros Hf Hr Hp Hw. destruct (Permutation_map_inv _ _ Hp) as (order & -> & Ho). exists order. split; [done|].
  split; [by eapply flying_perm|]. split; [done|]. by eapply reads_ok_perm.
Qed.

(** *** A file whose chunks hold what the server has *)

Lemma sends_nil h F k t lim room : ready_for t lim room -> sends h F k [] t t [] lim room.
Proof. intros Hr. split; cbn [length numbered map concat]; rewrite ?Z.mul_0_l, ?Z.sub_0_r, ?Z.add_0_r, ?app_nil_r; done. Qed.
Lemma sends_trans h F k ps1 ps2 t1 t2 t3 new1 new2 lim room : sends h F k ps1 t1 t2 new1 lim room ->
  sends h F k ps2 t2 t3 new2 lim (room - Z.of_nat (length ps1) * (Z.of_nat (length h) + 21)) -> sends h F k (ps1 ++ ps2) t1 t3 (new2 ++ new1) lim room.
Proof.
  intros [A1 A2 A3 A4 A5] [B1 B2 B3 B4 B5]. split; rewrite ?length_app, ?numbered_app, ?map_app, ?concat_app, <- ?A2.
  - replace (room - _) with (room - Z.of_nat (length ps1) * (Z.of_nat (length h) + 21) - Z.of_nat (length ps2) * (Z.of_nat (length h) + 21)) by lia. done.
  - lia.
  - congruence.
  - by rewrite B4, A4, <- app_assoc.
  - by rewrite Permutation_app_comm, A5, B5.
Qed.
Lemma sends_ext h F k ps t t' new lim room e e' : sends h F k ps t t' new lim room -> sends h F k ps (set_ext e t) (set_ext e' t') new lim room.
Proof. intros [A1 A2 A3 A4 A5]. split; try done. destruct A1. by split. Qed.
Lemma set_ext_same t : set_ext (ext t) t = t.
Proof. by destruct t. Qed.
Lemma reads_ok_sfiles disk todo pend (e : files C) v : reads_ok text disk todo pend e -> reads_ok text disk todo pend (set_sfiles v e).
Proof. intros []. by split. Qed.

Section Serving.
Context (sf : Z) (h F : list ascii) (c : nat) (k : conn) (tab : gmap Z Z) (reqs : gmap Z (request end_data)) (out lim : Z).
Context (disk : Z -> list ascii).
Context (Hmax : 0 < max_read fopts <= 65536) (Htext : Z.of_nat (length text) <= 65536) (Hlen : Z.of_nat (length h) < 2 ^ 30).

Record serving t (pend : list flight) (room : Z) (f : sshfs_file) : Prop := Serving {
  sv_order : in_order c k tab reqs out lim disk t pend room;
  sv_file : sfiles (ext t) !! sf = Some f;
  sv_conn : sf_conn f = c;
  sv_ver : sf_connver f = connver k;
  sv_handle : holds (sf_handle f) h;
  sv_disk : forall a, next_file (ext t) <= a -> disk a = F;
  sv_ahead : forall a, readahead f = Some a -> disk a = F /\ exists off s, has (ext t) a off s 2 /\ s < 2 ^ 31 }.

Definition cost (ps : list (Z * Z)) : Z := Z.of_nat (length ps) * (Z.of_nat (length h) + 21).
Definition split_read (size off : Z) : list (Z * Z) := pieces (Z.to_nat size) (max_read fopts) size off.

(** A chunk is asked for; [old] is what it takes the place of. *)
Lemma serving_submit t pend room f size off old : serving t pend room f -> 0 <= off -> 0 <= size -> off + size < 2 ^ 63 ->
  (old = None \/ old = readahead f) -> let ps := split_read size off in
  cost ps <= room -> idctr (ses t) + Z.of_nat (length ps) <= lim ->
  exists a t' new, submit_read opts noise patience fopts sf size off old t = Ret (Some a, t') /\
    in_order c k tab reqs out lim disk t' (new ++ pend) (room - cost ps) /\ sends h F k ps t t' new lim room /\ others (ext t') = others (ext t) /\
    (forall b, next_file (ext t') <= b -> disk b = F) /\ disk a = F /\ has (ext t') a off size 2 /\ (forall b o s m, has (ext t) b o s m -> b <> a) /\
    (forall b o s m, has (ext t) b o s m -> Some b <> old -> has (ext t') b o s m) /\ (forall b o s m, has (ext t) b o s m -> has (ext t') b o s (m - 1)).
Proof using All.
  intros [Hord Hfile Hconn Hver Hhandle Hdisk Hah] Ho Hs Hend Hold ps Hcost Hid.
  destruct (submit_read_sends sf f h c k tab reqs out lim disk Hmax Htext Hconn Hhandle Hlen t pend size off room old Hord Ho Hs Hend Hfile Hcost Hid)
    as (t' & new & E & Hord' & Hsd & Hoth & Hnx & Hhas & Hb1 & Hb2).
  { intros o Eo. destruct Hold as [-> | ->]; [done|]. destruct (Hah o Eo) as (_ & x & s & Hx & _). by exists x, s. }
  pose proof (Hdisk (next_file (ext t)) ltac:(lia)) as Hda. rewrite Hda in Hsd.
  exists (next_file (ext t)), t', new. split_and!; try done.
  - intros b Hb. apply Hdisk. lia.
  - intros b o s m (ch & Hc & _) ->. destruct Hord as (_ & Hr & _). destruct (ro_fresh _ _ _ _ _ Hr (next_file (ext t)) ltac:(lia)). congruence.
Qed.

(** The chunk that a read needs. *)
Lemma serving_chunk t pend room f size off : serving t pend room f -> 0 <= off -> 0 <= size -> off + size < 2 ^ 63 ->
  let ps := split_read size off in cost ps <= room -> idctr (ses t) + Z.of_nat (length ps) <= lim ->
  exists a t' new, submit_read opts noise patience fopts sf size off None t = Ret (Some a, t') /\ serving t' (new ++ pend) (room - cost ps) f /\
    sends h F k ps t t' new lim room /\ disk a = F /\ has (ext t') a off size 2 /\ readahead f <> Some a /\ (forall b o s m, has (ext t) b o s m -> b <> a /\ has (ext t') b o s m).
Proof using All.
  intros Hsv Ho Hs Hend ps Hcost Hid.
  destruct (serving_submit t pend room f size off None Hsv Ho Hs Hend (or_introl eq_refl) Hcost Hid) as (a & t' & new & E & Hord & Hsd & Hoth & Hdk & Hda & Hhas & Hne & Hb1 & _).
  destruct Hsv as [_ Hfile Hconn Hver Hhandle _ Hah]. exists a, t', new. split; [done|]. split; [|split; [done|split; [done|split; [done|split]]]].
  - split; try done.
    + unfold others in Hoth. injection Hoth as -> _. done.
    + intros x Hx. destruct (Hah x Hx) as (Hd & o & s & Hxs & Hs31). split; [done|]. exists o, s. split; [by apply Hb1|done].
  - intros Ex. destruct (Hah a Ex) as (_ & o & s & Hxs & _). by destruct (Hne _ _ _ _ Hxs).
  - intros b o s m Hb. split; [by eapply Hne|by apply Hb1].
Qed.

(** Reading ahead. *)
Lemma serving_ahead t pend room f (b : bool) size off : serving t pend room f -> 0 <= off -> 0 <= size < 2 ^ 31 -> off + size < 2 ^ 63 ->
  let ps := if b then split_read size off else [] in cost ps <= room -> idctr (ses t) + Z.of_nat (length ps) <= lim ->
  exists t' new f', (if b then let? f := file_at sf in let? ra := submit_read opts noise patience fopts sf size off (readahead f) in
                       fupdate (upd_file sf (set_readahead (Some ra))) else hret tt) t = Ret (Some tt, t') /\
    serving t' (new ++ pend) (room - cost ps) f' /\ sends h F k ps t t' new lim room /\
    (forall x o s m, has (ext t) x o s m -> readahead f <> Some x -> readahead f' <> Some x /\ has (ext t') x o s m) /\
    (forall x o s m, has (ext t) x o s m -> b = false /\ f' = f /\ has (ext t') x o s m \/ readahead f' <> Some x /\ has (ext t') x o s (m - 1)).
Proof using All.
  intros Hsv Ho Hs Hend ps Hcost Hid. destruct b.
  2:{ exists t, [], f. replace (room - cost ps) with room by (unfold cost; cbn; lia). split; [done|]. split; [done|].
      split; [apply sends_nil; apply Hsv|]. split; [done|]. intros x o s m Hx. by left. }
  destruct (serving_submit t pend room f size off (readahead f) Hsv Ho ltac:(lia) Hend (or_intror eq_refl) Hcost Hid) as (a & t' & new & E & Hord & Hsd & Hoth & Hdk & Hda & Hhas & Hne & Hb1 & Hb2).
  destruct Hsv as [_ Hfile Hconn Hver Hhandle _ Hah]. assert (sfiles (ext t') !! sf = Some f) as Hfile' by (unfold others in Hoth; by injection Hoth as -> _).
  set (f' := set_readahead (Some a) f). set (e' := set_sfiles (<[sf := f']> (sfiles (ext t'))) (ext t')). exists (set_ext e' t'), new, f'.
  split; [|split; [|split; [|split]]].
  - rewrite (hbind_ret _ _ _ _ _ (file_at_ret sf f t Hfile)), (hbind_ret _ _ _ _ _ E). apply fupdate_ret. unfold upd_file, upd. by rewrite Hfile'.
  - split; try done.
    + apply in_order_ext; [done|]. apply reads_ok_sfiles. by destruct Hord as (_ & ? & _).
    + cbn. by rewrite lookup_insert_eq.
    + intros x Hx. cbn in Hx. injection Hx as <-. split; [done|]. exists off, size. split; [done|lia].
  - by apply (sends_ext _ _ _ _ t t' _ _ _ (ext t) e') in Hsd; destruct t.
  - intros x o s m Hx Hxf. split; [intros Ex; injection Ex as ->; by destruct (Hne _ _ _ _ Hx)|]. by apply Hb1.
  - intros x o s m Hx. right. split; [intros Ex; injection Ex as ->; by destruct (Hne _ _ _ _ Hx)|]. by apply Hb2.
Qed.

(** A state in which the answers are on the wire, and one after waiting. *)
Definition brings t (order : list flight) (rest : list ascii) : Prop := wire_in (os (ses t)) (rfd k) = answers order ++ rest.

Lemma serving_order t pend room f msgs rest : serving t pend room f -> msgs ≡ₚ map answer_of pend -> wire_in (os (ses t)) (rfd k) = concat msgs ++ rest ->
  exists order, order ≡ₚ pend /\ serving t order room f /\ brings t order rest.
Proof using All.
  intros [(Hf & Hr & Hrf) ? ? ? ? ? ?] Hp Hw. destruct (answers_order t c k pend tab reqs out disk msgs rest Hf Hr Hp Hw) as (order & Ho & Hf' & Hw' & Hr').
  exists order. split; [done|]. split; [|done]. by split.
Qed.

(** What is left of the state when the files change and the link has been quiet. *)
Lemma serving_quiet t t' order n room f rest : serving t order room f -> reading disk no_todo t' c k (drop n order) rest tab reqs out -> quiet k t t' ->
  others (ext t') = others (ext t) -> next_file (ext t') = next_file (ext t) ->
  (forall a o s, readahead f = Some a -> has (ext t) a o s 2 -> exists o' s', has (ext t') a o' s' 2 /\ s' <= s) ->
  serving t' (drop n order) room f /\ brings t' (drop n order) rest.
Proof using All.
  intros [(Hf & Hr & Hrf) Hfile ? ? ? Hdk Hah] (Hf' & Hw' & Hr') Hq Ho Hn Hra. split; [|done]. split; try done.
  - split; [done|]. split; [done|]. by eapply (ready_after t t').
  - unfold others in Ho. by injection Ho as -> _.
  - by rewrite Hn.
  - intros a Ea. destruct (Hah a Ea) as (Hd & o & s & Hs & Hlt). split; [done|]. destruct (Hra a o s Ea Hs) as (o' & s' & Hs' & Hle). exists o', s'. split; [done|lia].
Qed.

Lemma serving_wait t order room f rest a off s m size : serving t order room f -> brings t order rest -> (length order <= patience)%nat ->
  has (ext t) a off s m -> disk a = F -> 0 <= size <= s -> 1 <= m -> (readahead f = Some a -> 3 <= m) ->
  let d := read_at F off size in
  exists n t', wait_chunk opts noise patience c a size t = Ret (Some (Z.of_nat (length d), d), t') /\
    serving t' (drop n order) room f /\ brings t' (drop n order) rest /\ quiet k t t' /\ (forall b o s m, b <> a -> has (ext t) b o s m -> has (ext t') b o s m).
Proof using All.
  intros Hsv Hb Hp Hh Hd Hs Hm Hra d. pose proof Hsv as [(Hf & Hr & Hrf) _ _ _ _ _ _].
  destruct (wait_has disk t c k order rest tab reqs out a off s m size) as (n & t' & E & Hr' & Hq & Ho & Hn & Hne & Ha); try done.
  rewrite Hd in E, Ha. fold d in E, Ha. exists n, t'. split; [done|]. apply and_assoc. split; [|done]. eapply serving_quiet; try done.
  intros x o sx Ex Hx. destruct (decide (x = a)) as [-> |Hxa]; [|exists o, sx; split; [by apply Hne|done]].
  destruct Hh as (ch & Hc & <- & <- & Hm'). destruct Hx as (ch' & Hc' & _ & <- & _). assert (ch' = ch) as -> by congruence.
  eexists _, _. destruct (Ha ltac:(specialize (Hra Ex); lia)) as (ch' & Hc'' & F1 & F2 & F3). split; [exists ch'; split; [done|]; split; [done|]; split; [done|]; specialize (Hra Ex); lia|]. lia.
Qed.

(** A chunk that is not needed is given back. *)
Lemma serving_put t order room f rest a off s : serving t order room f -> brings t order rest -> has (ext t) a off s 2 -> readahead f <> Some a ->
  exists t', chunk_put_locked (Some a) t = Ret (Some tt, t') /\ serving t' order room f /\ brings t' order rest /\ quiet k t t'.
Proof using All.
  intros Hsv Hb (ch & Hc & _ & _ & Hm) Hra. pose proof Hsv as [(Hf & Hr & Hrf) _ _ _ _ _ _].
  destruct (reads_put text disk no_todo order (ext t) a ch Hr Hc) as (e' & Ep & Hr' & Ho & Hn & Hch); [lia|lia|].
  exists (set_ext e' t). split.
  { unfold chunk_put_locked. rewrite (hbind_ret _ _ _ _ _ (lock_ret t (fly_unlocked _ _ _ _ _ _ _ Hf))). by apply fupdate_ret. }
  apply and_assoc. split; [|apply quiet_ext]. change order with (drop 0 order) at 1 2. eapply serving_quiet; try done.
  - split; [by apply flying_ext|done].
  - intros x o sx Ex Hx. exists o, sx. split; [|done]. revert Hx. apply has_mono. cbn. rewrite Hch, decide_False by lia. by rewrite lookup_insert_ne by congruence.
Qed.

(** *** The read *)

(** The chunk read ahead, when it starts where the read does. *)
Definition ahead_at (e : files C) (f : sshfs_file) (off : Z) : option (Z * read_chunk) :=
  match readahead f with
  | None => None
  | Some a => match chunks e !! a with
              | Some ch => if (ch_offset ch =? off) && (ch_modifver ch =? modifver e) then Some (a, ch) else None
              | None => None
              end
  end.

Lemma chunk_at_ret t a ch : chunks (ext t) !! a = Some ch -> chunk_at a t = Ret (Some ch, t).
Proof using Type. intros E. unfold chunk_at. rewrite (hbind_ret _ _ _ _ _ (fget_ret t)). apply lift_ret. by rewrite E. Qed.

Lemma serving_position t pend room f p q v : serving t pend room f ->
  let f' := set_position p q v f in let t' := set_ext (set_sfiles (<[sf := f']> (sfiles (ext t))) (ext t)) t in
  fupdate (upd_file sf (set_position p q v)) t = Ret (Some tt, t') /\ serving t' pend room f'.
Proof using Type.
  intros [Hord Hfile Hconn Hver Hhandle Hdisk Hah]. split.
  - apply fupdate_ret. unfold upd_file, upd. by rewrite Hfile.
  - split; try done; [apply in_order_ext; [done|]; apply reads_ok_sfiles; by destruct Hord as (_ & ? & _)|]. cbn. by rewrite lookup_insert_eq.
Qed.

(** The search finds the chunk and takes a reference to it. *)
Lemma serving_search t pend room f off : serving t pend room f ->
  exists e', search_read_chunk sf off t = Ret (Some (fst <$> ahead_at (ext t) f off), set_ext e' t) /\ serving (set_ext e' t) pend room f /\
    match ahead_at (ext t) f off with
    | None => True
    | Some (a, ch) => readahead f = Some a /\ disk a = F /\ has e' a off (ch_size ch) 3 /\ 0 <= ch_size ch < 2 ^ 31
    end.
Proof using All.
  intros Hsv. pose proof Hsv as [Hord Hfile Hconn Hver Hhandle Hdisk Hah]. pose proof Hord as (Hf & Hr & Hrf).
  unfold search_read_chunk, ahead_at. rewrite (hbind_ret _ _ _ _ _ (fget_ret t)), (hbind_ret _ _ _ _ _ (file_at_ret sf f t Hfile)).
  destruct (readahead f) as [a|] eqn:Era; [|exists (ext t); by destruct t].
  destruct (Hah a eq_refl) as (Hd & o & s & (ch & Hc & Ho & Hs & Hm) & Hlt). rewrite Hc.
  rewrite (hbind_ret _ _ _ _ _ (lift_ret ch (deref (Some ch)) t eq_refl)). pose proof (co_size _ _ _ _ _ _ _ (ro_chunks _ _ _ _ _ Hr a ch Hc)) as Hpos.
  destruct ((ch_offset ch =? off) && (ch_modifver ch =? modifver (ext t))) eqn:Eb; [|exists (ext t); by destruct t].
  set (ch' := set_refs (ch_refs ch + 1) ch). exists (set_chunks (<[a := ch']> (chunks (ext t))) (ext t)). split; [|split].
  - by rewrite (hbind_ret _ _ _ _ _ (fupdate_ret _ t _ (upd_chunk_ret a _ (ext t) ch Hc))).
  - split; try done; [apply in_order_ext; [done|by apply (reads_set _ _ _ _ _ _ ch)]|].
    intros x Ex. rewrite Era in Ex. injection Ex as <-. split; [done|]. exists o, s. split; [|done]. exists ch'. cbn. rewrite lookup_insert_eq. split_and!; try done. cbn. lia.
  - apply andb_prop in Eb as [Eo%Z.eqb_eq _]. split; [done|]. split; [done|]. split; [|lia].
    exists ch'. cbn. rewrite lookup_insert_eq. split_and!; try done. cbn. lia.
Qed.

Lemma has_chunk (e : files C) a off s m : has e a off s m -> exists ch, chunks e !! a = Some ch /\ ch_size ch = s.
Proof using Type. intros (ch & Hc & _ & Hs & _). by exists ch. Qed.

(** All requests have been sent: the answers are to them. *)
Lemma serving_sent t t2 pend new ps room room2 f2 msgs rest : serving t2 (new ++ pend) room2 f2 -> sends h F k ps t t2 new lim room ->
  msgs ≡ₚ map answer_of pend ++ map (reply_of text F) (numbered (idctr (ses t)) ps) -> wire_in (os (ses t)) (rfd k) = concat msgs ++ rest ->
  (length msgs <= patience)%nat ->
  exists order, serving t2 order room2 f2 /\ brings t2 order rest /\ (length order <= patience)%nat.
Proof using All.
  intros Hsv [A1 A2 A3 A4 A5] Hm Hw Hl. destruct (serving_order t2 (new ++ pend) room2 f2 msgs rest Hsv) as (order & Ho & Hsv' & Hb).
  - by rewrite Hm, map_app, A5, Permutation_app_comm.
  - by rewrite A3.
  - exists order. split; [done|]. split; [done|]. rewrite Hm, length_app, <- A5, !length_map in Hl. rewrite Ho, length_app. lia.
Qed.

(** The requests that a read makes. *)
Definition async_asks (e : files C) (f : sshfs_file) (size off : Z) : list (Z * Z) :=
  match ahead_at e f off with
  | Some (_, ch) =>
      if ch_size ch <? size then split_read (size - ch_size ch) (off + ch_size ch) ++ (if is_seq f then split_read size (off + size) else [])
      else if is_seq f && (ch_size ch <=? size) then split_read size (off + size) else []
  | None => split_read size off ++ (if is_seq f then split_read size (off + size) else [])
  end.

(** The result of a read: the bytes of the file, and everything in order again. *)
Definition reads_file (e : prog cl (option (Z * list ascii))) t size off (asked : list (Z * Z)) (room : Z) (rest : list ascii) : Prop :=
  exists t' pend' f', e t = Ret (Some (Z.of_nat (length (read_at F off size)), read_at F off size), t') /\
    serving t' pend' (room - cost asked) f' /\ brings t' pend' rest /\ idctr (ses t') = idctr (ses t) + Z.of_nat (length asked) /\
    wire_out (os (ses t')) (wfd k) = wire_out (os (ses t)) (wfd k) ++ concat (map (request_of h) (numbered (idctr (ses t)) asked)).

Context (msgs : list (list ascii)) (rest : list ascii) (Hpat : (length msgs <= patience)%nat).

(** The answers that arrive are those to [pend] and to the requests for [ps], in some order. *)
Definition will_bring t (pend : list flight) (ps : list (Z * Z)) : Prop :=
  msgs ≡ₚ map answer_of pend ++ map (reply_of text F) (numbered (idctr (ses t)) ps) /\ wire_in (os (ses t)) (rfd k) = concat msgs ++ rest.

Lemma cost_app ps qs : cost (ps ++ qs) = cost ps + cost qs.
Proof using Type. unfold cost. rewrite length_app. clear. lia. Qed.
Lemma cost_pos ps : 0 <= cost ps.
Proof using Type. unfold cost. clear. lia. Qed.

(** Reading ahead is the last that sends. *)
Lemma ahead_sent t t3 pend new3 ps1 room f (b : bool) size off : serving t3 (new3 ++ pend) (room - cost ps1) f -> sends h F k ps1 t t3 new3 lim room ->
  0 <= off -> 0 <= size < 2 ^ 31 -> off + size < 2 ^ 63 -> let ps := ps1 ++ if b then split_read size off else [] in
  cost ps <= room -> idctr (ses t) + Z.of_nat (length ps) <= lim -> will_bring t pend ps ->
  exists t4 order f4, (if b then let? f := file_at sf in let? ra := submit_read opts noise patience fopts sf size off (readahead f) in
                         fupdate (upd_file sf (set_readahead (Some ra))) else hret tt) t3 = Ret (Some tt, t4) /\
    serving t4 order (room - cost ps) f4 /\ brings t4 order rest /\ (length order <= patience)%nat /\
    idctr (ses t4) = idctr (ses t) + Z.of_nat (length ps) /\
    wire_out (os (ses t4)) (wfd k) = wire_out (os (ses t)) (wfd k) ++ concat (map (request_of h) (numbered (idctr (ses t)) ps)) /\
    (forall x o s m, has (ext t3) x o s m -> readahead f <> Some x -> readahead f4 <> Some x /\ has (ext t4) x o s m) /\
    (forall x o s m, has (ext t3) x o s m -> b = false /\ f4 = f /\ has (ext t4) x o s m \/ readahead f4 <> Some x /\ has (ext t4) x o s (m - 1)).
Proof using All.
  intros Hsv Hsd Ho Hs Hend ps Hcost Hid [Hm Hw]. unfold ps in Hcost, Hid. rewrite cost_app in Hcost. rewrite length_app in Hid. pose proof (cost_pos ps1).
  destruct (serving_ahead t3 (new3 ++ pend) (room - cost ps1) f b size off Hsv) as (t4 & new4 & f4 & E4 & Hsv4 & Hsd4 & Hk4 & Hk4'); try lia.
  { rewrite (sd_id _ _ _ _ _ _ _ _ _ Hsd). lia. }
  pose proof (sends_trans _ _ _ _ _ _ _ _ _ _ _ _ Hsd Hsd4) as Hsd'. fold ps in Hsd'. rewrite app_assoc in Hsv4.
  destruct (serving_sent t t4 pend (new4 ++ new3) ps room _ f4 msgs rest Hsv4 Hsd' Hm Hw Hpat) as (order & Hsv' & Hb & Hl).
  exists t4, order, f4. split; [done|]. replace (room - cost ps) with (room - cost ps1 - cost (if b then split_read size off else [])) by (unfold ps; rewrite cost_app; lia).
  destruct Hsd'. done.
Qed.

(** The beginning of an asynchronous read. *)
Lemma async_read_starts t pend room f size off : serving t pend room f ->
  exists t2 f1 found, sshfs_async_read opts noise patience fopts sf size off t = read_with opts noise patience fopts sf f found size off t2 /\
    serving t2 pend room f1 /\ readahead f1 = readahead f /\ sends h F k [] t t2 [] lim room /\
    match ahead_at (ext t) f off with
    | None => found = None
    | Some (a, ch) => found = Some a /\ readahead f1 = Some a /\ disk a = F /\ has (ext t2) a off (ch_size ch) 3 /\ 0 <= ch_size ch < 2 ^ 31
    end.
Proof using All.
  intros Hsv. pose proof Hsv as [(Hf & _ & Hrf) Hfile Hconn _ _ _ _].
  destruct (serving_position t pend room f (off + size) ((next_pos f =? off) && (sf_modifver f =? modifver (ext t))) (i32 (modifver (ext t))) Hsv) as [E1 Hsv1].
  set (f1 := set_position _ _ _ f) in *. set (t1 := set_ext _ t) in *.
  destruct (serving_search t1 pend room f1 off Hsv1) as (e2 & E2 & Hsv2 & Hfound). change (ahead_at (ext t1) f1 off) with (ahead_at (ext t) f off) in E2, Hfound.
  exists (set_ext e2 t1), f1, (fst <$> ahead_at (ext t) f off). split; [|split; [done|split; [done|split]]].
  - unfold sshfs_async_read. rewrite (hbind_ret _ _ _ _ _ (lock_ret t (fly_unlocked _ _ _ _ _ _ _ Hf))), (hbind_ret _ _ _ _ _ (fget_ret t)),
      (hbind_ret _ _ _ _ _ (file_at_ret sf f t Hfile)), (hbind_ret _ _ _ _ _ E1), (hbind_ret _ _ _ _ _ E2). done.
  - pose proof (sends_ext _ _ _ _ t t _ _ _ (ext t) e2 (sends_nil h F k t lim room Hrf)) as Hx. rewrite set_ext_same in Hx. exact Hx.
  - destruct (ahead_at (ext t) f off) as [[a ch]|]; done.
Qed.

(** A chunk is asked for and the next one read ahead. *)
Lemma chunk_and_ahead t t2 pend room f (b : bool) size1 off1 size off : serving t2 pend room f -> sends h F k [] t t2 [] lim room ->
  0 <= off1 -> 0 <= size1 -> off1 + size1 < 2 ^ 63 -> 0 <= off -> 0 <= size < 2 ^ 31 -> off + size < 2 ^ 63 ->
  let ps := split_read size1 off1 ++ if b then split_read size off else [] in
  cost ps <= room -> idctr (ses t) + Z.of_nat (length ps) <= lim -> will_bring t pend ps ->
  exists a t3 ch t4 order f4, submit_read opts noise patience fopts sf size1 off1 None t2 = Ret (Some a, t3) /\ chunks (ext t3) !! a = Some ch /\ ch_size ch = size1 /\
    (if b then let? f := file_at sf in let? ra := submit_read opts noise patience fopts sf size off (readahead f) in
       fupdate (upd_file sf (set_readahead (Some ra))) else hret tt) t3 = Ret (Some tt, t4) /\
    serving t4 order (room - cost ps) f4 /\ brings t4 order rest /\ (length order <= patience)%nat /\
    idctr (ses t4) = idctr (ses t) + Z.of_nat (length ps) /\
    wire_out (os (ses t4)) (wfd k) = wire_out (os (ses t)) (wfd k) ++ concat (map (request_of h) (numbered (idctr (ses t)) ps)) /\
    disk a = F /\ has (ext t4) a off1 size1 2 /\ readahead f4 <> Some a /\
    (forall x o s m, has (ext t2) x o s m -> x <> a /\ exists m', has (ext t4) x o s m' /\ m - 1 <= m' /\ (readahead f4 = Some x -> m <= m')).
Proof using All.
  intros Hsv Hsd2 Ho1 Hs1 He1 Ho Hs He ps Hcost Hid Hbring. set (ps1 := split_read size1 off1) in *. set (ps2 := if b then _ else _) in *.
  pose proof (cost_pos ps2). assert (cost ps1 <= room) as Hc1 by (unfold ps in Hcost; rewrite cost_app in Hcost; lia).
  destruct (serving_chunk t2 pend room f size1 off1 Hsv) as (a & t3 & new3 & E3 & Hsv3 & Hsd3 & Hda & Hhas3 & Hra3 & Hkeep); try done.
  { fold ps1. rewrite (sd_id _ _ _ _ _ _ _ _ _ Hsd2). unfold ps in Hid. rewrite length_app in Hid. cbn [length]. lia. }
  destruct (has_chunk _ _ _ _ _ Hhas3) as (ch & Hc & Hcs).
  assert (sends h F k ps1 t t3 new3 lim room) as Hsd.
  { pose proof (sends_trans _ _ _ _ ps1 t t2 t3 _ new3 _ _ Hsd2) as Hx. cbn [length app] in Hx. rewrite Z.mul_0_l, Z.sub_0_r, app_nil_r in Hx. by apply Hx. }
  destruct (ahead_sent t t3 pend new3 ps1 room f b size off Hsv3 Hsd) as (t4 & order & f4 & E4 & Hsv4 & Hb4 & Hl4 & Hid4 & Ho4 & Hk4 & Hk4'); try done.
  destruct (Hk4 _ _ _ _ Hhas3 Hra3) as [Hra4 Hhas4]. exists a, t3, ch, t4, order, f4. do 12 (split; [done|]).
  intros x o s m Hx. destruct (Hkeep _ _ _ _ Hx) as [Hne Hx3]. split; [done|].
  destruct (Hk4' _ _ _ _ Hx3) as [(_ & _ & Hx4)|[Hx4 Hx5]]; [exists m|exists (m - 1)]; (split; [done|]); (split; [lia|]); [lia|done].
Qed.

Section Cases.
Context (t : cl) (pend : list flight) (room : Z) (f : sshfs_file) (size off : Z).
Context (Hsv : serving t pend room f) (Ho : 0 <= off) (Hs : 0 <= size < 2 ^ 31) (Hend : off + 2 * size < 2 ^ 63).
Let asked := async_asks (ext t) f size off.
Context (Hcost : cost asked <= room) (Hid : idctr (ses t) + Z.of_nat (length asked) <= lim) (Hbring : will_bring t pend asked).

(** Nothing has been read ahead. *)
Lemma async_read_new : ahead_at (ext t) f off = None ->
  reads_file (sshfs_async_read opts noise patience fopts sf size off) t size off asked room rest.
Proof using All.
  intros Hnone. destruct (async_read_starts t pend room f size off Hsv) as (t2 & f1 & found & E & Hsv2 & Hra & Hsd2 & Hfound).
  unfold asked, async_asks in *. rewrite Hnone in *. subst found. set (ps := split_read size off ++ _) in *.
  destruct (chunk_and_ahead t t2 pend room f1 (is_seq f) size off size (off + size) Hsv2 Hsd2) as
    (a & t3 & ch & t4 & order & f4 & E3 & Hc & Hcs & E4 & Hsv4 & Hb4 & Hl4 & Hid4 & Ho4 & Hda & Hhas4 & Hra4 & _); try done; try lia.
  assert (is_seq f && (ch_size ch <=? size) = is_seq f) as Hseq by (rewrite (proj2 (Z.leb_le _ _)) by lia; apply andb_true_r).
  destruct (serving_wait t4 order (room - cost ps) f4 rest a off size 2 size Hsv4 Hb4 Hl4 Hhas4 Hda) as (n & t5 & E5 & Hsv5 & Hb5 & [Q1 Q2 Q3 Q4] & _); try lia; try done.
  exists t5, (drop n order), f4. split; [|split; [done|split; [done|split; [by rewrite Q2|by rewrite Q1]]]].
  rewrite E. unfold read_with. rewrite (hbind_ret _ _ t2 0 t2 eq_refl), (hbind_ret _ _ _ _ _ E3), (hbind_ret _ _ _ _ _ (chunk_at_ret t3 a ch Hc)), Hseq, (hbind_ret _ _ _ _ _ E4).
  rewrite (sv_conn _ _ _ _ Hsv), (hbind_ret _ _ _ _ _ E5). unfold hret, pret. rewrite (proj2 (Z.ltb_ge _ 0)) by lia. done.
Qed.

(** All of the read has been read ahead. *)
Lemma async_read_ahead a ch : ahead_at (ext t) f off = Some (a, ch) -> size <= ch_size ch ->
  reads_file (sshfs_async_read opts noise patience fopts sf size off) t size off asked room rest.
Proof using All.
  intros Hah Hle. destruct (async_read_starts t pend room f size off Hsv) as (t2 & f1 & found & E & Hsv2 & Hra & Hsd2 & Hfound).
  unfold asked, async_asks in *. rewrite Hah in *. destruct Hfound as (-> & Hra1 & Hda & Hhas & Hcs). rewrite (proj2 (Z.ltb_ge _ _)) in * by lia.
  destruct (has_chunk _ _ _ _ _ Hhas) as (ch2 & Hc2 & Hcs2). set (b := is_seq f && (ch_size ch <=? size)) in *. set (ps := if b then _ else _) in *.
  destruct (ahead_sent t t2 pend [] [] room f1 b size (off + size)) as (t4 & order & f4 & E4 & Hsv4 & Hb4 & Hl4 & Hid4 & Ho4 & _ & Hk4); try lia; try done.
  { by replace (room - cost []) with room by (unfold cost; cbn; lia). }
  assert (exists m, has (ext t4) a off (ch_size ch) m /\ 1 <= m /\ (readahead f4 = Some a -> 3 <= m)) as (m & Hhas4 & Hm1 & Hm3).
  { destruct (Hk4 _ _ _ _ Hhas) as [(_ & _ & Hx)|[Hx1 Hx2]]; [exists 3|exists (3 - 1)]; (split; [done|]); (split; [lia|]); [lia|done]. }
  destruct (serving_wait t4 order (room - cost ps) f4 rest a off (ch_size ch) m size Hsv4 Hb4 Hl4 Hhas4 Hda) as (n & t5 & E5 & Hsv5 & Hb5 & [Q1 Q2 Q3 Q4] & _); try lia; try done.
  exists t5, (drop n order), f4. split; [|split; [done|split; [done|split; [by rewrite Q2|by rewrite Q1]]]].
  rewrite E. unfold read_with. rewrite (hbind_ret _ _ t2 (ch_size ch) t2) by (rewrite (hbind_ret _ _ _ _ _ (chunk_at_ret t2 a ch2 Hc2)); by rewrite Hcs2).
  rewrite (proj2 (Z.ltb_ge _ _)) by lia. cbv zeta iota beta. rewrite (hbind_ret _ _ t2 a t2 eq_refl), (hbind_ret _ _ _ _ _ (chunk_at_ret t2 a ch2 Hc2)), Hcs2.
  fold b. rewrite (hbind_ret _ _ _ _ _ E4), (sv_conn _ _ _ _ Hsv), (hbind_ret _ _ _ _ _ E5). unfold hret, pret. rewrite (proj2 (Z.ltb_ge _ 0)) by lia. done.
Qed.

(** The beginning of the read has been read ahead. *)
Lemma async_read_both a ch : ahead_at (ext t) f off = Some (a, ch) -> ch_size ch < size ->
  reads_file (sshfs_async_read opts noise patience fopts sf size off) t size off asked room rest.
Proof using All.
  intros Hah Hlt. destruct (async_read_starts t pend room f size off Hsv) as (t2 & f1 & found & E & Hsv2 & Hra & Hsd2 & Hfound).
  unfold asked, async_asks in *. rewrite Hah in *. destruct Hfound as (-> & Hra1 & Hda & Hhas & Hcs). rewrite (proj2 (Z.ltb_lt _ _)) in * by lia.
  destruct (has_chunk _ _ _ _ _ Hhas) as (ch2 & Hc2 & Hcs2). set (s0 := ch_size ch) in *. set (ps := split_read (size - s0) _ ++ _) in *.
  destruct (chunk_and_ahead t t2 pend room f1 (is_seq f) (size - s0) (off + s0) size (off + size) Hsv2 Hsd2) as
    (a1 & t3 & ch3 & t4 & order & f4 & E3 & Hc3 & Hcs3 & E4 & Hsv4 & Hb4 & Hl4 & Hid4 & Ho4 & Hda1 & Hhas4 & Hra4 & Hkeep); try done; try lia.
  assert (is_seq f && (ch_size ch3 <=? size - s0) = is_seq f) as Hseq by (rewrite (proj2 (Z.leb_le _ _)) by lia; apply andb_true_r).
  destruct (Hkeep _ _ _ _ Hhas) as (Hne & m & Hhas4' & Hm1 & Hm3). destruct (has_chunk _ _ _ _ _ Hhas4') as (ch4 & Hc4 & Hcs4).
  destruct (serving_wait t4 order (room - cost ps) f4 rest a off s0 m s0 Hsv4 Hb4 Hl4 Hhas4' Hda) as (n & t5 & E5 & Hsv5 & Hb5 & [Q1 Q2 Q3 Q4] & Hne5); try lia; try done.
  specialize (Hne5 a1 _ _ _ ltac:(congruence) Hhas4). set (d0 := read_at F off s0) in *. pose proof (read_at_length F off s0) as Hl0. fold d0 in Hl0.
  assert (forall r t', (if Z.of_nat (length d0) <? s0 then do? chunk_put_locked (Some a1); hret (Z.of_nat (length d0), d0)
      else let? (res, d) := wait_chunk opts noise patience c a1 (size - s0) in hret (if res <? 0 then res else Z.of_nat (length d0) + res, d0 ++ d)) t5 = Ret (Some r, t') ->
    sshfs_async_read opts noise patience fopts sf size off t = Ret (Some r, t')) as Hrun.
  { intros r t' <-. rewrite E. unfold read_with. rewrite (hbind_ret _ _ t2 s0 t2) by (rewrite (hbind_ret _ _ _ _ _ (chunk_at_ret t2 a ch2 Hc2)); by rewrite Hcs2).
    rewrite (proj2 (Z.ltb_lt _ _)) by lia. cbv zeta iota beta. rewrite (hbind_ret _ _ _ _ _ E3), (hbind_ret _ _ _ _ _ (chunk_at_ret t3 a1 ch3 Hc3)), Hseq.
    replace (off + s0 + (size - s0)) with (off + size) by lia. rewrite (hbind_ret _ _ _ _ _ E4), (hbind_ret _ _ _ _ _ (chunk_at_ret t4 a ch4 Hc4)), Hcs4.
    rewrite (sv_conn _ _ _ _ Hsv), (hbind_ret _ _ _ _ _ E5). cbv beta iota.
    assert (i32 s0 = s0) as -> by (rewrite <- (Z2Nat.id s0) by lia; apply i32_of_nat; lia). done. }
  destruct (Z.ltb_spec (Z.of_nat (length d0)) s0) as [Hshort|Hfull].
  - destruct (serving_put t5 (drop n order) (room - cost ps) f4 rest a1 _ _ Hsv5 Hb5 Hne5 Hra4) as (t6 & E6 & Hsv6 & Hb6 & [R1 R2 R3 R4]).
    exists t6, (drop n order), f4. rewrite (read_at_short F off s0 size) by (lia || exact Hshort). split; [apply Hrun; by rewrite (hbind_ret _ _ _ _ _ E6)|].
    split; [done|]. split; [done|]. split; [by rewrite R2, Q2|by rewrite R1, Q1].
  - destruct (serving_wait t5 (drop n order) (room - cost ps) f4 rest a1 (off + s0) (size - s0) 2 (size - s0) Hsv5 Hb5) as (n' & t6 & E6 & Hsv6 & Hb6 & [R1 R2 R3 R4] & _);
      try lia; try done; [rewrite length_drop; lia|].
    exists t6, (drop n' (drop n order)), f4. rewrite (read_at_split F off size s0) by lia. fold d0. rewrite length_app, Nat2Z.inj_add. split.
    { apply Hrun. rewrite (hbind_ret _ _ _ _ _ E6). unfold hret, pret. by rewrite (proj2 (Z.ltb_ge _ 0)) by lia. }
    split; [done|]. split; [done|]. split; [by rewrite R2, Q2|by rewrite R1, Q1].
Qed.

Lemma async_read_reads : reads_file (sshfs_async_read opts noise patience fopts sf size off) t size off asked room rest.
Proof using All.
  destruct (ahead_at (ext t) f off) as [[a ch]|] eqn:E; [|by apply async_read_new].
  destruct (decide (ch_size ch < size)); [by apply (async_read_both a ch)|apply (async_read_ahead a ch); [done|lia]].
Qed.
End Cases.

Lemma sync_read_reads t pend room f size off : let asked := split_read size off in
  serving t pend room f -> 0 <= off -> 0 <= size -> off + size < 2 ^ 63 ->
  cost asked <= room -> idctr (ses t) + Z.of_nat (length asked) <= lim -> will_bring t pend asked ->
  reads_file (sshfs_sync_read opts noise patience fopts sf size off) t size off asked room rest.
Proof using All.
  intros asked Hsv Ho Hs Hend Hcost Hid [Hm Hw]. pose proof Hsv as [(Hf & Hr & Hrf) Hfile Hconn Hver Hhandle Hdisk Hah]. set (a := next_file (ext t)).
  destruct (send_read_sends sf f h c k tab reqs out lim disk Hmax Htext Hconn Hhandle Hlen t pend size off room Hf Hr Ho Hs Hend Hfile Hrf Hcost Hid)
    as (t1 & new & E1 & Hf1 & Hr1 & [Hm1 Hm2 Hm3 (ch & Hc & G1 & G2 & G3 & _)] & Hsd). fold asked a in E1, Hm2, Hm3, Hc, Hsd.
  assert (disk a = F) as Hda by (apply Hdisk; unfold a; lia). rewrite Hda in Hsd.
  assert (serving t1 (new ++ pend) (room - cost asked) f) as Hsv1.
  { split; try done; [split; [done|split; [done|apply Hsd]]| | |].
    - unfold others in Hm1. by injection Hm1 as -> _.
    - intros x Hx. apply Hdisk. fold a. lia.
    - intros x Ex. destruct (Hah x Ex) as (Hdx & o & sx & Hx & Hlt). split; [done|]. exists o, sx. split; [|done]. revert Hx. intros (chx & Hcx & Hx). exists chx.
      rewrite Hm3; [done|]. intros ->. destruct (ro_fresh _ _ _ _ _ Hr a ltac:(unfold a; lia)). congruence. }
  destruct (serving_sent t t1 pend new asked room _ f msgs rest Hsv1 Hsd Hm Hw Hpat) as (order & Hsv2 & Hb2 & Hl2).
  destruct (serving_wait t1 order (room - cost asked) f rest a off size 1 size Hsv2 Hb2 Hl2) as (n & t3 & E3 & Hsv3 & Hb3 & [Q1 Q2 Q3 Q4] & _); try lia; try done.
  { exists ch. split_and!; try done. lia. }
  { intros Ex. destruct (Hah a Ex) as (_ & o & sx & (chx & Hcx & _) & _). destruct (ro_fresh _ _ _ _ _ Hr a ltac:(unfold a; lia)). congruence. }
  exists t3, (drop n order), f. split; [|split; [done|split; [done|split; [rewrite Q2; apply Hsd|rewrite Q1; apply Hsd]]]].
  unfold sshfs_sync_read. rewrite (hbind_ret _ _ _ _ _ (file_at_ret sf f t Hfile)), (hbind_ret _ _ _ _ _ E1), Hconn. exact E3.
Qed.

Lemma file_is_conn_ret t pend f : flying t c k pend tab reqs out -> sfiles (ext t) !! sf = Some f -> sf_conn f = c -> sf_connver f = connver k ->
  sshfs_file_is_conn sf t = Ret (Some true, t).
Proof using Type.
  intros Hf Hfile Hconn Hver. destruct (fly_live _ _ _ _ _ _ _ Hf) as (_ & _ & x & Hx & _ & _ & _ & Hv).
  unfold sshfs_file_is_conn. rewrite (hbind_ret _ _ _ _ _ (lock_ret t (fly_unlocked _ _ _ _ _ _ _ Hf))), (hbind_ret _ _ _ _ _ (file_at_ret sf f t Hfile)).
  rewrite (hbind_ret _ _ t (ses t) t eq_refl), Hconn, (hbind_ret _ _ _ _ _ (lift_ret x (deref (conns (ses t) !! c)) t ltac:(by rewrite Hx))).
  by rewrite Hver, Hv, Z.eqb_refl.
Qed.
Lemma is_conn_ret t pend room f : serving t pend room f -> sshfs_file_is_conn sf t = Ret (Some true, t).
Proof using Type. intros [(Hf & _) Hfile Hconn Hver _ _ _]. by apply (file_is_conn_ret t pend f). Qed.

(** The requests that [sshfs_read] makes. *)
Definition read_asks (e : files C) (f : sshfs_file) (size off : Z) : list (Z * Z) :=
  if sync_read fopts then split_read size off else async_asks e f size off.

(** C3: A read returns the bytes of the file.  Let everything that the client holds of
    the file or waits for be what the server has in it ([serving]: chunks read
    ahead, taken in part or at the end of the file, and requests under way), and let the answers to the
    requests under way and to those that the read makes arrive in any order, broken up
    in any way.  Then [sshfs_read] on the file, with synchronous reads or with read-ahead,
    returns the bytes at the offset, as many as were asked for or as there are; it has
    made the requests [read_asks], and the same holds of the state after it, so that
    it holds of every sequence of reads.  The identifiers do not wrap around and the
    requests fit into the limit of outstanding bytes. *)
Theorem sshfs_read_returns_file t pend room f size off : let asked := read_asks (ext t) f size off in
  serving t pend room f -> 0 <= off -> 0 <= size < 2 ^ 31 -> off + 2 * size < 2 ^ 63 ->
  cost asked <= room -> idctr (ses t) + Z.of_nat (length asked) <= lim -> will_bring t pend asked ->
  reads_file (sshfs_read opts noise patience fopts size off (FiFile sf)) t size off asked room rest.
Proof using All.
  intros asked Hsv Ho Hs Hend Hcost Hid Hb. unfold reads_file, sshfs_read. unfold get_sshfs_file. rewrite (hbind_ret _ _ t sf t eq_refl).
  rewrite (hbind_ret _ _ _ _ _ (is_conn_ret t pend room f Hsv)). cbn [negb]. unfold asked, read_asks in *. destruct (sync_read fopts).
  - by apply (sync_read_reads t pend room f); try lia.
  - by apply (async_read_reads t pend room f).
Qed.
End Serving.

(** A read that fails looks like the end of the file.  When the requests of a chunk
    have ended and the first one with an error, [wait_chunk] returns 0 and no bytes; the
    error is noted in the chunk, which is freed with the last reference. *)
Theorem failed_read_is_eof t c a ch rr l r size : locked t = false -> chunks (ext t) !! a = Some ch -> num_reqs ch = 0 -> sio_error ch = 0 ->
  ch_reqs ch = rr :: l -> rreqs (ext t) !! rr = Some r -> rr_res r < 0 -> 0 < size -> ch_refs ch = 1 ->
  exists t', wait_chunk opts noise patience c a size t = Ret (Some (0, []), t') /\ chunks (ext t') !! a = None.
Proof using Type.
  intros Hlk Hc Hn Herr Hl Hr Hneg Hs Href. unfold wait_chunk.
  rewrite (pbind_ret _ _ _ true t) by (destruct patience; cbn [wait_until]; unfold pget; rewrite (pbind_ret _ _ _ t t eq_refl), Hlk, Hc, Hn; done).
  cbn [negb]. rewrite (hbind_ret _ _ _ _ _ (fget_ret t)), (hbind_ret _ _ _ _ _ (lift_ret ch (deref (chunks (ext t) !! a)) t ltac:(by rewrite Hc))), Herr. cbn [Z.eqb negb].
  assert (take_data (ch_reqs ch) size (ext t) = Ret ([], rr :: l, rr_res r, ext t)) as Et.
  { rewrite Hl. cbn [take_data]. rewrite (proj2 (Z.eqb_neq size 0)), Hr by lia. cbn [deref]. unfold mbind, outcome_bind. by rewrite (proj2 (Z.ltb_lt _ 0)) by lia. }
  rewrite (hbind_ret _ _ _ _ _ (lift_ret _ _ t Et)). cbv beta iota. rewrite (hbind_ret _ _ _ _ _ (fmodify_ret _ t)). set (t1 := set_ext _ t).
  rewrite (hbind_ret _ _ _ _ _ (fupdate_ret _ t1 _ (upd_chunk_ret a _ (ext t1) ch Hc))). change (Z.of_nat (length (@nil ascii)) >? 0) with false. cbv iota. set (ch2 := set_sio_error (rr_res r) (set_reqs (rr :: l) ch)). set (t2 := set_ext _ t1).
  assert (exists e3, chunk_put (Some a) (ext t2) = Ret e3 /\ chunks e3 !! a = None) as (e3 & Ep & Hnone).
  { unfold chunk_put. rewrite (upd_chunk_ret a _ (ext t2) ch2) by (cbn; apply lookup_insert_eq). unfold mbind, outcome_bind. cbn [chunks set_chunks].
    rewrite lookup_insert_eq. cbn [deref]. replace (ch_refs _) with 0 by (cbn; lia). cbn [Z.eqb]. unfold chunk_free. cbn [chunks set_chunks].
    rewrite lookup_insert_eq. cbn [deref]. eexists. split; [done|]. cbn. apply lookup_delete_eq. }
  exists (set_ext e3 t2). split; [|done]. unfold chunk_put_locked. rewrite (hbind_ret _ _ t2 tt (set_ext e3 t2)); [done|].
  rewrite (hbind_ret _ _ _ _ _ (lock_ret t2 Hlk)). by apply fupdate_ret.
Qed.
End Reading.

(** ** Witnesses *)

Module SftpReadsExample.
Import SftpBuf.SftpExample SftpConn.SftpConnExample SftpRequests.SftpRequestsExample.

#[export] Instance no_cache : OpenCache unit := {| oc_write_ctr := pret 0; oc_add_attr := fun _ _ _ => pret tt; oc_invalidate := fun _ => pret tt |}.

Definition plain_opts : options := Options false true false None false false.
Definition small_pieces : file_options :=
  FileOptions (lit "/home/") false false false false false false false false false 4 4 None None.
Definition contents : list ascii := lit "hello world".
Definition some_file : sshfs_file := SshfsFile (Buffer (Some (lit "hdl")) 3 3) [] 0 None 0 true 0 0 0.
Definition one_file : files unit := Files {[ 1 := some_file ]} ∅ ∅ ∅ 2 0 [] ∅ tt.

(** The server answers the four requests in the opposite order. *)
Definition four : list (Z * Z) := [(2, 4); (6, 2); (8, 4); (12, 2)].
Definition four_answers : list (list ascii) := rev (map (reply_of (lit "eof") contents) (numbered 7 four)).
Definition link : conn := Conn true 3 3 0 0 0 0.
Definition before_read : client (session pipe) end_data (files unit) :=
  Client (Session [link] 7 (-1) (-1) None (lit "h") false false false false false 3 false plain_cfg 1 0
            (Pipe 4 [] (concat four_answers ++ lit "more")))
    ∅ ∅ 0 0 (2 ^ 32 - 1) false one_file.

Lemma before_read_serving :
  serving (lit "eof") 1 (lit "hdl") contents 0 link ∅ ∅ 0 100 (fun _ => contents) before_read [] 1000 some_file.
Proof.
  split; try done; [|split; [done|]; split; [done|by exists []]].
  split; [|split].
  - split; try done; [|constructor|constructor]. split; [done|]. split; [done|]. exists link. done.
  - split; [|constructor|constructor|done]. intros a ch Hc. cbn in Hc. by rewrite lookup_empty in Hc.
  - split; done.
Qed.

Lemma sshfs_read_returns_file_witness :
  reads_file (C := unit) (lit "eof") 1 (lit "hdl") contents 0 link ∅ ∅ 0 100 (fun _ => contents)
    (sshfs_read plain_opts 0 9 small_pieces 6 2 (FiFile 1)) before_read 6 2 four 1000 (lit "more").
Proof.
  apply (sshfs_read_returns_file (W := pipe) (C := unit) plain_opts 0 9 small_pieces (lit "eof") 1 (lit "hdl") contents 0 link ∅ ∅ 0 100
    (fun _ => contents) ltac:(done) ltac:(done) ltac:(done) four_answers (lit "more") ltac:(cbn; lia) before_read [] 1000 some_file 6 2); try done; try lia.
  - apply before_read_serving.
  - split; [|done]. symmetry. apply Permutation_rev.
Defined.

(** A chunk of one request that the server has refused. *)
Definition refused_read : client (session pipe) end_data (files unit) :=
  set_ext (set_rreqs {[ 5 := ReadReq 4 (Buffer None 0 0) 3 (- EACCES) ]} (set_chunks {[ 4 := ReadChunk 0 3 1 0 [5] 0 0 ]} one_file)) before_read.

Lemma failed_read_is_eof_witness :
  exists t', wait_chunk plain_opts 0 9 0 4 3 refused_read = Ret (Some (0, []), t') /\ chunks (ext t') !! 4 = None.
Proof.
  apply (failed_read_is_eof (W := pipe) (C := unit) plain_opts 0 9 refused_read 0 4 (ReadChunk 0 3 1 0 [5] 0 0) 5 [] (ReadReq 4 (Buffer None 0 0) 3 (- EACCES)) 3); done.
Defined.
End SftpReadsExample.
