(* ===== verification/SftpWrites.v ===== *)
(** * Writing files over an sftp connection

    A write is cut into pieces and sent without waiting; [sshfs_flush] waits for the
    answers and reports errors.  The requests of a write, carried out in any order,
    write the bytes of the buffer at its offset. *)

From Stdlib Require Import ZArith Lia Ascii String.
From stdpp Require Import base list gmap sets.
From S2P Require Import Prelude World Cache SftpBuf SftpConn SftpRequests SftpFiles SftpTransfers SftpReads.

Local Open Scope Z_scope.

(** ** What a server does with a request to write *)

(** The file after [d] has been written at [o]; a gap is filled with zeros. *)
Definition write_at (F : list ascii) (w : nat * list ascii) : list ascii :=
  let (o, d) := w in
  match d with
  | [] => F
  | _ => take o (F ++ replicate (o - length F) nul) ++ d ++ drop (o + length d) F
  end.

Lemma write_at_lookup F o d i : d <> [] -> write_at F (o, d) !! i =
  if decide (i < o)%nat then (if decide (i < length F)%nat then F !! i else Some nul)
  else if decide (i < o + length d)%nat then d !! (i - o)%nat else F !! i.
Proof.
  intros Hd. destruct d as [|b d]; [done|]. cbn [write_at]. set (x := b :: d). set (p := take o _).
  assert (length p = o) as Hp by (unfold p; rewrite length_take, length_app, length_replicate; lia).
  destruct (decide (i < o)%nat).
  - rewrite lookup_app_l by lia. unfold p. rewrite lookup_take_lt by lia. destruct (decide (i < length F)%nat).
    + by rewrite lookup_app_l.
    + rewrite lookup_app_r by lia. apply lookup_replicate_2. lia.
  - rewrite lookup_app_r by lia. rewrite Hp. destruct (decide (i < o + length x)%nat).
    + rewrite lookup_app_l by lia. done.
    + rewrite lookup_app_r by lia. rewrite lookup_drop. f_equal. lia.
Qed.
Lemma write_at_length F o d : d <> [] -> length (write_at F (o, d)) = (length F `max` (o + length d))%nat.
Proof.
  intros Hd. destruct d as [|b d]; [done|]. cbn [write_at]. rewrite !length_app, length_take, length_app, length_replicate, length_drop. lia.
Qed.
(** Requests that do not overlap can be carried out in any order. *)
Definition apart (v w : nat * list ascii) : Prop := (v.1 + length v.2 <= w.1 \/ w.1 + length w.2 <= v.1)%nat.

Lemma write_at_comm F v w : v.2 <> [] -> w.2 <> [] -> apart v w -> write_at (write_at F v) w = write_at (write_at F w) v.
Proof.
  destruct v as [o d], w as [p x]. unfold apart. cbn [fst snd]. intros Hd Hx Ha. apply list_eq. intros i.
  rewrite !write_at_lookup, !write_at_length by done.
  repeat case_decide; try done; try lia.
Qed.
Lemma write_at_app F o d x : write_at (write_at F (o, d)) ((o + length d)%nat, x) = write_at F (o, d ++ x).
Proof.
  destruct d as [|b d]; [by rewrite Nat.add_0_r|]. set (y := b :: d). destruct x as [|b' x]; [by rewrite app_nil_r|]. set (z := b' :: x).
  apply list_eq. intros i. rewrite !write_at_lookup, !write_at_length, !length_app by done.
  repeat case_decide; try done; try lia.
  - by rewrite lookup_app_l by lia.
  - rewrite lookup_app_r by lia. f_equal. lia.
Qed.

Definition writes (F : list ascii) (l : list (nat * list ascii)) : list ascii := fold_left write_at l F.

Lemma apart_perm l l' : l ≡ₚ l' -> ForallOrdPairs apart l -> ForallOrdPairs apart l'.
Proof.
  induction 1 as [|v l l' Hp IH|v w l|l1 l2 l3 _ IH1 _ IH2]; try done; [| |by auto].
  - inversion 1 as [|? ? Hv Hl]; subst. constructor; [by rewrite <- Hp|by apply IH].
  - inversion 1 as [|? ? Hv Hl]; subst. inversion Hl as [|? ? Hw Hl']; subst. apply Forall_cons in Hv as [Hvw Hv].
    constructor; [|by constructor]. constructor; [|done]. unfold apart in *. lia.
Qed.
Lemma writes_perm l l' : l ≡ₚ l' -> forall F, Forall (fun w => w.2 <> []) l -> ForallOrdPairs apart l -> writes F l = writes F l'.
Proof.
  induction 1 as [|v l l' Hp IH|v w l|l1 l2 l3 H12 IH1 H23 IH2]; intros F Hne Ha; try done.
  - apply Forall_cons in Hne as [_ Hne]. inversion Ha; subst. cbn. by apply IH.
  - apply Forall_cons in Hne as [Hv Hne]. apply Forall_cons in Hne as [Hw Hne]. inversion Ha as [|? ? Hx Hl]; subst. apply Forall_cons in Hx as [Hvw _].
    unfold writes. cbn [fold_left]. by rewrite write_at_comm.
  - rewrite IH1 by done. apply IH2; [by rewrite <- H12|by eapply apart_perm].
Qed.

(** The pieces of at most [mx] bytes that a write is divided into. *)
Fixpoint write_pieces (fuel : nat) (mx : Z) (buf : list ascii) (off : Z) : list (Z * list ascii) :=
  match buf, fuel with
  | [], _ => []
  | _, O => []
  | _, S fuel =>
      let size := Z.of_nat (length buf) in
      let n := if size <? mx then size else mx in
      (off, take (Z.to_nat n) buf) :: write_pieces fuel mx (drop (Z.to_nat n) buf) (off + n)
  end.
Definition at_nat (w : Z * list ascii) : nat * list ascii := (Z.to_nat w.1, w.2).

Lemma write_pieces_whole fuel mx : 0 < mx -> forall buf off, (length buf <= fuel)%nat -> 0 <= off ->
  let l := map at_nat (write_pieces fuel mx buf off) in
  Forall (fun w => w.2 <> [] /\ (Z.to_nat off <= w.1)%nat) l /\ ForallOrdPairs apart l /\ forall F, writes F l = write_at F (Z.to_nat off, buf).
Proof.
  intros Hmx. induction fuel as [|fuel IH]; intros [|b buf] off Hf Ho; try (cbn in Hf; lia); try (split; [constructor|]; split; [constructor|done]).
  set (x := b :: buf) in *. cbn [write_pieces]. fold x. change (match x with [] => _ | _ => ?y end) with y.
  set (n := if Z.of_nat (length x) <? mx then Z.of_nat (length x) else mx).
  assert (0 < n <= Z.of_nat (length x)) as Hn by (unfold n; destruct (Z.ltb_spec (Z.of_nat (length x)) mx); unfold x in *; cbn [length] in *; lia).
  assert (length (take (Z.to_nat n) x) = Z.to_nat n) as Hl by (rewrite length_take; lia).
  destruct (IH (drop (Z.to_nat n) x) (off + n)) as (H1 & H2 & H3); [rewrite length_drop; lia|lia|]. cbn [map]. set (l := map at_nat _) in *.
  split; [|split].
  - apply Forall_cons. split; [cbn; split; [intros E; rewrite E in Hl; cbn in Hl; lia|lia]|]. eapply Forall_impl; [exact H1|]. cbn. intros w [? ?]. split; [done|lia].
  - constructor; [|done]. eapply Forall_impl; [exact H1|]. intros w [_ Hw]. unfold apart, at_nat. cbn [fst snd]. left. lia.
  - intros F. cbn [writes fold_left]. fold (writes (write_at F (at_nat (off, take (Z.to_nat n) x))) l). rewrite H3.
    unfold at_nat. cbn [fst snd]. rewrite <- (take_drop (Z.to_nat n) x) at 3. rewrite <- write_at_app, Hl. do 2 f_equal. lia.
Qed.

(** The requests of a write leave the bytes at their place, in whatever order they are
    carried out. *)
Lemma pieces_any_order mx buf off ps F : 0 < mx -> 0 <= off -> ps ≡ₚ write_pieces (length buf) mx buf off ->
  writes F (map at_nat ps) = write_at F (Z.to_nat off, buf).
Proof.
  intros Hmx Ho Hp. destruct (write_pieces_whole (length buf) mx Hmx buf off) as (H1 & H2 & H3); [done|done|].
  rewrite <- H3. symmetry. apply writes_perm; [by rewrite Hp| |done]. eapply Forall_impl; [exact H1|]. by intros w [? _].
Qed.

(** ** The requests and the answers *)

Lemma ready_less {W C} (t : client (session W) end_data (files C)) lim room room' : ready_for t lim room -> room' <= room -> ready_for t lim room'.
Proof. intros [] Hle. split; try done. lia. Qed.

Definition write_request (h : list ascii) (q : Z * (Z * list ascii)) : list ascii :=
  message SSH_FXP_WRITE (be_bytes 4 q.1 ++ io_bytes h q.2.1 (Z.of_nat (length q.2.2)) ++ q.2.2).
(** A status; [text] is the server's message. *)
Definition status_reply (text : list ascii) (q : Z * Z) : list ascii :=
  message SSH_FXP_STATUS (be_bytes 4 q.1 ++ be_bytes 4 q.2 ++ text).

Section Writing.
Context `{HeapLaws} `{!HeapPlenty} {W C : Type} `{Duplex W} `{!Dialer W} `{!TableOrder} `{!OpenCache C}.
Context (opts : options) (noise : nat) (patience : nat) (fopts : file_options) (text : list ascii).
#[local] Hint Extern 0 (Transport (session _)) => exact (session_transport opts noise) : typeclass_instances.
Abbreviation cl := (client (session W) end_data (files C)).
Implicit Types (t : cl).
Context (sf : Z) (h : list ascii) (c : nat) (k : conn) (tab : gmap Z Z) (reqs : gmap Z (request end_data)) (out lim : Z).
Context (Hmax : 0 < max_write fopts <= 65536) (Htext : Z.of_nat (length text) <= 65536) (Hlen : Z.of_nat (length h) < 2 ^ 30).

(** The request is a write to the file and gets status [code]. *)
Definition write_flight (p : flight) (code : Z) : Prop :=
  rq_end (fl_rq p) = Some (WriteEnd sf) /\ fl_type p = SSH_FXP_STATUS /\ fl_body p = be_bytes 4 code ++ text /\ 0 <= code < 2 ^ 32.

Definition write_cost (ps : list (Z * list ascii)) : Z := foldr (fun w n => Z.of_nat (length h + length w.2) + 21 + n) 0 ps.
Lemma write_cost_pos ps : 0 <= write_cost ps.
Proof using Type. unfold write_cost. clear. induction ps as [|w ps IH]; cbn [foldr]; lia. Qed.

(** What sending the pieces [ps] does, when they get the statuses [codes]. *)
Record writes_sent (ps : list (Z * list ascii)) (codes : list Z) t t' (new : list flight) (room : Z) : Prop := WritesSent {
  ws_ready : ready_for t' lim (room - write_cost ps);
  ws_id : idctr (ses t') = idctr (ses t) + Z.of_nat (length ps);
  ws_in : wire_in (os (ses t')) (rfd k) = wire_in (os (ses t)) (rfd k);
  ws_out : wire_out (os (ses t')) (wfd k) = wire_out (os (ses t)) (wfd k) ++ concat (map (write_request h) (numbered (idctr (ses t)) ps));
  ws_new : map answer_of (rev new) = map (status_reply text) (numbered (idctr (ses t)) codes);
  ws_codes : Forall2 write_flight (rev new) codes }.

Lemma write_loop_sends fuel : forall t pend f buf off room codes, let ps := write_pieces fuel (max_write fopts) buf off in
  flying t c k pend tab reqs out -> sfiles (ext t) !! sf = Some f -> sf_conn f = c -> holds (sf_handle f) h ->
  (length buf <= fuel)%nat -> 0 <= off -> off + Z.of_nat (length buf) < 2 ^ 63 -> length codes = length ps -> Forall (fun code => 0 <= code < 2 ^ 32) codes ->
  ready_for t lim room -> write_cost ps <= room -> idctr (ses t) + Z.of_nat (length ps) <= lim ->
  exists t' new, write_loop opts noise patience fopts fuel sf (sshfs_write_begin sf) (WriteEnd sf) buf off t = Ret (Some 0, t') /\
    flying t' c k (new ++ pend) tab reqs out /\
    ext t' = set_sfiles (<[sf := set_write_reqs (map fl_addr new ++ write_reqs f) f]> (sfiles (ext t))) (ext t) /\
    writes_sent ps codes t t' new room.
Proof using All.
  induction fuel as [|fuel IH]; intros t pend f [|b buf] off room codes ps Hf Hfile Hconn Hh Hl Ho Hend Hcodes Hck Hrf Hcost Hid; try (cbn in Hl; lia).
  1, 2: exists t, []; destruct codes; [|done]; split; [done|]; split; [done|]; split;
    [cbn [map app]; replace (set_write_reqs (write_reqs f) f) with f by (by destruct f); rewrite insert_id by exact Hfile; by destruct (ext t)|];
    split; cbn [ps write_pieces length numbered map concat write_cost foldr rev]; rewrite ?Z.sub_0_r, ?Z.add_0_r, ?app_nil_r; try done; constructor.
  set (x := b :: buf) in *. set (n := if Z.of_nat (length x) <? max_write fopts then Z.of_nat (length x) else max_write fopts).
  assert (0 < n <= 65536 /\ n <= Z.of_nat (length x)) as Hn by (unfold n; destruct (Z.ltb_spec (Z.of_nat (length x)) (max_write fopts)); unfold x in *; cbn [length] in *; lia).
  assert (length (take (Z.to_nat n) x) = Z.to_nat n) as Hln by (rewrite length_take; lia).
  set (ps' := write_pieces fuel (max_write fopts) (drop (Z.to_nat n) x) (off + n)).
  change ps with ((off, take (Z.to_nat n) x) :: ps') in *. destruct codes as [|code codes]; [done|]. apply Forall_cons in Hck as [Hcode Hck].
  cbn [length write_cost foldr fst snd] in Hcost, Hid, Hcodes. fold (write_cost ps') in Hcost. rewrite Hln in Hcost. pose proof (write_cost_pos ps').
  set (iov := [io_bytes h off n; take (Z.to_nat n) x]).
  assert (concat iov = io_bytes h off n ++ take (Z.to_nat n) x) as Hcat by (unfold iov; cbn [concat]; by rewrite app_nil_r).
  assert (Z.of_nat (length (concat iov)) = Z.of_nat (length h + Z.to_nat n) + 12) as Hciov by (rewrite Hcat, length_app, io_bytes_length, Hln; lia).
  destruct (send_flies opts noise patience t c k pend tab reqs out lim room SSH_FXP_WRITE iov (Some (sshfs_write_begin sf)) (WriteEnd sf)
    SSH_FXP_STATUS (be_bytes 4 code ++ text) Hf Hrf) as (t1 & E1 & Hf1 & Hrf1 & Hext1 & Hnr1 & Hid1 & _ & Hwi1 & Hwo1); try done; try lia; try (cbn; lia).
  { rewrite length_app, length_be_bytes. change MAX_REPLY_LEN with 131072. lia. }
  set (p := Flight _ _ _ _) in Hf1. set (f1 := set_write_reqs (next_req t :: write_reqs f) f).
  assert (ext t1 = set_sfiles (<[sf := f1]> (sfiles (ext t))) (ext t)) as Hext1' by (rewrite Hext1; unfold begun, sshfs_write_begin; by rewrite Hfile).
  rewrite Hciov in Hrf1.
  destruct (IH t1 (p :: pend) f1 (drop (Z.to_nat n) x) (off + n) (room - (Z.of_nat (length h + Z.to_nat n) + 21)) codes) as (t' & new & E' & Hf' & Hext' & Hs');
    try done; try (fold ps'; lia).
  { rewrite Hext1'. cbn. apply lookup_insert_eq. } { rewrite length_drop. lia. } { rewrite length_drop. lia. }
  { eapply ready_less; [exact Hrf1|lia]. }
  exists t', (new ++ [p]). rewrite <- app_assoc. split; [|split; [exact Hf'|split]].
  - unfold x. cbn [write_loop]. fold x. fold n. rewrite (hbind_ret _ _ _ _ _ (file_at_ret sf f t Hfile)).
    rewrite (wrap_small 64), (wrap_small 32), (hbind_ret _ _ _ _ _ (lift_ret _ _ t (io_buffer_bytes (sf_handle f) h off n Hh ltac:(lia) ltac:(lia) ltac:(lia)))) by lia.
    rewrite Hconn, (hbind_ret _ _ _ _ _ E1). cbn [Z.eqb negb]. exact E'.
  - rewrite Hext', Hext1'. unfold set_sfiles. cbn. rewrite insert_insert_eq, map_app. cbn [map]. by rewrite <- app_assoc.
  - destruct Hs' as [A1 A2 A3 A4 A5 A6]. fold ps' in A1, A2, A4. split; rewrite ?rev_app_distr; cbn [rev app length numbered map concat].
    + cbn [write_cost foldr snd]. fold (write_cost ps'). rewrite Hln. eapply ready_less; [exact A1|lia].
    + lia.
    + congruence.
    + rewrite A4, Hwo1, Hid1, <- app_assoc. unfold write_request at 2. cbn [fst snd]. rewrite Hln, Z2Nat.id, Hcat by lia. done.
    + rewrite A5, Hid1. done.
    + constructor; [by unfold write_flight|done].
Qed.

(** ** The answers *)

(** What the file remembers when writes have ended with these statuses. *)
Definition verdict (codes : list Z) (err : Z) : Z := if bool_decide (Forall (fun code => code = SSH_FX_OK) codes) then err else - EIO.

Lemma verdict_perm codes codes' err : codes ≡ₚ codes' -> verdict codes err = verdict codes' err.
Proof using Type. intros Hp. unfold verdict. by rewrite (bool_decide_ext _ (Forall (fun code => code = SSH_FX_OK) codes')) by by rewrite Hp. Qed.
Lemma verdict_cons code codes err : verdict (code :: codes) err = verdict codes (verdict [code] err).
Proof using Type.
  unfold verdict. rewrite (bool_decide_ext _ _ (Forall_cons _ code codes)), (bool_decide_ext _ _ (Forall_singleton _ code)), bool_decide_and.
  by destruct (bool_decide (code = SSH_FX_OK)), (bool_decide (Forall _ codes)).
Qed.

Lemma write_end_status p code err : write_flight p code -> flight_ok c p -> write_end_error (answered p) err = Ret (verdict [code] err).
Proof using All.
  intros (_ & Ht & Hb & Hcode) [_ _ Herr _ Hid _ _]. unfold write_end_error, answered. cbn [rq_error set_reply replied reply_type reply].
  rewrite Herr, Ht, Hb. cbn [Z.eqb negb SSH_FXP_STATUS Pos.eqb]. unfold answer_buf. set (i := be_bytes 4 (fl_id p)).
  assert (length i = 4%nat) as Hi by apply length_be_bytes. pose proof (decodes_uint32 code Hcode i text) as Hd. rewrite Hi in Hd.
  rewrite Hd by (rewrite !length_app, length_be_bytes; lia). unfold mbind, outcome_bind, verdict. f_equal.
  destruct (Z.eqb_spec code SSH_FX_OK) as [->|Hne]; cbn [negb]; [by rewrite bool_decide_true by by constructor|].
  rewrite bool_decide_false; [done|]. by inversion 1.
Qed.

(** While the answers to [pend] arrive: [mine] is the list that [sshfs_flush] waits for. *)
Record draining (f : sshfs_file) (mine : list Z) (res : Z) (pend : list flight) (e : files C) : Prop := Draining {
  dr_file : exists err codes, sfiles e !! sf = Some (set_write_reqs [] (set_write_error err f)) /\ Forall2 write_flight pend codes /\ verdict codes err = res;
  dr_ok : Forall (flight_ok c) pend;
  dr_addrs : NoDup (map fl_addr pend);
  dr_moved : forall a, a ∈ moved e <-> a ∈ map fl_addr pend;
  dr_mine : forall a, a ∈ map fl_addr pend -> a ∈ mine }.

Lemma draining_step f mine res p pend e : draining f mine res (p :: pend) e ->
  exists d e', rq_end (fl_rq p) = Some d /\ end_func d (fl_addr p) (answered p) e = Ret e' /\ draining f mine res pend e'.
Proof using All.
  intros [(err & codes & Hfile & Hw & Hv) Hok Hnd Hm Hmine]. inversion Hw as [|? code ? codes' Hp Hw']; subst. exists (WriteEnd sf). eexists.
  apply Forall_cons in Hok as [Hok1 Hok]. cbn [map] in *. apply NoDup_cons in Hnd as [Hni Hnd]. split; [apply Hp|]. split.
  - cbn [end_func file_callbacks]. unfold sshfs_write_end, deref. rewrite Hfile. unfold mbind, outcome_bind.
    rewrite (write_end_status p code _ Hp Hok1). unfold upd_file, upd. by rewrite Hfile.
  - split; cbn [sfiles set_sfiles moved set_moved]; try done.
    + exists (verdict [code] err), codes'. rewrite lookup_insert_eq. split; [done|]. split; [done|]. by rewrite <- verdict_cons.
    + intros a. rewrite list_elem_of_filter, Hm. set_solver.
    + set_solver.
Qed.

(** The file is open and the writes [pend], which get the statuses [codes], are under way. *)
Record writing t (pend : list flight) (codes : list Z) (room : Z) : Prop := Writing {
  wr_flying : flying t c k pend tab reqs out;
  wr_file : exists f, sfiles (ext t) !! sf = Some f /\ sf_conn f = c /\ sf_connver f = connver k /\ holds (sf_handle f) h /\
              write_reqs f = map fl_addr pend /\ write_error f = 0;
  wr_codes : Forall2 write_flight (rev pend) codes;
  wr_moved : moved (ext t) = [];
  wr_ready : ready_for t lim room }.

Definition split_write (w : list ascii * Z) : list (Z * list ascii) := write_pieces (length w.1) (max_write fopts) w.1 w.2.
Definition good_write (w : list ascii * Z) : Prop := 0 <= w.2 /\ w.2 + Z.of_nat (length w.1) < 2 ^ 63 /\ Z.of_nat (length w.1) < 2 ^ 31.

Context (Hasync : sync_write fopts = false).

Lemma write_step t pend codes room w codes' : let ps := split_write w in writing t pend codes room -> good_write w ->
  length codes' = length ps -> Forall (fun code => 0 <= code < 2 ^ 32) codes' -> write_cost ps <= room -> idctr (ses t) + Z.of_nat (length ps) <= lim ->
  exists t' new, sshfs_write opts noise patience fopts w.1 w.2 (FiFile sf) t = Ret (Some (Z.of_nat (length w.1)), t') /\
    writing t' (new ++ pend) (codes ++ codes') (room - write_cost ps) /\ writes_sent ps codes' t t' new room.
Proof using All.
  intros ps [Hf (f & Hfile & Hconn & Hver & Hh & Hreqs & Herr) Hcodes Hm Hrf] (Ho & Hend & Hsz) Hlc Hck Hcost Hid.
  set (t1 := set_ext (set_modifver (i64 (modifver (ext t) + 1)) (ext t)) t).
  assert (ready_for t1 lim room) as Hrf1 by (destruct Hrf; by split).
  destruct (write_loop_sends (length w.1) t1 pend f w.1 w.2 room codes' (flying_ext _ _ _ _ _ _ _ _ Hf) Hfile Hconn Hh) as (t' & new & E & Hf' & Hext & Hs); try done.
  exists t', new. split; [|split; [|by destruct Hs; split]].
  - unfold sshfs_write, get_sshfs_file. rewrite (hbind_ret _ _ t sf t eq_refl).
    rewrite (hbind_ret _ _ _ _ _ (file_is_conn_ret sf c k tab reqs out t pend f Hf Hfile Hconn Hver)). cbn [negb].
    rewrite (hbind_ret _ _ t tt t1) by (unfold sshfs_inc_modifver; by rewrite (hbind_ret _ _ _ _ _ (lock_ret t (fly_unlocked _ _ _ _ _ _ _ Hf)))).
    rewrite (hbind_ret _ _ _ _ _ (file_at_ret sf f t1 Hfile)), Hasync, Herr. cbn [negb andb Z.eqb]. unfold sshfs_async_write. rewrite (hbind_ret _ _ _ _ _ E).
    cbn [Z.eqb negb]. by rewrite i32_of_nat.
  - split; [done| | |by rewrite Hext|apply Hs].
    + eexists. split; [rewrite Hext; cbn; apply lookup_insert_eq|]. cbn [sf_conn sf_connver sf_handle write_reqs write_error set_write_reqs].
      split_and!; try done. by rewrite map_app, Hreqs.
    + rewrite rev_app_distr. apply Forall2_app; [done|apply Hs].
Qed.

(** The program writes [ws] to the file, one after the other. *)
Fixpoint write_all (ws : list (list ascii * Z)) t : outcome (option (list Z) * cl) :=
  match ws with
  | [] => hret [] t
  | w :: ws => (let? n := sshfs_write opts noise patience fopts w.1 w.2 (FiFile sf) in let? l := write_all ws in hret (n :: l)) t
  end.
Definition all_pieces (ws : list (list ascii * Z)) : list (Z * list ascii) := flat_map split_write ws.

Lemma write_cost_app ps qs : write_cost (ps ++ qs) = write_cost ps + write_cost qs.
Proof using Type. unfold write_cost. clear. induction ps as [|w ps IH]; cbn [foldr app]; lia. Qed.

Lemma write_all_sends ws : forall t pend codes room codes', let ps := all_pieces ws in writing t pend codes room -> Forall good_write ws ->
  length codes' = length ps -> Forall (fun code => 0 <= code < 2 ^ 32) codes' -> write_cost ps <= room -> idctr (ses t) + Z.of_nat (length ps) <= lim ->
  exists t' new, write_all ws t = Ret (Some (map (fun w => Z.of_nat (length w.1)) ws), t') /\
    writing t' (new ++ pend) (codes ++ codes') (room - write_cost ps) /\ writes_sent ps codes' t t' new room.
Proof using All.
  induction ws as [|w ws IH]; intros t pend codes room codes' ps Hw Hg Hlc Hck Hcost Hid.
  - exists t, []. destruct codes'; [|done]. rewrite app_nil_r. split; [done|]. cbn [ps all_pieces flat_map write_cost foldr app map]. rewrite Z.sub_0_r.
    split; [done|]. destruct Hw. split; cbn [length numbered map concat write_cost foldr rev]; rewrite ?Z.sub_0_r, ?Z.add_0_r, ?app_nil_r; try done; constructor.
  - apply Forall_cons in Hg as [Hg1 Hg]. change ps with (split_write w ++ all_pieces ws) in *. rewrite write_cost_app in *. rewrite length_app in *.
    pose proof (write_cost_pos (split_write w)). pose proof (write_cost_pos (all_pieces ws)).
    rewrite <- (take_drop (length (split_write w)) codes') in Hck |- *. set (c1 := take _ codes') in *. set (c2 := drop _ codes') in *.
    assert (length c1 = length (split_write w) /\ length c2 = length (all_pieces ws)) as [Hl1 Hl2] by (unfold c1, c2; rewrite length_take, length_drop; lia).
    apply Forall_app in Hck as [Hck1 Hck2].
    destruct (write_step t pend codes room w c1) as (t1 & new1 & E1 & Hw1 & S1); try done; try lia.
    pose proof S1 as [A1 A2 A3 A4 A5 A6].
    destruct (IH t1 (new1 ++ pend) (codes ++ c1) (room - write_cost (split_write w)) c2) as (t2 & new2 & E2 & Hw2 & [B1 B2 B3 B4 B5 B6]); try done; try lia.
    exists t2, (new2 ++ new1). rewrite <- !app_assoc in *. split; [|split].
    + cbn [write_all]. by rewrite (hbind_ret _ _ _ _ _ E1), (hbind_ret _ _ _ _ _ E2).
    + replace (room - _) with (room - write_cost (split_write w) - write_cost (all_pieces ws)) by lia. done.
    + split; rewrite ?rev_app_distr, ?length_app.
      * rewrite write_cost_app. eapply ready_less; [exact B1|lia].
      * lia.
      * congruence.
      * rewrite B4, A4, A2, numbered_app, map_app, concat_app, <- app_assoc. done.
      * rewrite map_app, A5, B5, A2, numbered_app, map_app, Hl1. done.
      * by apply Forall2_app.
Qed.

(** [sshfs_flush] waits for the writes under way, whatever the order of the answers. *)
Lemma flush_waits t pend codes room msgs rest : writing t pend codes room -> msgs ≡ₚ map answer_of pend ->
  wire_in (os (ses t)) (rfd k) = concat msgs ++ rest -> (length pend <= patience)%nat ->
  exists t', sshfs_flush opts noise patience fopts (FiFile sf) t = Ret (Some (verdict codes 0), t') /\ writing t' [] [] room /\
    wire_in (os (ses t')) (rfd k) = rest /\ wire_out (os (ses t')) (wfd k) = wire_out (os (ses t)) (wfd k) /\ idctr (ses t') = idctr (ses t).
Proof using All.
  intros [Hf (f & Hfile & Hconn & Hver & Hh & Hreqs & Herr) Hcodes Hm Hrf] Hp Hin Hpat.
  destruct (Permutation_map_inv _ _ Hp) as (order & -> & Ho). pose proof (flying_perm _ _ _ _ _ _ _ _ Ho Hf) as Hfo.
  set (mine := write_reqs f). set (f1 := set_write_reqs [] f). set (e1 := set_sfiles (<[sf := f1]> (sfiles (ext t))) (ext t)).
  set (t1 := set_ext (set_moved (mine ++ moved e1) e1) t).
  destruct (Permutation_Forall2 (Permutation_trans (Permutation_sym (Permutation_rev pend)) Ho) Hcodes) as (codes' & Hpc & Hc').
  assert (draining f mine (verdict codes 0) order (ext t1)) as Hd.
  { split; [|apply Hfo|apply Hfo| |].
    - exists 0, codes'. split; [|split; [done|by apply verdict_perm]]. cbn. rewrite lookup_insert_eq. unfold f1. destruct f. cbn in *. by subst.
    - intros a. cbn [ext t1 set_ext moved set_moved e1 set_sfiles]. rewrite Hm, app_nil_r. unfold mine. by rewrite Hreqs, Ho.
    - intros a. unfold mine. by rewrite Hreqs, Ho. }
  assert (length order <= patience)%nat as Hlo by by rewrite <- Ho.
  set (cond := fun t0 : cl => bool_decide (Forall (fun a => a ∉ moved (ext t0)) mine)).
  destruct (wait_drains opts noise patience (draining f mine (verdict codes 0)) cond c k tab reqs out rest) with (fuel := patience) (pend := order) (t := t1)
    as (n & t2 & E2 & Hc2 & Hf2 & Hin2 & Hd2 & Q2); try done.
  { apply draining_step. }
  { intros t0 [_ _ _ Hm0 _]. apply bool_decide_eq_true. apply Forall_forall. intros a _. rewrite Hm0. apply not_elem_of_nil. }
  { by apply flying_ext. }
  apply bool_decide_eq_true in Hc2. rewrite Forall_forall in Hc2. destruct Hd2 as [(err & cs & Hfile2 & Hcs & Hv) _ _ Hm2 Hmine2].
  assert (drop n order = []) as Hnil.
  { destruct (drop n order) as [|p l] eqn:Ed; [done|]. destruct (Hc2 (fl_addr p)); [apply Hmine2|apply Hm2]; cbn [map]; by left. }
  rewrite Hnil in *. inversion Hcs; subst cs. change (verdict [] err) with err in Hv. destruct Q2 as [Q1 Q2 Q3 Q4].
  set (f2 := set_write_reqs [] (set_write_error err f)) in Hfile2. set (e3 := set_sfiles (<[sf := set_write_error 0 f2]> (sfiles (ext t2))) (ext t2)).
  assert (upd_file sf (set_write_reqs []) (ext t) = Ret e1) as U1 by (unfold upd_file, upd; by rewrite Hfile).
  assert (upd_file sf (set_write_error 0) (ext t2) = Ret e3) as U3 by (unfold upd_file, upd; by rewrite Hfile2).
  exists (set_ext e3 t2). split; [|split; [split|split_and!]]; try done.
  - unfold sshfs_flush, get_sshfs_file. rewrite (hbind_ret _ _ t sf t eq_refl).
    rewrite (hbind_ret _ _ _ _ _ (file_is_conn_ret sf c k tab reqs out t pend f Hf Hfile Hconn Hver)), Hasync. cbn [negb].
    rewrite (hbind_ret _ _ _ _ _ (lock_ret t (fly_unlocked _ _ _ _ _ _ _ Hf))), (hbind_ret _ _ _ _ _ (file_at_ret sf f t Hfile)).
    rewrite (hbind_ret _ _ _ _ _ (fupdate_ret _ t e1 U1)), (hbind_ret _ _ _ _ _ (fmodify_ret _ _)).
    change (set_ext _ (set_ext e1 t)) with t1. fold mine. rewrite Hconn, (pbind_ret _ _ _ _ _ E2). cbn [negb].
    rewrite (hbind_ret _ _ _ _ _ (file_at_ret sf f2 t2 Hfile2)), (hbind_ret _ _ _ _ _ (fupdate_ret _ t2 e3 U3)).
    cbn [write_error f2 set_write_reqs set_write_error]. by rewrite Hv.
  - by apply flying_ext.
  - exists (set_write_error 0 f2). split; [cbn; apply lookup_insert_eq|]. done.
  - cbn. destruct (moved (ext t2)) as [|a l] eqn:Em; [done|]. destruct (not_elem_of_nil a). apply Hm2. by left.
  - assert (ready_for t1 lim room) as Hrf1 by (destruct Hrf; by split).
    assert (ready_for t2 lim room) as [] by (apply (ready_after t1 t2 c k order n tab reqs out); try done; [by apply flying_ext|by rewrite Hnil]). by split.
Qed.

Definition bytes_at (w : list ascii * Z) : nat * list ascii := (Z.to_nat w.2, w.1).

(** The requests of every write carried out in some order. *)
Definition carried_out (ws : list (list ascii * Z)) (orders : list (list (Z * list ascii))) : Prop :=
  Forall2 (fun w ps => ps ≡ₚ split_write w) ws orders.

Lemma carried_out_writes ws orders F : Forall good_write ws -> carried_out ws orders -> writes F (map at_nat (concat orders)) = writes F (map bytes_at ws).
Proof using All.
  intros Hg Hc. revert F Hg. induction Hc as [|w ps ws orders Hp Hc IH]; intros F Hg; [done|]. apply Forall_cons in Hg as [(Ho & _) Hg].
  cbn [concat map]. unfold writes. rewrite map_app, fold_left_app. cbn [fold_left]. fold (writes F (map at_nat ps)).
  rewrite (pieces_any_order (max_write fopts) w.1 w.2 ps F) by (done || lia). by apply IH.
Qed.

(** C5: Writes reach the file, and [sshfs_flush] reports those that do not.  Let a program
    write [ws] to an open file, one after the other, and then flush it, and let the
    answers to the requests arrive in any order.  Then every
    [sshfs_write] returns the length of its buffer; the requests sent, those of a write carried out in
    any order, leave in the file what the writes say; [sshfs_flush] returns 0 when
    every status was success and -EIO when one was not, and no request is left and the
    file is as it was before.  The identifiers do not wrap around and the requests fit into the limit of
    outstanding bytes. *)
Theorem writes_reach_file t room ws codes msgs rest : let ps := all_pieces ws in
  writing t [] [] room -> Forall good_write ws -> length codes = length ps -> Forall (fun code => 0 <= code < 2 ^ 32) codes ->
  write_cost ps <= room -> idctr (ses t) + Z.of_nat (length ps) <= lim -> (length ps <= patience)%nat ->
  msgs ≡ₚ map (status_reply text) (numbered (idctr (ses t)) codes) -> wire_in (os (ses t)) (rfd k) = concat msgs ++ rest ->
  exists t1 t2, write_all ws t = Ret (Some (map (fun w => Z.of_nat (length w.1)) ws), t1) /\
    wire_out (os (ses t2)) (wfd k) = wire_out (os (ses t)) (wfd k) ++ concat (map (write_request h) (numbered (idctr (ses t)) ps)) /\
    (forall orders F, carried_out ws orders -> concat orders ≡ₚ ps /\ writes F (map at_nat (concat orders)) = writes F (map bytes_at ws)) /\
    sshfs_flush opts noise patience fopts (FiFile sf) t1 = Ret (Some (verdict codes 0), t2) /\
    writing t2 [] [] (room - write_cost ps) /\ wire_in (os (ses t2)) (rfd k) = rest.
Proof using All.
  intros ps Hw Hg Hlc Hck Hcost Hid Hpat Hmsgs Hin.
  destruct (write_all_sends ws t [] [] room codes) as (t1 & new & E1 & Hw1 & [A1 A2 A3 A4 A5 A6]); try done. rewrite app_nil_r in Hw1. cbn [app] in Hw1.
  assert (length new = length ps) as Hln by (rewrite <- length_rev, <- Hlc; by eapply Forall2_length).
  destruct (flush_waits t1 new codes (room - write_cost ps) msgs rest) as (t2 & E2 & Hw2 & Hi2 & Ho2 & _); try done; try lia.
  { rewrite Hmsgs, <- A5. apply Permutation_map, Permutation_sym, Permutation_rev. } { by rewrite A3. }
  exists t1, t2. split; [done|]. split; [by rewrite Ho2|]. split; [|done]. intros orders F Hc. split; [|by apply carried_out_writes].
  clear -Hc. unfold ps, all_pieces. induction Hc as [|w l ws ls Hp Hc IH]; [done|]. cbn [concat flat_map]. by rewrite Hp, IH.
Qed.
End Writing.

(** ** Witness *)

Module SftpWritesExample.
Import SftpBuf.SftpExample SftpConn.SftpConnExample SftpRequests.SftpRequestsExample SftpReads.SftpReadsExample.

(** Six bytes at 2 and three at 8; the server refuses the second request and answers
    in the opposite order. *)
Definition two_writes : list (list ascii * Z) := [(lit "abcdef", 2); (lit "xyz", 8)].
Definition three_codes : list Z := [0; 4; 0].
Definition three_answers : list (list ascii) := rev (map (status_reply (lit "text")) (numbered 7 three_codes)).
Definition before_write : client (session pipe) end_data (files unit) :=
  Client (Session [link] 7 (-1) (-1) None (lit "h") false false false false false 3 false plain_cfg 1 0
            (Pipe 4 [] (concat three_answers ++ lit "more")))
    ∅ ∅ 0 0 (2 ^ 32 - 1) false one_file.

Lemma before_write_writing : writing (lit "text") 1 (lit "hdl") 0 link ∅ ∅ 0 100 before_write [] [] 1000.
Proof.
  split; try done; [|exists some_file; split_and!; try done; split; [done|]; split; [done|by exists []]].
  split; try done; [|constructor|constructor]. split; [done|]. split; [done|]. by exists link.
Qed.

Lemma writes_reach_file_witness :
  exists t1 t2, write_all plain_opts 0 9 small_pieces 1 two_writes before_write = Ret (Some [6; 3], t1) /\
    sshfs_flush plain_opts 0 9 small_pieces (FiFile 1) t1 = Ret (Some (- EIO), t2).
Proof.
  destruct (writes_reach_file (W := pipe) (C := unit) plain_opts 0 9 small_pieces (lit "text") 1 (lit "hdl") 0 link ∅ ∅ 0 100
    ltac:(done) ltac:(done) ltac:(done) ltac:(done) before_write 1000 two_writes three_codes three_answers (lit "more")) as (t1 & t2 & E1 & _ & _ & E2 & _).
  1: apply before_write_writing.
  1, 3: repeat constructor; done.
  1, 2, 3, 4: first [by vm_compute | vm_compute; lia].
  1: symmetry; apply Permutation_rev.
  1: done.
  exists t1, t2. split; [exact E1|]. assert (verdict three_codes 0 = - EIO) as Hv by done. rewrite Hv in E2. exact E2.
Defined.
End SftpWritesExample.
