(* ===== verification/SftpDirs.v ===== *)
(** * Listing directories over an sftp connection (src/usfs_wrap/sshfs/sshfs_wrap.c)

    [sftp_readdir_sync] asks for the next entries until the server has no more;
    [sftp_readdir_async] keeps a window of requests under way, which grows from two to
    32, takes the answers in the order of the requests and gives up those that are
    still under way when the first one has met the end. *)

From Stdlib Require Import ZArith Lia Ascii String.
From stdpp Require Import base list gmap sets.
From S2P Require Import Prelude World Cache SftpBuf SftpConn SftpRequests SftpFiles SftpTransfers SftpReads.

Local Open Scope Z_scope.

Definition READDIR_START : Z := 2.
Definition READDIR_MAX : Z := 32.

(** An open directory.  It does not change until it is freed. *)
Record dir_handle := DirHandle { dh_buf : buffer; dh_conn : nat }.
(** What [filler] gets. *)
Definition entry : Type := list ascii * stat.

Definition add_dir_count (d : Z) (x : conn) : conn :=
  Conn (processing_thread_started x) (rfd x) (wfd x) (connver x) (req_count x) (i32 (dir_count x + d)) (file_count x).

Section Dirs.
Context `{Heap} {W C : Type} `{!Channel W} `{!Dialer W} `{!TableOrder} `{!OpenCache C}.
Context (opts : options) (noise : nat) (patience : nat) (fopts : file_options).
(** [NDEBUG], which turns assertions off. *)
Context (ndebug : bool).
#[local] Hint Extern 0 (Transport (session _)) => exact (session_transport opts noise) : typeclass_instances.
Abbreviation sshfs := (client (session W) end_data (files C)).
Abbreviation HP A := (prog sshfs (option A)).

Definition hassert (b : bool) : HP unit := if ndebug || b then hret tt else lift Exit.

Definition sftp_readdir_send (c : nat) (handle : buffer) : HP (Z * option Z) :=
  let? iov := lift (buf_to_iov handle) in
  sftp_request_send (reconnect opts) patience c SSH_FXP_READDIR [iov] None None SSH_FXP_NAME.

Definition sshfs_req_pending (req : Z) : HP bool :=
  let* r := req_get req in
  let* t := pget in
  hret (bool_decide (is_Some (reqtab t !! rq_id r))).

(** The inner loop: requests are sent until [max] are under way or one fails. *)
Fixpoint readdir_send_loop (fuel : nat) (c : nat) (handle : buffer) (err outstanding max : Z) (l : list Z) (done : bool) :
    HP (Z * Z * list Z * bool) :=
  if negb done && (outstanding <? max) then
    match fuel with
    | O => lift Undef
    | S fuel =>
        let? (tmperr, req) := sftp_readdir_send c handle in
        if negb (tmperr =? 0) then hret (tmperr, outstanding, l, true)
        else
          let? req := lift (deref req) in
          readdir_send_loop fuel c handle err (outstanding + 1) max (l ++ [req]) done
    end
  else hret (err, outstanding, l, done).

(** The request is not waited for if it is still under way: whether it still wants a
    reply. *)
Definition readdir_give_up (req : Z) : HP Z :=
  do? lock;
  let? pending := sshfs_req_pending req in
  do? hrun (if (pending : bool) then req_upd req (set_want_reply 0) else pret tt);
  let* r := req_get req in
  hret (want_reply r).

(** [fuel] bounds the rounds.  The result, what [filler] got, and the list at the end. *)
Fixpoint readdir_loop (fuel : nat) (c : nat) (handle : buffer) (err outstanding max : Z) (l : list Z) (done : bool) :
    HP (Z * list entry * list Z) :=
  if negb done || negb (outstanding =? 0) then
    match fuel with
    | O => lift Undef
    | S fuel =>
        let? (err, outstanding, l, done) := readdir_send_loop (Z.to_nat READDIR_MAX) c handle err outstanding max l done in
        if negb (outstanding =? 0) then
          match l with
          | [] => lift Undef
          | req :: l =>
              let outstanding := outstanding - 1 in
              let? want_reply := if (done : bool) then readdir_give_up req else hret 1 in
              if want_reply =? 0 then readdir_loop fuel c handle err outstanding max l done
              else
                let? (tmperr, name) := sftp_request_wait (reconnect opts) patience req SSH_FXP_READDIR SSH_FXP_NAME in
                let '(err, done) := if negb (tmperr =? 0) && negb done then (if tmperr =? MY_EOF then 0 else tmperr, true)
                                    else (err, done) in
                if negb done then
                  let? name := lift (deref name) in
                  let? s := sget in
                  let? (res, _) := lift (buf_get_entries (ids s) name) in
                  let max := if max <? READDIR_MAX then max + 1 else max in
                  let? (more, rest) := readdir_loop fuel c handle res.1 outstanding max l (negb (res.1 =? 0)) in
                  hret (more.1, res.2 ++ more.2, rest)
                else readdir_loop fuel c handle err outstanding max l done
          end
        else readdir_loop fuel c handle err outstanding max l done
    end
  else hret (err, [], l).

Definition sftp_readdir_async (rounds : nat) (c : nat) (handle : buffer) (offset : Z) : HP (Z * list entry) :=
  do? hassert (offset =? 0);
  let? (res, l) := readdir_loop rounds c handle 0 0 READDIR_START [] false in
  do? hassert (match l with [] => true | _ => false end);
  hret res.

Fixpoint readdir_sync_loop (fuel : nat) (c : nat) (handle : buffer) : HP (Z * list entry) :=
  match fuel with
  | O => lift Undef
  | S fuel =>
      let? (err, name) := request' opts noise patience c SSH_FXP_READDIR handle SSH_FXP_NAME in
      if negb (err =? 0) then hret (err, [])
      else
        let? name := lift (deref name) in
        let? s := sget in
        let? (res, _) := lift (buf_get_entries (ids s) name) in
        if negb (res.1 =? 0) then hret res
        else let? more := readdir_sync_loop fuel c handle in hret (more.1, res.2 ++ more.2)
  end.
Definition sftp_readdir_sync (rounds : nat) (c : nat) (handle : buffer) (offset : Z) : HP (Z * list entry) :=
  do? hassert (offset =? 0);
  let? res := readdir_sync_loop rounds c handle in
  hret (if res.1 =? MY_EOF then 0 else res.1, res.2).

(** The result and the handle, which stays with [fi]. *)
Definition sshfs_opendir (path : list ascii) : HP (Z * option dir_handle) :=
  let? c := get_conn None None in
  let? buf := lift (let! buf := buf_init 0 in add_path fopts buf path) in
  let? (err, outbuf) := request' opts noise patience c SSH_FXP_OPENDIR buf SSH_FXP_HANDLE in
  if negb (err =? 0) then hret (err, None)
  else
    let? outbuf := lift (deref outbuf) in
    do? lock;
    do? hrun (on_ses (conn_upd c (add_dir_count 1)));
    hret (0, Some (DirHandle (buf_finish outbuf) c)).

Definition sshfs_readdir (sync_readdir : bool) (rounds : nat) (offset : Z) (fi : dir_handle) : HP (Z * list entry) :=
  if sync_readdir then sftp_readdir_sync rounds (dh_conn fi) (dh_buf fi) offset
  else sftp_readdir_async rounds (dh_conn fi) (dh_buf fi) offset.

Definition sshfs_releasedir (fi : dir_handle) : HP Z :=
  let? (err, _) := request' opts noise patience (dh_conn fi) SSH_FXP_CLOSE (dh_buf fi) 0 in
  do? lock;
  do? hrun (on_ses (conn_upd (dh_conn fi) (add_dir_count (-1))));
  hret err.
End Dirs.

(** ** A directory *)

(** What a server answers to the request number [i] to read a directory that it sends
    in the parts [parts]; [text] is its message at the end. *)
Definition dir_answer (text : list ascii) (parts : list (list wire_entry)) (i : nat) : Z * list ascii :=
  match parts !! i with
  | Some es => (SSH_FXP_NAME, entries_bytes es)
  | None => (SSH_FXP_STATUS, be_bytes 4 SSH_FX_EOF ++ text)
  end.

(** ** Requests that are waited for in order *)

Lemma delete_first {A} (i : Z) (a : A) (l : list (Z * A)) (m : gmap Z A) : i ∉ l.*1 -> m !! i = None ->
  delete i (list_to_map ((i, a) :: l) ∪ m) = list_to_map l ∪ m.
Proof.
  intros Hl Hm. cbn [list_to_map foldr fst snd]. rewrite delete_union, delete_insert_eq, !delete_id; [done|done|by apply not_elem_of_list_to_map_1].
Qed.
Lemma update_first {A} (i : Z) (a b : A) (l : list (Z * A)) (m : gmap Z A) :
  <[i := b]> (list_to_map ((i, a) :: l) ∪ m) = list_to_map ((i, b) :: l) ∪ m.
Proof. cbn [list_to_map foldr fst snd]. by rewrite insert_union_l, insert_insert_eq. Qed.

(** Where a request of the listing is: sent, answered, or sent and no longer wanted. *)
Inductive status := Pending | Arrived | GivenUp.

Section Listing.
Context `{HeapLaws} `{!HeapPlenty} {W C : Type} `{Duplex W} `{!Dialer W} `{!TableOrder} `{!OpenCache C}.
Context (opts : options) (noise : nat) (patience : nat).
#[local] Hint Extern 0 (Transport (session _)) => exact (session_transport opts noise) : typeclass_instances.
Abbreviation cl := (client (session W) end_data (files C)).
Implicit Types (t : cl).

(** The session keeps its settings. *)
Lemma conn_upd_ids c f (s s' : session W) u : conn_upd c f s = Ret (u, s') -> ids s' = ids s.
Proof using Type. unfold conn_upd. destruct (conns s !! c); [|done]. intros E. by inversion E. Qed.
Lemma on_os_ids {A} (e : prog W A) (s s' : session W) a : on_os e s = Ret (a, s') -> ids s' = ids s.
Proof using Type. unfold on_os, pzoom. destruct (e (os s)) as [[? ?]| |]; intros E; by inversion E. Qed.
Lemma send_ids c type id iov (s s' : session W) r : send_iov c type id iov s = Ret (r, s') -> ids s' = ids s.
Proof using Type. unfold send_iov, conn_get, pbind. destruct (conns s !! c); [|done]. cbn. apply on_os_ids. Qed.
Lemma read_ids c (s s' : session W) r : read_msg c s = Ret (r, s') -> ids s' = ids s.
Proof using Type. unfold read_msg, conn_get, pbind. destruct (conns s !! c); [|done]. cbn. apply on_os_ids. Qed.

(** The directory [h] is read over connection [c].  The requests are numbered from 0; they
    have the addresses from [a0] and the identifiers from [id0] on, of which [lim] are free, and
    [ans] are the answers. *)
Context (h : list ascii) (c : nat) (k : conn) (tab : gmap Z Z) (reqs : gmap Z (request end_data)) (out mx a0 id0 : Z) (lim : nat) (cfg : sshfs_ids).
Context (ans : nat -> Z * list ascii).
Context (Hids : forall i, (i < lim)%nat -> tab !! (id0 + Z.of_nat i) = None) (Haddrs : forall i, (i < lim)%nat -> reqs !! (a0 + Z.of_nat i) = None).
Context (Hid0 : 0 <= id0) (Hlim : id0 + Z.of_nat lim < 2 ^ 32) (Hout : 0 <= out) (Hmx : out + 32 * (Z.of_nat (length h) + 9) <= mx < 2 ^ 32).
Context (Hans : forall i, 0 <= (ans i).1 < 256 /\ Z.of_nat (length (ans i).2) + 4 < MAX_REPLY_LEN).

Definition req_id (i : nat) : Z := id0 + Z.of_nat i.
Definition req_addr (i : nat) : Z := a0 + Z.of_nat i.
Definition asked (i : nat) : request end_data := new_req SSH_FXP_NAME (req_id i) None (length h) c.
Definition slot_req (x : nat * status) : request end_data :=
  match x.2 with
  | Pending => asked x.1
  | Arrived => post (set_reply (ans x.1).1 (answer_buf (req_id x.1) (ans x.1).2) (asked x.1))
  | GivenUp => set_want_reply 0 (asked x.1)
  end.
Definition in_table (x : nat * status) : bool := match x.2 with Arrived => false | _ => true end.
Definition answer (i : nat) : list ascii := message (ans i).1 (be_bytes 4 (req_id i) ++ (ans i).2).
Definition tabled (l : list (nat * status)) : list (nat * status) := List.filter in_table l.

(** [n] requests have been sent; those of [l] are still there. *)
Record asking t (l : list (nat * status)) (n : nat) : Prop := Asking {
  as_unlocked : locked t = false;
  as_live : live (ses t) c k;
  as_ids : ids (ses t) = cfg;
  as_tab : reqtab t = list_to_map (map (fun x => (req_id x.1, req_addr x.1)) (tabled l)) ∪ tab;
  as_reqs : requests t = list_to_map (map (fun x => (req_addr x.1, slot_req x)) l) ∪ reqs;
  as_len : outstanding_len t = out + Z.of_nat (length (tabled l)) * (Z.of_nat (length h) + 9);
  as_max : max_outstanding_len t = mx;
  as_room : outstanding_len t <= mx;
  as_nodup : NoDup (map fst l);
  as_sent : Forall (fun x => x.1 < n)%nat l;
  as_next : next_req t = req_addr n;
  as_id : idctr (ses t) = req_id n;
  as_lim : (n <= lim)%nat }.

Lemma tabled_perm l l' : l ≡ₚ l' -> tabled l ≡ₚ tabled l'.
Proof using Type.
  unfold tabled. induction 1 as [|x l l' _ IH|x y l|l1 l2 l3 _ IH1 _ IH2]; cbn [List.filter]; try done.
  - destruct (in_table x); by rewrite IH.
  - destruct (in_table x), (in_table y); done || apply Permutation_swap.
  - by rewrite IH1.
Qed.
Lemma tabled_fst l i : i ∈ map fst (tabled l) -> i ∈ map fst l.
Proof using Type.
  rewrite !list_elem_of_In, !in_map_iff. intros (x & <- & Hx). apply filter_In in Hx as [Hx _]. by exists x.
Qed.
Lemma tabled_nodup l : NoDup (map fst l) -> NoDup (map fst (tabled l)).
Proof using Type.
  induction l as [|x l IH]; [done|]. cbn [map tabled List.filter]. intros [Hx Hl]%NoDup_cons. fold (tabled l).
  destruct (in_table x); [|by apply IH]. cbn [map]. apply NoDup_cons. split; [|by apply IH]. intros Hin. by apply Hx, tabled_fst.
Qed.
Lemma keys_nodup (f : nat -> Z) `{!Inj (=) (=) f} (l : list (nat * status)) : NoDup (map fst l) -> NoDup (map (fun x => f x.1) l).
Proof using Type. intros Hl. rewrite <- (map_map fst f). by apply (NoDup_fmap_2 f). Qed.
#[local] Instance req_id_inj : Inj (=) (=) req_id.
Proof using Type. intros i j. unfold req_id. clear. lia. Qed.
#[local] Instance req_addr_inj : Inj (=) (=) req_addr.
Proof using Type. intros i j. unfold req_addr. clear. lia. Qed.

Lemma asking_perm t l l' n : l ≡ₚ l' -> asking t l n -> asking t l' n.
Proof using Type.
  intros Hp []. split; try done; try by rewrite <- Hp.
  - rewrite as_tab0. f_equal. apply list_to_map_proper; [|by apply Permutation_map, tabled_perm]. rewrite map_map.
    by apply (keys_nodup req_id), tabled_nodup.
  - rewrite as_reqs0. f_equal. apply list_to_map_proper; [|by apply Permutation_map]. rewrite map_map. by apply (keys_nodup req_addr).
  - rewrite as_len0. by rewrite (tabled_perm _ _ Hp).
Qed.

Lemma fst_map {A} (f : nat -> Z) (g : nat * status -> A) (l : list (nat * status)) i `{!Inj (=) (=) f} :
  i ∉ map fst l -> f i ∉ (map (fun x => (f x.1, g x)) l).*1.
Proof using Type.
  intros Hi Hin. apply Hi. apply list_elem_of_fmap in Hin as ([z a] & Hz & Hin). cbn in Hz. subst z.
  apply list_elem_of_In, in_map_iff in Hin as (x & [= Hf _] & Hin). apply (inj f) in Hf. subst i. apply list_elem_of_In, in_map. done.
Qed.
Lemma asking_get t x l n : asking t (x :: l) n -> requests t !! req_addr x.1 = Some (slot_req x).
Proof using Type. intros []. rewrite as_reqs0. apply lookup_union_Some_l. cbn. apply lookup_insert_eq. Qed.
Lemma asking_find t x l n : asking t (x :: l) n -> in_table x = true -> reqtab t !! req_id x.1 = Some (req_addr x.1).
Proof using Type.
  intros [] Hx. rewrite as_tab0. apply lookup_union_Some_l. unfold tabled. cbn [List.filter]. rewrite Hx. cbn. apply lookup_insert_eq.
Qed.

(** An answer arrives. *)
Lemma asking_arrives t i l n w : asking t ((i, Pending) :: l) n -> wire_in (os (ses t)) (rfd k) = answer i ++ w ->
  exists t', process_requests_step (reconnect opts) c t = Ret (tt, t') /\ asking t' ((i, Arrived) :: l) n /\
    wire_in (os (ses t')) (rfd k) = w /\ wire_out (os (ses t')) (wfd k) = wire_out (os (ses t)) (wfd k) /\ ext t' = ext t.
Proof using All.
  intros Ha Hin. pose proof (asking_get _ _ _ _ Ha) as Hr. pose proof (asking_find _ _ _ _ Ha eq_refl) as Ht. cbn [fst] in Hr, Ht. destruct Ha.
  apply Forall_cons in as_sent0 as [Hi Hsent]. cbn [map fst] in *. apply NoDup_cons in as_nodup0 as [Hi2 Hnd]. destruct (Hans i) as [Hty Hbody].
  change MAX_REPLY_LEN with 131072 in *.
  destruct (live_read (ses t) c k (ans i).1 (be_bytes 4 (req_id i) ++ (ans i).2) w as_live0) as (s1 & E1 & L1 & I1 & W1 & O1); try done.
  { rewrite length_app, length_be_bytes. change MAX_REPLY_LEN with 131072. lia. }
  unfold tabled in as_len0, as_tab0. cbn [List.filter in_table snd length map fst] in as_len0, as_tab0. fold (tabled l) in as_len0, as_tab0.
  eexists. split.
  { apply (answer_step (reconnect opts) patience t c (req_addr i) (asked i) (ans i).1 (ans i).2 s1); try done.
    - cbn. unfold req_id. lia.
    - change MAX_REPLY_LEN with 131072. lia. }
  split; [|done]. split; cbn [locked ses reqtab requests outstanding_len max_outstanding_len next_req]; try done.
  - rewrite <- as_ids0. by eapply read_ids.
  - rewrite as_tab0. apply delete_first; [|apply Hids; lia]. apply (fst_map req_id); [apply _|]. intros Hx. by apply Hi2, tabled_fst.
  - rewrite as_reqs0. apply update_first.
  - unfold tabled. cbn [List.filter in_table snd]. fold (tabled l). cbn [asked new_req rq_len]. rewrite (wrap_small 32); nia.
  - cbn [asked new_req rq_len]. rewrite (wrap_small 32); nia.
  - cbn [map fst]. by apply NoDup_cons.
  - by apply Forall_cons.
  - by rewrite I1.
Qed.

(** The answer that has arrived is taken. *)
Lemma asking_takes t i l n : asking t ((i, Arrived) :: l) n ->
  exists t', request_finish (req_addr i) SSH_FXP_READDIR SSH_FXP_NAME t =
      Ret (answer_result SSH_FXP_READDIR SSH_FXP_NAME (ans i).1 (ans i).2, t') /\ asking t' l n /\
    wire_in (os (ses t')) (rfd k) = wire_in (os (ses t)) (rfd k) /\ wire_out (os (ses t')) (wfd k) = wire_out (os (ses t)) (wfd k) /\ ext t' = ext t.
Proof using All.
  intros Ha. pose proof (asking_get _ _ _ _ Ha) as Hr. cbn [fst] in Hr. destruct Ha. set (r := slot_req (i, Arrived)) in *.
  apply Forall_cons in as_sent0 as [Hi Hsent]. cbn [map fst] in *. apply NoDup_cons in as_nodup0 as [Hi2 Hnd]. destruct (Hans i) as [Hty Hbody].
  destruct (live_count (ses t) c k (-1) as_live0) as (s1 & E1 & L1 & O1 & I1).
  assert (t_count (rq_conn r) (-1) (ses t) = Ret (tt, s1)) as E2 by exact E1.
  eexists. split.
  { apply (request_finish_ret (reconnect opts) patience t (req_addr i) r SSH_FXP_READDIR SSH_FXP_NAME (ans i).2 s1 Hr eq_refl eq_refl eq_refl ltac:(lia) E2). }
  cbn [ses set_requests set_ses]. rewrite O1. split; [|done].
  split; cbn [locked ses reqtab requests outstanding_len max_outstanding_len next_req set_requests set_ses]; try done.
  - rewrite <- as_ids0. by eapply conn_upd_ids.
  - rewrite as_reqs0. apply delete_first; [by apply (fst_map req_addr); [apply _|]|apply Haddrs; lia].
  - by rewrite I1.
Qed.

(** A request that is still under way is given up. *)
Lemma asking_gives_up t i l n : asking t ((i, Pending) :: l) n ->
  exists t', readdir_give_up (req_addr i) t = Ret (Some 0, t') /\ asking t' ((i, GivenUp) :: l) n /\
    wire_in (os (ses t')) (rfd k) = wire_in (os (ses t)) (rfd k) /\ wire_out (os (ses t')) (wfd k) = wire_out (os (ses t)) (wfd k) /\ ext t' = ext t.
Proof using All.
  intros Ha. pose proof (asking_get _ _ _ _ Ha) as Hr. pose proof (asking_find _ _ _ _ Ha eq_refl) as Ht. cbn [fst] in Hr, Ht. destruct Ha.
  set (t' := set_requests (<[req_addr i := set_want_reply 0 (asked i)]> (requests t)) t). exists t'. split.
  - unfold readdir_give_up. rewrite (hbind_ret _ _ _ _ _ (lock_ret t as_unlocked0)).
    rewrite (hbind_ret _ _ t true t) by (unfold sshfs_req_pending, pget; rewrite (pbind_ret _ _ _ (asked i) t) by (unfold req_get; by rewrite Hr);
      rewrite (pbind_ret _ _ _ t t eq_refl); cbn [rq_id asked new_req]; rewrite Ht; done).
    rewrite (hbind_ret _ _ t tt t') by (unfold hrun; rewrite (pbind_ret _ _ _ tt t'); [done|]; unfold req_upd; by rewrite Hr).
    rewrite (pbind_ret _ _ _ (set_want_reply 0 (asked i)) t'); [done|]. unfold req_get, t'. cbn [requests set_requests]. by rewrite lookup_insert_eq.
  - split; [|done]. split; try done.
    + cbn [requests t' set_requests]. rewrite as_reqs0. apply update_first.
    + by apply Forall_cons in as_sent0 as [? ?]; apply Forall_cons.
Qed.
Lemma give_up_arrived t i l n : asking t ((i, Arrived) :: l) n -> readdir_give_up (req_addr i) t = Ret (Some SSH_FXP_NAME, t).
Proof using All.
  intros Ha. pose proof (asking_get _ _ _ _ Ha) as Hr. cbn [fst] in Hr. destruct Ha. cbn [map fst] in as_nodup0. apply NoDup_cons in as_nodup0 as [Hi2 Hnd].
  apply Forall_cons in as_sent0 as [Hi _]. cbn [fst] in Hi. set (r := slot_req (i, Arrived)) in *.
  assert (req_get (req_addr i) t = Ret (r, t)) as Eg by (unfold req_get; by rewrite Hr).
  unfold readdir_give_up. rewrite (hbind_ret _ _ _ _ _ (lock_ret t as_unlocked0)). rewrite (hbind_ret _ _ t false t).
  - rewrite (hbind_ret _ _ t tt t eq_refl). by rewrite (pbind_ret _ _ _ _ _ Eg).
  - unfold sshfs_req_pending, pget. rewrite (pbind_ret _ _ _ _ _ Eg), (pbind_ret _ _ _ t t eq_refl). cbn [rq_id r slot_req snd post set_reply asked new_req fst].
    unfold tabled in as_tab0. cbn [List.filter in_table snd] in as_tab0. fold (tabled l) in as_tab0.
    assert (reqtab t !! req_id i = None) as ->; [|done]. rewrite as_tab0. apply lookup_union_None. split; [|apply Hids; lia].
    apply not_elem_of_list_to_map_1. apply (fst_map req_id); [apply _|]. intros Hx. by apply Hi2, tabled_fst.
Qed.

(** The next request is sent. *)
Lemma asking_sends t l n handle : asking t l n -> holds handle h -> (n < lim)%nat -> (length (tabled l) < 32)%nat ->
  exists t', sftp_readdir_send opts noise patience c handle t = Ret (Some (0, Some (req_addr n)), t') /\ asking t' ((n, Pending) :: l) (S n) /\
    wire_in (os (ses t')) (rfd k) = wire_in (os (ses t)) (rfd k) /\
    wire_out (os (ses t')) (wfd k) = wire_out (os (ses t)) (wfd k) ++ message SSH_FXP_READDIR (be_bytes 4 (req_id n) ++ h) /\ ext t' = ext t.
Proof using All.
  intros [] Hh Hn Hroom. assert (concat [h] = h) as Hcat by apply app_nil_r.
  assert (0 <= Z.of_nat (length (tabled l)) * (Z.of_nat (length h) + 9) <= 31 * (Z.of_nat (length h) + 9)) as Hl by (clear -Hroom; nia).
  destruct (live_count (set_idctr (u32 (idctr (ses t) + 1)) (ses t)) c k 1 as_live0) as (s1 & E1 & L1 & O1 & I1).
  destruct (live_send s1 c k SSH_FXP_READDIR (idctr (ses t)) [h] L1) as (s2 & E2 & L2 & I2 & O2 & W2); [cbn; lia|rewrite Hcat; lia|].
  rewrite O1 in O2, W2. rewrite I1 in I2. cbn [idctr set_idctr os] in *. unfold req_id in as_id0. rewrite (wrap_small 32) in I2 by lia.
  rewrite <- as_next0. eexists. split.
  { unfold sftp_readdir_send. rewrite (hbind_ret _ _ t h t) by (apply lift_ret; by apply load_holds).
    apply (request_send_ret (reconnect opts) patience t c SSH_FXP_READDIR SSH_FXP_NAME (idctr (ses t)) [h] None None (set_idctr (u32 (idctr (ses t) + 1)) (ses t)) s1 s1 s2); try done.
    - unfold fits. rewrite Hcat. lia.
    - by apply (live_start s1 c k). }
  rewrite Hcat in *. split; [|cbn [ses with_req]; by rewrite O2, as_id0]. split; cbn [locked ses reqtab requests outstanding_len max_outstanding_len next_req with_req]; try done.
  - rewrite <- as_ids0, (send_ids _ _ _ _ _ _ _ E2), (conn_upd_ids _ _ _ _ _ E1). done.
  - rewrite as_tab0, as_id0, as_next0. unfold tabled. cbn [List.filter in_table snd map fst list_to_map foldr]. fold (tabled l). by rewrite insert_union_l.
  - rewrite as_reqs0, as_id0, as_next0. cbn [map fst list_to_map foldr]. by rewrite insert_union_l.
  - unfold tabled. cbn [List.filter in_table snd length]. fold (tabled l). lia.
  - lia.
  - cbn [map fst]. apply NoDup_cons. split; [|done]. intros Hin. apply list_elem_of_In, in_map_iff in Hin as (x & <- & Hx).
    apply list_elem_of_In in Hx. rewrite Forall_forall in as_sent0. specialize (as_sent0 x Hx). lia.
  - apply Forall_cons. split; [cbn; lia|]. eapply Forall_impl; [exact as_sent0|]. cbn. intros x Hx. lia.
  - rewrite as_next0. unfold req_addr. lia.
  - rewrite I2. unfold req_id. lia.
Qed.

(** ** The order of the answers *)

(** The answers arrive in the order [ord].  A client that has taken the answers up to
    [i] has sent [sent i] requests when it waits for the next one, and no request is answered before it is sent. *)
Context (ord : list nat) (rest : list ascii) (sent : nat -> nat).
Definition causal : Prop := forall l1 j l2, ord = l1 ++ j :: l2 -> j ∉ l1 /\ forall i, i ∉ l1 -> (j < sent i)%nat.
Context (Hcausal : causal) (Hpat : (length ord <= patience)%nat).

Definition slot (seen : list nat) (j : nat) : nat * status := (j, if decide (j ∈ seen) then Arrived else Pending).
Definition slots (seen : list nat) (i m : nat) : list (nat * status) := map (slot seen) (seq i m).

(** The requests up to [i] have been taken, [n] have been sent and [seen] answered. *)
Record listing t (i n : nat) (seen left : list nat) : Prop := ListingAt {
  li_asking : asking t (slots seen i (n - i)) n;
  li_order : ord = seen ++ left;
  li_in : wire_in (os (ses t)) (rfd k) = concat (map answer left) ++ rest;
  li_taken : forall j, (j < i)%nat -> j ∈ seen;
  li_seen : forall j, j ∈ seen -> (j < n)%nat }.

Lemma slots_split seen i m j : (i <= j < i + m)%nat -> j ∉ seen -> exists others,
  slots seen i m ≡ₚ (j, Pending) :: others /\ slots (seen ++ [j]) i m ≡ₚ (j, Arrived) :: others.
Proof using Type.
  intros Hj Hn. clear -Hj Hn. exists (map (slot seen) (seq i (j - i) ++ seq (S j) (i + m - S j))).
  assert (seq i m = seq i (j - i) ++ j :: seq (S j) (i + m - S j)) as Hs.
  { replace m with ((j - i) + S (i + m - S j))%nat at 1 by lia. rewrite seq_app. cbn [seq]. by replace (i + (j - i))%nat with j by lia. }
  assert (forall l, Forall (fun x => x <> j) l -> map (slot (seen ++ [j])) l = map (slot seen) l) as Heq.
  { clear. induction 1 as [|x l Hx Hl IH]; [done|]. cbn [map]. rewrite IH. f_equal. unfold slot. f_equal.
    destruct (decide (x ∈ seen)), (decide (x ∈ seen ++ [j])); set_solver. }
  unfold slots. rewrite Hs, !map_app. cbn [map]. rewrite (Heq (seq i (j - i))), (Heq (seq (S j) _)) by (apply Forall_seq; intros; lia).
  assert (slot seen j = (j, Pending)) as -> by (unfold slot; by rewrite decide_False).
  assert (slot (seen ++ [j]) j = (j, Arrived)) as -> by (unfold slot; rewrite decide_True; set_solver). split; by rewrite Permutation_middle.
Qed.

(** The thread waits until the next request has been answered. *)
Lemma listing_waits i n fuel : n = sent i -> (i < n)%nat -> i ∈ ord -> forall left t seen, listing t i n seen left -> (length left <= fuel)%nat ->
  exists t' seen' left',
    wait_until (reconnect opts) fuel c (fun t => match requests t !! req_addr i with Some r => (0 <? ready r)%nat | None => false end) t = Ret (true, t') /\
    listing t' i n seen' left' /\ i ∈ seen' /\ wire_out (os (ses t')) (wfd k) = wire_out (os (ses t)) (wfd k) /\ ext t' = ext t.
Proof using All.
  intros Hs Hi Hord. set (cond := fun t => _).
  assert (forall t seen left, listing t i n seen left -> cond t = bool_decide (i ∈ seen)) as Hcond.
  { intros t seen left [Ha _ _ _ _]. unfold slots in Ha. replace (n - i)%nat with (S (n - S i)) in Ha by lia. cbn [seq map] in Ha.
    pose proof (asking_get _ _ _ _ Ha) as Hr. cbn [fst slot] in Hr. unfold cond. rewrite Hr. unfold slot. by case_bool_decide as Hx; case_decide. }
  induction fuel as [|fuel IH]; intros left t seen Hl Hf.
  all: pose proof (Hcond _ _ _ Hl) as Hc; pose proof Hl as [Ha Ho Hin Ht Hsn]; cbn [wait_until]; unfold pget;
    rewrite (pbind_ret _ _ _ t t eq_refl), (as_unlocked _ _ _ Ha), Hc; case_bool_decide as Hseen; [by exists t, seen, left|].
  { destruct left; [|cbn in Hf; lia]. rewrite app_nil_r in Ho. congruence. }
  destruct left as [|j left]; [rewrite app_nil_r in Ho; congruence|]. destruct (Hcausal seen j left Ho) as [Hj1 Hj2]. specialize (Hj2 i Hseen).
  assert (i <= j)%nat as Hij by (destruct (Nat.le_gt_cases i j); [done|]; destruct Hj1; by apply Ht).
  destruct (slots_split seen i (n - i) j) as (others & Hp1 & Hp2); [lia|done|]. cbn [map concat] in Hin. rewrite <- app_assoc in Hin.
  destruct (asking_arrives t j others n _ (asking_perm _ _ _ _ Hp1 Ha) Hin) as (t1 & E1 & Ha1 & Hin1 & Hout1 & Hext1).
  rewrite (pbind_ret _ _ _ _ _ E1). destruct (IH left t1 (seen ++ [j])) as (t' & seen' & left' & E' & Hl' & Hi' & Hout' & Hext'); [|cbn in Hf; lia|].
  - split; [by eapply asking_perm; [symmetry|]|by rewrite <- app_assoc|done| |].
    + intros x Hx. apply elem_of_app. left. by apply Ht.
    + intros x [Hx|Hx%list_elem_of_singleton]%elem_of_app; [by apply Hsn|by subst].
  - exists t', seen', left'. split; [done|]. split; [done|]. split; [done|]. split; congruence.
Qed.

(** ... and takes the answer. *)
Lemma listing_takes i n t seen left : n = sent i -> (i < n)%nat -> i ∈ ord -> listing t i n seen left ->
  exists t' seen' left', sftp_request_wait (reconnect opts) patience (req_addr i) SSH_FXP_READDIR SSH_FXP_NAME t =
      Ret (Some (answer_result SSH_FXP_READDIR SSH_FXP_NAME (ans i).1 (ans i).2), t') /\
    listing t' (S i) n seen' left' /\ wire_out (os (ses t')) (wfd k) = wire_out (os (ses t)) (wfd k) /\ ext t' = ext t.
Proof using All.
  intros Hs Hi Hord Hl. assert (length left <= patience)%nat as Hf by (rewrite (li_order _ _ _ _ _ Hl), length_app in Hpat; lia).
  destruct (listing_waits i n patience Hs Hi Hord left t seen Hl Hf) as (t1 & seen' & left' & E1 & [Ha1 Ho1 Hin1 Ht1 Hs1] & Hi1 & Hout1 & Hext1).
  assert (forall l m, (i < m)%nat -> slots l i (m - i) = slot l i :: slots l (S i) (m - S i)) as Hcons.
  { intros l m Hm. unfold slots. replace (m - i)%nat with (S (m - S i)) by lia. done. }
  rewrite Hcons in Ha1 by done. assert (slot seen' i = (i, Arrived)) as Hsl by (unfold slot; by rewrite decide_True). rewrite Hsl in Ha1.
  destruct (asking_takes _ _ _ _ Ha1) as (t2 & E2 & Ha2 & Hin2 & Hout2 & Hext2).
  exists t2, seen', left'. split; [|split; [|split; congruence]].
  - destruct Hl as [Ha _ _ _ _]. rewrite Hcons in Ha by done. pose proof (asking_get _ _ _ _ Ha) as Hr. cbn [fst slot] in Hr. set (r := slot_req (slot seen i)) in Hr.
    assert (rq_error r = 0 /\ rq_conn r = c) as [Herr Hcn] by (unfold r, slot; by case_decide).
    unfold sftp_request_wait, pget. rewrite (pbind_ret _ _ _ t t eq_refl), (pbind_ret _ _ _ r t) by (unfold req_get; by rewrite Hr).
    rewrite (as_unlocked _ _ _ Ha), Herr, Hcn. cbn [Z.eqb negb]. rewrite (pbind_ret _ _ _ _ _ E1). cbv iota. by rewrite (pbind_ret _ _ _ _ _ E2).
  - split; [done|done|congruence| |done]. intros j Hj. destruct (decide (j = i)) as [->|]; [done|]. apply Ht1. lia.
Qed.

Context (handle : buffer) (Hhandle : holds handle h).

Definition readdir_message (j : nat) : list ascii := message SSH_FXP_READDIR (be_bytes 4 (req_id j) ++ h).

Lemma tabled_length l : (length (tabled l) <= length l)%nat.
Proof using Type. apply filter_length_le. Qed.

(** A request more is under way. *)
Lemma listing_sends i n t seen left : listing t i n seen left -> (i <= n)%nat -> (n - i < 32)%nat -> (n < lim)%nat ->
  exists t', sftp_readdir_send opts noise patience c handle t = Ret (Some (0, Some (req_addr n)), t') /\ listing t' i (S n) seen left /\
    wire_out (os (ses t')) (wfd k) = wire_out (os (ses t)) (wfd k) ++ readdir_message n /\ ext t' = ext t.
Proof using All.
  intros [Ha Ho Hin Ht Hs] Hi Hn Hl. pose proof (tabled_length (slots seen i (n - i))) as Htl. unfold slots in Htl at 2. rewrite length_map, length_seq in Htl.
  destruct (asking_sends t _ n handle Ha Hhandle Hl) as (t' & E & Ha' & Hin' & Hout' & Hext'); [lia|].
  exists t'. split; [done|]. split; [|done]. split; [|done|by rewrite Hin'|done|intros j Hj; specialize (Hs j Hj); lia].
  eapply asking_perm; [|exact Ha']. unfold slots. replace (S n - i)%nat with ((n - i) + 1)%nat by lia. rewrite seq_app, map_app. cbn [seq map].
  replace (i + (n - i))%nat with n by lia. assert (slot seen n = (n, Pending)) as ->; [|by rewrite Permutation_app_comm].
  unfold slot. rewrite decide_False; [done|]. intros Hx. specialize (Hs n Hx). lia.
Qed.

(** The window is filled. *)
Lemma send_loop_fills i m err fuel : (m <= 32)%nat -> (i + m <= lim)%nat -> forall n t seen left, listing t i n seen left -> (i <= n)%nat -> (n <= i + m)%nat -> (i + m - n <= fuel)%nat ->
  exists t', readdir_send_loop opts noise patience fuel c handle err (Z.of_nat (n - i)) (Z.of_nat m) (map req_addr (seq i (n - i))) false t =
      Ret (Some (err, Z.of_nat m, map req_addr (seq i m), false), t') /\ listing t' i (i + m) seen left /\
    wire_out (os (ses t')) (wfd k) = wire_out (os (ses t)) (wfd k) ++ concat (map readdir_message (seq n (i + m - n))) /\ ext t' = ext t.
Proof using All.
  intros Hm Hlm. induction fuel as [|fuel IH]; intros n t seen left Hl Hi Hn Hf.
  all: destruct (decide (n = i + m)%nat) as [->|Hne].
  1, 3: exists t; cbn [readdir_send_loop negb andb]; replace (i + m - i)%nat with m by lia; rewrite Z.ltb_irrefl, Nat.sub_diag; cbn [seq map concat]; by rewrite app_nil_r.
  { lia. }
  destruct (listing_sends i n t seen left Hl) as (t1 & E1 & Hl1 & Ho1 & Hx1); [lia|lia|lia|].
  destruct (IH (S n) t1 seen left Hl1) as (t' & E' & Hl' & Ho' & Hx'); [lia|lia|lia|].
  exists t'. split; [|split; [done|split; [|congruence]]].
  - cbn [readdir_send_loop negb andb]. rewrite (proj2 (Z.ltb_lt _ _)) by lia. rewrite (hbind_ret _ _ _ _ _ E1). cbn [Z.eqb negb].
    rewrite (hbind_ret _ _ t1 (req_addr n) t1 eq_refl).
    replace (Z.of_nat (n - i) + 1) with (Z.of_nat (S n - i)) by lia. replace (map req_addr (seq i (n - i)) ++ [req_addr n]) with (map req_addr (seq i (S n - i))); [done|].
    replace (S n - i)%nat with ((n - i) + 1)%nat by lia. rewrite seq_app, map_app. cbn [seq map]. by replace (i + (n - i))%nat with n by lia.
  - rewrite Ho', Ho1, <- app_assoc. replace (i + m - n)%nat with (S (i + m - S n)) by lia. done.
Qed.

Lemma wait_arrived t i l n : asking t ((i, Arrived) :: l) n ->
  exists t' x, sftp_request_wait (reconnect opts) patience (req_addr i) SSH_FXP_READDIR SSH_FXP_NAME t = Ret (Some x, t') /\ asking t' l n /\
    wire_in (os (ses t')) (rfd k) = wire_in (os (ses t)) (rfd k) /\ wire_out (os (ses t')) (wfd k) = wire_out (os (ses t)) (wfd k) /\ ext t' = ext t.
Proof using All.
  intros Ha. pose proof (asking_get _ _ _ _ Ha) as Hr. cbn [fst] in Hr. set (r := slot_req (i, Arrived)) in *. pose proof (as_unlocked _ _ _ Ha) as Hlk.
  destruct (asking_takes _ _ _ _ Ha) as (t' & E & Ha' & Hrest). eexists t', _. split; [|done].
  unfold sftp_request_wait, pget. rewrite (pbind_ret _ _ _ t t eq_refl), (pbind_ret _ _ _ r t) by (unfold req_get; by rewrite Hr).
  rewrite Hlk. change (rq_error r) with 0. cbn [Z.eqb negb].
  rewrite (pbind_ret _ _ _ true t) by (destruct patience; cbn [wait_until]; unfold pget; rewrite (pbind_ret _ _ _ t t eq_refl), Hlk, Hr; done).
  cbv iota. by rewrite (pbind_ret _ _ _ _ _ E).
Qed.

Definition given_up (l : list nat) : list (nat * status) := map (fun j => (j, GivenUp)) l.
(** The requests of the window that have not been answered. *)
Definition unanswered (seen : list nat) (i m : nat) : list nat := filter (fun j => j ∉ seen) (seq i m).

(** At the end of the directory the requests under way are given up. *)
Lemma loop_gives_up seen n err mx' m : forall fuel i t gone, asking t (slots seen i m ++ gone) n -> (m < fuel)%nat ->
  exists t', readdir_loop opts noise patience fuel c handle err (Z.of_nat m) mx' (map req_addr (seq i m)) true t = Ret (Some (err, [], []), t') /\
    asking t' (gone ++ given_up (unanswered seen i m)) n /\
    wire_in (os (ses t')) (rfd k) = wire_in (os (ses t)) (rfd k) /\ wire_out (os (ses t')) (wfd k) = wire_out (os (ses t)) (wfd k) /\ ext t' = ext t.
Proof using All.
  induction m as [|m IH]; intros [|fuel] i t gone Ha Hf; try lia.
  - exists t. cbn. rewrite app_nil_r. done.
  - cbn [readdir_loop negb orb]. rewrite (proj2 (Z.eqb_neq _ 0)) by lia. cbn [negb].
    rewrite (hbind_ret _ _ t (err, Z.of_nat (S m), map req_addr (seq i (S m)), true) t) by done. cbv beta iota.
    rewrite (proj2 (Z.eqb_neq _ 0)) by lia. cbn [negb seq map]. replace (Z.of_nat (S m) - 1) with (Z.of_nat m) by lia.
    cbn [slots seq map app] in Ha. fold (slots seen (S i) m) in Ha. unfold unanswered. cbn [seq]. rewrite filter_cons. fold (unanswered seen (S i) m).
    unfold slot in Ha at 1. destruct (decide (i ∈ seen)) as [Hi|Hi].
    + rewrite decide_False by by intros []. rewrite (hbind_ret _ _ _ _ _ (give_up_arrived _ _ _ _ Ha)). cbn [Z.eqb SSH_FXP_NAME].
      destruct (wait_arrived _ _ _ _ Ha) as (t1 & [tmperr name] & E1 & Ha1 & Hi1 & Ho1 & Hx1). rewrite (hbind_ret _ _ _ _ _ E1).
      rewrite andb_false_r. cbn [negb]. destruct (IH fuel (S i) t1 gone Ha1) as (t' & E' & Ha' & Hi' & Ho' & Hx'); [lia|].
      exists t'. split; [done|]. split; [done|]. split_and!; congruence.
    + rewrite decide_True by done. destruct (asking_gives_up _ _ _ _ Ha) as (t1 & E1 & Ha1 & Hi1 & Ho1 & Hx1). rewrite (hbind_ret _ _ _ _ _ E1). cbn [Z.eqb].
      destruct (IH fuel (S i) t1 (gone ++ [(i, GivenUp)])) as (t' & E' & Ha' & Hi' & Ho' & Hx').
      { eapply asking_perm; [|exact Ha1]. rewrite Permutation_middle, (Permutation_app_comm gone). done. } { lia. }
      exists t'. split; [done|]. split; [|split_and!; congruence]. rewrite <- app_assoc in Ha'. done.
Qed.

Context (parts : list (list wire_entry)) (text : list ascii) (Hparts : forall i, ans i = dir_answer text parts i).
Context (Hmap : idmap_file cfg = false) (Hblk : blksize cfg = 4096) (Hentries : Forall (Forall entry_ok) parts).
Context (Hord : forall i, (i <= length parts)%nat -> i ∈ ord) (Hsl : (sent (length parts) <= lim)%nat).

Definition shown (l : list (list wire_entry)) : list entry := concat (map (map (entry_shown cfg)) l).

(** The directory has been read. *)
Record listed t t' (n : nat) : Prop := Listed {
  ld_left : exists seen left, ord = seen ++ left /\ wire_in (os (ses t')) (rfd k) = concat (map answer left) ++ rest /\
    asking t' (given_up (unanswered seen (S (length parts)) (sent (length parts) - S (length parts)))) (sent (length parts));
  ld_out : wire_out (os (ses t')) (wfd k) = wire_out (os (ses t)) (wfd k) ++ concat (map readdir_message (seq n (sent (length parts) - n)));
  ld_ext : ext t' = ext t }.

Lemma part_result i es : parts !! i = Some es ->
  answer_result SSH_FXP_READDIR SSH_FXP_NAME (ans i).1 (ans i).2 = (0, Some (reply_at (entries_bytes es) 0)).
Proof using Hparts.
  intros E. rewrite Hparts. unfold dir_answer. rewrite E. cbn [fst snd]. unfold answer_result. cbn [Z.eqb SSH_FXP_NAME SSH_FXP_STATUS Pos.eqb negb andb].
  unfold entries_bytes. pose proof (length_be_bytes 4 (Z.of_nat (length es))) as Hl. by destruct (be_bytes 4 (Z.of_nat (length es))).
Qed.
Lemma end_result i : (length parts <= i)%nat -> answer_result SSH_FXP_READDIR SSH_FXP_NAME (ans i).1 (ans i).2 = (MY_EOF, None).
Proof using Hparts. intros E. rewrite Hparts. unfold dir_answer. by rewrite lookup_ge_None_2. Qed.

Lemma part_decoded i es : parts !! i = Some es ->
  buf_get_entries cfg (reply_at (entries_bytes es) 0) = Ret ((0, map (entry_shown cfg) es), reply_at (entries_bytes es) (length (entries_bytes es))).
Proof using All.
  intros E. apply entries_decoded; try done; [by eapply Forall_lookup_1|]. destruct (Hans i) as [_ Hl]. rewrite Hparts in Hl. unfold dir_answer in Hl.
  rewrite E in Hl. change MAX_REPLY_LEN with 131072 in Hl. cbn [snd] in Hl. lia.
Qed.
Lemma shown_drop i es : parts !! i = Some es -> shown (drop i parts) = map (entry_shown cfg) es ++ shown (drop (S i) parts).
Proof using Type. intros E. by rewrite (drop_S _ _ _ E). Qed.

Definition window (i : nat) : nat := Nat.min (2 + i) 32.

Section Async.
Context (Hsent : forall i, sent i = (i + window i)%nat).

Lemma async_loop d : forall i n t seen left fuel, (d = length parts - i)%nat -> (i <= length parts)%nat -> listing t i n seen left ->
  (i <= n <= sent i)%nat -> (d + 33 < fuel)%nat ->
  exists t', readdir_loop opts noise patience fuel c handle 0 (Z.of_nat (n - i)) (Z.of_nat (window i)) (map req_addr (seq i (n - i))) false t =
      Ret (Some (0, shown (drop i parts), []), t') /\ listed t t' n.
Proof using All.
  induction d as [|d IH]; intros i n t seen left [|fuel] Hd Hi Hl Hn Hf; try lia.
  all: assert (2 <= window i <= 32)%nat as Hw by (unfold window; lia); pose proof (Hsent i) as Hsi; assert (sent i <= sent (length parts))%nat as Hsm by (rewrite !Hsent; unfold window; lia).
  all: destruct (send_loop_fills i (window i) 0 (Z.to_nat READDIR_MAX) ltac:(lia) ltac:(lia) n t seen left Hl ltac:(lia) ltac:(lia) ltac:(unfold READDIR_MAX; lia)) as (t1 & E1 & Hl1 & Ho1 & Hx1).
  all: cbn [readdir_loop negb orb]; rewrite (hbind_ret _ _ _ _ _ E1); cbv beta iota; rewrite (proj2 (Z.eqb_neq _ 0)) by lia; cbn [negb].
  all: replace (seq i (window i)) with (i :: seq (S i) (window i - 1)) by (by replace (window i) with (S (window i - 1)) at 2 by lia); cbn [map].
  all: rewrite (hbind_ret _ _ t1 1 t1 eq_refl); cbn [Z.eqb]; rewrite <- Hsi in Hl1.
  all: destruct (listing_takes i (sent i) t1 seen left eq_refl ltac:(lia) (Hord i Hi) Hl1) as (t2 & seen2 & left2 & E2 & Hl2 & Ho2 & Hx2).
  all: rewrite (hbind_ret _ _ _ _ _ E2); replace (Z.of_nat (window i) - 1) with (Z.of_nat (window i - 1)) by lia.
  - rewrite end_result by lia. cbn [Z.eqb MY_EOF negb andb Pos.eqb]. destruct Hl2 as [Ha2 Hor2 Hin2 _ _].
    assert (i = length parts) as -> by lia. rewrite drop_all.
    replace (sent (length parts) - S (length parts))%nat with (window (length parts) - 1)%nat in Ha2 by lia. rewrite <- (app_nil_r (slots _ _ _)) in Ha2.
    destruct (loop_gives_up seen2 _ 0 (Z.of_nat (window (length parts))) _ fuel _ t2 [] Ha2) as (t3 & E3 & Ha3 & Hin3 & Ho3 & Hx3); [lia|].
    exists t3. split; [done|]. split; [|rewrite Ho3, Ho2, Ho1, Hsent; done|congruence]. exists seen2, left2. split; [done|]. split; [congruence|].
    by replace (sent (length parts) - S (length parts))%nat with (window (length parts) - 1)%nat by lia.
  - destruct (lookup_lt_is_Some_2 parts i) as [es Hes]; [lia|]. rewrite (part_result i es Hes). cbn [Z.eqb negb andb].
    rewrite (hbind_ret _ _ t2 (reply_at (entries_bytes es) 0) t2 eq_refl), (hbind_ret _ _ t2 (ses t2) t2 eq_refl).
    rewrite (as_ids _ _ _ (li_asking _ _ _ _ _ Hl2)), (hbind_ret _ _ t2 _ t2 (lift_ret _ _ t2 (part_decoded i es Hes))). cbn [fst snd Z.eqb negb].
    replace (if Z.of_nat (window i) <? READDIR_MAX then Z.of_nat (window i) + 1 else Z.of_nat (window i)) with (Z.of_nat (window (S i)))
      by (unfold READDIR_MAX, window; destruct (Z.ltb_spec (Z.of_nat (Nat.min (2 + i) 32)) 32); lia).
    replace (window i - 1)%nat with (sent i - S i)%nat by lia.
    destruct (IH (S i) (sent i) t2 seen2 left2 fuel) as (t3 & E3 & [L1 L2 L3]); [lia|lia|done|rewrite (Hsent (S i)); unfold window in *; lia|lia|].
    exists t3. rewrite (hbind_ret _ _ _ _ _ E3). cbn [fst snd]. rewrite (shown_drop i es Hes). split; [done|].
    split; [done| |congruence]. rewrite L2, Ho2, Ho1, <- app_assoc, <- concat_app, <- map_app. do 3 f_equal.
    replace (sent (length parts) - n)%nat with ((i + window i - n) + (sent (length parts) - sent i))%nat by lia. rewrite seq_app. do 2 f_equal; lia.
Qed.
End Async.

Section Sync.
Context (Hsent : forall i, sent i = S i).

(** One request and its answer. *)
Lemma sync_request i t seen left : (i <= length parts)%nat -> listing t i i seen left ->
  exists t' seen' left', request' opts noise patience c SSH_FXP_READDIR handle SSH_FXP_NAME t =
      Ret (Some (answer_result SSH_FXP_READDIR SSH_FXP_NAME (ans i).1 (ans i).2), t') /\
    listing t' (S i) (S i) seen' left' /\ wire_out (os (ses t')) (wfd k) = wire_out (os (ses t)) (wfd k) ++ readdir_message i /\ ext t' = ext t.
Proof using All.
  intros Hi Hl. assert (S i <= lim)%nat as Hlm by (rewrite Hsent in Hsl; lia).
  destruct (listing_sends i i t seen left Hl) as (t1 & E1 & Hl1 & Ho1 & Hx1); [lia|lia|lia|].
  destruct (listing_takes i (S i) t1 seen left (eq_sym (Hsent i)) ltac:(lia) (Hord i Hi) Hl1) as (t2 & seen2 & left2 & E2 & Hl2 & Ho2 & Hx2).
  exists t2, seen2, left2. split; [|split; [done|split; [by rewrite Ho2|congruence]]].
  unfold sftp_readdir_send in E1. rewrite (hbind_ret _ _ t h t) in E1 by (apply lift_ret; by apply load_holds).
  unfold request', sftp_request, plift. rewrite (load_holds handle h Hhandle), (pbind_ret _ _ _ h t eq_refl). unfold sftp_request_iov.
  rewrite (pbind_ret _ _ _ _ _ E1). cbn [Z.eqb SSH_FXP_NAME]. by rewrite (pbind_ret _ _ _ (req_addr i) t1 eq_refl).
Qed.

Lemma sync_loop d : forall i t seen left fuel, (d = length parts - i)%nat -> (i <= length parts)%nat -> listing t i i seen left -> (d < fuel)%nat ->
  exists t', readdir_sync_loop opts noise patience fuel c handle t = Ret (Some (MY_EOF, shown (drop i parts)), t') /\ listed t t' i.
Proof using All.
  induction d as [|d IH]; intros i t seen left [|fuel] Hd Hi Hl Hf; try lia.
  all: destruct (sync_request i t seen left Hi Hl) as (t1 & seen1 & left1 & E1 & Hl1 & Ho1 & Hx1).
  all: cbn [readdir_sync_loop]; rewrite (hbind_ret _ _ _ _ _ E1).
  - rewrite end_result by lia. cbn [Z.eqb MY_EOF negb]. assert (i = length parts) as -> by lia. rewrite drop_all. exists t1. split; [done|]. destruct Hl1 as [Ha1 Hor1 Hin1 _ _].
    split; [|rewrite Ho1, Hsent; replace (S (length parts) - length parts)%nat with 1%nat by lia; cbn [seq map concat]; by rewrite app_nil_r|done].
    exists seen1, left1. split; [done|]. split; [done|]. rewrite Hsent in *. by rewrite Nat.sub_diag in *.
  - destruct (lookup_lt_is_Some_2 parts i) as [es Hes]; [lia|]. rewrite (part_result i es Hes). cbn [Z.eqb negb].
    rewrite (hbind_ret _ _ t1 (reply_at (entries_bytes es) 0) t1 eq_refl), (hbind_ret _ _ t1 (ses t1) t1 eq_refl).
    rewrite (as_ids _ _ _ (li_asking _ _ _ _ _ Hl1)), (hbind_ret _ _ t1 _ t1 (lift_ret _ _ t1 (part_decoded i es Hes))). cbn [fst snd Z.eqb negb].
    destruct (IH (S i) t1 seen1 left1 fuel) as (t2 & E2 & [L1 L2 L3]); [lia|lia|done|lia|].
    exists t2. rewrite (hbind_ret _ _ _ _ _ E2). rewrite (shown_drop i es Hes). split; [done|]. split; [done| |congruence].
    rewrite L2, Ho1, Hsent. replace (S (length parts) - i)%nat with (S (S (length parts) - S i)) by lia. cbn [seq map concat]. by rewrite <- app_assoc.
Qed.
End Sync.

Definition sent_before (sync : bool) (i : nat) : nat := if sync then S i else (i + window i)%nat.

(** Nothing of the listing has been asked for yet. *)
Lemma listing_starts t : asking t [] 0 -> wire_in (os (ses t)) (rfd k) = concat (map answer ord) ++ rest -> listing t 0 0 [] ord.
Proof using Type. intros Ha Hin. split; try done; intros j Hj; [by apply Nat.nlt_0_r in Hj|by apply not_elem_of_nil in Hj]. Qed.

(** C23: Listing a directory gives all of its entries.  A server sends the directory in
    [parts], one for each request, and a status at the end to all further requests.  The
    answers arrive in any order in which no request is answered before it is
    sent.  Then [sshfs_readdir], asking for one part at a time or with a window that
    grows from two to 32 requests, returns 0 and has given the caller all the entries, in the
    order of the server; it has sent the requests that the window allows, no more than
    32 at a time, and what is left of them is the requests behind the end that have
    not been answered, which nobody waits for. *)
Theorem readdir_lists_all ndebug sync rounds t : (forall i, sent i = sent_before sync i) ->
  asking t [] 0 -> wire_in (os (ses t)) (rfd k) = concat (map answer ord) ++ rest -> (length parts + 35 <= rounds)%nat ->
  exists t', sshfs_readdir opts noise patience ndebug sync rounds 0 (DirHandle handle c) t = Ret (Some (0, shown parts), t') /\ listed t t' 0.
Proof using All.
  intros Hsent Ha Hin Hr. pose proof (listing_starts t Ha Hin) as Hl. unfold sshfs_readdir. cbn [dh_conn dh_buf]. destruct sync.
  - destruct (sync_loop Hsent (length parts) 0 t [] ord rounds) as (t' & E & Hld); [lia|lia|done|lia|]. exists t'. split; [|done].
    unfold sftp_readdir_sync. rewrite (hbind_ret _ _ t tt t) by (unfold hassert; by destruct ndebug). by rewrite (hbind_ret _ _ _ _ _ E).
  - destruct (async_loop Hsent (length parts) 0 0 t [] ord rounds) as (t' & E & Hld); [lia|lia|done|lia|lia|]. exists t'. split; [|done].
    unfold sftp_readdir_async. rewrite (hbind_ret _ _ t tt t) by (unfold hassert; by destruct ndebug). change READDIR_START with (Z.of_nat (window 0)).
    rewrite (hbind_ret _ _ _ _ _ E). rewrite (hbind_ret _ _ t' tt t') by (unfold hassert; by destruct ndebug). done.
Qed.
End Listing.

(** ** Witness *)

Module SftpDirsExample.
Import SftpBuf.SftpExample SftpConn.SftpConnExample SftpRequests.SftpRequestsExample SftpReads.SftpReadsExample.

(** Two entries in the first part and one in the second; the answers to six requests
    arrive out of order, two of them after the end. *)
Definition two_parts : list (list wire_entry) :=
  [SftpExample.listing; [WireEntry (lit "b") (lit "") (WireAttrs None None (Some 33188) None None)]].
Definition arrivals : list nat := [1; 0; 3; 2]%nat.
Definition dir_ans : nat -> Z * list ascii := dir_answer (lit "end") two_parts.
Definition before_list : client (session pipe) end_data (files unit) :=
  Client (Session [link] 7 (-1) (-1) None (lit "h") false false false false false 3 false plain_cfg 1 0
            (Pipe 4 [] (concat (map (answer 7 dir_ans) arrivals) ++ lit "more")))
    ∅ ∅ 0 0 (2 ^ 32 - 1) false one_file.

Lemma arrivals_causal : causal arrivals (sent_before false).
Proof.
  intros l1 j l2 E. unfold sent_before, window. unfold arrivals in E.
  destruct l1 as [|x1 [|x2 [|x3 [|x4 l1]]]]; cbn in E; simplify_eq; try (by destruct l1);
    (split; [rewrite ?not_elem_of_cons; split_and?; (lia || apply not_elem_of_nil)|]); intros i Hi; rewrite ?not_elem_of_cons in Hi; lia.
Qed.
Lemma dir_ans_ok i : 0 <= (dir_ans i).1 < 256 /\ Z.of_nat (length (dir_ans i).2) + 4 < MAX_REPLY_LEN.
Proof. by destruct i as [|[|i]]. Qed.
Lemma two_parts_ok : Forall (Forall entry_ok) two_parts.
Proof. repeat constructor; cbn [field_ok e_name]; try (cbn; lia); by apply (bool_decide_eq_true_1 (nul ∉ _)). Qed.

Lemma readdir_lists_all_witness :
  exists t', sshfs_readdir plain_opts 0 9 false false 40 0 (DirHandle (sf_handle some_file) 0) before_list =
    Ret (Some (0, shown plain_cfg two_parts), t').
Proof.
  destruct (readdir_lists_all (W := pipe) (C := unit) plain_opts 0 9 (lit "hdl") 0 link ∅ ∅ 0 (2 ^ 32 - 1) 0 7 6 plain_cfg dir_ans
    ltac:(done) ltac:(done) ltac:(done) ltac:(done) ltac:(done) ltac:(done) dir_ans_ok arrivals (lit "more") (sent_before false) arrivals_causal ltac:(cbn; lia)
    (sf_handle some_file) ltac:(split; [done|]; split; [done|by exists []]) two_parts (lit "end") ltac:(done) eq_refl eq_refl two_parts_ok
    ltac:(intros i Hi; cbn in Hi; destruct i as [|[|[|i]]]; [by apply (bool_decide_eq_true_1 (_ ∈ arrivals))..|lia]) ltac:(cbn; lia) false false 40 before_list) as (t' & E & _).
  - done.
  - split; try done; [|apply NoDup_nil_2|cbn; lia]. split; [done|]. split; [done|]. by exists link.
  - done.
  - cbn. lia.
  - exists t'. exact E.
Defined.
End SftpDirsExample.
