(* ===== verification/SftpOptions.v ===== *)
(** * Starting the sftp client (src/usfs_wrap/sshfs/sshfs_wrap.c)

    The options of the client, the files that map user and group names, the password, the
    command that starts ssh, and [usfs_init], which puts them together and connects.
    The option parser of libfuse, the user database and the files are classes. *)

From Stdlib Require Import ZArith Lia Ascii String.
From stdpp Require Import base list gmap pretty.
From S2P Require Import Prelude World Cache SftpBuf SftpConn SftpFiles.

Local Open Scope Z_scope.

(** ** Recognising options *)

(** A comma is missing after "PubkeyAcceptedKeyTypes". *)
Definition ssh_opts : list (list ascii) := map lit
  ["AddressFamily"; "BatchMode"; "BindAddress"; "BindInterface"; "CertificateFile"; "ChallengeResponseAuthentication";
   "CheckHostIP"; "Cipher"; "Ciphers"; "Compression"; "CompressionLevel"; "ConnectionAttempts"; "ConnectTimeout";
   "ControlMaster"; "ControlPath"; "ControlPersist"; "FingerprintHash"; "GlobalKnownHostsFile"; "GSSAPIAuthentication";
   "GSSAPIDelegateCredentials"; "HostbasedAuthentication"; "HostbasedKeyTypes"; "HostKeyAlgorithms"; "HostKeyAlias";
   "HostName"; "IdentitiesOnly"; "IdentityFile"; "IdentityAgent"; "IPQoS"; "KbdInteractiveAuthentication";
   "KbdInteractiveDevices"; "KexAlgorithms"; "LocalCommand"; "LogLevel"; "MACs"; "NoHostAuthenticationForLocalhost";
   "NumberOfPasswordPrompts"; "PasswordAuthentication"; "PermitLocalCommand"; "PKCS11Provider"; "Port";
   "PreferredAuthentications"; "ProxyCommand"; "ProxyJump"; "ProxyUseFdpass";
   "PubkeyAcceptedKeyTypesPubkeyAuthentication"; "RekeyLimit"; "RevokedHostKeys"; "RhostsRSAAuthentication";
   "RSAAuthentication"; "ServerAliveCountMax"; "ServerAliveInterval"; "SmartcardDevice"; "StrictHostKeyChecking";
   "TCPKeepAlive"; "UpdateHostKeys"; "UsePrivilegedPort"; "UserKnownHostsFile"; "VerifyHostKeyDNS"; "VisualHostKey"]%string.

(** <ctype.h> [tolower] *)
Definition tolower (c : ascii) : ascii :=
  let n := nat_of_ascii c in if ((65 <=? n) && (n <=? 90))%nat then ascii_of_nat (n + 32) else c.
(** [strncasecmp (a, b, n) == 0] for strings of at least [n] bytes *)
Definition same_letters (a b : list ascii) (n : nat) : bool :=
  bool_decide (map tolower (take n a) = map tolower (take n b)).

Definition is_ssh_opt (arg : list ascii) : bool :=
  if bool_decide (arg !! 0%nat = Some "-"%char) then false
  else existsb (fun o => (u32 (Z.of_nat (length arg)) >? u32 (Z.of_nat (length o))) &&
                         bool_decide (arg !! length o = Some "="%char) && same_letters arg o (length o)) ssh_opts.

(** [sscanf (arg, "/dev/fd/%u%n", ..)] takes the whole of [arg]. *)
Definition is_dev_fd (arg : list ascii) : bool :=
  prefixb (lit "/dev/fd/") arg &&
  let rest := (span isspace (drop 8 arg)).2 in
  let rest := match rest with c :: rest' => if Ascii.eqb c "+"%char || Ascii.eqb c "-"%char then rest' else rest | [] => [] end in
  negb (bool_decide (rest = [])) && forallb isdigit rest.

(** ** Settings *)

Inductive idmap_kind := IDMAP_NONE | IDMAP_USER | IDMAP_FILE.
Inductive opt_key := FUSE_OPT_KEY_OPT | FUSE_OPT_KEY_NONOPT | KEY_PORT | KEY_COMPRESS | KEY_CONFIGFILE | KEY_OTHER.
(** The tables of options that are parsed. *)
Inductive opt_table := SshfsOpts | WorkaroundOpts | CacheOpts.

(** The part of [struct sshfs] that only the parser changes after [usfs_init] has set
    its defaults. *)
Record flags := Flags {
  fl_directport : option (list ascii); fl_ssh_command : option (list ascii); fl_sftp_server : option (list ascii);
  fl_workarounds : option (list ascii); fl_uid_file : option (list ascii); fl_gid_file : option (list ascii);
  fl_rename_workaround : bool; fl_renamexdev_workaround : bool; fl_truncate_workaround : bool; fl_buflimit_workaround : bool;
  fl_fstat_workaround : bool; fl_createmode_workaround : bool; fl_transform_symlinks : bool; fl_follow_symlinks : bool;
  fl_no_check_root : bool; fl_idmap : idmap_kind; fl_nomap : nomap_kind; fl_disable_hardlink : bool; fl_dir_cache : bool;
  fl_show_version : bool; fl_show_help : bool; fl_ssh_ver : Z; fl_sync_write : bool; fl_sync_read : bool; fl_sync_readdir : bool;
  fl_debug : bool; fl_reconnect : bool; fl_delay_connect : bool; fl_passive : bool; fl_max_conns : Z; fl_password_stdin : bool }.

(** ... and the rest of it that the functions of this file use, and the settings of the cache. *)
Record settings := Settings {
  st_flags : flags;
  st_ssh_args : list (list ascii);
  st_mountpoint : option (list ascii);
  st_host : option (list ascii);
  st_detect_uid : bool;
  st_uid_map : option (gmap Z Z * gmap Z Z);
  st_gid_map : option (gmap Z Z * gmap Z Z);
  st_foreground : bool;
  st_base_path : list ascii;
  st_password : option (list ascii);
  st_max_read : Z;
  st_max_write : Z;
  st_max_outstanding_len : Z;
  st_cache_secs : list Z }.

Definition set_st_flags v st := Settings v (st_ssh_args st) (st_mountpoint st) (st_host st) (st_detect_uid st) (st_uid_map st) (st_gid_map st) (st_foreground st) (st_base_path st) (st_password st) (st_max_read st) (st_max_write st) (st_max_outstanding_len st) (st_cache_secs st).
Definition set_st_ssh_args v st := Settings (st_flags st) v (st_mountpoint st) (st_host st) (st_detect_uid st) (st_uid_map st) (st_gid_map st) (st_foreground st) (st_base_path st) (st_password st) (st_max_read st) (st_max_write st) (st_max_outstanding_len st) (st_cache_secs st).
Definition set_st_mountpoint v st := Settings (st_flags st) (st_ssh_args st) v (st_host st) (st_detect_uid st) (st_uid_map st) (st_gid_map st) (st_foreground st) (st_base_path st) (st_password st) (st_max_read st) (st_max_write st) (st_max_outstanding_len st) (st_cache_secs st).
Definition set_st_host v st := Settings (st_flags st) (st_ssh_args st) (st_mountpoint st) v (st_detect_uid st) (st_uid_map st) (st_gid_map st) (st_foreground st) (st_base_path st) (st_password st) (st_max_read st) (st_max_write st) (st_max_outstanding_len st) (st_cache_secs st).
Definition set_st_detect_uid v st := Settings (st_flags st) (st_ssh_args st) (st_mountpoint st) (st_host st) v (st_uid_map st) (st_gid_map st) (st_foreground st) (st_base_path st) (st_password st) (st_max_read st) (st_max_write st) (st_max_outstanding_len st) (st_cache_secs st).
Definition set_st_uid_map v st := Settings (st_flags st) (st_ssh_args st) (st_mountpoint st) (st_host st) (st_detect_uid st) v (st_gid_map st) (st_foreground st) (st_base_path st) (st_password st) (st_max_read st) (st_max_write st) (st_max_outstanding_len st) (st_cache_secs st).
Definition set_st_gid_map v st := Settings (st_flags st) (st_ssh_args st) (st_mountpoint st) (st_host st) (st_detect_uid st) (st_uid_map st) v (st_foreground st) (st_base_path st) (st_password st) (st_max_read st) (st_max_write st) (st_max_outstanding_len st) (st_cache_secs st).
Definition set_st_foreground v st := Settings (st_flags st) (st_ssh_args st) (st_mountpoint st) (st_host st) (st_detect_uid st) (st_uid_map st) (st_gid_map st) v (st_base_path st) (st_password st) (st_max_read st) (st_max_write st) (st_max_outstanding_len st) (st_cache_secs st).
Definition set_st_base_path v st := Settings (st_flags st) (st_ssh_args st) (st_mountpoint st) (st_host st) (st_detect_uid st) (st_uid_map st) (st_gid_map st) (st_foreground st) v (st_password st) (st_max_read st) (st_max_write st) (st_max_outstanding_len st) (st_cache_secs st).
Definition set_st_password v st := Settings (st_flags st) (st_ssh_args st) (st_mountpoint st) (st_host st) (st_detect_uid st) (st_uid_map st) (st_gid_map st) (st_foreground st) (st_base_path st) v (st_max_read st) (st_max_write st) (st_max_outstanding_len st) (st_cache_secs st).
Definition set_st_max_read v st := Settings (st_flags st) (st_ssh_args st) (st_mountpoint st) (st_host st) (st_detect_uid st) (st_uid_map st) (st_gid_map st) (st_foreground st) (st_base_path st) (st_password st) v (st_max_write st) (st_max_outstanding_len st) (st_cache_secs st).
Definition set_st_max_write v st := Settings (st_flags st) (st_ssh_args st) (st_mountpoint st) (st_host st) (st_detect_uid st) (st_uid_map st) (st_gid_map st) (st_foreground st) (st_base_path st) (st_password st) (st_max_read st) v (st_max_outstanding_len st) (st_cache_secs st).
Definition set_st_max_outstanding_len v st := Settings (st_flags st) (st_ssh_args st) (st_mountpoint st) (st_host st) (st_detect_uid st) (st_uid_map st) (st_gid_map st) (st_foreground st) (st_base_path st) (st_password st) (st_max_read st) (st_max_write st) v (st_cache_secs st).
Definition set_st_cache_secs v st := Settings (st_flags st) (st_ssh_args st) (st_mountpoint st) (st_host st) (st_detect_uid st) (st_uid_map st) (st_gid_map st) (st_foreground st) (st_base_path st) (st_password st) (st_max_read st) (st_max_write st) (st_max_outstanding_len st) v.

(** ** The system *)

Record setup (W : Type) := Setup { cfg : settings; sys : W }.
Arguments Setup {W}. Arguments cfg {W}. Arguments sys {W}.

Class StartSystem (W : Type) := {
  (** libfuse: [fuse_opt_parse] with a table and the function for other arguments: the
      result and the arguments that are left *)
  fuse_opt_parse : opt_table -> (list ascii -> opt_key -> prog (setup W) Z) -> list (list ascii) -> prog (setup W) (Z * list (list ascii));
  (** [fuse_opt_add_arg], [fuse_opt_insert_arg]; [None] when memory runs out *)
  opt_add_arg : list (list ascii) -> list ascii -> option (list (list ascii));
  opt_insert_arg : list (list ascii) -> Z -> list ascii -> option (list (list ascii));
  (** a page that is not swapped out *)
  getpagesize : Z;
  mmap_page : W -> option (list ascii) * W;
  mlock : W -> Z * W;
  (** [read (0, p, 1)]: the result and the byte *)
  read_stdin : W -> (Z * ascii) * W;
  (** the contents, owner and mode of a file that can be opened and asked for them *)
  read_file : list ascii -> W -> option (list ascii * option (Z * Z));
  fclose : W -> Z * W;
  get_uid : W -> Z;
  (** the number of a user or group, and [errno] *)
  getpwnam : list ascii -> W -> option Z * Z;
  getgrnam : list ascii -> W -> option Z * Z;
  realpath : list ascii -> W -> option (list ascii) }.

(** <stdlib.h> [strtoul (s, NULL, 10)]: the result, and whether [errno] is set *)
Definition ULONG_MAX : Z := 2 ^ 64 - 1.
Definition strtoul10 (s : list ascii) : Z * bool :=
  let s := (span isspace s).2 in
  let '(neg, s) := match s with c :: s' => if Ascii.eqb c "-"%char then (true, s') else if Ascii.eqb c "+"%char then (false, s') else (false, s) | [] => (false, []) end in
  let n := fold_left (fun n c => n * 10 + (Z_of_byte c - 48)) (span isdigit s).1 0 in
  if n >? ULONG_MAX then (ULONG_MAX, true) else (if (neg : bool) then u64 (- n) else n, false).

(** <stdio.h> [fgets (line, n, fp)] on what is left of a file: the line, what is left
    then, and whether the end of the file was met *)
Fixpoint fgets_loop (n : nat) (s : list ascii) : list ascii * list ascii * bool :=
  match n, s with
  | O, _ => ([], s, false)
  | S _, [] => ([], [], true)
  | S n, c :: s =>
      if Ascii.eqb c "010"%char then ([c], s, false)
      else let '(line, rest, eof) := fgets_loop n s in (c :: line, rest, eof)
  end.
(** [None] for a null pointer *)
Definition fgets (n : nat) (s : list ascii) : option (list ascii * list ascii * bool) :=
  match s with [] => None | _ => Some (fgets_loop (n - 1) s) end.

(** <string.h> [strsep (&line, ":")] until it returns a null pointer *)
Fixpoint fields (s : list ascii) : list (list ascii) :=
  match s with
  | [] => [[]]
  | c :: s =>
      if Ascii.eqb c ":"%char then [] :: fields s
      else match fields s with f :: fs => (c :: f) :: fs | [] => [] end
  end.
(** what [strrchr (s, c)] cuts off *)
Fixpoint before_last (c : ascii) (s : list ascii) : option (list ascii) :=
  match s with
  | [] => None
  | x :: s =>
      match before_last c s with
      | Some p => Some (x :: p)
      | None => if Ascii.eqb x c then Some [] else None
      end
  end.

(** ** Maps of users and groups *)

Definition IDMAP_FIELDS : nat := 3.
Definition LINE_MAX : nat := 2048.
Definition S_IWGRP : Z := 16.
Definition S_IWOTH : Z := 2.

(** The remote number and the name. *)
Definition parse_idmap_line (line : list ascii) (eof : bool) : outcome (Z * list ascii) :=
  let! line := match before_last "010"%char line with
               | Some l => Ret l
               | None => if eof then Ret line else Exit
               end in
  let! (name_tok, id_tok) :=
    match take IDMAP_FIELDS (fields line) with
    | [name; id] => Ret (name, id)
    | [name; _; id] => Ret (name, id)
    | _ => Exit
    end in
  let (n, err) := strtoul10 id_tok in
  if (err : bool) then Exit else Ret (u32 n, name_tok).

Section Start.
Context {W : Type} `{!StartSystem W}.
Abbreviation P A := (prog (setup W) A).

Definition st_get : P settings := fun s => Ret (cfg s, s).
Definition st_modify (f : settings -> settings) : P unit := pmodify (fun s => Setup (f (cfg s)) (sys s)).
Definition sys_call {A} (f : W -> A * W) : P A := fun s => let (a, w) := f (sys s) in Ret (a, Setup (cfg s) w).
Definition sys_get {A} (f : W -> A) : P A := fun s => Ret (f (sys s), s).

(** [map_fn] gives the local number of a name.  [fuel] exceeds the length of the file. *)
Fixpoint idmap_loop (fuel : nat) (map_fn : list ascii -> P (option Z)) (text : list ascii) (m r : gmap Z Z) : P (gmap Z Z * gmap Z Z) :=
  match fgets LINE_MAX text with
  | None => pret (m, r)
  | Some (line, rest, eof) =>
      match fuel with
      | O => plift Undef
      | S fuel =>
          let line := cstr line in
          if bool_decide (line = []) || bool_decide (line !! 0%nat = Some "010"%char) then idmap_loop fuel map_fn rest m r
          else
            let* (remote_id, name) := plift (parse_idmap_line line eof) in
            let* local_id := map_fn name in
            match local_id with
            | None => idmap_loop fuel map_fn rest m r
            | Some local_id => idmap_loop fuel map_fn rest (<[remote_id := local_id]> m) (<[local_id := remote_id]> r)
            end
      end
  end.

Definition read_id_map (file : list ascii) (map_fn : list ascii -> P (option Z)) : P (gmap Z Z * gmap Z Z) :=
  let* local_uid := sys_get get_uid in
  let* fp := sys_get (read_file file) in
  match fp with
  | None => pexit
  | Some (_, None) => pexit
  | Some (text, Some (st_uid, st_mode)) =>
      if negb (st_uid =? local_uid) then pexit
      else if negb (Z.land st_mode S_IWGRP =? 0) || negb (Z.land st_mode S_IWOTH =? 0) then pexit
      else
        let* maps := idmap_loop (S (length text)) map_fn text ∅ ∅ in
        let* res := sys_call fclose in
        if res =? -1 then pexit else pret maps
  end.

(** A name that is not known is not an error. *)
Definition username_to_uid (name : list ascii) : P (option Z) :=
  let* (pw, errno) := sys_get (getpwnam name) in
  match pw with
  | None => if errno =? 0 then pret None else pexit
  | Some uid => pret (Some (u32 uid))
  end.
Definition groupname_to_gid (name : list ascii) : P (option Z) :=
  let* (gr, errno) := sys_get (getgrnam name) in
  match gr with
  | None => if errno =? 0 then pret None else pexit
  | Some gid => pret (Some (u32 gid))
  end.

Definition load_uid_map (file : list ascii) : P unit :=
  let* maps := read_id_map file username_to_uid in st_modify (set_st_uid_map (Some maps)).
Definition load_gid_map (file : list ascii) : P unit :=
  let* maps := read_id_map file groupname_to_gid in st_modify (set_st_gid_map (Some maps)).

(** ** The arguments of ssh *)

Definition ssh_add_arg (arg : list ascii) : P unit :=
  let* st := st_get in
  match opt_add_arg (st_ssh_args st) arg with
  | None => pexit
  | Some l => st_modify (set_st_ssh_args l)
  end.

Definition MAX_PASSWORD : Z := 1024.

(** The loop over the bytes of the password: the page and how many there are, or -1. *)
Fixpoint password_loop (fuel : nat) (n max_password : Z) (page : list ascii) : P (Z * list ascii) :=
  if n <? max_password then
    match fuel with
    | O => plift Undef
    | S fuel =>
        let* (res, c) := sys_call read_stdin in
        if res =? -1 then pret (-1, page)
        else
          let* page := (if res =? 0 then pret page else plift (if (Z.to_nat n <? length page)%nat then Ret (<[Z.to_nat n := c]> page) else Undef)) in
          if res =? 0 then
            let* page := plift (if (Z.to_nat n <? length page)%nat then Ret (<[Z.to_nat n := "010"%char]> page) else Undef) in
            pret (n, page)
          else
            let* b := plift (deref (page !! Z.to_nat n)) in
            if Ascii.eqb b "010"%char then pret (n, page) else password_loop fuel (n + 1) max_password page
    end
  else pret (n, page).

Definition read_password : P Z :=
  let size := getpagesize in
  let max_password := Z.min MAX_PASSWORD (size - 1) in
  let* page := sys_call mmap_page in
  match page with
  | None => pret (-1)
  | Some page =>
      let* res := sys_call mlock in
      if negb (res =? 0) then do* st_modify (set_st_password None); pret (-1)
      else
        let* (n, page) := password_loop (Z.to_nat max_password) 0 max_password page in
        do* st_modify (set_st_password (Some page));
        if n =? -1 then pret (-1)
        else if n =? max_password then pret (-1)
        else
          let* page := plift (if (Z.to_nat (n + 1) <? length page)%nat then Ret (<[Z.to_nat (n + 1) := nul]> page) else Undef) in
          do* st_modify (set_st_password (Some page));
          do* ssh_add_arg (lit "-oNumberOfPasswordPrompts=1");
          pret 0
  end.

(** The token at the start of [s], and what follows the space behind it; [prev] is the
    byte before [s]. *)
Fixpoint token (prev : ascii) (s : list ascii) : list ascii * option (list ascii) :=
  match s with
  | [] => ([], None)
  | c :: s' =>
      if Ascii.eqb c " "%char && negb (Ascii.eqb prev "\"%char) then ([], Some s')
      else let (t, pos) := token c s' in (c :: t, pos)
  end.
(** [pos] is the static variable: what is left of the string. *)
Definition tokenize_on_space (pos : option (list ascii)) : option (list ascii * option (list ascii)) :=
  match pos with
  | None => None
  | Some s => Some (token nul (span (Ascii.eqb " "%char) s).2)
  end.

Definition replace_arg (i : nat) (newarg : list ascii) : P unit :=
  let* st := st_get in
  if (i <? length (st_ssh_args st))%nat then st_modify (set_st_ssh_args (<[i := newarg]> (st_ssh_args st))) else plift Undef.

Fixpoint ssh_command_loop (fuel : nat) (i : Z) (pos : option (list ascii)) : P unit :=
  match tokenize_on_space pos with
  | None => pret tt
  | Some (token, pos) =>
      match fuel with
      | O => plift Undef
      | S fuel =>
          do* (if i =? 0 then replace_arg 0 token
               else let* st := st_get in
                    match opt_insert_arg (st_ssh_args st) i token with
                    | None => pexit
                    | Some l => st_modify (set_st_ssh_args l)
                    end);
          ssh_command_loop fuel (i + 1) pos
      end
  end.
Definition set_ssh_command (command : list ascii) : P unit :=
  ssh_command_loop (S (length command)) 0 (Some command).

(** ** Options *)

Definition sshfs_opt_proc (arg : list ascii) (key : opt_key) : P Z :=
  match key with
  | FUSE_OPT_KEY_OPT => if is_ssh_opt arg then do* ssh_add_arg (lit "-o" ++ arg); pret 0 else pret 1
  | FUSE_OPT_KEY_NONOPT =>
      let* st := st_get in
      match st_host st, bool_decide (":"%char ∈ arg) with
      | None, true => do* st_modify (set_st_host (Some arg)); pret 0
      | _, _ =>
          match st_mountpoint st with
          | None =>
              let* path := (if is_dev_fd arg then pret (Some arg) else sys_get (realpath arg)) in
              do* st_modify (set_st_mountpoint path);
              pret (match path with None => -1 | Some _ => 0 end)
          | Some _ => pret (-1)
          end
      end
  | KEY_PORT => do* ssh_add_arg (lit "-oPort=" ++ drop 2 arg); pret 0
  | KEY_COMPRESS => do* ssh_add_arg (lit "-oCompression=yes"); pret 0
  | KEY_CONFIGFILE => do* ssh_add_arg (lit "-F" ++ drop 2 arg); pret 0
  | KEY_OTHER => pexit
  end.

Definition workaround_opt_proc (arg : list ascii) (key : opt_key) : P Z := pret (-1).

Definition parse_workarounds : P Z :=
  let* st := st_get in
  match fl_workarounds (st_flags st) with
  | None => pret 0
  | Some s =>
      let s := map (fun c => if Ascii.eqb c ":"%char then ","%char else c) s in
      let* (res, _) := fuse_opt_parse WorkaroundOpts workaround_opt_proc [[]; lit "-o"; s] in
      pret res
  end.

(** What [cache_parse_options] of cache.c does to these settings. *)
Definition parse_cache_options (args : list (list ascii)) : P (Z * list (list ascii)) :=
  do* st_modify (set_st_cache_secs [20; 20; 20; 10000; 60; 5]);
  fuse_opt_parse CacheOpts (fun _ _ => pret 1) args.

Definition fsname_escape_commas (fsname : list ascii) : list ascii :=
  flat_map (fun c => if Ascii.eqb c "\"%char || Ascii.eqb c ","%char then ["\"%char; c] else [c]) fsname.
End Start.

(** ** Initialisation *)

Section Init.
Context `{Heap} {W : Type} `{!StartSystem W} `{!Channel W} `{!Dialer W} (noise : nat).
Abbreviation P A := (prog (setup W) A).

(** The defaults. *)
Definition IDMAP_DEFAULT : list ascii := lit "none".
Definition default_idmap : idmap_kind :=
  if bool_decide (IDMAP_DEFAULT = lit "none") then IDMAP_NONE
  else if bool_decide (IDMAP_DEFAULT = lit "user") then IDMAP_USER else IDMAP_NONE.
Definition init_flags (f : flags) : flags :=
  Flags (fl_directport f) (fl_ssh_command f) (fl_sftp_server f) (fl_workarounds f) (fl_uid_file f) (fl_gid_file f)
    false false false false (fl_fstat_workaround f) false (fl_transform_symlinks f) (fl_follow_symlinks f)
    (fl_no_check_root f) default_idmap NOMAP_ERROR (fl_disable_hardlink f) true
    false false 2 (fl_sync_write f) false (fl_sync_readdir f)
    (fl_debug f) (fl_reconnect f) false false 1 (fl_password_stdin f).
Definition init_defaults (mount_path backend_path : list ascii) (st : settings) : settings :=
  Settings (init_flags (st_flags st)) (st_ssh_args st) (Some mount_path) (Some backend_path) false (st_uid_map st) (st_gid_map st)
    false (st_base_path st) (st_password st) 32768 32768 (st_max_outstanding_len st) (st_cache_secs st).

(** The maps of users and groups. *)
Definition init_idmap : P unit :=
  let* st := st_get in
  let f := st_flags st in
  match fl_idmap f with
  | IDMAP_NONE => pret tt
  | IDMAP_USER => st_modify (set_st_detect_uid true)
  | IDMAP_FILE =>
      do* st_modify (fun st => set_st_uid_map None (set_st_gid_map None st));
      match fl_uid_file f, fl_gid_file f with
      | None, None => pexit
      | uid_file, gid_file =>
          do* (match uid_file with Some file => load_uid_map file | None => pret tt end);
          match gid_file with Some file => load_gid_map file | None => pret tt end
      end
  end.

(** Options that exclude each other. *)
Definition init_checks : P unit :=
  let* st := st_get in
  let f := st_flags st in
  do* (if fl_passive f then st_modify (set_st_foreground true) else pret tt);
  if fl_passive f && fl_password_stdin f then pexit
  else
    do* (if fl_password_stdin f then let* res := read_password in if res =? -1 then pexit else pret tt else pret tt);
    do* (if fl_debug f then st_modify (set_st_foreground true) else pret tt);
    do* st_modify (set_st_max_outstanding_len (if fl_buflimit_workaround f then 8388608 else u32 (-1)));
    if fl_max_conns f >? 1 then
      (if fl_buflimit_workaround f || fl_password_stdin f || fl_passive f then pexit else pret tt)
    else if fl_max_conns f <=? 0 then pexit else pret tt.

(** The command that runs ssh. *)
Definition init_ssh_args : P unit :=
  let* st := st_get in
  let f := st_flags st in
  do* (match fl_ssh_command f with Some c => set_ssh_command c | None => pret tt end);
  do* ssh_add_arg (lit "-" ++ lit (pretty (fl_ssh_ver f)));
  let* st := st_get in
  let* host := plift (deref (st_host st)) in
  do* ssh_add_arg host;
  let sftp_server := match fl_sftp_server f with
                     | Some s => s
                     | None => if fl_ssh_ver f =? 1 then lit "/usr/lib/sftp-server" else lit "sftp"
                     end in
  do* (if negb (fl_ssh_ver f =? 1) && negb (bool_decide ("/"%char ∈ sftp_server)) then ssh_add_arg (lit "-s") else pret tt);
  ssh_add_arg sftp_server.

(** What the other parts of the client get. *)
Definition map_of (m : option (gmap Z Z)) : option (Z -> option Z) := (fun m i => m !! i) <$> m.
Definition options_of (st : settings) : options :=
  let f := st_flags st in
  Options (fl_password_stdin f) (fl_reconnect f) (fl_passive f) (fl_directport f) (fl_delay_connect f) (fl_no_check_root f).
Definition file_options_of (st : settings) : file_options :=
  let f := st_flags st in
  FileOptions (st_base_path st) (fl_renamexdev_workaround f) (fl_truncate_workaround f) (fl_fstat_workaround f) (fl_createmode_workaround f)
    (fl_transform_symlinks f) (fl_disable_hardlink f) (fl_dir_cache f) (fl_sync_write f) (fl_sync_read f) (st_max_read st) (st_max_write st)
    (map_of (snd <$> st_uid_map st)) (map_of (snd <$> st_gid_map st)).
Definition session_of (st : settings) (w : W) : session W :=
  let f := st_flags st in
  Session (replicate (Z.to_nat (fl_max_conns f)) (Conn false (-1) (-1) 0 0 0 0)) 0 (-1) (-1) (st_password st) (default [] (st_host st))
    false (fl_rename_workaround f) false false false 0 (st_detect_uid st)
    (SshfsIds false 0 0 0 0 (match fl_idmap f with IDMAP_FILE => true | _ => false end) (map_of (fst <$> st_uid_map st)) (map_of (fst <$> st_gid_map st))
       (fl_nomap f) 4096 (fl_follow_symlinks f))
    0 0 w.

(** The host name loses its directory and its brackets. *)
Definition init_base_path : P unit :=
  let* st := st_get in
  let* host := plift (deref (st_host st)) in
  let* (d, rest) := plift (split_host false (host ++ [nul]) []) in
  let* path := plift (cstring rest) in
  do* st_modify (set_st_host (Some d));
  st_modify (set_st_base_path path).

(** For the first file system of the process.  The arguments that are given to the
    parser are none but the name of the program; the escaped name of the file system is added to
    them in the end, which nothing reads. *)
Definition usfs_init (mount_path backend_path : list ascii) : prog (setup W) (Z * session W) :=
  do* st_modify (init_defaults mount_path backend_path);
  do* ssh_add_arg (lit "ssh"); do* ssh_add_arg (lit "-x"); do* ssh_add_arg (lit "-a"); do* ssh_add_arg (lit "-oClearAllForwardings=yes");
  let* (res, args) := fuse_opt_parse SshfsOpts sshfs_opt_proc [lit "sshfs"] in
  let* res := if res =? -1 then pret (-1) else parse_workarounds in
  if res =? -1 then pexit
  else
    let* st := st_get in
    if fl_show_version (st_flags st) || fl_show_help (st_flags st) || bool_decide (st_host st = None) || bool_decide (st_mountpoint st = None) then pexit
    else
      do* init_idmap;
      do* init_checks;
      do* init_base_path;
      do* init_ssh_args;
      let* (res, args) := parse_cache_options args in
      if res =? -1 then pexit
      else
        do* st_modify (fun st => set_st_max_read (Z.min (st_max_read st) 65536) (set_st_max_write (Z.min (st_max_write st) 65536) st));
        fun s =>
          let! (res, ses) := ssh_connect (options_of (cfg s)) noise (st_base_path (cfg s)) (session_of (cfg s) (sys s)) in
          if res =? -1 then Exit else Ret ((res, ses), Setup (cfg s) (os ses)).
End Init.

(** ** The password stays in its page *)

Section Password.
Context {W : Type} `{!StartSystem W}.

Lemma password_loop_stays fuel : forall n max (page : list ascii) (s : setup W), 0 <= n <= max -> max < Z.of_nat (length page) -> (Z.to_nat (max - n) <= fuel)%nat ->
  wp False (password_loop fuel n max page) s (fun r _ => -1 <= r.1 <= max /\ length r.2 = length page).
Proof.
  induction fuel as [|fuel IH]; intros n max page s Hn Hp Hf; cbn [password_loop]; destruct (Z.ltb_spec n max); try lia.
  1, 3: apply wp_ret; cbn; lia.
  apply wp_bind. unfold wp, sys_call. destruct (read_stdin (sys s)) as [[res c] w]. destruct (res =? -1); [cbn; lia|].
  assert (Z.to_nat n <? length page = true)%nat as Hlt by (apply Nat.ltb_lt; lia).
  destruct (res =? 0); apply wp_bind.
  - apply wp_ret, wp_bind. eapply wp_lift; [by rewrite Hlt|]. apply wp_ret. cbn. rewrite length_insert. lia.
  - eapply wp_lift; [by rewrite Hlt|]. apply wp_bind. eapply wp_lift; [by rewrite list_lookup_insert_eq by (by apply Nat.ltb_lt)|].
    destruct (Ascii.eqb c _); [apply wp_ret; cbn; rewrite length_insert; lia|].
    eapply wp_mono; [apply IH; rewrite ?length_insert; lia|]. cbn. by rewrite length_insert.
Qed.

(** [read_password] does not leave the page, whatever is typed. *)
Lemma read_password_stays (s : setup W) : 1 < getpagesize -> (forall w page w', mmap_page w = (Some page, w') -> Z.of_nat (length page) = getpagesize) ->
  wp True read_password s (fun _ _ => True).
Proof.
  intros Hsz Hpage. unfold read_password. set (mx := Z.min _ _). assert (0 <= mx < getpagesize) as Hmx by (unfold mx, MAX_PASSWORD; lia).
  apply wp_bind. unfold wp at 1, sys_call. destruct (mmap_page (sys s)) as [[page|] w] eqn:Em; [|done]. apply Hpage in Em.
  apply wp_bind. unfold wp at 1, sys_call. destruct (mlock _) as [res w']. destruct (negb _); [by apply wp_bind, wp_modify|].
  apply wp_bind. eapply wp_mono; [apply wp_never, (password_loop_stays _ 0 mx page); lia|]. intros [n page'] s' [Hn Hl]. cbn [fst snd] in *.
  apply wp_bind, wp_modify. destruct (Z.eqb_spec n (-1)); [done|]. destruct (Z.eqb_spec n mx); [done|].
  apply wp_bind. eapply wp_lift; [by rewrite (proj2 (Nat.ltb_lt _ _)) by lia|]. apply wp_bind, wp_modify, wp_bind.
  unfold ssh_add_arg. apply wp_bind. unfold wp at 1, st_get. by destruct (opt_add_arg _ _).
Qed.
End Password.

(** ** A file that maps names *)

(** A line: the name, the number in digits, and the other fields of a password file. *)
Record id_line := IdLine { il_name : list ascii; il_digits : list ascii; il_more : option (list ascii * list ascii) }.
Definition il_body (l : id_line) : list ascii :=
  match il_more l with
  | None => il_name l ++ lit ":" ++ il_digits l
  | Some (pw, rest) => il_name l ++ lit ":" ++ pw ++ lit ":" ++ il_digits l ++ rest
  end.
Definition il_text (l : id_line) : list ascii := il_body l ++ ["010"%char].
Definition digits_value (d : list ascii) : Z := fold_left (fun n c => n * 10 + (Z_of_byte c - 48)) d 0.
Definition il_remote (l : id_line) : Z := u32 (digits_value (il_digits l)).

Definition plain (bad s : list ascii) : Prop := Forall (fun c => c ∉ bad) s.
Record il_ok (l : id_line) : Prop := IlOk {
  io_name : plain [":"%char; "010"%char; nul] (il_name l);
  io_digits : forallb isdigit (il_digits l) = true /\ digits_value (il_digits l) <= ULONG_MAX;
  io_more : match il_more l with
            | None => True
            | Some (pw, rest) => plain [":"%char; "010"%char; nul] pw /\ plain ["010"%char; nul] rest /\ (rest = [] \/ exists r, rest = ":"%char :: r)
            end;
  io_length : (length (il_text l) < LINE_MAX)%nat }.

Lemma fgets_line n body rest : "010"%char ∉ body -> (length body < n)%nat -> fgets_loop n (body ++ "010"%char :: rest) = (body ++ ["010"%char], rest, false).
Proof.
  revert n. induction body as [|c body IH]; intros [|n] Hb Hn; cbn [length] in Hn; try lia; [done|]. cbn [app fgets_loop].
  rewrite not_elem_of_cons in Hb. destruct Hb as [Hc Hb]. destruct (Ascii.eqb_spec c "010"%char); [by subst|]. by rewrite IH by (done || lia).
Qed.
Lemma before_last_none c s : c ∉ s -> before_last c s = None.
Proof.
  induction s as [|x s IH]; [done|]. rewrite not_elem_of_cons. intros [Hx Hs]. cbn. rewrite IH by done. by destruct (Ascii.eqb_spec x c); [subst|].
Qed.
Lemma before_last_end c s : before_last c (s ++ [c]) = Some s.
Proof. induction s as [|x s IH]; cbn; [by rewrite Ascii.eqb_refl|by rewrite IH]. Qed.
Lemma fields_one s : ":"%char ∉ s -> fields s = [s].
Proof.
  induction s as [|x s IH]; [done|]. rewrite not_elem_of_cons. intros [Hx Hs]. cbn. rewrite IH by done. by destruct (Ascii.eqb_spec x ":"%char); [subst|].
Qed.
Lemma fields_app s t : ":"%char ∉ s -> fields (s ++ ":"%char :: t) = s :: fields t.
Proof.
  induction s as [|x s IH]; [done|]. rewrite not_elem_of_cons. intros [Hx Hs]. cbn [app fields]. rewrite IH by done.
  by destruct (Ascii.eqb_spec x ":"%char); [subst|].
Qed.
Lemma plain_not bad s c : c ∈ bad -> plain bad s -> c ∉ s.
Proof. intros Hc Hs Hin. unfold plain in Hs. rewrite Forall_forall in Hs. by apply (Hs c). Qed.
Lemma cstr_id s : nonul s -> cstr s = s.
Proof.
  unfold nonul. induction s as [|c s IH]; [done|]. rewrite not_elem_of_cons. intros [Hc Hs]. cbn. rewrite IH by done. by destruct (Ascii.eqb_spec c nul); [subst|].
Qed.
Lemma span_whole f s : forallb f s = true -> span f s = (s, []).
Proof. induction s as [|c s IH]; [done|]. cbn. intros [Hc Hs]%andb_true_iff. by rewrite Hc, IH. Qed.

Lemma strtoul_digits d : forallb isdigit d = true -> digits_value d <= ULONG_MAX -> strtoul10 d = (digits_value d, false).
Proof.
  intros Hd Hv. unfold strtoul10. destruct d as [|c d]; [done|].
  assert (isspace c = false /\ Ascii.eqb c "-"%char = false /\ Ascii.eqb c "+"%char = false) as (Hs & Hm & Hp).
  { cbn [forallb] in Hd. apply andb_true_iff in Hd as [Hc _]. revert Hc. clear. destruct c as [[] [] [] [] [] [] [] []]; vm_compute; by intros. }
  cbn [span]. rewrite Hs. cbn [snd]. rewrite Hm, Hp, span_whole by done. cbn [fst]. fold (digits_value (c :: d)).
  rewrite Z.gtb_ltb, (proj2 (Z.ltb_ge _ _)) by done. done.
Qed.

Lemma digits_plain d c : forallb isdigit d = true -> isdigit c = false -> c ∉ d.
Proof. intros Hd Hc Hin. rewrite forallb_forall in Hd. rewrite (Hd c) in Hc; [done|by apply list_elem_of_In]. Qed.

Lemma parse_line l eof : il_ok l -> parse_idmap_line (il_text l) eof = Ret (il_remote l, il_name l).
Proof.
  intros [Hn [Hd Hv] Hm _]. unfold parse_idmap_line, il_text. rewrite before_last_end.
  assert (":"%char ∉ il_name l) as Hn1 by (eapply plain_not; [|exact Hn]; set_solver).
  assert (":"%char ∉ il_digits l) as Hd1 by by apply digits_plain.
  assert (exists tok, take IDMAP_FIELDS (fields (il_body l)) = il_name l :: tok ++ [il_digits l] /\ (length tok <= 1)%nat) as (tok & Hf & Hl).
  { unfold il_body. destruct (il_more l) as [[pw rest]|]; cbn [lit list_ascii_of_string app].
    - destruct Hm as (Hpw & _ & Hr). assert (":"%char ∉ pw) as Hp1 by (eapply plain_not; [|exact Hpw]; set_solver).
      rewrite !fields_app by done. exists [pw]. destruct Hr as [->|[r ->]]; [by rewrite app_nil_r, fields_one|by rewrite fields_app].
    - rewrite fields_app, fields_one by done. exists []. split; [done|cbn; lia]. }
  unfold mbind, outcome_bind. rewrite Hf. destruct tok as [|x [|y tok]]; cbn [app length] in *; try lia; by rewrite strtoul_digits.
Qed.

Lemma il_text_plain l : il_ok l -> "010"%char ∉ il_body l /\ nonul (il_text l).
Proof.
  intros [Hn [Hd _] Hm _]. unfold nonul, il_text.
  assert (forall c, c = "010"%char \/ c = nul -> c ∉ il_body l) as Hb.
  { intros c Hc. assert (c ∉ il_name l) by (eapply plain_not; [|exact Hn]; destruct Hc; set_solver).
    assert (c ∉ il_digits l) by (apply digits_plain; [done|by destruct Hc; subst]).
    assert (c ∉ lit ":") by (destruct Hc; subst; apply (bool_decide_eq_true_1 (_ ∉ _)); done).
    unfold il_body. destruct (il_more l) as [[pw rest]|].
    - destruct Hm as (Hpw & Hr & _). assert (c ∉ pw) by (eapply plain_not; [|exact Hpw]; destruct Hc; set_solver).
      assert (c ∉ rest) by (eapply plain_not; [|exact Hr]; destruct Hc; set_solver). rewrite !elem_of_app. tauto.
    - rewrite !elem_of_app. tauto. }
  split; [apply Hb; by left|]. rewrite elem_of_app, list_elem_of_singleton. intros [H|H]; [by eapply Hb; [right|]|done].
Qed.

Lemma il_text_first l : il_ok l -> il_text l <> [] /\ il_text l !! 0%nat <> Some "010"%char.
Proof.
  intros Hl. destruct (il_text_plain l Hl) as [Hb _]. unfold il_text.
  destruct (il_body l) as [|c b] eqn:E; [unfold il_body in E; destruct (il_more l) as [[]|]; by destruct (il_name l)|].
  split; [done|]. cbn. intros [= ->]. set_solver.
Qed.

Lemma text_long ls : Forall il_ok ls -> (length ls <= length (concat (map il_text ls)))%nat.
Proof.
  induction 1 as [|l ls Hl _ IH]; [done|]. cbn [map concat length]. rewrite length_app. destruct (il_text_first l Hl) as [Hne _].
  destruct (il_text l); [done|]. cbn [length]. lia.
Qed.

Section IdMap.
Context {W : Type} `{!StartSystem W}.

(** The maps that lines give: from remote to local numbers, and back. *)
Definition id_maps (local : list ascii -> option Z) (ls : list id_line) (m : gmap Z Z * gmap Z Z) : gmap Z Z * gmap Z Z :=
  fold_left (fun m l => match local (il_name l) with
                        | None => m
                        | Some u => (<[il_remote l := u]> m.1, <[u := il_remote l]> m.2)
                        end) ls m.

Lemma idmap_loop_reads (map_fn : list ascii -> prog (setup W) (option Z)) local s ls :
  (forall name, map_fn name s = Ret (local name, s)) -> Forall il_ok ls -> forall fuel m r, (length ls <= fuel)%nat ->
  idmap_loop fuel map_fn (concat (map il_text ls)) m r s = Ret (id_maps local ls (m, r), s).
Proof.
  intros Hfn. induction 1 as [|l ls Hl Hls IH]; intros fuel m r Hf; [by destruct fuel|].
  destruct fuel as [|fuel]; [cbn in Hf; lia|]. destruct (il_text_plain l Hl) as [Hb Hz]. destruct (il_text_first l Hl) as [Hne Hfst].
  cbn [map concat]. set (rest := concat (map il_text ls)) in *.
  assert (fgets LINE_MAX (il_text l ++ rest) = Some (il_text l, rest, false)) as Hg.
  { unfold fgets. destruct (il_text l ++ rest) as [|c t] eqn:E; [by apply app_eq_nil in E as [E _]|]. rewrite <- E. unfold il_text at 1. rewrite <- app_assoc.
    pose proof (io_length l Hl) as Hlen. unfold il_text in Hlen. rewrite length_app in Hlen. cbn [length app] in *. by rewrite fgets_line by (done || lia). }
  cbn [idmap_loop]. rewrite Hg, (cstr_id _ Hz), !bool_decide_false by done. cbn [orb]. unfold plift.
  rewrite (parse_line l false Hl), (pbind_ret _ _ _ _ s eq_refl), (pbind_ret _ _ _ _ _ (Hfn (il_name l))).
  cbn [id_maps fold_left fst snd]. destruct (local (il_name l)) as [u|]; rewrite IH by (cbn in Hf; lia); done.
Qed.

(** The lines whose names are known, as pairs of remote and local numbers. *)
Definition known (local : list ascii -> option Z) (ls : list id_line) : list (Z * Z) :=
  omap (fun l => pair (il_remote l) <$> local (il_name l)) ls.
Definition enter (m : gmap Z Z) (p : Z * Z) : gmap Z Z := <[p.1 := p.2]> m.
Definition swap (p : Z * Z) : Z * Z := (p.2, p.1).

Lemma id_maps_known local ls m r : id_maps local ls (m, r) = (fold_left enter (known local ls) m, fold_left enter (map swap (known local ls)) r).
Proof.
  revert m r. induction ls as [|l ls IH]; intros m r; [done|]. unfold known. cbn [id_maps fold_left omap list_omap fst snd]. fold (known local ls).
  destruct (local (il_name l)) as [u|]; cbn; apply IH.
Qed.
Lemma enter_lookup L m x y : NoDup (map fst L) -> fold_left enter L m !! x = Some y <-> (x, y) ∈ L \/ x ∉ map fst L /\ m !! x = Some y.
Proof.
  revert m. induction L as [|[a b] L IH]; intros m Hn; cbn [fold_left map fst] in *.
  - rewrite !elem_of_nil. tauto.
  - apply NoDup_cons in Hn as [Ha Hn]. rewrite IH by done. unfold enter. cbn [fst snd]. rewrite !elem_of_cons.
    assert ((x, y) ∈ L -> x ∈ map fst L) as Hin by (intros H; apply list_elem_of_In in H; apply list_elem_of_In, in_map_iff; by exists (x, y)).
    destruct (decide (x = a)) as [->|Hx].
    + rewrite lookup_insert_eq. naive_solver.
    + rewrite lookup_insert_ne by done. naive_solver.
Qed.
Lemma enter_swap L x y : (x, y) ∈ map swap L <-> (y, x) ∈ L.
Proof.
  rewrite !list_elem_of_In, in_map_iff. split; [intros ([a b] & [= <- <-] & H); done|intros H; by exists (y, x)].
Qed.

(** C24: A file that maps users is read as it is written.  Let it belong to the user and not be
    writable by others, and have a line for each of [ls], in the format name:number or in that of a
    password file.  Then [load_uid_map] returns; numbers are cut to 32 bits, names that the
    system does not know are left out, and when no remote and no local
    number occurs twice, the map that the client uses for the numbers in replies and the one for
    the numbers in requests are inverse to each other and consist of the known lines. *)
Theorem id_map_file_read file ls mode w s : let local name := u32 <$> (getpwnam name (sys s)).1 in
  Forall il_ok ls -> read_file file (sys s) = Some (concat (map il_text ls), Some (get_uid (sys s), mode)) ->
  Z.land mode S_IWGRP = 0 -> Z.land mode S_IWOTH = 0 -> fclose (sys s) = (0, w) ->
  (forall name, (getpwnam name (sys s)).1 = None -> (getpwnam name (sys s)).2 = 0) ->
  exists st, load_uid_map file s = Ret (tt, Setup st w) /\
    (NoDup (map fst (known local ls)) -> NoDup (map snd (known local ls)) ->
     exists m r, uid_map (ids (session_of st w)) = Some m /\ r_uid_map (file_options_of st) = Some r /\
       forall x y, (m x = Some y <-> (x, y) ∈ known local ls) /\ (r y = Some x <-> (x, y) ∈ known local ls)).
Proof.
  intros local Hls Hfile Hg Ho Hc Herr.
  assert (forall name, username_to_uid name s = Ret (local name, s)) as Hfn.
  { intros name. unfold username_to_uid, sys_get, local. rewrite (pbind_ret _ _ _ (getpwnam name (sys s)) s eq_refl). specialize (Herr name).
    destruct (getpwnam name (sys s)) as [[u|] e]; cbn [fst snd] in *; [done|]. by rewrite Herr. }
  assert (read_id_map file username_to_uid s = Ret (id_maps local ls (∅, ∅), Setup (cfg s) w)) as Hr.
  { unfold read_id_map, sys_get. rewrite (pbind_ret _ _ _ (get_uid (sys s)) s eq_refl), (pbind_ret _ _ _ _ s eq_refl), Hfile.
    rewrite Z.eqb_refl, Hg, Ho. cbn [negb Z.eqb orb].
    rewrite (pbind_ret _ _ _ _ _ (idmap_loop_reads username_to_uid local s ls Hfn Hls _ ∅ ∅ (Nat.le_trans _ _ _ (text_long ls Hls) (Nat.le_succ_diag_r _)))).
    unfold sys_call, pbind. by rewrite Hc. }
  exists (set_st_uid_map (Some (id_maps local ls (∅, ∅))) (cfg s)). split; [unfold load_uid_map; by rewrite (pbind_ret _ _ _ _ _ Hr)|].
  intros H1 H2. rewrite id_maps_known. eexists _, _. split; [reflexivity|]. split; [reflexivity|]. intros x y. cbn [fst snd].
  rewrite !enter_lookup, enter_swap, !lookup_empty by (done || (rewrite map_map; done)). naive_solver.
Qed.
End IdMap.

(** ** Mounting *)

(** What libfuse documents: without options there is nothing to parse, and an argument is
    added at the end. *)
Class StartLaws (W : Type) `{!StartSystem W} : Prop := {
  opt_parse_none table proc prog s : fuse_opt_parse table proc [prog] s = Ret ((0, [prog]), s);
  opt_add_end l a : opt_add_arg l a = Some (l ++ [a]) }.

(** [struct sshfs] before [usfs_init]. *)
Definition no_flags : flags :=
  Flags None None None None None None false false false false false false false false false IDMAP_NONE NOMAP_IGNORE false false
    false false 0 false false false false false false false 0 false.
Definition fresh : settings := Settings no_flags [] None None false None None false [] None 0 0 0 [0; 0; 0; 0; 0; 0].

Definition ssh_command_line (h : list ascii) : list (list ascii) :=
  [lit "ssh"; lit "-x"; lit "-a"; lit "-oClearAllForwardings=yes"; lit "-2"; h; lit "-s"; lit "sftp"].
Definition mounted (mount h p : list ascii) : settings :=
  Settings (init_flags no_flags) (ssh_command_line h) (Some mount) (Some h) false None None false p None 32768 32768 (2 ^ 32 - 1) [20; 20; 20; 10000; 60; 5].

Section Mount.
Context `{Heap} {W : Type} `{!StartSystem W} `{!StartLaws W} `{!Channel W} `{!Dialer W} (noise : nat).

Lemma st_modify_ret f st (w : W) : st_modify f (Setup st w) = Ret (tt, Setup (f st) w).
Proof. done. Qed.
Lemma add_arg_ret a st (w : W) : ssh_add_arg a (Setup st w) = Ret (tt, Setup (set_st_ssh_args (st_ssh_args st ++ [a]) st) w).
Proof using StartLaws0. unfold ssh_add_arg, st_get, pbind. cbn [cfg]. by rewrite opt_add_end. Qed.

(** Without options the command is the one of version 2 of the protocol. *)
Lemma init_ssh_args_default st h (w : W) : st_flags st = init_flags no_flags -> st_host st = Some h ->
  init_ssh_args (Setup st w) = Ret (tt, Setup (set_st_ssh_args (st_ssh_args st ++ [lit "-2"; h; lit "-s"; lit "sftp"]) st) w).
Proof using StartLaws0.
  intros Hf Hh. unfold init_ssh_args. rewrite (pbind_ret st_get _ (Setup st w) st (Setup st w) eq_refl), Hf.
  change (fl_ssh_command (init_flags no_flags)) with (@None (list ascii)). cbv iota. rewrite (pbind_ret (pret tt) _ (Setup st w) tt (Setup st w) eq_refl).
  rewrite (pbind_ret _ _ _ _ _ (add_arg_ret _ _ w)). set (st5 := set_st_ssh_args _ st). rewrite (pbind_ret st_get _ (Setup st5 w) st5 (Setup st5 w) eq_refl).
  rewrite (pbind_ret (plift (deref (st_host st5))) _ (Setup st5 w) h (Setup st5 w)) by (unfold plift, st5; cbn; by rewrite Hh).
  rewrite (pbind_ret _ _ _ _ _ (add_arg_ret _ _ w)). cbv zeta.
  change (fl_sftp_server (init_flags no_flags)) with (@None (list ascii)). change (fl_ssh_ver (init_flags no_flags)) with 2. cbn [Z.eqb Pos.eqb negb andb].
  rewrite bool_decide_false by by apply (bool_decide_eq_true_1 (_ ∉ _)). cbn [negb]. rewrite (pbind_ret _ _ _ _ _ (add_arg_ret _ _ w)), add_arg_ret.
  unfold st5. cbn [set_st_ssh_args st_ssh_args]. by rewrite <- !app_assoc.
Qed.

(** C25: Mounting "host:directory" starts ssh for the host.  [usfs_init] takes no options; it ends with
    one connection over the command [ssh_command_line], which asks for the sftp subsystem of
    the host, with the directory as the base of all paths, reads and writes of 32768 bytes, and no limit
    for outstanding requests but that of the type; its result is that of [ssh_connect].  An address in brackets loses them. *)
Theorem mount_starts_ssh mount backend h p (w : W) (ses : session W) : let st := mounted mount h p in
  nonul p -> (plain_host h /\ backend = h ++ lit ":" ++ p \/ Forall (fun c => c <> nul /\ c <> "]"%char) h /\ backend = lit "[" ++ h ++ lit "]:" ++ p) ->
  ssh_connect (options_of st) noise p (session_of st w) = Ret (0, ses) ->
  usfs_init noise mount backend (Setup fresh w) = Ret ((0, ses), Setup st (os ses)).
Proof using StartLaws0.
  intros st Hp Hb Hc. unfold usfs_init.
  rewrite (pbind_ret (st_modify (init_defaults mount backend)) _ (Setup fresh w) tt (Setup (init_defaults mount backend fresh) w) eq_refl).
  do 4 rewrite (pbind_ret _ _ _ _ _ (add_arg_ret _ _ w)).
  set (st1 := Settings (init_flags no_flags) [lit "ssh"; lit "-x"; lit "-a"; lit "-oClearAllForwardings=yes"] (Some mount) (Some backend) false None None
    false [] None 32768 32768 0 [0; 0; 0; 0; 0; 0]).
  change (Setup (set_st_ssh_args _ _) w) with (Setup st1 w).
  rewrite (pbind_ret _ _ _ _ _ (opt_parse_none SshfsOpts sshfs_opt_proc (lit "sshfs") (Setup st1 w))). cbn [Z.eqb].
  rewrite (pbind_ret parse_workarounds _ (Setup st1 w) 0 (Setup st1 w) eq_refl). cbn [Z.eqb]. rewrite (pbind_ret st_get _ (Setup st1 w) st1 (Setup st1 w) eq_refl).
  cbn [st_flags st_host st_mountpoint st1]. rewrite !bool_decide_false by done. cbn [orb fl_show_version fl_show_help init_flags].
  rewrite (pbind_ret init_idmap _ (Setup st1 w) tt (Setup st1 w) eq_refl).
  set (st2 := set_st_max_outstanding_len (2 ^ 32 - 1) st1). rewrite (pbind_ret init_checks _ (Setup st1 w) tt (Setup st2 w) eq_refl).
  set (st3 := set_st_base_path p (set_st_host (Some h) st2)). rewrite (pbind_ret init_base_path _ (Setup st2 w) tt (Setup st3 w)).
  2: { unfold init_base_path, st_get, plift, st_modify, pmodify, pbind. cbn [cfg sys st2 st_host set_st_max_outstanding_len st1 deref].
       assert (split_host false (backend ++ [nul]) [] = Ret (h, p ++ [nul])) as ->; [|by rewrite cstring_app_nul].
       destruct Hb as [[Hh ->]|[Hh ->]]; rewrite <- ?app_assoc; cbn [lit list_ascii_of_string app]; [by rewrite split_plain by auto|by rewrite split_bracket by auto]. }
  set (st4 := set_st_ssh_args (ssh_command_line h) st3). rewrite (pbind_ret _ _ _ _ _ (init_ssh_args_default st3 h w eq_refl eq_refl)).
  change (set_st_ssh_args _ st3) with st4.
  rewrite (pbind_ret (parse_cache_options [lit "sshfs"]) _ (Setup st4 w) (0, [lit "sshfs"]) (Setup st w)) by (unfold parse_cache_options; by rewrite (pbind_ret _ _ _ _ _ (st_modify_ret _ _ w)), opt_parse_none).
  cbn [Z.eqb]. rewrite (pbind_ret _ _ _ _ _ (st_modify_ret _ _ w)). change (set_st_max_read _ _) with st. cbn [cfg sys]. change (st_base_path st) with p. by rewrite Hc.
Qed.
End Mount.

(** ** Options that are taken for something else *)

(** Because of the missing comma two options of ssh are not known. *)
Example pubkey_options_refused : is_ssh_opt (lit "PubkeyAuthentication=no") = false /\ is_ssh_opt (lit "PubkeyAcceptedKeyTypes=x") = false /\
  is_ssh_opt (lit "passwordauthentication=no") = true.
Proof. vm_compute. done. Qed.
(** A space at the end of the command gives an empty argument. *)
Example trailing_space_argument : tokenize_on_space (Some (lit "ssh -v ")) = Some (lit "ssh", Some (lit "-v ")) /\
  tokenize_on_space (Some (lit "-v ")) = Some (lit "-v", Some []) /\ tokenize_on_space (Some []) = Some ([], None).
Proof. vm_compute. done. Qed.

(** ** Witnesses *)

Module SftpOptionsExample.
Import SftpBuf.SftpExample SftpConn.SftpConnExample.

#[export] Instance pipe_dialer : Dialer pipe := {|
  addrinfo := unit; getaddrinfo := fun _ _ w => (None, w); socket := fun _ w => (-1, w); connect := fun _ _ w => (-1, w);
  set_nodelay := fun _ w => w; socketpair := fun w => (Some (5, 6), w); fork_ssh := fun _ w => (1, w); waitpid := fun _ w => w;
  open_fd := fun _ _ w => (-1, w); grantpt := fun _ w => (-1, w); unlockpt := fun _ w => (-1, w); ptsname := fun _ _ => [];
  write_fd := fun _ _ w => w; poll2 := fun _ _ _ w => ((-1, (false, false)), w); getuid := fun _ => 500; getgid := fun _ => 500;
  thread_create := fun w => (0, w) |}.

Definition map_lines : list id_line := [IdLine (lit "alice") (lit "1001") None; IdLine (lit "nobody") (lit "7") None;
  IdLine (lit "bob") (lit "1002") (Some (lit "x", lit ":100:/home/bob"))].
#[export] Instance pipe_start : StartSystem pipe := {|
  fuse_opt_parse := fun _ _ args => pret (0, args); opt_add_arg := fun l a => Some (l ++ [a]);
  opt_insert_arg := fun l i a => Some (take (Z.to_nat i) l ++ a :: drop (Z.to_nat i) l);
  getpagesize := 4096; mmap_page := fun w => (None, w); mlock := fun w => (0, w); read_stdin := fun w => ((0, nul), w);
  read_file := fun _ _ => Some (concat (map il_text map_lines), Some (500, 384)); fclose := fun w => (0, w); get_uid := fun _ => 500;
  getpwnam := fun name _ => (if bool_decide (name = lit "alice") then Some 500 else if bool_decide (name = lit "bob") then Some 501 else None, 0);
  getgrnam := fun _ _ => (None, 0); realpath := fun _ _ => None |}.
#[export] Instance pipe_start_laws : StartLaws pipe.
Proof. by split. Qed.

Lemma plain_check bad s : forallb (fun c => negb (existsb (Ascii.eqb c) bad)) s = true -> plain bad s.
Proof.
  rewrite forallb_forall. intros H. unfold plain. apply Forall_forall. intros c Hc Hb. apply list_elem_of_In in Hc. specialize (H c Hc).
  apply negb_true_iff in H. rewrite <- not_true_iff_false in H. apply H, existsb_exists. exists c. by rewrite Ascii.eqb_refl, <- list_elem_of_In.
Qed.
Lemma map_lines_ok : Forall il_ok map_lines.
Proof.
  repeat (apply Forall_cons_2; [split; cbn [il_name il_digits il_more]|]); try done; try (by apply plain_check); try (vm_compute; lia); try (split; vm_compute; done).
  split; [by apply plain_check|]. split; [by apply plain_check|]. right. by eexists.
Qed.

Definition quiet_pipe : setup pipe := Setup fresh (Pipe 4 [] []).
Definition local_user (name : list ascii) : option Z := u32 <$> (getpwnam name (sys quiet_pipe)).1.

Lemma id_map_file_read_witness :
  known local_user map_lines = [(1001, 500); (1002, 501)] /\
  exists st, load_uid_map (lit "/home/a/uids") quiet_pipe = Ret (tt, Setup st (sys quiet_pipe)) /\
    (NoDup (map fst (known local_user map_lines)) -> NoDup (map snd (known local_user map_lines)) ->
     exists m r, uid_map (ids (session_of st (sys quiet_pipe))) = Some m /\ r_uid_map (file_options_of st) = Some r /\
       forall x y, (m x = Some y <-> (x, y) ∈ known local_user map_lines) /\ (r y = Some x <-> (x, y) ∈ known local_user map_lines)).
Proof.
  split; [vm_compute; reflexivity|].
  apply (id_map_file_read (lit "/home/a/uids") map_lines 384 (sys quiet_pipe) quiet_pipe); try done. apply map_lines_ok.
Defined.

(** The server announces version 3 and that the directory is one. *)
Definition server_talk : pipe := Pipe 6 [] (version_message 3 [] ++ message SSH_FXP_ATTRS (be_bytes 4 0 ++ be_bytes 4 4 ++ be_bytes 4 16877)).
Definition after_mount : settings := mounted (lit "/mnt") (lit "host") (lit "dir").
Definition connecting : outcome (Z * session pipe) := ssh_connect (options_of after_mount) 9 (lit "dir") (session_of after_mount server_talk).
Definition after_connect : session pipe := match connecting with Ret (_, s) => s | _ => session_of after_mount server_talk end.

Lemma mount_starts_ssh_witness :
  usfs_init 9 (lit "/mnt") (lit "host:dir") (Setup fresh server_talk) = Ret ((0, after_connect), Setup after_mount (os after_connect)).
Proof.
  apply (mount_starts_ssh (W := pipe) 9 (lit "/mnt") (lit "host:dir") (lit "host") (lit "dir") server_talk after_connect).
  - by apply (bool_decide_eq_true_1 (nul ∉ _)).
  - left. split; [|done]. repeat constructor; done.
  - vm_compute. reflexivity.
Defined.
End SftpOptionsExample.
