(* ===== verification/UsfsWrap.v ===== *)
(** * The file system libraries that pass calls on (src/usfs_wrap)

    usfs_wrap.c goes to the kernel, cruise_wrap.c to CRUISE and avfs_wrap.c to
    AVFS; each puts the backend's path in front and turns -1 into the error
    number.  The calls below are a parameter, with the behaviour that POSIX
    documents for files.

    [libraries_serve_files] shows that the libraries have the behaviour that
    libdefuse relies on: reading and writing at an offset, truncating and reporting
    the size act on the file behind the handle.  [open_returns_handle_or_errno]
    gives the branches of opening, with the descriptor 0 that usfs_wrap.c takes
    for an error. *)

From Stdlib Require Import ZArith Lia Ascii String.
From stdpp Require Import base list gmap.
From S2P Require Import Prelude World.

Local Open Scope Z_scope.

Definition PATH_MAX : Z := 4096.
Definition AT_SYMLINK_NOFOLLOW : Z := 256.

(** The calls below a library: -1 and [err_no] on errors. *)
Class Posix (W : Type) := {
  err_no : W -> Z;
  c_open : list ascii -> Z -> Z -> W -> Z * W;
  c_close : Z -> W -> Z * W;
  c_pread : Z -> Z -> Z -> W -> (Z * list ascii) * W;
  c_pwrite : Z -> list ascii -> Z -> W -> Z * W;
  c_lseek : Z -> Z -> Z -> W -> Z * W;
  c_read : Z -> Z -> W -> (Z * list ascii) * W;
  c_write : Z -> list ascii -> W -> Z * W;
  c_fsync : Z -> W -> Z * W;
  c_fdatasync : Z -> W -> Z * W;
  c_truncate : list ascii -> Z -> W -> Z * W;
  c_ftruncate : Z -> Z -> W -> Z * W;
  c_fstat : Z -> W -> (Z * stat) * W;
  c_stat : list ascii -> W -> (Z * stat) * W;
  c_lstat : list ascii -> W -> (Z * stat) * W;
  c_unlink : list ascii -> W -> Z * W;
  c_access : list ascii -> Z -> W -> Z * W;
  c_readlink : list ascii -> Z -> W -> (Z * list ascii) * W;
  (** [cruise_mount] with a size and a rank *)
  c_mount : list ascii -> Z -> Z -> W -> W }.

Section Code.
Context {W : Type} `{Posix W}.

(** The static variable of the library, and the system below. *)
Record lib := Lib { backend : option (list ascii); below : W }.

Definition lib_call {A} (f : W -> A * W) : prog lib A := fun s =>
  let (a, w) := f (below s) in Ret (a, Lib (backend s) w).
Definition lib_errno : prog lib Z := fun s => Ret (err_no (below s), s).

(** [if (-1 == ret) ret = errno;] *)
Definition or_errno (ret : Z) : prog lib Z := if ret =? -1 then lib_errno else pret ret.

(** The result, and the count that is stored. *)
Definition counted (ret : Z) : prog lib (Z * Z) :=
  if ret =? -1 then let* e := lib_errno in pret (e, 0) else pret (0, u64 ret).

(** [snprintf (buf, PATH_MAX, "%s/%s", backend, path)] *)
Definition backend_file (path : list ascii) : prog lib (list ascii) := fun s =>
  match backend s with
  | None => Undef
  | Some b => Ret (take (Z.to_nat (PATH_MAX - 1)) (b ++ lit "/" ++ path), s)
  end.

(** The result and the handle, if one is stored. *)
Definition opened (ok : bool) (fd : Z) : prog lib (Z * option Z) :=
  if ok then pret (0, Some (u64 fd)) else let* e := lib_errno in pret (e, None).

(** ** usfs_wrap.c *)

Definition usfs_init (mount_path backend_path : list ascii) : prog lib unit :=
  pmodify (fun s => Lib (Some backend_path) (below s)).

Definition usfs_open (path : list ascii) (flags mode : Z) : prog lib (Z * option Z) :=
  let* p := backend_file path in
  let* fd := lib_call (c_open p flags mode) in
  let fd := i32 fd in
  opened (fd >? 0) fd.

(** The result, the bytes in the buffer and the count. *)
Definition usfs_read (fh size offset : Z) : prog lib (Z * list ascii * Z) :=
  let* (ret, data) := lib_call (c_pread fh size offset) in
  let* (ret, n) := counted (i32 ret) in pret (ret, data, n).

Definition usfs_write (fh : Z) (buf : list ascii) (offset : Z) : prog lib (Z * Z) :=
  let* ret := lib_call (c_pwrite fh buf offset) in counted (i32 ret).

Definition usfs_fsync (fh data_sync : Z) : prog lib Z :=
  let* ret := if data_sync >? 0 then lib_call (c_fdatasync fh) else lib_call (c_fsync fh) in or_errno (i32 ret).

Definition usfs_truncate (path : list ascii) (length : Z) : prog lib Z :=
  let* p := backend_file path in
  let* ret := lib_call (c_truncate p length) in or_errno (i32 ret).

Definition usfs_ftruncate (fh offset : Z) : prog lib Z :=
  let* ret := lib_call (c_ftruncate fh offset) in or_errno (i32 ret).

Definition usfs_fgetattr (fh : Z) : prog lib (Z * stat) :=
  let* (ret, st) := lib_call (c_fstat (i32 fh)) in let* ret := or_errno (i32 ret) in pret (ret, st).

Definition usfs_getattr (path : list ascii) (flags : Z) : prog lib (Z * stat) :=
  let* p := backend_file path in
  let* (ret, st) := if negb (Z.land flags AT_SYMLINK_NOFOLLOW =? 0) then lib_call (c_lstat p) else lib_call (c_stat p) in
  let* ret := or_errno (i32 ret) in pret (ret, st).

Definition usfs_unlink (path : list ascii) : prog lib Z :=
  let* p := backend_file path in
  let* ret := lib_call (c_unlink p) in or_errno (i32 ret).

Definition usfs_access (path : list ascii) (mode : Z) : prog lib Z :=
  let* p := backend_file path in
  let* ret := lib_call (c_access p mode) in or_errno (i32 ret).

(** -1 is not turned into the error number here. *)
Definition usfs_close (ret_fh : Z) : prog lib Z :=
  let* ret := lib_call (c_close (i32 ret_fh)) in pret (i32 ret).

Definition usfs_readlink (path : list ascii) (bufsize : Z) : prog lib (Z * list ascii * Z) :=
  let* p := backend_file path in
  let* (ret, data) := lib_call (c_readlink p bufsize) in
  let* (ret, n) := counted (i32 ret) in pret (ret, data, n).

(** ** cruise_wrap.c *)

Definition cruise_init (mount_path backend_path : list ascii) : prog lib unit :=
  do* lib_call (fun w => (tt, c_mount backend_path (1024 * 1024) 0 w));
  pmodify (fun s => Lib (Some backend_path) (below s)).

Definition cruise_open (path : list ascii) (flags mode : Z) : prog lib (Z * option Z) :=
  let* p := backend_file path in
  let* fd := lib_call (c_open p flags mode) in
  let fd := i32 fd in
  opened (fd >=? 0) fd.

Definition cruise_read (fh size offset : Z) : prog lib (Z * list ascii * Z) :=
  let* (ret, data) := lib_call (c_pread (i32 fh) size offset) in
  let* (ret, n) := counted (i32 ret) in pret (ret, data, n).

Definition cruise_write (fh : Z) (buf : list ascii) (offset : Z) : prog lib (Z * Z) :=
  let* ret := lib_call (c_pwrite (i32 fh) buf offset) in counted (i32 ret).

Definition cruise_fsync (fh data_sync : Z) : prog lib Z :=
  let* ret := if data_sync =? 0 then lib_call (c_fsync (i32 fh)) else lib_call (c_fdatasync (i32 fh)) in or_errno (i32 ret).

Definition cruise_truncate (path : list ascii) (length : Z) : prog lib Z :=
  let* p := backend_file path in
  let* ret := lib_call (c_truncate p length) in or_errno (i32 ret).

Definition cruise_ftruncate (fh offset : Z) : prog lib Z :=
  let* ret := lib_call (c_ftruncate (i32 fh) offset) in or_errno (i32 ret).

(** The handle is passed as the path. *)
Definition cruise_fgetattr (fh : Z) : prog lib (Z * stat) := plift Undef.

Definition cruise_getattr (path : list ascii) (flags : Z) : prog lib (Z * stat) :=
  let* p := backend_file path in
  let* (ret, st) := lib_call (c_stat p) in
  let* ret := or_errno (i32 ret) in pret (ret, st).

Definition cruise_unlink (path : list ascii) : prog lib Z :=
  let* p := backend_file path in
  let* ret := lib_call (c_unlink p) in or_errno (i32 ret).

Definition cruise_close (fh : Z) : prog lib Z :=
  let* ret := lib_call (c_close (i32 fh)) in pret (i32 ret).

(** ** avfs_wrap.c *)

Definition avfs_init (mount_path backend_path : list ascii) : prog lib unit :=
  pmodify (fun s => Lib (Some backend_path) (below s)).

Definition avfs_open (path : list ascii) (flags mode : Z) : prog lib (Z * option Z) :=
  let* p := backend_file path in
  let* fd := lib_call (c_open p flags mode) in
  let fd := i32 fd in
  opened (fd >=? 0) fd.

(** Seeking and reading are one step under the lock. *)
Definition avfs_read (fh size offset : Z) : prog lib (Z * list ascii * Z) :=
  let* o := lib_call (c_lseek (i32 fh) offset SEEK_SET) in
  if o =? -1 then let* e := lib_errno in pret (e, [], 0)
  else
    let* (ret, data) := lib_call (c_read (i32 fh) size) in
    let* (ret, n) := counted (i32 ret) in pret (ret, data, n).

Definition avfs_write (fh : Z) (buf : list ascii) (offset : Z) : prog lib (Z * Z) :=
  let* o := lib_call (c_lseek (i32 fh) offset SEEK_SET) in
  if o =? -1 then let* e := lib_errno in pret (e, 0)
  else let* ret := lib_call (c_write (i32 fh) buf) in counted (i32 ret).

Definition avfs_fsync (fh data_sync : Z) : prog lib Z := pret 0.

Definition avfs_truncate (path : list ascii) (length : Z) : prog lib Z :=
  let* p := backend_file path in
  let* ret := lib_call (c_truncate p length) in or_errno (i32 ret).

Definition avfs_ftruncate (fh offset : Z) : prog lib Z :=
  let* ret := lib_call (c_ftruncate (i32 fh) offset) in or_errno (i32 ret).

Definition avfs_fgetattr (fh : Z) : prog lib (Z * stat) :=
  let* (ret, st) := lib_call (c_fstat (i32 fh)) in let* ret := or_errno (i32 ret) in pret (ret, st).

Definition avfs_getattr (path : list ascii) (flags : Z) : prog lib (Z * stat) :=
  let* p := backend_file path in
  let* (ret, st) := if negb (Z.land flags AT_SYMLINK_NOFOLLOW =? 0) then lib_call (c_lstat p) else lib_call (c_stat p) in
  let* ret := or_errno (i32 ret) in pret (ret, st).

Definition avfs_unlink (path : list ascii) : prog lib Z :=
  let* p := backend_file path in
  let* ret := lib_call (c_unlink p) in or_errno (i32 ret).

Definition avfs_close (fh : Z) : prog lib Z :=
  let* ret := lib_call (c_close (i32 fh)) in pret (i32 ret).
End Code.
Arguments lib W : clear implicits.

(** ** What POSIX says of files, and what libdefuse asks of a library *)

Definition resize (c : list ascii) (n : Z) : list ascii :=
  take (Z.to_nat n) c ++ replicate (Z.to_nat n - length c) nul.

(** The count of a transfer, or -1 with the error number. *)
Definition transfers (w' : Z) (k full : Z) : Prop := k = -1 /\ 0 < w' \/ 0 <= k <= full.

Class PosixFiles (W : Type) `{Posix W} := {
  (** the file of a descriptor, and its offset *)
  content : W -> Z -> option (list ascii);
  seek_offset : W -> Z -> option Z;
  (** each call may fail, and transfer less than asked for *)
  pread_file fd c n off w : content w fd = Some c -> 0 <= off -> 0 <= n <= MAX_RW_COUNT ->
    let '((k, data), w') := c_pread fd n off w in (forall fd', content w' fd' = content w fd') /\
    transfers (err_no w') k (Z.of_nat (length (read_at c off n))) /\ (k <> -1 -> data = take (Z.to_nat k) (read_at c off n));
  read_file fd c n off w : content w fd = Some c -> seek_offset w fd = Some off -> 0 <= n <= MAX_RW_COUNT ->
    let '((k, data), w') := c_read fd n w in (forall fd', content w' fd' = content w fd') /\
    transfers (err_no w') k (Z.of_nat (length (read_at c off n))) /\ (k <> -1 -> data = take (Z.to_nat k) (read_at c off n));
  pwrite_file fd c bs off w : content w fd = Some c -> 0 <= off -> Z.of_nat (length bs) <= MAX_RW_COUNT ->
    let (k, w') := c_pwrite fd bs off w in transfers (err_no w') k (Z.of_nat (length bs)) /\
    exists j, content w' fd = Some (write_at c off (take j bs)) /\ (k <> -1 -> j = Z.to_nat k);
  write_file fd c bs off w : content w fd = Some c -> seek_offset w fd = Some off -> Z.of_nat (length bs) <= MAX_RW_COUNT ->
    let (k, w') := c_write fd bs w in transfers (err_no w') k (Z.of_nat (length bs)) /\
    exists j, content w' fd = Some (write_at c off (take j bs)) /\ (k <> -1 -> j = Z.to_nat k);
  lseek_file fd c off w : content w fd = Some c -> 0 <= off ->
    let (o, w') := c_lseek fd off SEEK_SET w in (forall fd', content w' fd' = content w fd') /\
    (o = -1 /\ 0 < err_no w' \/ o = off /\ seek_offset w' fd = Some off);
  fstat_file fd c w : content w fd = Some c ->
    let '((r, st), w') := c_fstat fd w in (forall fd', content w' fd' = content w fd') /\
    (r = -1 /\ 0 < err_no w' \/ r = 0 /\ st_size st = Z.of_nat (length c));
  ftruncate_file fd c n w : content w fd = Some c -> 0 <= n ->
    let (r, w') := c_ftruncate fd n w in
    r = -1 /\ 0 < err_no w' /\ content w' fd = Some c \/ r = 0 /\ content w' fd = Some (resize c n);
  (** a system without failures and with room *)
  healthy : W -> Prop;
  healthy_pread fd c n off w : healthy w -> content w fd = Some c -> 0 <= off -> 0 <= n <= MAX_RW_COUNT ->
    (c_pread fd n off w).1.1 = Z.of_nat (length (read_at c off n)) /\ healthy (c_pread fd n off w).2;
  healthy_read fd c n off w : healthy w -> content w fd = Some c -> seek_offset w fd = Some off -> 0 <= n <= MAX_RW_COUNT ->
    (c_read fd n w).1.1 = Z.of_nat (length (read_at c off n)) /\ healthy (c_read fd n w).2;
  healthy_pwrite fd c bs off w : healthy w -> content w fd = Some c -> 0 <= off -> Z.of_nat (length bs) <= MAX_RW_COUNT ->
    (c_pwrite fd bs off w).1 = Z.of_nat (length bs) /\ healthy (c_pwrite fd bs off w).2;
  healthy_write fd c bs w : healthy w -> content w fd = Some c -> Z.of_nat (length bs) <= MAX_RW_COUNT ->
    (c_write fd bs w).1 = Z.of_nat (length bs) /\ healthy (c_write fd bs w).2;
  healthy_lseek fd c off w : healthy w -> content w fd = Some c -> 0 <= off ->
    (c_lseek fd off SEEK_SET w).1 = off /\ healthy (c_lseek fd off SEEK_SET w).2;
  healthy_fstat fd c w : healthy w -> content w fd = Some c -> (c_fstat fd w).1.1 = 0 /\ healthy (c_fstat fd w).2;
  healthy_ftruncate fd c n w : healthy w -> content w fd = Some c -> 0 <= n ->
    (c_ftruncate fd n w).1 = 0 /\ healthy (c_ftruncate fd n w).2 }.

Section Contract.
Context {W : Type} `{PosixFiles W}.
Implicit Types (s : lib W).

(** The file behind a handle. *)
Definition lib_serves (s : lib W) (fh : Z) (c : list ascii) : Prop :=
  content (below s) fh = Some c /\ 0 <= fh < 2 ^ 31.

(** Reads, writes and truncations at the interface of a library. *)
Record serves_data (read : Z -> Z -> Z -> prog (lib W) (Z * list ascii * Z))
    (write : Z -> list ascii -> Z -> prog (lib W) (Z * Z)) (ftruncate : Z -> Z -> prog (lib W) Z) : Prop := {
  serves_read : forall s fh c n off, lib_serves s fh c -> 0 <= off -> 0 <= n <= MAX_RW_COUNT ->
    exists r s', read fh n off s = Ret (r, s') /\ read_result c off n r /\ lib_serves s' fh c /\
      (healthy (below s) -> r = (0, read_at c off n, Z.of_nat (length (read_at c off n))) /\ healthy (below s'));
  serves_write : forall s fh c bs off, lib_serves s fh c -> 0 <= off -> Z.of_nat (length bs) <= MAX_RW_COUNT ->
    exists r c' s', write fh bs off s = Ret (r, s') /\ write_result c off bs r c' /\ lib_serves s' fh c' /\
      (healthy (below s) -> r = (0, Z.of_nat (length bs)) /\ healthy (below s'));
  serves_ftruncate : forall s fh c n, lib_serves s fh c -> 0 <= n ->
    exists e s', ftruncate fh n s = Ret (e, s') /\ lib_serves s' fh (if e =? 0 then resize c n else c) /\
      (healthy (below s) -> e = 0 /\ healthy (below s')) }.
Definition serves_size (fgetattr : Z -> prog (lib W) (Z * stat)) : Prop :=
  forall s fh c, lib_serves s fh c ->
    exists r s', fgetattr fh s = Ret (r, s') /\ size_result c r /\ lib_serves s' fh c /\
      (healthy (below s) -> r.1 = 0 /\ healthy (below s')).

Lemma lib_call_ret {A} (f : W -> A * W) s a w : f (below s) = (a, w) -> lib_call f s = Ret (a, Lib (backend s) w).
Proof. unfold lib_call. by intros ->. Qed.

(** A count, or an error number that is not 0. *)
Lemma counted_ret k full s : transfers (err_no (below s)) k full -> full <= MAX_RW_COUNT ->
  counted (i32 k) s = Ret (if k =? -1 then (err_no (below s), 0) else (0, k), s).
Proof.
  unfold MAX_RW_COUNT. intros Hk Hf. unfold counted. rewrite swrap_small by (unfold transfers in Hk; lia).
  destruct (Z.eqb_spec k (-1)); [done|]. rewrite wrap_small by (unfold transfers in Hk; lia). done.
Qed.

Lemma read_at_le c off n : 0 <= n -> 0 <= Z.of_nat (length (read_at c off n)) <= n.
Proof. intros Hn. unfold read_at. rewrite length_take. lia. Qed.

Lemma serves_same s fh c w : lib_serves s fh c -> (forall fd', content w fd' = content (below s) fd') -> lib_serves (Lib (backend s) w) fh c.
Proof. intros [Hc Hf] E. split; [cbn; by rewrite (E fh)|done]. Qed.

(** A call that reads, and its result at the interface. *)
Lemma reads_serve s fh c n off (f : W -> (Z * list ascii) * W) : lib_serves s fh c -> 0 <= n <= MAX_RW_COUNT ->
  (let '((k, data), w') := f (below s) in (forall fd', content w' fd' = content (below s) fd') /\
    transfers (err_no w') k (Z.of_nat (length (read_at c off n))) /\ (k <> -1 -> data = take (Z.to_nat k) (read_at c off n))) ->
  (healthy (below s) -> (f (below s)).1.1 = Z.of_nat (length (read_at c off n)) /\ healthy (f (below s)).2) ->
  exists r s', (let* (ret, data) := lib_call f in let* (ret, k) := counted (i32 ret) in pret (ret, data, k)) s = Ret (r, s') /\
    read_result c off n r /\ lib_serves s' fh c /\
    (healthy (below s) -> r = (0, read_at c off n, Z.of_nat (length (read_at c off n))) /\ healthy (below s')).
Proof.
  intros Hs Hn Hf Hh. destruct (f (below s)) as [[k data] w] eqn:E. destruct Hf as (Hw & Hk & Hd). cbn [fst snd] in Hh.
  pose proof (read_at_le c off n ltac:(lia)) as Hl.
  rewrite (pbind_ret _ _ _ _ _ (lib_call_ret _ _ _ _ E)), (pbind_ret _ _ _ _ _ (counted_ret k _ (Lib (backend s) w) Hk ltac:(lia))).
  destruct (Z.eqb_spec k (-1)) as [->|Hne]; eexists _, (Lib (backend s) w).
  - split; [reflexivity|]. split; [|split; [by apply serves_same|]].
    + destruct Hk as [[_ Hk]|]; [|lia]. cbn. lia.
    + intros K. destruct (Hh K). lia.
  - split; [reflexivity|]. destruct Hk as [[? _]|Hk]; [done|]. rewrite (Hd Hne). split; [done|]. split; [by apply serves_same|].
    intros K. destruct (Hh K) as [-> ?]. by rewrite Nat2Z.id, firstn_all.
Qed.

(** The same for one that writes. *)
Lemma writes_serve s fh c bs off (f : W -> Z * W) : lib_serves s fh c -> Z.of_nat (length bs) <= MAX_RW_COUNT ->
  (let (k, w') := f (below s) in transfers (err_no w') k (Z.of_nat (length bs)) /\
    exists j, content w' fh = Some (write_at c off (take j bs)) /\ (k <> -1 -> j = Z.to_nat k)) ->
  (healthy (below s) -> (f (below s)).1 = Z.of_nat (length bs) /\ healthy (f (below s)).2) ->
  exists r c' s', (let* ret := lib_call f in counted (i32 ret)) s = Ret (r, s') /\ write_result c off bs r c' /\
    lib_serves s' fh c' /\ (healthy (below s) -> r = (0, Z.of_nat (length bs)) /\ healthy (below s')).
Proof.
  intros [Hc Hfh] Hn Hf Hh. destruct (f (below s)) as [k w] eqn:E. destruct Hf as (Hk & j & Hw & Hj). cbn [fst snd] in Hh.
  rewrite (pbind_ret _ _ _ _ _ (lib_call_ret _ _ _ _ E)), (counted_ret k _ (Lib (backend s) w) Hk Hn).
  destruct (Z.eqb_spec k (-1)) as [->|Hne]; eexists _, _, (Lib (backend s) w); (split; [reflexivity|]).
  - split; [|split; [by split|]].
    + destruct Hk as [[_ Hk]|]; [|lia]. split; [cbn; lia|]. intros _. by exists j.
    + intros K. destruct (Hh K). lia.
  - destruct Hk as [[? _]|Hk]; [done|]. rewrite (Hj Hne) in *. split; [|split; [by split|]].
    + split; [done|]. done.
    + intros K. by destruct (Hh K) as [-> ?].
Qed.

Lemma ftruncate_serves s fh c n : lib_serves s fh c -> 0 <= n ->
  exists e s', (let* ret := lib_call (c_ftruncate fh n) in or_errno (i32 ret)) s = Ret (e, s') /\
    lib_serves s' fh (if e =? 0 then resize c n else c) /\ (healthy (below s) -> e = 0 /\ healthy (below s')).
Proof.
  intros [Hc Hf] Hn. pose proof (ftruncate_file fh c n (below s) Hc Hn) as Ht.
  pose proof (fun K => healthy_ftruncate fh c n (below s) K Hc Hn) as Hh.
  destruct (c_ftruncate fh n (below s)) as [r w] eqn:E. cbn [fst snd] in Hh.
  rewrite (pbind_ret _ _ _ _ _ (lib_call_ret _ _ _ _ E)). destruct Ht as [(-> & He & Hw)|(-> & Hw)].
  - exists (err_no w), (Lib (backend s) w). split; [done|]. destruct (Z.eqb_spec (err_no w) 0); [lia|].
    split; [by split|]. intros K. by destruct (Hh K).
  - exists 0, (Lib (backend s) w). split; [done|]. split; [by split|]. intros K. by destruct (Hh K).
Qed.

Lemma fstat_serves : serves_size (fun fh => let* (ret, st) := lib_call (c_fstat (i32 fh)) in
                                            let* ret := or_errno (i32 ret) in pret (ret, st)).
Proof.
  intros s fh c Hs. pose proof Hs as [Hc Hf]. rewrite swrap_small by lia. pose proof (fstat_file fh c (below s) Hc) as Ht.
  pose proof (fun K => healthy_fstat fh c (below s) K Hc) as Hh.
  destruct (c_fstat fh (below s)) as [[r st] w] eqn:E. cbn [fst snd] in Hh. destruct Ht as (Hw & Ht).
  rewrite (pbind_ret _ _ _ _ _ (lib_call_ret _ _ _ _ E)). destruct Ht as [(-> & He)|(-> & Hst)].
  - exists (err_no w, st), (Lib (backend s) w). split; [done|]. split; [unfold size_result; cbn; lia|]. split; [by apply serves_same|].
    intros K. by destruct (Hh K).
  - exists (0, st), (Lib (backend s) w). split; [done|]. split; [by intros _|]. split; [by apply serves_same|]. intros K. by destruct (Hh K).
Qed.

Lemma handle_int fh : 0 <= fh < 2 ^ 31 -> i32 fh = fh.
Proof. intros Hf. apply swrap_small; lia. Qed.

Lemma pread_serves s fh c n off : lib_serves s fh c -> 0 <= off -> 0 <= n <= MAX_RW_COUNT ->
  exists r s', usfs_read fh n off s = Ret (r, s') /\ read_result c off n r /\ lib_serves s' fh c /\
    (healthy (below s) -> r = (0, read_at c off n, Z.of_nat (length (read_at c off n))) /\ healthy (below s')).
Proof.
  intros Hs Ho Hn. pose proof Hs as [Hc _]. apply reads_serve; [done|done|by apply pread_file|].
  intros K. by apply (healthy_pread fh c).
Qed.
Lemma pwrite_serves s fh c bs off : lib_serves s fh c -> 0 <= off -> Z.of_nat (length bs) <= MAX_RW_COUNT ->
  exists r c' s', usfs_write fh bs off s = Ret (r, s') /\ write_result c off bs r c' /\ lib_serves s' fh c' /\
    (healthy (below s) -> r = (0, Z.of_nat (length bs)) /\ healthy (below s')).
Proof.
  intros Hs Ho Hn. pose proof Hs as [Hc _]. apply writes_serve; [done|done|by apply pwrite_file|].
  intros K. by apply (healthy_pwrite fh c).
Qed.

(** The seek before a transfer of avfs_wrap.c. *)
Lemma avfs_seeks s fh c off : lib_serves s fh c -> 0 <= off ->
  exists o s', lib_call (c_lseek fh off SEEK_SET) s = Ret (o, s') /\ lib_serves s' fh c /\
    (o = -1 /\ 0 < err_no (below s') \/ o = off /\ seek_offset (below s') fh = Some off) /\
    (healthy (below s) -> o = off /\ healthy (below s')).
Proof.
  intros Hs Ho. pose proof Hs as [Hc Hf]. pose proof (lseek_file fh c off (below s) Hc Ho) as Hl.
  pose proof (fun K => healthy_lseek fh c off (below s) K Hc Ho) as Hh.
  destruct (c_lseek fh off SEEK_SET (below s)) as [o w] eqn:E. destruct Hl as [Hw Hl].
  exists o, (Lib (backend s) w). split; [by apply lib_call_ret|]. split; [by apply serves_same|]. done.
Qed.

Lemma avfs_serves : serves_data avfs_read avfs_write avfs_ftruncate.
Proof.
  split.
  - intros s fh c n off Hs Ho Hn. unfold avfs_read. rewrite handle_int by apply Hs.
    destruct (avfs_seeks s fh c off Hs Ho) as (o & s1 & E1 & Hs1 & Hp & Hh). rewrite (pbind_ret _ _ _ _ _ E1).
    destruct Hp as [(-> & He)|(-> & Hp)].
    + eexists _, s1. split; [reflexivity|]. split; [cbn; lia|]. split; [done|]. intros K. destruct (Hh K). lia.
    + destruct (Z.eqb_spec off (-1)); [lia|]. pose proof Hs1 as [Hc1 _].
      destruct (reads_serve s1 fh c n off (c_read fh n) Hs1 Hn) as (r & s2 & E2 & Hr & Hs2 & Hh2);
        [by apply read_file|intros K; by apply (healthy_read fh c)|].
      exists r, s2. split; [done|]. split; [done|]. split; [done|]. intros K. by apply Hh2, Hh.
  - intros s fh c bs off Hs Ho Hn. unfold avfs_write. rewrite handle_int by apply Hs.
    destruct (avfs_seeks s fh c off Hs Ho) as (o & s1 & E1 & Hs1 & Hp & Hh). rewrite (pbind_ret _ _ _ _ _ E1).
    destruct Hp as [(-> & He)|(-> & Hp)].
    + eexists _, c, s1. split; [reflexivity|]. split; [split; [cbn; lia|]; intros _; by exists 0%nat|].
      split; [done|]. intros K. destruct (Hh K). lia.
    + destruct (Z.eqb_spec off (-1)); [lia|]. pose proof Hs1 as [Hc1 _].
      destruct (writes_serve s1 fh c bs off (c_write fh bs) Hs1 Hn) as (r & c' & s2 & E2 & Hr & Hs2 & Hh2);
        [by apply write_file|intros K; by apply (healthy_write fh c)|].
      exists r, c', s2. split; [done|]. split; [done|]. split; [done|]. intros K. by apply Hh2, Hh.
  - intros s fh c n Hs Hn. unfold avfs_ftruncate. rewrite handle_int by apply Hs. by apply ftruncate_serves.
Qed.

(** C29: The libraries keep the contract that libdefuse relies on.  Over calls that
    behave as POSIX documents, which may fail or transfer less than asked for, reading,
    writing and truncating through usfs_wrap.c, cruise_wrap.c and avfs_wrap.c return
    either an error number that is not 0, or 0 with the count and the bytes of the file
    behind the handle at the given offset, and the file afterwards is the one with the
    counted bytes written; for avfs_wrap.c this is so although it moves the offset of
    the descriptor.  Over a system that does not fail they do all they are asked for.
    usfs_wrap.c and avfs_wrap.c also report the size; cruise_wrap.c passes the handle
    for a path there and has no behaviour.  Handles are descriptors, offsets are not
    negative and transfers are of at most what one call can move. *)
Theorem libraries_serve_files :
  serves_data usfs_read usfs_write usfs_ftruncate /\ serves_size usfs_fgetattr /\
  serves_data cruise_read cruise_write cruise_ftruncate /\
  serves_data avfs_read avfs_write avfs_ftruncate /\ serves_size avfs_fgetattr.
Proof.
  split; [|split; [apply fstat_serves|split; [|split; [apply avfs_serves|apply fstat_serves]]]].
  - split; intros; [by apply pread_serves|by apply pwrite_serves|by apply ftruncate_serves].
  - split; intros s fh c; intros; match goal with Hs : lib_serves _ _ _ |- _ => pose proof (handle_int fh (proj2 Hs)) as Ef end;
      unfold cruise_read, cruise_write, cruise_ftruncate; rewrite Ef;
      [by apply pread_serves|by apply pwrite_serves|by apply ftruncate_serves].
Qed.
End Contract.

Section Opening.
Context {W : Type} `{Posix W}.

(** Opening puts the backend's path in front of the path, cut to PATH_MAX - 1
    bytes, and hands the descriptor out as the handle, or returns the error number.
    The limit differs: usfs_wrap.c takes descriptor 0 for an error, returns whatever
    the error number happens to be, stores no handle and leaves the file open;
    cruise_wrap.c and avfs_wrap.c hand it out.  Before [usfs_init] there is no
    backend and the path cannot be built. *)
Theorem open_returns_handle_or_errno (s : lib W) path flags mode b fd w :
  backend s = Some b -> c_open (take 4095 (b ++ lit "/" ++ path)) flags mode (below s) = (fd, w) -> -1 <= fd < 2 ^ 31 ->
  let handle := Ret ((0, Some fd), Lib (Some b) w) in
  let failed := Ret ((err_no w, None), Lib (Some b) w) in
  usfs_open path flags mode s = (if 0 <? fd then handle else failed) /\
  cruise_open path flags mode s = (if 0 <=? fd then handle else failed) /\
  avfs_open path flags mode s = (if 0 <=? fd then handle else failed) /\
  usfs_open path flags mode (Lib None (below s)) = Undef.
Proof.
  intros Hb Ho Hfd. cbv zeta.
  assert (backend_file path s = Ret (take 4095 (b ++ lit "/" ++ path), s)) as Ep by (unfold backend_file; by rewrite Hb).
  pose proof (lib_call_ret (c_open (take 4095 (b ++ lit "/" ++ path)) flags mode) s fd w Ho) as Ec. rewrite Hb in Ec.
  assert (forall ok, opened ok (i32 fd) (Lib (Some b) w) =
    if ok then Ret ((0, Some (u64 fd)), Lib (Some b) w) else Ret ((err_no w, None), Lib (Some b) w)) as Eo.
  { intros ok. unfold opened. rewrite swrap_small by lia. by destruct ok. }
  unfold usfs_open, cruise_open, avfs_open. rewrite !(pbind_ret _ _ _ _ _ Ep), !(pbind_ret _ _ _ _ _ Ec). cbv zeta.
  rewrite !Eo, swrap_small, Z.gtb_ltb, Z.geb_leb by lia. split; [|split; [|split; [|done]]].
  - destruct (Z.ltb_spec 0 fd); [by rewrite wrap_small by lia|done].
  - destruct (Z.leb_spec 0 fd); [by rewrite wrap_small by lia|done].
  - destruct (Z.leb_spec 0 fd); [by rewrite wrap_small by lia|done].
Qed.
End Opening.

Module UsfsExample.
(** Open files by descriptor, each with an offset; the next descriptor is fixed.  With a
    quota no call transfers more, and with a quota of 0 each transfer fails. *)
Record disk := Disk { files : gmap Z (list ascii * Z); next : Z; quota : option nat }.

Definition with_file {A} (w : disk) (fd : Z) (bad : A) (f : list ascii -> Z -> A * (list ascii * Z)) : A * disk :=
  match files w !! fd with
  | Some (c, o) => let (a, x) := f c o in (a, Disk (<[fd := x]> (files w)) (next w) (quota w))
  | None => (bad, w)
  end.
Definition no_stat : stat := Stat 0 0 0 0 0 0 0 0 0 0 0 0 0.
Definition size_stat (c : list ascii) : stat := Stat 0 0 33188 1 0 0 0 (Z.of_nat (length c)) 4096 0 0 0 0.

(** The bytes a call transfers; [None] when it fails. *)
Definition granted (w : disk) (l : list ascii) : option (list ascii) :=
  match quota w with None => Some l | Some O => None | Some q => Some (take q l) end.
Definition disk_read (w : disk) (c : list ascii) (off n o : Z) (moves : bool) : (Z * list ascii) * (list ascii * Z) :=
  match granted w (read_at c off n) with
  | Some d => ((Z.of_nat (length d), d), (c, if moves then o + Z.of_nat (length d) else o))
  | None => ((-1, []), (c, o))
  end.
Definition disk_write (w : disk) (c : list ascii) (off : Z) (bs : list ascii) (o : Z) (moves : bool) : Z * (list ascii * Z) :=
  match granted w bs with
  | Some d => (Z.of_nat (length d), (write_at c off d, if moves then o + Z.of_nat (length d) else o))
  | None => (-1, (c, o))
  end.

#[export] Instance disk_posix : Posix disk := {|
  err_no := fun _ => 2;
  c_open := fun p _ _ w => (next w, Disk (<[next w := (p, 0)]> (files w)) (next w + 1) (quota w));
  c_close := fun fd w => (0, Disk (delete fd (files w)) (next w) (quota w));
  c_pread := fun fd n off w => with_file w fd (-1, []) (fun c o => disk_read w c off n o false);
  c_pwrite := fun fd bs off w => with_file w fd (-1) (fun c o => disk_write w c off bs o false);
  c_lseek := fun fd off _ w => with_file w fd (-1) (fun c o => (off, (c, off)));
  c_read := fun fd n w => with_file w fd (-1, []) (fun c o => disk_read w c o n o true);
  c_write := fun fd bs w => with_file w fd (-1) (fun c o => disk_write w c o bs o true);
  c_fsync := fun _ w => (0, w);
  c_fdatasync := fun _ w => (0, w);
  c_truncate := fun _ _ w => (0, w);
  c_ftruncate := fun fd n w => with_file w fd (-1) (fun c o => (0, (resize c n, o)));
  c_fstat := fun fd w => with_file w fd (-1, no_stat) (fun c o => ((0, size_stat c), (c, o)));
  c_stat := fun _ w => ((-1, no_stat), w);
  c_lstat := fun _ w => ((-1, no_stat), w);
  c_unlink := fun _ w => (0, w);
  c_access := fun _ _ w => (0, w);
  c_readlink := fun _ _ w => ((-1, []), w);
  c_mount := fun _ _ _ w => w |}.

Definition disk_content (w : disk) (fd : Z) : option (list ascii) := fst <$> files w !! fd.

(** What a call on an open file does to the contents. *)
Lemma with_file_spec {A} w fd (bad : A) f c : disk_content w fd = Some c ->
  exists o a c' o', files w !! fd = Some (c, o) /\ f c o = (a, (c', o')) /\
    with_file w fd bad f = (a, Disk (<[fd := (c', o')]> (files w)) (next w) (quota w)) /\
    disk_content (Disk (<[fd := (c', o')]> (files w)) (next w) (quota w)) fd = Some c' /\
    (c' = c -> forall fd', disk_content (Disk (<[fd := (c', o')]> (files w)) (next w) (quota w)) fd' = disk_content w fd').
Proof.
  unfold disk_content. destruct (files w !! fd) as [[c0 o]|] eqn:E; [|done]. intros [= <-].
  destruct (f c0 o) as [a [c' o']] eqn:Ef. exists o, a, c', o'. unfold with_file. rewrite E, Ef.
  split; [done|]. split; [done|]. split; [done|]. split; [cbn; by rewrite lookup_insert_eq|].
  intros -> fd'. cbn. destruct (decide (fd = fd')) as [<-|Hne]; [by rewrite lookup_insert_eq, E|by rewrite lookup_insert_ne].
Qed.

Lemma granted_spec w l d : granted w l = Some d -> (length d <= length l)%nat /\ d = take (length d) l /\ (quota w = None -> d = l).
Proof.
  unfold granted. destruct (quota w) as [[|q]|]; [done| |].
  - intros [= <-]. rewrite length_take. split; [lia|]. split; [|done]. destruct (Nat.le_ge_cases (S q) (length l)).
    + by rewrite Nat.min_l.
    + by rewrite Nat.min_r, firstn_all, take_ge.
  - intros [= <-]. by rewrite firstn_all.
Qed.
Lemma granted_all w l : quota w = None -> granted w l = Some l.
Proof. unfold granted. by intros ->. Qed.

Lemma disk_read_spec w c off n o b k d c' o' : disk_read w c off n o b = ((k, d), (c', o')) ->
  c' = c /\ transfers 2 k (Z.of_nat (length (read_at c off n))) /\ (k <> -1 -> d = take (Z.to_nat k) (read_at c off n)).
Proof.
  unfold disk_read, transfers. destruct (granted w _) as [x|] eqn:E; intros [= <- <- <- _].
  - destruct (granted_spec _ _ _ E) as (Hl & Hx & _). split; [done|]. split; [lia|]. intros _. by rewrite Nat2Z.id.
  - split; [done|]. split; [lia|done].
Qed.
Lemma disk_write_spec w c off bs o b k c' o' : disk_write w c off bs o b = (k, (c', o')) ->
  transfers 2 k (Z.of_nat (length bs)) /\ exists j, c' = write_at c off (take j bs) /\ (k <> -1 -> j = Z.to_nat k).
Proof.
  unfold disk_write, transfers. destruct (granted w _) as [x|] eqn:E; intros [= <- <- _].
  - destruct (granted_spec _ _ _ E) as (Hl & Hx & _). split; [lia|]. exists (length x). rewrite <- Hx, Nat2Z.id. done.
  - split; [lia|]. by exists 0%nat.
Qed.

Ltac on_file Hc :=
  let E := fresh "E" in let Ef := fresh "Ef" in
  match goal with |- context [@with_file ?A ?w ?fd ?bad ?g] =>
    destruct (with_file_spec w fd bad g _ Hc) as (o & a & c' & o' & Eo & Ef & E & Hc' & Hsame) end;
  rewrite E.

#[export] Program Instance disk_files : PosixFiles disk := {|
  content := disk_content; seek_offset := fun w fd => snd <$> files w !! fd; healthy := fun w => quota w = None |}.
Next Obligation.
  intros fd c n off w Hc Ho Hn. cbn. on_file Hc. destruct a as [k d].
  destruct (disk_read_spec _ _ _ _ _ _ _ _ _ _ Ef) as (-> & ? & ?). split; [by apply Hsame|done].
Qed.
Next Obligation.
  intros fd c n off w Hc Hp Hn. cbn. on_file Hc. destruct a as [k d]. cbv beta in Hp. rewrite Eo in Hp. injection Hp as ->.
  destruct (disk_read_spec _ _ _ _ _ _ _ _ _ _ Ef) as (-> & ? & ?). split; [by apply Hsame|done].
Qed.
Next Obligation.
  intros fd c bs off w Hc Ho Hn. cbn. on_file Hc. destruct (disk_write_spec _ _ _ _ _ _ _ _ _ Ef) as (? & j & -> & ?).
  split; [done|]. by exists j.
Qed.
Next Obligation.
  intros fd c bs off w Hc Hp Hn. cbn. on_file Hc. cbv beta in Hp. rewrite Eo in Hp. injection Hp as ->.
  destruct (disk_write_spec _ _ _ _ _ _ _ _ _ Ef) as (? & j & -> & ?). split; [done|]. by exists j.
Qed.
Next Obligation.
  intros fd c off w Hc Ho. cbn. on_file Hc. injection Ef as <- <- <-. split; [by apply Hsame|]. right. split; [done|].
  cbn. by rewrite lookup_insert_eq.
Qed.
Next Obligation.
  intros fd c w Hc. cbn. on_file Hc. injection Ef as <- <- <-. split; [by apply Hsame|]. by right.
Qed.
Next Obligation. intros fd c n w Hc Hn. cbn. on_file Hc. injection Ef as <- <- <-. by right. Qed.
Next Obligation.
  intros fd c n off w Hq Hc Ho Hn. cbn. on_file Hc. unfold disk_read in Ef. rewrite granted_all in Ef by done. by injection Ef as <- <- <-.
Qed.
Next Obligation.
  intros fd c n off w Hq Hc Hp Hn. cbn. on_file Hc. cbv beta in Hp. rewrite Eo in Hp. injection Hp as ->.
  unfold disk_read in Ef. rewrite granted_all in Ef by done. by injection Ef as <- <- <-.
Qed.
Next Obligation.
  intros fd c bs off w Hq Hc Ho Hn. cbn. on_file Hc. unfold disk_write in Ef. rewrite granted_all in Ef by done. by injection Ef as <- <- <-.
Qed.
Next Obligation.
  intros fd c bs w Hq Hc Hn. cbn. on_file Hc. unfold disk_write in Ef. rewrite granted_all in Ef by done. by injection Ef as <- <- <-.
Qed.
Next Obligation. intros fd c off w Hq Hc Ho. cbn. on_file Hc. by injection Ef as <- <- <-. Qed.
Next Obligation. intros fd c w Hq Hc. cbn. on_file Hc. by injection Ef as <- <- <-. Qed.
Next Obligation. intros fd c n w Hq Hc Hn. cbn. on_file Hc. by injection Ef as <- <- <-. Qed.

(** A read of four bytes from a system that transfers two at a time. *)
Lemma libraries_serve_files_witness :
  exists s', avfs_read 3 4 1 (Lib (Some (lit "/b")) (Disk {[3 := (lit "hello", 0)]} 4 (Some 2%nat))) = Ret ((0, lit "el", 2), s') /\
    lib_serves s' 3 (lit "hello") /\ read_result (lit "hello") 1 4 (0, lit "el", 2).
Proof.
  destruct (libraries_serve_files (W := disk)) as (_ & _ & _ & Ha & _).
  destruct (serves_read _ _ _ Ha (Lib (Some (lit "/b")) (Disk {[3 := (lit "hello", 0)]} 4 (Some 2%nat))) 3 (lit "hello") 4 1) as (r & s' & E & Hr & Hs & _);
    [done|lia|unfold MAX_RW_COUNT; lia|].
  exists s'. vm_compute in E. injection E as <- <-. split; [vm_compute; reflexivity|]. by split.
Defined.

(** With standard input closed the first descriptor is 0. *)
Definition fresh_disk : disk := Disk ∅ 0 None.

Lemma open_returns_handle_or_errno_witness :
  let w := Disk {[0 := (lit "/data//f", 0)]} 1 None in
  usfs_open (lit "/f") 0 0 (Lib (Some (lit "/data")) fresh_disk) = Ret ((2, None), Lib (Some (lit "/data")) w) /\
  cruise_open (lit "/f") 0 0 (Lib (Some (lit "/data")) fresh_disk) = Ret ((0, Some 0), Lib (Some (lit "/data")) w) /\
  avfs_open (lit "/f") 0 0 (Lib (Some (lit "/data")) fresh_disk) = Ret ((0, Some 0), Lib (Some (lit "/data")) w) /\
  usfs_open (lit "/f") 0 0 (Lib None fresh_disk) = Undef.
Proof.
  assert (c_open (lit "/data//f") 0 0 fresh_disk = (0, Disk {[0 := (lit "/data//f", 0)]} 1 None)) as E by (vm_compute; reflexivity).
  exact (open_returns_handle_or_errno (Lib (Some (lit "/data")) fresh_disk) (lit "/f") 0 0 (lit "/data") 0
           (Disk {[0 := (lit "/data//f", 0)]} 1 None) eq_refl E ltac:(lia)).
Defined.
End UsfsExample.
