(* ===== verification/Varint.v ===== *)
(** * Variable-length integers (src/usfs_wrap/hdfs/varint.c), minima and rounding

    The lengths of the messages to and from HDFS.  [varint_roundtrip] is the
    correctness of the pair: what is encoded is decoded, with the same number of
    bytes, at most ten, whatever follows. *)

From Stdlib Require Import ZArith Lia Ascii.
From stdpp Require Import base list.
From S2P Require Import Prelude.

Local Open Scope Z_scope.

(** The bytes stored in the buffer, in order.  [fuel] bounds the rounds; 64 bits
    are ten groups of seven. *)
Fixpoint encode_loop (fuel : nat) (value : Z) : outcome (list ascii) :=
  match fuel with
  | O => Undef
  | S fuel =>
      let next_byte := Z.land value 127 in
      let value := Z.shiftr value 7 in
      if negb (value =? 0) then
        let! l := encode_loop fuel value in Ret (byte_of_Z (Z.lor next_byte 128) :: l)
      else Ret [byte_of_Z next_byte]
  end.

(** The buffer and the number of bytes; a buffer that is too short is overrun. *)
Definition encode_unsigned_varint (buffer : list ascii) (value : Z) : outcome (list ascii * Z) :=
  let! l := encode_loop 10 value in
  if (length l <=? length buffer)%nat then Ret (splice buffer 0 l, Z.of_nat (length l)) else Undef.

(** The data is read until a byte without the high bit; a shift by 64 or more is
    undefined, and so is reading behind the end. *)
Fixpoint decode_loop (data : list ascii) (decoded_value shift_amount i : Z) : outcome (Z * Z) :=
  match data with
  | [] => Undef
  | b :: data =>
      if shift_amount <? 64 then
        let decoded_value := Z.lor decoded_value (u64 (Z.shiftl (Z.land (Z_of_byte b) 127) shift_amount)) in
        if negb (Z.land (Z_of_byte b) 128 =? 0) then decode_loop data decoded_value (shift_amount + 7) (i + 1)
        else Ret (decoded_value, i + 1)
      else Undef
  end.

(** The value and the number of bytes, stored in a [uint8_t]. *)
Definition decode_unsigned_varint (data : list ascii) : outcome (Z * Z) :=
  let! (v, i) := decode_loop data 0 0 0 in Ret (v, u8 i).

(** minmax.h and roundup.h *)
Definition min (a b : Z) : Z := if a <? b then a else b.
Definition max (a b : Z) : Z := if a >? b then a else b.
Definition roundup (num multiple : Z) : outcome Z :=
  if multiple =? 0 then Undef else Ret (u32 (num + multiple - 1) / multiple).

(** ** Round trip *)

Lemma land_127 v : Z.land v 127 = v mod 128.
Proof. change 127 with (Z.ones 7). by rewrite Z.land_ones by lia. Qed.

Lemma lor_disjoint a x k : 0 <= k -> 0 <= a < 2 ^ k -> Z.lor a (Z.shiftl x k) = a + x * 2 ^ k.
Proof.
  intros Hk Ha. rewrite <- Z.shiftl_mul_pow2 by lia. pose proof (Z.add_lor_land a (Z.shiftl x k)) as E.
  assert (Z.land a (Z.shiftl x k) = 0) as E0; [|lia].
  apply Z.bits_inj'. intros n Hn. rewrite Z.land_spec, Z.shiftl_spec, Z.bits_0 by lia. destruct (Z.ltb_spec n k).
  - rewrite (Z.testbit_neg_r x) by lia. apply andb_false_r.
  - destruct (Z.eq_dec a 0) as [->|]; [by rewrite Z.bits_0|]. rewrite Z.bits_above_log2; [done|lia|].
    apply (Z.lt_le_trans _ k); [|lia]. apply Z.log2_lt_pow2; lia.
Qed.

(** The two forms of a byte. *)
Definition group_ok (nb : Z) : bool :=
  (Z.land (Z_of_byte (byte_of_Z nb)) 127 =? nb) && (Z.land (Z_of_byte (byte_of_Z nb)) 128 =? 0) &&
  (Z.land (Z_of_byte (byte_of_Z (Z.lor nb 128))) 127 =? nb) &&
  negb (Z.land (Z_of_byte (byte_of_Z (Z.lor nb 128))) 128 =? 0).

Lemma groups_ok nb : 0 <= nb < 128 -> group_ok nb = true.
Proof.
  assert (forallb (fun n => group_ok (Z.of_nat n)) (seq 0 128) = true) as Hall by (vm_compute; reflexivity).
  intros Hn. rewrite forallb_forall in Hall. rewrite <- (Z2Nat.id nb) by lia. apply Hall, in_seq. lia.
Qed.

(** The parts of a product. *)
Lemma group_mul v p : 0 <= v -> 0 < p ->
  0 <= v mod 128 * p <= 127 * p /\ 0 <= v / 128 * p /\ v * p = v mod 128 * p + v / 128 * (128 * p).
Proof.
  intros Hv Hp. pose proof (Z.mod_pos_bound v 128 ltac:(lia)). pose proof (Z.div_pos v 128 Hv ltac:(lia)).
  split; [split; [apply Z.mul_nonneg_nonneg; lia|apply Z.mul_le_mono_nonneg_r; lia]|].
  split; [apply Z.mul_nonneg_nonneg; lia|]. rewrite (Z.div_mod v 128) at 1 by lia. ring.
Qed.

Lemma encode_decode_loop fuel value : (0 < fuel)%nat -> 0 <= value < 2 ^ (7 * Z.of_nat fuel) ->
  exists l, encode_loop fuel value = Ret l /\ (1 <= length l <= fuel)%nat /\
    forall rest acc sh i, 0 <= sh < 64 -> 0 <= acc < 2 ^ sh -> value * 2 ^ sh < 2 ^ 64 ->
      decode_loop (l ++ rest) acc sh i = Ret (acc + value * 2 ^ sh, i + Z.of_nat (length l)).
Proof.
  revert value. induction fuel as [|fuel IH]; intros value Hf Hv; [lia|]. cbn [encode_loop].
  rewrite land_127, Z.shiftr_div_pow2 by lia. change (2 ^ 7) with 128.
  pose proof (Z.mod_pos_bound value 128 ltac:(lia)) as Hm. pose proof (groups_ok _ Hm) as Hg. unfold group_ok in Hg. bools.
  assert (forall acc sh, 0 <= sh -> 0 <= acc < 2 ^ sh -> value * 2 ^ sh < 2 ^ 64 ->
    Z.lor acc (u64 (Z.shiftl (value mod 128) sh)) = acc + (value mod 128) * 2 ^ sh) as Hlor.
  { intros acc sh Hsh Hacc Hv'. rewrite wrap_small; [by apply lor_disjoint|]. rewrite Z.shiftl_mul_pow2 by lia.
    destruct (group_mul value (2 ^ sh)) as (? & ? & ?); lia. }
  destruct (Z.eqb_spec (value / 128) 0) as [E0|E0]; cbn [negb].
  - eexists. split; [reflexivity|]. split; [cbn; lia|]. intros rest acc sh i Hsh Hacc Hv'. cbn [app decode_loop].
    rewrite (proj2 (Z.ltb_lt sh 64)) by lia. rewrite H, H2, Z.eqb_refl. cbn [negb]. rewrite Hlor by lia.
    do 2 f_equal. f_equal. destruct (group_mul value (2 ^ sh)) as (_ & _ & ->); [lia..|]. rewrite E0. ring.
  - assert (0 <= value / 128) by (apply Z.div_pos; lia).
    assert (value / 128 < 2 ^ (7 * Z.of_nat fuel)) as Hlt.
    { apply Z.div_lt_upper_bound; [lia|]. change 128 with (2 ^ 7). rewrite <- Z.pow_add_r by lia.
      replace (7 + 7 * Z.of_nat fuel) with (7 * Z.of_nat (S fuel)) by lia. apply Hv. }
    assert (0 < fuel)%nat as Hf' by (destruct fuel; [change (2 ^ (7 * Z.of_nat 0)) with 1 in Hlt|]; lia).
    destruct (IH (value / 128) Hf') as (l & El & Hl & IHl); [lia|].
    rewrite El. eexists. split; [reflexivity|]. split; [cbn; lia|]. intros rest acc sh i Hsh Hacc Hv'.
    cbn [app decode_loop]. rewrite (proj2 (Z.ltb_lt sh 64)) by lia. rewrite H1, (proj2 (Z.eqb_neq _ _) H0). cbn [negb].
    rewrite Hlor by lia. assert (2 ^ (sh + 7) = 128 * 2 ^ sh) as Hp by (rewrite Z.pow_add_r by lia; lia).
    destruct (group_mul value (2 ^ sh)) as (Hr & Hq & Hs); [lia..|].
    rewrite IHl; rewrite ?Hp; [do 2 f_equal; [lia|cbn [length]; lia]| |lia|lia].
    split; [lia|]. apply Z.nle_gt. intros H64. assert (2 ^ 64 <= 2 ^ (sh + 7)) by (apply Z.pow_le_mono_r; lia).
    pose proof (Z.mul_le_mono_nonneg_r 1 (value / 128) (128 * 2 ^ sh)). lia.
Qed.

(** Encoding and decoding are inverse for every 64-bit value: encoding fills
    between one and ten bytes of a buffer that has room for ten, and decoding the
    buffer, whatever else it holds, gives the value and the number of bytes back. *)
Theorem varint_roundtrip buffer value :
  0 <= value < 2 ^ 64 -> (10 <= length buffer)%nat ->
  exists l n, encode_unsigned_varint buffer value = Ret (l, n) /\ length l = length buffer /\ 1 <= n <= 10 /\
    drop (Z.to_nat n) l = drop (Z.to_nat n) buffer /\ decode_unsigned_varint l = Ret (value, n).
Proof.
  intros Hv Hb. destruct (encode_decode_loop 10 value) as (l & E & Hl & Hd); [lia|lia|].
  unfold encode_unsigned_varint. rewrite E. unfold mbind, outcome_bind. rewrite (proj2 (Nat.leb_le _ _)) by lia.
  exists (splice buffer 0 l), (Z.of_nat (length l)). unfold splice. rewrite take_0, Nat.add_0_l, Nat2Z.id. cbn [app].
  split; [done|]. split; [rewrite length_app, length_drop; lia|]. split; [lia|]. split; [by rewrite drop_app_length|].
  unfold decode_unsigned_varint. rewrite Hd by lia. unfold mbind, outcome_bind. rewrite wrap_small by lia.
  do 2 f_equal; lia.
Qed.

Lemma varint_roundtrip_witness :
  exists l n, encode_unsigned_varint (replicate 12 "x"%char) 300 = Ret (l, n) /\ length l = length (replicate 12 "x"%char) /\
    1 <= n <= 10 /\ drop (Z.to_nat n) l = drop (Z.to_nat n) (replicate 12 "x"%char) /\ decode_unsigned_varint l = Ret (300, n).
Proof. apply (varint_roundtrip (replicate 12 "x"%char) 300); [lia|cbn; lia]. Defined.
