(* ===== verification/HadoopRpc.v ===== *)
(** * The wire protocol of HDFS (src/usfs_wrap/hdfs/hadooprpc.c)

    Calls to the name node, and blocks to and from data nodes as sequences of
    packets with checksums.  Sockets and the generated protobuf code are
    parameters: a message is the bytes that packing gives.  A [recvfrom] that
    stores fewer bytes than were asked for is not noticed by the code; the bytes
    that are missing are undefined.

    [send_packets_delivers] shows what a data node gets: packets with consecutive
    numbers and offsets whose data is the data of the buffers, each chunk with its
    CRC-32C, and the empty packet that ends the block.  [receive_packets_delivers]
    shows that the packets of a data node, cut in any way, arrive in the caller's
    buffer without the bytes that were only sent for alignment. *)

From Stdlib Require Import ZArith Lia Ascii String.
From stdpp Require Import base list.
From S2P Require Import Prelude Crc32c Varint.

Local Open Scope Z_scope.

(** ** Messages *)

(** [PacketHeaderProto], [PipelineAckProto] and [RpcResponseHeaderProto]; of the
    response of a data node the status, and the message as it came. *)
Record packet_header := PacketHeader {
  offsetinblock : Z; seqno : Z; lastpacketinblock : bool; datalen : Z }.
Record pipeline_ack := PipelineAck { ack_seqno : Z; ack_status : list Z }.
Record rpc_response_header := RpcResponseHeader { rpc_status : Z; errordetail : option Z }.
Record server_defaults := ServerDefaults {
  sd_writepacketsize : Z; sd_blocksize : Z; sd_replication : Z; sd_bytesperchecksum : Z; sd_checksumtype : option Z }.

(** Unpacking gives a null pointer for bytes that are no message. *)
Class Protobuf := {
  pack_packet_header : packet_header -> list ascii;
  unpack_packet_header : list ascii -> option packet_header;
  unpack_pipeline_ack : list ascii -> option pipeline_ack;
  pack_client_read_status : Z -> list ascii;
  block_op_status : list ascii -> option Z;
  (** the call number; the name of the method; the user *)
  pack_rpc_request_header : Z -> list ascii;
  pack_request_header : list ascii -> list ascii;
  pack_connection_context : list ascii -> list ascii;
  unpack_rpc_response_header : list ascii -> option rpc_response_header;
  pack_renew_lease : list ascii -> list ascii;
  pack_server_defaults_request : list ascii;
  unpack_server_defaults : list ascii -> option server_defaults }.

Class Net (W : Type) := {
  sendto : Z -> list ascii -> W -> Z * W;
  recvfrom : Z -> Z -> W -> (Z * list ascii) * W;
  socket : W -> Z * W;
  connect : Z -> list ascii -> Z -> W -> Z * W;
  set_linger : Z -> Z -> W -> Z * W;
  close_socket : Z -> W -> Z * W;
  pthread_create : W -> Z * W;
  pthread_cancel : W -> W;
  sleep : Z -> W -> W;
  user_name : W -> list ascii }.

Definition SUCCESS : Z := 0.
Definition CHECKSUM_OK : Z := 6.
Definition CHECKSUM_NULL : Z := 0.
Definition CHECKSUM_CRC32 : Z := 1.
Definition CHECKSUM_CRC32C : Z := 2.
Definition CONNECTION_CONTEXT_CALL_ID : Z := -3.

Record connection_state := ConnectionState { sockfd : Z; next_call_id : Z; isconnected : bool }.
Record namenode_state := NamenodeState {
  connection : connection_state; clientname : list ascii;
  packetsize : Z; blocksize : Z; replication : Z; bytesperchecksum : Z; checksumtype : Z }.

(** The data of a buffer is null when zeroes are to be sent. *)
Record hadoop_fuse_buffer := HadoopFuseBuffer { hb_data : option (list ascii); hb_len : Z }.
Record buffer_pos := BufferPos { bp_buffers : list hadoop_fuse_buffer; bufferoffset : Z; bp_len : Z }.
(** A field of 8 bits. *)
Definition n_buffers (from : buffer_pos) : Z := wrap 8 (Z.of_nat (length (bp_buffers from))).
Record checksum_proto := ChecksumProto { ck_type : Z; ck_bytesperchecksum : Z }.

Section Code.
Context `{Protobuf} {W : Type} `{Net W}.
(** Whether assertions are left out, as the default target of the Makefile has it;
    the processor, and where the packet lies in memory. *)
Context (ndebug : bool) (crc32b : Z -> ascii -> Z) (crc32q : Z -> Z -> Z) (sse42 : bool) (packet_addr : Z).

Abbreviation M := (prog (connection_state * W)).

Definition net {A} (f : W -> A * W) : M A := fun s =>
  let (a, w) := f s.2 in Ret (a, (s.1, w)).
Definition conn : M connection_state := fun s => Ret (s.1, s).

(** ** Sending *)

Definition hadoop_rpc_send (it : list ascii) : M Z :=
  let* c := conn in net (sendto (sockfd c) it).
Definition hadoop_rpc_send_int32 (it : Z) : M Z := hadoop_rpc_send (be_bytes 4 it).
Definition hadoop_rpc_send_int16 (it : Z) : M Z := hadoop_rpc_send (be_bytes 2 it).

(** A message with its length in front. *)
Definition PACK (msg : list ascii) : M (list ascii) :=
  let* (lenbuf, lenlen) := plift (encode_unsigned_varint (replicate 10 nul) (u32 (Z.of_nat (length msg)))) in
  pret (take (Z.to_nat lenlen) lenbuf ++ msg).

(** The bytes of a successful [recvfrom (..., MSG_WAITALL)]; [inr] the negative
    result. *)
Definition recv (n : Z) : M (list ascii + Z) :=
  let* c := conn in
  let* (res, data) := net (recvfrom (sockfd c) n) in
  if res <? 0 then pret (inr (i32 res))
  else if Z.of_nat (length data) =? n then pret (inl data) else plift Undef.

(** ** Receiving a message of a data node *)

(** Five bytes are read for the length; those that belong to the message already
    are copied to its front. *)
Definition hadoop_rpc_receive_proto : M (list ascii + Z) :=
  let* r := recv 5 in
  match r with
  | inr res => pret (inr res)
  | inl len_varint =>
      let* (len, len_varintlen) := plift (decode_unsigned_varint len_varint) in
      let bytesinwrongbuf := u8 (5 - len_varintlen) in
      if bytesinwrongbuf >? len then plift Undef
      else
        let* r := recv (u64 (len - bytesinwrongbuf)) in
        match r with
        | inr res => pret (inr res)
        | inl rest => pret (inl (drop (Z.to_nat len_varintlen) len_varint ++ rest))
        end
  end.

(** The result, and the response when it is 0. *)
Definition datanode_errno (status : Z) : Z :=
  if status =? 1 then - EPROTO
  else if status =? 2 then - EBADMSG
  else if status =? 3 then - EINVAL
  else if status =? 4 then - EEXIST
  else if status =? 5 then - EACCES
  else if status =? 7 then - ENOSYS
  else if (status =? SUCCESS) || (status =? CHECKSUM_OK) then 0
  else - ENOTSUP.

Definition hadoop_rpc_call_datanode (type : Z) (msg : list ascii) : M (Z * option (list ascii)) :=
  let* res := hadoop_rpc_send [byte_of_Z 0; byte_of_Z 28; byte_of_Z type] in
  if i32 res <? 0 then pret (- EPROTO, None)
  else
    let* buf := PACK msg in
    let* res := hadoop_rpc_send buf in
    if i32 res <? 0 then pret (- EPROTO, None)
    else
      let* r := hadoop_rpc_receive_proto in
      match r with
      | inr res => pret (res, None)
      | inl out =>
          let* status := plift (deref (block_op_status out)) in
          let res := datanode_errno status in
          pret (res, if res <? 0 then None else Some out)
      end.

(** ** Blocks from a data node *)

(** Bytes received at [pos] of the caller's buffer. *)
Definition recv_to (to : list ascii) (pos n : Z) : M (list ascii + Z) :=
  if pos + n <=? Z.of_nat (length to) then
    let* r := recv n in
    pret (match r with inl data => inl (splice to (Z.to_nat pos) data) | inr res => inr res end)
  else plift Undef.

(** Data that was sent for the alignment of checksums goes where the real data
    will be.  Each round takes a byte or more.  An error comes with the buffer as it is then. *)
Fixpoint skip_loop (fuel : nat) (skipbytes available len : Z) (to : list ascii) (pos : Z)
    : M ((Z * Z * list ascii) + (Z * list ascii)) :=
  if (0 <? skipbytes) && (0 <? available) then
    match fuel with
    | O => plift Undef
    | S fuel =>
        let skipped := min (min available skipbytes) len in
        let* r := recv_to to pos skipped in
        match r with
        | inr res => pret (inr (res, to))
        | inl to => skip_loop fuel (skipbytes - skipped) (available - skipped) len to pos
        end
    end
  else pret (inl (skipbytes, available, to)).

Definition receive_header : M (packet_header + Z) :=
  let* r := recv 4 in
  match r with inr res => pret (inr res) | inl packetlen =>
  let* r := recv 2 in
  match r with inr res => pret (inr res) | inl headerlen =>
  let* r := recv (be_val headerlen) in
  match r with inr res => pret (inr res) | inl headerbuf =>
  let* header := plift (deref (unpack_packet_header headerbuf)) in
  pret (inl header)
  end end end.

(** The loop over packets; [fuel] is a bound for their number. *)
Fixpoint receive_loop (fuel : nat) (more : bool) (skipbytes len : Z) (to : list ascii) (pos : Z)
    : M (list ascii + (Z * list ascii)) :=
  if more && (0 <? len) then
    match fuel with
    | O => plift Undef
    | S fuel =>
        let* r := receive_header in
        match r with inr res => pret (inr (res, to)) | inl header =>
        let available := u64 (datalen header) in
        let more := negb (lastpacketinblock header) in
        let* r := skip_loop (Z.to_nat available) skipbytes available len to pos in
        match r with inr res => pret (inr res) | inl (skipbytes, available, to) =>
        if 0 <? available then
          let read := min available len in
          let* r := recv_to to pos read in
          match r with
          | inr res => pret (inr (res, to))
          | inl to => receive_loop fuel more skipbytes (len - read) to (pos + read)
          end
        else receive_loop fuel more skipbytes len to pos
        end end
    end
  else pret (inl to).

(** The result and the caller's buffer. *)
Definition hadoop_rpc_receive_packets (fuel : nat) (skipbytes len : Z) (to : list ascii) : M (Z * list ascii) :=
  let* r := receive_loop fuel true skipbytes len to 0 in
  match r with
  | inr (res, to) => pret (res, to)
  | inl to =>
      let* ackbuf := PACK (pack_client_read_status SUCCESS) in
      let* res := hadoop_rpc_send ackbuf in
      if i32 res <? 0 then pret (i32 res, to) else pret (0, to)
  end.

(** ** Blocks to a data node *)

(** The bytes of a buffer from [offset]. *)
Definition buffer_slice (b : hadoop_fuse_buffer) (offset n : Z) : outcome (list ascii) :=
  match hb_data b with
  | None => Ret (replicate (Z.to_nat n) nul)
  | Some data =>
      if (0 <=? offset) && (offset + n <=? Z.of_nat (length data))
      then Ret (take (Z.to_nat n) (drop (Z.to_nat offset) data)) else Undef
  end.

(** The packet as far as it is written. *)
Fixpoint assemble (buffers : list hadoop_fuse_buffer) (boffset len idx : Z) (packet : list ascii) : outcome (list ascii) :=
  let written := Z.of_nat (length packet) in
  match buffers with
  | [] => Ret packet
  | b :: buffers =>
      if written <? len then
        if u64 (idx + hb_len b) >? boffset then
          let offset := if idx >? boffset then 0 else boffset - idx in
          let towrite := min (len - written) (u64 (hb_len b - offset)) in
          if towrite =? len then buffer_slice b offset len
          else if 0 <? towrite then
            let! x := buffer_slice b offset towrite in
            assemble buffers boffset len (u64 (idx + hb_len b)) (packet ++ x)
          else assemble buffers boffset len (u64 (idx + hb_len b)) packet
        else assemble buffers boffset len (u64 (idx + hb_len b)) packet
      else Ret packet
  end.

(** A packet that is not complete has bytes that were never written. *)
Definition assembled (from : buffer_pos) (len : Z) : outcome (list ascii) :=
  let! packet := assemble (take (Z.to_nat (n_buffers from)) (bp_buffers from)) (bufferoffset from) len 0 [] in
  if Z.of_nat (length packet) =? len then Ret packet else Undef.

(** The checksums from the [i]-th on. *)
Fixpoint send_checksums (n : nat) (i bpc : Z) (packet : list ascii) : M Z :=
  match n with
  | O => pret 0
  | S n =>
      let packetidx := u32 (i * bpc) in
      let chunk := take (Z.to_nat (min bpc (u64 (Z.of_nat (length packet) - packetidx)))) (drop (Z.to_nat packetidx) packet) in
      let* crc := plift (crc32c crc32b crc32q sse42 0 (packet_addr + packetidx) chunk) in
      let* res := hadoop_rpc_send_int32 crc in
      if i32 res <? 0 then pret (i32 res) else send_checksums n (i + 1) bpc packet
  end.

(** All of the data nodes of the pipeline. *)
Fixpoint ack_result (status : list Z) (res : Z) : Z :=
  match status with
  | [] => res
  | s :: status => if (s =? SUCCESS) || (s =? CHECKSUM_OK) then ack_result status 0 else - EINVAL
  end.

Definition receive_ack (seqno : Z) : M Z :=
  let* r := hadoop_rpc_receive_proto in
  match r with
  | inr res => pret res
  | inl msg =>
      let* ack := plift (deref (unpack_pipeline_ack msg)) in
      if negb (ack_seqno ack =? seqno) then pret (- EPROTO)
      else match ack_status ack with
           | [] => pret (- EPROTO)
           | status => pret (ack_result status 0)
           end
  end.

Definition checksum_length (type : Z) : option Z :=
  if type =? CHECKSUM_CRC32C then Some 4 else if type =? CHECKSUM_NULL then Some 0 else None.

(** Length of the payload, length of the header, header; the result if one of
    the calls fails. *)
Definition send_header (packetlen : Z) (header : packet_header) : M (option Z) :=
  let headerbuf := pack_packet_header header in
  let* res := hadoop_rpc_send_int32 packetlen in
  if i32 res <? 0 then pret (Some (i32 res)) else
  let* res := hadoop_rpc_send_int16 (u16 (Z.of_nat (length headerbuf))) in
  if i32 res <? 0 then pret (Some (i32 res)) else
  let* res := hadoop_rpc_send headerbuf in
  if i32 res <? 0 then pret (Some (i32 res)) else pret None.

(** The checksums and the data. *)
Definition send_payload (from : buffer_pos) (len checksumlen n_checksums bpc : Z) : M (option Z) :=
  let* packet := plift (assembled from len) in
  let* res := if 0 <? checksumlen then send_checksums (Z.to_nat n_checksums) 0 bpc packet else pret 0 in
  if res <? 0 then pret (Some res) else
  let* res := hadoop_rpc_send packet in
  if i32 res <? 0 then pret (Some (i32 res)) else pret None.

(** The result and the new position in the buffers. *)
Definition hadoop_rpc_send_packet (seqno : Z) (from : buffer_pos) (len blockoffset : Z) (checksum : checksum_proto)
    : M (Z * buffer_pos) :=
  if negb ndebug && (len >? u64 (bp_len from - bufferoffset from)) then pexit
  else
    match checksum_length (ck_type checksum) with
    | None => pret (- ENOSYS, from)
    | Some checksumlen =>
        let bpc := ck_bytesperchecksum checksum in
        let* n_checksums := plift (roundup (u32 len) bpc) in
        let packetlen := u32 (4 + n_checksums * checksumlen + len) in
        let* r := send_header packetlen (PacketHeader blockoffset seqno (len =? 0) (i32 len)) in
        match r with
        | Some res => pret (res, from)
        | None =>
            if 0 <? len then
              let* r := send_payload from len checksumlen n_checksums bpc in
              match r with
              | Some res => pret (res, from)
              | None =>
                  let from := BufferPos (bp_buffers from) (u64 (bufferoffset from + len)) (bp_len from) in
                  let* res := receive_ack seqno in pret (res, from)
              end
            else let* res := receive_ack seqno in pret (res, from)
        end
    end.

(** Every packet but the last moves the position, and none moves it past the end
    of the buffers, so that [fuel] is their length. *)
Fixpoint send_packets_loop (fuel : nat) (seqno initial : Z) (from : buffer_pos) (len blockoffset packetsize : Z)
    (checksum : checksum_proto) : M (Z * buffer_pos) :=
  match fuel with
  | O => plift Undef
  | S fuel =>
      let bytessent := u64 (bufferoffset from - initial) in
      let packetlen := min (u64 (len - bytessent)) packetsize in
      let packetoffset := i64 (blockoffset + bytessent) in
      if ck_bytesperchecksum checksum =? 0 then plift Undef
      else
        let bytespastboundary := u32 (Z.rem packetoffset (ck_bytesperchecksum checksum)) in
        let packetlen := if (0 <? packetlen) && negb (bytespastboundary =? 0)
                         then u32 (ck_bytesperchecksum checksum - bytespastboundary) else packetlen in
        let* (res, from) := hadoop_rpc_send_packet seqno from packetlen packetoffset checksum in
        if res <? 0 then pret (res, from)
        else if packetlen =? 0 then pret (0, from)
        else send_packets_loop fuel (seqno + 1) initial from len blockoffset packetsize checksum
  end.

Definition hadoop_rpc_send_packets (from : buffer_pos) (len blockoffset packetsize : Z) (checksum : checksum_proto)
    : M (Z * buffer_pos) :=
  send_packets_loop (S (S (Z.to_nat (bp_len from)))) 0 (bufferoffset from) from len blockoffset packetsize checksum.

(** ** The connections, and calls to the name node *)

Abbreviation N := (prog (namenode_state * W)).

Definition set_connection (c : connection_state) (n : namenode_state) : namenode_state :=
  NamenodeState c (clientname n) (packetsize n) (blocksize n) (replication n) (bytesperchecksum n) (checksumtype n).

(** A program on the connection of the name node. *)
Definition on_connection {A} (e : M A) : N A :=
  pzoom (fun s => (connection s.1, s.2)) (fun c s => (set_connection c.1 s.1, c.2)) e.
Definition nn_net {A} (f : W -> A * W) : N A := fun s => let (a, w) := f s.2 in Ret (a, (s.1, w)).

Definition hadoop_rpc_disconnect : M Z :=
  let* c := conn in
  do* net (close_socket (sockfd c));
  do* (fun s => Ret (tt, (ConnectionState (sockfd s.1) (next_call_id s.1) false, s.2)));
  pret 0.

Definition hadoop_rpc_disconnect_namenode : N Z :=
  do* on_connection hadoop_rpc_disconnect;
  do* nn_net (fun w => (tt, pthread_cancel w));
  pret 0.

(** The error number for a call that the name node did not answer with success. *)
Definition namenode_errno (detail : option Z) : Z :=
  match detail with
  | None => - EINVAL
  | Some d =>
      if d =? 15 then - EACCES
      else if (d =? 14) || (d =? 6) then - EPROTONOSUPPORT
      else if (d =? 12) || (d =? 4) then - EBADR
      else - EINVAL
  end.

(** A message with its length in front, at the front of [buf]; the message and
    what follows it. *)
Definition take_delimited (buf : list ascii) : outcome (list ascii * list ascii) :=
  let! (len, lenlen) := decode_unsigned_varint buf in
  let len := u32 len in
  let buf := drop (Z.to_nat lenlen) buf in
  if len <=? Z.of_nat (length buf) then Ret (take (Z.to_nat len) buf, drop (Z.to_nat len) buf) else Undef.

(** The number of the call is taken from the connection. *)
Definition take_call_id : M Z := fun s =>
  Ret (next_call_id s.1, (ConnectionState (sockfd s.1) (i32 (next_call_id s.1 + 1)) (isconnected s.1), s.2)).

(** The result, and the bytes of the response when it is 0. *)
Definition hadoop_rpc_call_namenode_withlock (methodname msg : list ascii) : N (Z * option (list ascii)) :=
  let* msgbuf := on_connection (PACK msg) in
  let* callid := on_connection take_call_id in
  let* headerbuf := on_connection (PACK (pack_rpc_request_header callid)) in
  let* requestbuf := on_connection (PACK (pack_request_header methodname)) in
  do* on_connection (hadoop_rpc_send_int32 (u32 (Z.of_nat (length headerbuf + length requestbuf + length msgbuf))));
  do* on_connection (hadoop_rpc_send headerbuf);
  do* on_connection (hadoop_rpc_send requestbuf);
  do* on_connection (hadoop_rpc_send msgbuf);
  let* r := on_connection (recv 4) in
  match r with inr res => pret (res, None) | inl responselen =>
  let* r := on_connection (recv (be_val responselen)) in
  match r with inr res => pret (res, None) | inl responsebuf =>
  let* (headermsg, responsebuf) := plift (take_delimited responsebuf) in
  let* response := plift (deref (unpack_rpc_response_header headermsg)) in
  if rpc_status response =? 0 then
    let* (out, _) := plift (take_delimited responsebuf) in
    pret (0, Some out)
  else
    do* (if rpc_status response =? 2 then hadoop_rpc_disconnect_namenode else pret 0);
    pret (namenode_errno (errordetail response), None)
  end end.

(** The lock makes the call one step. *)
Definition hadoop_rpc_call_namenode (methodname msg : list ascii) : N (Z * option (list ascii)) :=
  hadoop_rpc_call_namenode_withlock methodname msg.

(** One round of the thread that keeps the lease. *)
Definition namenode_worker_round : N unit :=
  let* n := (fun s => Ret (clientname s.1, s)) in
  do* nn_net (fun w => (tt, sleep 30 w));
  do* hadoop_rpc_call_namenode (lit "renewLease") (pack_renew_lease n);
  pret tt.

Definition hadoop_rpc_do_connect (host : list ascii) (port : Z) : M Z :=
  let* fd := net socket in
  do* (fun s => Ret (tt, (ConnectionState (i32 fd) (next_call_id s.1) (isconnected s.1), s.2)));
  let* res := net (connect (i32 fd) host (u16 port)) in
  if res <? 0 then pret res
  else
    let* res := net (set_linger (i32 fd) 30) in
    if res <? 0 then pret res else pret 0.

Definition hadoop_rpc_connect_datanode (host : list ascii) (port : Z) : M Z :=
  let* res := hadoop_rpc_do_connect host port in
  do* (fun s => Ret (tt, (ConnectionState (sockfd s.1) (next_call_id s.1) (res =? 0), s.2)));
  pret res.

(** The greeting and the context of the connection; the first negative result. *)
Definition send_context : M Z :=
  let* e := hadoop_rpc_send (lit "hrpc" ++ [byte_of_Z 9; byte_of_Z 0; byte_of_Z 0]) in
  if i32 e <? 0 then pret (i32 e) else
  let* user := net (fun w => (user_name w, w)) in
  let* contextbuf := PACK (pack_connection_context user) in
  let* rpcheaderbuf := PACK (pack_rpc_request_header CONNECTION_CONTEXT_CALL_ID) in
  let* e := hadoop_rpc_send_int32 (u32 (Z.of_nat (length rpcheaderbuf + length contextbuf))) in
  if i32 e <? 0 then pret (i32 e) else
  let* e := hadoop_rpc_send rpcheaderbuf in
  if i32 e <? 0 then pret (i32 e) else
  let* e := hadoop_rpc_send contextbuf in
  if i32 e <? 0 then pret (i32 e) else pret 0.

Definition take_defaults (d : server_defaults) (n : namenode_state) : namenode_state :=
  NamenodeState (ConnectionState (sockfd (connection n)) (next_call_id (connection n)) true) (clientname n)
    (sd_writepacketsize d) (sd_blocksize d) (sd_replication d) (sd_bytesperchecksum d)
    (default CHECKSUM_NULL (sd_checksumtype d)).

Definition hadoop_rpc_connect_namenode (host : list ascii) (port : Z) : N Z :=
  let fail error := do* hadoop_rpc_disconnect_namenode; pret error in
  let* error := on_connection (hadoop_rpc_do_connect host port) in
  if error <? 0 then fail error else
  let* error := on_connection send_context in
  if error <? 0 then fail error else
  let* error := nn_net pthread_create in
  if error <? 0 then fail error else
  let* (error, out) := hadoop_rpc_call_namenode_withlock (lit "getServerDefaults") pack_server_defaults_request in
  if error <? 0 then fail error else
  let* out := plift (deref out) in
  let* d := plift (deref (unpack_server_defaults out)) in
  do* (fun s => Ret (tt, (take_defaults d s.1, s.2)));
  pret 0.
End Code.

(** ** A connection that works *)

Class Stream (W : Type) `{Net W} := {
  (** for a socket: what the peer has been sent, and what it has sent that is not received yet *)
  out : W -> Z -> list ascii;
  inp : W -> Z -> list ascii;
  sendto_all fd bs w : exists w', sendto fd bs w = (Z.of_nat (length bs), w') /\
    out w' fd = out w fd ++ bs /\ inp w' fd = inp w fd;
  recvfrom_waitall fd x rest w : inp w fd = x ++ rest ->
    exists w', recvfrom fd (Z.of_nat (length x)) w = ((Z.of_nat (length x), x), w') /\
      out w' fd = out w fd /\ inp w' fd = rest }.

Definition sent `{Stream W} (c : connection_state) (w : W) : list ascii := out w (sockfd c).
Definition incoming `{Stream W} (c : connection_state) (w : W) : list ascii := inp w (sockfd c).

(** ** Lengths in front of messages *)

Lemma encode_loop_fuel k j v l : encode_loop k v = Ret l -> encode_loop (k + j) v = Ret l.
Proof.
  revert v l. induction k as [|k IH]; intros v l; [done|]. cbn [encode_loop Nat.add].
  destruct (negb _); [|done]. destruct (encode_loop k (Z.shiftr v 7)) as [l'| |] eqn:E; [|done|done].
  by rewrite (IH _ _ E).
Qed.

(** The bytes of a length of 32 bits: five at most. *)
Definition varint (v : Z) : list ascii := match encode_loop 10 v with Ret l => l | _ => [] end.

Lemma varint_spec v : 0 <= v < 2 ^ 32 ->
  encode_loop 10 v = Ret (varint v) /\ (1 <= length (varint v) <= 5)%nat /\
  forall rest, decode_unsigned_varint (varint v ++ rest) = Ret (v, Z.of_nat (length (varint v))).
Proof.
  intros Hv. destruct (encode_decode_loop 5 v) as (l & E & Hl & Hd); [lia|lia|].
  apply (encode_loop_fuel 5 5) in E. change (5 + 5)%nat with 10%nat in E. unfold varint. rewrite E. split; [done|]. split; [done|].
  intros rest. unfold decode_unsigned_varint. rewrite Hd by lia. unfold mbind, outcome_bind. rewrite wrap_small by lia.
  do 2 f_equal; lia.
Qed.

Definition delimited (msg : list ascii) : list ascii := varint (Z.of_nat (length msg)) ++ msg.

Section Proofs.
Context `{Protobuf} {W : Type} `{!Net W} `{!Stream W}.
Implicit Types (w : W) (c : connection_state).

Lemma PACK_ret msg (s : connection_state * W) : Z.of_nat (length msg) < 2 ^ 32 -> PACK msg s = Ret (delimited msg, s).
Proof.
  intros Hm. unfold PACK, encode_unsigned_varint. rewrite wrap_small by lia.
  destruct (varint_spec (Z.of_nat (length msg))) as (E & Hl & _); [lia|]. rewrite E. unfold mbind, outcome_bind.
  rewrite length_replicate, (proj2 (Nat.leb_le _ _)) by lia. unfold pbind, plift, pret, splice.
  rewrite take_0, Nat2Z.id. cbn [app]. by rewrite take_app_length.
Qed.

Lemma send_ret bs c w : Z.of_nat (length bs) < 2 ^ 31 ->
  exists w', hadoop_rpc_send bs (c, w) = Ret (Z.of_nat (length bs), (c, w')) /\
    sent c w' = sent c w ++ bs /\ incoming c w' = incoming c w.
Proof using All.
  intros Hb. destruct (sendto_all (sockfd c) bs w) as (w' & E & Hs). exists w'. split; [|done].
  unfold hadoop_rpc_send, pbind, conn, net. cbn. by rewrite E.
Qed.

Lemma send_tested n : Z.of_nat n < 2 ^ 31 -> (i32 (Z.of_nat n) <? 0) = false.
Proof. intros Hn. rewrite swrap_small by lia. apply Z.ltb_ge. lia. Qed.

Lemma recv_ret x rest c w : incoming c w = x ++ rest ->
  exists w', recv (Z.of_nat (length x)) (c, w) = Ret (inl x, (c, w')) /\ sent c w' = sent c w /\ incoming c w' = rest.
Proof using All.
  intros Hi. destruct (recvfrom_waitall (sockfd c) x rest w Hi) as (w' & E & Hs). exists w'. split; [|done].
  unfold recv, pbind, conn, net. cbn. rewrite E. destruct (Z.ltb_spec (Z.of_nat (length x)) 0); [lia|]. by rewrite Z.eqb_refl.
Qed.

(** A message of a data node that is not too short for the way it is read. *)
Lemma receive_proto_ret msg rest c w :
  (4 <= length msg)%nat -> Z.of_nat (length msg) < 2 ^ 32 -> incoming c w = delimited msg ++ rest ->
  exists w', hadoop_rpc_receive_proto (c, w) = Ret (inl msg, (c, w')) /\ sent c w' = sent c w /\ incoming c w' = rest.
Proof using All.
  intros H4 Hm Hi. destruct (varint_spec (Z.of_nat (length msg))) as (_ & Hl & Hd); [lia|].
  unfold delimited in Hi. set (v := varint (Z.of_nat (length msg))) in *. set (k := (5 - length v)%nat).
  rewrite <- (take_drop k msg) in Hi. rewrite <- !app_assoc, app_assoc in Hi.
  assert (length (v ++ take k msg) = 5%nat) as H5 by (rewrite length_app, length_take; lia).
  destruct (recv_ret (v ++ take k msg) (drop k msg ++ rest) c w Hi) as (w1 & E1 & Hs1 & Hi1). rewrite H5 in E1.
  destruct (recv_ret (drop k msg) rest c w1 Hi1) as (w2 & E2 & Hs2 & Hi2).
  exists w2. split; [|by rewrite Hs2, Hs1]. unfold hadoop_rpc_receive_proto. change 5 with (Z.of_nat 5) at 1.
  rewrite (pbind_ret _ _ _ _ _ E1). unfold pbind at 1, plift. rewrite Hd.
  rewrite (wrap_small 8) by lia. rewrite Z.gtb_ltb. destruct (Z.ltb_spec (Z.of_nat (length msg)) (5 - Z.of_nat (length v))); [lia|].
  replace (u64 (Z.of_nat (length msg) - (5 - Z.of_nat (length v)))) with (Z.of_nat (length (drop k msg)))
    by (rewrite wrap_small, length_drop by lia; lia).
  rewrite (pbind_ret _ _ _ _ _ E2). unfold pret. by rewrite Nat2Z.id, drop_app_length, take_drop.
Qed.

(** A send and the test of its result, first that the bytes are not too many. *)
Ltac send_step w' Hs Hi :=
  match goal with |- context [pbind (hadoop_rpc_send ?bs) _ (?c, ?w)] =>
    let Hb := fresh "Hb" in let E := fresh "E" in
    assert (Z.of_nat (length bs) < 2 ^ 31) as Hb;
    [|destruct (send_ret bs c w Hb) as (w' & E & Hs & Hi);
      rewrite (pbind_ret _ _ _ _ _ E), (send_tested _ Hb); clear Hb E] end.

(** ** Packets that are sent *)

(** The bytes of the buffers. *)
Definition buffer_bytes (b : hadoop_fuse_buffer) : list ascii :=
  match hb_data b with Some d => d | None => replicate (Z.to_nat (hb_len b)) nul end.
Definition buffers_bytes (l : list hadoop_fuse_buffer) : list ascii := concat (map buffer_bytes l).
Definition buffer_ok (b : hadoop_fuse_buffer) : Prop := hb_len b = Z.of_nat (length (buffer_bytes b)).

Lemma buffer_slice_ret b offset n : buffer_ok b -> 0 <= offset -> 0 <= n -> offset + n <= hb_len b ->
  buffer_slice b offset n = Ret (take (Z.to_nat n) (drop (Z.to_nat offset) (buffer_bytes b))).
Proof.
  unfold buffer_ok, buffer_slice, buffer_bytes. intros Hb Ho Hn Hl. destruct (hb_data b) as [d|].
  - rewrite (proj2 (Z.leb_le 0 offset)), (proj2 (Z.leb_le _ _)) by lia. done.
  - rewrite drop_replicate, take_replicate. do 2 f_equal. lia.
Qed.

(** A complete packet stays as it is. *)
Lemma assemble_done l boffset idx packet : assemble l boffset (Z.of_nat (length packet)) idx packet = Ret packet.
Proof. destruct l; [done|]. cbn [assemble]. by rewrite Z.ltb_irrefl. Qed.

(** The packet is filled from position [boffset] on; [idx] is where the buffers
    that are left start. *)
Lemma assemble_spec l boffset len idx packet :
  Forall buffer_ok l -> 0 <= idx -> 0 <= boffset -> idx + Z.of_nat (length (buffers_bytes l)) < 2 ^ 63 ->
  Z.of_nat (length packet) < len -> boffset + len < 2 ^ 63 ->
  (packet = [] /\ idx <= boffset \/ packet <> [] /\ idx = boffset + Z.of_nat (length packet)) ->
  assemble l boffset len idx packet =
    Ret (packet ++ take (Z.to_nat (len - Z.of_nat (length packet)))
                     (drop (Z.to_nat (boffset + Z.of_nat (length packet) - idx)) (buffers_bytes l))).
Proof.
  revert idx packet. induction l as [|b l IH]; intros idx packet Hl Hi Hb Hs Hp Hlen Hinv.
  { cbn [assemble]. unfold buffers_bytes. cbn [map concat]. by rewrite drop_nil, take_nil, app_nil_r. }
  apply Forall_cons in Hl as [Hok Hl]. unfold buffers_bytes in *. cbn [map concat assemble] in *.
  set (d := buffer_bytes b) in *. set (D := concat (map buffer_bytes l)) in *. rewrite length_app in Hs.
  unfold buffer_ok in Hok. fold d in Hok. rewrite (proj2 (Z.ltb_lt _ _) Hp), Hok, (wrap_small 64 (idx + _)) by lia.
  rewrite Z.gtb_ltb. destruct (Z.ltb_spec boffset (idx + Z.of_nat (length d))) as [Hlt|Hge].
  - rewrite Z.gtb_ltb. set (offset := if boffset <? idx then 0 else boffset - idx).
    assert (offset = boffset + Z.of_nat (length packet) - idx) as Eo.
    { unfold offset. destruct (Z.ltb_spec boffset idx); destruct Hinv as [[-> ?]|[Hne ?]]; cbn [length] in *; lia. }
    assert (0 <= offset <= Z.of_nat (length d)) as Hoff by (destruct Hinv as [[-> ?]|[? ?]]; cbn [length] in *; lia).
    clearbody offset. rewrite <- Eo, (wrap_small 64 (_ - offset)) by lia.
    set (w := Z.of_nat (length packet)) in *. set (n := min (len - w) (Z.of_nat (length d) - offset)).
    assert (n <= len - w /\ n <= Z.of_nat (length d) - offset /\ (n = len - w \/ n = Z.of_nat (length d) - offset) /\ 0 <= n) as (Hn1 & Hn2 & Hn3 & Hn0)
      by (unfold n, min; destruct (Z.ltb_spec (len - w) (Z.of_nat (length d) - offset)); lia).
    clearbody n. rewrite drop_app_le by lia.
    assert (forall k, 0 <= k <= n -> buffer_slice b offset k = Ret (take (Z.to_nat k) (drop (Z.to_nat offset) d))) as Hsl.
    { intros k Hk. apply buffer_slice_ret; [exact Hok|lia|lia|rewrite Hok; lia]. }
    set (y := drop (Z.to_nat offset) d) in *.
    assert (length y = (length d - Z.to_nat offset)%nat) as Hy by apply length_drop.
    destruct (Z.eqb_spec n len) as [->|Hnl].
    { rewrite Hsl by lia. assert (w = 0) by lia. destruct packet; [|unfold w in *; cbn in *; lia].
      replace (len - w) with len by lia. by rewrite take_app_le by lia. }
    destruct (Z.ltb_spec 0 n) as [Hpos|Hz].
    + rewrite Hsl by lia. unfold mbind, outcome_bind. set (x := take (Z.to_nat n) y).
      assert (length x = Z.to_nat n) as Hx by (unfold x; rewrite length_take; lia).
      assert (Z.of_nat (length (packet ++ x)) = w + n) as Hpx by (rewrite length_app; lia).
      destruct Hn3 as [Hc|Hall].
      * replace len with (Z.of_nat (length (packet ++ x))) at 1 by lia. rewrite assemble_done. f_equal. f_equal.
        unfold x. rewrite Hc, take_app_le by lia. done.
      * assert (x = y) as Exy by (unfold x; apply take_ge; lia). rewrite Exy in *.
        destruct (Z.eq_dec (w + n) len) as [Hc|Hnc].
        { replace len with (Z.of_nat (length (packet ++ y))) at 1 by lia. rewrite assemble_done. f_equal. f_equal.
          rewrite take_app_le by lia. symmetry. apply take_ge. lia. }
        rewrite IH; [|done|lia|done|lia|lia|done|].
        -- rewrite Hpx, <- app_assoc. f_equal. f_equal. rewrite take_app_ge by lia. f_equal.
           replace (boffset + (w + n) - (idx + Z.of_nat (length d))) with 0 by lia. cbn [Z.to_nat]. rewrite drop_0. f_equal. lia.
        -- right. split; [|lia]. intros E. apply app_nil in E as [_ E]. rewrite E in Hx. cbn in Hx. lia.
    + assert (n = Z.of_nat (length d) - offset) as Hn by lia. assert (y = []) as Ey by (apply length_zero_iff_nil; lia).
      rewrite IH; [|done|lia|done|lia|lia|done|destruct Hinv as [[-> ?]|[? ?]]; unfold w in *; cbn [length] in *; [left|right]; split; done || lia].
      f_equal. f_equal. rewrite Ey. cbn [app]. f_equal. fold w. by replace (boffset + w - (idx + Z.of_nat (length d))) with 0 by lia.
  - destruct Hinv as [[-> Hib]|[Hne ?]]; [|destruct packet; [done|cbn [length] in *; lia]].
    rewrite IH; [|done|lia|done|lia|done|done|by left]. cbn [length app Z.of_nat]. f_equal. f_equal.
    rewrite drop_app_ge by lia. f_equal. lia.
Qed.

Lemma all_buffers from : (length (bp_buffers from) <= 255)%nat -> take (Z.to_nat (n_buffers from)) (bp_buffers from) = bp_buffers from.
Proof. intros Hl. unfold n_buffers. rewrite (wrap_small 8), Nat2Z.id by lia. apply firstn_all. Qed.

Lemma assembled_spec from len :
  Forall buffer_ok (bp_buffers from) -> (length (bp_buffers from) <= 255)%nat -> 0 <= bufferoffset from -> 0 < len ->
  bufferoffset from + len <= Z.of_nat (length (buffers_bytes (bp_buffers from))) < 2 ^ 63 ->
  assembled from len = Ret (take (Z.to_nat len) (drop (Z.to_nat (bufferoffset from)) (buffers_bytes (bp_buffers from)))).
Proof.
  intros Hl Hn8 Ho Hlen Hs. unfold assembled. rewrite all_buffers by done. rewrite assemble_spec; [|done|lia|done|lia|done|lia|by left].
  unfold mbind, outcome_bind. cbn [length app Z.of_nat]. rewrite Z.sub_0_r, Z.add_0_r, Z.sub_0_r.
  rewrite length_take, length_drop.
  by rewrite (proj2 (Z.eqb_eq _ _)) by lia.
Qed.

(** The chunks of a packet, and their checksums. *)
Fixpoint chunks (n : nat) (bpc : nat) (data : list ascii) : list (list ascii) :=
  match n with O => [] | S n => take bpc data :: chunks n bpc (drop bpc data) end.
Definition chunk_count (bpc : Z) (data : list ascii) : Z := (Z.of_nat (length data) + bpc - 1) / bpc.
Definition checksum_bytes (bpc : Z) (data : list ascii) : list ascii :=
  concat (map (fun x => be_bytes 4 (crc32c_ref 0 x)) (chunks (Z.to_nat (chunk_count bpc data)) (Z.to_nat bpc) data)).

Lemma chunk_count_bounds bpc data : 0 < bpc ->
  0 <= chunk_count bpc data /\ (chunk_count bpc data - 1) * bpc < Z.of_nat (length data) <= chunk_count bpc data * bpc.
Proof.
  intros Hb. unfold chunk_count. set (x := Z.of_nat (length data) + bpc - 1).
  pose proof (Z.div_mod x bpc ltac:(lia)). pose proof (Z.mod_pos_bound x bpc Hb).
  split; [apply Z.div_pos; lia|]. lia.
Qed.

(** ** The packets of a block *)

(** A packet as the data node gets it. *)
Definition packet_bytes (ck : checksum_proto) (seqno offset : Z) (data : list ascii) : list ascii :=
  let len := Z.of_nat (length data) in
  let header := pack_packet_header (PacketHeader offset seqno (len =? 0) len) in
  let sums := if ck_type ck =? CHECKSUM_CRC32C then checksum_bytes (ck_bytesperchecksum ck) data else [] in
  be_bytes 4 (4 + Z.of_nat (length sums) + len) ++ be_bytes 2 (Z.of_nat (length header)) ++ header ++ sums ++ data.

(** A message that acknowledges the packet. *)
Definition good_ack (seqno : Z) (msg : list ascii) : Prop :=
  (4 <= length msg)%nat /\ Z.of_nat (length msg) < 2 ^ 32 /\
  exists status, unpack_pipeline_ack msg = Some (PipelineAck seqno status) /\ status <> [] /\
    Forall (fun s => s = SUCCESS \/ s = CHECKSUM_OK) status.

Lemma ack_result_ok status res : Forall (fun s => s = SUCCESS \/ s = CHECKSUM_OK) status -> res = 0 ->
  ack_result status res = 0.
Proof. intros Hs. revert res. induction Hs as [|s l [->| ->] _ IH]; intros res Hr; cbn; auto. Qed.

Lemma receive_ack_ret seqno msg rest c w : good_ack seqno msg -> incoming c w = delimited msg ++ rest ->
  exists w', receive_ack seqno (c, w) = Ret (0, (c, w')) /\ sent c w' = sent c w /\ incoming c w' = rest.
Proof using All.
  intros (H4 & Hm & status & Hu & Hne & Hs) Hi. destruct (receive_proto_ret msg rest c w H4 Hm Hi) as (w' & E & Hw).
  exists w'. split; [|done]. unfold receive_ack. rewrite (pbind_ret _ _ _ _ _ E), Hu. unfold pbind, plift, deref.
  cbn [ack_seqno ack_status]. rewrite Z.eqb_refl. cbn [negb]. destruct status; [done|]. unfold pret.
  by rewrite ack_result_ok.
Qed.

Section Sending.
Context (ndebug : bool) (crc32b : Z -> ascii -> Z) (crc32q : Z -> Z -> Z) (sse42 : bool) (packet_addr : Z).
Context (HI : crc32_instruction crc32b crc32q).
(** Headers are short. *)
Context (Hheader : forall h, (length (pack_packet_header h) < 2 ^ 16)%nat).

Abbreviation send_checksums := (send_checksums crc32b crc32q sse42 packet_addr).

Lemma send_checksums_ret n i bpc packet c w :
  0 < bpc < 2 ^ 31 -> 0 <= i -> Z.of_nat (length packet) < 2 ^ 31 ->
  (i + Z.of_nat n - 1) * bpc < Z.of_nat (length packet) ->
  exists w', send_checksums n i bpc packet (c, w) = Ret (0, (c, w')) /\ incoming c w' = incoming c w /\
    sent c w' = sent c w ++ concat (map (fun x => be_bytes 4 (crc32c_ref 0 x))
                                  (chunks n (Z.to_nat bpc) (drop (Z.to_nat (i * bpc)) packet))).
Proof using All.
  intros Hb. revert i w. induction n as [|n IH]; intros i w Hi Hp Hn.
  { exists w. split; [done|]. split; [done|]. by rewrite app_nil_r. }
  cbn [HadoopRpc.send_checksums]. assert (0 <= i * bpc < Z.of_nat (length packet)) as Hib.
  { split; [apply Z.mul_nonneg_nonneg; lia|]. apply (Z.le_lt_trans _ ((i + Z.of_nat (S n) - 1) * bpc)); [|done].
    apply Z.mul_le_mono_nonneg_r; lia. }
  rewrite (wrap_small 32), (wrap_small 64) by lia. set (rest := drop (Z.to_nat (i * bpc)) packet).
  assert (length rest = (length packet - Z.to_nat (i * bpc))%nat) as Hr by apply length_drop.
  assert (take (Z.to_nat (min bpc (Z.of_nat (length packet) - i * bpc))) rest = take (Z.to_nat bpc) rest) as ->.
  { unfold min. destruct (Z.ltb_spec bpc (Z.of_nat (length packet) - i * bpc)); [done|].
    rewrite (take_ge rest (Z.to_nat bpc)), take_ge by lia. done. }
  assert (0 <= 0 < 2 ^ 32) as H0 by lia.
  unfold pbind at 1, plift. rewrite (crc32c_eq_ref _ _ _ _ _ _ HI H0). unfold hadoop_rpc_send_int32.
  send_step w1 Hs1 Hi1; [by rewrite length_be_bytes|].
  destruct (IH (i + 1) w1) as (w2 & -> & Hi2 & Hs2); [lia|done|lia|].
  exists w2. split; [done|]. split; [by rewrite Hi2|]. rewrite Hs2, Hs1. cbn [chunks map concat].
  rewrite <- app_assoc. do 3 f_equal. unfold rest. rewrite drop_drop.
  replace (Z.to_nat (i * bpc) + Z.to_nat bpc)%nat with (Z.to_nat ((i + 1) * bpc)) by lia. done.
Qed.

(** A position in buffers that hold what they say and are not too many to count. *)
Definition from_ok (from : buffer_pos) : Prop :=
  Forall buffer_ok (bp_buffers from) /\ 0 <= bufferoffset from <= bp_len from /\
  bp_len from = Z.of_nat (length (buffers_bytes (bp_buffers from))) /\ bp_len from < 2 ^ 62 /\ (length (bp_buffers from) <= 255)%nat.
Definition from_data (from : buffer_pos) (len : Z) : list ascii :=
  take (Z.to_nat len) (drop (Z.to_nat (bufferoffset from)) (buffers_bytes (bp_buffers from))).
Definition advance (from : buffer_pos) (len : Z) : buffer_pos :=
  BufferPos (bp_buffers from) (bufferoffset from + len) (bp_len from).
Definition checksum_ok (ck : checksum_proto) : Prop :=
  (ck_type ck = CHECKSUM_CRC32C \/ ck_type ck = CHECKSUM_NULL) /\ 0 < ck_bytesperchecksum ck <= 2 ^ 28.

Lemma length_chunk_sums n bpc data :
  length (concat (map (fun x => be_bytes 4 (crc32c_ref 0 x)) (chunks n bpc data))) = (4 * n)%nat.
Proof. revert data. induction n as [|n IH]; intros data; [done|]. cbn [chunks map concat]. rewrite length_app, length_be_bytes, IH. lia. Qed.

Lemma from_data_length from len : from_ok from -> 0 <= len -> bufferoffset from + len <= bp_len from ->
  length (from_data from len) = Z.to_nat len.
Proof. intros (_ & Ho & Hl & _) Hlen Hb. unfold from_data. rewrite length_take, length_drop. lia. Qed.

(** The sends before the acknowledgement. *)
Lemma send_header_ret packetlen h c w :
  exists w', send_header packetlen h (c, w) = Ret (None, (c, w')) /\ incoming c w' = incoming c w /\
    sent c w' = sent c w ++ be_bytes 4 packetlen ++ be_bytes 2 (Z.of_nat (length (pack_packet_header h))) ++ pack_packet_header h.
Proof using Hheader Stream0.
  pose proof (Hheader h) as Hh. change (2 ^ 16)%nat with (Z.to_nat (2 ^ 16)) in Hh.
  unfold send_header, hadoop_rpc_send_int32, hadoop_rpc_send_int16. cbv zeta. rewrite wrap_small by lia.
  send_step w1 Hs1 Hi1; [by rewrite length_be_bytes|].
  send_step w2 Hs2 Hi2; [by rewrite length_be_bytes|].
  send_step w3 Hs3 Hi3; [lia|].
  exists w3. split; [done|]. split; [congruence|]. by rewrite Hs3, Hs2, Hs1, !app_assoc.
Qed.

Lemma send_payload_ret from len cl n bpc c w :
  from_ok from -> 0 < len <= 2 ^ 28 -> bufferoffset from + len <= bp_len from -> 0 < bpc <= 2 ^ 28 ->
  n = chunk_count bpc (from_data from len) -> (cl = 4 \/ cl = 0) ->
  exists w', send_payload crc32b crc32q sse42 packet_addr from len cl n bpc (c, w) = Ret (None, (c, w')) /\
    incoming c w' = incoming c w /\
    sent c w' = sent c w ++ (if cl =? 4 then checksum_bytes bpc (from_data from len) else []) ++ from_data from len.
Proof using All.
  intros Hf Hlen Hb Hbpc Hn Hcl. pose proof (from_data_length from len Hf ltac:(lia) Hb) as Hdl.
  pose proof Hf as (Hbs & Ho & Hl & Hm & Hn8). unfold send_payload. rewrite assembled_spec by (done || lia).
  change (take (Z.to_nat len) (drop (Z.to_nat (bufferoffset from)) (buffers_bytes (bp_buffers from)))) with (from_data from len).
  set (data := from_data from len) in *. unfold pbind at 1, plift.
  assert (exists w1, (if 0 <? cl then send_checksums (Z.to_nat n) 0 bpc data else pret 0) (c, w) = Ret (0, (c, w1)) /\
    incoming c w1 = incoming c w /\ sent c w1 = sent c w ++ (if cl =? 4 then checksum_bytes bpc data else [])) as (w1 & E1 & Hi1 & Hs1).
  { destruct Hcl as [-> | ->]; cbn [Z.ltb Z.eqb Z.compare].
    - pose proof (chunk_count_bounds bpc data ltac:(lia)) as (Hc0 & Hc1).
      destruct (send_checksums_ret (Z.to_nat n) 0 bpc data c w) as (w1 & E & Hi & Hs); [lia|lia|lia|rewrite Z2Nat.id; lia|].
      exists w1. split; [exact E|]. split; [done|]. rewrite Hs, Hn. done.
    - exists w. split; [done|]. split; [done|]. by rewrite app_nil_r. }
  rewrite (pbind_ret _ _ _ _ _ E1). cbn [Z.ltb Z.compare].
  send_step w2 Hs2 Hi2; [lia|].
  exists w2. split; [done|]. split; [congruence|]. by rewrite Hs2, Hs1, app_assoc.
Qed.

Lemma checksum_length_ok ck : checksum_ok ck ->
  checksum_length (ck_type ck) = Some (if ck_type ck =? CHECKSUM_CRC32C then 4 else 0).
Proof. intros [[-> | ->] _]; done. Qed.

Lemma send_packet_ret seqno from len off ck msg rest c w :
  from_ok from -> 0 <= len <= 2 ^ 28 -> bufferoffset from + len <= bp_len from -> checksum_ok ck ->
  good_ack seqno msg -> incoming c w = delimited msg ++ rest ->
  exists w', hadoop_rpc_send_packet ndebug crc32b crc32q sse42 packet_addr seqno from len off ck (c, w) =
      Ret ((0, advance from len), (c, w')) /\
    sent c w' = sent c w ++ packet_bytes ck seqno off (from_data from len) /\ incoming c w' = rest.
Proof using All.
  intros Hf Hlen Hb Hck Hack Hin. pose proof (from_data_length from len Hf ltac:(lia) Hb) as Hdl.
  pose proof Hf as (Hbs & Ho & Hl & Hm & Hn8). pose proof Hck as [_ Hbpc]. set (data := from_data from len) in *.
  set (bpc := ck_bytesperchecksum ck) in *. set (cl := if ck_type ck =? CHECKSUM_CRC32C then 4 else 0).
  pose proof (chunk_count_bounds bpc data ltac:(lia)) as (Hc0 & Hc1).
  assert (chunk_count bpc data <= len).
  { apply Z.nlt_ge. intros Hgt. assert (len * bpc <= (chunk_count bpc data - 1) * bpc) by (apply Z.mul_le_mono_nonneg_r; lia).
    assert (len * 1 <= len * bpc) by (apply Z.mul_le_mono_nonneg_l; lia). lia. }
  assert (chunk_count bpc data * cl = Z.of_nat (length (if ck_type ck =? CHECKSUM_CRC32C then checksum_bytes bpc data else []))) as Hsl.
  { unfold cl. destruct (_ =? _); [|cbn; lia]. unfold checksum_bytes. rewrite length_chunk_sums. lia. }
  assert (0 <= cl <= 4) by (unfold cl; destruct (_ =? _); lia).
  assert (0 <= chunk_count bpc data * cl <= chunk_count bpc data * 4)
    by (split; [apply Z.mul_nonneg_nonneg|apply Z.mul_le_mono_nonneg_l]; lia).
  unfold hadoop_rpc_send_packet. rewrite (wrap_small 64), Z.gtb_ltb by lia.
  destruct (Z.ltb_spec (bp_len from - bufferoffset from) len); [lia|]. rewrite andb_false_r, checksum_length_ok by done. fold cl bpc.
  assert (roundup (u32 len) bpc = Ret (chunk_count bpc data)) as Er.
  { unfold roundup, chunk_count. destruct (Z.eqb_spec bpc 0); [lia|]. rewrite Hdl, Z2Nat.id, !wrap_small by (rewrite ?wrap_small; lia). done. }
  rewrite Er. unfold pbind at 1, plift. rewrite (wrap_small 32), swrap_small by lia.
  destruct (send_header_ret (4 + chunk_count bpc data * cl + len) (PacketHeader off seqno (len =? 0) len) c w) as (w1 & E1 & Hi1 & Hs1).
  rewrite (pbind_ret _ _ _ _ _ E1).
  assert (forall w2, incoming c w2 = incoming c w1 ->
    sent c w2 = sent c w1 ++ (if ck_type ck =? CHECKSUM_CRC32C then checksum_bytes bpc data else []) ++ data ->
    exists w', (let* res := receive_ack seqno in pret (res, advance from len)) (c, w2) = Ret ((0, advance from len), (c, w')) /\
      sent c w' = sent c w ++ packet_bytes ck seqno off data /\ incoming c w' = rest) as Hend.
  { intros w2 Hi2 Hs2. destruct (receive_ack_ret seqno msg rest c w2 Hack) as (w3 & E3 & Hs3 & Hi3); [congruence|].
    exists w3. rewrite (pbind_ret _ _ _ _ _ E3). split; [done|]. split; [|done].
    rewrite Hs3, Hs2, Hs1. unfold packet_bytes. fold bpc. rewrite <- !app_assoc.
    assert (Z.of_nat (length data) = len) as -> by lia. by rewrite <- Hsl. }
  destruct (Z.ltb_spec 0 len) as [Hpos|Hz].
  - destruct (send_payload_ret from len cl (chunk_count bpc data) bpc c w1) as (w2 & E2 & Hi2 & Hs2);
      [done|lia|done|lia|done|unfold cl; destruct (_ =? _); auto|].
    rewrite (pbind_ret _ _ _ _ _ E2). rewrite (wrap_small 64) by lia. apply Hend; [done|]. rewrite Hs2. fold data.
    unfold cl. by destruct (ck_type ck =? CHECKSUM_CRC32C).
  - assert (len = 0) as -> by lia. assert (data = []) as Ed by (apply length_zero_iff_nil; lia).
    assert (advance from 0 = from) as Ea by (destruct from; unfold advance; cbn; f_equal; lia).
    rewrite Ea in *. apply Hend; [done|]. rewrite Ed. destruct (_ =? _); [|by rewrite app_nil_r].
    unfold checksum_bytes, chunk_count. cbn [length]. rewrite Z.div_small by lia. by rewrite app_nil_r.
Qed.

(** What the data node gets of a block: packets with consecutive numbers and
    offsets, and an empty one at the end. *)
Fixpoint block_stream (ck : checksum_proto) (seqno offset : Z) (pkts : list (list ascii)) : list ascii :=
  match pkts with
  | [] => packet_bytes ck seqno offset []
  | d :: pkts => packet_bytes ck seqno offset d ++ block_stream ck (seqno + 1) (offset + Z.of_nat (length d)) pkts
  end.

(** Each packet has data, and starts at the boundary of a chunk or fills one. *)
Fixpoint cut_ok (bpc psize offset : Z) (pkts : list (list ascii)) : Prop :=
  match pkts with
  | [] => True
  | d :: pkts =>
      d <> [] /\ (offset mod bpc = 0 /\ Z.of_nat (length d) <= psize \/ offset mod bpc + Z.of_nat (length d) = bpc) /\
      cut_ok bpc psize (offset + Z.of_nat (length d)) pkts
  end.

(** The replies of the data node to [n] packets. *)
Fixpoint ack_stream (ack : Z -> list ascii) (n : nat) (seqno : Z) : list ascii :=
  match n with O => [] | S n => delimited (ack seqno) ++ ack_stream ack n (seqno + 1) end.

Lemma from_data_split from n m : from_ok from -> 0 <= n -> 0 <= m -> bufferoffset from + n <= bp_len from ->
  from_data from (n + m) = from_data from n ++ from_data (advance from n) m.
Proof.
  intros (_ & Ho & _ & _) Hn Hm Hb. unfold from_data, advance. cbn [bufferoffset bp_buffers].
  rewrite !Z2Nat.inj_add by lia. by rewrite <- drop_drop, take_take_drop.
Qed.
Lemma advance_ok from n : from_ok from -> 0 <= n -> bufferoffset from + n <= bp_len from -> from_ok (advance from n).
Proof. intros (Hb & Ho & Hl & Hm) Hn Hle. split_and!; cbn; done || lia. Qed.

(** The next packet: [rest] bytes are left from offset [off]. *)
Definition next_packet (bpc psize off rest : Z) : Z :=
  let n := min rest psize in
  if (0 <? n) && negb (off mod bpc =? 0) then bpc - off mod bpc else n.

(** The bytes that are left start at a chunk, or reach the end of one. *)
Definition cuttable (bpc off rest : Z) : Prop := off mod bpc = 0 \/ rest = 0 \/ bpc - off mod bpc <= rest.

Lemma next_packet_spec bpc psize off rest :
  0 < bpc <= 2 ^ 28 -> 0 < psize <= 2 ^ 28 -> (bpc | psize) -> 0 < rest -> cuttable bpc off rest ->
  let n := next_packet bpc psize off rest in
  0 < n <= rest /\ n <= 2 ^ 28 /\ (off mod bpc = 0 /\ n <= psize \/ off mod bpc + n = bpc) /\ cuttable bpc (off + n) (rest - n).
Proof.
  intros Hb Hp [q Hq] Hr Hc. unfold next_packet. cbv zeta. pose proof (Z.mod_pos_bound off bpc ltac:(lia)) as Hm.
  assert (0 < min rest psize /\ min rest psize <= rest /\ min rest psize <= psize /\ (min rest psize = rest \/ min rest psize = psize)) as (Hn0 & Hn1 & Hn2 & Hn3)
    by (unfold min; destruct (Z.ltb_spec rest psize); lia).
  rewrite (proj2 (Z.ltb_lt _ _) Hn0). cbn [andb]. destruct (Z.eqb_spec (off mod bpc) 0) as [E0|E0]; cbn [negb].
  - split; [lia|]. split; [lia|]. split; [by left|]. destruct Hn3 as [->|Hn3]; [right; left; lia|]. left.
    rewrite Hn3, Hq, Z.mod_add by lia. done.
  - destruct Hc as [?|[?|Hc]]; [lia|lia|]. split; [lia|]. split; [lia|]. split; [right; lia|]. left.
    rewrite (Z.div_mod off bpc) at 1 by lia.
    replace (bpc * (off / bpc) + off mod bpc + (bpc - off mod bpc)) with ((off / bpc + 1) * bpc) by lia. apply Z.mod_mul. lia.
Qed.

Lemma send_packets_loop_ret fuel ack seqno initial from len blockoffset psize ck n rest c w :
  let bpc := ck_bytesperchecksum ck in
  let s := bufferoffset from - initial in
  checksum_ok ck -> 0 < psize <= 2 ^ 28 -> (bpc | psize) -> from_ok from ->
  (forall z, seqno <= z < seqno + Z.of_nat n -> good_ack z (ack z)) ->
  0 <= s <= len -> initial + len <= bp_len from -> 0 <= initial -> 0 <= blockoffset -> blockoffset + len < 2 ^ 63 ->
  cuttable bpc (blockoffset + s) (len - s) ->
  (Z.to_nat (len - s) < fuel)%nat -> (Z.to_nat (len - s) < n)%nat -> incoming c w = ack_stream ack n seqno ++ rest ->
  exists pkts w', send_packets_loop ndebug crc32b crc32q sse42 packet_addr fuel seqno initial from len blockoffset psize ck (c, w) =
      Ret ((0, advance from (len - s)), (c, w')) /\
    concat pkts = from_data from (len - s) /\ cut_ok bpc psize (blockoffset + s) pkts /\
    sent c w' = sent c w ++ block_stream ck seqno (blockoffset + s) pkts.
Proof using All.
  cbv zeta. intros Hck Hps Hdiv. revert seqno from n w. induction fuel as [|fuel IH];
    intros seqno from n w Hf Hack Hs Hend Hini Hbo Hbl Hcut Hfuel Hn Hin; [lia|].
  pose proof Hf as (Hbs & Ho & Hl & Hm & Hn8). pose proof Hck as [_ Hbpc]. set (bpc := ck_bytesperchecksum ck) in *.
  set (s := bufferoffset from - initial) in *. cbn [send_packets_loop]. fold bpc s.
  destruct n as [|n]; [lia|]. cbn [ack_stream] in Hin. rewrite <- app_assoc in Hin.
  rewrite (wrap_small 64 s), (wrap_small 64 (len - s)), swrap_small by lia.
  destruct (Z.eqb_spec bpc 0); [lia|]. rewrite Z.rem_mod_nonneg, (wrap_small 32 (_ mod _)) by (pose proof (Z.mod_pos_bound (blockoffset + s) bpc); lia).
  rewrite (wrap_small 32 (bpc - _)) by (pose proof (Z.mod_pos_bound (blockoffset + s) bpc); lia).
  fold (next_packet bpc psize (blockoffset + s) (len - s)).
  destruct (Z.eq_dec (len - s) 0) as [E0|E0].
  - assert (next_packet bpc psize (blockoffset + s) (len - s) = 0) as ->
      by (unfold next_packet, min; rewrite E0, (proj2 (Z.ltb_lt 0 psize)) by lia; done).
    destruct (send_packet_ret seqno from 0 (blockoffset + s) ck (ack seqno) (ack_stream ack n (seqno + 1) ++ rest) c w)
      as (w1 & E1 & Hs1 & Hi1); [done|lia|lia|done|apply Hack; lia|done|].
    exists [], w1. rewrite (pbind_ret _ _ _ _ _ E1), E0. split; [done|]. split; [done|]. split; [done|]. exact Hs1.
  - destruct (next_packet_spec bpc psize (blockoffset + s) (len - s)) as (Hk & Hkm & Hkc & Hcut'); [lia|lia|done|lia|done|].
    set (k := next_packet bpc psize (blockoffset + s) (len - s)) in *.
    destruct (send_packet_ret seqno from k (blockoffset + s) ck (ack seqno) (ack_stream ack n (seqno + 1) ++ rest) c w)
      as (w1 & E1 & Hs1 & Hi1); [done|lia|lia|done|apply Hack; lia|done|].
    rewrite (pbind_ret _ _ _ _ _ E1). cbn [Z.ltb Z.compare]. destruct (Z.eqb_spec k 0); [lia|].
    pose proof (from_data_length from k Hf ltac:(lia) ltac:(lia)) as Hdl.
    destruct (IH (seqno + 1) (advance from k) n w1) as (pkts & w2 & E2 & Hd2 & Hc2 & Hs2); cbn [advance bufferoffset bp_len];
      [by apply advance_ok; [|lia|lia]|intros z Hz; apply Hack; lia|lia|lia|done|done|done| |lia|lia|done|].
    { replace (blockoffset + (bufferoffset from + k - initial)) with (blockoffset + s + k) by lia.
      by replace (len - (bufferoffset from + k - initial)) with (len - s - k) by lia. }
    cbn [advance bufferoffset] in E2, Hd2, Hc2, Hs2.
    replace (len - (bufferoffset from + k - initial)) with (len - s - k) in * by lia.
    replace (blockoffset + (bufferoffset from + k - initial)) with (blockoffset + s + k) in * by lia.
    exists (from_data from k :: pkts), w2. split; [|split; [|split]].
    + rewrite E2. unfold advance. cbn. do 4 f_equal. lia.
    + cbn [concat]. rewrite Hd2, <- from_data_split by (done || lia). f_equal. lia.
    + cbn [cut_ok]. rewrite Hdl, Z2Nat.id by lia. split; [|by split]. intros E. rewrite E in Hdl. cbn in Hdl. lia.
    + cbn [block_stream]. rewrite Hdl, Z2Nat.id by lia. by rewrite Hs2, Hs1, app_assoc.
Qed.

Lemma send_packets_ret ack from len blockoffset psize ck n rest c w :
  let bpc := ck_bytesperchecksum ck in
  checksum_ok ck -> 0 < psize <= 2 ^ 28 -> (bpc | psize) -> from_ok from ->
  (forall z, 0 <= z < Z.of_nat n -> good_ack z (ack z)) ->
  0 <= len -> bufferoffset from + len <= bp_len from -> 0 <= blockoffset -> blockoffset + len < 2 ^ 63 ->
  cuttable bpc blockoffset len ->
  (Z.to_nat len < n)%nat -> incoming c w = ack_stream ack n 0 ++ rest ->
  exists pkts w', hadoop_rpc_send_packets ndebug crc32b crc32q sse42 packet_addr from len blockoffset psize ck (c, w) =
      Ret ((0, advance from len), (c, w')) /\
    concat pkts = from_data from len /\ cut_ok bpc psize blockoffset pkts /\
    sent c w' = sent c w ++ block_stream ck 0 blockoffset pkts.
Proof using All.
  cbv zeta. intros Hck Hps Hdiv Hf Hack Hlen Hend Hbo Hbl Hcut Hn Hin. pose proof Hf as (_ & Ho & _).
  destruct (send_packets_loop_ret (S (S (Z.to_nat (bp_len from)))) ack 0 (bufferoffset from) from len blockoffset psize ck n rest c w)
    as (pkts & w' & E & Hd & Hc & Hs); rewrite ?Z.sub_diag, ?Z.sub_0_r, ?Z.add_0_r in *; try done; try lia.
  by exists pkts, w'.
Qed.

(** A write that ends inside the checksum chunk it starts in. *)
Lemma short_append from len blockoffset psize ck c w :
  let bpc := ck_bytesperchecksum ck in
  checksum_ok ck -> from_ok from -> 0 < psize -> bp_len from = bufferoffset from + len -> 0 < len ->
  0 <= blockoffset /\ blockoffset + len < 2 ^ 63 -> len < bpc - blockoffset mod bpc -> blockoffset mod bpc <> 0 ->
  hadoop_rpc_send_packets ndebug crc32b crc32q sse42 packet_addr from len blockoffset psize ck (c, w) =
    if ndebug then Undef else Exit.
Proof using Hheader Stream0.
  cbv zeta. intros Hck Hf Hp Hl Hlen Hbo Hshort Hpast. pose proof Hf as (Hbs & Ho & Hbl & Hm & Hn8). pose proof Hck as [_ Hb].
  set (bpc := ck_bytesperchecksum ck) in *. pose proof (Z.mod_pos_bound blockoffset bpc ltac:(lia)) as Hmod.
  unfold hadoop_rpc_send_packets. cbn [send_packets_loop]. fold bpc. rewrite Z.sub_diag, (wrap_small 64 0) by lia.
  rewrite Z.sub_0_r, Z.add_0_r, (wrap_small 64 len), swrap_small by lia. destruct (Z.eqb_spec bpc 0); [lia|].
  rewrite Z.rem_mod_nonneg, (wrap_small 32 (_ mod _)), (wrap_small 32 (_ - _)) by lia.
  assert (0 < min len psize) as Hpos by (unfold min; destruct (Z.ltb_spec len psize); lia).
  rewrite (proj2 (Z.ltb_lt _ _) Hpos), (proj2 (Z.eqb_neq _ _) Hpast). cbn [negb andb]. set (plen := bpc - blockoffset mod bpc) in *.
  unfold pbind at 1, hadoop_rpc_send_packet. rewrite (wrap_small 64) by lia.
  destruct ndebug; cbn [negb andb]; [|rewrite Z.gtb_ltb; by rewrite (proj2 (Z.ltb_lt _ _)) by lia].
  rewrite checksum_length_ok by done. fold bpc. unfold roundup. destruct (Z.eqb_spec bpc 0); [lia|]. unfold pbind at 1, plift.
  match goal with |- context [send_header ?pl ?h] => destruct (send_header_ret pl h c w) as (w1 & E1 & _) end.
  rewrite (pbind_ret _ _ _ _ _ E1). destruct (Z.ltb_spec 0 plen); [|lia].
  unfold pbind at 1, send_payload, pbind at 1, plift, assembled. rewrite all_buffers by done.
  rewrite assemble_spec; [|done|lia|lia|lia|cbn; lia|lia|left; split; [done|lia]]. unfold mbind, outcome_bind. cbn [length app Z.of_nat].
  rewrite length_take, length_drop. rewrite (proj2 (Z.eqb_neq _ plen)); [done|lia].
Qed.

(** C11: A block reaches the data node, unless a write is too short for its place.  Let
    every packet be acknowledged, the packet size be a multiple of the checksum chunk,
    and the buffers be at most 255, the most their 8-bit count can say.  When the bytes
    to send start at a chunk boundary of the block or reach the next one, sending returns
    0 with the position after the data, and the data node has been sent packets with
    consecutive numbers and offsets whose data is the data of the buffers, zeroes
    included, each chunk with its CRC-32C, cut at chunk boundaries and not above the
    packet size, and then the empty packet that ends the block.  When the bytes are all
    that the buffers hold and end inside the chunk they start in, the packet is made as
    long as the rest of the chunk: with assertions the process ends before anything is
    sent, without them bytes that were never written are sent as contents of the file. *)
Theorem send_packets_delivers ack from len blockoffset psize ck n rest c w :
  let bpc := ck_bytesperchecksum ck in
  checksum_ok ck -> 0 < psize <= 2 ^ 28 -> (bpc | psize) -> from_ok from ->
  (forall z, 0 <= z < Z.of_nat n -> good_ack z (ack z)) ->
  0 <= len -> bufferoffset from + len <= bp_len from -> 0 <= blockoffset -> blockoffset + len < 2 ^ 63 ->
  (Z.to_nat len < n)%nat -> incoming c w = ack_stream ack n 0 ++ rest ->
  (cuttable bpc blockoffset len ->
   exists pkts w', hadoop_rpc_send_packets ndebug crc32b crc32q sse42 packet_addr from len blockoffset psize ck (c, w) =
       Ret ((0, advance from len), (c, w')) /\
     concat pkts = from_data from len /\ cut_ok bpc psize blockoffset pkts /\
     sent c w' = sent c w ++ block_stream ck 0 blockoffset pkts) /\
  (~ cuttable bpc blockoffset len -> bufferoffset from + len = bp_len from ->
   hadoop_rpc_send_packets ndebug crc32b crc32q sse42 packet_addr from len blockoffset psize ck (c, w) =
     if ndebug then Undef else Exit).
Proof using All.
  cbv zeta. intros Hck Hps Hdiv Hf Hack Hlen Hend Hbo Hbl Hn Hin. split.
  - intros Hcut. by apply (send_packets_ret ack from len blockoffset psize ck n rest).
  - intros Hcut Hall. unfold cuttable in Hcut. apply short_append; try done; lia.
Qed.
End Sending.

(** ** Calls *)

Lemma length_delimited msg : Z.of_nat (length msg) < 2 ^ 32 -> (length (delimited msg) <= length msg + 5)%nat.
Proof.
  intros Hm. destruct (varint_spec (Z.of_nat (length msg))) as (_ & Hl & _); [lia|]. unfold delimited. rewrite length_app. lia.
Qed.

(** A data node that answers with success. *)
Lemma call_datanode_ret type msg resp rest c w :
  Z.of_nat (length msg) < 2 ^ 30 -> (4 <= length resp)%nat -> Z.of_nat (length resp) < 2 ^ 32 ->
  block_op_status resp = Some SUCCESS -> incoming c w = delimited resp ++ rest ->
  exists w', hadoop_rpc_call_datanode type msg (c, w) = Ret ((0, Some resp), (c, w')) /\
    sent c w' = sent c w ++ [byte_of_Z 0; byte_of_Z 28; byte_of_Z type] ++ delimited msg /\ incoming c w' = rest.
Proof using All.
  intros Hm H4 Hr Hst Hi. pose proof (length_delimited msg ltac:(lia)) as Hlm. unfold hadoop_rpc_call_datanode.
  send_step w1 Hs1 Hi1; [by cbn|].
  assert (Z.of_nat (length msg) < 2 ^ 32) as Hm32 by lia. rewrite (pbind_ret _ _ _ _ _ (PACK_ret msg (c, w1) Hm32)).
  send_step w2 Hs2 Hi2; [lia|].
  destruct (receive_proto_ret resp rest c w2 H4 Hr) as (w3 & E3 & Hs3 & Hi3); [congruence|].
  rewrite (pbind_ret _ _ _ _ _ E3), Hst. exists w3. split; [done|]. split; [|done].
  by rewrite Hs3, Hs2, Hs1, <- !app_assoc.
Qed.

(** The answer of the name node. *)
Definition nn_reply (header msg : list ascii) : list ascii :=
  let body := delimited header ++ delimited msg in be_bytes 4 (Z.of_nat (length body)) ++ body.
(** The state after a call. *)
Definition bump (n : namenode_state) : namenode_state :=
  let c := connection n in
  set_connection (ConnectionState (sockfd c) (i32 (next_call_id c + 1)) (isconnected c)) n.

Lemma on_connection_ret {A} (e : prog (connection_state * W) A) n w a c' w' :
  e (connection n, w) = Ret (a, (c', w')) -> on_connection e (n, w) = Ret (a, (set_connection c' n, w')).
Proof. intros E. unfold on_connection, pzoom. cbn [fst snd]. by rewrite E. Qed.

Lemma set_connection_same n : set_connection (connection n) n = n.
Proof. by destruct n. Qed.

Lemma on_send_ret bs n w :
  exists w', on_connection (hadoop_rpc_send bs) (n, w) = Ret (Z.of_nat (length bs), (n, w')) /\
    sent (connection n) w' = sent (connection n) w ++ bs /\ incoming (connection n) w' = incoming (connection n) w.
Proof using All.
  destruct (sendto_all (sockfd (connection n)) bs w) as (w' & E & Hs). exists w'. split; [|done].
  erewrite on_connection_ret; [by rewrite set_connection_same|]. unfold hadoop_rpc_send, pbind, conn, net. cbn [fst snd]. by rewrite E.
Qed.

Lemma on_recv_ret x rest n w : incoming (connection n) w = x ++ rest ->
  exists w', on_connection (recv (Z.of_nat (length x))) (n, w) = Ret (inl x, (n, w')) /\
    sent (connection n) w' = sent (connection n) w /\ incoming (connection n) w' = rest.
Proof using All.
  intros Hi. destruct (recv_ret x rest (connection n) w Hi) as (w' & E & Hs). exists w'. split; [|done].
  erewrite on_connection_ret by exact E. by rewrite set_connection_same.
Qed.

Lemma on_PACK_ret msg n w : Z.of_nat (length msg) < 2 ^ 32 -> on_connection (PACK msg) (n, w) = Ret (delimited msg, (n, w)).
Proof. intros Hm. erewrite on_connection_ret by (by apply PACK_ret). by rewrite set_connection_same. Qed.

Lemma take_delimited_ret msg rest : Z.of_nat (length msg) < 2 ^ 32 -> take_delimited (delimited msg ++ rest) = Ret (msg, rest).
Proof.
  intros Hm. destruct (varint_spec (Z.of_nat (length msg))) as (_ & Hl & Hd); [lia|]. unfold take_delimited, delimited.
  rewrite <- app_assoc, Hd. unfold mbind, outcome_bind. rewrite wrap_small, !Nat2Z.id, drop_app_length by lia.
  rewrite (proj2 (Z.leb_le _ _)) by (rewrite length_app; lia). by rewrite take_app_length, drop_app_length.
Qed.

(** The request of a call. *)
Definition nn_call (n : namenode_state) (methodname msg : list ascii) : list ascii :=
  let header := delimited (pack_rpc_request_header (next_call_id (connection n))) in
  let request := delimited (pack_request_header methodname) in
  be_bytes 4 (u32 (Z.of_nat (length header + length request + length (delimited msg)))) ++ header ++ request ++ delimited msg.

(** A name node that answers with success. *)
Lemma call_namenode_ret methodname msg header detail resp rest n w :
  Z.of_nat (length msg) < 2 ^ 32 -> Z.of_nat (length (pack_rpc_request_header (next_call_id (connection n)))) < 2 ^ 32 ->
  Z.of_nat (length (pack_request_header methodname)) < 2 ^ 32 ->
  Z.of_nat (length header) < 2 ^ 30 -> Z.of_nat (length resp) < 2 ^ 30 ->
  unpack_rpc_response_header header = Some (RpcResponseHeader 0 detail) ->
  incoming (connection n) w = nn_reply header resp ++ rest ->
  exists w', hadoop_rpc_call_namenode methodname msg (n, w) = Ret ((0, Some resp), (bump n, w')) /\
    sent (connection n) w' = sent (connection n) w ++ nn_call n methodname msg /\ incoming (connection n) w' = rest.
Proof using All.
  intros Hm Hh Hq Hlh Hlr Hu Hi. unfold hadoop_rpc_call_namenode, hadoop_rpc_call_namenode_withlock.
  rewrite (pbind_ret _ _ _ _ _ (on_PACK_ret msg n w Hm)).
  assert (on_connection take_call_id (n, w) = Ret (next_call_id (connection n), (bump n, w))) as Ec by done.
  rewrite (pbind_ret _ _ _ _ _ Ec), (pbind_ret _ _ _ _ _ (on_PACK_ret _ (bump n) w Hh)), (pbind_ret _ _ _ _ _ (on_PACK_ret _ (bump n) w Hq)).
  change (incoming (connection n)) with (incoming (W := W) (connection (bump n))) in *.
  change (sent (connection n)) with (sent (W := W) (connection (bump n))).
  destruct (on_send_ret (be_bytes 4 (u32 (Z.of_nat (length (delimited (pack_rpc_request_header (next_call_id (connection n)))) +
    length (delimited (pack_request_header methodname)) + length (delimited msg))))) (bump n) w) as (w1 & E1 & Hs1 & Hi1).
  unfold hadoop_rpc_send_int32. rewrite (pbind_ret _ _ _ _ _ E1).
  destruct (on_send_ret (delimited (pack_rpc_request_header (next_call_id (connection n)))) (bump n) w1) as (w2 & E2 & Hs2 & Hi2).
  rewrite (pbind_ret _ _ _ _ _ E2). destruct (on_send_ret (delimited (pack_request_header methodname)) (bump n) w2) as (w3 & E3 & Hs3 & Hi3).
  rewrite (pbind_ret _ _ _ _ _ E3). destruct (on_send_ret (delimited msg) (bump n) w3) as (w4 & E4 & Hs4 & Hi4).
  rewrite (pbind_ret _ _ _ _ _ E4). unfold nn_reply in Hi. set (body := delimited header ++ delimited resp) in *. rewrite <- app_assoc in Hi.
  assert (incoming (connection (bump n)) w4 = be_bytes 4 (Z.of_nat (length body)) ++ body ++ rest) as Hi4' by congruence.
  destruct (on_recv_ret _ _ _ _ Hi4') as (w5 & E5 & Hs5 & Hi5). rewrite length_be_bytes in E5. rewrite (pbind_ret _ _ _ _ _ E5).
  pose proof (length_delimited header ltac:(lia)). pose proof (length_delimited resp ltac:(lia)).
  assert (Z.of_nat (length body) < 2 ^ 32) as Hb by (unfold body; rewrite length_app; lia).
  rewrite be_val_bytes, Z.mod_small by lia. destruct (on_recv_ret _ _ _ _ Hi5) as (w6 & E6 & Hs6 & Hi6). rewrite (pbind_ret _ _ _ _ _ E6).
  unfold body. rewrite take_delimited_ret by lia. unfold pbind, plift. rewrite Hu. cbn [deref rpc_status Z.eqb].
  rewrite <- (app_nil_r (delimited resp)), take_delimited_ret by lia. exists w6. split; [done|]. split; [|done].
  rewrite Hs6, Hs5, Hs4, Hs3, Hs2, Hs1. unfold nn_call. by rewrite <- !app_assoc.
Qed.

(** ** Packets that are received *)

Lemma min_Zmin a b : min a b = Z.min a b.
Proof. unfold min. destruct (Z.ltb_spec a b); lia. Qed.

(** A packet on its way from the data node: the length field, the header, the data. *)
Record in_packet := InPacket { ip_len : list ascii; ip_header : list ascii; ip_data : list ascii }.
Definition in_bytes (p : in_packet) : list ascii :=
  ip_len p ++ be_bytes 2 (Z.of_nat (length (ip_header p))) ++ ip_header p ++ ip_data p.
Definition in_ok (last : bool) (p : in_packet) : Prop :=
  length (ip_len p) = 4%nat /\ Z.of_nat (length (ip_header p)) < 2 ^ 16 /\ Z.of_nat (length (ip_data p)) < 2 ^ 31 /\
  exists off seq, unpack_packet_header (ip_header p) =
    Some (PacketHeader off seq last (Z.of_nat (length (ip_data p)))).

(** The packets of a block: the last one says so. *)
Fixpoint block_ok (l : list in_packet) : Prop :=
  match l with
  | [] => True
  | [p] => in_ok true p
  | p :: l => in_ok false p /\ block_ok l
  end.
Definition block_data (l : list in_packet) : list ascii := concat (map ip_data l).

Lemma recv_to_ret to pos x rest c w :
  0 <= pos -> pos + Z.of_nat (length x) <= Z.of_nat (length to) -> incoming c w = x ++ rest ->
  exists w', recv_to to pos (Z.of_nat (length x)) (c, w) = Ret (inl (splice to (Z.to_nat pos) x), (c, w')) /\
    sent c w' = sent c w /\ incoming c w' = rest.
Proof using All.
  intros Hp Hl Hi. destruct (recv_ret x rest c w Hi) as (w' & E & Hw). exists w'. split; [|done].
  unfold recv_to. rewrite (proj2 (Z.leb_le _ _) Hl). by rewrite (pbind_ret _ _ _ _ _ E).
Qed.

Lemma splice_front (to x : list ascii) pos : (pos + length x <= length to)%nat ->
  length (splice to pos x) = length to /\ take pos (splice to pos x) = take pos to /\
  take (pos + length x) (splice to pos x) = take pos to ++ x /\
  drop (pos + length x) (splice to pos x) = drop (pos + length x) to.
Proof.
  intros Hl. unfold splice. assert (length (take pos to) = pos) as Hp by (rewrite length_take; lia).
  split; [rewrite !length_app, length_drop; lia|]. split.
  - rewrite take_app_le by lia. by rewrite take_take, Nat.min_id.
  - split; rewrite app_assoc.
    + rewrite take_app_le by (rewrite length_app; lia). apply take_ge. rewrite length_app. lia.
    + by rewrite drop_app_length' by (rewrite length_app; lia).
Qed.

(** The header, up to the data. *)
Lemma receive_header_ret last p rest c w : in_ok last p -> incoming c w = in_bytes p ++ rest ->
  exists w' off seq, receive_header (c, w) = Ret (inl (PacketHeader off seq last (Z.of_nat (length (ip_data p)))), (c, w')) /\
    sent c w' = sent c w /\ incoming c w' = ip_data p ++ rest.
Proof using All.
  intros (H4 & Hh & Hd & off & seq & Hu) Hi. unfold in_bytes in Hi. rewrite <- !app_assoc in Hi.
  destruct (recv_ret _ _ c w Hi) as (w1 & E1 & Hs1 & Hi1). rewrite H4 in E1.
  destruct (recv_ret _ _ c w1 Hi1) as (w2 & E2 & Hs2 & Hi2). rewrite length_be_bytes in E2.
  destruct (recv_ret _ _ c w2 Hi2) as (w3 & E3 & Hs3 & Hi3).
  exists w3, off, seq. split; [|split; [congruence|done]]. unfold receive_header.
  rewrite (pbind_ret _ _ _ _ _ E1), (pbind_ret _ _ _ _ _ E2), be_val_bytes, Z.mod_small by lia.
  rewrite (pbind_ret _ _ _ _ _ E3). unfold pbind, plift. by rewrite Hu.
Qed.

(** Skipping uses the room of the data to come. *)
Lemma skip_loop_ret fuel skip d len to pos rest c w :
  0 <= skip -> 0 < len -> 0 <= pos -> pos + len <= Z.of_nat (length to) -> (length d <= fuel)%nat ->
  incoming c w = d ++ rest ->
  let m := Z.min (Z.of_nat (length d)) skip in
  exists to' w', skip_loop fuel skip (Z.of_nat (length d)) len to pos (c, w) =
      Ret (inl (skip - m, Z.of_nat (length d) - m, to'), (c, w')) /\
    sent c w' = sent c w /\ incoming c w' = drop (Z.to_nat m) d ++ rest /\
    length to' = length to /\ take (Z.to_nat pos) to' = take (Z.to_nat pos) to /\
    drop (Z.to_nat (pos + len)) to' = drop (Z.to_nat (pos + len)) to.
Proof using All.
  intros Hsk Hlen Hpos Hto. revert skip d to w Hsk Hto. induction fuel as [|fuel IH]; intros skip d to w Hsk Hto Hf Hi; cbv zeta; cbn [skip_loop].
  { assert (length d = 0%nat) as E by lia. apply length_zero_iff_nil in E as ->. cbn [length Z.of_nat]. rewrite andb_false_r.
    rewrite Z.min_l by lia. exists to, w. by rewrite !Z.sub_0_r. }
  destruct (Z.ltb_spec 0 skip) as [Hs0|Hs0]; cbn [andb];
    [|assert (skip = 0) as -> by lia; rewrite Z.min_r by lia; exists to, w; by rewrite !Z.sub_0_r].
  destruct (Z.ltb_spec 0 (Z.of_nat (length d))) as [Hd0|Hd0];
    [|rewrite Z.min_l by lia; assert (d = []) as -> by (apply length_zero_iff_nil; lia); cbn; exists to, w; by rewrite !Z.sub_0_r].
  rewrite !min_Zmin. set (k := Z.min (Z.min (Z.of_nat (length d)) skip) len).
  assert (0 < k <= Z.of_nat (length d) /\ k <= skip /\ k <= len) as (Hk & Hks & Hkl) by (unfold k; lia). clearbody k.
  rewrite <- (take_drop (Z.to_nat k) d) in Hi. rewrite <- app_assoc in Hi.
  assert (Z.of_nat (length (take (Z.to_nat k) d)) = k) as Hkt by (rewrite length_take; lia).
  destruct (recv_to_ret to pos (take (Z.to_nat k) d) (drop (Z.to_nat k) d ++ rest) c w) as (w1 & E1 & Hs1 & Hi1); [done|lia|done|].
  rewrite Hkt in E1. rewrite (pbind_ret _ _ _ _ _ E1).
  destruct (splice_front to (take (Z.to_nat k) d) (Z.to_nat pos)) as (Hl' & Ht' & _ & Hd'); [lia|].
  destruct (IH (skip - k) (drop (Z.to_nat k) d) (splice to (Z.to_nat pos) (take (Z.to_nat k) d)) w1) as (to' & w' & E & Hs & Hi' & Hl'' & Ht'' & Hd'');
    [lia|lia|rewrite length_drop; lia|done|].
  rewrite length_drop in E, Hi'. exists to', w'.
  replace (Z.of_nat (length d - Z.to_nat k)) with (Z.of_nat (length d) - k) in * by lia.
  rewrite E. split; [do 5 f_equal; lia|]. split; [congruence|]. split; [|split; [congruence|split; [congruence|]]].
  - rewrite Hi', drop_drop. do 2 f_equal. lia.
  - rewrite Hd''. replace (Z.to_nat (pos + len)) with (Z.to_nat pos + Z.to_nat k + (Z.to_nat len - Z.to_nat k))%nat by lia.
    replace (length (take (Z.to_nat k) d)) with (Z.to_nat k) in Hd' by lia.
    rewrite <- !(drop_drop _ _ (Z.to_nat pos + Z.to_nat k)). by rewrite Hd'.
Qed.

Lemma splice_nil (to : list ascii) pos : splice to pos [] = to.
Proof. unfold splice. rewrite Nat.add_0_r. apply take_drop. Qed.

(** Writing on behind what was written. *)
Lemma splice_more (to to' x y : list ascii) pos :
  (pos + length x + length y <= length to)%nat -> take pos to' = take pos to -> length to' = length to ->
  drop (pos + length x + length y) to' = drop (pos + length x + length y) to ->
  splice (splice to' pos x) (pos + length x) y = splice to pos (x ++ y).
Proof.
  intros Hl Ht Hl' Hd. destruct (splice_front to' x pos) as (_ & _ & Hf & Hr); [lia|].
  unfold splice at 1. rewrite Hf, Ht, <- (drop_drop _ (length y)), Hr, drop_drop, Hd.
  unfold splice. by rewrite length_app, <- !app_assoc, Nat.add_assoc.
Qed.

Lemma receive_loop_done fuel more skip to pos s : receive_loop fuel more skip 0 to pos s = Ret (inl to, s).
Proof. destruct fuel; cbn [receive_loop]; by rewrite andb_false_r. Qed.

Lemma block_ok_cons p l : block_ok (p :: l) -> exists last, in_ok last p /\ block_ok l /\ (l = [] \/ last = false).
Proof. destruct l; cbn; [intros H1; exists true|intros [H1 H2]; exists false]; auto. Qed.

Lemma take_across (d D : list ascii) (skip len read : Z) :
  0 <= skip -> 0 <= len -> read = Z.min (Z.of_nat (length d) - skip) len -> 0 <= read ->
  take (Z.to_nat len) (drop (Z.to_nat skip) (d ++ D)) =
  take (Z.to_nat read) (drop (Z.to_nat skip) d) ++ take (Z.to_nat (len - read)) D.
Proof.
  intros Hs Hl -> Hr. rewrite drop_app_le by lia. destruct (Z.le_gt_cases len (Z.of_nat (length d) - skip)).
  - rewrite Z.min_r, Z.sub_diag, app_nil_r by lia. rewrite take_app_le; [done|rewrite length_drop; lia].
  - rewrite Z.min_l by lia. rewrite take_app_ge by (rewrite length_drop; lia).
    rewrite (take_ge (drop _ _)) by (rewrite length_drop; lia). do 2 f_equal. rewrite length_drop. lia.
Qed.

(** One packet after another. *)
Lemma receive_loop_ret l fuel skip len to pos rest c w :
  block_ok l -> (length l <= fuel)%nat -> 0 <= skip -> 0 <= len -> 0 <= pos ->
  pos + len <= Z.of_nat (length to) -> skip + len <= Z.of_nat (length (block_data l)) ->
  incoming c w = concat (map in_bytes l) ++ rest ->
  exists w', receive_loop fuel true skip len to pos (c, w) =
      Ret (inl (splice to (Z.to_nat pos) (take (Z.to_nat len) (drop (Z.to_nat skip) (block_data l)))), (c, w')) /\
    sent c w' = sent c w.
Proof using All.
  revert fuel skip len to pos w. induction l as [|p l IH]; intros fuel skip len to pos w Hb Hf Hsk Hlen Hpos Hto Hd Hi.
  { cbn in Hd. assert (len = 0) as -> by lia. exists w. split; [|done]. rewrite receive_loop_done. by rewrite splice_nil. }
  destruct fuel as [|fuel]; [cbn in Hf; lia|]. cbn [receive_loop].
  destruct (Z.ltb_spec 0 len) as [Hl|Hl]; cbn [andb];
    [|exists w; split; [|done]; assert (len = 0) as -> by lia; by rewrite splice_nil].
  apply block_ok_cons in Hb as (last & Hp & Hb & Hlast). cbn [map concat] in Hi. rewrite <- app_assoc in Hi.
  destruct (receive_header_ret last p _ c w Hp Hi) as (w1 & off & seq & E1 & Hs1 & Hi1).
  rewrite (pbind_ret _ _ _ _ _ E1). cbn [datalen lastpacketinblock]. destruct Hp as (_ & _ & Hp31 & _).
  change (block_data (p :: l)) with (ip_data p ++ block_data l) in *. rewrite length_app in Hd.
  set (d := ip_data p) in *. set (D := block_data l) in *. rewrite wrap_small by lia. rewrite Nat2Z.id.
  destruct (skip_loop_ret (length d) skip d len to pos _ c w1 Hsk Hl Hpos ltac:(lia) ltac:(lia) Hi1)
    as (to' & w2 & E2 & Hs2 & Hi2 & Hl2 & Ht2 & Hd2). rewrite (pbind_ret _ _ _ _ _ E2).
  destruct (Z.ltb_spec 0 (Z.of_nat (length d) - Z.min (Z.of_nat (length d)) skip)) as [Ha|Ha].
  - rewrite Z.min_r in * by lia. rewrite min_Zmin, Z.sub_diag. remember (Z.min (Z.of_nat (length d) - skip) len) as read eqn:Er.
    rewrite (take_across d D skip len read) by lia. set (x := take (Z.to_nat read) (drop (Z.to_nat skip) d)).
    assert (Z.of_nat (length x) = read) as Hx by (unfold x; rewrite length_take, length_drop; lia).
    rewrite <- (take_drop (Z.to_nat read) (drop (Z.to_nat skip) d)), <- app_assoc in Hi2.
    destruct (recv_to_ret to' pos x _ c w2 Hpos ltac:(lia) Hi2) as (w3 & E3 & Hs3 & Hi3).
    rewrite Hx in E3. rewrite (pbind_ret _ _ _ _ _ E3).
    assert (forall y, Z.of_nat (length y) = len - read ->
      splice (splice to' (Z.to_nat pos) x) (Z.to_nat (pos + read)) y = splice to (Z.to_nat pos) (x ++ y)) as Hsp.
    { intros y Hy. replace (Z.to_nat (pos + read)) with (Z.to_nat pos + length x)%nat by lia.
      apply splice_more; [lia|done|done|]. replace (Z.to_nat pos + length x + length y)%nat with (Z.to_nat (pos + len)) by lia. done. }
    destruct (Z.eq_dec (len - read) 0) as [E0|E0].
    + rewrite E0. exists w3. split; [|congruence]. rewrite receive_loop_done.
      change (take (Z.to_nat 0) D) with (@nil ascii). rewrite <- (Hsp []) by (cbn; lia). by rewrite splice_nil.
    + destruct Hlast as [-> | -> ]; [cbn in Hd; lia|].
      destruct (splice_front to' x (Z.to_nat pos)) as (Hl3 & _); [lia|].
      destruct (IH fuel 0 (len - read) (splice to' (Z.to_nat pos) x) (pos + read) w3) as (w' & E & Hs); try done; try (cbn in Hf; lia).
      { rewrite Hi3, drop_drop, drop_ge by lia. done. }
      exists w'. split; [|congruence]. cbn [negb]. rewrite E. rewrite Hsp by (rewrite length_take, length_drop; lia). done.
  - assert (Z.of_nat (length d) <= skip) as Hds by lia. rewrite Z.min_l in * by lia. rewrite (drop_app_ge d) by lia. rewrite Nat2Z.id, drop_all in Hi2.
    destruct Hlast as [-> | -> ]; [cbn in Hd; lia|].
    destruct (IH fuel (skip - Z.of_nat (length d)) len to' pos w2) as (w' & E & Hs); try done; try (cbn in Hf; lia).
    exists w'. split; [|congruence]. cbn [negb]. rewrite E. replace (Z.to_nat (skip - Z.of_nat (length d))) with (Z.to_nat skip - length d)%nat by lia.
    set (y := take (Z.to_nat len) _). assert (Z.of_nat (length y) = len) as Hy by (unfold y; rewrite length_take, length_drop; lia).
    unfold splice. rewrite Ht2. replace (Z.to_nat pos + length y)%nat with (Z.to_nat (pos + len)) by lia. by rewrite Hd2.
Qed.

Lemma receive_packets_ret l fuel skip len to rest c w :
  block_ok l -> (length l <= fuel)%nat -> 0 <= skip -> 0 <= len <= Z.of_nat (length to) ->
  skip + len <= Z.of_nat (length (block_data l)) ->
  Z.of_nat (length (pack_client_read_status SUCCESS)) < 2 ^ 30 ->
  incoming c w = concat (map in_bytes l) ++ rest ->
  exists w', hadoop_rpc_receive_packets fuel skip len to (c, w) =
      Ret ((0, splice to 0 (take (Z.to_nat len) (drop (Z.to_nat skip) (block_data l)))), (c, w')) /\
    sent c w' = sent c w ++ delimited (pack_client_read_status SUCCESS).
Proof using All.
  intros Hb Hf Hs Hl Hd Ha Hi.
  destruct (receive_loop_ret l fuel skip len to 0 rest c w) as (w1 & E1 & Hs1); try done; try lia.
  unfold hadoop_rpc_receive_packets. rewrite (pbind_ret _ _ _ _ _ E1). change (Z.to_nat 0) with 0%nat.
  assert (Z.of_nat (length (pack_client_read_status SUCCESS)) < 2 ^ 32) as Ha2 by lia.
  rewrite (pbind_ret _ _ _ _ _ (PACK_ret (pack_client_read_status SUCCESS) (c, w1) Ha2)).
  destruct (varint_spec (Z.of_nat (length (pack_client_read_status SUCCESS)))) as (_ & Hv & _); [lia|].
  send_step w2 Hs2 Hi2; [unfold delimited; rewrite length_app; lia|]. exists w2. split; [done|congruence].
Qed.

(** C20: A block is received.  From packets whose lengths and headers are those of
    the data that follows, of which the last one ends the block, the bytes after
    those to skip are put at the front of the caller's buffer, whatever the sizes of
    the packets, of the part to skip and of the buffer are; the rest of the buffer
    is kept.  The transfer is then acknowledged, and the result is 0. *)
Theorem receive_packets_delivers l fuel skip len to rest c w :
  block_ok l -> (length l <= fuel)%nat -> 0 <= skip -> 0 <= len <= Z.of_nat (length to) ->
  skip + len <= Z.of_nat (length (block_data l)) ->
  Z.of_nat (length (pack_client_read_status SUCCESS)) < 2 ^ 30 ->
  incoming c w = concat (map in_bytes l) ++ rest ->
  exists w', hadoop_rpc_receive_packets fuel skip len to (c, w) =
      Ret ((0, splice to 0 (take (Z.to_nat len) (drop (Z.to_nat skip) (block_data l)))), (c, w')) /\
    sent c w' = sent c w ++ delimited (pack_client_read_status SUCCESS).
Proof using All.
  intros Hb Hf Hs Hl Hd Ha Hi. by apply receive_packets_ret with rest.
Qed.
End Proofs.

(** ** A data node in memory *)

Module HadoopExample.
Record wire := Wire { w_sent : list ascii; w_in : list ascii }.

#[export] Instance wire_net : Net wire := {|
  sendto _ bs w := (Z.of_nat (length bs), Wire (w_sent w ++ bs) (w_in w));
  recvfrom _ n w := ((Z.of_nat (length (take (Z.to_nat n) (w_in w))), take (Z.to_nat n) (w_in w)),
    Wire (w_sent w) (drop (Z.to_nat n) (w_in w)));
  socket w := (3, w); connect _ _ _ w := (0, w); set_linger _ _ w := (0, w); close_socket _ w := (0, w);
  pthread_create w := (0, w); pthread_cancel w := w; sleep _ w := w; user_name _ := lit "hdfs" |}.

#[export] Instance wire_stream : Stream wire.
Proof.
  refine {| out w _ := w_sent w; inp w _ := w_in w |}.
  - intros fd bs w. by exists (Wire (w_sent w ++ bs) (w_in w)).
  - intros fd x rest w Hi. exists (Wire (w_sent w) rest). cbn. by rewrite Nat2Z.id, Hi, take_app_length, drop_app_length.
Defined.

Definition toy_header (h : packet_header) : list ascii :=
  be_bytes 4 (offsetinblock h) ++ be_bytes 4 (seqno h) ++ be_bytes 1 (Z.b2z (lastpacketinblock h)) ++ be_bytes 4 (datalen h).
Definition toy_ack (z : Z) : list ascii := be_bytes 4 z.

#[export] Instance toy_protobuf : Protobuf := {|
  pack_packet_header := toy_header;
  unpack_packet_header l := Some (PacketHeader (be_val (take 4 l)) (be_val (take 4 (drop 4 l)))
    (be_val (take 1 (drop 8 l)) =? 1) (be_val (drop 9 l)));
  unpack_pipeline_ack l := Some (PipelineAck (be_val l) [SUCCESS]);
  pack_client_read_status z := be_bytes 4 z; block_op_status _ := Some SUCCESS;
  pack_rpc_request_header z := be_bytes 4 z; pack_request_header l := l; pack_connection_context l := l;
  unpack_rpc_response_header _ := Some (RpcResponseHeader SUCCESS None);
  pack_renew_lease l := l; pack_server_defaults_request := [];
  unpack_server_defaults _ := Some (ServerDefaults 65536 1048576 3 512 (Some CHECKSUM_CRC32C)) |}.

Definition c0 : connection_state := ConnectionState 3 1 true.
(** Three bytes, then four zeroes. *)
Definition buffers0 : buffer_pos :=
  BufferPos [HadoopFuseBuffer (Some (lit "abc")) 3; HadoopFuseBuffer None 4] 0 7.
Definition ck0 : checksum_proto := ChecksumProto CHECKSUM_CRC32C 2.
Definition acks : wire := Wire [] (ack_stream toy_ack 8 0).

Lemma toy_headers h : (length (pack_packet_header h) < 2 ^ 16)%nat.
Proof. apply (Nat.lt_le_trans _ (2 ^ 5)); [|apply Nat.pow_le_mono_r; lia]. cbn. lia. Qed.

Lemma toy_acks z : 0 <= z < 8 -> good_ack z (toy_ack z).
Proof.
  intros Hz. split; [done|]. split; [done|]. exists [SUCCESS]. split; [|split; [done|repeat constructor]].
  cbn -[be_val be_bytes]. unfold toy_ack. rewrite be_val_bytes, Z.mod_small by lia. done.
Qed.

(** Seven bytes that start in the middle of a chunk, with packets of four bytes. *)
Lemma send_packets_delivers_witness :
  cuttable 2 5 7 /\ exists pkts w', hadoop_rpc_send_packets true soft_crc32b soft_crc32q false 0 buffers0 7 5 4 ck0 (c0, acks) =
      Ret ((0, advance buffers0 7), (c0, w')) /\
    concat pkts = from_data buffers0 7 /\ cut_ok 2 4 5 pkts /\ sent c0 w' = sent c0 acks ++ block_stream ck0 0 5 pkts.
Proof.
  assert (cuttable 2 5 7) as Hcut by (right; right; by vm_compute). split; [exact Hcut|]. revert Hcut.
  apply (send_packets_delivers true soft_crc32b soft_crc32q false 0 soft_instruction
    toy_headers toy_ack buffers0 7 5 4 ck0 8 []).
  - split; [by left|cbn; lia].
  - lia.
  - by exists 2.
  - split; [repeat constructor|]. repeat split; first [by vm_compute|cbn; lia].
  - exact toy_acks.
  - lia.
  - cbn; lia.
  - lia.
  - lia.
  - cbn; lia.
  - by rewrite app_nil_r.
Defined.

Definition in0 (last : bool) (data : string) : in_packet :=
  InPacket (be_bytes 4 0) (toy_header (PacketHeader 0 0 last (Z.of_nat (length (lit data))))) (lit data).
Definition block0 : list in_packet := [in0 false "ab"; in0 false "cdefgh"; in0 true "ij"].

Definition wire0 : wire := Wire [] (concat (map in_bytes block0)).

(** Five bytes after the first three, into a buffer of six. *)
Lemma receive_packets_delivers_witness :
  take 5 (drop 3 (block_data block0)) = lit "defgh" /\
  exists w', hadoop_rpc_receive_packets 3 3 5 (replicate 6 nul) (c0, wire0) =
      Ret ((0, splice (replicate 6 nul) 0 (take (Z.to_nat 5) (drop (Z.to_nat 3) (block_data block0)))), (c0, w')) /\
    sent c0 w' = sent c0 wire0 ++ delimited (pack_client_read_status SUCCESS).
Proof.
  split; [done|]. apply (receive_packets_delivers block0 3 3 5 (replicate 6 nul) [] c0 wire0).
  - repeat split; by exists 0, 0.
  - done.
  - lia.
  - cbn; lia.
  - by vm_compute.
  - done.
  - by rewrite app_nil_r.
Defined.
End HadoopExample.
