(* ===== verification/HdfsWrap.v ===== *)
(** * Files on HDFS (src/usfs_wrap/hdfs/hdfs_wrap.c)

    The operations of a library for HDFS, on top of the wire protocol: files are
    sequences of blocks that only grow at their end, so that a write may have to
    fetch, drop and send again what lies behind it.  The messages are records;
    their packing, the password database and the allocator are parameters.

    A file handle is passed in two ways: as the address of a handle that [open]
    allocated, and, by all callers of the functions that write, as the address of
    the variable of eight bytes that holds this address.  [fh_ptr] keeps the two
    apart: the second has a [fileid], which is the variable itself, and no
    [blocksize].

    Assertions are left out, as in the only target that compiles. *)

From Stdlib Require Import ZArith Lia Ascii String.
From stdpp Require Import base list gmap.
From S2P Require Import Prelude Paths World Crc32c Varint HadoopRpc.

Local Open Scope Z_scope.

(** ** Messages *)

Record extended_block := ExtendedBlock {
  poolid : list ascii; blockid : Z; generationstamp : Z; numbytes : option Z }.
(** [DatanodeInfoProto]: the address, and the rest of the identity. *)
Record datanode_info := DatanodeInfo { ipaddr : list ascii; xferport : Z; datanode_id : list ascii }.
Record located_block := LocatedBlock {
  lb_b : extended_block; lb_offset : Z; lb_locs : list datanode_info; corrupt : bool;
  blocktoken : list ascii; storageids : list (list ascii) }.
Record located_blocks := LocatedBlocks {
  filelength : Z; lb_blocks : list located_block; underconstruction : bool }.
Record file_status := FileStatus {
  filetype : Z; fs_length : Z; permission : option Z; owner : option (list ascii); group : option (list ascii);
  modification_time : Z; access_time : Z; block_replication : Z; fs_blocksize : option Z; fs_fileid : option Z }.

(** The requests to the name node. *)
Inductive nn_request :=
| GetBlockLocations (src : list ascii) (offset length : Z)
| Create (src : list ascii) (perm : Z) (clientname : list ascii) (createflag replication blocksize : Z)
| Append (src clientname : list ascii)
| Complete (src clientname : list ascii) (fileid : option Z) (last : option extended_block)
| AddBlock (src clientname : list ascii) (previous : option extended_block) (fileid : Z)
| AbandonBlock (src holder : list ascii) (b : extended_block)
| UpdateBlockForPipeline (clientname : list ascii) (b : extended_block)
| UpdatePipeline (clientname : list ascii) (oldblock newblock : extended_block)
    (newnodes : list datanode_info) (ids : list (list ascii))
| GetFileInfo (src : list ascii)
| GetLinkTarget (path : list ascii)
| SetTimes (src : list ascii) (atime mtime : Z)
| SetOwner (src : list ascii) (username groupname : option (list ascii))
| CreateSymlink (target link : list ascii) (perm : Z)
| Rename (src dst : list ascii)
| SetPermission (src : list ascii) (perm : Z)
| GetFsStats
| Delete (src : list ascii)
| Mkdirs (src : list ascii) (perm : Z)
| Fsync (src client : list ascii).

Definition method (q : nn_request) : list ascii :=
  lit match q with
      | GetBlockLocations _ _ _ => "getBlockLocations"
      | Create _ _ _ _ _ _ => "create"
      | Append _ _ => "append"
      | Complete _ _ _ _ => "complete"
      | AddBlock _ _ _ _ => "addBlock"
      | AbandonBlock _ _ _ => "abandonBlock"
      | UpdateBlockForPipeline _ _ => "updateBlockForPipeline"
      | UpdatePipeline _ _ _ _ _ => "updatePipeline"
      | GetFileInfo _ => "getFileInfo"
      | GetLinkTarget _ => "getLinkTarget"
      | SetTimes _ _ _ => "setTimes"
      | SetOwner _ _ _ => "setOwner"
      | CreateSymlink _ _ _ => "createSymlink"
      | Rename _ _ => "rename"
      | SetPermission _ _ => "setPermission"
      | GetFsStats => "getFsStats"
      | Delete _ => "delete"
      | Mkdirs _ _ => "mkdirs"
      | Fsync _ _ => "fsync"
      end.

(** The requests to a data node. *)
Record op_write := OpWrite {
  ow_clientname : list ascii; ow_block : extended_block; ow_token : list ascii; ow_targets : list datanode_info;
  ow_pipelinesize : Z; ow_append : bool; ow_latestgenerationstamp : Z; ow_minbytesrcvd : Z; ow_maxbytesrcvd : Z;
  ow_checksum : checksum_proto }.
Record op_read := OpRead { or_clientname : list ascii; or_block : extended_block; or_offset : Z; or_len : Z }.

(** The generated code: a result of [None] is a message that cannot be unpacked;
    an inner option is an optional field. *)
Class HdfsProtobuf := {
  pack_nn : nn_request -> list ascii;
  unpack_locations : list ascii -> option (option located_blocks);
  unpack_create : list ascii -> option (option file_status);
  unpack_append : list ascii -> option (option located_block);
  unpack_complete : list ascii -> option bool;
  unpack_add_block : list ascii -> option located_block;
  unpack_update_block : list ascii -> option located_block;
  unpack_file_info : list ascii -> option (option file_status);
  unpack_link_target : list ascii -> option (option (list ascii));
  unpack_result : list ascii -> option bool;
  unpack_fs_stats : list ascii -> option (Z * Z);
  pack_op_write : op_write -> list ascii;
  pack_op_read : op_read -> list ascii;
  (** [readopchecksuminfo->chunkoffset] *)
  chunkoffset : list ascii -> option Z }.

(** The password database and the allocator: [calloc] gives an address or 0,
    [malloc] memory with any contents. *)
Class Host (W : Type) := {
  getpwnam : list ascii -> W -> option Z * W;
  getgrnam : list ascii -> W -> option Z * W;
  getpwuid : Z -> W -> option (list ascii) * W;
  getgrgid : Z -> W -> option (list ascii) * W;
  calloc : W -> Z * W;
  malloc_buffer : Z -> W -> option (list ascii) * W }.

Definition CREATE : Z := 1.
Definition OVERWRITE : Z := 2.

(** ** State *)

Record hadoop_fuse_filehandle := FileHandle { fileid : Z; fh_blocksize : Z; file_path : list ascii }.

(** The connection to the name node, the handles that are allocated, and the
    variable of the caller that holds a handle. *)
Record hdfs := Hdfs { nn_state : namenode_state; handles : gmap Z hadoop_fuse_filehandle; slot : Z }.
Definition set_nn (n : namenode_state) (s : hdfs) : hdfs := Hdfs n (handles s) (slot s).
Definition set_handles (h : gmap Z hadoop_fuse_filehandle) (s : hdfs) : hdfs := Hdfs (nn_state s) h (slot s).
Definition set_slot (v : Z) (s : hdfs) : hdfs := Hdfs (nn_state s) (handles s) v.

(** A [struct Hadoop_Fuse_FileHandle *]: null, the address of the caller's
    variable, or the address of a handle. *)
Inductive fh_ptr := FhNull | FhSlot | FhHandle (a : Z).

Section Code.
Context `{Protobuf} `{HdfsProtobuf} {W : Type} `{Net W} `{Host W}.
Context (crc32b : Z -> ascii -> Z) (crc32q : Z -> Z -> Z) (sse42 : bool) (packet_addr : Z).
(** Bounds for the packets of a block, and for how often a file is asked for until
    it is complete. *)
Context (packets polls : nat).

Abbreviation HP := (prog (hdfs * W)).

Definition state : HP hdfs := fun s => Ret (s.1, s).
Definition modify (f : hdfs -> hdfs) : HP unit := fun s => Ret (tt, (f s.1, s.2)).
Definition host {A} (f : W -> A * W) : HP A := fun s => let (a, w) := f s.2 in Ret (a, (s.1, w)).
Definition on_namenode {A} (e : prog (namenode_state * W) A) : HP A :=
  pzoom (fun s => (nn_state s.1, s.2)) (fun n s => (set_nn n.1 s.1, n.2)) e.
(** A program on a connection to a data node. *)
Definition with_dn {A} (c : connection_state) (e : prog (connection_state * W) A) : HP (A * connection_state) := fun s =>
  match e (c, s.2) with
  | Ret (a, (c', w)) => Ret ((a, c'), (s.1, w))
  | Exit => Exit
  | Undef => Undef
  end.

Definition fh_fileid (fh : fh_ptr) : HP Z :=
  let* s := state in
  match fh with
  | FhNull => plift Undef
  | FhSlot => pret (slot s)
  | FhHandle a => let* h := plift (deref (handles s !! a)) in pret (fileid h)
  end.
Definition fh_set_fileid (fh : fh_ptr) (v : Z) : HP unit :=
  match fh with
  | FhNull => plift Undef
  | FhSlot => modify (set_slot v)
  | FhHandle a =>
      let* s := state in
      let* h := plift (deref (handles s !! a)) in
      modify (set_handles (<[a := FileHandle v (fh_blocksize h) (file_path h)]> (handles s)))
  end.
Definition blocksize_of (fh : fh_ptr) : HP Z :=
  let* s := state in
  match fh with
  | FhNull | FhSlot => plift Undef
  | FhHandle a => let* h := plift (deref (handles s !! a)) in pret (fh_blocksize h)
  end.

(** ** Helpers *)

Definition hadoop_fuse_client_name : HP (list ascii) := let* s := state in pret (clientname (nn_state s)).

(** The result and the response, which is null after an error. *)
Definition CALL_NN {R} (q : nn_request) (unpack : list ascii -> option R) : HP (Z * option R) :=
  let* (res, out) := on_namenode (hadoop_rpc_call_namenode (method q) (pack_nn q)) in
  pret (res, match out with Some bytes => unpack bytes | None => None end).

(** For calls without a response that is looked at. *)
Definition unpack_void (_ : list ascii) : option unit := Some tt.

Definition unpack_filestatus (fs : file_status) : HP stat :=
  let* s := state in
  let type := if filetype fs =? 1 then S_IFDIR else if filetype fs =? 2 then S_IFREG
              else if filetype fs =? 3 then S_IFLNK else 0 in
  let mode := match permission fs with Some perm => Z.lor type perm | None => type end in
  let blksize := match fs_blocksize fs with Some b => b | None => blocksize (nn_state s) end in
  let* uid := match owner fs with
              | Some o => let* u := host (getpwnam o) in pret (default 0 u)
              | None => pret 0
              end in
  let* gid := match group fs with
              | Some g => let* u := host (getgrnam g) in pret (default 0 u)
              | None => pret 0
              end in
  pret (Stat 0 0 mode 0 uid gid 0 (i64 (fs_length fs)) (i64 blksize) 0
          (access_time fs / 1000) (modification_time fs / 1000) 0).

(** The copy of a block; the old one is freed. *)
Definition hadoop_fuse_clone_block (block : option extended_block) : option extended_block := block.

(** [polls] times at most is the file not complete yet. *)
Fixpoint complete_loop (polls : nat) (q : nn_request) : HP Z :=
  let* (res, response) := CALL_NN q unpack_complete in
  if res <? 0 then pret res
  else
    let* complete := plift (deref response) in
    if complete then pret res
    else
      do* host (fun w => (tt, sleep 1 w));
      match polls with O => plift Undef | S polls => complete_loop polls q end.
Definition hadoop_fuse_complete (src : list ascii) (fileid : Z) (last : option extended_block) : HP Z :=
  let* client := hadoop_fuse_client_name in
  complete_loop polls (Complete src client (if fileid >? 0 then Some fileid else None) last).

(** The result, and the number of the file when it is 0. *)
Definition hadoop_fuse_createemptyfile (src : list ascii) (perm : Z) : HP (Z * option Z) :=
  let* client := hadoop_fuse_client_name in
  let* s := state in
  let* (res, response) := CALL_NN (Create src perm client CREATE (replication (nn_state s)) (blocksize (nn_state s))) unpack_create in
  if res <? 0 then pret (res, None)
  else
    let* fs := plift (deref response) in
    match fs ≫= fs_fileid with
    | None => pret (- EPROTO, None)
    | Some fileid =>
        let* res := hadoop_fuse_complete src fileid None in
        if res <? 0 then pret (res, None) else pret (0, Some fileid)
    end.

(** Appending takes the lease.  The result and the last block. *)
Definition hadoop_fuse_lock (src : list ascii) (last : option extended_block) : HP (Z * option extended_block) :=
  let* client := hadoop_fuse_client_name in
  let* (res, response) := CALL_NN (Append src client) unpack_append in
  if res <? 0 then pret (res, last)
  else
    let* block := plift (deref response) in
    match block with
    | Some block => pret (0, hadoop_fuse_clone_block (Some (lb_b block)))
    | None => pret (0, last)
    end.

(** ** Blocks *)

Definition numbytes_of (b : extended_block) : Z := default 0 (numbytes b).
Definition set_numbytes (n : Z) (l : located_block) : located_block :=
  let b := lb_b l in
  LocatedBlock (ExtendedBlock (poolid b) (blockid b) (generationstamp b) (Some n)) (lb_offset l) (lb_locs l) (corrupt l)
    (blocktoken l) (storageids l).

(** A zeroed [struct connection_state]. *)
Definition dn_state0 : connection_state := ConnectionState 0 0 false.

(** One data node after another until the block is written, the [l]-th next;
    the others are where this one sends the block on to.  Whether it is written,
    the last result and the position in the buffers. *)
Fixpoint write_locations (rest : list datanode_info) (l : nat) (op : nat -> op_write) (len blockoffset packetsize : Z)
    (checksum : checksum_proto) (bufferpos : buffer_pos) (res : Z) : HP (bool * Z * buffer_pos) :=
  match rest with
  | [] => pret (false, res, bufferpos)
  | location :: rest =>
      let* (res, dn) := with_dn dn_state0 (hadoop_rpc_connect_datanode (ipaddr location) (xferport location)) in
      if res <? 0 then write_locations rest (S l) op len blockoffset packetsize checksum bufferpos res
      else
        let* (r, dn) := with_dn dn (hadoop_rpc_call_datanode 80 (pack_op_write (op l))) in
        let res := r.1 in
        let* (r, dn) :=
          if res =? 0 then
            let* (r, dn) := with_dn dn (hadoop_rpc_send_packets true crc32b crc32q sse42 packet_addr
                                          bufferpos len blockoffset packetsize checksum) in
            pret ((r.1 =? 0, r.1, r.2), dn)
          else pret ((false, res, bufferpos), dn) in
        do* with_dn dn hadoop_rpc_disconnect;
        let '(written, res, bufferpos) := r in
        if written : bool then pret (true, res, bufferpos)
        else write_locations rest (S l) op len blockoffset packetsize checksum bufferpos res
  end.

(** The result, the position in the buffers and the new block. *)
Definition hadoop_fuse_write_block (bufferpos : buffer_pos) (len blockoffset : Z) (checksum : checksum_proto)
    (block newblock : located_block) : HP (Z * buffer_pos * located_block) :=
  let newblocklen := max (numbytes_of (lb_b newblock)) (u64 (blockoffset + len)) in
  let* client := hadoop_fuse_client_name in
  let* s := state in
  let op l := OpWrite client (lb_b block) (blocktoken newblock) (delete l (lb_locs block))
                (u32 (Z.of_nat (length (lb_locs block))))
                (negb (generationstamp (lb_b newblock) =? generationstamp (lb_b block)))
                (generationstamp (lb_b newblock)) (numbytes_of (lb_b newblock)) newblocklen checksum in
  match lb_locs block with
  | [] => plift Undef
  | locs =>
      let* (r, bufferpos) := write_locations locs 0 op len blockoffset (packetsize (nn_state s)) checksum bufferpos 0 in
      if r.1 : bool then pret (i32 len, bufferpos, set_numbytes newblocklen newblock)
      else pret (if r.2 <? 0 then r.2 else - EIO, bufferpos, newblock)
  end.

Definition hadoop_fuse_bytestowrite (bufferpos : buffer_pos) (blockoffset : Z) (fh : fh_ptr) : HP Z :=
  let* bs := blocksize_of fh in
  pret (min (u64 (bs - blockoffset)) (u64 (bp_len bufferpos - bufferoffset bufferpos))).

Definition checksum_of : HP checksum_proto :=
  let* s := state in pret (ChecksumProto (checksumtype (nn_state s)) (bytesperchecksum (nn_state s))).

(** Writing into the last block makes a new version of it. *)
Definition write_last_block (bufferpos : buffer_pos) (offsetintofile : Z) (fh : fh_ptr) (lastlocation : located_block)
    (last : option extended_block) : HP (Z * buffer_pos * option extended_block) :=
  let* checksum := checksum_of in
  let blockoffset := u64 (offsetintofile - lb_offset lastlocation) in
  let* len := hadoop_fuse_bytestowrite bufferpos blockoffset fh in
  let* client := hadoop_fuse_client_name in
  let* (res, response) := CALL_NN (UpdateBlockForPipeline client (lb_b lastlocation)) unpack_update_block in
  if res <? 0 then pret (res, bufferpos, last)
  else
    let* block := plift (deref response) in
    let* (r, block) := hadoop_fuse_write_block bufferpos len (i64 blockoffset) checksum lastlocation block in
    let (res, bufferpos) := r in
    if res <? 0 then pret (res, bufferpos, last)
    else
      let* (res, _) := CALL_NN (UpdatePipeline client (lb_b lastlocation) (lb_b block) (lb_locs lastlocation)
                                  (storageids lastlocation)) unpack_void in
      if res <? 0 then pret (res, bufferpos, last)
      else pret (res, bufferpos, hadoop_fuse_clone_block (Some (lb_b block))).

(** Block after block is added and filled.  Every round but a failing one fills a
    block, so that [fuel] bounds the rounds when it is the length of the data. *)
Fixpoint add_blocks (fuel : nat) (src : list ascii) (bufferpos : buffer_pos) (fh : fh_ptr) (last : option extended_block)
    (res : Z) : HP (Z * buffer_pos * option extended_block) :=
  if (bufferoffset bufferpos <? bp_len bufferpos) && (res >=? 0) then
    match fuel with
    | O => plift Undef
    | S fuel =>
        let* checksum := checksum_of in
        let* len := hadoop_fuse_bytestowrite bufferpos 0 fh in
        let* client := hadoop_fuse_client_name in
        let* id := fh_fileid fh in
        let* (res, response) := CALL_NN (AddBlock src client last id) unpack_add_block in
        if res <? 0 then pret (res, bufferpos, last)
        else
          let* block := plift (deref response) in
          let* (r, newblock) := hadoop_fuse_write_block bufferpos len 0 checksum block block in
          let (res, bufferpos) := r in
          if res <? 0 then
            do* CALL_NN (AbandonBlock src client (lb_b newblock)) unpack_void;
            add_blocks fuel src bufferpos fh last res
          else add_blocks fuel src bufferpos fh (hadoop_fuse_clone_block (Some (lb_b newblock))) res
    end
  else pret (res, bufferpos, last).

(** The file is locked, and the offset is in its last block or at its end. *)
Definition hadoop_fuse_do_write (src : list ascii) (bufferpos : buffer_pos) (offsetintofile : Z) (fh : fh_ptr)
    (lastlocation : option located_block) (last : option extended_block)
    : HP (Z * buffer_pos * option extended_block) :=
  let* r :=
    match lastlocation with
    | None => pret (0, bufferpos, last)
    | Some l =>
        let* bs := blocksize_of fh in
        if (offsetintofile <? u64 (lb_offset l + bs)) && (offsetintofile >=? lb_offset l)
        then write_last_block bufferpos offsetintofile fh l last
        else pret (0, bufferpos, last)
    end in
  let '(res, bufferpos, last) := r in
  if res <? 0 then pret (res, bufferpos, last)
  else add_blocks (S (Z.to_nat (bp_len bufferpos))) src bufferpos fh last res.

(** ** Reading *)

(** One data node after another until the block is read: whether it is, the last
    result and the caller's buffer. *)
Fixpoint read_locations (rest : list datanode_info) (op : op_read) (buf : list ascii) (res : Z) : HP (bool * Z * list ascii) :=
  match rest with
  | [] => pret (false, res, buf)
  | location :: rest =>
      let* (res, dn) := with_dn dn_state0 (hadoop_rpc_connect_datanode (ipaddr location) (xferport location)) in
      if res <? 0 then read_locations rest op buf res
      else
        let* (r, dn) := with_dn dn (hadoop_rpc_call_datanode 81 (pack_op_read op)) in
        let (res, opresponse) := r : Z * option (list ascii) in
        if res <? 0 then
          do* with_dn dn hadoop_rpc_disconnect;
          read_locations rest op buf res
        else
          let* opresponse := plift (deref opresponse) in
          let skipbytes := match chunkoffset opresponse with Some o => u64 (or_offset op - o) | None => 0 end in
          let* (r, dn) := with_dn dn (hadoop_rpc_receive_packets packets skipbytes (or_len op) buf) in
          let (res, buf) := r : Z * list ascii in
          do* with_dn dn hadoop_rpc_disconnect;
          if res <? 0 then read_locations rest op buf res else pret (true, res, buf)
  end.

Fixpoint read_blocks (blocks : list located_block) (buf : list ascii) (size offset res : Z) : HP (Z * list ascii) :=
  match blocks with
  | [] => pret (i32 size, buf)
  | block :: blocks =>
      if corrupt block then read_blocks blocks buf size offset (- EBADMSG)
      else
        let* client := hadoop_fuse_client_name in
        let op_offset := min (u64 (offset - lb_offset block)) 0 in
        let op_len := min (u64 (numbytes_of (lb_b block) - op_offset)) size in
        let* (r, buf) := read_locations (lb_locs block) (OpRead client (lb_b block) op_offset op_len) buf res in
        let (read, res) := r : bool * Z in
        if read then read_blocks blocks buf size offset res
        else pret (if res <? 0 then res else - EIO, buf)
  end.

(** The result and the caller's buffer. *)
Definition hadoop_fuse_read (src : list ascii) (buf : list ascii) (size offset : Z) : HP (Z * list ascii) :=
  let* (res, response) := CALL_NN (GetBlockLocations src (u64 offset) size) unpack_locations in
  if res <? 0 then pret (res, buf)
  else
    let* locations := plift (deref response) in
    match locations with
    | None => pret (- ENOENT, buf)
    | Some l => if underconstruction l then pret (- EAGAIN, buf) else read_blocks (lb_blocks l) buf size offset res
    end.

(** ** Truncating and writing *)

Definition INT64_MAX : Z := 2 ^ 63 - 1.

(** The last block that is kept as a whole, and the one of which a part is. *)
Fixpoint kept_blocks (blocks : list located_block) (b : nat) (newlength : Z) (lastkept : option nat)
    : option nat * option located_block :=
  match blocks with
  | [] => (lastkept, None)
  | block :: blocks =>
      if u64 (lb_offset block + numbytes_of (lb_b block)) <=? newlength
      then kept_blocks blocks (S b) newlength (Some b)
      else (lastkept, if lb_offset block <? newlength then Some block else None)
  end.

(** [malloc (len)] filled by a read; [inr] the error. *)
Definition stash (src : list ascii) (len offset : Z) : HP (list ascii + Z) :=
  let* data := host (malloc_buffer len) in
  match data with
  | None => pret (inr (- ENOMEM))
  | Some data =>
      let* (res, data) := hadoop_fuse_read src data len (i64 offset) in
      pret (if res <? 0 then inr res else inl data)
  end.

(** All blocks are dropped: the file is created again. *)
Definition overwrite_file (path : list ascii) (fh : fh_ptr) : HP Z :=
  let* (res, response) := CALL_NN (GetFileInfo path) unpack_file_info in
  if res <? 0 then pret res
  else
    let* client := hadoop_fuse_client_name in
    let* response := plift (deref response) in
    let* fs := plift (deref response) in
    let* perm := plift (deref (permission fs)) in
    let* (res, response) := CALL_NN (Create path perm client OVERWRITE (block_replication fs) (default 0 (fs_blocksize fs))) unpack_create in
    if res <? 0 then pret res
    else
      let* response := plift (deref response) in
      let* fs := plift (deref response) in
      do* match fs_fileid fs with Some id => fh_set_fileid fh id | None => pret tt end;
      pret 0.

(** The blocks are dropped from the end; the first negative result. *)
Fixpoint abandon_blocks (path : list ascii) (blocks : list located_block) : HP Z :=
  match blocks with
  | [] => pret 0
  | block :: blocks =>
      let* client := hadoop_fuse_client_name in
      let* (res, _) := CALL_NN (AbandonBlock path client (lb_b block)) unpack_void in
      if res <? 0 then pret res else abandon_blocks path blocks
  end.

(** The blocks behind the last one that is kept are dropped; the last block. *)
Definition drop_blocks (path : list ascii) (fh : fh_ptr) (blocks : list located_block) (lastkept : option nat)
    : HP (option extended_block + Z) :=
  match lastkept with
  | None =>
      let* res := overwrite_file path fh in
      pret (if res <? 0 then inr res else inl (hadoop_fuse_clone_block None))
  | Some b =>
      let* (res, _) := hadoop_fuse_lock path None in
      if res <? 0 then pret (inr res)
      else
        let* res := abandon_blocks path (rev (drop (S b) blocks)) in
        if res <? 0 then pret (inr res)
        else
          let* block := plift (deref (blocks !! b)) in
          pret (inl (hadoop_fuse_clone_block (Some (lb_b block))))
  end.

Definition shrink (path : list ascii) (newlength : Z) (fh : fh_ptr) (blocks : list located_block) : HP Z :=
  let (lastkept, partial) := kept_blocks blocks 0 newlength None in
  let* kept := match partial with
               | None => pret (inl None)
               | Some block =>
                   let* r := stash path (newlength - lb_offset block) (lb_offset block) in
                   pret (match r with inl data => inl (Some (data, lb_offset block)) | inr res => inr res end)
               end in
  match kept with
  | inr res => pret res
  | inl kept =>
      let* r := drop_blocks path fh blocks lastkept in
      match r with
      | inr res => pret res
      | inl last =>
          let* r := match kept with
                    | None => pret (0, last)
                    | Some (data, bytesoffset) =>
                        let len := newlength - bytesoffset in
                        let* (r, last) := hadoop_fuse_do_write path (BufferPos [HadoopFuseBuffer (Some data) len] 0 len)
                                            bytesoffset fh None last in
                        pret (r.1, last)
                    end in
          let (res, last) := r in
          if res <? 0 then pret res
          else
            let* id := fh_fileid fh in
            let* res := hadoop_fuse_complete path id last in
            pret (if res <? 0 then res else 0)
      end
  end.

(** [write] is how a file is made longer. *)
Definition ftruncate_with (write : list ascii -> option (list ascii) -> Z -> Z -> fh_ptr -> HP Z)
    (path : list ascii) (offset : Z) (fh : fh_ptr) : HP Z :=
  let* (res, response) := CALL_NN (GetBlockLocations path 0 INT64_MAX) unpack_locations in
  if res <? 0 then pret res
  else
    let* locations := plift (deref response) in
    match locations with
    | None => pret (- ENOENT)
    | Some l =>
        let newlength := u64 offset in
        let oldlength := filelength l in
        if newlength >? oldlength then
          let* res := write path None (newlength - oldlength) (i64 oldlength) fh in
          pret (if res <? 0 then res else 0)
        else if newlength =? oldlength then pret res
        else shrink path newlength fh (lb_blocks l)
    end.

(** The first block that does not end before [offset], its position and the block
    before it; where the file is to be truncated, which is not initialised. *)
Fixpoint first_dropped (blocks : list located_block) (b : nat) (offset : Z) (prev : option located_block) (truncateto : option Z)
    : option (located_block * nat * option located_block) * option Z :=
  match blocks with
  | [] => (None, truncateto)
  | block :: blocks =>
      let blockend := u64 (lb_offset block + numbytes_of (lb_b block)) in
      if blockend <? offset then first_dropped blocks (S b) offset (Some block) (Some blockend)
      else (Some (block, b, prev), truncateto)
  end.

(** What is kept of a file while a block in its middle is written: the part of the
    block before the write, the data behind it, the number of blocks that are
    left, the offset of the write, the last block. *)
Record rewrite := Rewrite {
  rw_truncate : list ascii; rw_trailing : list ascii; rw_blocks : nat; rw_offset : Z; rw_last : option extended_block }.

(** The data behind the write; [inr] an error. *)
Definition stash_trailing (src : list ascii) (len offset filelength : Z) : HP (list ascii + Z) :=
  let trailing := u64 (filelength - min filelength (u64 (offset + len))) in
  if 0 <? trailing then stash src trailing (u64 (offset + len)) else pret (inl []).

Definition stash_truncated (src : list ascii) (len offset : Z) : HP (list ascii + Z) :=
  if 0 <? len then stash src len offset else pret (inl []).

Definition uncover (truncate : list ascii -> Z -> fh_ptr -> HP Z) (src : list ascii) (len offset : Z) (fh : fh_ptr)
    (l : located_blocks) : HP (rewrite + Z) :=
  let blocks := lb_blocks l in
  let* r := stash_trailing src len offset (filelength l) in
  match r with
  | inr res => pret (inr res)
  | inl trailing =>
      let (found, truncateto) := first_dropped blocks 0 offset None None in
      let* r := match found with
                | None => pret (inl (Rewrite [] trailing (length blocks) offset None))
                | Some (block, b, prev) =>
                    let n := u64 (offset - lb_offset block) in
                    let* r := stash_truncated src n (lb_offset block) in
                    pret (match r with
                          | inr res => inr res
                          | inl truncated =>
                              inl (Rewrite truncated trailing b (u64 (offset - n)) (hadoop_fuse_clone_block (lb_b <$> prev)))
                          end)
                end in
      match r with
      | inr res => pret (inr res)
      | inl rw =>
          let* truncateto := plift (deref truncateto) in
          let* res := truncate src (i64 truncateto) fh in
          pret (if res <? 0 then inr res else inl rw)
      end
  end.

(** The data is null when zeroes are to be written. *)
Definition write_with (truncate : list ascii -> Z -> fh_ptr -> HP Z)
    (src : list ascii) (data : option (list ascii)) (len offset : Z) (fh : fh_ptr) : HP Z :=
  let* (res, response) := CALL_NN (GetBlockLocations src 0 INT64_MAX) unpack_locations in
  if res <? 0 then pret res
  else
    let* locations := plift (deref response) in
    match locations with
    | None => pret (- ENOENT)
    | Some l =>
        let blocks := lb_blocks l in
        let lastblockoffset := match list.last blocks with Some b => lb_offset b | None => 0 end in
        let padding := if u64 offset >? filelength l then u64 (filelength l - u64 offset) else 0 in
        let offsetintofile := if u64 offset >? filelength l then filelength l else u64 offset in
        let* r := if negb (length blocks =? 0)%nat && (offsetintofile <? lastblockoffset)
                  then uncover truncate src len offsetintofile fh l
                  else pret (inl (Rewrite [] [] (length blocks) offsetintofile None)) in
        match r with
        | inr res => pret res
        | inl rw =>
            let* (res, last) := hadoop_fuse_lock src (rw_last rw) in
            if res <? 0 then pret res
            else
              let n_truncate := Z.of_nat (length (rw_truncate rw)) in
              let n_trailing := Z.of_nat (length (rw_trailing rw)) in
              let buffers := [HadoopFuseBuffer (Some (rw_truncate rw)) n_truncate; HadoopFuseBuffer None padding;
                              HadoopFuseBuffer data len; HadoopFuseBuffer (Some (rw_trailing rw)) n_trailing] in
              let* (r, last) := hadoop_fuse_do_write src
                                  (BufferPos buffers 0 (u64 (padding + n_trailing + n_truncate + len)))
                                  (rw_offset rw) fh
                                  (match rw_blocks rw with O => None | S b => blocks !! b end) last in
              let* id := fh_fileid fh in
              let* complete := hadoop_fuse_complete src id last in
              let res := if (r.1 >=? 0) && (complete <? 0) then complete else r.1 in
              pret (if res <? 0 then res else i32 len)
        end
    end.

(** Truncating may write and writing may truncate.  A write at the end of the file
    does not truncate, and one that is to shrink it does not write, so that a depth
    of 2 is enough when the name node does not contradict itself. *)
Fixpoint hadoop_fuse_ftruncate (depth : nat) (path : list ascii) (offset : Z) (fh : fh_ptr) : HP Z :=
  ftruncate_with
    (fun src data len offset fh =>
       match depth with
       | O => plift Undef
       | S depth => write_with (hadoop_fuse_ftruncate depth) src data len offset fh
       end)
    path offset fh.

Definition hadoop_fuse_write (src : list ascii) (data : option (list ascii)) (len offset : Z) (fh : fh_ptr) : HP Z :=
  write_with (hadoop_fuse_ftruncate 2) src data len offset fh.

Definition hadoop_fuse_truncate (path : list ascii) (offset : Z) : HP Z := hadoop_fuse_ftruncate 2 path offset FhNull.

(** ** The other operations *)

Definition hadoop_fuse_getattr (path : list ascii) : HP (Z * option stat) :=
  let* (res, response) := CALL_NN (GetFileInfo path) unpack_file_info in
  if res <? 0 then pret (res, None)
  else
    let* fs := plift (deref response) in
    match fs with
    | None => pret (- ENOENT, None)
    | Some fs => let* st := unpack_filestatus fs in pret (0, Some st)
    end.

(** The result and the caller's buffer. *)
Definition hadoop_fuse_readlink (path buf : list ascii) (len : nat) : HP (Z * list ascii) :=
  let* (res, response) := CALL_NN (GetLinkTarget path) unpack_link_target in
  if res <? 0 then pret (res, buf)
  else
    let* target := plift (deref response) in
    match target with
    | None => pret (- ENOENT, buf)
    | Some target =>
        let* buf := plift (strncpy buf 0 target len) in
        if (len =? 0)%nat then plift Undef else pret (0, <[(len - 1)%nat := nul]> buf)
    end.

(** A call whose response is not looked at. *)
Definition call_void (q : nn_request) : HP Z :=
  let* (res, _) := CALL_NN q unpack_void in
  pret (if res <? 0 then res else 0).
(** A call that may be refused. *)
Definition call_result (q : nn_request) : HP Z :=
  let* (res, response) := CALL_NN q unpack_result in
  if res <? 0 then pret res
  else let* result := plift (deref response) in pret (if result : bool then 0 else - EINVAL).

(** Seconds and nanoseconds. *)
Definition milliseconds (tv : Z * Z) : Z := u64 (tv.1 * 1000 + Z.quot tv.2 1000000).
Definition hadoop_fuse_utimens (src : list ascii) (atime mtime : Z * Z) : HP Z :=
  call_void (SetTimes src (milliseconds atime) (milliseconds mtime)).
Definition hadoop_fuse_chown (src : list ascii) (uid gid : Z) : HP Z :=
  let* owner := host (getpwuid uid) in
  let* group := host (getgrgid gid) in
  call_void (SetOwner src owner group).
Definition hadoop_fuse_symlink (target link : list ascii) : HP Z := call_void (CreateSymlink target link 511).
Definition hadoop_fuse_rename (src dst : list ascii) : HP Z := call_result (Rename src dst).
Definition hadoop_fuse_chmod (src : list ascii) (perm : Z) : HP Z := call_void (SetPermission src perm).
Definition hadoop_fuse_delete (src : list ascii) : HP Z := call_result (Delete src).
Definition hadoop_fuse_mkdir (src : list ascii) (perm : Z) : HP Z := call_result (Mkdirs src perm).
Definition hadoop_fuse_fsync (src : list ascii) : HP Z :=
  let* client := hadoop_fuse_client_name in call_void (Fsync src client).

(** The size of a block, all blocks, free blocks. *)
Definition hadoop_fuse_statfs : HP (Z * option (Z * Z * Z)) :=
  let* (res, response) := CALL_NN GetFsStats unpack_fs_stats in
  if res <? 0 then pret (res, None)
  else
    let* (capacity, remaining) := plift (deref response) in
    let* s := state in
    let bs := blocksize (nn_state s) in
    if bs =? 0 then plift Undef else pret (0, Some (bs, capacity / bs, remaining / bs)).

Definition hadoop_fuse_mknod (src : list ascii) (perm : Z) : HP Z :=
  let* (res, _) := hadoop_fuse_createemptyfile src perm in pret res.

(** The number and the block size of the file that is opened; [inr] an error. *)
Definition find_or_create (path : list ascii) (flags : Z) : HP ((Z * Z) + Z) :=
  let* s := state in
  let bs := blocksize (nn_state s) in
  let* (res, response) := CALL_NN (GetFileInfo path) unpack_file_info in
  if res <? 0 then pret (inr res)
  else
    let* fs := plift (deref response) in
    match (match fs with Some fs => match fs_fileid fs with Some id => Some (fs, id) | None => None end | None => None end) with
    | Some (fs, id) =>
        do* plift (deref (permission fs));
        let bs := match fs_blocksize fs with Some b => if b =? 0 then bs else b | None => bs end in
        if Z.land flags O_EXCL =? O_EXCL then pret (inr (- EEXIST)) else pret (inl (id, bs))
    | None =>
        if negb (Z.land flags O_CREAT =? 0) then
          let* (res, id) := hadoop_fuse_createemptyfile path 493 in
          if res <? 0 then pret (inr res) else let* id := plift (deref id) in pret (inl (id, bs))
        else pret (inr (- ENOENT))
    end.

(** The handle is stored in the caller's variable. *)
Definition hadoop_fuse_open (path : list ascii) (flags : Z) : HP Z :=
  let* r := find_or_create path flags in
  match r with
  | inr res => pret res
  | inl (id, bs) =>
      let* a := host calloc in
      if a =? 0 then pret (- ENOMEM)
      else
        do* modify (set_slot a);
        do* modify (fun s => set_handles (<[a := FileHandle id bs (replicate PATH_MAX nul)]> (handles s)) s);
        if negb (Z.land flags O_TRUNC =? 0) then
          let* res := hadoop_fuse_ftruncate 2 path 0 FhSlot in
          pret (if res <? 0 then res else 0)
        else pret 0
  end.

(** ** The interface of the library *)

(** [strtok (s, ":")]: the token, and where the next call goes on. *)
Definition strtok_colon (s : list ascii) : option (list ascii * list ascii) :=
  let (_, s) := span (Ascii.eqb ":"%char) s in
  match span (fun c => negb (Ascii.eqb ":"%char c)) s with
  | ([], _) => None
  | (token, rest) => Some (token, drop 1 rest)
  end.

(** <stdlib.h> [atoi], for a number that fits. *)
Definition atoi (s : list ascii) : Z :=
  let (_, s) := span isspace s in
  let digits s := fold_left (fun n c => n * 10 + (Z_of_byte c - 48)) (fst (span isdigit s)) 0 in
  match s with
  | "-"%char :: s => - digits s
  | "+"%char :: s => digits s
  | _ => digits s
  end.

(** [backend_path] is "host:port". *)
Definition hdfs_init (backend_path : list ascii) : HP unit :=
  let* (host, rest) := plift (deref (strtok_colon backend_path)) in
  let* (port, _) := plift (deref (strtok_colon rest)) in
  do* modify (set_nn (NamenodeState (ConnectionState 0 0 false) (lit "hadoop_fuse") 0 0 0 0 0));
  let* res := on_namenode (hadoop_rpc_connect_namenode host (u16 (atoi port))) in
  if res <? 0 then pexit else pret tt.

(** The result, and the handle in the caller's variable. *)
Definition hdfs_open (path : list ascii) (flags mode : Z) : HP Z :=
  let* rc := if negb (Z.land flags O_CREAT =? 0) then hadoop_fuse_mknod path mode else pret 0 in
  if negb (rc =? 0) then pret (- rc)
  else
    let* rc := hadoop_fuse_open path flags in
    if rc >=? 0 then
      let* s := state in
      let* h := plift (deref (handles s !! slot s)) in
      let* p := plift (strncpy (file_path h) 0 path PATH_MAX) in
      do* modify (set_handles (<[slot s := FileHandle (fileid h) (fh_blocksize h) p]> (handles s)));
      pret (- rc)
    else pret (- rc).

(** The path of a handle. *)
Definition handle_path (fhi : Z) : HP (list ascii) :=
  let* s := state in
  let* h := plift (deref (handles s !! fhi)) in
  plift (cstring (file_path h)).

(** The result, the caller's buffer and the number of bytes read. *)
Definition hdfs_read (fhi : Z) (buf : list ascii) (size offset : Z) : HP (Z * list ascii * option Z) :=
  let* path := handle_path fhi in
  let* (rc, buf) := hadoop_fuse_read path buf size offset in
  if rc <? 0 then pret (- rc, buf, None) else pret (0, buf, Some rc).

(** The parameter that holds the handle is what the functions below get the
    address of. *)
Definition hdfs_write (fhi : Z) (buf : list ascii) (size offset : Z) : HP (Z * option Z) :=
  let* path := handle_path fhi in
  do* modify (set_slot fhi);
  let* rc := hadoop_fuse_write path (Some buf) size offset FhSlot in
  if rc <? 0 then pret (- rc, None) else pret (0, Some rc).

Definition hdfs_fsync (fhi : Z) : HP Z :=
  let* path := handle_path fhi in let* rc := hadoop_fuse_fsync path in pret (- rc).
Definition hdfs_truncate (path : list ascii) (length : Z) : HP Z :=
  let* rc := hadoop_fuse_truncate path length in pret (- rc).
Definition hdfs_ftruncate (fhi offset : Z) : HP Z :=
  let* path := handle_path fhi in
  do* modify (set_slot fhi);
  let* rc := hadoop_fuse_ftruncate 2 path offset FhSlot in pret (- rc).
Definition hdfs_fgetattr (fhi : Z) : HP (Z * option stat) :=
  let* path := handle_path fhi in let* (rc, st) := hadoop_fuse_getattr path in pret (- rc, st).
Definition hdfs_getattr (path : list ascii) : HP (Z * option stat) :=
  let* (rc, st) := hadoop_fuse_getattr path in pret (- rc, st).
Definition hdfs_unlink (path : list ascii) : HP Z :=
  let* rc := hadoop_fuse_delete path in pret (- rc).
Definition hdfs_close (fhi : Z) : HP Z := pret 0.
End Code.

(** ** What the interface can never do *)

Section Limits.
Context `{Protobuf} `{HdfsProtobuf} {W : Type} `{Net W} `{Host W}.
Context (crc32b : Z -> ascii -> Z) (crc32q : Z -> Z -> Z) (sse42 : bool) (packet_addr : Z) (packets polls : nat).
Implicit Types (s : hdfs * W).

(** The first step of a program that returned. *)
Tactic Notation "step" hyp(H) "as" simple_intropattern(a) simple_intropattern(s) ident(E) :=
  apply pbind_inv in H as (a & s & E & H); cbv beta iota in H.

(** A pointer that is not the address of a handle. *)
Definition no_handle (fh : fh_ptr) : Prop := fh = FhSlot \/ fh = FhNull.

Lemma blocksize_of_none fh s r : no_handle fh -> blocksize_of fh s <> Ret r.
Proof. intros [-> | ->]; done. Qed.

Lemma add_blocks_none fuel src bp fh last res s r :
  no_handle fh -> 0 <= res ->
  add_blocks crc32b crc32q sse42 packet_addr fuel src bp fh last res s = Ret r ->
  bp_len bp <= bufferoffset bp.
Proof.
  intros Hfh Hres E. apply Z.nlt_ge. intros Hlt.
  destruct fuel as [|fuel]; cbn [add_blocks] in E;
    rewrite (proj2 (Z.ltb_lt _ _) Hlt), Z.geb_leb, (proj2 (Z.leb_le _ _) Hres) in E; [done|]. cbn [andb] in E.
  step E as ck s1 E1. step E as len s2 E2. unfold hadoop_fuse_bytestowrite in E2. step E2 as bs s3 E3.
  by eapply blocksize_of_none in E3.
Qed.

(** Without a handle only nothing is written, to no block. *)
Lemma do_write_none src bp off fh lastlocation last s r :
  no_handle fh ->
  hadoop_fuse_do_write crc32b crc32q sse42 packet_addr src bp off fh lastlocation last s = Ret r ->
  lastlocation = None /\ bp_len bp <= bufferoffset bp.
Proof.
  intros Hfh E. unfold hadoop_fuse_do_write in E. step E as [[res bp'] last'] s1 E1.
  destruct lastlocation as [l|]; [step E1 as bs s2 E2; by eapply blocksize_of_none in E2|].
  injection E1 as <- <- <- <-. split; [done|]. by eapply add_blocks_none in E.
Qed.

Lemma stash_error src len off s e s' :
  stash packets src len off s = Ret (inr e, s') -> e < 0.
Proof.
  intros E. unfold stash in E. step E as [data|] s1 E1; [|by injection E as <- _].
  step E as [res d] s2 E2. destruct (Z.ltb_spec res 0); [|done]. by injection E as <- _.
Qed.

Lemma stash_trailing_error src len off fl s e s' :
  stash_trailing packets src len off fl s = Ret (inr e, s') -> e < 0.
Proof. unfold stash_trailing. destruct (0 <? _); [apply stash_error|done]. Qed.

Lemma stash_truncated_error src len off s e s' :
  stash_truncated packets src len off s = Ret (inr e, s') -> e < 0.
Proof. unfold stash_truncated. destruct (0 <? _); [apply stash_error|done]. Qed.

Lemma first_dropped_spec blocks b off prev t :
  let r := first_dropped blocks b off prev t in
  match r.1 with
  | Some (_, b', _) => (b <= b' < b + length blocks)%nat /\ (b' = b -> r.2 = t)
  | None => True
  end.
Proof.
  revert b prev t. induction blocks as [|x blocks IH]; intros b prev t; cbn; [done|].
  destruct (_ <? off); cbn; [|split; [lia|done]].
  specialize (IH (S b) (Some x) (Some (u64 (lb_offset x + numbytes_of (lb_b x))))).
  destruct (first_dropped blocks (S b) off _ _) as [[[[? b'] ?]|] t']; cbn in *; [|done]. destruct IH as [? _]. split; lia.
Qed.

(** Uncovering a block leaves blocks in front of it. *)
Lemma uncover_spec truncate src len off fh l s r s' :
  lb_blocks l <> [] -> uncover packets truncate src len off fh l s = Ret (r, s') ->
  match r with
  | inr e => e < 0
  | inl rw => exists b x, rw_blocks rw = S b /\ lb_blocks l !! b = Some x
  end.
Proof.
  intros Hne E. unfold uncover in E. step E as [tr|e] s1 E1; [|injection E as <- _; by eapply stash_trailing_error].
  pose proof (first_dropped_spec (lb_blocks l) 0 off None None) as Hd.
  destruct (first_dropped (lb_blocks l) 0 off None None) as [found t]; cbn in Hd. step E as [rw|e] s2 E2.
  - step E as t' s3 E3. step E as res s4 E4. destruct (Z.ltb_spec res 0); injection E as <- _; [done|].
    assert (exists n, (0 < n <= length (lb_blocks l))%nat /\ rw_blocks rw = n) as (n & Hn & ->).
    { destruct found as [[[x b] prev]|].
      - step E2 as r2 s5 E5. destruct r2; [|done]. injection E2 as <- _. exists b. split; [|done].
        destruct Hd as [? Hd]. split; [|lia]. destruct b; [|lia]. rewrite Hd in E3 by done. done.
      - injection E2 as <- _. exists (length (lb_blocks l)). split; [|done]. destruct (lb_blocks l); [done|cbn; lia]. }
    destruct n as [|b]; [lia|]. destruct (lookup_lt_is_Some_2 (lb_blocks l) b) as [x Hx]; [lia|]. by exists b, x.
  - injection E as <- _. destruct found as [[[x b] prev]|]; [|done]. step E2 as r2 s5 E5. destruct r2; [done|].
    injection E2 as <- _. by eapply stash_truncated_error.
Qed.

Abbreviation write_with := (write_with crc32b crc32q sse42 packet_addr packets polls).
Abbreviation hdfs_write := (hdfs_write crc32b crc32q sse42 packet_addr packets polls).
Abbreviation hdfs_truncate := (hdfs_truncate crc32b crc32q sse42 packet_addr packets polls).
Abbreviation hdfs_read := (hdfs_read packets).

(** The end of a write that did not fail: the lease was taken, the data was
    written, and the file was completed with the number of the handle. *)
Lemma write_with_inv truncate src data len off fh s r s' :
  no_handle fh -> write_with truncate src data len off fh s = Ret (r, s') -> 0 <= r ->
  exists bytes l id s1, unpack_locations bytes = Some (Some l) /\ lb_blocks l = [] /\
    bp_len (BufferPos [] 0 (u64 ((if u64 off >? filelength l then u64 (filelength l - u64 off) else 0) + len))) <= 0 /\
    fh_fileid fh s1 = Ret (id, s1).
Proof.
  intros Hfh E Hr. unfold HdfsWrap.write_with in E. step E as [res resp] s1 E1.
  destruct (Z.ltb_spec res 0); [injection E as <- _; lia|]. step E as loc s2 E2. destruct resp as [loc'|]; [|done].
  injection E2 as -> ->. destruct loc as [l|]; [|injection E as <- _; unfold ENOENT in Hr; lia].
  unfold CALL_NN in E1. step E1 as [res' [bytes|]] s3 E3; [|done]. injection E1 as -> Hu ->.
  step E as r1 s4 E4. assert (match r1 with inr e => e < 0 | inl rw => (exists b x, rw_blocks rw = S b /\ lb_blocks l !! b = Some x) \/
    rw = Rewrite [] [] (length (lb_blocks l)) (if u64 off >? filelength l then filelength l else u64 off) None end) as Hr1.
  { destruct (negb (length (lb_blocks l) =? 0)%nat) eqn:Hn; cbn [andb] in E4.
    - destruct (_ <? _); [|injection E4 as <- _; by right].
      eapply uncover_spec in E4; [|intros En; by rewrite En in Hn]. destruct r1; [by left|done].
    - injection E4 as <- _. by right. }
  destruct r1 as [rw|e]; [|injection E as <- _; lia]. step E as [res2 last] s5 E5.
  destruct (Z.ltb_spec res2 0); [injection E as <- _; lia|]. step E as [[res3 bp] last'] s6 E6. step E as id s7 E7.
  apply do_write_none in E6 as [Hl Hb]; [|done]. exists bytes, l, id, s6. split; [done|].
  destruct Hr1 as [(b & x & Hrb & Hx)|Hrw]; [rewrite Hrb, Hx in Hl; done|]. rewrite Hrw in Hl, Hb. cbn in Hl, Hb.
  split; [|split].
  - destruct (lb_blocks l) as [|x t] eqn:El; [done|]. cbn in Hl. rewrite <- El in Hl.
    destruct (lookup_lt_is_Some_2 (x :: t) (length t)) as [y Hy]; [cbn; lia|]. rewrite El in Hl. congruence.
  - cbn. rewrite !Z.add_0_r in Hb. exact Hb.
  - unfold fh_fileid in *. step E7 as st s8 E8. injection E8 as <- <-. unfold pbind, state.
    destruct Hfh as [-> | ->]; [|done]. injection E7 as <- _. done.
Qed.

(** Writing zeroes without a handle, or shrinking without one, fails or is undefined. *)
Lemma write_with_null truncate src data len off s r s' :
  write_with truncate src data len off FhNull s = Ret (r, s') -> r < 0.
Proof.
  intros E. apply Z.nle_gt. intros Hr. eapply write_with_inv in E as (? & ? & ? & ? & _ & _ & _ & E); [done|by right|done].
Qed.

Lemma abandon_error path blocks s e s' : abandon_blocks path blocks s = Ret (e, s') -> e <= 0.
Proof.
  revert s. induction blocks as [|b blocks IH]; intros s E; cbn [abandon_blocks] in E; [injection E as <- _; lia|].
  step E as client s1 E1. step E as [res u] s2 E2. destruct (Z.ltb_spec res 0); [injection E as <- _; lia|by eapply IH].
Qed.

Lemma shrink_null path len blocks s r s' :
  shrink crc32b crc32q sse42 packet_addr packets polls path len FhNull blocks s = Ret (r, s') -> r < 0.
Proof.
  intros E. unfold shrink in E. destruct (kept_blocks blocks 0 len None) as [lastkept partial]. step E as [kept|e] s1 E1.
  - step E as [last|e] s2 E2.
    + step E as [res last'] s3 E3. destruct (Z.ltb_spec res 0); [by injection E as <- _|]. step E as id s4 E4. done.
    + injection E as <- _. destruct lastkept as [b|]; unfold drop_blocks in E2.
      * step E2 as [res l] s3 E3. destruct (Z.ltb_spec res 0); [by injection E2 as <- _|]. step E2 as res' s4 E4.
        destruct (Z.ltb_spec res' 0); [by injection E2 as <- _|]. step E2 as b' s5 E5. done.
      * step E2 as res s3 E3. destruct (Z.ltb_spec res 0); [by injection E2 as <- _|done].
  - injection E as <- _. destruct partial as [b|]; [|done]. step E1 as [d|e'] s2 E2; [done|]. injection E1 as <- _.
    by eapply stash_error.
Qed.

(** No write succeeds.  Whatever the name node and the data nodes answer, a
    write of data that is longer than its offset never returns success: the
    functions that write get the address of the variable that holds the handle in
    place of the handle, and the size of a block is read from behind it. *)
Theorem hdfs_write_never_succeeds fhi buf size offset n s s' :
  (forall bytes l, unpack_locations bytes = Some (Some l) -> 0 <= filelength l) ->
  0 < size < 2 ^ 64 -> 0 <= offset < 2 ^ 63 -> offset < size ->
  hdfs_write fhi buf size offset s <> Ret ((0, n), s').
Proof.
  intros Hul Hsz Hoff Hlt E. unfold HdfsWrap.hdfs_write in E. step E as path s1 E1. step E as u s2 E2. step E as rc s3 E3.
  destruct (Z.ltb_spec rc 0); [injection E as E _; lia|].
  apply write_with_inv in E3 as (bytes & l & id & s4 & Hu & _ & Hb & _); [|by left|done].
  specialize (Hul _ _ Hu). cbn in Hb. rewrite (wrap_small 64 offset) in Hb by lia. rewrite Z.gtb_ltb in Hb.
  destruct (Z.ltb_spec (filelength l) offset).
  - assert (u64 (filelength l - offset) = filelength l - offset + 2 ^ 64) as Ew
      by (unfold wrap; symmetry; apply Z.mod_unique_pos with (q := -1); lia).
    rewrite Ew in Hb. assert (u64 (filelength l - offset + 2 ^ 64 + size) = filelength l - offset + size) as Ew2
      by (unfold wrap; symmetry; apply Z.mod_unique_pos with (q := 1); lia). lia.
  - rewrite Z.add_0_l, wrap_small in Hb by lia. lia.
Qed.

(** A file is never truncated by name.  Whatever the name node and the data
    nodes answer, truncating a path returns success only when the file has that
    length already, and then after a single call. *)
Theorem hdfs_truncate_changes_nothing path length s s' :
  0 <= length < 2 ^ 63 -> hdfs_truncate path length s = Ret (0, s') ->
  exists l, CALL_NN (GetBlockLocations path 0 INT64_MAX) unpack_locations s = Ret ((0, Some (Some l)), s') /\
    filelength l = length.
Proof.
  intros Hl E. unfold HdfsWrap.hdfs_truncate in E. step E as rc s1 E1. injection E as E <-. assert (rc = 0) as -> by lia.
  unfold hadoop_fuse_truncate in E1. cbn [hadoop_fuse_ftruncate] in E1. unfold ftruncate_with in E1.
  step E1 as [res resp] s2 E2. destruct (Z.ltb_spec res 0); [injection E1; lia|]. step E1 as loc s3 E3.
  destruct resp as [loc'|]; [|done]. injection E3 as -> ->. destruct loc as [l|]; [|done].
  rewrite wrap_small in E1 by lia. destruct (Z.gtb_spec length (filelength l)).
  - step E1 as res' s4 E4. apply write_with_null in E4. destruct (Z.ltb_spec res' 0); [injection E1|]; lia.
  - destruct (Z.eqb_spec length (filelength l)) as [->|]; [|apply shrink_null in E1; lia].
    injection E1 as -> ->. by exists l.
Qed.

Lemma read_blocks_size blocks buf size offset res s r buf' s' :
  read_blocks packets blocks buf size offset res s = Ret ((r, buf'), s') -> 0 <= r -> r = i32 size.
Proof.
  revert buf res s. induction blocks as [|b blocks IH]; intros buf res s E Hr; cbn [read_blocks] in E; [by injection E|].
  destruct (corrupt b); [by eapply IH|]. step E as client s1 E1. step E as [[read res'] buf1] s2 E2.
  destruct read; [by eapply IH|]. injection E as <- _ _. destruct (Z.ltb_spec res' 0); [|unfold EIO in Hr]; lia.
Qed.

(** The end of a file is never seen.  Whatever the name node and the data nodes
    answer, a read that succeeds reports as many bytes as were asked for, also when
    the file is shorter or has no block there. *)
Theorem hdfs_read_reports_size fhi buf size offset s buf' n s' :
  hdfs_read fhi buf size offset s = Ret ((0, buf', Some n), s') -> n = i32 size.
Proof.
  intros E. unfold HdfsWrap.hdfs_read in E. step E as path s1 E1. step E as [rc b] s2 E2.
  destruct (Z.ltb_spec rc 0); [done|]. injection E as <- <- <-. unfold hadoop_fuse_read in E2. step E2 as [res resp] s3 E3.
  destruct (Z.ltb_spec res 0); [injection E2; lia|]. step E2 as loc s4 E4.
  destruct loc as [l|]; [|injection E2 as E2 _ _; unfold ENOENT in E2; lia].
  destruct (underconstruction l); [injection E2 as E2 _ _; unfold EAGAIN in E2; lia|]. by eapply read_blocks_size.
Qed.
End Limits.
