(* ===== verification/HdfsBlocks.v ===== *)
(** * The blocks of a file and the data nodes

    The functions of hdfs_wrap.c and hadooprpc.c together, over sockets that work:
    a call changes only the stream of its connection, and what a data node got is
    known when its connection is closed.  [do_write_fills_blocks] shows that data of
    any length reaches the data nodes cut into blocks; [read_returns_block_start]
    shows what a read returns. *)

From Stdlib Require Import ZArith Lia Ascii String.
From stdpp Require Import base list gmap.
From S2P Require Import Prelude Paths World Crc32c Varint HadoopRpc HdfsWrap.

Local Open Scope Z_scope.

(** ** Sockets *)

(** Whom a socket is connected to, whether it is open, whether there is room for
    another one, and the connections that were closed with what was sent over them. *)
Class Observe (W : Type) := {
  peer : W -> Z -> list ascii * Z;
  is_open : W -> Z -> bool;
  room : W -> bool;
  log : W -> list ((list ascii * Z) * list ascii) }.

(** Nothing but the stream of [fd] changes. *)
Definition keeps `{Stream W} `{Observe W} (fd : Z) (w w' : W) : Prop :=
  log w' = log w /\ room w' = room w /\
  (forall fd', is_open w' fd' = is_open w fd' /\ peer w' fd' = peer w fd') /\
  (forall fd', fd' <> fd -> out w' fd' = out w fd' /\ inp w' fd' = inp w fd').

(** Nothing of a socket changes. *)
Definition same_socket `{Stream W} `{Observe W} (fd : Z) (w w' : W) : Prop :=
  is_open w' fd = is_open w fd /\ peer w' fd = peer w fd /\ out w' fd = out w fd /\ inp w' fd = inp w fd.

Class Sockets (W : Type) `{Stream W} `{Observe W} := {
  (** what a peer sends on a connection that is made now *)
  answers : W -> list ascii * Z -> list ascii;
  sendto_keeps fd bs w : keeps fd w (sendto fd bs w).2;
  recvfrom_keeps fd n w : keeps fd w (recvfrom fd n w).2;
  connect_opens host port w : room w = true -> exists fd w1 w2 w3,
    socket w = (fd, w1) /\ connect fd host port w1 = (0, w2) /\ set_linger fd 30 w2 = (0, w3) /\
    0 <= fd < 2 ^ 31 /\ is_open w fd = false /\ is_open w3 fd = true /\ peer w3 fd = (host, port) /\
    out w3 fd = [] /\ inp w3 fd = answers w (host, port) /\ log w3 = log w /\
    (forall fd', is_open w fd' = true -> same_socket fd' w w3);
  close_logs fd w : is_open w fd = true -> exists r w',
    close_socket fd w = (r, w') /\ room w' = true /\ log w' = log w ++ [(peer w fd, out w fd)] /\
    (forall fd', fd' <> fd -> same_socket fd' w w') }.

Section Frame.
Context `{Protobuf} {W : Type} `{!Net W} `{!Stream W} `{!Observe W} `{!Sockets W}.

Lemma keeps_refl fd (w : W) : keeps fd w w.
Proof. by repeat split. Qed.

Lemma keeps_trans fd (w1 w2 w3 : W) : keeps fd w1 w2 -> keeps fd w2 w3 -> keeps fd w1 w3.
Proof.
  intros (L1 & R1 & A1 & B1) (L2 & R2 & A2 & B2). split; [congruence|]. split; [congruence|]. split; intros fd'.
  - destruct (A1 fd'), (A2 fd'). split; congruence.
  - intros Hn. destruct (B1 fd' Hn), (B2 fd' Hn). split; congruence.
Qed.

(** A program that only uses its connection. *)
Definition local {A} (e : prog (connection_state * W) A) : Prop :=
  forall c w a c' w', e (c, w) = Ret (a, (c', w')) -> c' = c /\ keeps (sockfd c) w w'.

Lemma local_ret {A} (a : A) : local (pret a).
Proof. intros c w a' c' w' E. injection E as <- <- <-. split; [done|apply keeps_refl]. Qed.

Lemma local_lift {A} (o : outcome A) : local (plift o).
Proof. intros c w a c' w' E. unfold plift in E. destruct o; [|done|done]. injection E as <- <- <-. split; [done|apply keeps_refl]. Qed.

Lemma local_bind {A B} (e : prog (connection_state * W) A) (k : A -> prog (connection_state * W) B) :
  local e -> (forall a, local (k a)) -> local (pbind e k).
Proof.
  intros He Hk c w b c' w' E. apply pbind_inv in E as (a & [c1 w1] & E1 & E2). apply He in E1 as [-> K1].
  apply Hk in E2 as [-> K2]. split; [done|by eapply keeps_trans].
Qed.

Lemma local_exit {A} : local (A := A) pexit.
Proof. done. Qed.

Lemma local_send bs : local (hadoop_rpc_send bs).
Proof.
  intros c w a c' w' E. unfold hadoop_rpc_send, pbind, conn, net in E. cbn [fst snd] in E.
  pose proof (sendto_keeps (sockfd c) bs w) as Hk. destruct (sendto (sockfd c) bs w) as [r w1]. by injection E as <- <- <-.
Qed.

Lemma local_recv n : local (recv n).
Proof.
  intros c w a c' w' E. unfold recv in E. apply pbind_inv in E as (c1 & [c2 w2] & E1 & E). injection E1 as <- <- <-.
  apply pbind_inv in E as ([res data] & [c3 w3] & E3 & E). unfold net in E3. cbn [fst snd] in E3.
  pose proof (recvfrom_keeps (sockfd c) n w) as Hk. destruct (recvfrom (sockfd c) n w) as [r w1]. injection E3 as -> <- <-.
  destruct (res <? 0); [by injection E as <- <- <-|]. destruct (_ =? n); [by injection E as <- <- <-|done].
Qed.
End Frame.

Create HintDb local discriminated.
#[export] Hint Resolve local_ret local_lift local_exit local_send local_recv : local.

Ltac local :=
  repeat first
    [ solve [eauto with local]
    | apply local_bind; [|intros ?]
    | match goal with |- HdfsBlocks.local (match ?x with _ => _ end) => destruct x end
    | match goal with |- HdfsBlocks.local (if ?x then _ else _) => destruct x end
    | match goal with |- HdfsBlocks.local (let _ := _ in _) => cbv zeta end ].

Section Locality.
Context `{Protobuf} {W : Type} `{!Net W} `{!Stream W} `{!Observe W} `{!Sockets W}.
Context (ndebug : bool) (crc32b : Z -> ascii -> Z) (crc32q : Z -> Z -> Z) (sse42 : bool) (packet_addr : Z).

Lemma local_PACK msg : local (W := W) (PACK msg).
Proof. unfold PACK. local. Qed.

Lemma local_receive_proto : local (W := W) hadoop_rpc_receive_proto.
Proof. unfold hadoop_rpc_receive_proto. local. Qed.
Hint Resolve local_PACK local_receive_proto : local.

Lemma local_call_datanode type msg : local (W := W) (hadoop_rpc_call_datanode type msg).
Proof. unfold hadoop_rpc_call_datanode. local. Qed.

Lemma local_recv_to to pos n : local (W := W) (recv_to to pos n).
Proof. unfold recv_to. local. Qed.
Hint Resolve local_recv_to : local.

Lemma local_skip_loop fuel skip avail len to pos : local (W := W) (skip_loop fuel skip avail len to pos).
Proof. revert skip avail to. induction fuel as [|fuel IH]; intros; cbn [skip_loop]; local. Qed.

Lemma local_receive_header : local (W := W) receive_header.
Proof. unfold receive_header. local. Qed.
Hint Resolve local_skip_loop local_receive_header : local.

Lemma local_receive_loop fuel more skip len to pos : local (W := W) (receive_loop fuel more skip len to pos).
Proof. revert more skip len to pos. induction fuel as [|fuel IH]; intros; cbn [receive_loop]; local. Qed.
Hint Resolve local_receive_loop : local.

Lemma local_receive_packets fuel skip len to : local (W := W) (hadoop_rpc_receive_packets fuel skip len to).
Proof. unfold hadoop_rpc_receive_packets. local. Qed.

Lemma local_send_checksums n i bpc packet : local (W := W) (send_checksums crc32b crc32q sse42 packet_addr n i bpc packet).
Proof. revert i. induction n as [|n IH]; intros; cbn [send_checksums]; unfold hadoop_rpc_send_int32; local. Qed.
Hint Resolve local_send_checksums : local.

Lemma local_send_packet seqno from len off ck :
  local (W := W) (hadoop_rpc_send_packet ndebug crc32b crc32q sse42 packet_addr seqno from len off ck).
Proof.
  unfold hadoop_rpc_send_packet, send_header, send_payload, receive_ack, hadoop_rpc_send_int32, hadoop_rpc_send_int16. local.
Qed.
Hint Resolve local_send_packet : local.

Lemma local_send_packets_loop fuel seqno initial from len off psize ck :
  local (W := W) (send_packets_loop ndebug crc32b crc32q sse42 packet_addr fuel seqno initial from len off psize ck).
Proof. revert seqno from. induction fuel as [|fuel IH]; intros; cbn [send_packets_loop]; local. Qed.
End Locality.
#[export] Hint Resolve local_PACK local_call_datanode local_receive_packets local_send_packets_loop : local.

(** ** A connection to a data node *)

Definition op_header (type : Z) : list ascii := [byte_of_Z 0; byte_of_Z 28; byte_of_Z type].

Section Files.
Context `{Protobuf} `{!HdfsProtobuf} {W : Type} `{!Net W} `{!Host W} `{!Stream W} `{!Observe W} `{!Sockets W}.
Context (crc32b : Z -> ascii -> Z) (crc32q : Z -> Z -> Z) (sse42 : bool) (packet_addr : Z) (packets : nat).
Implicit Types (w : W) (h : hdfs).

(** The sockets that are open stay as they are. *)
Definition untouched w w' : Prop := forall fd, is_open w fd = true -> same_socket fd w w'.

Lemma untouched_trans w1 w2 w3 : untouched w1 w2 -> untouched w2 w3 -> untouched w1 w3.
Proof.
  intros U1 U2 fd Ho. destruct (U1 fd Ho) as (O1 & P1 & Q1 & R1). destruct (U2 fd) as (O2 & P2 & Q2 & R2); [congruence|].
  repeat split; congruence.
Qed.

Lemma untouched_keeps w1 w2 w3 fd : untouched w1 w2 -> is_open w1 fd = false -> keeps fd w2 w3 -> untouched w1 w3.
Proof.
  intros U Hf (_ & _ & A & B) fd' Ho. assert (fd' <> fd) as Hn by congruence. destruct (U fd' Ho) as (O1 & P1 & Q1 & R1).
  destruct (A fd'), (B fd' Hn). repeat split; congruence.
Qed.

Lemma with_dn_ret {A} (e : prog (connection_state * W) A) c h w a c' w' :
  e (c, w) = Ret (a, (c', w')) -> with_dn c e (h, w) = Ret ((a, c'), (h, w')).
Proof. intros E. unfold with_dn. cbn [fst snd]. by rewrite E. Qed.

Lemma connect_ret host port w : room w = true -> exists fd w',
  hadoop_rpc_connect_datanode host port (dn_state0, w) = Ret (0, (ConnectionState fd 0 true, w')) /\
  is_open w fd = false /\ is_open w' fd = true /\ peer w' fd = (host, u16 port) /\ out w' fd = [] /\
  inp w' fd = answers w (host, u16 port) /\ log w' = log w /\ untouched w w'.
Proof using All.
  intros Hr. destruct (connect_opens host (u16 port) w Hr) as (fd & w1 & w2 & w3 & E1 & E2 & E3 & Hfd & Hc & Ho & Hp & Hout & Hin & Hl & Hu).
  exists fd, w3. split; [|done]. unfold hadoop_rpc_connect_datanode, hadoop_rpc_do_connect, pbind, net. cbn [fst snd].
  rewrite E1. cbn [fst snd]. rewrite swrap_small, E2 by lia. cbn [Z.ltb Z.compare fst snd]. by rewrite E3.
Qed.

(** The end of a connection that was used: what was sent is known. *)
Lemma session_end fd id host port h w w1 w2 :
  is_open w fd = false -> is_open w1 fd = true -> peer w1 fd = (host, port) -> log w1 = log w -> untouched w w1 -> keeps fd w1 w2 ->
  exists r w', with_dn (ConnectionState fd id true) hadoop_rpc_disconnect (h, w2) = Ret (r, (h, w')) /\
    room w' = true /\ untouched w w' /\ log w' = log w ++ [((host, port), out w2 fd)].
Proof using All.
  intros Hc Ho Hp Hl Hu K. pose proof (untouched_keeps w w1 w2 fd Hu Hc K) as Hu2. destruct K as (KL & _ & KA & _). destruct (KA fd) as [KO KP].
  destruct (close_logs fd w2) as (r & w' & E & Hr & Hl' & Hs); [congruence|]. eexists _, w'. split.
  { apply with_dn_ret. unfold hadoop_rpc_disconnect, pbind, conn, net. cbn [fst snd sockfd]. rewrite E. done. }
  split; [done|]. split; [|rewrite Hl'; congruence].
  intros fd' Ho'. assert (fd' <> fd) as Hn by congruence. destruct (Hu2 fd' Ho') as (O1 & P1 & Q1 & R1).
  destruct (Hs fd' Hn) as (O2 & P2 & Q2 & R2). repeat split; congruence.
Qed.

(** ** Calls to the name node *)

(** A program that only uses the connection of the name node when its result is in [P]. *)
Definition nn_local {A} (P : A -> Prop) (e : prog (namenode_state * W) A) : Prop :=
  forall n w a n' w', e (n, w) = Ret (a, (n', w')) -> P a ->
  sockfd (connection n') = sockfd (connection n) /\ keeps (sockfd (connection n)) w w'.

Lemma nn_local_on {A} P (e : prog (connection_state * W) A) : local e -> nn_local P (on_connection e).
Proof.
  intros He n w a n' w' E _. unfold on_connection, pzoom in E. cbn [fst snd] in E.
  destruct (e (connection n, w)) as [[a1 [c1 w1]]| |] eqn:E1; [|done|done]. apply He in E1 as [-> K]. by injection E as <- <- <-.
Qed.

Lemma nn_local_call_id P : nn_local P (on_connection take_call_id).
Proof. intros n w a n' w' E _. injection E as <- <- <-. split; [done|apply keeps_refl]. Qed.

Lemma nn_local_ret {A} P (a : A) : nn_local P (pret a).
Proof. intros n w a' n' w' E _. injection E as <- <- <-. split; [done|apply keeps_refl]. Qed.

Lemma nn_local_lift {A} P (o : outcome A) : nn_local P (plift o).
Proof. intros n w a n' w' E _. unfold plift in E. destruct o; [|done|done]. injection E as <- <- <-. split; [done|apply keeps_refl]. Qed.

Lemma nn_local_bind {A B} (P : B -> Prop) (e : prog (namenode_state * W) A) k :
  nn_local (fun _ => True) e -> (forall a, nn_local P (k a)) -> nn_local P (pbind e k).
Proof.
  intros He Hk n w b n' w' E HP. apply pbind_inv in E as (a & [n1 w1] & E1 & E2). destruct (He _ _ _ _ _ E1 I) as [S1 K1].
  destruct (Hk a _ _ _ _ _ E2 HP) as [S2 K2]. rewrite S1 in K2. split; [congruence|by eapply keeps_trans].
Qed.

Lemma namenode_errno_neg d : namenode_errno d < 0.
Proof.
  unfold namenode_errno, EINVAL, EACCES, EPROTONOSUPPORT, EBADR. destruct d as [d|]; [|lia].
  destruct (d =? 15); [lia|]. destruct (_ || _); [lia|]. destruct (_ || _); lia.
Qed.

Lemma call_namenode_local methodname msg : nn_local (fun r => r.1 = 0) (hadoop_rpc_call_namenode methodname msg).
Proof using All.
  unfold hadoop_rpc_call_namenode, hadoop_rpc_call_namenode_withlock, hadoop_rpc_send_int32.
  repeat first
    [ apply nn_local_bind; [first [apply nn_local_call_id | apply nn_local_lift | apply nn_local_on; solve [local]]|intros ?]
    | apply nn_local_ret
    | match goal with |- nn_local _ (match ?x with _ => _ end) => destruct x end
    | match goal with |- nn_local _ (if ?x then _ else _) => destruct x end ].
  all: intros n w r n' w' E Hr; apply pbind_inv in E as (u & [n1 w1] & _ & E); injection E as <- _ _; cbn in Hr;
    match type of Hr with namenode_errno ?d = 0 => pose proof (namenode_errno_neg d) end; lia.
Qed.

(** The messages of the client are shorter than 4 GiB, requests to data nodes than 1 GiB. *)
Record short_messages : Prop := {
  short_nn q : Z.of_nat (length (pack_nn q)) < 2 ^ 32;
  short_rpc z : Z.of_nat (length (pack_rpc_request_header z)) < 2 ^ 32;
  short_request q : Z.of_nat (length (pack_request_header (method q))) < 2 ^ 32;
  short_op_write o : Z.of_nat (length (pack_op_write o)) < 2 ^ 30;
  short_op_read o : Z.of_nat (length (pack_op_read o)) < 2 ^ 30;
  short_status : Z.of_nat (length (pack_client_read_status SUCCESS)) < 2 ^ 30 }.
Context (Hshort : short_messages).
(** The header of an answer that reports success. *)
Context (header : list ascii) (detail : option Z).
Context (Hlenheader : Z.of_nat (length header) < 2 ^ 30).
Context (Hsuccess : unpack_rpc_response_header header = Some (RpcResponseHeader 0 detail)).

Definition nn_fd h : Z := sockfd (connection (nn_state h)).
Definition called h : hdfs := set_nn (bump (nn_state h)) h.

Lemma CALL_NN_ret {R} q (unpack : list ascii -> option R) msg r rest h w :
  Z.of_nat (length msg) < 2 ^ 30 -> unpack msg = Some r -> inp w (nn_fd h) = nn_reply header msg ++ rest ->
  exists w', CALL_NN q unpack (h, w) = Ret ((0, Some r), (called h, w')) /\ inp w' (nn_fd h) = rest /\ keeps (nn_fd h) w w'.
Proof using All.
  intros Hm Hu Hi.
  destruct (call_namenode_ret (method q) (pack_nn q) header detail msg rest (nn_state h) w) as (w' & E & Hs & Hi'); try done;
    [apply Hshort..|].
  exists w'. split; [|split; [done|by eapply call_namenode_local in E as [_ K]]].
  unfold CALL_NN, on_namenode, pbind, pzoom. cbn [fst snd]. rewrite E. by rewrite Hu.
Qed.

(** ** Writing a block *)

Section Writing.
Context (HI : crc32_instruction crc32b crc32q) (Hheader : forall p, (length (pack_packet_header p) < 2 ^ 16)%nat).
(** Data nodes accept blocks and acknowledge [n] packets. *)
Context (resp : list ascii) (ack : Z -> list ascii) (n : nat).
Context (Hresp : (4 <= length resp)%nat /\ Z.of_nat (length resp) < 2 ^ 32 /\ block_op_status resp = Some SUCCESS).
Context (Hack : forall z, 0 <= z < Z.of_nat n -> good_ack z (ack z)).
Context (Hanswers : forall w p, exists rest, answers w p = delimited resp ++ ack_stream ack n 0 ++ rest).

(** The first data node gets the request and the block. *)
Lemma write_locations_ret location rest l op len off psize ck from res h w :
  let bpc := ck_bytesperchecksum ck in
  checksum_ok ck -> 0 < psize <= 2 ^ 28 -> (bpc | psize) -> from_ok from -> Z.of_nat (length (pack_op_write (op l))) < 2 ^ 30 ->
  0 <= len < Z.of_nat n -> bufferoffset from + len <= bp_len from -> 0 <= off -> off + len < 2 ^ 63 -> cuttable bpc off len ->
  room w = true ->
  exists pkts w', write_locations crc32b crc32q sse42 packet_addr (location :: rest) l op len off psize ck from res (h, w) =
      Ret ((true, 0, advance from len), (h, w')) /\
    concat pkts = from_data from len /\ cut_ok bpc psize off pkts /\ room w' = true /\ untouched w w' /\
    log w' = log w ++ [((ipaddr location, u16 (xferport location)),
                         op_header 80 ++ delimited (pack_op_write (op l)) ++ block_stream ck 0 off pkts)].
Proof using All.
  cbv zeta. intros Hck Hps Hdiv Hf Hop Hlen Hend Hoff Hoff' Hcut Hroom. cbn [write_locations].
  destruct (connect_ret (ipaddr location) (xferport location) w Hroom) as (fd & w1 & E1 & Hc & Ho & Hp & Hout & Hin & Hl & Hu).
  rewrite (pbind_ret _ _ _ _ _ (with_dn_ret _ _ h _ _ _ _ E1)). cbn [Z.ltb Z.compare]. set (c := ConnectionState fd 0 true) in *.
  destruct Hresp as (H4 & H32 & Hst). destruct (Hanswers w (ipaddr location, u16 (xferport location))) as [rest' Ha].
  destruct (call_datanode_ret 80 (pack_op_write (op l)) resp (ack_stream ack n 0 ++ rest') c w1) as (w2 & E2 & Hs2 & Hi2);
    [done|done|done|done|unfold incoming; cbn; congruence|].
  rewrite (pbind_ret _ _ _ _ _ (with_dn_ret _ _ h _ _ _ _ E2)). cbn [fst]. rewrite Z.eqb_refl.
  pose proof (local_call_datanode 80 (pack_op_write (op l)) c w1 _ _ _ E2) as [_ K2].
  destruct (send_packets_ret true crc32b crc32q sse42 packet_addr HI Hheader ack from len off psize ck n rest' c w2)
    as (pkts & w3 & E3 & Hd3 & Hc3 & Hs3); [done|done|done|done|done|lia|done|done|done|done|lia|done|].
  pose proof (local_send_packets_loop true crc32b crc32q sse42 packet_addr _ _ _ _ _ _ _ _ c w2 _ _ _ E3) as [_ K3].
  rewrite (pbind_ret _ _ _ _ _ (pbind_ret _ _ _ _ _ (with_dn_ret _ _ h _ _ _ _ E3))). cbn [fst snd].
  destruct (session_end fd 0 (ipaddr location) (u16 (xferport location)) h w w1 w3) as (r4 & w4 & E4 & Hr4 & Hu4 & Hl4);
    [done|done|done|done|done|by eapply keeps_trans|].
  rewrite (pbind_ret _ _ _ _ _ E4). exists pkts, w4. split; [done|]. split; [done|]. split; [done|]. split; [done|]. split; [done|].
  rewrite Hl4. change (out w3 fd) with (sent c w3). rewrite Hs3, Hs2. change (sent c w1) with (out w1 fd). rewrite Hout.
  by rewrite <- !app_assoc.
Qed.

(** Data that goes to a block from an offset on, and the request that announces it; a
    new block is its own new version. *)
Record transfer := Transfer { tr_block : located_block; tr_new : located_block; tr_offset : Z; tr_data : list ascii }.
Definition new_transfer (lb : located_block) (data : list ascii) : transfer := Transfer lb lb 0 data.
Definition transfer_op (client : list ascii) (ck : checksum_proto) (x : transfer) : op_write :=
  let old := tr_block x in let new := tr_new x in
  OpWrite client (lb_b old) (blocktoken new) (delete 0%nat (lb_locs old)) (u32 (Z.of_nat (length (lb_locs old))))
    (negb (generationstamp (lb_b new) =? generationstamp (lb_b old))) (generationstamp (lb_b new)) (numbytes_of (lb_b new))
    (max (numbytes_of (lb_b new)) (u64 (tr_offset x + Z.of_nat (length (tr_data x))))) ck.

(** What the first data node of a block got: the request and the packets of the data. *)
Definition block_session (client : list ascii) (ck : checksum_proto) (psize : Z) (x : transfer)
    (e : (list ascii * Z) * list ascii) : Prop :=
  exists loc locs pkts, lb_locs (tr_block x) = loc :: locs /\ concat pkts = tr_data x /\
    cut_ok (ck_bytesperchecksum ck) psize (tr_offset x) pkts /\
    e = ((ipaddr loc, u16 (xferport loc)),
         op_header 80 ++ delimited (pack_op_write (transfer_op client ck x)) ++ block_stream ck 0 (tr_offset x) pkts).

Lemma write_block_ret from len off ck lb new h w :
  let bpc := ck_bytesperchecksum ck in let psize := packetsize (nn_state h) in
  checksum_ok ck -> 0 < psize <= 2 ^ 28 -> (bpc | psize) -> from_ok from -> lb_locs lb <> [] ->
  0 <= len < Z.of_nat n -> bufferoffset from + len <= bp_len from -> 0 <= off -> off + len < 2 ^ 63 -> cuttable bpc off len ->
  room w = true ->
  exists e w', hadoop_fuse_write_block crc32b crc32q sse42 packet_addr from len off ck lb new (h, w) =
      Ret ((i32 len, advance from len, set_numbytes (max (numbytes_of (lb_b new)) (u64 (off + len))) new), (h, w')) /\
    block_session (clientname (nn_state h)) ck psize (Transfer lb new off (from_data from len)) e /\ room w' = true /\ untouched w w' /\
    log w' = log w ++ [e].
Proof using All.
  cbv zeta. intros Hck Hps Hdiv Hf Hl Hlen Hend Hoff Hoff' Hcut Hroom. pose proof Hf as (_ & Ho & _ & Hb). pose proof Hck as [_ Hbpc].
  destruct (lb_locs lb) as [|loc locs] eqn:El; [done|].
  pose (op := fun l => OpWrite (clientname (nn_state h)) (lb_b lb) (blocktoken new) (delete l (loc :: locs))
    (u32 (Z.of_nat (length (loc :: locs)))) (negb (generationstamp (lb_b new) =? generationstamp (lb_b lb)))
    (generationstamp (lb_b new)) (numbytes_of (lb_b new)) (max (numbytes_of (lb_b new)) (u64 (off + len))) ck).
  destruct (write_locations_ret loc locs 0 op len off (packetsize (nn_state h)) ck from 0 h w) as (pkts & w' & E & Hd & Hc & Hr & Hu & Hlog);
    [done|done|done|done|apply Hshort|done|done|done|done|done|done|].
  eexists _, w'. split; [|split; [|split; [exact Hr|split; [exact Hu|exact Hlog]]]].
  - unfold hadoop_fuse_write_block. rewrite El.
    unfold hadoop_fuse_client_name, pbind, state, pret. cbn [fst snd]. unfold op in E. rewrite E. done.
  - exists loc, locs, pkts. split; [done|]. split; [done|]. split; [done|]. f_equal. f_equal. f_equal. f_equal.
    unfold op, transfer_op. cbn [tr_block tr_new tr_offset tr_data]. rewrite El, (from_data_length from len Hf) by lia.
    by rewrite Z2Nat.id by lia.
Qed.

(** Chunks of the size of a block; the last one may be shorter. *)
Fixpoint filled (bs : Z) (chunks : list (list ascii)) : Prop :=
  match chunks with
  | [] => True
  | [x] => 0 < Z.of_nat (length x) <= bs
  | x :: chunks => Z.of_nat (length x) = bs /\ filled bs chunks
  end.

(** The name node offers the blocks of [lbs]. *)
Definition offered (stream : list ascii) (lbs : list located_block) : Prop :=
  exists msgs rest, stream = concat (map (nn_reply header) msgs) ++ rest /\
    Forall2 (fun m lb => Z.of_nat (length m) < 2 ^ 30 /\ unpack_add_block m = Some lb /\ lb_locs lb <> []) msgs lbs.

Definition offers (w : W) (fd : Z) (lbs : list located_block) : Prop := offered (inp w fd) lbs.
(** Before that it gives a new version of the last block, and takes note of it. *)
Definition renews (w : W) (fd : Z) (new : located_block) (lbs : list located_block) : Prop :=
  exists m m' stream, inp w fd = nn_reply header m ++ nn_reply header m' ++ stream /\ offered stream lbs /\
    Z.of_nat (length m) < 2 ^ 30 /\ unpack_update_block m = Some new /\ Z.of_nat (length m') < 2 ^ 30.

(** The settings of the connection that a transfer uses. *)
Definition settings_ok (h : hdfs) : Prop :=
  checksum_ok (ChecksumProto (checksumtype (nn_state h)) (bytesperchecksum (nn_state h))) /\
  0 < packetsize (nn_state h) <= 2 ^ 28 /\ (bytesperchecksum (nn_state h) | packetsize (nn_state h)).

Lemma advance_advance from k j : advance (advance from k) j = advance from (k + j).
Proof. unfold advance. cbn. f_equal. lia. Qed.

Lemma advance_0 from : advance from 0 = from.
Proof. unfold advance. rewrite Z.add_0_r. by destruct from. Qed.

Lemma add_blocks_done fuel src from fh last res s : bp_len from <= bufferoffset from ->
  add_blocks crc32b crc32q sse42 packet_addr fuel src from fh last res s = Ret ((res, from, last), s).
Proof. intros Hd. destruct fuel; cbn [add_blocks]; by rewrite (proj2 (Z.ltb_ge _ _) Hd). Qed.

(** One round: the name node gives a block, and the next chunk of data is in it. *)
Lemma add_blocks_round fuel src a fh last res from h w m lb rest :
  let R := bp_len from - bufferoffset from in let k := Z.min (fh_blocksize fh) R in
  let ck := ChecksumProto (checksumtype (nn_state h)) (bytesperchecksum (nn_state h)) in
  settings_ok h -> handles h !! a = Some fh -> 0 < fh_blocksize fh < 2 ^ 31 -> fh_blocksize fh < Z.of_nat n ->
  from_ok from -> 0 < R -> 0 <= res -> room w = true -> is_open w (nn_fd h) = true ->
  Z.of_nat (length m) < 2 ^ 30 -> unpack_add_block m = Some lb -> lb_locs lb <> [] ->
  inp w (nn_fd h) = nn_reply header m ++ rest ->
  exists e nb w',
    add_blocks crc32b crc32q sse42 packet_addr (S fuel) src from (FhHandle a) last res (h, w) =
    add_blocks crc32b crc32q sse42 packet_addr fuel src (advance from k) (FhHandle a) nb k (called h, w') /\
    block_session (clientname (nn_state h)) ck (packetsize (nn_state h)) (new_transfer lb (from_data from k)) e /\
    room w' = true /\ is_open w' (nn_fd h) = true /\ inp w' (nn_fd h) = rest /\ log w' = log w ++ [e].
Proof using All.
  cbv zeta. intros (Hck & Hps & Hdiv) Hh Hbs Hn Hf HR Hres Hroom Ho Hm Hu Hlocs Hin. pose proof Hf as (_ & Hoff & Hbl & Hb).
  cbn [add_blocks]. rewrite (proj2 (Z.ltb_lt _ _)), Z.geb_leb, (proj2 (Z.leb_le _ _) Hres) by lia. cbn [andb].
  set (R := bp_len from - bufferoffset from) in *. set (bs := fh_blocksize fh) in *. set (k := Z.min bs R).
  set (ck := ChecksumProto (checksumtype (nn_state h)) (bytesperchecksum (nn_state h))) in *.
  assert (checksum_of (h, w) = Ret (ck, (h, w))) as Eck by done. rewrite (pbind_ret _ _ _ _ _ Eck).
  assert (hadoop_fuse_bytestowrite from 0 (FhHandle a) (h, w) = Ret (k, (h, w))) as Elen.
  { unfold hadoop_fuse_bytestowrite, blocksize_of, pbind, state, plift. cbn [fst snd]. rewrite Hh. cbn [deref pret].
    unfold pret. fold bs R. by rewrite Z.sub_0_r, !wrap_small, min_Zmin by lia. }
  rewrite (pbind_ret _ _ _ _ _ Elen).
  assert (hadoop_fuse_client_name (h, w) = Ret (clientname (nn_state h), (h, w))) as Ecl by done. rewrite (pbind_ret _ _ _ _ _ Ecl).
  assert (fh_fileid (FhHandle a) (h, w) = Ret (fileid fh, (h, w))) as Eid
    by (unfold fh_fileid, pbind, state, plift; cbn [fst snd]; by rewrite Hh).
  rewrite (pbind_ret _ _ _ _ _ Eid).
  destruct (CALL_NN_ret (AddBlock src (clientname (nn_state h)) last (fileid fh)) unpack_add_block m lb _ h w Hm Hu Hin) as (w1 & E1 & Hi1 & K1).
  rewrite (pbind_ret _ _ _ _ _ E1). cbn [Z.ltb Z.compare]. unfold pbind at 1, plift, deref.
  destruct K1 as (KL & KR & KA & _). destruct (KA (nn_fd h)) as [KO _].
  destruct (write_block_ret from k 0 ck lb lb (called h) w1) as (e & w2 & E2 & Hses & Hr2 & Hu2 & Hl2);
    [done|done|done|done|done|lia|lia|lia|lia|left; apply Z.mod_0_l; destruct Hck as [_ Hbpc]; lia|congruence|].
  rewrite (pbind_ret _ _ _ _ _ E2). rewrite swrap_small by lia. destruct (Z.ltb_spec k 0); [lia|].
  destruct (Hu2 (nn_fd h)) as (O2 & _ & _ & I2); [congruence|].
  eexists e, _, w2. split; [done|]. split; [done|]. split; [done|]. split; [congruence|]. split; congruence.
Qed.

Lemma filled_cons bs k from chunks :
  from_ok from -> 0 < k -> bufferoffset from + k <= bp_len from -> k = Z.min bs (bp_len from - bufferoffset from) ->
  concat chunks = from_data (advance from k) (bp_len from - bufferoffset from - k) -> filled bs chunks ->
  filled bs (from_data from k :: chunks).
Proof.
  intros Hf Hk Hb Ek Hd Hfi. assert (Z.of_nat (length (from_data from k)) = k) as Hl by (rewrite (from_data_length from k Hf); lia).
  destruct chunks as [|x chunks]; [cbn [filled]; lia|]. change (Z.of_nat (length (from_data from k)) = bs /\ filled bs (x :: chunks)).
  split; [|done]. rewrite Hl, Ek. apply Z.min_l, Z.nlt_ge. intros Hlt.
  replace (bp_len from - bufferoffset from - k) with 0 in Hd by lia. change (from_data (advance from k) 0) with (@nil ascii) in Hd.
  cbn [concat] in Hd. apply app_nil in Hd as [-> _]. destruct chunks; cbn [filled length] in Hfi; lia.
Qed.

Lemma add_blocks_ret lbs fuel src a fh last res from h w :
  let bs := fh_blocksize fh in let R := bp_len from - bufferoffset from in
  let ck := ChecksumProto (checksumtype (nn_state h)) (bytesperchecksum (nn_state h)) in
  settings_ok h -> handles h !! a = Some fh -> 0 < bs < 2 ^ 31 -> bs < Z.of_nat n ->
  from_ok from -> 0 <= res -> room w = true -> is_open w (nn_fd h) = true -> offers w (nn_fd h) lbs ->
  R <= bs * Z.of_nat (length lbs) -> (Z.to_nat R <= fuel)%nat ->
  exists chunks es res' last' h' w',
    add_blocks crc32b crc32q sse42 packet_addr fuel src from (FhHandle a) last res (h, w) =
      Ret ((res', advance from R, last'), (h', w')) /\ 0 <= res' /\
    concat chunks = from_data from R /\ filled bs chunks /\ (length chunks <= length lbs)%nat /\
    log w' = log w ++ es /\ Forall2 (block_session (clientname (nn_state h)) ck (packetsize (nn_state h))) (zip_with new_transfer lbs chunks) es.
Proof using All.
  cbv zeta. revert fuel last res from h w. induction lbs as [|lb lbs IH]; intros fuel last res from h w Hset Hh Hbs Hn Hf Hres Hroom Ho Hof Hr Hfuel;
    pose proof Hf as (_ & Hoff & Hbl & Hb).
  { assert (bp_len from = bufferoffset from) as E0 by (cbn [length] in Hr; lia).
    exists [], [], res, last, h, w. rewrite add_blocks_done by lia. rewrite E0, Z.sub_diag, advance_0. split_and!; try done. by rewrite app_nil_r. }
  destruct (Z.eq_dec (bp_len from - bufferoffset from) 0) as [E0|Hpos].
  { exists [], [], res, last, h, w. rewrite add_blocks_done by lia. rewrite E0, advance_0. split_and!; try done; [cbn; lia|by rewrite app_nil_r]. }
  destruct fuel as [|fuel]; [lia|]. destruct Hof as (msgs & rest & Hin & Hms).
  apply Forall2_cons_inv_r in Hms as (m & msgs' & (Hm & Hu & Hlocs) & Hms & ->). cbn [map concat] in Hin. rewrite <- app_assoc in Hin.
  destruct (add_blocks_round fuel src a fh last res from h w m lb _ Hset Hh Hbs Hn Hf ltac:(lia) Hres Hroom Ho Hm Hu Hlocs Hin)
    as (e & nb & w2 & E1 & Hses & Hr2 & Ho2 & Hi2 & Hl2). rewrite E1.
  set (R := bp_len from - bufferoffset from) in *. set (k := Z.min (fh_blocksize fh) R) in *.
  destruct (IH fuel nb k (advance from k) (called h) w2) as (chunks & es & res' & last' & h' & w' & E & Hr' & Hd & Hfi & Hlc & Hlog & Hfor);
    cbn [advance bufferoffset bp_len]; try done; try lia.
  { by apply advance_ok; [|lia|lia]. }
  { by exists msgs', rest. }
  { cbn [length] in Hr. unfold k. destruct (Z.le_gt_cases (fh_blocksize fh) R); [rewrite Z.min_l by lia|rewrite Z.min_r by lia]; nia. }
  cbn [advance bufferoffset bp_len] in E, Hd. replace (bp_len from - (bufferoffset from + k)) with (R - k) in * by lia.
  exists (from_data from k :: chunks), (e :: es), res', last', h', w'. rewrite E, advance_advance, Zplus_minus.
  split; [done|]. split; [done|]. split.
  { cbn [concat]. rewrite Hd, <- (from_data_split from k (R - k)) by (done || lia). f_equal. lia. }
  split; [apply filled_cons; done || lia|]. split; [cbn; lia|]. split; [rewrite Hlog, Hl2, <- app_assoc; done|]. by constructor.
Qed.

(** The block that the offset is in, when it is the last one. *)
Definition last_block_at (bs offset : Z) (lastlocation : option located_block) : option located_block :=
  match lastlocation with
  | Some l => if (lb_offset l <=? offset) && (offset <? lb_offset l + bs) then Some l else None
  | None => None
  end.

(** Writing into the last block. *)
Lemma write_last_ret offset a fh l last from h w new lbs :
  let bs := fh_blocksize fh in let bo := offset - lb_offset l in let k := Z.min (bs - bo) (bp_len from - bufferoffset from) in
  let ck := ChecksumProto (checksumtype (nn_state h)) (bytesperchecksum (nn_state h)) in
  settings_ok h -> handles h !! a = Some fh -> 0 < bs < 2 ^ 31 -> bs < Z.of_nat n -> from_ok from ->
  0 <= lb_offset l <= offset -> offset < lb_offset l + bs < 2 ^ 63 -> lb_locs l <> [] -> cuttable (bytesperchecksum (nn_state h)) bo k ->
  room w = true -> is_open w (nn_fd h) = true -> renews w (nn_fd h) new lbs ->
  exists e nb w', write_last_block crc32b crc32q sse42 packet_addr from offset (FhHandle a) l last (h, w) =
      Ret ((0, advance from k, nb), (called (called h), w')) /\
    block_session (clientname (nn_state h)) ck (packetsize (nn_state h)) (Transfer l new bo (from_data from k)) e /\
    room w' = true /\ is_open w' (nn_fd h) = true /\ offers w' (nn_fd h) lbs /\ log w' = log w ++ [e].
Proof using All.
  cbv zeta. intros (Hck & Hps & Hdiv) Hh Hbs Hn Hf Hlo Hoff Hlocs Hcut Hroom Ho (m & m' & stream & Hin & Hof & Hm & Hu & Hm').
  pose proof Hf as (_ & Hbo & Hbl & Hb & _). unfold write_last_block. set (bs := fh_blocksize fh) in *. set (bo := offset - lb_offset l) in *.
  set (R := bp_len from - bufferoffset from) in *. set (k := Z.min (bs - bo) R) in *.
  set (ck := ChecksumProto (checksumtype (nn_state h)) (bytesperchecksum (nn_state h))) in *.
  assert (checksum_of (h, w) = Ret (ck, (h, w))) as Eck by done. rewrite (pbind_ret _ _ _ _ _ Eck).
  fold bo. rewrite (wrap_small 64 bo) by lia.
  assert (hadoop_fuse_bytestowrite from bo (FhHandle a) (h, w) = Ret (k, (h, w))) as Elen.
  { unfold hadoop_fuse_bytestowrite, blocksize_of, pbind, state, plift. cbn [fst snd]. rewrite Hh. cbn [deref pret].
    unfold pret. fold bs R. by rewrite !wrap_small, min_Zmin by lia. }
  rewrite (pbind_ret _ _ _ _ _ Elen).
  assert (hadoop_fuse_client_name (h, w) = Ret (clientname (nn_state h), (h, w))) as Ecl by done. rewrite (pbind_ret _ _ _ _ _ Ecl).
  destruct (CALL_NN_ret (UpdateBlockForPipeline (clientname (nn_state h)) (lb_b l)) unpack_update_block m new _ h w Hm Hu Hin) as (w1 & E1 & Hi1 & K1).
  rewrite (pbind_ret _ _ _ _ _ E1). cbn [Z.ltb Z.compare]. unfold pbind at 1, plift, deref. rewrite (swrap_small 64 bo) by lia.
  destruct K1 as (KL & KR & KA & _). destruct (KA (nn_fd h)) as [KO _].
  destruct (write_block_ret from k bo ck l new (called h) w1) as (e & w2 & E2 & Hses & Hr2 & Hu2 & Hl2);
    [done|done|done|done|done|lia|lia|lia|lia|done|congruence|].
  rewrite (pbind_ret _ _ _ _ _ E2). rewrite swrap_small by lia. destruct (Z.ltb_spec k 0); [lia|].
  destruct (Hu2 (nn_fd h)) as (O2 & _ & _ & I2); [congruence|].
  match goal with |- context [CALL_NN ?q unpack_void] =>
    destruct (CALL_NN_ret q unpack_void m' tt stream (called h) w2 Hm' eq_refl) as (w3 & E3 & Hi3 & K3) end.
  { change (nn_fd (called h)) with (nn_fd h). by rewrite I2, Hi1. }
  rewrite (pbind_ret _ _ _ _ _ E3). cbn [Z.ltb Z.compare]. change (nn_fd (called h)) with (nn_fd h) in *.
  destruct K3 as (KL3 & KR3 & KA3 & _). destruct (KA3 (nn_fd h)) as [KO3 _].
  eexists e, _, w3. split; [done|]. split; [done|]. split; [congruence|]. split; [congruence|]. split; [|congruence].
  unfold offers. by rewrite Hi3.
Qed.

(** C13: Data of any length reaches the data nodes.  When the name node offers enough
    blocks and the data nodes acknowledge, writing with a file handle returns no error
    and consumes the buffers.  If the offset is in the last block of the file, the first
    part of the data fills that block up, from the offset on and as a new version that
    the name node gives and takes note of; that part has to start at a checksum boundary
    or reach the next one.  Otherwise, and for what is left, blocks are added, and every
    block but the last gets as much as a block holds.  The data of each block was sent to
    its first data node, after the request for it, in packets whose concatenation is the
    data, and all parts together are the data of the buffers. *)
Theorem do_write_fills_blocks lbs new src offset a fh lastlocation last from h w :
  let bs := fh_blocksize fh in let R := bp_len from - bufferoffset from in
  let ck := ChecksumProto (checksumtype (nn_state h)) (bytesperchecksum (nn_state h)) in
  let k := match last_block_at bs offset lastlocation with Some l => Z.min (bs - (offset - lb_offset l)) R | None => 0 end in
  settings_ok h -> handles h !! a = Some fh -> 0 < bs < 2 ^ 31 -> bs < Z.of_nat n ->
  from_ok from -> room w = true -> is_open w (nn_fd h) = true ->
  (forall l, lastlocation = Some l -> 0 <= lb_offset l /\ lb_offset l + bs < 2 ^ 63) ->
  match last_block_at bs offset lastlocation with
  | Some l => lb_locs l <> [] /\ cuttable (bytesperchecksum (nn_state h)) (offset - lb_offset l) k /\ renews w (nn_fd h) new lbs
  | None => offers w (nn_fd h) lbs
  end -> R - k <= bs * Z.of_nat (length lbs) ->
  exists chunks es res last' h' w',
    hadoop_fuse_do_write crc32b crc32q sse42 packet_addr src from offset (FhHandle a) lastlocation last (h, w) =
      Ret ((res, advance from R, last'), (h', w')) /\ 0 <= res /\
    from_data from k ++ concat chunks = from_data from R /\ filled bs chunks /\ (length chunks <= length lbs)%nat /\
    log w' = log w ++ es /\
    Forall2 (block_session (clientname (nn_state h)) ck (packetsize (nn_state h)))
      (match last_block_at bs offset lastlocation with
       | Some l => [Transfer l new (offset - lb_offset l) (from_data from k)]
       | None => []
       end ++ zip_with new_transfer lbs chunks) es.
Proof using All.
  cbv zeta. intros Hset Hh Hbs Hn Hf Hroom Ho Hll Hnn Hr. pose proof Hf as (_ & Hoff & _).
  unfold hadoop_fuse_do_write. set (bs := fh_blocksize fh) in *. set (R := bp_len from - bufferoffset from) in *.
  destruct (last_block_at bs offset lastlocation) as [l|] eqn:El.
  - unfold last_block_at in El. destruct lastlocation as [l'|]; [|done].
    destruct ((lb_offset l' <=? offset) && (offset <? lb_offset l' + bs)) eqn:Ein; [|done]. injection El as ->. bools.
    destruct (Hll l eq_refl) as [Hl0 Hl1]. destruct Hnn as (Hlocs & Hcut & Hren).
    set (k := Z.min (bs - (offset - lb_offset l)) R) in *.
    assert (blocksize_of (FhHandle a) (h, w) = Ret (bs, (h, w))) as Ebs
      by (unfold blocksize_of, pbind, state, plift; cbn [fst snd]; by rewrite Hh).
    destruct (write_last_ret offset a fh l last from h w new lbs) as (e & nb & w1 & E1 & Hses & Hr1 & Ho1 & Hof1 & Hl1'); try done; try (fold bs; lia).
    fold bs R k in E1, Hses. unfold pbind at 1. rewrite (pbind_ret _ _ _ _ _ Ebs).
    rewrite (wrap_small 64) by lia. rewrite (proj2 (Z.ltb_lt _ _)), Z.geb_leb, (proj2 (Z.leb_le _ _)) by lia. cbn [andb]. rewrite E1.
    cbn [Z.ltb Z.compare].
    destruct (add_blocks_ret lbs (S (Z.to_nat (bp_len from))) src a fh nb 0 (advance from k) (called (called h)) w1)
      as (chunks & es & res & last' & h' & w' & E & Hr' & Hd & Hfi & Hlc & Hlog & Hfor); cbn [advance bufferoffset bp_len]; try done; try lia.
    { by apply advance_ok; [|lia|lia]. }
    cbn [advance bufferoffset bp_len] in E, Hd. replace (bp_len from - (bufferoffset from + k)) with (R - k) in * by lia.
    exists chunks, (e :: es), res, last', h', w'. change (bp_len (advance from k)) with (bp_len from). rewrite E, advance_advance, Zplus_minus.
    split; [done|]. split; [done|]. split; [rewrite Hd, <- (from_data_split from k (R - k)) by (done || lia); f_equal; lia|].
    split; [done|]. split; [done|]. split; [by rewrite Hlog, Hl1', <- app_assoc|]. by constructor.
  - assert ((match lastlocation with
      | None => pret (0, from, last)
      | Some l => let* bs := blocksize_of (FhHandle a) in
          if (offset <? u64 (lb_offset l + bs)) && (offset >=? lb_offset l)
          then write_last_block crc32b crc32q sse42 packet_addr from offset (FhHandle a) l last else pret (0, from, last)
      end) (h, w) = Ret ((0, from, last), (h, w))) as E0.
    { destruct lastlocation as [l|]; [|done]. destruct (Hll l eq_refl) as [Hl0 Hl1]. unfold last_block_at in El.
      rewrite (pbind_ret _ _ _ bs (h, w)) by (unfold blocksize_of, pbind, state, plift; cbn [fst snd]; by rewrite Hh).
      rewrite (wrap_small 64), Z.geb_leb by lia. rewrite andb_comm. by destruct (_ && _). }
    rewrite (pbind_ret _ _ _ _ _ E0). cbn [Z.ltb Z.compare].
    destruct (add_blocks_ret lbs (S (Z.to_nat (bp_len from))) src a fh last 0 from h w)
      as (chunks & es & res & last' & h' & w' & E & Hr' & Hd & Hfi & Hlc & Hlog & Hfor); try done; [lia|lia|].
    by exists chunks, es, res, last', h', w'.
Qed.
End Writing.

(** ** Reading a block *)

(** What a data node gets that is asked for a part of a block. *)
Definition read_session (op : op_read) : list ascii :=
  op_header 81 ++ delimited (pack_op_read op) ++ delimited (pack_client_read_status SUCCESS).

Lemma read_locations_ret resp l rest' location rest op buf res h w :
  (4 <= length resp)%nat -> Z.of_nat (length resp) < 2 ^ 32 -> block_op_status resp = Some SUCCESS ->
  chunkoffset resp = Some (or_offset op) \/ chunkoffset resp = None ->
  block_ok l -> (length l <= packets)%nat -> 0 <= or_len op <= Z.of_nat (length buf) ->
  or_len op <= Z.of_nat (length (block_data l)) ->
  answers w (ipaddr location, u16 (xferport location)) = delimited resp ++ concat (map in_bytes l) ++ rest' ->
  room w = true ->
  exists w', read_locations packets (location :: rest) op buf res (h, w) =
      Ret ((true, 0, splice buf 0 (take (Z.to_nat (or_len op)) (block_data l))), (h, w')) /\
    log w' = log w ++ [((ipaddr location, u16 (xferport location)), read_session op)].
Proof using All.
  intros H4 H32 Hst Hco Hb Hpk Hlen Hd Ha Hroom. cbn [read_locations].
  destruct (connect_ret (ipaddr location) (xferport location) w Hroom) as (fd & w1 & E1 & Hc & Ho & Hp & Hout & Hin & Hl & Hu).
  rewrite (pbind_ret _ _ _ _ _ (with_dn_ret _ _ h _ _ _ _ E1)). cbn [Z.ltb Z.compare]. set (c := ConnectionState fd 0 true) in *.
  destruct (call_datanode_ret 81 (pack_op_read op) resp (concat (map in_bytes l) ++ rest') c w1) as (w2 & E2 & Hs2 & Hi2);
    [apply Hshort|done|done|done|unfold incoming; cbn; congruence|].
  rewrite (pbind_ret _ _ _ _ _ (with_dn_ret _ _ h _ _ _ _ E2)). cbn [Z.ltb Z.compare]. unfold pbind at 1, plift, deref.
  pose proof (local_call_datanode 81 (pack_op_read op) c w1 _ _ _ E2) as [_ K2].
  assert (match chunkoffset resp with Some o => u64 (or_offset op - o) | None => 0 end = 0) as ->
    by (destruct Hco as [-> | ->]; [by rewrite Z.sub_diag|done]).
  destruct (receive_packets_ret l packets 0 (or_len op) buf rest' c w2) as (w3 & E3 & Hs3); try done; [apply Hshort|].
  change (drop (Z.to_nat 0) (block_data l)) with (block_data l) in E3.
  pose proof (local_receive_packets _ _ _ _ c w2 _ _ _ E3) as [_ K3]. rewrite (pbind_ret _ _ _ _ _ (with_dn_ret _ _ h _ _ _ _ E3)).
  destruct (session_end fd 0 (ipaddr location) (u16 (xferport location)) h w w1 w3) as (r4 & w4 & E4 & _ & _ & Hl4);
    [done|done|done|done|done|by eapply keeps_trans|].
  rewrite (pbind_ret _ _ _ _ _ E4). exists w4. split; [done|].
  rewrite Hl4. change (out w3 fd) with (sent c w3). rewrite Hs3, Hs2. change (sent c w1) with (out w1 fd). rewrite Hout.
  unfold read_session. by rewrite <- !app_assoc.
Qed.

(** A read returns the start of the block.  When the bytes to read are in one
    block, the data node is asked for the first bytes of the block, at any offset
    into the file, and these are what the caller gets: the bytes that were asked for
    when the read starts with the block, and others when it does not. *)
Theorem read_returns_block_start src buf size offset fl m lb location locs resp l rest' rest h w :
  let len := Z.min (numbytes_of (lb_b lb)) size in
  0 <= size < 2 ^ 31 -> size <= Z.of_nat (length buf) -> 0 <= numbytes_of (lb_b lb) < 2 ^ 64 ->
  Z.of_nat (length m) < 2 ^ 30 -> unpack_locations m = Some (Some (LocatedBlocks fl [lb] false)) ->
  corrupt lb = false -> lb_locs lb = location :: locs ->
  (4 <= length resp)%nat -> Z.of_nat (length resp) < 2 ^ 32 -> block_op_status resp = Some SUCCESS -> chunkoffset resp = None ->
  block_ok l -> (length l <= packets)%nat -> len <= Z.of_nat (length (block_data l)) ->
  (forall w, answers w (ipaddr location, u16 (xferport location)) = delimited resp ++ concat (map in_bytes l) ++ rest') ->
  room w = true -> inp w (nn_fd h) = nn_reply header m ++ rest ->
  exists w', hadoop_fuse_read packets src buf size offset (h, w) =
      Ret ((size, splice buf 0 (take (Z.to_nat len) (block_data l))), (called h, w')) /\
    log w' = log w ++ [((ipaddr location, u16 (xferport location)),
                         read_session (OpRead (clientname (nn_state h)) (lb_b lb) 0 len))].
Proof using All.
  cbv zeta. intros Hsz Hbuf Hnb Hm Hu Hcor Hlocs H4 H32 Hst Hco Hb Hpk Hd Ha Hroom Hin. unfold hadoop_fuse_read.
  destruct (CALL_NN_ret (GetBlockLocations src (u64 offset) size) unpack_locations m _ _ h w Hm Hu Hin) as (w1 & E1 & _ & KL & KR & _).
  rewrite (pbind_ret _ _ _ _ _ E1). cbn [Z.ltb Z.compare]. unfold pbind at 1, plift, deref.
  cbn [underconstruction lb_blocks read_blocks]. rewrite Hcor. set (len := Z.min (numbytes_of (lb_b lb)) size) in *.
  assert (min (u64 (offset - lb_offset lb)) 0 = 0) as ->
    by (unfold min; destruct (Z.ltb_spec (u64 (offset - lb_offset lb)) 0) as [Hlt|]; [pose proof (wrap_range 64 (offset - lb_offset lb)); lia|done]).
  rewrite Z.sub_0_r, wrap_small, min_Zmin by lia. fold len. rewrite Hlocs.
  destruct (read_locations_ret resp l rest' location locs (OpRead (clientname (nn_state h)) (lb_b lb) 0 len) buf 0 (called h) w1)
    as (w2 & E2 & Hl2); cbn [or_len or_offset]; try done; [by right|lia|congruence|].
  exists w2. split; [|by rewrite Hl2, KL].
  unfold pbind at 1, hadoop_fuse_client_name, pbind at 1, state, pret at 1. cbn [fst snd].
  rewrite (pbind_ret _ _ _ _ _ E2). by rewrite swrap_small by lia.
Qed.
End Files.

(** ** A name node and a data node in memory *)

Module HdfsExample.
Import HadoopExample.

(** There are two sockets, 3 and 4; a peer that is connected to sends [script]. *)
Record toy (script : list ascii) := Toy {
  t_out : Z -> list ascii; t_inp : Z -> list ascii; t_peer : Z -> list ascii * Z; t_open3 : bool; t_open4 : bool;
  t_log : list ((list ascii * Z) * list ascii) }.
Arguments Toy {script} _ _ _ _ _ _.
Arguments t_out {script} _ _.
Arguments t_inp {script} _ _.
Arguments t_peer {script} _ _.
Arguments t_open3 {script} _.
Arguments t_open4 {script} _.
Arguments t_log {script} _.
Definition upd {A} (f : Z -> A) (fd : Z) (v : A) : Z -> A := fun x => if x =? fd then v else f x.

#[export] Instance toy_net script : Net (toy script) := {|
  sendto fd bs w := (Z.of_nat (length bs),
    Toy (upd (t_out w) fd (t_out w fd ++ bs)) (t_inp w) (t_peer w) (t_open3 w) (t_open4 w) (t_log w));
  recvfrom fd n w := let x := take (Z.to_nat n) (t_inp w fd) in
    ((Z.of_nat (length x), x),
     Toy (t_out w) (upd (t_inp w) fd (drop (Z.to_nat n) (t_inp w fd))) (t_peer w) (t_open3 w) (t_open4 w) (t_log w));
  socket w := (if t_open4 w then 3 else 4, w);
  connect fd host port w := (0,
    Toy (upd (t_out w) fd []) (upd (t_inp w) fd script) (upd (t_peer w) fd (host, port))
      ((fd =? 3) || t_open3 w) ((fd =? 4) || t_open4 w) (t_log w));
  set_linger _ _ w := (0, w);
  close_socket fd w := (0,
    Toy (t_out w) (t_inp w) (t_peer w) (negb (fd =? 3) && t_open3 w) (negb (fd =? 4) && t_open4 w)
      (t_log w ++ [(t_peer w fd, t_out w fd)]));
  pthread_create w := (0, w); pthread_cancel w := w; sleep _ w := w; user_name _ := lit "hdfs" |}.

Lemma upd_same {A} f fd (v : A) : upd f fd v fd = v.
Proof. unfold upd. by rewrite Z.eqb_refl. Qed.
Lemma upd_other {A} f fd (v : A) x : x <> fd -> upd f fd v x = f x.
Proof. unfold upd. intros Hn. by rewrite (proj2 (Z.eqb_neq _ _) Hn). Qed.

#[export] Instance toy_stream script : Stream (toy script).
Proof.
  refine {| out := t_out; inp := t_inp |}.
  - intros fd bs w. eexists. split; [done|]. cbn. by rewrite upd_same.
  - intros fd x rest w Hi. eexists. cbn. rewrite Nat2Z.id, Hi, take_app_length. split; [done|]. cbn.
    by rewrite upd_same, drop_app_length.
Defined.

#[export] Instance toy_observe script : Observe (toy script) := {|
  peer := t_peer; is_open w fd := (fd =? 3) && t_open3 w || (fd =? 4) && t_open4 w;
  room w := negb (t_open3 w && t_open4 w); log := t_log |}.

#[export] Instance toy_sockets script : Sockets (toy script).
Proof.
  refine {| answers _ _ := script |}.
  - intros fd bs w. repeat split; try done. intros. cbn. by rewrite upd_other.
  - intros fd n w. repeat split; try done. intros. cbn. by rewrite upd_other.
  - intros host port [o i p o3 o4 lg] Hr. eexists _, _, _, _. do 3 (split; [done|]). cbn in *.
    destruct o3, o4; cbn in *; try done; (split; [lia|]); repeat (split; [by rewrite ?upd_same|]); intros fd' Ho.
    all: assert (fd' = 3 \/ fd' = 4) as [-> | ->] by (destruct (Z.eqb_spec fd' 3), (Z.eqb_spec fd' 4); cbn in Ho; auto; done); done.
  - intros fd [o i p o3 o4 lg] Ho. eexists _, _. split; [done|]. cbn in *.
    assert (fd = 3 \/ fd = 4) as [-> | ->] by (destruct (Z.eqb_spec fd 3), (Z.eqb_spec fd 4); cbn in Ho; auto; done);
      (split; [by destruct o3, o4|]); (split; [done|]); intros fd' Hn; repeat split; cbn;
      rewrite (proj2 (Z.eqb_neq _ _) Hn); done.
Defined.

(** Blocks are numbered by the message, and all on one data node; a file is one
    block of the length in the message, or none. *)
Definition node0 : datanode_info := DatanodeInfo (lit "10.0.0.1") 50010 (lit "dn").
Definition block_of (id : Z) : located_block := LocatedBlock (ExtendedBlock (lit "pool") id 1 (Some id)) 0 [node0] false [] [].
Definition locations_of (m : list ascii) : located_blocks :=
  LocatedBlocks (be_val m) (if be_val m =? 0 then [] else [block_of (be_val m)]) false.

#[export] Instance toy_hdfs : HdfsProtobuf := {|
  pack_nn _ := [];
  unpack_locations m := Some (Some (locations_of m));
  unpack_create _ := Some None; unpack_append _ := Some None; unpack_complete _ := Some true;
  unpack_add_block m := Some (block_of (be_val m)); unpack_update_block m := Some (block_of (be_val m));
  unpack_file_info _ := Some None; unpack_link_target _ := Some None; unpack_result _ := Some true;
  unpack_fs_stats _ := Some (0, 0);
  pack_op_write o := be_bytes 4 (blockid (ow_block o)); pack_op_read o := be_bytes 4 (or_len o);
  chunkoffset _ := None |}.

#[export] Instance toy_host script : Host (toy script) := {|
  getpwnam _ w := (None, w); getgrnam _ w := (None, w); getpwuid _ w := (None, w); getgrgid _ w := (None, w);
  calloc w := (1, w); malloc_buffer n w := (Some (replicate (Z.to_nat n) nul), w) |}.

Lemma toy_short : short_messages.
Proof. split; intros; try done. by destruct q. Qed.

(** A handle for a file with blocks of four bytes. *)
Definition h0 : hdfs :=
  Hdfs (NamenodeState (ConnectionState 3 0 true) (lit "client") 4 4 1 2 CHECKSUM_CRC32C)
    {[ 1 := FileHandle 77 4 (lit "/f" ++ [nul]) ]} 0.
(** The answers of the name node. *)
Definition world script (nn : list (list ascii)) : toy script :=
  Toy (fun _ => []) (fun fd => if fd =? 3 then concat (map (nn_reply []) nn) else []) (fun _ => (lit "namenode", 8020))
    true false [].

Definition write_script : list ascii := delimited (lit "okay") ++ ack_stream toy_ack 8 0.
Definition write_world : toy write_script := world write_script [be_bytes 4 9; []; be_bytes 4 1; be_bytes 4 2].
Definition ck1 : checksum_proto := ChecksumProto CHECKSUM_CRC32C 2.

Lemma accepts (w : toy write_script) p : exists rest, answers w p = delimited (lit "okay") ++ ack_stream toy_ack 8 0 ++ rest.
Proof. exists []. by rewrite app_nil_r. Qed.

Lemma okay : (4 <= length (lit "okay"))%nat /\ Z.of_nat (length (lit "okay")) < 2 ^ 32 /\ block_op_status (lit "okay") = Some SUCCESS.
Proof. repeat split. by cbn. Qed.

Lemma renews2 : renews [] write_world 3 (block_of 9) [block_of 1; block_of 2].
Proof.
  exists (be_bytes 4 9), [], (concat (map (nn_reply []) [be_bytes 4 1; be_bytes 4 2])). split; [by vm_compute|].
  split; [|split; [by cbn|split; [done|by cbn]]].
  exists [be_bytes 4 1; be_bytes 4 2], []. split; [by rewrite app_nil_r|]. repeat constructor; done.
Qed.

(** Seven bytes in blocks of four, the first two of them into a block with two bytes. *)
Lemma do_write_fills_blocks_witness :
  exists chunks es res last' h' w',
    hadoop_fuse_do_write soft_crc32b soft_crc32q false 0 (lit "/f") buffers0 2 (FhHandle 1) (Some (block_of 9)) None (h0, write_world) =
      Ret ((res, advance buffers0 7, last'), (h', w')) /\ 0 <= res /\
    from_data buffers0 2 ++ concat chunks = from_data buffers0 7 /\ filled 4 chunks /\ (length chunks <= 2)%nat /\
    log w' = log write_world ++ es /\
    Forall2 (block_session (lit "client") ck1 4)
      ([Transfer (block_of 9) (block_of 9) 2 (from_data buffers0 2)] ++ zip_with new_transfer [block_of 1; block_of 2] chunks) es.
Proof.
  apply (do_write_fills_blocks soft_crc32b soft_crc32q false 0 0 toy_short [] None eq_refl eq_refl soft_instruction toy_headers
    (lit "okay") toy_ack 8 okay toy_acks accepts
    [block_of 1; block_of 2] (block_of 9) (lit "/f") 2 1 (FileHandle 77 4 (lit "/f" ++ [nul])) (Some (block_of 9)) None buffers0 h0 write_world).
  - split; [split; [by left|cbn; lia]|]. split; [cbn; lia|by exists 2].
  - done.
  - cbn; lia.
  - cbn; lia.
  - split; [repeat constructor|]. repeat split; first [by vm_compute|cbn; lia].
  - done.
  - done.
  - intros l [= <-]. cbn. lia.
  - split; [done|]. split; [by left|exact renews2].
  - by vm_compute.
Defined.

(** A block of six bytes in two packets. *)
Definition packets0 : list in_packet := [in0 false "abcd"; in0 true "ef"].
Definition read_script : list ascii := delimited (lit "okay") ++ concat (map in_bytes packets0).
Definition read_world : toy read_script := world read_script [be_bytes 4 6].

(** Three bytes from offset 2. *)
Lemma read_returns_block_start_witness :
  take 3 (block_data packets0) = lit "abc" /\
  exists w', hadoop_fuse_read 2 (lit "/f") (replicate 4 nul) 3 2 (h0, read_world) =
      Ret ((3, splice (replicate 4 nul) 0 (take (Z.to_nat (Z.min 6 3)) (block_data packets0))), (called h0, w')) /\
    log w' = log read_world ++ [((lit "10.0.0.1", u16 50010),
                                  read_session (OpRead (lit "client") (lb_b (block_of 6)) 0 (Z.min 6 3)))].
Proof.
  split; [done|].
  apply (read_returns_block_start soft_crc32b soft_crc32q false 0 2 toy_short [] None eq_refl eq_refl
    (lit "/f") (replicate 4 nul) 3 2 6 (be_bytes 4 6) (block_of 6) node0 [] (lit "okay") packets0 [] []).
  - lia.
  - cbn; lia.
  - cbn; lia.
  - done.
  - done.
  - done.
  - done.
  - cbn; lia.
  - done.
  - done.
  - done.
  - repeat split; by exists 0, 0.
  - done.
  - by vm_compute.
  - intros w. by rewrite app_nil_r.
  - done.
  - by rewrite app_nil_r.
Defined.

Lemma hdfs_write_never_succeeds_witness :
  hdfs_write soft_crc32b soft_crc32q false 0 0 0 1 (lit "abc") 3 0 (h0, write_world) <> Ret ((0, Some 3), (h0, write_world)).
Proof.
  apply hdfs_write_never_succeeds.
  - intros bytes l E. injection E as <-. cbn. apply be_val_range.
  - lia.
  - lia.
  - lia.
Defined.

(** The state after truncating a file of six bytes to six bytes. *)
Definition truncated : hdfs * toy read_script :=
  match hdfs_truncate soft_crc32b soft_crc32q false 0 0 0 (lit "/f") 6 (h0, read_world) with
  | Ret (_, s) => s
  | _ => (h0, read_world)
  end.

Lemma hdfs_truncate_changes_nothing_witness :
  exists l, CALL_NN (GetBlockLocations (lit "/f") 0 INT64_MAX) unpack_locations (h0, read_world) = Ret ((0, Some (Some l)), truncated) /\
    filelength l = 6.
Proof.
  apply (hdfs_truncate_changes_nothing soft_crc32b soft_crc32q false 0 0 0 (lit "/f") 6 (h0, read_world) truncated).
  - lia.
  - vm_compute. reflexivity.
Defined.

(** Reading three bytes of an empty file. *)
Definition empty_world : toy [] := world [] [be_bytes 4 0].
Definition read_empty : hdfs * toy [] :=
  match hdfs_read 0 1 (lit "xyz") 3 0 (h0, empty_world) with Ret (_, s) => s | _ => (h0, empty_world) end.

Lemma hdfs_read_reports_size_witness :
  hdfs_read 0 1 (lit "xyz") 3 0 (h0, empty_world) = Ret ((0, lit "xyz", Some 3), read_empty) /\ 3 = i32 3.
Proof.
  split; [vm_compute; reflexivity|].
  apply (hdfs_read_reports_size 0 1 (lit "xyz") 3 0 (h0, empty_world) (lit "xyz") 3 read_empty).
  vm_compute. reflexivity.
Defined.
End HdfsExample.
