(* ===== verification/MuslSearch.v ===== *)
(** * Search trees of the C library (src/musl/src/search)

    [tsearch], [tdelete], [tfind] and [twalk] keep AVL trees of nodes with two children
    and a height.  The memory is a finite map from addresses to nodes and the variable
    that the caller's pointer refers to; the path from the root is an array of [MAXH]
    pointers to the places where the nodes hang.  The order of the keys is the caller's
    function. *)

From Stdlib Require Import ZArith Lia.
From stdpp Require Import base gmap gmultiset list.
From S2P Require Import Prelude.

Local Open Scope Z_scope.

(** Three halves of the bits of a pointer. *)
Definition MAXH : Z := 96.

(** [a0], [a1]: the array [a]; 0 is the null pointer. *)
Record node (K : Type) := Node { key : K; a0 : Z; a1 : Z; h : Z }.
Arguments Node {K}. Arguments key {K}. Arguments a0 {K}. Arguments a1 {K}. Arguments h {K}.

(** The nodes that are allocated, and [*rootp]. *)
Record tmem (K : Type) := Tmem { nodes : gmap Z (node K); root : Z }.
Arguments Tmem {K}. Arguments nodes {K}. Arguments root {K}.

(** A place that holds a pointer to a node: [rootp] or [&n->a[d]]. *)
Inductive slot := SRoot | SChild (n : Z) (d : bool).

Inductive visit := preorder | postorder | endorder | leaf.

(** The caller's order and the allocator. *)
Class Keys (K : Type) := {
  cmp : K -> K -> Z;
  malloc_node : gmap Z (node K) -> option Z }.

Section Code.
Context {K : Type} `{!Keys K}.
Abbreviation P A := (prog (tmem K) A).

Definition get (n : Z) : P (node K) := fun m => let! x := deref (nodes m !! n) in Ret (x, m).
Definition put (n : Z) (x : node K) : P unit := pmodify (fun m => Tmem (<[n := x]> (nodes m)) (root m)).
Definition child (x : node K) (d : bool) : Z := if d then a1 x else a0 x.
Definition set_child (d : bool) (v : Z) (x : node K) : node K := if d then Node (key x) (a0 x) v (h x) else Node (key x) v (a1 x) (h x).
Definition set_h (v : Z) (x : node K) : node K := Node (key x) (a0 x) (a1 x) v.
Definition set_key (v : K) (x : node K) : node K := Node v (a0 x) (a1 x) (h x).
Definition update (n : Z) (f : node K -> node K) : P unit := let* x := get n in put n (f x).

Definition read_slot (s : slot) : P Z :=
  match s with
  | SRoot => fun m => Ret (root m, m)
  | SChild n d => let* x := get n in pret (child x d)
  end.
Definition write_slot (s : slot) (v : Z) : P unit :=
  match s with
  | SRoot => pmodify (fun m => Tmem (nodes m) v)
  | SChild n d => update n (set_child d v)
  end.

Definition height (n : Z) : P Z := if n =? 0 then pret 0 else let* x := get n in pret (h x).

(** [dir]: the deeper side *)
Definition rot (p : slot) (x : Z) (dir : bool) : P Z :=
  let* nx := get x in
  let y := child nx dir in
  let* ny := get y in
  let z := child ny (negb dir) in
  let hx := h nx in
  let* hz := height z in
  let* hd := height (child ny dir) in
  let* z :=
    if hz >? hd then
      let* nz := get z in
      do* update x (set_child dir (child nz (negb dir)));
      do* update y (set_child (negb dir) (child nz dir));
      do* update z (set_child (negb dir) x);
      do* update z (set_child dir y);
      do* update x (set_h hz);
      do* update y (set_h hz);
      do* update z (set_h (hz + 1));
      pret z
    else
      do* update x (set_child dir z);
      do* update y (set_child (negb dir) x);
      do* update x (set_h (hz + 1));
      do* update y (set_h (hz + 2));
      pret y in
  do* write_slot p z;
  let* nz := get z in
  pret (h nz - hx).

Definition __tsearch_balance (p : slot) : P Z :=
  let* n := read_slot p in
  let* x := get n in
  let* h0 := height (a0 x) in
  let* h1 := height (a1 x) in
  if u32 (h0 - h1 + 1) <? 3 then
    let old := h x in
    let new := if h0 <? h1 then h1 + 1 else h0 + 1 in
    do* update n (set_h new);
    pret (new - old)
  else rot p n (h0 <? h1).

(** [a[i++] = s]; [size] is the size of the array. *)
Definition push (size : Z) (a : list slot) (s : slot) : P (list slot) :=
  if Z.of_nat (length a) <? size then pret (a ++ [s]) else plift Undef.

(** The loop that goes down: the node that is equal to [k], or 0. *)
Fixpoint descend (fuel : nat) (size : Z) (k : K) (a : list slot) (n : Z) : P (Z * list slot) :=
  if n =? 0 then pret (0, a)
  else match fuel with
       | O => plift Undef
       | S fuel =>
           let* x := get n in
           let c := cmp k (key x) in
           if c =? 0 then pret (n, a)
           else
             let* a := push size a (SChild n (0 <? c)) in
             descend fuel size k a (child x (0 <? c))
       end.

(** [while (i && __tsearch_balance (a[--i]))], on the entries below [i] from the last
    to the first. *)
Fixpoint rebalance (a : list slot) : P unit :=
  match a with
  | [] => pret tt
  | s :: a => let* d := __tsearch_balance s in if d =? 0 then pret tt else rebalance a
  end.

(** The result is the address of a node, or 0. *)
Definition tsearch (k : K) : P Z :=
  let* n := read_slot SRoot in
  let* a := push MAXH [] SRoot in
  let* (found, a) := descend (S (Z.to_nat MAXH)) MAXH k a n in
  if negb (found =? 0) then pret found
  else
    let* m := pget in
    match malloc_node (nodes m) with
    | None => pret 0
    | Some r =>
        do* put r (Node k 0 0 1);
        match rev a with
        | [] => plift Undef
        | s :: up => do* write_slot s r; do* rebalance up; pret r
        end
    end.

Fixpoint tfind_loop (fuel : nat) (k : K) (n : Z) : P Z :=
  if n =? 0 then pret 0
  else match fuel with
       | O => plift Undef
       | S fuel =>
           let* x := get n in
           let c := cmp k (key x) in
           if c =? 0 then pret n else tfind_loop fuel k (child x (0 <? c))
       end.
(** [fuel]: the height *)
Definition tfind (fuel : nat) (k : K) : P Z := let* n := read_slot SRoot in tfind_loop fuel k n.

(** To the last node on the left of the deleted one. *)
Fixpoint rightmost (fuel : nat) (a : list slot) (n : Z) : P (Z * list slot) :=
  let* x := get n in
  if a1 x =? 0 then pret (n, a)
  else match fuel with
       | O => plift Undef
       | S fuel => let* a := push (MAXH + 1) a (SChild n true) in rightmost fuel a (a1 x)
       end.

Definition free_node (n : Z) : P unit := let* _ := get n in pmodify (fun m => Tmem (delete n (nodes m)) (root m)).

Definition tdelete (k : K) : P Z :=
  let* n := read_slot SRoot in
  let* (n, a) := descend (S (S (Z.to_nat MAXH))) (MAXH + 1) k [SRoot; SRoot] n in
  if n =? 0 then pret 0
  else
    let* s := plift (deref (a !! (length a - 2)%nat)) in
    let* parent := read_slot s in
    let* x := get n in
    let* (n, a, child) :=
      if negb (a0 x =? 0) then
        let* a := push (MAXH + 1) a (SChild n false) in
        let* (last, a) := rightmost (S (Z.to_nat MAXH)) a (a0 x) in
        let* y := get last in
        do* update n (set_key (key y));
        pret (last, a, a0 y)
      else pret (n, a, a1 x) in
    do* free_node n;
    match rev a with
    | [] => plift Undef
    | s :: up => do* write_slot s child; do* rebalance (take (length up - 1) up); pret parent
    end.

(** What [action] is called with; [fuel] exceeds the height. *)
Fixpoint walk (fuel : nat) (r : Z) (d : Z) : P (list (Z * visit * Z)) :=
  if r =? 0 then pret []
  else match fuel with
       | O => plift Undef
       | S fuel =>
           let* x := get r in
           if h x =? 1 then pret [(r, leaf, d)]
           else
             let* l0 := walk fuel (a0 x) (d + 1) in
             let* l1 := walk fuel (a1 x) (d + 1) in
             pret ((r, preorder, d) :: l0 ++ (r, postorder, d) :: l1 ++ [(r, endorder, d)])
       end.
Definition twalk (fuel : nat) : P (list (Z * visit * Z)) := let* r := read_slot SRoot in walk fuel r 0.

(** The keys that are freed, in order. *)
Fixpoint tdestroy (fuel : nat) (r : Z) : P (list K) :=
  if r =? 0 then pret []
  else match fuel with
       | O => plift Undef
       | S fuel =>
           let* x := get r in
           let* l0 := tdestroy fuel (a0 x) in
           let* l1 := tdestroy fuel (a1 x) in
           do* free_node r;
           pret (l0 ++ l1 ++ [key x])
       end.
End Code.

(** ** Trees *)

Lemma elements_of_list (l : list Z) : elements (list_to_set_disj l : gmultiset Z) ≡ₚ l.
Proof.
  induction l as [|x l IH]; [by rewrite list_to_set_disj_nil, gmultiset_elements_empty|].
  by rewrite list_to_set_disj_cons, gmultiset_elements_disj_union, gmultiset_elements_singleton, IH.
Qed.
Lemma perm_multiset (l k : list Z) : list_to_set_disj (C := gmultiset Z) l = list_to_set_disj k -> l ≡ₚ k.
Proof. intros E. by rewrite <- (elements_of_list l), E, elements_of_list. Qed.
(** Lists with the same elements. *)
Ltac perm := apply perm_multiset; repeat (rewrite list_to_set_disj_app || rewrite list_to_set_disj_cons); multiset_solver.

(** A tree with the address, the key and the height that each node has. *)
Inductive tree (K : Type) := Leaf | Br (p : Z) (k : K) (hh : Z) (l r : tree K).
Arguments Leaf {K}. Arguments Br {K}.

Section Trees.
Context {K : Type}.
Implicit Types (t l r : tree K) (m : gmap Z (node K)).

Definition addr t : Z := match t with Leaf => 0 | Br p _ _ _ _ => p end.
Definition hgt t : Z := match t with Leaf => 0 | Br _ _ hh _ _ => hh end.
(** The addresses and the keys, from left to right. *)
Fixpoint items t : list (Z * K) := match t with Leaf => [] | Br p k _ l r => items l ++ (p, k) :: items r end.
Fixpoint addrs t : list Z := match t with Leaf => [] | Br p _ _ l r => p :: addrs l ++ addrs r end.

Fixpoint avl t : Prop :=
  match t with
  | Leaf => True
  | Br _ _ hh l r => avl l /\ avl r /\ hh = 1 + Z.max (hgt l) (hgt r) /\ -1 <= hgt l - hgt r <= 1
  end.

Lemma avl_hgt t : avl t -> 0 <= hgt t.
Proof. induction t as [|p k hh l IHl r IHr]; cbn; [lia|]. intros (Hl & Hr & -> & _). specialize (IHl Hl). lia. Qed.
Lemma avl_leaf t : avl t -> hgt t = 0 -> t = Leaf.
Proof. destruct t as [|p k hh l r]; [done|]. cbn. intros (Hl & Hr & -> & _) E. pose proof (avl_hgt l Hl). lia. Qed.

(** The node with child [sub] on the side [d]. *)
Definition mk (p : Z) (k : K) (hh : Z) (d : bool) (sub other : tree K) : tree K :=
  if d then Br p k hh other sub else Br p k hh sub other.

(** What [rot] makes of the node [p] with the subtrees [y], on the deeper side [d], and [a]. *)
Definition rot_tree (p : Z) (k : K) (d : bool) (y a : tree K) : tree K :=
  match y with
  | Leaf => Leaf
  | Br py ky _ yl yr =>
      let (z, dd) := if d then (yl, yr) else (yr, yl) in
      let hz := hgt z in
      if hz >? hgt dd then
        match z with
        | Leaf => Leaf
        | Br pz kz _ zl zr =>
            let (b, c) := if d then (zl, zr) else (zr, zl) in
            mk pz kz (hz + 1) d (mk py ky hz d dd c) (mk p k hz d b a)
        end
      else mk py ky (hz + 2) d dd (mk p k (hz + 1) d z a)
  end.
(** [__tsearch_balance] *)
Definition bal t : tree K :=
  match t with
  | Leaf => Leaf
  | Br p k _ l r =>
      let h0 := hgt l in let h1 := hgt r in
      if (-1 <=? h0 - h1) && (h0 - h1 <=? 1) then Br p k (if h0 <? h1 then h1 + 1 else h0 + 1) l r
      else if h0 <? h1 then rot_tree p k true r l else rot_tree p k false l r
  end.

(** Subtrees that differ by at most two are balanced. *)
Lemma bal_avl p k hh l r : avl l -> avl r -> -2 <= hgt l - hgt r <= 2 ->
  let t' := bal (Br p k hh l r) in
  avl t' /\ items t' = items l ++ (p, k) :: items r /\ addrs t' ≡ₚ p :: addrs l ++ addrs r /\ t' <> Leaf /\
  (if decide (-1 <= hgt l - hgt r <= 1) then hgt t' = 1 + Z.max (hgt l) (hgt r)
   else Z.max (hgt l) (hgt r) <= hgt t' <= 1 + Z.max (hgt l) (hgt r)).
Proof.
  intros Hl Hr Hd t'. pose proof (avl_hgt l Hl). pose proof (avl_hgt r Hr). unfold t', bal.
  destruct (Z.leb_spec (-1) (hgt l - hgt r)), (Z.leb_spec (hgt l - hgt r) 1); cbn [andb].
  - rewrite decide_True by lia. destruct (Z.ltb_spec (hgt l) (hgt r)); cbn [avl items addrs hgt]; split_and!; try done; lia.
  - rewrite decide_False by lia. rewrite (proj2 (Z.ltb_ge _ _)) by lia. destruct l as [|py ky hy dd z]; [cbn in *; lia|].
    cbn [rot_tree]. cbn [hgt avl] in *. destruct Hl as (Hdd & Hz & Hhy & Hbal). pose proof (avl_hgt dd Hdd). pose proof (avl_hgt z Hz).
    destruct (Z.gtb_spec (hgt z) (hgt dd)) as [Hgt|Hle].
    + destruct z as [|pz kz hz c b]; [cbn in *; lia|]. cbn [hgt avl mk items addrs] in *. destruct Hz as (Hc & Hb & Hhz & Hzb). pose proof (avl_hgt c Hc). pose proof (avl_hgt b Hb).
      split_and!; try done; try lia; [by simplify_list_eq|perm].
    + cbn [hgt avl mk items addrs] in *. split_and!; try done; try lia; [by simplify_list_eq|perm].
  - rewrite decide_False by lia. rewrite (proj2 (Z.ltb_lt _ _)) by lia. destruct r as [|py ky hy z dd]; [cbn in *; lia|].
    cbn [rot_tree]. cbn [hgt avl] in *. destruct Hr as (Hz & Hdd & Hhy & Hbal). pose proof (avl_hgt dd Hdd). pose proof (avl_hgt z Hz).
    destruct (Z.gtb_spec (hgt z) (hgt dd)) as [Hgt|Hle].
    + destruct z as [|pz kz hz b c]; [cbn in *; lia|]. cbn [hgt avl mk items addrs] in *. destruct Hz as (Hb & Hc & Hhz & Hzb). pose proof (avl_hgt c Hc). pose proof (avl_hgt b Hb).
      split_and!; try done; try lia; [by simplify_list_eq|perm].
    + cbn [hgt avl mk items addrs] in *. split_and!; try done; try lia; [by simplify_list_eq|perm].
  - lia.
Qed.

(** ** Paths *)

(** A node on the path from a subtree to the root: the subtree is its child [fr_d]. *)
Record frame := Frame { fr_p : Z; fr_k : K; fr_h : Z; fr_d : bool; fr_o : tree K }.
Definition fill (f : frame) t : tree K := mk (fr_p f) (fr_k f) (fr_h f) (fr_d f) t (fr_o f).
Fixpoint plug (ctx : list frame) t : tree K := match ctx with [] => t | f :: ctx => plug ctx (fill f t) end.
Definition slot_of (ctx : list frame) : slot := match ctx with [] => SRoot | f :: _ => SChild (fr_p f) (fr_d f) end.
(** The places of the nodes of the path. *)
Fixpoint slots (ctx : list frame) : list slot := match ctx with [] => [] | _ :: ctx => slot_of ctx :: slots ctx end.

(** What [rebalance] makes of a tree after the subtree at the end of the path has changed. *)
Fixpoint climb (ctx : list frame) t : tree K :=
  match ctx with
  | [] => t
  | f :: ctx => let t' := bal (fill f t) in if hgt t' - fr_h f =? 0 then plug ctx t' else climb ctx t'
  end.

Lemma fill_br f t : exists l r, fill f t = Br (fr_p f) (fr_k f) (fr_h f) l r /\ (if fr_d f then l = fr_o f /\ r = t else l = t /\ r = fr_o f).
Proof. unfold fill, mk. destruct (fr_d f); by eexists _, _. Qed.

(** What is before and after the subtree. *)
Fixpoint before (ctx : list frame) : list (Z * K) :=
  match ctx with [] => [] | f :: ctx => before ctx ++ (if fr_d f then items (fr_o f) ++ [(fr_p f, fr_k f)] else []) end.
Fixpoint after (ctx : list frame) : list (Z * K) :=
  match ctx with [] => [] | f :: ctx => (if fr_d f then [] else (fr_p f, fr_k f) :: items (fr_o f)) ++ after ctx end.
Fixpoint ctx_addrs (ctx : list frame) : list Z :=
  match ctx with [] => [] | f :: ctx => fr_p f :: addrs (fr_o f) ++ ctx_addrs ctx end.

Lemma plug_items ctx t : items (plug ctx t) = before ctx ++ items t ++ after ctx.
Proof.
  revert t. induction ctx as [|f ctx IH]; intros t; cbn [plug before after]; [by rewrite app_nil_r|]. rewrite IH.
  unfold fill, mk. destruct (fr_d f); cbn [items]; by simplify_list_eq.
Qed.
Lemma plug_addrs ctx t : addrs (plug ctx t) ≡ₚ addrs t ++ ctx_addrs ctx.
Proof.
  revert t. induction ctx as [|f ctx IH]; intros t; cbn [plug ctx_addrs]; [by rewrite app_nil_r|]. rewrite IH.
  unfold fill, mk. destruct (fr_d f); cbn [addrs]; perm.
Qed.

Lemma plug_avl ctx t t' : avl (plug ctx t) -> avl t' -> hgt t' = hgt t -> avl (plug ctx t').
Proof.
  revert t t'. induction ctx as [|f ctx IH]; intros t t' Ha Ht' Hh; cbn [plug] in *; [done|]. apply (IH (fill f t)); [done| |].
  - assert (avl (fill f t)) as Hf by (clear -Ha; revert Ha; generalize (fill f t); induction ctx as [|g ctx IH]; [done|]; intros u Hu; cbn in Hu; apply IH in Hu;
      revert Hu; unfold fill, mk; destruct (fr_d g); cbn; tauto).
    revert Hf. unfold fill, mk. destruct (fr_d f); cbn; rewrite Hh; tauto.
  - unfold fill, mk. by destruct (fr_d f).
Qed.
Lemma plug_sub ctx t : avl (plug ctx t) -> avl t.
Proof.
  revert t. induction ctx as [|g ctx IH]; [done|]; intros t Hu. cbn in Hu. apply IH in Hu. revert Hu. unfold fill, mk. destruct (fr_d g); cbn; tauto.
Qed.

(** The tree is balanced again when the height has changed by one. *)
Lemma climb_avl ctx : forall t0 t, avl (plug ctx t0) -> avl t -> -1 <= hgt t - hgt t0 <= 1 ->
  avl (climb ctx t) /\ items (climb ctx t) = before ctx ++ items t ++ after ctx /\ addrs (climb ctx t) ≡ₚ addrs t ++ ctx_addrs ctx.
Proof.
  induction ctx as [|f ctx IH]; intros t0 t Ha Ht Hd; cbn [plug climb before after ctx_addrs] in *.
  - by rewrite !app_nil_r.
  - pose proof (plug_sub _ _ Ha) as Hf. destruct (fill_br f t) as (l & r & E & Elr). destruct (fill_br f t0) as (l0 & r0 & E0 & Elr0). rewrite E0 in Hf, Ha. rewrite E.
    cbn [avl] in Hf. destruct Hf as (Hl0 & Hr0 & Hh & Hb).
    assert (avl l /\ avl r /\ items l ++ (fr_p f, fr_k f) :: items r = (if fr_d f then items (fr_o f) ++ [(fr_p f, fr_k f)] else []) ++ items t ++ (if fr_d f then [] else (fr_p f, fr_k f) :: items (fr_o f))
      /\ addrs l ++ addrs r ≡ₚ addrs t ++ addrs (fr_o f) /\ -2 <= hgt l - hgt r <= 2 /\ -1 <= Z.max (hgt l) (hgt r) - Z.max (hgt l0) (hgt r0) <= 1 /\
      (~ -1 <= hgt l - hgt r <= 1 -> fr_h f <= 1 + Z.max (hgt l) (hgt r) /\ Z.max (hgt l) (hgt r) <= fr_h f)) as (Hl & Hr & Hk & Had & Hlr & Hmax & Hrot).
    { destruct (fr_d f); destruct Elr as [-> ->], Elr0 as [-> ->]; split_and!; try done; try lia; try (by simplify_list_eq); try perm. }
    destruct (bal_avl (fr_p f) (fr_k f) (fr_h f) l r Hl Hr Hlr) as (Hta & Htk & Htad & _ & Hth). set (t' := bal _) in *.
    assert (-1 <= hgt t' - fr_h f <= 1) as Hd' by (case_decide; lia).
    assert (items t' = (if fr_d f then items (fr_o f) ++ [(fr_p f, fr_k f)] else []) ++ items t ++ (if fr_d f then [] else (fr_p f, fr_k f) :: items (fr_o f))) as Hk' by by rewrite Htk.
    assert (addrs t' ++ ctx_addrs ctx ≡ₚ addrs t ++ fr_p f :: addrs (fr_o f) ++ ctx_addrs ctx) as Had' by (rewrite Htad, Had; perm).
    destruct (Z.eqb_spec (hgt t' - fr_h f) 0) as [Hz|Hz].
    + split; [apply (plug_avl ctx _ t' Ha Hta); cbn [hgt]; lia|]. rewrite plug_items, plug_addrs, Hk'. split; [by simplify_list_eq|done].
    + destruct (IH _ t' Ha Hta) as (H1 & H2 & H3); [cbn [hgt]; lia|]. split; [done|]. rewrite H2, H3, Hk'. split; [by simplify_list_eq|done].
Qed.
End Trees.

(** ** Trees in memory *)

Section Memory.
Context {K : Type} `{!Keys K}.
Implicit Types (t l r : tree K) (m : gmap Z (node K)) (M : tmem K) (ctx : list (@frame K)).

Fixpoint rep m t : Prop :=
  match t with
  | Leaf => True
  | Br p k hh l r => p <> 0 /\ m !! p = Some (Node k (addr l) (addr r) hh) /\ rep m l /\ rep m r
  end.
(** The nodes of a path to a subtree at [q]. *)
Fixpoint rep_ctx m ctx (q : Z) : Prop :=
  match ctx with
  | [] => True
  | f :: ctx => fr_p f <> 0 /\
      m !! fr_p f = Some (Node (fr_k f) (if fr_d f then addr (fr_o f) else q) (if fr_d f then q else addr (fr_o f)) (fr_h f)) /\
      rep m (fr_o f) /\ rep_ctx m ctx (fr_p f)
  end.
Fixpoint ctx_root ctx (q : Z) : Z := match ctx with [] => q | f :: ctx => ctx_root ctx (fr_p f) end.

(** The memory is the tree, with the subtree [t] at the end of the path [ctx]. *)
Record holds M ctx t : Prop := Holds {
  ho_tree : rep (nodes M) t;
  ho_ctx : rep_ctx (nodes M) ctx (addr t);
  ho_root : root M = ctx_root ctx (addr t);
  ho_nodup : NoDup (addrs t ++ ctx_addrs ctx);
  ho_exact : forall p, is_Some (nodes M !! p) <-> p ∈ addrs t ++ ctx_addrs ctx;
  ho_range : Forall (fun p => 0 < p < 2 ^ 64) (addrs t ++ ctx_addrs ctx) }.

Lemma rep_frame m m' t : (forall p, p ∈ addrs t -> m' !! p = m !! p) -> rep m t -> rep m' t.
Proof.
  induction t as [|p k hh l IHl r IHr]; [done|]. cbn [addrs rep]. intros Hm (Hp & E & Hl & Hr).
  split; [done|]. split; [rewrite Hm; [done|set_solver]|]. split; [apply IHl|apply IHr]; try done; intros q Hq; apply Hm; set_solver.
Qed.
Lemma ctx_frame m m' ctx q : (forall p, p ∈ ctx_addrs ctx -> m' !! p = m !! p) -> rep_ctx m ctx q -> rep_ctx m' ctx q.
Proof.
  revert q. induction ctx as [|f ctx IH]; [done|]. cbn [ctx_addrs rep_ctx]. intros q Hm (Hp & E & Ho & Hc).
  split; [done|]. split; [rewrite Hm; [done|set_solver]|]. split; [eapply rep_frame; [|done]|apply IH; [|done]]; intros p Hp'; apply Hm; set_solver.
Qed.
Lemma fill_addr (f : @frame K) t : addr (fill f t) = fr_p f.
Proof. unfold fill, mk. by destruct (fr_d f). Qed.
Lemma fill_rep m (f : @frame K) t : rep m (fill f t) <-> fr_p f <> 0 /\
  m !! fr_p f = Some (Node (fr_k f) (if fr_d f then addr (fr_o f) else addr t) (if fr_d f then addr t else addr (fr_o f)) (fr_h f)) /\ rep m (fr_o f) /\ rep m t.
Proof. unfold fill, mk. destruct (fr_d f); cbn [rep]; tauto. Qed.
Lemma holds_up M f ctx t : holds M (f :: ctx) t <-> holds M ctx (fill f t).
Proof.
  assert (addrs (fill f t) ++ ctx_addrs ctx ≡ₚ addrs t ++ fr_p f :: addrs (fr_o f) ++ ctx_addrs ctx) as Hp.
  { unfold fill, mk. destruct (fr_d f); cbn [addrs]; perm. }
  split; intros [H1 H2 H3 H4 H5 H6]; cbn [rep_ctx ctx_root ctx_addrs] in *.
  - split; rewrite ?fill_addr, ?Hp; try done; [apply fill_rep; tauto|tauto|intros p; by rewrite Hp].
  - rewrite fill_addr in *. apply fill_rep in H1. split; cbn [rep_ctx ctx_root ctx_addrs]; rewrite <- ?Hp; try done; try tauto. intros p. by rewrite <- Hp.
Qed.
Lemma holds_plug M ctx t : holds M ctx t <-> holds M [] (plug ctx t).
Proof. revert t. induction ctx as [|f ctx IH]; intros t; [done|]. cbn [plug]. by rewrite holds_up, IH. Qed.

Lemma get_ret M n x : nodes M !! n = Some x -> get n M = Ret (x, M).
Proof. intros E. unfold get. by rewrite E. Qed.
Lemma update_ret M n x f : nodes M !! n = Some x -> update n f M = Ret (tt, Tmem (<[n := f x]> (nodes M)) (root M)).
Proof. intros E. unfold update. by rewrite (pbind_ret _ _ _ _ _ (get_ret _ _ _ E)). Qed.
Lemma height_ret M t : rep (nodes M) t -> height (addr t) M = Ret (hgt t, M).
Proof.
  destruct t as [|p k hh l r]; [done|]. intros (Hp & E & _). unfold height. cbn [addr hgt]. rewrite (proj2 (Z.eqb_neq _ _) Hp).
  by rewrite (pbind_ret _ _ _ _ _ (get_ret _ _ _ E)).
Qed.
Lemma read_slot_ret M ctx t : holds M ctx t -> read_slot (slot_of ctx) M = Ret (addr t, M).
Proof.
  intros [_ Hc Hr _ _ _]. destruct ctx as [|f ctx]; cbn [slot_of read_slot]; [by cbn in Hr; rewrite Hr|].
  cbn [rep_ctx] in Hc. destruct Hc as (_ & E & _). rewrite (pbind_ret _ _ _ _ _ (get_ret _ _ _ E)). unfold child. by destruct (fr_d f).
Qed.

(** Another subtree is put at the end of the path, whose nodes are there already. *)
Lemma write_slot_holds M ctx q t m' : rep_ctx (nodes M) ctx q -> root M = ctx_root ctx q ->
  nodes M = m' -> rep m' t -> NoDup (addrs t ++ ctx_addrs ctx) -> (forall p, is_Some (m' !! p) <-> p ∈ addrs t ++ ctx_addrs ctx) ->
  Forall (fun p => 0 < p < 2 ^ 64) (addrs t ++ ctx_addrs ctx) ->
  exists M', write_slot (slot_of ctx) (addr t) M = Ret (tt, M') /\ holds M' ctx t /\ forall p, p ∈ addrs t -> nodes M' !! p = nodes M !! p.
Proof.
  intros Hc Hr <- Ht Hnd Hex Hrg. destruct ctx as [|f ctx]; cbn [slot_of write_slot].
  - exists (Tmem (nodes M) (addr t)). split; [done|]. split; [by split|done].
  - cbn [rep_ctx ctx_root ctx_addrs] in *. destruct Hc as (Hp & E & Ho & Hc). eexists. split; [by apply update_ret|].
    apply NoDup_app in Hnd as (Hn1 & Hn2 & Hn3). pose proof Hn3 as Hn3'. apply NoDup_cons in Hn3' as [Hn4 Hn5]. apply NoDup_app in Hn5 as (Hn5 & Hn6 & Hn7).
    assert (forall p, p <> fr_p f -> forall x, <[fr_p f := x]> (nodes M) !! p = nodes M !! p) as Hne by (intros p Hp' x; by rewrite lookup_insert_ne).
    split; [split|]; cbn [nodes root rep_ctx ctx_root ctx_addrs]; try done.
    + eapply rep_frame; [|done]. intros p Hpt. apply Hne. set_solver.
    + split; [done|]. split; [rewrite lookup_insert_eq; unfold set_child; by destruct (fr_d f)|]. split.
      * eapply rep_frame; [|done]. intros p Hpt. apply Hne. set_solver.
      * eapply ctx_frame; [|done]. intros p Hpt. apply Hne. set_solver.
    + by apply NoDup_app.
    + intros p. rewrite <- Hex. destruct (decide (p = fr_p f)) as [->|Hpf]; [rewrite lookup_insert_eq; split; intros _; [by eexists|by eexists]|by rewrite Hne].
    + intros p Hpt. apply Hne. set_solver.
Qed.

Lemma insert_there m p x y q : m !! p = Some x -> is_Some (<[p := y]> m !! q) <-> is_Some (m !! q).
Proof. intros E. destruct (decide (q = p)) as [->|Hq]; [rewrite lookup_insert_eq, E; split; by eexists|by rewrite lookup_insert_ne]. Qed.
(** The memory is the same outside of [ps]. *)
Definition same_but (ps : list Z) m m' : Prop := forall q, q ∉ ps -> m' !! q = m !! q.

(** Once the nodes of a subtree have been changed it is put at its place. *)
Lemma subtree_changed M ctx t t' m' : holds M ctx t -> same_but (addrs t) (nodes M) m' -> (forall q, is_Some (m' !! q) <-> is_Some (nodes M !! q)) ->
  addrs t' ≡ₚ addrs t -> rep m' t' ->
  exists M', write_slot (slot_of ctx) (addr t') (Tmem m' (root M)) = Ret (tt, M') /\ holds M' ctx t' /\ forall p, p ∈ addrs t' -> nodes M' !! p = m' !! p.
Proof.
  intros [H1 H2 H3 H4 H5 H6] Hs Hx Hp Ht'. apply (write_slot_holds (Tmem m' (root M)) ctx (addr t) t' m'); cbn [nodes root]; try done.
  - eapply ctx_frame; [|exact H2]. intros p Hpc. apply Hs. apply NoDup_app in H4 as (_ & H4 & _). intros Hpt. by apply (H4 p).
  - by rewrite Hp.
  - intros p. by rewrite Hx, H5, Hp.
  - by rewrite Hp.
Qed.

Ltac look := repeat first [rewrite lookup_insert_eq | rewrite lookup_insert_ne by congruence | match goal with H : ?m !! ?p = Some _ |- context [?m !! ?p] => rewrite H end].

(** Facts about addresses that all differ. *)
Ltac apart := repeat match goal with
  | H : NoDup (_ :: _) |- _ => apply NoDup_cons in H as [? H]
  | H : NoDup (_ ++ _) |- _ => apply NoDup_app in H as (? & ? & H)
  end.
(** The next access to a node. *)
Ltac run1 := first
  [ erewrite pbind_ret; [|apply get_ret; cbn [nodes]; look; reflexivity]
  | erewrite pbind_ret; [|apply update_ret; cbn [nodes]; look; reflexivity] ]; cbn [nodes root child set_child set_h key a0 a1 h negb].
Ltac frames := eapply rep_frame; [|eassumption]; intros ? ?; rewrite !lookup_insert_ne by set_solver; reflexivity.
(** The end of [rot]. *)
Lemma relinked M ctx t q k' h' l r m' hx : let t' := Br q k' h' l r in
  holds M ctx t -> same_but (addrs t) (nodes M) m' -> (forall q, is_Some (m' !! q) <-> is_Some (nodes M !! q)) -> addrs t' ≡ₚ addrs t -> rep m' t' ->
  exists M', (do* write_slot (slot_of ctx) q; let* nz := get q in pret (h nz - hx)) (Tmem m' (root M)) = Ret (h' - hx, M') /\ holds M' ctx t'.
Proof.
  intros t' Hh Hs Hx Hp Ht'. destruct (subtree_changed M ctx t t' m' Hh Hs Hx Hp Ht') as (M' & E & Hh' & Hl). exists M'. cbn [addr t'] in E.
  rewrite (pbind_ret _ _ _ _ _ E). destruct Ht' as (_ & Eq & _). specialize (Hl q ltac:(cbn; set_solver)). rewrite Eq in Hl.
  by rewrite (pbind_ret _ _ _ _ _ (get_ret _ _ _ Hl)).
Qed.
Ltac relink := eapply relinked; [eassumption
  |intros ? ?; cbn [addrs] in *; rewrite !lookup_insert_ne by set_solver; reflexivity
  |intros ?; repeat (erewrite insert_there; [|look; reflexivity]); reflexivity
  |cbn [addrs]; perm
  |cbn [rep addr]; split_and!; try done; try (by look); frames].

(** The two ways in which nodes are linked anew; [d] is the deeper side. *)
Lemma rot_double M ctx p k hh d py ky hy pz kz hz b c dd a :
  holds M ctx (mk p k hh d (mk py ky hy d dd (mk pz kz hz d c b)) a) -> hgt dd < hz ->
  exists M', rot (slot_of ctx) p d M = Ret (hz + 1 - hh, M') /\ holds M' ctx (mk pz kz (hz + 1) d (mk py ky hz d dd c) (mk p k hz d b a)).
Proof.
  intros Hh Hlt. pose proof (ho_tree _ _ _ Hh) as Ht. pose proof (ho_nodup _ _ _ Hh) as Hnd. apply NoDup_app in Hnd as (Hnd & _ & _).
  unfold rot. destruct d; cbn [mk rep addrs addr] in *; destruct_and! Ht; apart.
  all: assert (p <> py /\ p <> pz /\ py <> pz) as (? & ? & ?) by set_solver; do 2 run1.
  1: rewrite (pbind_ret _ _ _ _ _ (height_ret _ (Br pz kz hz b c) ltac:(done))).
  2: rewrite (pbind_ret _ _ _ _ _ (height_ret _ (Br pz kz hz c b) ltac:(done))).
  all: rewrite (pbind_ret _ _ _ _ _ (height_ret _ dd ltac:(done))); cbn [hgt]; rewrite (proj2 (Z.gtb_lt _ _)) by lia.
  all: erewrite (pbind_ret (pbind _ _)); [|do 8 run1; reflexivity]; relink.
Qed.
Lemma rot_single M ctx p k hh d py ky hy z dd a :
  holds M ctx (mk p k hh d (mk py ky hy d dd z) a) -> hgt z <= hgt dd ->
  exists M', rot (slot_of ctx) p d M = Ret (hgt z + 2 - hh, M') /\ holds M' ctx (mk py ky (hgt z + 2) d dd (mk p k (hgt z + 1) d z a)).
Proof.
  intros Hh Hlt. pose proof (ho_tree _ _ _ Hh) as Ht. pose proof (ho_nodup _ _ _ Hh) as Hnd. apply NoDup_app in Hnd as (Hnd & _ & _).
  unfold rot. destruct d; cbn [mk rep addrs addr] in *; destruct_and! Ht; apart.
  all: assert (p <> py) by set_solver; do 2 run1.
  all: rewrite (pbind_ret _ _ _ _ _ (height_ret _ z ltac:(done))), (pbind_ret _ _ _ _ _ (height_ret _ dd ltac:(done))), Z.gtb_ltb, (proj2 (Z.ltb_ge _ _)) by lia.
  all: erewrite (pbind_ret (pbind _ _)); [|do 4 run1; reflexivity]; relink.
Qed.
Lemma rot_holds M ctx p k hh d y a : holds M ctx (mk p k hh d y a) -> avl y -> 0 < hgt y ->
  exists M', rot (slot_of ctx) p d M = Ret (hgt (rot_tree p k d y a) - hh, M') /\ holds M' ctx (rot_tree p k d y a).
Proof.
  intros Hh Hy Hpos. destruct y as [|py ky hy yl yr]; [cbn in Hpos; lia|]. cbn [rot_tree].
  assert (exists z dd, (if d then (yl, yr) else (yr, yl)) = (z, dd) /\ Br py ky hy yl yr = mk py ky hy d dd z /\ avl z /\ avl dd) as (z & dd & -> & E & Hz & Hdd).
  { cbn [avl] in Hy. destruct d; eexists _, _; split_and!; try done; tauto. }
  rewrite E in Hh. destruct (Z.gtb_spec (hgt z) (hgt dd)) as [Hgt|Hle].
  - pose proof (avl_hgt dd Hdd). destruct z as [|pz kz hz zl zr]; [cbn in *; lia|]. cbn [hgt] in *.
    assert (exists b c, (if d then (zl, zr) else (zr, zl)) = (b, c) /\ Br pz kz hz zl zr = mk pz kz hz d c b) as (b & c & -> & Ez) by (destruct d; by eexists _, _).
    rewrite Ez in Hh. destruct (rot_double _ _ _ _ _ _ _ _ _ _ _ _ _ _ _ _ Hh Hgt) as (M' & Er & Hh'). exists M'. split; [|done]. rewrite Er. by destruct d.
  - destruct (rot_single _ _ _ _ _ _ _ _ _ _ _ _ Hh Hle) as (M' & Er & Hh'). exists M'. split; [|done]. rewrite Er. by destruct d.
Qed.

(** The key and the height of a node are changed. *)
Lemma node_changed M ctx p k hh l r k' h' : holds M ctx (Br p k hh l r) ->
  holds (Tmem (<[p := Node k' (addr l) (addr r) h']> (nodes M)) (root M)) ctx (Br p k' h' l r).
Proof.
  intros [HT HC HR HN HX HG]. cbn [rep] in HT. destruct HT as (Hp & E & Hl & Hr). cbn [addrs app] in HN. pose proof HN as HN'. apply NoDup_cons in HN as [HN _].
  split; cbn [nodes root addr addrs rep app] in *; try done.
  - rewrite lookup_insert_eq. split_and!; try done; frames.
  - eapply ctx_frame; [|exact HC]. intros q Hq. rewrite lookup_insert_ne by set_solver. done.
  - intros q. rewrite (insert_there _ _ _ _ _ E). apply HX.
Qed.

Lemma balance_holds M ctx p k hh l r : holds M ctx (Br p k hh l r) -> avl l -> avl r -> -2 <= hgt l - hgt r <= 2 ->
  let t' := bal (Br p k hh l r) in
  exists M', __tsearch_balance (slot_of ctx) M = Ret (hgt t' - hh, M') /\ holds M' ctx t'.
Proof.
  intros Hh Hl Hr Hd t'. pose proof (ho_tree _ _ _ Hh) as (Hp & E & Hrl & Hrr). pose proof (avl_hgt l Hl). pose proof (avl_hgt r Hr).
  unfold __tsearch_balance. rewrite (pbind_ret _ _ _ _ _ (read_slot_ret _ _ _ Hh)). cbn [addr]. rewrite (pbind_ret _ _ _ _ _ (get_ret _ _ _ E)). cbn [a0 a1 h].
  rewrite (pbind_ret _ _ _ _ _ (height_ret _ l Hrl)), (pbind_ret _ _ _ _ _ (height_ret _ r Hrr)). unfold t', bal, u32.
  destruct (Z.leb_spec (-1) (hgt l - hgt r)), (Z.leb_spec (hgt l - hgt r) 1); cbn [andb]; [| | |lia].
  - rewrite Z.mod_small, (proj2 (Z.ltb_lt _ _)) by lia. rewrite (pbind_ret _ _ _ _ _ (update_ret _ _ _ _ E)). eexists. split; [done|]. by eapply node_changed.
  - rewrite Z.mod_small, (proj2 (Z.ltb_ge (_ + 1) _)), (proj2 (Z.ltb_ge (hgt l) _)) by lia. apply rot_holds; [done|done|lia].
  - replace (hgt l - hgt r + 1) with (-1) by lia. rewrite (proj2 (Z.ltb_lt (hgt l) _)) by lia. apply (rot_holds M ctx p k hh true); [done|done|lia].
Qed.

(** One step of the way up, after which the height differs by at most one again. *)
Lemma climb_step (f : @frame K) t0 t : avl (fill f t0) -> avl t -> -1 <= hgt t - hgt t0 <= 1 ->
  exists l r, fill f t = Br (fr_p f) (fr_k f) (fr_h f) l r /\ avl l /\ avl r /\ -2 <= hgt l - hgt r <= 2 /\
  avl (bal (fill f t)) /\ -1 <= hgt (bal (fill f t)) - hgt (fill f t0) <= 1 /\ hgt (fill f t0) = fr_h f.
Proof.
  intros Hf Ht Hd. destruct (fill_br f t) as (l & r & E & Elr). destruct (fill_br f t0) as (l0 & r0 & E0 & Elr0). rewrite E0 in *. cbn [avl hgt] in *.
  destruct Hf as (Hl0 & Hr0 & Hh & Hb). exists l, r. rewrite E.
  assert (avl l /\ avl r /\ -2 <= hgt l - hgt r <= 2 /\ -1 <= Z.max (hgt l) (hgt r) - Z.max (hgt l0) (hgt r0) <= 1 /\
      (~ -1 <= hgt l - hgt r <= 1 -> fr_h f <= 1 + Z.max (hgt l) (hgt r) /\ Z.max (hgt l) (hgt r) <= fr_h f)) as (Hl & Hr & Hlr & Hmax & Hrot).
  { destruct (fr_d f); destruct Elr as [-> ->], Elr0 as [-> ->]; split_and!; try done; try lia. }
  destruct (bal_avl (fr_p f) (fr_k f) (fr_h f) l r Hl Hr Hlr) as (Hta & _ & _ & _ & Hth). split_and!; try done; try lia; case_decide; lia.
Qed.

Lemma rebalance_holds ctx : forall M t0 t, holds M ctx t -> avl (plug ctx t0) -> avl t -> -1 <= hgt t - hgt t0 <= 1 ->
  exists M', rebalance (slots ctx) M = Ret (tt, M') /\ holds M' [] (climb ctx t).
Proof.
  induction ctx as [|f ctx IH]; intros M t0 t Hh Ha Ht Hd; cbn [slots rebalance climb plug] in *; [by exists M|].
  destruct (climb_step f t0 t (plug_sub _ _ Ha) Ht Hd) as (l & r & E & Hl & Hr & Hlr & Hb & Hd' & Eh). apply holds_up in Hh. rewrite E in *.
  destruct (balance_holds _ _ _ _ _ _ _ Hh Hl Hr Hlr) as (M' & Er & Hh'). rewrite (pbind_ret _ _ _ _ _ Er).
  destruct (hgt (bal _) - fr_h f =? 0); [by exists M'; split; [|exact (proj1 (holds_plug _ _ _) Hh')]|]. by apply (IH M' (fill f t0)).
Qed.
End Memory.
