(* ===== verification/MuslTrees.v ===== *)
(** * The search trees of the C library are sorted sets

    [tsearch], [tfind], [tdelete] and [twalk] of MuslSearch.v on a memory that is a
    balanced tree: they find the place of the key, the path fits the array on the stack,
    the tree is balanced afterwards, and the keys are those of the sorted list with the
    key added or removed. *)

From Stdlib Require Import ZArith Lia.
From stdpp Require Import base gmap sorting list.
From S2P Require Import Prelude MuslSearch.

Local Open Scope Z_scope.

(** What is documented of the caller's function and of the allocator. *)
Class KeysLaws (K : Type) `{!Keys K} := {
  cmp_flip (a b : K) : cmp a b < 0 <-> 0 < cmp b a;
  cmp_trans (a b c : K) : cmp a b <= 0 -> cmp b c <= 0 -> cmp a c <= 0;
  malloc_fresh (m : gmap Z (node K)) r : malloc_node m = Some r -> 0 < r < 2 ^ 64 /\ m !! r = None }.

(** ** How high a tree can be *)

(** The least number of nodes of a tree of a height, with that of the next height. *)
Fixpoint sizes (n : nat) : Z * Z := match n with O => (0, 1) | S n => let (x, y) := sizes n in (y, x + y + 1) end.
Definition min_size (n : nat) : Z := fst (sizes n).

Lemma sizes_pair n : sizes n = (min_size n, min_size (S n)).
Proof. unfold min_size. cbn [sizes]. by destruct (sizes n). Qed.
Lemma min_size_SS n : min_size (S (S n)) = min_size n + min_size (S n) + 1.
Proof. unfold min_size at 1. cbn [sizes]. by rewrite sizes_pair. Qed.
Lemma min_size_mono n : 0 <= min_size n <= min_size (S n).
Proof. induction n as [|n IH]; [done|]. rewrite min_size_SS. lia. Qed.
Lemma min_size_le n n' : (n <= n')%nat -> min_size n <= min_size n'.
Proof. induction 1 as [|n' _ IH]; [done|]. pose proof (min_size_mono n'). lia. Qed.

Section Height.
Context {K : Type}.
Implicit Types t : tree K.

Lemma avl_size t : avl t -> min_size (Z.to_nat (hgt t)) <= Z.of_nat (length (addrs t)).
Proof.
  induction t as [|p k hh l IHl r IHr]; [done|]. cbn [avl hgt addrs length]. intros (Hl & Hr & -> & Hb). rewrite length_app.
  specialize (IHl Hl). specialize (IHr Hr). pose proof (avl_hgt l Hl). pose proof (avl_hgt r Hr).
  destruct (decide (hgt l = 0 /\ hgt r = 0)) as [[-> ->]|Hnz]; [change (min_size _) with 1; lia|].
  set (n := Z.to_nat (Z.max (hgt l) (hgt r) - 1)).
  replace (Z.to_nat (1 + _)) with (S (S n)) by lia. rewrite min_size_SS.
  assert (forall x, Z.max (hgt l) (hgt r) - 1 <= x -> min_size n <= min_size (Z.to_nat x)) as Hm by (intros x Hx; apply min_size_le; lia).
  assert (min_size (S n) <= min_size (Z.to_nat (Z.max (hgt l) (hgt r)))) as Hm' by (apply min_size_le; lia).
  destruct (Z.max_spec (hgt l) (hgt r)) as [[_ E]|[_ E]]; rewrite E in *; [pose proof (Hm (hgt l) ltac:(lia))|pose proof (Hm (hgt r) ltac:(lia))]; lia.
Qed.

Lemma addresses_bounded (l : list Z) n : 0 <= n -> NoDup l -> Forall (fun p => 0 < p < n) l -> Z.of_nat (length l) <= n.
Proof.
  intros Hn Hnd Hl. assert (l ⊆+ seqZ 0 n) as Hs.
  { apply NoDup_submseteq; [done|]. intros p Hp. apply elem_of_seqZ. rewrite Forall_forall in Hl. specialize (Hl p Hp). lia. }
  apply submseteq_length in Hs. rewrite length_seqZ in Hs. lia.
Qed.

(** A path and the pointers to its nodes fit the array. *)
Lemma height_bound `{!Keys K} M t : holds M [] t -> avl t -> hgt t <= MAXH - 4.
Proof.
  intros Hh Ht. destruct (decide (hgt t <= MAXH - 4)) as [|Hgt]; [done|]. exfalso. unfold MAXH in Hgt.
  pose proof (avl_size t Ht) as Hs. pose proof (min_size_le 93 (Z.to_nat (hgt t)) ltac:(lia)) as Hm.
  pose proof (ho_nodup _ _ _ Hh) as Hnd. pose proof (ho_range _ _ _ Hh) as Hr. cbn [ctx_addrs] in *. rewrite app_nil_r in *.
  pose proof (addresses_bounded _ (2 ^ 64) ltac:(lia) Hnd Hr).
  assert (2 ^ 64 < min_size 93) by by vm_compute. lia.
Qed.
End Height.

(** ** The way down *)

Section Search.
Context {K : Type} `{!Keys K}.
Implicit Types (t l r : tree K) (M : tmem K) (ctx : list (@frame K)).

(** The path is the one on which [k] is looked for. *)
Definition searched (k : K) ctx : Prop := Forall (fun f => cmp k (fr_k f) <> 0 /\ fr_d f = (0 <? cmp k (fr_k f))) ctx.
(** The subtree is empty, or its node is equal to [k]. *)
Definition arrived (k : K) t : Prop := match t with Leaf => True | Br _ k' _ _ _ => cmp k k' = 0 end.

(** To a child of the node. *)
Lemma holds_down M ctx p k hh l r d : holds M ctx (Br p k hh l r) ->
  holds M (Frame p k hh d (if d then l else r) :: ctx) (if d then r else l).
Proof. intros Hh. apply holds_up. unfold fill, mk. cbn. by destruct d. Qed.
Lemma plug_down ctx p k hh l r d : plug (Frame p k hh d (if d then l else r) :: ctx) (if d then r else l) = plug ctx (Br p k hh l r).
Proof. cbn [plug]. unfold fill, mk. cbn. by destruct d. Qed.
Lemma child_addr (k : K) l r hh d : child (Node k (addr l) (addr r) hh) d = addr (if d then r else l).
Proof. by destruct d. Qed.
Lemma sub_hgt p (k : K) hh l r (d : bool) : avl (Br p k hh l r) -> avl (if d then r else l) /\ 0 <= hgt (if d then r else l) < hh.
Proof. cbn [avl]. intros (Hl & Hr & -> & _). pose proof (avl_hgt l Hl). pose proof (avl_hgt r Hr). destruct d; split; try done; lia. Qed.

Lemma push_ret size (a : list slot) s M : Z.of_nat (length a) < size -> push size a s M = Ret (a ++ [s], M).
Proof. intros Hl. unfold push. by rewrite (proj2 (Z.ltb_lt _ _)) by lia. Qed.

Lemma descend_holds k size base t : forall fuel ctx a M, holds M ctx t -> avl t -> searched k ctx ->
  rev a = slot_of ctx :: slots ctx ++ base -> Z.of_nat (length a) + hgt t <= size -> hgt t <= Z.of_nat fuel ->
  exists ctx' t' a', descend fuel size k a (addr t) M = Ret ((addr t', a'), M) /\ holds M ctx' t' /\ plug ctx' t' = plug ctx t /\ searched k ctx' /\ arrived k t' /\
    rev a' = slot_of ctx' :: slots ctx' ++ base /\ Z.of_nat (length a') + hgt t' <= Z.of_nat (length a) + hgt t.
Proof.
  induction t as [|p k' hh l IHl r IHr]; intros fuel ctx a M Hh Ht Hs Ha Hsz Hf.
  - exists ctx, Leaf, a. split; [by destruct fuel|]. split_and!; try done; lia.
  - pose proof (ho_tree _ _ _ Hh) as (Hp & E & _). destruct (sub_hgt _ _ _ _ _ (0 <? cmp k k') Ht) as [Hta Hth].
    destruct fuel as [|fuel]; [cbn [hgt] in Hf; lia|]. cbn [descend addr]. rewrite (proj2 (Z.eqb_neq _ _) Hp), (pbind_ret _ _ _ _ _ (get_ret _ _ _ E)). cbn [key hgt] in *.
    destruct (Z.eqb_spec (cmp k k') 0) as [Hc|Hc].
    + exists ctx, (Br p k' hh l r), a. split_and!; try done; lia.
    + assert (Z.of_nat (length a) < size) as Hla0 by lia.
      rewrite (pbind_ret _ _ _ _ _ (push_ret _ _ _ _ Hla0)), child_addr. set (d := 0 <? cmp k k') in *.
      assert (rev (a ++ [SChild p d]) = slot_of (Frame p k' hh d (if d then l else r) :: ctx) :: slots (Frame p k' hh d (if d then l else r) :: ctx) ++ base) as Ha'.
      { rewrite rev_app_distr, Ha. done. }
      assert (length (a ++ [SChild p d]) = S (length a)) as Hla by (rewrite length_app; cbn; lia).
      pose proof (holds_down _ _ _ _ _ _ _ d Hh) as Hd. pose proof (plug_down ctx p k' hh l r d) as Hpd.
      assert (searched k (Frame p k' hh d (if d then l else r) :: ctx)) as Hs' by by constructor.
      destruct d; [destruct (IHr fuel _ _ M Hd Hta Hs' Ha') as (ctx' & t' & a' & Er & H1 & H2 & H3 & H4 & H5 & H6)
                  |destruct (IHl fuel _ _ M Hd Hta Hs' Ha') as (ctx' & t' & a' & Er & H1 & H2 & H3 & H4 & H5 & H6)]; try lia;
      (exists ctx', t', a'; split_and!; try done; lia).
Qed.

Lemma tfind_loop_holds k t : forall fuel ctx M, holds M ctx t -> avl t -> searched k ctx -> hgt t <= Z.of_nat fuel ->
  exists ctx' t', tfind_loop fuel k (addr t) M = Ret (addr t', M) /\ holds M ctx' t' /\ plug ctx' t' = plug ctx t /\ searched k ctx' /\ arrived k t'.
Proof.
  induction t as [|p k' hh l IHl r IHr]; intros fuel ctx M Hh Ht Hs Hf.
  - exists ctx, Leaf. split; [by destruct fuel|]. done.
  - pose proof (ho_tree _ _ _ Hh) as (Hp & E & _). destruct (sub_hgt _ _ _ _ _ (0 <? cmp k k') Ht) as [Hta Hth].
    destruct fuel as [|fuel]; [cbn [hgt] in Hf; lia|]. cbn [tfind_loop addr]. rewrite (proj2 (Z.eqb_neq _ _) Hp), (pbind_ret _ _ _ _ _ (get_ret _ _ _ E)). cbn [key hgt] in *.
    destruct (Z.eqb_spec (cmp k k') 0) as [Hc|Hc]; [by exists ctx, (Br p k' hh l r)|].
    rewrite child_addr. set (d := 0 <? cmp k k') in *.
    pose proof (holds_down _ _ _ _ _ _ _ d Hh) as Hd. rewrite <- (plug_down ctx p k' hh l r d).
    assert (searched k (Frame p k' hh d (if d then l else r) :: ctx)) as Hs' by by constructor.
    destruct d; [eapply IHr|eapply IHl]; try done; lia.
Qed.
End Search.

(** ** The way to the last node of a subtree, and the removal of a node *)

Section Removal.
Context {K : Type} `{!Keys K}.
Implicit Types (t l r : tree K) (M : tmem K) (ctx : list (@frame K)).

Lemma plug_app (fs ctx : list (@frame K)) t : plug (fs ++ ctx) t = plug ctx (plug fs t).
Proof. revert t. induction fs as [|f fs IH]; intros t; [done|]. cbn [app plug]. apply IH. Qed.
Lemma holds_app M fs ctx t : holds M (fs ++ ctx) t <-> holds M ctx (plug fs t).
Proof. revert t. induction fs as [|f fs IH]; intros t; [done|]. cbn [app plug]. rewrite holds_up. apply IH. Qed.
Lemma before_app (fs ctx : list (@frame K)) : before (fs ++ ctx) = before ctx ++ before fs.
Proof. induction fs as [|f fs IH]; cbn [app before]; [by rewrite app_nil_r|]. by rewrite IH, app_assoc. Qed.
Lemma after_app (fs ctx : list (@frame K)) : after (fs ++ ctx) = after fs ++ after ctx.
Proof. induction fs as [|f fs IH]; cbn [app after]; [done|]. by rewrite IH, app_assoc. Qed.
Lemma after_right (fs : list (@frame K)) : Forall (fun f => fr_d f = true) fs -> after fs = [].
Proof. induction 1 as [|f fs Hf _ IH]; cbn [after]; [done|]. by rewrite Hf, IH. Qed.

Lemma rightmost_holds base t : forall fuel ctx a M, t <> Leaf -> holds M ctx t -> avl t ->
  rev a = slot_of ctx :: slots ctx ++ base -> Z.of_nat (length a) + hgt t <= MAXH + 1 -> hgt t <= Z.of_nat fuel ->
  exists fs q k h l a', rightmost fuel a (addr t) M = Ret ((q, a'), M) /\ holds M (fs ++ ctx) (Br q k h l Leaf) /\ plug fs (Br q k h l Leaf) = t /\
    Forall (fun f => fr_d f = true) fs /\ rev a' = slot_of (fs ++ ctx) :: slots (fs ++ ctx) ++ base.
Proof.
  induction t as [|p k hh l _ r IHr]; intros fuel ctx a M Hne Hh Ht Ha Hsz Hf; [done|].
  pose proof (ho_tree _ _ _ Hh) as (Hp & E & _ & Hr). destruct (sub_hgt _ _ _ _ _ true Ht) as [Hta Hth]. cbn [hgt] in *.
  destruct fuel as [|fuel]; [lia|]. cbn [rightmost addr]. rewrite (pbind_ret _ _ _ _ _ (get_ret _ _ _ E)). cbn [a1].
  destruct r as [|pr kr hr rl rr]; [by exists [], p, k, hh, l, a|]. cbn [addr]. rewrite (proj2 (Z.eqb_neq _ _) (proj1 Hr)). 
  assert (Z.of_nat (length a) < MAXH + 1) as Hla by lia. rewrite (pbind_ret _ _ _ _ _ (push_ret _ _ _ _ Hla)).
  set (r := Br pr kr hr rl rr) in *. set (f := Frame p k hh true l).
  destruct (IHr fuel (f :: ctx) (a ++ [SChild p true]) M) as (fs & q & k' & h' & l' & a' & Er & Hh' & Hpl & Hfs & Ha'); try done.
  { by apply (holds_down _ _ _ _ _ _ _ true) in Hh. } { by rewrite rev_app_distr, Ha. } { rewrite length_app. cbn [length]. lia. } { lia. }
  exists (fs ++ [f]), q, k', h', l', a'. rewrite <- app_assoc. cbn [app]. split_and!; try done.
  - rewrite plug_app, Hpl. done.
  - apply Forall_app. split; [done|]. by constructor.
Qed.

(** A node with one child is freed and the child takes its place. *)
Lemma unlink_holds M ctx q k h l r c (a : list slot) (v : Z) : holds M ctx (Br q k h l r) -> avl (plug ctx (Br q k h l r)) ->
  (l = Leaf /\ c = r \/ r = Leaf /\ c = l) -> rev a = slot_of ctx :: slots ctx ++ [SRoot] ->
  exists M', (do* free_node q; match rev a with
     | [] => plift Undef
     | s :: up => do* write_slot s (addr c); do* rebalance (take (length up - 1) up); pret v
     end) M = Ret (v, M') /\ holds M' [] (climb ctx c) /\ avl (climb ctx c) /\ items (climb ctx c) = before ctx ++ items c ++ after ctx.
Proof.
  intros Hh Ha Hc Hrev. pose proof (plug_sub _ _ Ha) as Ht. destruct Hh as [HT HC HR HN HX HG]. cbn [rep] in HT. destruct HT as (Hq & E & Hl & Hr).
  unfold free_node. rewrite (pbind_ret _ _ _ tt (Tmem (delete q (nodes M)) (root M))) by by rewrite (pbind_ret _ _ _ _ _ (get_ret _ _ _ E)).
  assert (addrs c = addrs l ++ addrs r /\ rep (nodes M) c /\ avl c /\ hgt c = h - 1) as (Hca & Hcr & Hcv & Hch).
  { cbn [avl] in Ht. destruct Ht as (Hla & Hra & -> & _). pose proof (avl_hgt l Hla). pose proof (avl_hgt r Hra).
    destruct Hc as [[-> ->]|[-> ->]]; cbn [addrs hgt] in *; rewrite ?app_nil_r; split_and!; try done; lia. }
  cbn [addrs app] in HN, HX, HG. rewrite <- Hca in HN, HX, HG. apply NoDup_cons in HN as [Hn1 Hn2]. apply Forall_cons in HG as [_ HG].
  assert (forall p, p ∈ addrs c ++ ctx_addrs ctx -> delete q (nodes M) !! p = nodes M !! p) as Hne by (intros p Hp; rewrite lookup_delete_ne; [done|by intros ->]).
  destruct (write_slot_holds (Tmem (delete q (nodes M)) (root M)) ctx q c (delete q (nodes M))) as (M' & Ew & Hh' & _); cbn [nodes root]; try done.
  - eapply ctx_frame; [|exact HC]. intros p Hp. apply Hne. set_solver.
  - eapply rep_frame; [|exact Hcr]. intros p Hp. apply Hne. set_solver.
  - intros p. destruct (decide (p = q)) as [->|Hpq].
    + rewrite lookup_delete_eq. split; [by intros [? ?]|by intros ?].
    + rewrite lookup_delete_ne, HX by done. set_solver.
  - rewrite Hrev. cbn [app]. rewrite (pbind_ret _ _ _ _ _ Ew).
    replace (length (slots ctx ++ [SRoot]) - 1)%nat with (length (slots ctx)) by (rewrite length_app; cbn; lia). rewrite take_app_length.
    destruct (rebalance_holds ctx M' (Br q k h l r) c Hh' Ha Hcv) as (M'' & Er & Hh''); [cbn [hgt]; lia|].
    rewrite (pbind_ret _ _ _ _ _ Er). exists M''. split; [done|]. split; [done|].
    destruct (climb_avl ctx (Br q k h l r) c Ha Hcv) as (H1 & H2 & _); [cbn [hgt]; lia|]. done.
Qed.
(** A new node at the end of the path. *)
Lemma graft_holds M ctx k (r : Z) (a : list slot) : holds M ctx Leaf -> avl (plug ctx Leaf) -> 0 < r < 2 ^ 64 -> nodes M !! r = None -> rev a = slot_of ctx :: slots ctx ->
  exists M', (do* put r (Node k 0 0 1); match rev a with
     | [] => plift Undef
     | s :: up => do* write_slot s r; do* rebalance up; pret r
     end) M = Ret (r, M') /\ let t' := climb ctx (Br r k 1 Leaf Leaf) in holds M' [] t' /\ avl t' /\ items t' = before ctx ++ (r, k) :: after ctx.
Proof.
  intros [HT HC HR HN HX HG] Ha Hr Hf Hrev. cbn [addrs app addr] in *. set (m := <[r := Node k 0 0 1]> (nodes M)).
  assert (r ∉ ctx_addrs ctx) as Hrc by (intros Hin; apply HX in Hin; rewrite Hf in Hin; by destruct Hin).
  rewrite (pbind_ret (put r (Node k 0 0 1)) _ M tt (Tmem m (root M))) by done. rewrite Hrev. set (t := Br r k 1 Leaf Leaf).
  assert (avl t) as Ht by (cbn; lia).
  destruct (write_slot_holds (Tmem m (root M)) ctx 0 t m) as (M' & Ew & Hh' & _); cbn [nodes root]; try done.
  - eapply ctx_frame; [|exact HC]. intros p Hp. unfold m. rewrite lookup_insert_ne; [done|by intros ->].
  - cbn. unfold m. rewrite lookup_insert_eq. split_and!; try done. lia.
  - cbn. by apply NoDup_cons.
  - intros p. cbn [t addrs app]. rewrite elem_of_cons. unfold m. destruct (decide (p = r)) as [->|Hp]; [rewrite lookup_insert_eq; split; [by left|by eexists]|].
    rewrite lookup_insert_ne by done. rewrite HX. tauto.
  - cbn. by constructor.
  - cbn [addr t] in Ew. rewrite (pbind_ret _ _ _ _ _ Ew).
    destruct (rebalance_holds ctx M' Leaf t Hh' Ha Ht) as (M'' & Er & Hh''); [cbn; lia|]. rewrite (pbind_ret _ _ _ _ _ Er). exists M''. split; [done|].
    destruct (climb_avl ctx Leaf t Ha Ht) as (H1 & H2 & _); [cbn; lia|]. done.
Qed.
End Removal.

(** ** The operations *)

Section Operations.
Context {K : Type} `{!Keys K, !KeysLaws K}.
Implicit Types (t l r : tree K) (M : tmem K) (ctx : list (@frame K)).

Definition ordered (l : list (Z * K)) : Prop := StronglySorted (fun x y => cmp (snd x) (snd y) < 0) l.

Lemma cmp_eq_flip (a b : K) : cmp a b = 0 -> cmp b a = 0.
Proof. pose proof (cmp_flip a b). pose proof (cmp_flip b a). lia. Qed.
Lemma cmp_lt_le (a b c : K) : cmp a b < 0 -> cmp b c <= 0 -> cmp a c < 0.
Proof.
  intros H1 H2. assert (cmp a c <= 0) by (apply (cmp_trans a b c); lia). destruct (decide (cmp a c = 0)) as [E|]; [|lia]. apply cmp_eq_flip in E.
  assert (cmp b a <= 0) by (apply (cmp_trans b c a); lia). pose proof (cmp_flip a b). lia.
Qed.
Lemma cmp_le_lt (a b c : K) : cmp a b <= 0 -> cmp b c < 0 -> cmp a c < 0.
Proof.
  intros H1 H2. assert (cmp a c <= 0) by (apply (cmp_trans a b c); lia). destruct (decide (cmp a c = 0)) as [E|]; [|lia]. apply cmp_eq_flip in E.
  assert (cmp c b <= 0) by (apply (cmp_trans c a b); lia). pose proof (cmp_flip b c). lia.
Qed.

(** Where the search went right the keys are smaller, where it went left they are greater. *)
Lemma before_smaller k ctx : searched k ctx -> ordered (before ctx) -> forall x, x ∈ before ctx -> 0 < cmp k (snd x).
Proof.
  induction 1 as [|f ctx [Hc Hd] _ IH]; cbn [before]; intros Ho x Hx; [by apply elem_of_nil in Hx|].
  apply StronglySorted_app in Ho as (_ & Ho & Ho'). apply elem_of_app in Hx as [Hx|Hx]; [by apply IH|].
  rewrite Hd in *. destruct (Z.ltb_spec 0 (cmp k (fr_k f))) as [Hlt|]; [|by apply elem_of_nil in Hx]. apply elem_of_app in Hx as [Hx|Hx%list_elem_of_singleton]; [|by rewrite Hx].
  pose proof (StronglySorted_app_1_elem_of _ _ _ x (fr_p f, fr_k f) Ho' Hx ltac:(by apply list_elem_of_singleton)) as Hxf. cbn [snd] in Hxf.
  apply cmp_flip. eapply cmp_lt_le; [done|]. apply cmp_flip in Hlt. lia.
Qed.
Lemma after_greater k ctx : searched k ctx -> ordered (after ctx) -> forall x, x ∈ after ctx -> cmp k (snd x) < 0.
Proof.
  induction 1 as [|f ctx [Hc Hd] _ IH]; cbn [after]; intros Ho x Hx; [by apply elem_of_nil in Hx|].
  apply StronglySorted_app in Ho as (_ & Ho' & Ho). apply elem_of_app in Hx as [Hx|Hx]; [|by apply IH].
  rewrite Hd in *. destruct (Z.ltb_spec 0 (cmp k (fr_k f))) as [|Hle]; [by apply elem_of_nil in Hx|]. apply elem_of_cons in Hx as [->|Hx]; [cbn [snd]; lia|].
  apply StronglySorted_inv in Ho' as [_ Ho']. rewrite Forall_forall in Ho'. specialize (Ho' x Hx). cbn [snd] in Ho'. eapply cmp_lt_le; [|apply Z.lt_le_incl, Ho']. lia.
Qed.

(** The place at which the search has arrived. *)
Lemma place k ctx t : searched k ctx -> arrived k t -> ordered (items (plug ctx t)) ->
  (forall x, x ∈ before ctx -> 0 < cmp k (snd x)) /\ (forall x, x ∈ after ctx -> cmp k (snd x) < 0) /\
  match t with
  | Leaf => True
  | Br _ _ _ l r => (forall x, x ∈ items l -> 0 < cmp k (snd x)) /\ (forall x, x ∈ items r -> cmp k (snd x) < 0)
  end.
Proof.
  intros Hs Ht Ho. rewrite plug_items in Ho. apply StronglySorted_app in Ho as (_ & Hb & Ho). apply StronglySorted_app in Ho as (_ & Ho & Ha).
  split; [by apply before_smaller|]. split; [by apply after_greater|]. destruct t as [|p k' hh l r]; [done|]. cbn [arrived items] in *.
  apply StronglySorted_app in Ho as (Hlr & _ & Hr). apply StronglySorted_inv in Hr as [_ Hr]. rewrite Forall_forall in Hr. split; intros x Hx.
  - apply cmp_flip. eapply cmp_lt_le; [apply (Hlr x (p, k') Hx); set_solver|]. cbn [snd]. apply cmp_eq_flip in Ht. lia.
  - eapply cmp_le_lt; [|by apply Hr]. cbn [snd]. lia.
Qed.

Lemma ordered_insert k p (xs ys : list (Z * K)) : ordered (xs ++ ys) -> (forall x, x ∈ xs -> 0 < cmp k (snd x)) -> (forall x, x ∈ ys -> cmp k (snd x) < 0) ->
  ordered (xs ++ (p, k) :: ys).
Proof.
  intros Ho Hx Hy. apply StronglySorted_app in Ho as (Hxy & Hxs & Hys). apply StronglySorted_app. split_and!; [|done|].
  - intros x y Hin [->|Hin']%elem_of_cons; [apply cmp_flip; by apply Hx|by apply Hxy].
  - constructor; [done|]. apply Forall_forall. intros y Hin. by apply Hy.
Qed.

Lemma tsearch_holds k M t : holds M [] t -> avl t -> ordered (items t) ->
  (exists p k', (p, k') ∈ items t /\ cmp k k' = 0 /\ tsearch k M = Ret (p, M)) \/
  (Forall (fun x => cmp k (snd x) <> 0) (items t) /\
   match malloc_node (nodes M) with
   | None => tsearch k M = Ret (0, M)
   | Some r => exists M' t' xs ys, tsearch k M = Ret (r, M') /\ holds M' [] t' /\ avl t' /\ items t = xs ++ ys /\ items t' = xs ++ (r, k) :: ys /\ ordered (items t')
   end).
Proof.
  intros Hh Ht Ho. pose proof (height_bound M t Hh Ht) as Hb. unfold tsearch. rewrite (pbind_ret _ _ _ _ _ (read_slot_ret _ _ _ Hh : read_slot SRoot M = _)).
  rewrite (pbind_ret _ _ _ _ _ (push_ret MAXH [] SRoot M ltac:(done))). cbn [app].
  destruct (descend_holds k MAXH [] t (S (Z.to_nat MAXH)) [] [SRoot] M Hh Ht) as (ctx & t1 & a & Ed & Hh1 & Hpl & Hs & Har & Hrev & _); try done; [by constructor|cbn [length]; lia|unfold MAXH in *; lia|].
  rewrite (pbind_ret _ _ _ _ _ Ed). cbn [plug] in Hpl. subst t. destruct (place k ctx t1 Hs Har Ho) as (Hbf & Haf & Hlr). rewrite plug_items in *.
  destruct t1 as [|p k' hh l r]; cbn [addr arrived items] in *.
  - right. split; [apply Forall_forall; intros x; cbn [app]; intros [Hx|Hx]%elem_of_app; [specialize (Hbf x Hx)|specialize (Haf x Hx)]; lia|].
    cbn [Z.eqb negb]. rewrite (pbind_ret pget _ M M M eq_refl). cbv beta. destruct (malloc_node (nodes M)) as [r|] eqn:Em; [|done].
    destruct (malloc_fresh _ _ Em) as [Hr Hf]. rewrite app_nil_r in Hrev. destruct (graft_holds M ctx k r a Hh1 Ht Hr Hf Hrev) as (M' & Eg & Hh' & Ha' & Hi).
    exists M', (climb ctx (Br r k 1 Leaf Leaf)), (before ctx), (after ctx). split_and!; try done. rewrite Hi. by apply ordered_insert.
  - left. exists p, k'. pose proof (ho_tree _ _ _ Hh1) as (Hp & _). rewrite (proj2 (Z.eqb_neq _ _) Hp). split_and!; try done. set_solver.
Qed.

Lemma tfind_holds fuel k M t : holds M [] t -> avl t -> ordered (items t) -> hgt t <= Z.of_nat fuel ->
  (exists p k', (p, k') ∈ items t /\ cmp k k' = 0 /\ tfind fuel k M = Ret (p, M)) \/
  (Forall (fun x => cmp k (snd x) <> 0) (items t) /\ tfind fuel k M = Ret (0, M)).
Proof.
  intros Hh Ht Ho Hf. unfold tfind. rewrite (pbind_ret _ _ _ _ _ (read_slot_ret _ _ _ Hh : read_slot SRoot M = _)).
  destruct (tfind_loop_holds k t fuel [] M Hh Ht ltac:(by constructor) Hf) as (ctx & t1 & Ef & Hh1 & Hpl & Hs & Har). rewrite Ef. cbn [plug] in Hpl. subst t.
  destruct (place k ctx t1 Hs Har Ho) as (Hbf & Haf & Hlr). rewrite plug_items in *. destruct t1 as [|p k' hh l r]; cbn [addr arrived items] in *.
  - right. split; [|done]. apply Forall_forall. intros x. cbn [app]. intros [Hx|Hx]%elem_of_app; [specialize (Hbf x Hx)|specialize (Haf x Hx)]; lia.
  - left. exists p, k'. split_and!; try done. set_solver.
Qed.

Lemma last_but_one (a : list slot) s0 s1 up : rev a = s0 :: s1 :: up -> a !! (length a - 2)%nat = Some s1.
Proof.
  intros E. rewrite <- (rev_involutive a), E. cbn [rev]. rewrite <- app_assoc, length_app. cbn [length app].
  replace (length (rev up) + 2 - 2)%nat with (length (rev up)) by lia. by rewrite list_lookup_middle.
Qed.
(** What is read for [parent]: the node above, or the node itself at the root. *)
Lemma parent_holds M ctx p k hh l r : holds M ctx (Br p k hh l r) ->
  exists s1 up v, slots ctx ++ [SRoot] = s1 :: up /\ read_slot s1 M = Ret (v, M) /\ v <> 0.
Proof.
  intros Hh. pose proof (ho_tree _ _ _ Hh) as (Hp & _). destruct ctx as [|f ctx]; cbn [slots app].
  - exists SRoot, [], p. split_and!; try done. apply (read_slot_ret _ _ _ Hh).
  - exists (slot_of ctx), (slots ctx ++ [SRoot]), (fr_p f). pose proof (ho_ctx _ _ _ Hh) as (Hf & _). split_and!; try done.
    apply holds_up in Hh. rewrite (read_slot_ret _ _ _ Hh). by rewrite fill_addr.
Qed.

(** The two cases of a node that is deleted. *)
Lemma delete_leftless M ctx p k hh r a (v : Z) : holds M ctx (Br p k hh Leaf r) -> avl (plug ctx (Br p k hh Leaf r)) -> rev a = slot_of ctx :: slots ctx ++ [SRoot] ->
  exists M', (do* free_node p; match rev a with
     | [] => plift Undef
     | s :: up => do* write_slot s (addr r); do* rebalance (take (length up - 1) up); pret v
     end) M = Ret (v, M') /\ exists t', holds M' [] t' /\ avl t' /\ items t' = before ctx ++ items r ++ after ctx.
Proof. intros Hh Ha Hrev. destruct (unlink_holds M ctx p k hh Leaf r r a v Hh Ha ltac:(by left) Hrev) as (M' & E & H). exists M'. split; [done|]. by eexists. Qed.

Lemma delete_last M ctx p k hh r (fs : list (@frame K)) q kq hq l a (v : Z) : let ctx1 := fs ++ Frame p k hh false r :: ctx in
  holds M ctx1 (Br q kq hq l Leaf) -> avl (plug ctx1 (Br q kq hq l Leaf)) -> Forall (fun f => fr_d f = true) fs -> rev a = slot_of ctx1 :: slots ctx1 ++ [SRoot] ->
  exists M', (do* update p (set_key kq); do* free_node q; match rev a with
     | [] => plift Undef
     | s :: up => do* write_slot s (addr l); do* rebalance (take (length up - 1) up); pret v
     end) M = Ret (v, M') /\ exists t', holds M' [] t' /\ avl t' /\ items t' = before ctx ++ (before fs ++ items l ++ [(p, kq)]) ++ items r ++ after ctx.
Proof.
  intros ctx1 Hh Ha Hfs Hrev. set (u := plug fs (Br q kq hq l Leaf)).
  assert (holds M ctx (Br p k hh u r)) as Hp by by apply holds_app, holds_up in Hh.
  pose proof (ho_tree _ _ _ Hp) as (_ & E & _). rewrite (pbind_ret _ _ _ _ _ (update_ret _ _ _ _ E)). cbn [set_key a0 a1 h].
  apply (node_changed _ _ _ _ _ _ _ kq hh) in Hp. set (M1 := Tmem _ _) in *. set (ctx2 := fs ++ Frame p kq hh false r :: ctx).
  assert (holds M1 ctx2 (Br q kq hq l Leaf)) as Hh2 by (apply holds_app, holds_up; done).
  assert (avl (plug ctx2 (Br q kq hq l Leaf))) as Ha2.
  { unfold ctx1, ctx2 in *. rewrite plug_app in *. cbn [plug] in *. eapply plug_avl; [exact Ha| |done]. by apply plug_sub in Ha. }
  assert (slot_of ctx2 = slot_of ctx1 /\ slots ctx2 = slots ctx1) as [Es Ess].
  { unfold ctx1, ctx2. clear. induction fs as [|f fs [IH1 IH2]]; [done|]. cbn [app slots slot_of]. by rewrite IH1, IH2. }
  rewrite <- Es, <- Ess in Hrev. destruct (unlink_holds M1 ctx2 q kq hq l Leaf l a v Hh2 Ha2 ltac:(by right) Hrev) as (M' & Eu & Hu & Hv & Hi).
  exists M'. split; [done|]. eexists. split; [done|]. split; [done|]. rewrite Hi. unfold ctx2. rewrite before_app, after_app, (after_right fs Hfs). cbn [before after fr_d fr_p fr_k fr_o app].
  by simplify_list_eq.
Qed.
Lemma delete_inner M ctx p k hh l r a (v : Z) : holds M ctx (Br p k hh l r) -> avl (plug ctx (Br p k hh l r)) -> l <> Leaf ->
  rev a = slot_of ctx :: slots ctx ++ [SRoot] -> Z.of_nat (length a) + hh <= MAXH ->
  exists q kq a1 c M1 M' t' zs, (let* a := push (MAXH + 1) a (SChild p false) in
      let* (last, a) := rightmost (S (Z.to_nat MAXH)) a (addr l) in
      let* y := get last in
      do* update p (set_key (key y));
      pret (last, a, a0 y)) M = Ret ((q, a1, c), M1) /\
    (do* free_node q; match rev a1 with
     | [] => plift Undef
     | s :: up => do* write_slot s c; do* rebalance (take (length up - 1) up); pret v
     end) M1 = Ret (v, M') /\
    holds M' [] t' /\ avl t' /\ items l = zs ++ [(q, kq)] /\ items t' = before ctx ++ (zs ++ [(p, kq)]) ++ items r ++ after ctx.
Proof.
  intros Hh Ha Hne Hrev Hlen. pose proof (plug_sub _ _ Ha) as Ht. destruct (sub_hgt _ _ _ _ _ false Ht) as [Hta Hth].
  assert (Z.of_nat (length a) < MAXH + 1) as Hla by lia. rewrite (pbind_ret _ _ _ _ _ (push_ret _ _ _ _ Hla)).
  destruct (rightmost_holds [SRoot] l (S (Z.to_nat MAXH)) (Frame p k hh false r :: ctx) (a ++ [SChild p false]) M Hne) as (fs & q & kq & hq & lq & a1 & Er & Hh1 & Hpl & Hfs & Hrev1).
  { by apply (holds_down _ _ _ _ _ _ _ false) in Hh. } { done. } { by rewrite rev_app_distr, Hrev. } { rewrite length_app. cbn [length]. lia. } { unfold MAXH in *. lia. }
  rewrite (pbind_ret _ _ _ _ _ Er). pose proof (ho_tree _ _ _ Hh1) as (_ & Eq & _). rewrite (pbind_ret _ _ _ _ _ (get_ret _ _ _ Eq)). cbn [key a0].
  pose proof (ho_tree _ _ _ Hh) as (_ & Ep & _). rewrite (pbind_ret _ _ _ _ _ (update_ret _ _ _ _ Ep)).
  destruct (delete_last M ctx p k hh r fs q kq hq lq a1 v Hh1) as (M' & Ed & t' & Hh' & Ha' & Hi); try done.
  { rewrite plug_app, Hpl. done. }
  rewrite (pbind_ret _ _ _ _ _ (update_ret _ _ _ _ Ep)) in Ed.
  eexists q, kq, a1, _, _, M', t', (before fs ++ items lq). split_and!; try done; [|by rewrite Hi; simplify_list_eq].
  rewrite <- Hpl, plug_items, (after_right fs Hfs). cbn [items]. by simplify_list_eq.
Qed.

Lemma tdelete_holds k M t : holds M [] t -> avl t -> ordered (items t) ->
  (Forall (fun x => cmp k (snd x) <> 0) (items t) /\ tdelete k M = Ret (0, M)) \/
  (exists v M' t' p k' xs ys, v <> 0 /\ tdelete k M = Ret (v, M') /\ holds M' [] t' /\ avl t' /\
     items t = xs ++ (p, k') :: ys /\ cmp k k' = 0 /\ (items t').*2 = (xs ++ ys).*2).
Proof.
  intros Hh Ht Ho. pose proof (height_bound M t Hh Ht) as Hb. unfold tdelete. rewrite (pbind_ret _ _ _ _ _ (read_slot_ret _ _ _ Hh : read_slot SRoot M = _)).
  destruct (descend_holds k (MAXH + 1) [SRoot] t (S (S (Z.to_nat MAXH))) [] [SRoot; SRoot] M Hh Ht) as (ctx & t1 & a & Ed & Hh1 & Hpl & Hs & Har & Hrev & Hlen);
    try done; [by constructor|cbn [length]; lia|unfold MAXH in *; lia|].
  rewrite (pbind_ret _ _ _ _ _ Ed). cbn [plug] in Hpl. subst t. destruct (place k ctx t1 Hs Har Ho) as (Hbf & Haf & _). rewrite plug_items in *.
  destruct t1 as [|p k' hh l r]; cbn [addr arrived items] in *.
  - left. split; [|done]. apply Forall_forall. intros x. cbn [app]. intros [Hx|Hx]%elem_of_app; [specialize (Hbf x Hx)|specialize (Haf x Hx)]; lia.
  - right. pose proof (ho_tree _ _ _ Hh1) as (Hp & E & Hl & Hr). rewrite (proj2 (Z.eqb_neq _ _) Hp).
    destruct (parent_holds _ _ _ _ _ _ _ Hh1) as (s1 & up & v & Eup & Ev & Hv). rewrite Eup in Hrev. rewrite (last_but_one _ _ _ _ Hrev). rewrite <- Eup in Hrev.
    rewrite (pbind_ret (plift (deref (Some s1))) _ M s1 M eq_refl), (pbind_ret _ _ _ _ _ Ev), (pbind_ret _ _ _ _ _ (get_ret _ _ _ E)). cbn [a0 a1].
    destruct l as [|pl kl hl ll lr].
    + cbn [addr Z.eqb negb]. rewrite (pbind_ret (pret _) _ M (p, a, addr r) M eq_refl).
      destruct (delete_leftless M ctx p k' hh r a v Hh1 Ht Hrev) as (M' & Er & t' & Hh' & Ha' & Hi).
      exists v, M', t', p, k', (before ctx), (items r ++ after ctx). split_and!; try done. by rewrite Hi.
    + cbn [addr]. rewrite (proj2 (Z.eqb_neq _ _) (proj1 Hl)). cbn [negb]. set (l := Br pl kl hl ll lr) in *.
      destruct (delete_inner M ctx p k' hh l r a v Hh1 Ht ltac:(done) Hrev) as (q & kq & a1 & c & M1 & M' & t' & zs & E1 & E2 & Hh' & Ha' & Hil & Hi).
      { cbn [hgt length] in Hlen. lia. }
      rewrite (pbind_ret _ _ _ _ _ E1). exists v, M', t', p, k', (before ctx ++ items l), (items r ++ after ctx). split_and!; try done.
      * by simplify_list_eq.
      * rewrite Hi, Hil, !fmap_app. by simplify_list_eq.
Qed.
End Operations.

(** ** Sorted lists *)

Section Sets.
Context {K : Type} `{!Keys K, !KeysLaws K}.
Implicit Types (ks xs ys : list K) (k : K).

Definition sorted ks : Prop := StronglySorted (fun a b => cmp a b < 0) ks.
Definition set_find k ks : option K := List.find (fun x => cmp k x =? 0) ks.
Definition set_insert k ks : list K := filter (fun x => 0 < cmp k x) ks ++ k :: filter (fun x => cmp k x < 0) ks.
Definition set_delete k ks : list K := filter (fun x => cmp k x <> 0) ks.

Lemma ordered_sorted (l : list (Z * K)) : ordered l <-> sorted l.*2.
Proof.
  induction l as [|x l IH]; [split; constructor|]. rewrite fmap_cons. unfold ordered, sorted in *. split; intros [Hl Hx]%StronglySorted_inv; constructor; try tauto.
  - by apply Forall_fmap.
  - by apply Forall_fmap in Hx.
Qed.

(** The list around an element that is equal to [k]. *)
Lemma sorted_around k k' xs ys : sorted (xs ++ k' :: ys) -> cmp k k' = 0 -> Forall (fun x => 0 < cmp k x) xs /\ Forall (fun x => cmp k x < 0) ys.
Proof.
  intros Ho E. apply StronglySorted_app in Ho as (Hxy & _ & Hy). apply StronglySorted_inv in Hy as [_ Hy]. pose proof (cmp_eq_flip _ _ E) as E'.
  rewrite Forall_forall in Hy. split; apply Forall_forall; intros x Hx.
  - apply cmp_flip. eapply cmp_lt_le; [apply (Hxy x k'); set_solver|lia].
  - eapply cmp_le_lt; [|by apply Hy]. lia.
Qed.
Lemma filter_all {A} (P : A -> Prop) `{!forall x, Decision (P x)} (l : list A) : Forall P l -> filter P l = l.
Proof. induction 1 as [|x l Hx _ IH]; [done|]. by rewrite filter_cons_True, IH. Qed.
Lemma filter_none {A} (P : A -> Prop) `{!forall x, Decision (P x)} (l : list A) : Forall (fun x => ~ P x) l -> filter P l = [].
Proof. induction 1 as [|x l Hx _ IH]; [done|]. by rewrite filter_cons_False. Qed.

Lemma set_delete_around k k' xs ys : sorted (xs ++ k' :: ys) -> cmp k k' = 0 -> set_delete k (xs ++ k' :: ys) = xs ++ ys.
Proof.
  intros Ho E. destruct (sorted_around _ _ _ _ Ho E) as [Hx Hy]. unfold set_delete. rewrite filter_app, filter_cons_False by (intros []; done).
  rewrite !filter_all; [done| |]; (eapply Forall_impl; [done|]; intros x; cbn; lia).
Qed.
Lemma set_insert_around k xs ys : sorted (xs ++ k :: ys) -> set_insert k (xs ++ ys) = xs ++ k :: ys.
Proof.
  intros Ho. assert (cmp k k = 0) as E by (pose proof (cmp_flip k k); lia). destruct (sorted_around _ _ _ _ Ho E) as [Hx Hy]. unfold set_insert. rewrite !filter_app.
  rewrite (filter_all _ xs Hx), (filter_all _ ys Hy), (filter_none _ xs), (filter_none _ ys), app_nil_r; [done| |]; (eapply Forall_impl; [done|]; intros x; cbn; lia).
Qed.
Lemma set_find_around k k' xs ys : sorted (xs ++ k' :: ys) -> cmp k k' = 0 -> set_find k (xs ++ k' :: ys) = Some k'.
Proof.
  intros Ho E. destruct (sorted_around _ _ _ _ Ho E) as [Hx _]. clear Ho. unfold set_find. induction Hx as [|x xs Hx _ IH]; cbn [app List.find].
  - by rewrite E.
  - by rewrite (proj2 (Z.eqb_neq _ _)) by lia.
Qed.
Lemma set_find_none k ks : Forall (fun x => cmp k x <> 0) ks -> set_find k ks = None.
Proof. induction 1 as [|x ks Hx _ IH]; [done|]. unfold set_find in *. cbn [List.find]. by rewrite (proj2 (Z.eqb_neq _ _)). Qed.
Lemma sorted_remove xs k ys : sorted (xs ++ k :: ys) -> sorted (xs ++ ys).
Proof.
  intros (H & Hx & Hy)%StronglySorted_app. apply StronglySorted_inv in Hy as [Hy _]. apply StronglySorted_app. split_and!; try done. intros x y Hxx Hyy. apply H; set_solver.
Qed.
End Sets.

(** ** The trees are sorted sets *)

Section Refinement.
Context {K : Type} `{!Keys K, !KeysLaws K}.
Implicit Types (t : tree K) (M : tmem K) (k : K) (ks : list K).

(** What the caller does with the tree; the keys are read through the pointers. *)
Inductive op := OSearch (k : K) | OFind (k : K) | ODelete (k : K) | OWalk.
Inductive answer := AKey (k : option K) | AFound (b : bool) | AKeys (ks : list K).

Definition depth : nat := S (Z.to_nat MAXH).
Definition key_of (p : Z) : prog (tmem K) (option K) := if p =? 0 then pret None else let* x := get p in pret (Some (key x)).
(** The visits in which a node is in its place of the order. *)
Definition in_order (c : Z * visit * Z) : bool := match snd (fst c) with postorder | leaf => true | _ => false end.
Fixpoint keys_of (ps : list Z) : prog (tmem K) (list K) :=
  match ps with
  | [] => pret []
  | p :: ps => let* x := get p in let* ks := keys_of ps in pret (key x :: ks)
  end.
Definition run_op (o : op) : prog (tmem K) answer :=
  match o with
  | OSearch k => let* p := tsearch k in let* x := key_of p in pret (AKey x)
  | OFind k => let* p := tfind depth k in let* x := key_of p in pret (AKey x)
  | ODelete k => let* p := tdelete k in pret (AFound (negb (p =? 0)))
  | OWalk => let* cs := twalk depth in let* ks := keys_of (map (fun c => fst (fst c)) (List.filter in_order cs)) in pret (AKeys ks)
  end.
(** Each with whether there was memory for a node. *)
Fixpoint run_ops (os : list op) : prog (tmem K) (list (bool * answer)) :=
  match os with
  | [] => pret []
  | o :: os =>
      let* m := pget in
      let* r := run_op o in
      let* rs := run_ops os in
      pret ((bool_decide (is_Some (malloc_node (nodes m))), r) :: rs)
  end.

(** The same on a sorted list of keys. *)
Definition set_op (mem : bool) (o : op) ks : answer * list K :=
  match o with
  | OSearch k => match set_find k ks with
                 | Some k' => (AKey (Some k'), ks)
                 | None => if mem then (AKey (Some k), set_insert k ks) else (AKey None, ks)
                 end
  | OFind k => (AKey (set_find k ks), ks)
  | ODelete k => (AFound (bool_decide (is_Some (set_find k ks))), set_delete k ks)
  | OWalk => (AKeys ks, ks)
  end.
Fixpoint set_ops (os : list (bool * op)) ks : list answer * list K :=
  match os with
  | [] => ([], ks)
  | (mem, o) :: os => let (r, ks) := set_op mem o ks in let (rs, ks) := set_ops os ks in (r :: rs, ks)
  end.

(** The memory is a balanced tree with these keys, and nothing else. *)
Definition is_set M ks : Prop := exists t, holds M [] t /\ avl t /\ (items t).*2 = ks /\ sorted ks.

Lemma item_at m t p k : rep m t -> (p, k) ∈ items t -> p <> 0 /\ exists x, m !! p = Some x /\ key x = k.
Proof.
  induction t as [|q k' hh l IHl r IHr]; cbn [rep items]; [intros _ H; by apply elem_of_nil in H|]. intros (Hq & E & Hl & Hr) [Hi|[Hi|Hi]%elem_of_cons]%elem_of_app; [by apply IHl| |by apply IHr].
  injection Hi as -> ->. split; [done|]. by eexists.
Qed.
Lemma key_of_item M t p k : holds M [] t -> (p, k) ∈ items t -> key_of p M = Ret (Some k, M).
Proof.
  intros Hh Hi. destruct (item_at _ _ _ _ (ho_tree _ _ _ Hh) Hi) as (Hp & x & E & <-). unfold key_of. rewrite (proj2 (Z.eqb_neq _ _) Hp).
  by rewrite (pbind_ret _ _ _ _ _ (get_ret _ _ _ E)).
Qed.
Lemma keys_of_items M t (xs : list (Z * K)) : holds M [] t -> (forall x, x ∈ xs -> x ∈ items t) -> keys_of xs.*1 M = Ret (xs.*2, M).
Proof.
  intros Hh. induction xs as [|[p k] xs IH]; intros Hin; [done|]. rewrite !fmap_cons. cbn [keys_of fst snd].
  destruct (item_at _ _ p k (ho_tree _ _ _ Hh) ltac:(apply Hin; set_solver)) as (Hp & x & E & <-). rewrite (pbind_ret _ _ _ _ _ (get_ret _ _ _ E)).
  rewrite (pbind_ret _ _ _ _ _ (IH ltac:(intros; apply Hin; set_solver))). done.
Qed.

(** The calls of [walk]; the nodes are in order. *)
Lemma walk_holds t : forall fuel d M, rep (nodes M) t -> avl t -> hgt t <= Z.of_nat fuel ->
  exists cs, walk fuel (addr t) d M = Ret (cs, M) /\ map (fun c => fst (fst c)) (List.filter in_order cs) = (items t).*1.
Proof.
  induction t as [|p k hh l IHl r IHr]; intros fuel d M Ht Ha Hf; [exists []; by destruct fuel|].
  cbn [rep] in Ht. destruct Ht as (Hp & E & Hl & Hr). destruct (sub_hgt _ _ _ _ _ false Ha) as [Hla Hlh]. destruct (sub_hgt _ _ _ _ _ true Ha) as [Hra Hrh]. cbn [hgt] in Hf.
  destruct fuel as [|fuel]; [lia|]. cbn [walk addr]. rewrite (proj2 (Z.eqb_neq _ _) Hp), (pbind_ret _ _ _ _ _ (get_ret _ _ _ E)). cbn [h a0 a1].
  destruct (Z.eqb_spec hh 1) as [E1|E1].
  - exists [(p, leaf, d)]. split; [done|]. rewrite (avl_leaf l), (avl_leaf r) by (done || lia). done.
  - destruct (IHl fuel (d + 1) M Hl Hla ltac:(lia)) as (cl & El & Hcl). destruct (IHr fuel (d + 1) M Hr Hra ltac:(lia)) as (cr & Er & Hcr).
    rewrite (pbind_ret _ _ _ _ _ El), (pbind_ret _ _ _ _ _ Er). eexists. split; [done|].
    cbn [List.filter in_order fst snd items]. rewrite List.filter_app, map_app. cbn [List.filter in_order fst snd map]. rewrite List.filter_app, map_app, Hcl, Hcr.
    cbn. by rewrite fmap_app, app_nil_r.
Qed.

(** An item of the tree in the list of its keys. *)
Lemma item_split t p k ks : (p, k) ∈ items t -> (items t).*2 = ks -> exists xs ys, ks = xs ++ k :: ys.
Proof.
  intros Hi <-. apply list_elem_of_split in Hi as (xs & ys & ->). exists xs.*2, ys.*2. by rewrite fmap_app, fmap_cons.
Qed.
Lemma no_item k (l : list (Z * K)) : Forall (fun x => cmp k (snd x) <> 0) l -> set_find k l.*2 = None.
Proof. intros H. apply set_find_none. by apply Forall_fmap. Qed.
Lemma set_depth M ks : is_set M ks -> exists t, holds M [] t /\ avl t /\ (items t).*2 = ks /\ sorted ks /\ ordered (items t) /\ hgt t <= Z.of_nat depth.
Proof.
  intros (t & Hh & Ha & Hk & Hs). exists t. split_and!; try done; [by apply ordered_sorted; rewrite Hk|]. pose proof (height_bound M t Hh Ha). unfold depth, MAXH in *. lia.
Qed.

Lemma search_step M ks k : is_set M ks -> let mem := bool_decide (is_Some (malloc_node (nodes M))) in
  exists M', run_op (OSearch k) M = Ret (fst (set_op mem (OSearch k) ks), M') /\ is_set M' (snd (set_op mem (OSearch k) ks)).
Proof.
  intros Hset mem. destruct (set_depth _ _ Hset) as (t & Hh & Ha & Hk & Hs & Ho & _). cbn [run_op set_op].
  destruct (tsearch_holds k M t Hh Ha Ho) as [(p & k' & Hi & Hc & E)|[Hno Hm]].
  - destruct (item_split _ _ _ _ Hi Hk) as (xs & ys & Eks). exists M. rewrite (pbind_ret _ _ _ _ _ E), (pbind_ret _ _ _ _ _ (key_of_item _ _ _ _ Hh Hi)).
    rewrite Eks in *. by rewrite (set_find_around _ _ _ _ Hs Hc).
  - pose proof (no_item _ _ Hno) as Hf. rewrite Hk in Hf. rewrite Hf. unfold mem. destruct (malloc_node (nodes M)) as [r|].
    + destruct Hm as (M' & t' & xs & ys & E & Hh' & Ha' & Hi & Hi' & Ho'). exists M'. rewrite (pbind_ret _ _ _ _ _ E).
      rewrite (pbind_ret _ _ _ _ _ (key_of_item _ _ r k Hh' ltac:(rewrite Hi'; set_solver))). split; [done|]. exists t'. cbn [snd]. apply ordered_sorted in Ho'.
      rewrite <- Hk, Hi, Hi', fmap_app in *. rewrite fmap_app, fmap_cons in *. cbn [snd] in *. by rewrite (set_insert_around _ _ _ Ho').
    + exists M. by rewrite (pbind_ret _ _ _ _ _ Hm).
Qed.
Lemma find_step M ks k mem : is_set M ks -> run_op (OFind k) M = Ret (fst (set_op mem (OFind k) ks), M).
Proof.
  intros Hset. destruct (set_depth _ _ Hset) as (t & Hh & Ha & Hk & Hs & Ho & Hd). cbn [run_op set_op].
  destruct (tfind_holds depth k M t Hh Ha Ho Hd) as [(p & k' & Hi & Hc & E)|[Hno E]]; rewrite (pbind_ret _ _ _ _ _ E).
  - destruct (item_split _ _ _ _ Hi Hk) as (xs & ys & Eks). rewrite (pbind_ret _ _ _ _ _ (key_of_item _ _ _ _ Hh Hi)).
    rewrite Eks in *. by rewrite (set_find_around _ _ _ _ Hs Hc).
  - pose proof (no_item _ _ Hno) as Hf. rewrite Hk in Hf. by rewrite Hf.
Qed.
Lemma delete_step M ks k mem : is_set M ks ->
  exists M', run_op (ODelete k) M = Ret (fst (set_op mem (ODelete k) ks), M') /\ is_set M' (snd (set_op mem (ODelete k) ks)).
Proof.
  intros Hset. destruct (set_depth _ _ Hset) as (t & Hh & Ha & Hk & Hs & Ho & Hd). cbn [run_op set_op fst snd].
  destruct (tdelete_holds k M t Hh Ha Ho) as [[Hno E]|(v & M' & t' & p & k' & xs & ys & Hv & E & Hh' & Ha' & Hi & Hc & Hi')]; rewrite (pbind_ret _ _ _ _ _ E).
  - pose proof (no_item _ _ Hno) as Hf. rewrite Hk in Hf. rewrite Hf. exists M. split; [done|]. unfold set_delete. rewrite filter_all; [done|]. rewrite <- Hk. by apply Forall_fmap.
  - exists M'. rewrite (proj2 (Z.eqb_neq _ _) Hv). rewrite Hi, fmap_app, fmap_cons in Hk. cbn [snd] in Hk. subst ks. rewrite fmap_app in Hi'.
    rewrite (set_find_around _ _ _ _ Hs Hc), (set_delete_around _ _ _ _ Hs Hc). split; [done|]. exists t'. split_and!; try done. by eapply sorted_remove.
Qed.
Lemma walk_step M ks mem : is_set M ks -> run_op OWalk M = Ret (fst (set_op mem OWalk ks), M).
Proof.
  intros Hset. destruct (set_depth _ _ Hset) as (t & Hh & Ha & Hk & Hs & Ho & Hd). cbn [run_op set_op fst].
  destruct (walk_holds t depth 0 M (ho_tree _ _ _ Hh) Ha Hd) as (cs & Ew & Hcs).
  assert (twalk depth M = Ret (cs, M)) as Et by (unfold twalk; by rewrite (pbind_ret _ _ _ _ _ (read_slot_ret _ _ _ Hh : read_slot SRoot M = _))).
  rewrite (pbind_ret _ _ _ _ _ Et), Hcs, (pbind_ret _ _ _ _ _ (keys_of_items M t (items t) Hh ltac:(done))), Hk. done.
Qed.
Lemma op_step M ks o : is_set M ks -> let mem := bool_decide (is_Some (malloc_node (nodes M))) in
  exists M', run_op o M = Ret (fst (set_op mem o ks), M') /\ is_set M' (snd (set_op mem o ks)).
Proof.
  intros Hs mem. destruct o as [k|k|k|]; [by apply search_step|exists M|by apply delete_step|exists M].
  - split; [by apply find_step|done].
  - split; [by apply walk_step|done].
Qed.

(** C6: from any balanced tree, the empty one included, every sequence of [tsearch],
    [tfind], [tdelete] and [twalk] returns, with no access outside the array of the path
    and none to a node that was freed.  The answers are those of a sorted list of keys:
    the key that was there or the new one, the key that is found, whether a key was
    deleted, and all the keys in order; [tsearch] returns 0 only where the key is new and
    there is no memory.  The memory is again a balanced tree with the keys of the list,
    and holds no other node. *)
Theorem tree_is_sorted_set os M ks : is_set M ks ->
  exists rs M', run_ops os M = Ret (rs, M') /\ length rs = length os /\
    let (answers, ks') := set_ops (zip rs.*1 os) ks in rs.*2 = answers /\ is_set M' ks'.
Proof.
  revert M ks. induction os as [|o os IH]; intros M ks Hs; [by exists [], M|]. cbn [run_ops]. rewrite (pbind_ret pget _ M M M eq_refl). cbv beta.
  destruct (op_step M ks o Hs) as (M1 & E1 & Hs1). rewrite (pbind_ret _ _ _ _ _ E1). destruct (IH M1 _ Hs1) as (rs & M' & E2 & Hl & H2). rewrite (pbind_ret _ _ _ _ _ E2).
  eexists _, M'. split; [done|]. split; [cbn; by rewrite Hl|]. rewrite !fmap_cons. cbn [zip fst snd zip_with set_ops]. destruct (set_op _ o ks) as [r ks1] eqn:Eo. cbn [fst snd] in *.
  fold (zip rs.*1 os). destruct (set_ops (zip rs.*1 os) ks1) as [answers ks']. destruct H2 as [<- H2]. done.
Qed.

(** [tdestroy] frees every node, and every key once. *)
Lemma destroy_holds t : forall fuel M, rep (nodes M) t -> NoDup (addrs t) -> avl t -> hgt t <= Z.of_nat fuel ->
  exists ks m', tdestroy fuel (addr t) M = Ret (ks, Tmem m' (root M)) /\ ks ≡ₚ (items t).*2 /\ forall p, m' !! p = if decide (p ∈ addrs t) then None else nodes M !! p.
Proof.
  induction t as [|p k hh l IHl r IHr]; intros fuel M Ht Hn Ha Hf.
  { exists [], (nodes M). split; [destruct M; by destruct fuel|]. split; [done|]. intros p. by rewrite decide_False by set_solver. }
  cbn [rep addrs] in *. destruct Ht as (Hp & E & Hl & Hr). apply NoDup_cons in Hn as [Hnp Hn]. apply NoDup_app in Hn as (Hnl & Hlr & Hnr).
  destruct (sub_hgt _ _ _ _ _ false Ha) as [Hla Hlh]. destruct (sub_hgt _ _ _ _ _ true Ha) as [Hra Hrh]. cbn [hgt] in Hf.
  destruct fuel as [|fuel]; [lia|]. cbn [tdestroy addr]. rewrite (proj2 (Z.eqb_neq _ _) Hp), (pbind_ret _ _ _ _ _ (get_ret _ _ _ E)). cbn [a0 a1].
  destruct (IHl fuel M Hl Hnl Hla ltac:(lia)) as (kl & m1 & El & Hkl & Hm1). rewrite (pbind_ret _ _ _ _ _ El).
  assert (rep m1 r) as Hr1 by (eapply rep_frame; [|exact Hr]; intros q Hq; rewrite Hm1, decide_False; [done|]; intros Hq'; by apply (Hlr q)).
  destruct (IHr fuel (Tmem m1 (root M)) Hr1 Hnr Hra ltac:(lia)) as (kr & m2 & Er & Hkr & Hm2). rewrite (pbind_ret _ _ _ _ _ Er). cbn [root nodes] in *.
  assert (m2 !! p = nodes M !! p) as Ep by (rewrite Hm2, decide_False, Hm1, decide_False by set_solver; done). rewrite E in Ep.
  unfold free_node. rewrite (pbind_ret _ _ _ tt (Tmem (delete p m2) (root M))) by by rewrite (pbind_ret _ _ _ _ _ (get_ret (Tmem m2 (root M)) _ _ Ep)).
  eexists _, _. split; [done|]. cbn [key items]. split.
  - rewrite fmap_app, fmap_cons, Hkl, Hkr. etransitivity; [|apply Permutation_middle]. rewrite app_assoc. symmetry. apply Permutation_cons_append.
  - intros q. destruct (decide (q = p)) as [->|Hqp]; [rewrite lookup_delete_eq, decide_True by set_solver; done|]. rewrite lookup_delete_ne, Hm2, Hm1 by done.
    repeat case_decide; set_solver.
Qed.
End Refinement.

(** ** Integers as keys *)

(** The first address that is free, from 16 on. *)
Fixpoint first_free (fuel : nat) (m : gmap Z (node Z)) (p : Z) : option Z :=
  match fuel with
  | O => None
  | S fuel => match m !! p with None => Some p | Some _ => first_free fuel m (p + 32) end
  end.
#[local] Instance int_keys : Keys Z := { cmp := Z.sub; malloc_node := fun m => first_free 1000 m 16 }.
Lemma first_free_spec fuel m p r : first_free fuel m p = Some r -> p <= r < p + 32 * Z.of_nat fuel /\ m !! r = None.
Proof.
  revert p. induction fuel as [|fuel IH]; intros p; cbn [first_free]; [done|]. destruct (m !! p) eqn:E; [|intros [= <-]; split; [lia|done]].
  intros H. destruct (IH _ H). split; [lia|done].
Qed.
#[local] Instance int_laws : KeysLaws Z.
Proof.
  split.
  - intros a b. change (a - b < 0 <-> 0 < b - a). lia.
  - intros a b c. change (a - b <= 0 -> b - c <= 0 -> a - c <= 0). lia.
  - intros m r H. apply first_free_spec in H as [H1 H2]. split; [lia|done].
Qed.
Lemma empty_set : is_set (Tmem ∅ 0) ([] : list Z).
Proof.
  exists Leaf. split_and!; [|done|done|constructor]. split; [done|done|done|apply NoDup_nil_2| |by apply Forall_nil].
  intros p. cbn. rewrite lookup_empty. split; [by intros []|by intros ?%elem_of_nil].
Qed.

Definition example_ops : list (op (K := Z)) := [OSearch 1; OSearch 2; OSearch 3; OSearch 5; OSearch 4; OSearch 2; ODelete 1; ODelete 4; OFind 4; OWalk].
Definition memory_of (o : outcome (list (bool * answer (K := Z)) * tmem Z)) : list bool := match o with Ret (rs, _) => rs.*1 | _ => [] end.
Lemma example_memory : memory_of (run_ops example_ops (Tmem ∅ 0)) = replicate 10 true.
Proof. by vm_compute. Qed.
Lemma example_set : set_ops (zip (replicate 10 true) example_ops) [] =
  ([AKey (Some 1); AKey (Some 2); AKey (Some 3); AKey (Some 5); AKey (Some 4); AKey (Some 2); AFound true; AFound true; AKey None; AKeys [2; 3; 5]], [2; 3; 5]).
Proof. by vm_compute. Qed.

(** Keys in order make the tree rotate; the keys 1 and 4 are deleted, and 4 is not found. *)
Lemma tree_is_sorted_set_witness :
  exists rs M', run_ops example_ops (Tmem ∅ 0) = Ret (rs, M') /\
    rs.*2 = [AKey (Some 1); AKey (Some 2); AKey (Some 3); AKey (Some 5); AKey (Some 4); AKey (Some 2); AFound true; AFound true; AKey None; AKeys [2; 3; 5]] /\
    is_set M' [2; 3; 5].
Proof.
  pose proof example_memory as Er. pose proof example_set as Es.
  destruct (tree_is_sorted_set example_ops (Tmem ∅ 0) [] empty_set) as (rs & M' & E & Hl & H).
  rewrite E in Er. cbn [memory_of] in Er. rewrite Er, Es in H. exists rs, M'. split; [exact E|]. exact H.
Defined.
