(* ===== verification/MuslHash.v ===== *)
(** * Hash tables of the C library (src/musl/src/search/hsearch.c)

    A table has 2^n entries.  The place of a key is looked for at its hash, then 1, 3, 6,
    10, ... entries further on.  These places are all the places of the table, so that
    the search ends at the key or at an empty entry; the table is enlarged when three
    quarters are in use.  The table is a map from keys to data.  Whether there is memory is
    an argument. *)

From Stdlib Require Import ZArith Znumtheory Zpow_facts Lia Ascii String.
From stdpp Require Import base gmap list.
From S2P Require Import Prelude.

Local Open Scope Z_scope.

Definition MINSIZE : Z := 8.
Definition MAXSIZE : Z := 2 ^ 64 / 2.

(** ** The code *)

(** A key that is not null is the string it points to. *)
Record ENTRY (D : Type) := Entry { key : option (list ascii); data : D }.
Arguments Entry {D}. Arguments key {D}. Arguments data {D}.
(** [struct __tab] *)
Record tab (D : Type) := Tab { entries : option (list (ENTRY D)); mask : Z; used : Z }.
Arguments Tab {D}. Arguments entries {D}. Arguments mask {D}. Arguments used {D}.
Inductive ACTION := FIND | ENTER.

Definition keyhash (k : list ascii) : Z := fold_left (fun h c => u64 (31 * h + Z_of_byte c)) k 0.

Section Code.
Context {D : Type} (null : D).
Implicit Types (es : list (ENTRY D)) (t : tab D).

Definition has_key (e : ENTRY D) : bool := match key e with Some _ => true | None => false end.
Definition key_is (k : list ascii) (e : ENTRY D) : bool := match key e with Some k' => bool_decide (k' = k) | None => false end.

(** [for (i=hash,j=1; ; i+=j++)] up to an entry for which [stop] holds: its index. *)
Fixpoint probe_loop (fuel : nat) (stop : ENTRY D -> bool) es (mask i j : Z) : outcome Z :=
  match fuel with
  | O => Undef
  | S fuel =>
      let n := Z.land i mask in
      let! e := deref (es !! Z.to_nat n) in
      if stop e then Ret n else probe_loop fuel stop es mask (u64 (i + j)) (u64 (j + 1))
  end.

Fixpoint newsize_loop (fuel : nat) (newsize nel : Z) : outcome Z :=
  if newsize <? nel then match fuel with O => Undef | S fuel => newsize_loop fuel (u64 (newsize * 2)) nel end
  else Ret newsize.

(** The entries with a key are put into the new ones. *)
Fixpoint rehash (old es : list (ENTRY D)) (mask : Z) : outcome (list (ENTRY D)) :=
  match old with
  | [] => Ret es
  | e :: old =>
      match key e with
      | None => rehash old es mask
      | Some k =>
          let! n := probe_loop (length es) (fun e => negb (has_key e)) es mask (keyhash k) 1 in
          rehash old (<[Z.to_nat n := e]> es) mask
      end
  end.

(** Whether [calloc] returns memory; [mem]: whether [malloc] does *)
Definition calloc (mem : bool) (m n : Z) : bool :=
  if negb (n =? 0) && ((2 ^ 64 - 1) / n <? m) then false else mem.
Definition sizeof_ENTRY : Z := 16.

Definition resize (mem : bool) (nel : Z) t : outcome (Z * tab D) :=
  let nel := if MAXSIZE <? nel then MAXSIZE else nel in
  let! newsize := newsize_loop 64 MINSIZE nel in
  if negb (calloc mem newsize sizeof_ENTRY) then Ret (0, t)
  else
    let newe := replicate (Z.to_nat newsize) (Entry None null) in
    match entries t with
    | None => Ret (1, Tab (Some newe) (newsize - 1) (used t))
    | Some old =>
        if Z.of_nat (length old) <? mask t + 1 then Undef
        else
          let! es := rehash (take (Z.to_nat (mask t + 1)) old) newe (newsize - 1) in
          Ret (1, Tab (Some es) (newsize - 1) (used t))
    end.

Definition lookup (k : list ascii) (hash : Z) t : outcome Z :=
  let! es := deref (entries t) in
  probe_loop (length es) (fun e => negb (has_key e) || key_is k e) es (mask t) hash 1.

(** The memory for the table and for its entries. *)
Definition hcreate_r (mem1 mem2 : bool) (nel : Z) : outcome (Z * option (tab D)) :=
  if negb mem1 then Ret (0, None)
  else
    let! (r, t) := resize mem2 nel (Tab None 0 0) in
    if r =? 0 then Ret (r, None) else Ret (r, Some t).

Definition hdestroy_r (t : option (tab D)) : option (tab D) := None.

Definition set_entry (n : Z) (e : ENTRY D) t : outcome (tab D) :=
  let! es := deref (entries t) in
  if bool_decide (Z.to_nat n < length es)%nat then Ret (Tab (Some (<[Z.to_nat n := e]> es)) (mask t) (used t)) else Undef.
Definition entry_at (n : Z) t : outcome (ENTRY D) := let! es := deref (entries t) in deref (es !! Z.to_nat n).

(** The result and [*retval]: the index of an entry. *)
Definition hsearch_r (mem : bool) (k : list ascii) (d : D) (action : ACTION) t : outcome (Z * option Z * tab D) :=
  let hash := keyhash k in
  let! n := lookup k hash t in
  let! e := entry_at n t in
  if has_key e then Ret (1, Some n, t)
  else match action with
  | FIND => Ret (0, None, t)
  | ENTER =>
      let! t := set_entry n (Entry (Some k) d) t in
      let t := Tab (entries t) (mask t) (u64 (used t + 1)) in
      if mask t - mask t / 4 <? used t then
        let! (r, t) := resize mem (u64 (2 * used t)) t in
        if r =? 0 then
          let t := Tab (entries t) (mask t) (u64 (used t - 1)) in
          let! e := entry_at n t in
          let! t := set_entry n (Entry None (data e)) t in
          Ret (0, None, t)
        else
          let! n := lookup k hash t in
          Ret (1, Some n, t)
      else Ret (1, Some n, t)
  end.
End Code.

(** ** The places of a key *)

Fixpoint tri (c : nat) : Z := match c with O => 0 | S c => tri c + (Z.of_nat c + 1) end.
Lemma tri_double c : 2 * tri c = Z.of_nat c * (Z.of_nat c + 1).
Proof. induction c as [|c IH]; [done|]. cbn [tri]. lia. Qed.

Lemma pow2_factor n (x y : Z) : 0 <= n -> Z.odd x = true -> (2 ^ n | x * y) -> (2 ^ n | y).
Proof.
  intros Hn Ho Hd. apply (Gauss _ x y); [done|]. apply rel_prime_sym, rel_prime_Zpower_r; [done|]. apply rel_prime_sym, prime_rel_prime; [apply prime_2|].
  intros [z ->]. rewrite Z.odd_mul, andb_false_r in Ho. done.
Qed.

(** The first 2^n places are all different. *)
Lemma tri_injective n a b : (a < b)%nat -> Z.of_nat b < 2 ^ Z.of_nat n -> (tri b - tri a) mod 2 ^ Z.of_nat n <> 0.
Proof.
  intros Hab Hb E. apply Z.mod_divide in E; [|lia]. set (x := Z.of_nat a) in *. set (y := Z.of_nat b) in *.
  assert ((2 ^ (Z.of_nat n + 1) | (y - x) * (x + y + 1))) as Hd.
  { destruct E as [z Hz]. exists z. rewrite Z.pow_add_r by lia. pose proof (tri_double a). pose proof (tri_double b). fold x y in H, H0. nia. }
  assert (Z.odd (y - x) = negb (Z.odd (x + y + 1))) as Hpar.
  { rewrite Z.odd_sub, !Z.odd_add. by destruct (Z.odd x), (Z.odd y). }
  assert (2 ^ (Z.of_nat n + 1) = 2 * 2 ^ Z.of_nat n) as Hp by (rewrite Z.pow_add_r by lia; lia).
  destruct (Z.odd (y - x)) eqn:Ho.
  - apply (pow2_factor (Z.of_nat n + 1)) in Hd; [|lia|done]. apply Z.divide_pos_le in Hd; lia.
  - rewrite Z.mul_comm in Hd. apply (pow2_factor (Z.of_nat n + 1)) in Hd; [|lia|by destruct (Z.odd (x + y + 1))]. apply Z.divide_pos_le in Hd; lia.
Qed.

(** The place of the [c]-th attempt in a table of 2^n entries. *)
Definition place (n : nat) (hash : Z) (c : nat) : nat := Z.to_nat ((hash + tri c) mod 2 ^ Z.of_nat n).
Lemma place_lt n hash c : (place n hash c < 2 ^ n)%nat.
Proof. unfold place. pose proof (Z.mod_pos_bound (hash + tri c) (2 ^ Z.of_nat n) ltac:(lia)). apply Nat2Z.inj_lt. rewrite Nat2Z.inj_pow. change (Z.of_nat 2) with 2. lia. Qed.
Lemma place_ne n hash a b : (a < b)%nat -> (b < 2 ^ n)%nat -> place n hash a <> place n hash b.
Proof.
  intros Hab Hb E. apply (tri_injective n a b Hab); [rewrite <- (Nat2Z.inj_pow 2); lia|]. unfold place in E.
  pose proof (Z.mod_pos_bound (hash + tri a) (2 ^ Z.of_nat n) ltac:(lia)). pose proof (Z.mod_pos_bound (hash + tri b) (2 ^ Z.of_nat n) ltac:(lia)).
  replace (tri b - tri a) with ((hash + tri b) - (hash + tri a)) by lia. rewrite Zminus_mod. replace ((hash + tri b) mod _) with ((hash + tri a) mod 2 ^ Z.of_nat n) by lia.
  by rewrite Z.sub_diag.
Qed.
Lemma places_all n hash s : (s < 2 ^ n)%nat -> exists c, (c < 2 ^ n)%nat /\ place n hash c = s.
Proof.
  intros Hs. assert (place n hash <$> seq 0 (2 ^ n) ≡ₚ seq 0 (2 ^ n)) as Hp.
  { apply submseteq_length_Permutation; [|by rewrite length_fmap]. apply NoDup_submseteq.
    - apply NoDup_alt. intros i j x Hi Hj. rewrite !list_lookup_fmap_Some in *. destruct Hi as (a & Ea & Hi), Hj as (b & Eb & Hj). apply lookup_seq in Hi as [-> Hi], Hj as [-> Hj].
      cbn [Nat.add] in *. subst x. destruct (Nat.lt_trichotomy i j) as [Hij|[->|Hij]]; [|done|]; exfalso; by eapply place_ne.
    - intros x Hx. apply list_elem_of_fmap in Hx as (c & -> & _). apply elem_of_seq. pose proof (place_lt n hash c). lia. }
  assert (s ∈ place n hash <$> seq 0 (2 ^ n)) as Hin by (rewrite Hp; apply elem_of_seq; lia).
  apply list_elem_of_fmap in Hin as (c & -> & Hc). exists c. apply elem_of_seq in Hc. split; [lia|done].
Qed.

(** ** The loop *)

Lemma let_ret {A B} (a : A) (f : A -> outcome B) : (let! x := Ret a in f x) = f a.
Proof. done. Qed.

Section Proofs.
Context {D : Type} (null : D).
Implicit Types (es old : list (ENTRY D)) (e : ENTRY D) (t : tab D) (k : list ascii).

Lemma land_place n i : (n <= 64)%nat -> forall hash c, i = u64 (hash + tri c) -> Z.land i (2 ^ Z.of_nat n - 1) = Z.of_nat (place n hash c).
Proof.
  intros Hn hash c ->. unfold place. rewrite Z2Nat.id by (apply Z.mod_pos_bound; lia). replace (2 ^ Z.of_nat n - 1) with (Z.ones (Z.of_nat n)) by (rewrite Z.ones_equiv; lia).
  rewrite Z.land_ones by lia. unfold wrap. replace 64 with (64 - Z.of_nat n + Z.of_nat n) by lia. rewrite Z.pow_add_r by lia.
  rewrite Z.mul_comm, Z.rem_mul_r by lia. rewrite Z.mul_comm, Z.mod_add by lia. by rewrite Z.mod_mod by lia.
Qed.
(** The loop stops at the first place at which it has to. *)
Lemma probe_holds n stop es hash : (n <= 64)%nat -> length es = (2 ^ n)%nat -> forall fuel c c1,
  (c + fuel = 2 ^ n)%nat -> (c <= c1 < 2 ^ n)%nat -> (exists e, es !! place n hash c1 = Some e /\ stop e = true) ->
  exists c2 e, probe_loop fuel stop es (2 ^ Z.of_nat n - 1) (u64 (hash + tri c)) (u64 (Z.of_nat c + 1)) = Ret (Z.of_nat (place n hash c2)) /\
    (c <= c2 < 2 ^ n)%nat /\ es !! place n hash c2 = Some e /\ stop e = true /\ (forall c', (c <= c' < c2)%nat -> exists e', es !! place n hash c' = Some e' /\ stop e' = false).
Proof.
  intros Hn Hl. induction fuel as [|fuel IH]; intros c c1 Hf Hc (e1 & He1 & Hs1); [lia|]. cbn [probe_loop].
  rewrite (land_place n _ Hn hash c eq_refl).
  destruct (lookup_lt_is_Some_2 es (place n hash c)) as [e He]; [rewrite Hl; apply place_lt|]. rewrite Nat2Z.id, He. cbn [deref].
  rewrite let_ret. destruct (stop e) eqn:Es; [exists c, e; split_and!; try done; lia|].
  assert (c <> c1) as Hne by (intros ->; congruence).
  destruct (IH (S c) c1) as (c2 & e2 & E2 & Hc2 & He2 & Hs2 & Hb2); [lia|lia|by exists e1|]. exists c2, e2.
  assert (u64 (u64 (hash + tri c) + u64 (Z.of_nat c + 1)) = u64 (hash + tri (S c)) /\ u64 (u64 (Z.of_nat c + 1) + 1) = u64 (Z.of_nat (S c) + 1)) as [-> ->].
  { unfold wrap. rewrite Zplus_mod_idemp_l, Zplus_mod_idemp_r, Zplus_mod_idemp_l. cbn [tri]. split; f_equal; lia. }
  split_and!; try done; try lia. intros c' Hc'. destruct (decide (c' = c)) as [->|]; [by exists e|]. apply Hb2. lia.
Qed.

(** ** The entries with a key *)

Definition pair_of e : option (list ascii * D) := match key e with Some k => Some (k, data e) | None => None end.
Definition pairs es : list (list ascii * D) := omap pair_of es.

Lemma pairs_insert es s e e0 k : es !! s = Some e0 -> key e0 = None -> key e = Some k -> pairs (<[s := e]> es) ≡ₚ (k, data e) :: pairs es.
Proof.
  intros Hs H0 Hk. rewrite insert_take_drop by by apply lookup_lt_Some in Hs. rewrite <- (take_drop_middle es s e0 Hs) at 3. unfold pairs. rewrite !omap_app.
  assert (pair_of e0 = None /\ pair_of e = Some (k, data e)) as [E0 E1] by (unfold pair_of; by rewrite H0, Hk). cbn. rewrite E0, E1. by rewrite <- Permutation_middle.
Qed.
Lemma pairs_elem es k d : (k, d) ∈ pairs es <-> exists s, es !! s = Some (Entry (Some k) d).
Proof.
  unfold pairs. rewrite list_elem_of_omap. split.
  - intros (e & Hin & He). apply list_elem_of_lookup in Hin as [s Hs]. exists s. rewrite Hs. destruct e as [[k'|] d']; [|done]. cbn in He. by injection He as -> ->.
  - intros [s Hs]. exists (Entry (Some k) d). split; [by eapply list_elem_of_lookup_2|done].
Qed.
Lemma pairs_length es : (length (pairs es) <= length es)%nat.
Proof. unfold pairs. induction es as [|e es IH]; cbn; [lia|]. destruct (pair_of e); cbn; lia. Qed.
Lemma pairs_gap es : (length (pairs es) < length es)%nat -> exists s e, es !! s = Some e /\ has_key e = false.
Proof.
  induction es as [|e es IH]; cbn; [lia|]. unfold pair_of at 1. destruct (key e) as [k|] eqn:Ek; cbn; intros Hl; [|exists O, e; unfold has_key; by rewrite Ek].
  destruct IH as (s & e' & H1 & H2); [unfold pairs in *; lia|]. by exists (S s), e'.
Qed.
Lemma pairs_replicate n : pairs (replicate n (Entry None null)) = [].
Proof. by induction n. Qed.

(** Every key is found at a place before which there is no gap. *)
Definition placed (n : nat) es : Prop := forall s k d, es !! s = Some (Entry (Some k) d) ->
  exists c, s = place n (keyhash k) c /\ forall c', (c' < c)%nat -> exists e, es !! place n (keyhash k) c' = Some e /\ has_key e = true.
Record good (n : nat) es : Prop := Good {
  g_size : (3 <= n <= 59)%nat; g_length : length es = (2 ^ n)%nat; g_nodup : NoDup (pairs es).*1; g_placed : placed n es }.

Lemma keyhash_range k : 0 <= keyhash k < 2 ^ 64.
Proof.
  unfold keyhash. assert (forall h, 0 <= h < 2 ^ 64 -> 0 <= fold_left (fun h c => u64 (31 * h + Z_of_byte c)) k h < 2 ^ 64) as H; [|by apply H].
  induction k as [|c k IH]; intros h Hh; cbn; [done|]. apply IH. by apply wrap_range.
Qed.
(** A search from the hash of a key, in a table with a gap. *)
Lemma probe_good n es k stop : good n es -> (length (pairs es) < length es)%nat -> (forall e, has_key e = false -> stop e = true) ->
  exists c e, probe_loop (length es) stop es (2 ^ Z.of_nat n - 1) (keyhash k) 1 = Ret (Z.of_nat (place n (keyhash k) c)) /\
    es !! place n (keyhash k) c = Some e /\ stop e = true /\ forall c', (c' < c)%nat -> exists e', es !! place n (keyhash k) c' = Some e' /\ stop e' = false.
Proof.
  intros [Hn Hl Hnd Hp] Hg Hs. destruct (pairs_gap es Hg) as (s & e & He & Hk). pose proof (lookup_lt_Some _ _ _ He) as Hlt. rewrite Hl in Hlt.
  destruct (places_all n (keyhash k) s Hlt) as (c1 & Hc1 & <-).
  destruct (probe_holds n stop es (keyhash k) ltac:(lia) Hl (2 ^ n) 0 c1) as (c & e' & E & Hc & He' & Hs' & Hb); [lia|lia|exists e; auto|].
  exists c, e'. rewrite Hl. change (tri 0) with 0 in E. rewrite Z.add_0_r, (wrap_small 64 (keyhash k)) in E by apply keyhash_range. split_and!; try done. intros c' Hc'. apply Hb. lia.
Qed.

(** A new key at the first gap. *)
Lemma insert_good n es k d c e0 : good n es -> k ∉ (pairs es).*1 -> es !! place n (keyhash k) c = Some e0 -> has_key e0 = false ->
  (forall c', (c' < c)%nat -> exists e', es !! place n (keyhash k) c' = Some e' /\ has_key e' = true) ->
  good n (<[place n (keyhash k) c := Entry (Some k) d]> es) /\ pairs (<[place n (keyhash k) c := Entry (Some k) d]> es) ≡ₚ (k, d) :: pairs es.
Proof.
  intros [Hn Hl Hnd Hp] Hk He0 Hk0 Hb. set (s := place n (keyhash k) c) in *.
  assert (key e0 = None) as Hk0' by (unfold has_key in Hk0; by destruct (key e0)).
  pose proof (pairs_insert es s (Entry (Some k) d) e0 k He0 Hk0' eq_refl) as Hpp. split; [|done]. split; [done|by rewrite length_insert|rewrite Hpp; by apply NoDup_cons|].
  assert (forall s' e', es !! s' = Some e' -> has_key e' = true -> exists e, <[s := Entry (Some k) d]> es !! s' = Some e /\ has_key e = true) as Hmono.
  { intros s' e' He' Hk'. exists e'. split; [|done]. rewrite list_lookup_insert_ne; [done|]. intros <-. congruence. }
  intros s' k' d' Hs'. destruct (decide (s' = s)) as [->|Hne].
  - rewrite list_lookup_insert_eq in Hs' by by apply lookup_lt_Some in He0. injection Hs' as <- <-. exists c. split; [done|]. intros c' Hc'. destruct (Hb c' Hc') as (e' & H1 & H2). by apply (Hmono _ e').
  - rewrite list_lookup_insert_ne in Hs' by done. destruct (Hp _ _ _ Hs') as (c1 & -> & Hc1). exists c1. split; [done|]. intros c' Hc'. destruct (Hc1 c' Hc') as (e' & H1 & H2). by apply (Hmono _ e').
Qed.

Lemma key_is_spec k e : key_is k e = true <-> key e = Some k.
Proof. unfold key_is. destruct (key e) as [k'|]; [rewrite bool_decide_eq_true; split; [by intros ->|by intros [= ->]]|done]. Qed.
Lemma unique_place n es k s s' d d' : good n es -> es !! s = Some (Entry (Some k) d) -> es !! s' = Some (Entry (Some k) d') -> s = s'.
Proof.
  intros [_ _ Hnd _] Hs Hs'. unfold pairs in Hnd. clear -Hnd Hs Hs'. revert s s' Hs Hs'. induction es as [|e es IH]; intros s s' Hs Hs'; [done|].
  assert (forall x dx, es !! x = Some (Entry (Some k) dx) -> k ∈ (omap pair_of es).*1) as Hin.
  { intros x dx Hx. apply list_elem_of_fmap. exists (k, dx). split; [done|]. apply pairs_elem. by exists x. }
  destruct s as [|s], s' as [|s']; [done| | |]; cbn in Hs, Hs'.
  - injection Hs as ->. cbn in Hnd. apply NoDup_cons in Hnd as [Hnd _]. by apply Hin in Hs'.
  - injection Hs' as ->. cbn in Hnd. apply NoDup_cons in Hnd as [Hnd _]. by apply Hin in Hs.
  - f_equal. apply IH; [|done|done]. cbn in Hnd. destruct (pair_of e); [by apply NoDup_cons in Hnd as [_ Hnd]|done].
Qed.

Lemma lookup_present n es k d u : good n es -> (length (pairs es) < length es)%nat -> (k, d) ∈ pairs es ->
  exists s, lookup k (keyhash k) (Tab (Some es) (2 ^ Z.of_nat n - 1) u) = Ret (Z.of_nat s) /\ es !! s = Some (Entry (Some k) d).
Proof.
  intros Hg Hl Hin. apply pairs_elem in Hin as [s Hs]. destruct (g_placed _ _ Hg _ _ _ Hs) as (c0 & -> & Hc0).
  destruct (probe_good n es k (fun e => negb (has_key e) || key_is k e) Hg Hl) as (c & e & E & He & Hst & Hb); [by intros e ->|].
  unfold lookup. cbn [entries mask deref]. rewrite let_ret, E. exists (place n (keyhash k) c). split; [done|].
  assert (key_is k e = true) as Hk.
  { apply orb_true_iff in Hst as [Hst|]; [|done]. apply negb_true_iff in Hst. destruct (Nat.lt_trichotomy c c0) as [Hlt|[->|Hlt]].
    - destruct (Hc0 c Hlt) as (e' & He' & Hk'). congruence.
    - rewrite Hs in He. injection He as <-. done.
    - destruct (Hb c0 Hlt) as (e' & He' & Hk'). rewrite Hs in He'. injection He' as <-. unfold key_is in Hk'. cbn in Hk'. rewrite bool_decide_true in Hk' by done. done. }
  apply key_is_spec in Hk. destruct e as [k' d']. cbn in Hk. subst k'. rewrite He. pose proof (unique_place _ _ _ _ _ _ _ Hg Hs He) as Hss. rewrite <- Hss, Hs in He. congruence.
Qed.
Lemma lookup_absent n es k u : good n es -> (length (pairs es) < length es)%nat -> k ∉ (pairs es).*1 ->
  exists c e, lookup k (keyhash k) (Tab (Some es) (2 ^ Z.of_nat n - 1) u) = Ret (Z.of_nat (place n (keyhash k) c)) /\ es !! place n (keyhash k) c = Some e /\ has_key e = false /\
    forall c', (c' < c)%nat -> exists e', es !! place n (keyhash k) c' = Some e' /\ has_key e' = true.
Proof.
  intros Hg Hl Hin. destruct (probe_good n es k (fun e => negb (has_key e) || key_is k e) Hg Hl) as (c & e & E & He & Hst & Hb); [by intros e ->|].
  unfold lookup. cbn [entries mask deref]. rewrite let_ret, E. exists c, e. split_and!; try done.
  - destruct (has_key e) eqn:Hk; [|done]. cbn in Hst. apply key_is_spec in Hst. destruct e as [k' d']. cbn in Hst. subst k'. destruct Hin. apply list_elem_of_fmap. exists (k, d'). split; [done|].
    apply pairs_elem. by eexists.
  - intros c' Hc'. destruct (Hb c' Hc') as (e' & He' & Hk'). exists e'. split; [done|]. apply orb_false_iff in Hk' as [Hk' _]. by apply negb_false_iff in Hk'.
Qed.

Lemma newsize_holds nel : nel <= 2 ^ 63 -> forall fuel n, (3 <= n)%nat -> (63 <= n + fuel)%nat -> (n <= 63)%nat ->
  exists n', newsize_loop fuel (2 ^ Z.of_nat n) nel = Ret (2 ^ Z.of_nat n') /\ (n <= n' <= 63)%nat /\ nel <= 2 ^ Z.of_nat n' /\ ((n < n')%nat -> 2 ^ (Z.of_nat n' - 1) < nel).
Proof.
  intros Hnel. induction fuel as [|fuel IH]; intros n H3 Hf Hn; cbn [newsize_loop].
  - assert (n = 63%nat) as -> by lia. rewrite (proj2 (Z.ltb_ge _ _)) by done. exists 63%nat. split_and!; try done; lia.
  - destruct (Z.ltb_spec (2 ^ Z.of_nat n) nel) as [Hlt|Hge]; [|exists n; split_and!; try done; lia].
    assert (n < 63)%nat as Hn63 by (destruct (decide (n = 63%nat)) as [->|]; [change (2 ^ Z.of_nat 63) with (2 ^ 63) in Hlt; lia|lia]).
    destruct (IH (S n)) as (n' & E & Hn' & Hle & Hmin); [lia|lia|lia|]. exists n'. assert (2 ^ Z.of_nat n * 2 = 2 ^ Z.of_nat (S n)) as E2 by (rewrite Nat2Z.inj_succ, Z.pow_succ_r by lia; lia).
    rewrite E2, wrap_small; [|split; [lia|apply Z.pow_lt_mono_r; lia]]. split_and!; try done; try lia. intros _. destruct (decide (S n < n')%nat) as [|Heq]; [by apply Hmin|].
    replace (Z.of_nat n' - 1) with (Z.of_nat n) by lia. done.
Qed.

Lemma rehash_good n old : forall es, good n es -> NoDup (pairs old ++ pairs es).*1 -> (length (pairs old) + length (pairs es) < length es)%nat ->
  exists es', rehash old es (2 ^ Z.of_nat n - 1) = Ret es' /\ good n es' /\ pairs es' ≡ₚ pairs old ++ pairs es.
Proof.
  induction old as [|e old IH]; intros es Hg Hnd Hl; [by exists es|]. cbn [rehash]. unfold pairs in Hnd, Hl |- *. cbn [omap list_omap] in *. unfold pair_of in Hnd at 1, Hl at 1 |- * at 2.
  destruct (key e) as [k|] eqn:Ek; [|by apply IH]. cbn [app length] in *. fold (pairs old) (pairs es) in *. rewrite fmap_cons in Hnd. cbn [fst] in Hnd. apply NoDup_cons in Hnd as [Hk Hnd].
  destruct (probe_good n es k (fun e => negb (has_key e)) Hg ltac:(lia)) as (c & e0 & E & He0 & Hs & Hb); [by intros e0 ->|]. rewrite E, let_ret, Nat2Z.id.
  destruct (insert_good n es k (data e) c e0 Hg) as [Hg' Hp'].
  { rewrite fmap_app, elem_of_app in Hk. tauto. } { done. } { by apply negb_true_iff in Hs. } { intros c' Hc'. destruct (Hb c' Hc') as (e' & H1 & H2). exists e'. apply negb_false_iff in H2. done. }
  replace (Entry (Some k) (data e)) with e in Hg', Hp' by (destruct e; cbn in Ek; by subst).
  destruct (IH (<[place n (keyhash k) c := e]> es) Hg') as (es' & Er & Hg'' & Hp'').
  { rewrite Hp', <- Permutation_middle. rewrite fmap_cons. by apply NoDup_cons. } { rewrite Hp', length_insert. cbn [length]. lia. }
  exists es'. split; [done|]. split; [done|]. fold (pairs es'). rewrite Hp'', Hp'. by rewrite <- Permutation_middle.
Qed.

(** The size that is chosen, if the memory for it can be asked for. *)
Lemma size_holds mem nel : 0 <= nel -> exists n, newsize_loop 64 MINSIZE (if MAXSIZE <? nel then MAXSIZE else nel) = Ret (2 ^ Z.of_nat n) /\
  (if calloc mem (2 ^ Z.of_nat n) sizeof_ENTRY then mem = true /\ (3 <= n <= 59)%nat /\ nel <= 2 ^ Z.of_nat n else mem = false \/ 2 ^ 59 < nel).
Proof.
  intros Hnel. set (nel' := if MAXSIZE <? nel then MAXSIZE else nel).
  assert (nel' <= 2 ^ 63 /\ nel' <= nel /\ (nel' = 2 ^ 63 \/ nel' = nel)) as (H1 & H2 & H3) by (unfold nel'; change MAXSIZE with (2 ^ 63); destruct (Z.ltb_spec (2 ^ 63) nel); lia).
  destruct (newsize_holds nel' H1 64 3) as (n & E & Hn & Hle & Hmin); [lia|lia|lia|]. exists n. split; [done|]. unfold calloc.
  change ((2 ^ 64 - 1) / sizeof_ENTRY) with (2 ^ 60 - 1). change (negb (sizeof_ENTRY =? 0)) with true. cbn [andb].
  destruct (Z.ltb_spec (2 ^ 60 - 1) (2 ^ Z.of_nat n)) as [Hlt|Hge].
  - right. assert (60 <= n)%nat as H60 by (destruct (decide (60 <= n)%nat); [done|]; pose proof (Z.pow_le_mono_r 2 (Z.of_nat n) 59 ltac:(lia) ltac:(lia)); lia).
    specialize (Hmin ltac:(lia)). pose proof (Z.pow_le_mono_r 2 59 (Z.of_nat n - 1) ltac:(lia) ltac:(lia)). lia.
  - destruct mem; [|by left]. assert (n <= 59)%nat as H59 by (destruct (decide (n <= 59)%nat); [done|]; pose proof (Z.pow_le_mono_r 2 60 (Z.of_nat n) ltac:(lia) ltac:(lia)); lia).
    split; [done|]. split; [lia|]. destruct H3 as [H3| ->]; [|done]. pose proof (Z.pow_le_mono_r 2 (Z.of_nat n) 59 ltac:(lia) ltac:(lia)). lia.
Qed.

Lemma empty_good n : (3 <= n <= 59)%nat -> good n (replicate (Z.to_nat (2 ^ Z.of_nat n)) (Entry None null)).
Proof.
  intros Hn. split; [done| | |].
  - rewrite length_replicate. change 2 with (Z.of_nat 2). by rewrite <- Nat2Z.inj_pow, Nat2Z.id.
  - rewrite pairs_replicate. apply NoDup_nil_2.
  - intros s k d Hs. apply lookup_replicate in Hs as [Hs _]. done.
Qed.

Lemma grow_holds mem nel n es u : good n es -> 0 <= nel -> 2 * Z.of_nat (length (pairs es)) <= nel -> 0 < nel ->
  let t := Tab (Some es) (2 ^ Z.of_nat n - 1) u in
  (resize null mem nel t = Ret (0, t) /\ (mem = false \/ 2 ^ 59 < nel)) \/
  (exists n' es', resize null mem nel t = Ret (1, Tab (Some es') (2 ^ Z.of_nat n' - 1) u) /\ good n' es' /\ pairs es' ≡ₚ pairs es /\ nel <= 2 ^ Z.of_nat n').
Proof.
  intros Hg Hnel Hlen Hpos t. unfold resize. destruct (size_holds mem nel Hnel) as (n' & E & Hc). rewrite E, let_ret.
  destruct (calloc mem (2 ^ Z.of_nat n') sizeof_ENTRY); cbn [negb]; [|by left]. destruct Hc as (_ & Hn' & Hle). right. exists n'. cbn [t entries mask used].
  pose proof (g_length _ _ Hg) as Hl. assert (Z.of_nat (length es) = 2 ^ Z.of_nat n) as HlZ by (rewrite Hl, (Nat2Z.inj_pow 2); done).
  rewrite (proj2 (Z.ltb_ge _ _)) by lia. rewrite take_ge by lia. pose proof (empty_good n' Hn') as Hge. set (newe := replicate _ _) in *.
  assert (Z.of_nat (length newe) = 2 ^ Z.of_nat n') as HlN by (unfold newe; rewrite length_replicate; lia).
  destruct (rehash_good n' es newe Hge) as (es' & Er & Hg' & Hp').
  - unfold newe. rewrite pairs_replicate, app_nil_r. apply g_nodup with (1 := Hg).
  - unfold newe at 1. rewrite pairs_replicate. cbn [length]. lia.
  - rewrite Er, let_ret. exists es'. split_and!; try done. rewrite Hp'. unfold newe. by rewrite pairs_replicate, app_nil_r.
Qed.

(** ** The table is a map *)

(** A table of the map [m], at most three quarters of which are in use. *)
Definition is_table t (m : gmap (list ascii) D) : Prop := exists n es,
  t = Tab (Some es) (2 ^ Z.of_nat n - 1) (Z.of_nat (length (pairs es))) /\ good n es /\ used t <= mask t - mask t / 4 /\ m = list_to_map (pairs es).

Lemma table_gap n es : good n es -> Z.of_nat (length (pairs es)) <= (2 ^ Z.of_nat n - 1) - (2 ^ Z.of_nat n - 1) / 4 ->
  (length (pairs es) < length es)%nat /\ Z.of_nat (length es) = 2 ^ Z.of_nat n /\ 8 <= 2 ^ Z.of_nat n <= 2 ^ 59.
Proof.
  intros [Hn Hl _ _] Hu. assert (Z.of_nat (length es) = 2 ^ Z.of_nat n) as HlZ by (rewrite Hl, (Nat2Z.inj_pow 2); done).
  assert (0 <= (2 ^ Z.of_nat n - 1) / 4) by (apply Z.div_pos; lia). pose proof (Z.pow_le_mono_r 2 3 (Z.of_nat n) ltac:(lia) ltac:(lia)). pose proof (Z.pow_le_mono_r 2 (Z.of_nat n) 59 ltac:(lia) ltac:(lia)). lia.
Qed.
Lemma map_some es k d : NoDup (pairs es).*1 -> (list_to_map (pairs es) : gmap (list ascii) D) !! k = Some d <-> (k, d) ∈ pairs es.
Proof. intros H. symmetry. by apply elem_of_list_to_map. Qed.
Lemma table_size es : NoDup (pairs es).*1 -> size (list_to_map (pairs es) : gmap (list ascii) D) = length (pairs es).
Proof. intros H. rewrite <- length_map_to_list. by rewrite map_to_list_to_map. Qed.

Lemma entry_at_some es ms u s e : es !! s = Some e -> entry_at (Z.of_nat s) (Tab (Some es) ms u) = Ret e.
Proof. intros H. unfold entry_at. cbn [entries deref]. rewrite let_ret, Nat2Z.id, H. done. Qed.
Lemma set_entry_some es ms u s e e0 : es !! s = Some e0 -> set_entry (Z.of_nat s) e (Tab (Some es) ms u) = Ret (Tab (Some (<[s := e]> es)) ms u).
Proof. intros H. unfold set_entry. cbn [entries deref mask used]. rewrite let_ret, Nat2Z.id, bool_decide_true; [done|]. by apply lookup_lt_Some in H. Qed.

(** A key that is there is found, by both actions. *)
Lemma search_found mem k d action t m d0 : is_table t m -> m !! k = Some d0 ->
  exists s, hsearch_r null mem k d action t = Ret (1, Some s, t) /\ entry_at s t = Ret (Entry (Some k) d0).
Proof.
  intros (n & es & -> & Hg & Hu & ->) Hm. cbn [mask used] in Hu. destruct (table_gap n es Hg Hu) as [Hgap _]. apply map_some in Hm; [|apply g_nodup with (1 := Hg)].
  destruct (lookup_present n es k d0 (Z.of_nat (length (pairs es))) Hg Hgap Hm) as (s & E & Hs). exists (Z.of_nat s). unfold hsearch_r.
  pose proof (entry_at_some _ (2 ^ Z.of_nat n - 1) (Z.of_nat (length (pairs es))) _ _ Hs) as He. rewrite E, let_ret, He, let_ret. done.
Qed.

(** A key that is not there. *)
Lemma absent_key t m k : is_table t m -> m !! k = None -> exists n es c e,
  t = Tab (Some es) (2 ^ Z.of_nat n - 1) (Z.of_nat (length (pairs es))) /\ good n es /\ used t <= mask t - mask t / 4 /\ m = list_to_map (pairs es) /\ k ∉ (pairs es).*1 /\
  lookup k (keyhash k) t = Ret (Z.of_nat (place n (keyhash k) c)) /\ es !! place n (keyhash k) c = Some e /\ has_key e = false /\
  forall c', (c' < c)%nat -> exists e', es !! place n (keyhash k) c' = Some e' /\ has_key e' = true.
Proof.
  intros (n & es & -> & Hg & Hu & ->) Hm. cbn [mask used] in Hu. destruct (table_gap n es Hg Hu) as [Hgap _].
  apply not_elem_of_list_to_map in Hm. destruct (lookup_absent n es k (Z.of_nat (length (pairs es))) Hg Hgap Hm) as (c & e & E & He & Hk & Hb). by exists n, es, c, e.
Qed.
Lemma find_missing mem k d t m : is_table t m -> m !! k = None -> hsearch_r null mem k d FIND t = Ret (0, None, t).
Proof.
  intros Ht Hm. destruct (absent_key t m k Ht Hm) as (n & es & c & e & -> & Hg & Hu & -> & Hk & E & He & Hke & _). unfold hsearch_r.
  rewrite E, let_ret, (entry_at_some _ _ _ _ _ He), let_ret, Hke. done.
Qed.

(** The data of an entry without a key do not matter. *)
Lemma keyless_good n es s e0 d : good n es -> es !! s = Some e0 -> has_key e0 = false ->
  good n (<[s := Entry None d]> es) /\ pairs (<[s := Entry None d]> es) = pairs es.
Proof.
  intros [Hn Hl Hnd Hp] Hs Hk.
  assert (pairs (<[s := Entry None d]> es) = pairs es) as Hpp.
  { rewrite insert_take_drop by by apply lookup_lt_Some in Hs. rewrite <- (take_drop_middle es s e0 Hs) at 3. unfold pairs. rewrite !omap_app.
    assert (pair_of e0 = None) as E0 by (unfold has_key in Hk; unfold pair_of; by destruct (key e0)). cbn. by rewrite E0. }
  split; [|done]. split; [done|by rewrite length_insert|by rewrite Hpp|].
  intros s' k' d' Hs'. destruct (decide (s' = s)) as [->|Hne]; [rewrite list_lookup_insert_eq in Hs' by (by apply lookup_lt_Some in Hs); done|].
  rewrite list_lookup_insert_ne in Hs' by done. destruct (Hp _ _ _ Hs') as (c1 & -> & Hc1). exists c1. split; [done|]. intros c' Hc'. destruct (Hc1 c' Hc') as (e' & H1 & H2).
  exists e'. split; [|done]. rewrite list_lookup_insert_ne; [done|]. intros ->. congruence.
Qed.
Lemma insert_map es es' k d : NoDup (pairs es).*1 -> k ∉ (pairs es).*1 -> pairs es' ≡ₚ (k, d) :: pairs es ->
  (list_to_map (pairs es') : gmap (list ascii) D) = <[k := d]> (list_to_map (pairs es)).
Proof.
  intros Hnd Hk Hp. rewrite (list_to_map_proper (pairs es') ((k, d) :: pairs es)); [done| |done]. rewrite Hp. by apply NoDup_cons.
Qed.

Lemma enter_missing mem k d t m : is_table t m -> m !! k = None ->
  (exists s t', hsearch_r null mem k d ENTER t = Ret (1, Some s, t') /\ is_table t' (<[k := d]> m) /\ entry_at s t' = Ret (Entry (Some k) d)) \/
  (exists t', hsearch_r null mem k d ENTER t = Ret (0, None, t') /\ is_table t' m /\ (mem = false \/ 2 ^ 58 <= Z.of_nat (size m))).
Proof.
  intros Ht Hm. destruct (absent_key t m k Ht Hm) as (n & es & c & e & -> & Hg & Hu & -> & Hk & E & He & Hke & Hb). cbn [mask used] in Hu. unfold hsearch_r.
  destruct (table_gap n es Hg Hu) as (Hgap & HlZ & Hsz). pose proof (g_nodup _ _ Hg) as Hnd.
  rewrite E, let_ret, (entry_at_some _ _ _ _ _ He), let_ret, Hke, (set_entry_some _ _ _ _ _ _ He), let_ret. cbn [mask used entries].
  destruct (insert_good n es k d c e Hg Hk He Hke Hb) as [Hg' Hp']. set (s := place n (keyhash k) c) in *. set (es' := <[s := Entry (Some k) d]> es) in *.
  assert (es' !! s = Some (Entry (Some k) d)) as Hs' by (apply list_lookup_insert_eq; by apply lookup_lt_Some in He).
  assert (length (pairs es') = S (length (pairs es))) as Hlp by by rewrite Hp'. rewrite wrap_small by lia.
  replace (Z.of_nat (length (pairs es)) + 1) with (Z.of_nat (length (pairs es'))) by lia. set (ms := 2 ^ Z.of_nat n - 1) in *.
  destruct (Z.ltb_spec (ms - ms / 4) (Z.of_nat (length (pairs es')))) as [Hlt|Hge].
  - rewrite wrap_small by lia. destruct (grow_holds mem (2 * Z.of_nat (length (pairs es'))) n es' (Z.of_nat (length (pairs es'))) Hg') as [[Er Hmem]|(n2 & es2 & Er & Hg2 & Hp2 & Hle)]; [lia|lia|lia| |].
    + right. fold ms in Er. rewrite Er, let_ret. cbn [Z.eqb entries mask used]. rewrite (entry_at_some _ _ _ _ _ Hs'), let_ret, (set_entry_some _ _ _ _ _ _ Hs'), let_ret. cbn [data].
      eexists. split; [done|]. assert (<[s := Entry None d]> es' = <[s := Entry None d]> es) as -> by apply list_insert_insert_eq. destruct (keyless_good n es s e d Hg He Hke) as [Hg3 Hp3]. split.
      * exists n, (<[s := Entry None d]> es). rewrite Hp3. cbn [mask used]. rewrite wrap_small by lia. fold ms. replace (Z.of_nat (length (pairs es')) - 1) with (Z.of_nat (length (pairs es))) by lia.
        split_and!; try done.
      * rewrite table_size by done. destruct Hmem as [Hmem|Hmem]; [by left|right]. lia.
    + left. fold ms in Er. rewrite Er, let_ret. cbn [Z.eqb Pos.eqb]. 
      assert (Z.of_nat (length (pairs es2)) <= 2 ^ Z.of_nat n2 - 1 - (2 ^ Z.of_nat n2 - 1) / 4) as Hu2.
      { replace (length (pairs es2)) with (length (pairs es')) by by rewrite Hp2. pose proof (Z.div_mod (2 ^ Z.of_nat n2 - 1) 4 ltac:(lia)). pose proof (Z.mod_pos_bound (2 ^ Z.of_nat n2 - 1) 4 ltac:(lia)). lia. }
      destruct (table_gap n2 es2 Hg2 Hu2) as (Hgap2 & _).
      destruct (lookup_present n2 es2 k d (Z.of_nat (length (pairs es'))) Hg2 Hgap2) as (s2 & El & Hs2); [rewrite Hp2, Hp'; apply elem_of_cons; by left|].
      rewrite El, let_ret. eexists _, _. split; [done|]. split; [|by apply entry_at_some].
      exists n2, es2. cbn [mask used]. assert (length (pairs es2) = length (pairs es')) as Hl2 by by rewrite Hp2. rewrite Hl2 in Hu2 |- *. split_and!; try done. symmetry. apply insert_map; try done. by rewrite Hp2.
  - left. eexists _, _. split; [done|]. split; [|by apply entry_at_some]. exists n, es'. cbn [mask used]. split_and!; try done. symmetry. by apply insert_map.
Qed.

Lemma hcreate_holds mem1 mem2 nel : 0 <= nel ->
  (hcreate_r null mem1 mem2 nel = Ret (0, None) /\ (mem1 = false \/ mem2 = false \/ 2 ^ 59 < nel)) \/
  (exists t, hcreate_r null mem1 mem2 nel = Ret (1, Some t) /\ is_table t ∅).
Proof.
  intros Hnel. unfold hcreate_r. destruct mem1; cbn [negb]; [|by left; auto]. unfold resize. destruct (size_holds mem2 nel Hnel) as (n & E & Hc). rewrite E, let_ret.
  destruct (calloc mem2 (2 ^ Z.of_nat n) sizeof_ENTRY); cbn [negb]; [|left; split; [done|tauto]]. destruct Hc as (_ & Hn & Hle). right. eexists. split; [done|].
  exists n, (replicate (Z.to_nat (2 ^ Z.of_nat n)) (Entry None null)). rewrite pairs_replicate. cbn [length used mask]. split_and!; try done; [by apply empty_good|].
  pose proof (Z.div_mod (2 ^ Z.of_nat n - 1) 4 ltac:(lia)). pose proof (Z.mod_pos_bound (2 ^ Z.of_nat n - 1) 4 ltac:(lia)). pose proof (Z.pow_le_mono_r 2 3 (Z.of_nat n) ltac:(lia) ltac:(lia)). cbn in *. lia.
Qed.

(** A call: whether there is memory for a larger table, the key, the data and the action. *)
Record hcall := Call { c_mem : bool; c_key : list ascii; c_data : D; c_action : ACTION }.
(** The data of the entry that is returned. *)
Definition run_call (c : hcall) t : outcome (option D * tab D) :=
  let! (r, ret, t) := hsearch_r null (c_mem c) (c_key c) (c_data c) (c_action c) t in
  match ret with
  | Some n => let! e := entry_at n t in Ret (Some (data e), t)
  | None => Ret (None, t)
  end.
Fixpoint run_calls (cs : list hcall) t : outcome (list (option D) * tab D) :=
  match cs with
  | [] => Ret ([], t)
  | c :: cs => let! (r, t) := run_call c t in let! (rs, t) := run_calls cs t in Ret (r :: rs, t)
  end.

(** What a call may do to a map. *)
Inductive map_call (m : gmap (list ascii) D) (c : hcall) : option D -> gmap (list ascii) D -> Prop :=
  | call_found d : m !! c_key c = Some d -> map_call m c (Some d) m
  | call_missing : m !! c_key c = None -> c_action c = FIND -> map_call m c None m
  | call_entered : m !! c_key c = None -> c_action c = ENTER -> map_call m c (Some (c_data c)) (<[c_key c := c_data c]> m)
  | call_no_memory : m !! c_key c = None -> c_action c = ENTER -> c_mem c = false \/ 2 ^ 58 <= Z.of_nat (size m) -> map_call m c None m.
Inductive map_calls : gmap (list ascii) D -> list hcall -> list (option D) -> gmap (list ascii) D -> Prop :=
  | calls_none m : map_calls m [] [] m
  | calls_cons m c r m1 cs rs m' : map_call m c r m1 -> map_calls m1 cs rs m' -> map_calls m (c :: cs) (r :: rs) m'.

Lemma run_call_holds c t m : is_table t m -> exists r t' m', run_call c t = Ret (r, t') /\ map_call m c r m' /\ is_table t' m'.
Proof.
  intros Ht. destruct c as [mem k d action]. unfold run_call. cbn [c_mem c_key c_data c_action]. destruct (m !! k) as [d0|] eqn:Hm.
  - destruct (search_found mem k d action t m d0 Ht Hm) as (s & E & Es). rewrite E, let_ret, Es. eexists _, t, m. split; [done|]. split; [by constructor|done].
  - destruct action.
    + rewrite (find_missing mem k d t m Ht Hm), let_ret. eexists _, t, m. split; [done|]. split; [by apply call_missing|done].
    + destruct (enter_missing mem k d t m Ht Hm) as [(s & t' & E & Ht' & Es)|(t' & E & Ht' & Hmem)]; rewrite E, let_ret.
      * rewrite Es. eexists _, t', _. split; [done|]. split; [|done]. by apply call_entered.
      * eexists _, t', _. split; [done|]. split; [|done]. by apply call_no_memory.
Qed.
Lemma run_calls_holds cs t m : is_table t m -> exists rs t' m', run_calls cs t = Ret (rs, t') /\ map_calls m cs rs m' /\ is_table t' m'.
Proof.
  revert t m. induction cs as [|c cs IH]; intros t m Ht; [eexists _, t, m; split; [done|]; split; [constructor|done]|].
  destruct (run_call_holds c t m Ht) as (r & t1 & m1 & E1 & Hc & Ht1). destruct (IH t1 m1 Ht1) as (rs & t' & m' & E2 & Hcs & Ht'). cbn [run_calls].
  rewrite E1, let_ret, E2. eexists _, t', m'. split; [done|]. split; [by econstructor|done].
Qed.

(** C8: [hcreate] makes an empty table or says that there is no memory.  From then on
    every sequence of calls of [hsearch] returns: the search for a place always ends,
    although it has no bound.  The entries that are returned are those of a map: the one
    that was entered first for the key, or the new one.  [ENTER] fails only where there
    is no memory for a larger table, and the table then holds the map it held before. *)
Theorem hash_table_refines_map mem1 mem2 nel cs : 0 <= nel ->
  (hcreate_r null mem1 mem2 nel = Ret (0, None) /\ (mem1 = false \/ mem2 = false \/ 2 ^ 59 < nel)) \/
  (exists t rs t' m', hcreate_r null mem1 mem2 nel = Ret (1, Some t) /\ run_calls cs t = Ret (rs, t') /\ map_calls ∅ cs rs m' /\ is_table t' m').
Proof.
  intros Hnel. destruct (hcreate_holds mem1 mem2 nel Hnel) as [H|(t & E & Ht)]; [by left|right].
  destruct (run_calls_holds cs t ∅ Ht) as (rs & t' & m' & Er & Hcs & Ht'). by exists t, rs, t', m'.
Qed.
End Proofs.

(** Seven keys in a table of eight entries; the third call finds the entry of the first. *)
Definition example_calls : list (@hcall Z) :=
  [Call false (lit "a"%string) 1 ENTER; Call false (lit "i"%string) 2 ENTER; Call false (lit "a"%string) 3 ENTER; Call false (lit "q"%string) 4 FIND; Call false (lit "c"%string) 5 ENTER; Call false (lit "d"%string) 6 ENTER;
   Call false (lit "e"%string) 7 ENTER; Call false (lit "f"%string) 8 ENTER; Call false (lit "q"%string) 9 ENTER; Call true (lit "q"%string) 10 ENTER; Call false (lit "i"%string) 0 FIND].
Lemma example_results : match hcreate_r 0 true true 5 with
    | Ret (r, Some t) => r = 1 /\ mask t = 7 /\ match run_calls 0 example_calls t with
        | Ret (rs, t') => rs = [Some 1; Some 2; Some 1; None; Some 5; Some 6; Some 7; Some 8; None; Some 10; Some 2] /\ mask t' = 15
        | _ => False end
    | _ => False end.
Proof. vm_compute. done. Qed.
Lemma hash_table_refines_map_witness : exists t rs t' m',
  hcreate_r 0 true true 5 = Ret (1, Some t) /\ run_calls 0 example_calls t = Ret (rs, t') /\ map_calls ∅ example_calls rs m' /\ is_table t' m' /\
  rs = [Some 1; Some 2; Some 1; None; Some 5; Some 6; Some 7; Some 8; None; Some 10; Some 2].
Proof.
  pose proof example_results as Hex.
  destruct (hash_table_refines_map 0 true true 5 example_calls ltac:(lia)) as [[E _]|(t & rs & t' & m' & E & Er & Hcs & Ht')]; rewrite E in Hex; [done|].
  rewrite Er in Hex. exists t, rs, t', m'. split; [exact E|]. split; [exact Er|]. split; [exact Hcs|]. split; [exact Ht'|]. apply Hex.
Defined.
