(* ===== verification/MuslSort.v ===== *)
(** * Sorting in the C library (src/musl/src/stdlib/qsort.c)

    [qsort] is smoothsort: the array is a sequence of heaps whose sizes are Leonardo
    numbers, and a bit vector of two words says which.  The memory is the bytes of the
    array; pointers are offsets from its start.  An access outside the array, or a copy
    between places that overlap, is undefined, and so are shifts by a whole word. *)

From Stdlib Require Import ZArith Lia Ascii.
From stdpp Require Import base list.
From S2P Require Import Prelude.

Local Open Scope Z_scope.

(** ** The code *)

(** Trailing zeros; there is no result for 0. *)
Fixpoint ctz (fuel : nat) (x : Z) : Z :=
  match fuel with
  | O => 0
  | S fuel => if Z.odd x then 0 else 1 + ctz fuel (x / 2)
  end.
Definition ntz (x : Z) : outcome Z := if x =? 0 then Undef else Ret (ctz 64 x).

(** [size_t p[2]] *)
Record words := Words { p0 : Z; p1 : Z }.

Definition pntz (p : words) : outcome Z :=
  let! r := ntz (u64 (p0 p - 1)) in
  if negb (r =? 0) then Ret r
  else
    let! r := ntz (p1 p) in
    if negb (64 + r =? 64) then Ret (64 + r) else Ret 0.

Definition shl (p : words) (n : Z) : outcome words :=
  let (p, n) := if 64 <=? n then (Words 0 (p0 p), n - 64) else (p, n) in
  if (n <=? 0) || (64 <=? n) then Undef
  else Ret (Words (u64 (Z.shiftl (p0 p) n)) (Z.lor (u64 (Z.shiftl (p1 p) n)) (Z.shiftr (p0 p) (64 - n)))).
Definition shr (p : words) (n : Z) : outcome words :=
  let (p, n) := if 64 <=? n then (Words (p1 p) 0, n - 64) else (p, n) in
  if (n <=? 0) || (64 <=? n) then Undef
  else Ret (Words (Z.lor (Z.shiftr (p0 p) n) (u64 (Z.shiftl (p1 p) (64 - n)))) (Z.shiftr (p1 p) n)).

Section Code.
Context (cmp : list ascii -> list ascii -> Z).
Abbreviation P A := (prog (list ascii) A).

Definition read_at (off n : Z) : P (list ascii) := fun m =>
  if (0 <=? off) && (off + n <=? Z.of_nat (length m)) then Ret (take (Z.to_nat n) (drop (Z.to_nat off) m), m) else Undef.
Definition write_at (off : Z) (b : list ascii) : P unit := fun m =>
  if (0 <=? off) && (off + Z.of_nat (length b) <=? Z.of_nat (length m)) then Ret (tt, splice m (Z.to_nat off) b) else Undef.
Definition memcpy (dst src n : Z) : P unit :=
  if (dst <? src + n) && (src <? dst + n) then plift Undef
  else let* b := read_at src n in write_at dst b.

Definition compare (width a b : Z) : P Z :=
  let* x := read_at a width in
  let* y := read_at b width in
  pret (cmp x y).

(** The copies of [l] bytes of one round; the last is from [tmp]. *)
Fixpoint cycle_copies (l : Z) (ar : list Z) (tmp : list ascii) : P unit :=
  match ar with
  | [] => pret tt
  | [a] => write_at a tmp
  | a :: (b :: _) as ar => do* memcpy a b l; cycle_copies l ar tmp
  end.
Fixpoint cycle_loop (fuel : nat) (width : Z) (ar : list Z) : P unit :=
  if width =? 0 then pret tt
  else match fuel with
       | O => plift Undef
       | S fuel =>
           let l := if 256 <? width then 256 else width in
           match ar with
           | [] => plift Undef
           | a :: _ =>
               let* tmp := read_at a l in
               do* cycle_copies l ar tmp;
               cycle_loop fuel (width - l) (map (fun a => a + l) ar)
           end
       end.
(** [ar]: the entries below [n] of an array of [AR] pointers *)
Definition AR : Z := 14 * 8 + 1.
Definition cycle (width : Z) (ar : list Z) : P unit :=
  if Z.of_nat (length ar) <? 2 then pret tt
  else if AR <=? Z.of_nat (length ar) then plift Undef
  else cycle_loop (Z.to_nat width) width ar.

(** [ar[i++] = a] *)
Definition push (ar : list Z) (a : Z) : P (list Z) := if Z.of_nat (length ar) <? AR then pret (ar ++ [a]) else plift Undef.
(** The Leonardo numbers times the width. *)
Definition at_lp (lp : list Z) (i : Z) : P Z := if i <? 0 then plift Undef else plift (deref (lp !! Z.to_nat i)).

Fixpoint sift_loop (fuel : nat) (first head width pshift : Z) (lp : list Z) (ar : list Z) : P (list Z) :=
  if negb (1 <? pshift) then pret ar
  else match fuel with
  | O => plift Undef
  | S fuel =>
      let rt := head - width in
      let* n := at_lp lp (pshift - 2) in
      let lf := head - width - n in
      let* c := compare width first lf in
      let* stop := (if 0 <=? c then let* c := compare width first rt in pret (0 <=? c) else pret false) in
      if stop : bool then pret ar
      else
        let* c := compare width lf rt in
        if 0 <=? c then let* ar := push ar lf in sift_loop fuel first lf width (pshift - 1) lp ar
        else let* ar := push ar rt in sift_loop fuel first rt width (pshift - 2) lp ar
  end.
Definition sift (head width pshift : Z) (lp : list Z) : P unit :=
  let* ar := sift_loop (Z.to_nat pshift) head head width pshift lp [head] in
  cycle width ar.

(** The path up the roots, with [head], [pshift] and [trusty] at its end. *)
Fixpoint trinkle_loop (fuel : nat) (first head width : Z) (p : words) (pshift : Z) (trusty : bool) (lp : list Z) (ar : list Z) : P (list Z * Z * Z * bool) :=
  if (p0 p =? 1) && (p1 p =? 0) then pret (ar, head, pshift, trusty)
  else match fuel with
  | O => plift Undef
  | S fuel =>
      let* n := at_lp lp pshift in
      let stepson := head - n in
      let* c := compare width stepson first in
      if c <=? 0 then pret (ar, head, pshift, trusty)
      else
        let* stop := (if negb trusty && (1 <? pshift) then
            let rt := head - width in
            let* n := at_lp lp (pshift - 2) in
            let lf := head - width - n in
            let* c := compare width rt stepson in
            if 0 <=? c then pret true else let* c := compare width lf stepson in pret (0 <=? c)
          else pret false) in
        if stop : bool then pret (ar, head, pshift, trusty)
        else
          let* ar := push ar stepson in
          let* trail := plift (pntz p) in
          let* p := plift (shr p trail) in
          trinkle_loop fuel first stepson width p (pshift + trail) false lp ar
  end.
(** [fuel]: the number of heaps is at most that of the bits *)
Definition trinkle (head width : Z) (p : words) (pshift : Z) (trusty : bool) (lp : list Z) : P unit :=
  let* (ar, head, pshift, trusty) := trinkle_loop 128 head head width p pshift trusty lp [head] in
  if negb trusty then do* cycle width ar; sift head width pshift lp
  else pret tt.

(** [lp[0]] and [lp[1]] are there, and the loop adds [lp[i]]. *)
Fixpoint lp_loop (fuel : nat) (width size : Z) (lp : list Z) : outcome (list Z) :=
  match fuel with
  | O => Undef
  | S fuel =>
      let i := length lp in
      let! a := deref (lp !! (i - 2)%nat) in
      let! b := deref (lp !! (i - 1)%nat) in
      let n := u64 (a + b + width) in
      if n <? size then lp_loop fuel width size (lp ++ [n]) else Ret (lp ++ [n])
  end.
(** The array has 96 elements. *)
Definition leonardo (width size : Z) : outcome (list Z) := lp_loop 94 width size [width; width].

(** The heaps up to [high]. *)
Fixpoint build_loop (fuel : nat) (head high width : Z) (p : words) (pshift : Z) (lp : list Z) : P (Z * words * Z) :=
  if negb (head <? high) then pret (head, p, pshift)
  else match fuel with
  | O => plift Undef
  | S fuel =>
      let* (p, pshift) :=
        if Z.land (p0 p) 3 =? 3 then
          do* sift head width pshift lp;
          let* p := plift (shr p 2) in
          pret (p, pshift + 2)
        else
          let* n := at_lp lp (pshift - 1) in
          do* (if high - head <=? n then trinkle head width p pshift false lp else sift head width pshift lp);
          if pshift =? 1 then let* p := plift (shl p 1) in pret (p, 0)
          else let* p := plift (shl p (pshift - 1)) in pret (p, 1) in
      build_loop fuel (head + width) high width (Words (Z.lor (p0 p) 1) (p1 p)) pshift lp
  end.

(** The heaps are taken apart from the last element to the first. *)
Fixpoint unbuild_loop (fuel : nat) (head width : Z) (p : words) (pshift : Z) (lp : list Z) : P unit :=
  if negb (negb (pshift =? 1) || negb (p0 p =? 1) || negb (p1 p =? 0)) then pret tt
  else match fuel with
  | O => plift Undef
  | S fuel =>
      let* (p, pshift) :=
        if pshift <=? 1 then
          let* trail := plift (pntz p) in
          let* p := plift (shr p trail) in
          pret (p, pshift + trail)
        else
          let* p := plift (shl p 2) in
          let pshift := pshift - 2 in
          let p := Words (Z.lxor (p0 p) 7) (p1 p) in
          let* p := plift (shr p 1) in
          let* n := at_lp lp pshift in
          do* trinkle (head - n - width) width p (pshift + 1) true lp;
          let* p := plift (shl p 1) in
          let p := Words (Z.lor (p0 p) 1) (p1 p) in
          do* trinkle (head - width) width p pshift true lp;
          pret (p, pshift) in
      unbuild_loop fuel (head - width) width p pshift lp
  end.

Definition qsort (nel width : Z) : P unit :=
  let size := u64 (width * nel) in
  if size =? 0 then pret tt
  else
    let high := size - width in
    let* lp := plift (leonardo width size) in
    let* (head, p, pshift) := build_loop (Z.to_nat nel) 0 high width (Words 1 0) 1 lp in
    do* trinkle head width p pshift false lp;
    unbuild_loop (Z.to_nat nel) head width p pshift lp.
End Code.
