(* ===== verification/Smoothsort.v ===== *)
(** * Smoothsort sorts

    The arrays of [qsort] (MuslSort.v) as lists of elements.  A heap of order [s] has
    L(s) elements, a Leonardo number; its root is its last element.  First what [sift]
    and [trinkle] do to such arrays, then that the code does it, and that the result is
    sorted. *)

From Stdlib Require Import ZArith Lia Ascii.
From stdpp Require Import base sets sorting list.
From S2P Require Import Prelude MuslSort.

Local Open Scope nat_scope.

(** ** Leonardo numbers *)

Fixpoint leo (s : nat) : nat := match s with S ((S s'') as s') => leo s'' + leo s' + 1 | _ => 1 end.
Lemma leo_SS s : leo (S (S s)) = leo s + leo (S s) + 1.
Proof. done. Qed.
Lemma leo_pos s : 1 <= leo s.
Proof. destruct s as [|[|s]]; cbn [leo]; lia. Qed.
Lemma leo_mono_S s : leo s <= leo (S s).
Proof. destruct s as [|s]; [done|]. rewrite leo_SS. lia. Qed.
Lemma leo_mono s s' : s <= s' -> leo s <= leo s'.
Proof. induction 1 as [|s' _ IH]; [done|]. pose proof (leo_mono_S s'). lia. Qed.

(** ** Moving elements along a path *)

Section Arrays.
Context {A : Type} `{!Inhabited A}.
Implicit Types (xs ys : list A) (v : A).

(** Each element of the path comes from the next place, and [v] goes to the last. *)
Fixpoint move v (path : list nat) xs : list A :=
  match path with
  | [] => xs
  | [i] => <[i := v]> xs
  | i :: (j :: _) as path => move v path (<[i := xs !!! j]> xs)
  end.

Lemma move_length v path xs : length (move v path xs) = length xs.
Proof. revert xs. induction path as [|i [|j path] IH]; intros xs; [done|cbn; by rewrite length_insert|]. change (move v (i :: j :: path) xs) with (move v (j :: path) (<[i := xs !!! j]> xs)). by rewrite IH, length_insert. Qed.
Lemma move_other v path xs k : k ∉ path -> move v path xs !!! k = xs !!! k.
Proof.
  revert xs. induction path as [|i [|j path] IH]; intros xs Hk; [done| |].
  - cbn. apply list_lookup_total_insert_ne. set_solver.
  - change (move v (i :: j :: path) xs) with (move v (j :: path) (<[i := xs !!! j]> xs)). rewrite IH by set_solver. apply list_lookup_total_insert_ne. set_solver.
Qed.
Lemma total_insert xs i v : i < length xs -> <[i := v]> xs !!! i = v.
Proof. apply list_lookup_total_insert_eq. Qed.
Lemma total_insert_ne xs i j v : i <> j -> <[i := v]> xs !!! j = xs !!! j.
Proof. apply list_lookup_total_insert_ne. Qed.
Lemma array_eq xs ys : length xs = length ys -> (forall i, i < length xs -> xs !!! i = ys !!! i) -> xs = ys.
Proof.
  intros Hl H. apply list_eq. intros i. destruct (decide (i < length xs)) as [Hi|Hi].
  - specialize (H i Hi). destruct (lookup_lt_is_Some_2 xs i Hi) as [x Ex]. destruct (lookup_lt_is_Some_2 ys i ltac:(lia)) as [y Ey].
    rewrite !list_lookup_total_alt, Ex, Ey in H. cbn in H. congruence.
  - rewrite !lookup_ge_None_2 by lia. done.
Qed.

(** Two elements are exchanged. *)
Lemma swap_perm xs i j v : i < length xs -> j < length xs -> i <> j -> <[j := v]> (<[i := xs !!! j]> xs) ≡ₚ <[i := v]> xs.
Proof.
  intros Hi Hj Hij. destruct (lookup_lt_is_Some_2 xs j Hj) as [y Ey]. rewrite list_lookup_total_alt, Ey. cbn.
  rewrite <- (Permutation_insert_swap (<[i := v]> xs) i j v y); [by rewrite list_insert_insert_eq|by apply list_lookup_insert_eq|by rewrite list_lookup_insert_ne].
Qed.
Lemma move_perm v path : forall xs i, NoDup (i :: path) -> Forall (fun k => k < length xs) (i :: path) -> move v (i :: path) xs ≡ₚ <[i := v]> xs.
Proof.
  induction path as [|j path IH]; intros xs i Hnd Hl; [done|]. change (move v (i :: j :: path) xs) with (move v (j :: path) (<[i := xs !!! j]> xs)).
  apply NoDup_cons in Hnd as [Hi Hnd]. apply Forall_cons in Hl as [Hil Hl]. rewrite IH; [|done|by rewrite length_insert]. apply Forall_cons in Hl as [Hjl _].
  apply swap_perm; [done|done|set_solver].
Qed.
(** What comes to each place of the path. *)
Lemma move_at v path : forall xs a i, NoDup path -> Forall (fun k => k < length xs) path -> path !! a = Some i ->
  move v path xs !!! i = match path !! S a with Some j => xs !!! j | None => v end.
Proof.
  induction path as [|i0 [|j path] IH]; intros xs a i Hnd Hl Ha; [done| |].
  - apply list_lookup_singleton_Some in Ha as [-> <-]. apply Forall_cons in Hl as [Hl _]. by apply total_insert.
  - change (move v (i0 :: j :: path) xs) with (move v (j :: path) (<[i0 := xs !!! j]> xs)). apply NoDup_cons in Hnd as [Hi0 Hnd]. apply Forall_cons in Hl as [Hl0 Hl].
    destruct a as [|a]; cbn in Ha.
    + injection Ha as <-. rewrite move_other by done. by apply total_insert.
    + rewrite (IH _ a i Hnd) by (rewrite ?length_insert; done). change ((i0 :: j :: path) !! S (S a)) with ((j :: path) !! S a). destruct ((j :: path) !! S a) as [j'|] eqn:Ej; [|done].
      apply total_insert_ne. intros <-. apply Hi0. by eapply list_elem_of_lookup_2.
Qed.
End Arrays.

(** ** Elements in memory *)

Section Bytes.
Context (w : nat).
Implicit Types (xs ys : list (list ascii)).

Definition sized xs : Prop := Forall (fun x => length x = w) xs.

Lemma sized_at xs i : sized xs -> i < length xs -> length (xs !!! i) = w.
Proof. intros Hs Hi. destruct (lookup_lt_is_Some_2 xs i Hi) as [x Ex]. rewrite list_lookup_total_alt, Ex. cbn. unfold sized in Hs. rewrite Forall_lookup in Hs. by eapply Hs. Qed.
Lemma concat_length xs : sized xs -> length (concat xs) = w * length xs.
Proof. induction 1 as [|x xs Hx _ IH]; cbn; [lia|]. rewrite length_app, IH, Hx. lia. Qed.
Lemma concat_split xs i : sized xs -> i < length xs -> exists a b, concat xs = a ++ (xs !!! i) ++ b /\ length a = w * i /\ forall y, concat (<[i := y]> xs) = a ++ y ++ b.
Proof.
  intros Hs Hi. destruct (lookup_lt_is_Some_2 xs i Hi) as [x Ex]. exists (concat (take i xs)), (concat (drop (S i) xs)). split; [|split].
  - rewrite list_lookup_total_alt, Ex. cbn. rewrite <- (take_drop_middle xs i x Ex) at 1. by rewrite concat_app.
  - rewrite concat_length by by apply Forall_take. rewrite length_take. lia.
  - intros y. rewrite insert_take_drop by done. by rewrite concat_app.
Qed.
Lemma sized_insert xs i y : sized xs -> length y = w -> sized (<[i := y]> xs).
Proof. intros Hs Hy. by apply Forall_insert. Qed.

Lemma read_slice xs i k l : sized xs -> i < length xs -> k + l <= w ->
  read_at (Z.of_nat (w * i + k)) (Z.of_nat l) (concat xs) = Ret (take l (drop k (xs !!! i)), concat xs).
Proof.
  intros Hs Hi Hk. unfold read_at. rewrite (concat_length _ Hs), (proj2 (Z.leb_le _ _)), (proj2 (Z.leb_le _ _)) by nia. cbn [andb].
  destruct (concat_split xs i Hs Hi) as (a & b & E & Ha & _). rewrite !Nat2Z.id. f_equal. f_equal. rewrite E. rewrite drop_app_add' by done.
  rewrite drop_app_le, take_app_le; [done|rewrite length_drop|]; rewrite (sized_at _ _ Hs Hi); lia.
Qed.
Lemma write_slice xs i k b : sized xs -> i < length xs -> k + length b <= w ->
  write_at (Z.of_nat (w * i + k)) b (concat xs) = Ret (tt, concat (<[i := splice (xs !!! i) k b]> xs)).
Proof.
  intros Hs Hi Hk. unfold write_at. rewrite (concat_length _ Hs), (proj2 (Z.leb_le _ _)), (proj2 (Z.leb_le _ _)) by nia. cbn [andb].
  destruct (concat_split xs i Hs Hi) as (a & c & E & Ha & E'). rewrite !Nat2Z.id. f_equal. f_equal. rewrite E', E. pose proof (sized_at _ _ Hs Hi) as Hx. unfold splice.
  rewrite take_app_add' by done. rewrite take_app_le by lia. replace (w * i + k + length b) with (w * i + (k + length b)) by lia. rewrite drop_app_add' by done. rewrite drop_app_le by lia.
  by rewrite <- !app_assoc.
Qed.

(** One round of [cycle]: the bytes from [k] on, [l] of them. *)
Fixpoint move_part (k l : nat) (tmp : list ascii) (path : list nat) xs : list (list ascii) :=
  match path with
  | [] => xs
  | [i] => <[i := splice (xs !!! i) k tmp]> xs
  | i :: (j :: _) as path => move_part k l tmp path (<[i := splice (xs !!! i) k (take l (drop k (xs !!! j)))]> xs)
  end.
Lemma move_part_cons k l tmp i j path xs : move_part k l tmp (i :: j :: path) xs = move_part k l tmp (j :: path) (<[i := splice (xs !!! i) k (take l (drop k (xs !!! j)))]> xs).
Proof. done. Qed.
Lemma splice_length (x : list ascii) k b : k + length b <= length x -> length (splice x k b) = length x.
Proof. intros H. unfold splice. rewrite !length_app, length_take, length_drop. lia. Qed.
Lemma part_length (x : list ascii) k l : k + l <= length x -> length (take l (drop k x)) = l.
Proof. intros H. rewrite length_take, length_drop. lia. Qed.

Lemma copies_holds k l tmp path : forall xs, sized xs -> Forall (fun i => i < length xs) path -> NoDup path -> k + l <= w -> length tmp = l ->
  cycle_copies (Z.of_nat l) (map (fun i => Z.of_nat (w * i + k)) path) tmp (concat xs) = Ret (tt, concat (move_part k l tmp path xs)) /\ sized (move_part k l tmp path xs).
Proof.
  induction path as [|i [|j path] IH]; intros xs Hs Hl Hnd Hk Ht; [done| |].
  - apply Forall_cons in Hl as [Hi _]. pose proof (sized_at _ _ Hs Hi). cbn [map cycle_copies move_part]. split; [apply write_slice; try done; lia|]. apply sized_insert; [done|]. rewrite splice_length; lia.
  - apply Forall_cons in Hl as [Hi Hl]. pose proof Hl as Hl'. apply Forall_cons in Hl' as [Hj _]. apply NoDup_cons in Hnd as [Hin Hnd]. rewrite move_part_cons.
    pose proof (sized_at _ _ Hs Hi) as Hxi. pose proof (sized_at _ _ Hs Hj) as Hxj. pose proof (part_length (xs !!! j) k l ltac:(lia)) as Hpl.
    assert (i <> j) as Hij by set_solver.
    change (cycle_copies _ (map _ (i :: j :: path)) tmp) with (do* memcpy (Z.of_nat (w * i + k)) (Z.of_nat (w * j + k)) (Z.of_nat l); cycle_copies (Z.of_nat l) (map (fun i => Z.of_nat (w * i + k)) (j :: path)) tmp).
    assert (memcpy (Z.of_nat (w * i + k)) (Z.of_nat (w * j + k)) (Z.of_nat l) (concat xs) = Ret (tt, concat (<[i := splice (xs !!! i) k (take l (drop k (xs !!! j)))]> xs))) as Em.
    { unfold memcpy. assert ((Z.of_nat (w * i + k) <? Z.of_nat (w * j + k) + Z.of_nat l)%Z && (Z.of_nat (w * j + k) <? Z.of_nat (w * i + k) + Z.of_nat l)%Z = false) as ->.
      { apply andb_false_iff. destruct (decide (i < j)); [right|left]; apply Z.ltb_ge; nia. }
      rewrite (pbind_ret _ _ _ _ _ (read_slice xs j k l Hs Hj Hk)). apply write_slice; try done. lia. }
    rewrite (pbind_ret _ _ _ _ _ Em). apply IH; try done; [apply sized_insert; [done|]; rewrite splice_length; lia|]. by rewrite length_insert.
Qed.
Lemma move_part_other k l tmp path : forall xs i, i ∉ path -> move_part k l tmp path xs !!! i = xs !!! i.
Proof.
  induction path as [|i0 [|j path] IH]; intros xs i Hi; [done|cbn; apply total_insert_ne; set_solver|]. rewrite move_part_cons, IH by set_solver. apply total_insert_ne. set_solver.
Qed.
Lemma move_part_at k l tmp path : forall xs a i, NoDup path -> Forall (fun i => i < length xs) path -> path !! a = Some i ->
  move_part k l tmp path xs !!! i = splice (xs !!! i) k match path !! S a with Some j => take l (drop k (xs !!! j)) | None => tmp end.
Proof.
  induction path as [|i0 [|j path] IH]; intros xs a i Hnd Hl Ha; [done| |].
  - apply list_lookup_singleton_Some in Ha as [-> <-]. apply Forall_cons in Hl as [Hl _]. by apply total_insert.
  - rewrite move_part_cons. apply NoDup_cons in Hnd as [Hi0 Hnd]. apply Forall_cons in Hl as [Hl0 Hl]. destruct a as [|a]; cbn in Ha.
    + injection Ha as <-. rewrite move_part_other by done. by apply total_insert.
    + rewrite (IH _ a i Hnd) by (rewrite ?length_insert; done). change ((i0 :: j :: path) !! S (S a)) with ((j :: path) !! S a).
      assert (forall j', j' ∈ j :: path -> i0 <> j') as Hne by (intros j' Hj' ->; done). rewrite total_insert_ne by (apply Hne; by eapply list_elem_of_lookup_2). f_equal.
      destruct ((j :: path) !! S a) as [j'|] eqn:Ej; [|done]. rewrite total_insert_ne; [done|]. apply Hne. by eapply list_elem_of_lookup_2.
Qed.
Lemma move_part_length k l tmp path : forall xs, length (move_part k l tmp path xs) = length xs.
Proof. induction path as [|i0 [|j path] IH]; intros xs; [done|apply length_insert|]. by rewrite move_part_cons, IH, length_insert. Qed.

(** The first [k] bytes of each element are those of [ys]. *)
Definition mixed (k : nat) xs ys : list (list ascii) := zip_with (fun o n => take k n ++ drop k o) xs ys.
Lemma mixed_at k xs ys i : length ys = length xs -> i < length xs -> mixed k xs ys !!! i = take k (ys !!! i) ++ drop k (xs !!! i).
Proof.
  intros Hl Hi. destruct (lookup_lt_is_Some_2 xs i Hi) as [x Ex]. destruct (lookup_lt_is_Some_2 ys i ltac:(lia)) as [y Ey].
  rewrite !list_lookup_total_alt. unfold mixed. rewrite lookup_zip_with, Ex, Ey. done.
Qed.
Lemma mixed_sized k xs ys : k <= w -> length ys = length xs -> sized xs -> sized ys -> sized (mixed k xs ys).
Proof.
  intros Hk Hl Hx Hy. apply Forall_lookup. intros i z Hz. unfold mixed in Hz. rewrite lookup_zip_with in Hz. destruct (xs !! i) as [x|] eqn:Ex; [|done]. destruct (ys !! i) as [y|] eqn:Ey; [|done].
  cbn in Hz. injection Hz as <-. unfold sized in *. rewrite Forall_lookup in Hx, Hy. specialize (Hx i x Ex). specialize (Hy i y Ey). rewrite length_app, length_take, length_drop. lia.
Qed.
Lemma mixed_length k xs ys : length ys = length xs -> length (mixed k xs ys) = length xs.
Proof. intros H. unfold mixed. rewrite length_zip_with. lia. Qed.
Lemma mixed_drop k xs ys i : length ys = length xs -> sized ys -> k <= w -> i < length xs -> drop k (mixed k xs ys !!! i) = drop k (xs !!! i).
Proof. intros Hl Hy Hk Hi. rewrite mixed_at by done. rewrite drop_app_length'; [done|]. rewrite length_take, (sized_at ys) by (done || lia). lia. Qed.
Lemma mixed_take k xs ys i : length ys = length xs -> sized ys -> k <= w -> i < length xs -> take k (mixed k xs ys !!! i) = take k (ys !!! i).
Proof. intros Hl Hy Hk Hi. rewrite mixed_at by done. rewrite take_app_length'; [done|]. rewrite length_take, (sized_at ys) by (done || lia). lia. Qed.
Lemma take_parts (x : list ascii) k l : take (k + l) x = take k x ++ take l (drop k x).
Proof. rewrite <- (take_drop k (take (k + l) x)). rewrite take_take, skipn_firstn_comm. f_equal; f_equal; lia. Qed.

Lemma move_sized v path xs : sized xs -> length v = w -> Forall (fun i => i < length xs) path -> sized (move v path xs).
Proof.
  revert xs. induction path as [|i [|j path] IH]; intros xs Hs Hv Hl; [done|by apply sized_insert|]. change (move v (i :: j :: path) xs) with (move v (j :: path) (<[i := xs !!! j]> xs)).
  apply Forall_cons in Hl as [Hi Hl]. apply IH; [|done|by rewrite length_insert]. apply Forall_cons in Hl as [Hj _]. apply sized_insert; [done|]. by apply sized_at.
Qed.
Lemma mixed_step k l v path xs : sized xs -> length v = w -> NoDup path -> Forall (fun i => i < length xs) path -> k + l <= w ->
  let ys := move v path xs in move_part k l (take l (drop k v)) path (mixed k xs ys) = mixed (k + l) xs ys.
Proof.
  intros Hs Hv Hnd Hp Hk ys. assert (length ys = length xs) as Hly by apply move_length. assert (sized ys) as Hys by by apply move_sized.
  assert (Forall (fun i => i < length (mixed k xs ys)) path) as Hp' by by rewrite mixed_length.
  apply array_eq; [by rewrite move_part_length, !mixed_length|]. intros i Hi. rewrite move_part_length, mixed_length in Hi by done. rewrite (mixed_at (k + l)) by done.
  destruct (decide (i ∈ path)) as [Hin|Hni].
  - apply list_elem_of_lookup in Hin as [a Ha]. rewrite (move_part_at k l _ path _ a i Hnd Hp' Ha).
    assert (ys !!! i = match path !! S a with Some j => xs !!! j | None => v end) as Ey by by apply move_at.
    set (next := ys !!! i) in *. assert (match path !! S a with Some j => take l (drop k (mixed k xs ys !!! j)) | None => take l (drop k v) end = take l (drop k next)) as ->.
    { rewrite Ey. destruct (path !! S a) as [j|] eqn:Ej; [|done]. rewrite Forall_lookup in Hp. specialize (Hp _ _ Ej). by rewrite mixed_drop by (done || lia). }
    assert (length next = w) as Hn by (apply sized_at; [done|lia]). unfold splice. rewrite mixed_take by (done || lia). rewrite part_length by lia. rewrite <- drop_drop, mixed_drop, drop_drop by (done || lia).
    rewrite app_assoc, <- take_parts. done.
  - rewrite move_part_other by done. rewrite mixed_at by done. replace (ys !!! i) with (xs !!! i) by (symmetry; by apply move_other). by rewrite !take_drop.
Qed.

Lemma cycle_loop_holds i0 path xs : sized xs -> NoDup (i0 :: path) -> Forall (fun i => i < length xs) (i0 :: path) -> forall fuel k, k <= w -> w - k <= fuel ->
  let ys := move (xs !!! i0) (i0 :: path) xs in
  cycle_loop fuel (Z.of_nat (w - k)) (map (fun i => Z.of_nat (w * i + k)) (i0 :: path)) (concat (mixed k xs ys)) = Ret (tt, concat (mixed w xs ys)).
Proof.
  intros Hs Hnd Hp fuel. pose proof Hp as Hp'. apply Forall_cons in Hp' as [Hi0 _]. pose proof (sized_at _ _ Hs Hi0) as Hv.
  induction fuel as [|fuel IH]; intros k Hk Hf ys; cbn [cycle_loop].
  - replace k with w by lia. by rewrite (proj2 (Z.eqb_eq _ _)) by lia.
  - destruct (Z.eqb_spec (Z.of_nat (w - k)) 0) as [E0|E0]; [by replace k with w by lia|].
    set (l := if 256 <? w - k then 256 else w - k). assert ((if (256 <? Z.of_nat (w - k))%Z then 256%Z else Z.of_nat (w - k)) = Z.of_nat l) as ->.
    { unfold l. destruct (Nat.ltb_spec 256 (w - k)), (Z.ltb_spec 256 (Z.of_nat (w - k))); lia. }
    assert (1 <= l /\ k + l <= w) as [Hl1 Hl2] by (unfold l; destruct (Nat.ltb_spec 256 (w - k)); lia).
    assert (length ys = length xs) as Hly by apply move_length. assert (sized ys) as Hys by by apply move_sized.
    assert (sized (mixed k xs ys)) as Hms by (apply mixed_sized; done || lia). cbn [map].
    rewrite (pbind_ret _ _ _ _ _ (read_slice (mixed k xs ys) i0 k l Hms ltac:(by rewrite mixed_length) Hl2)). rewrite mixed_drop by (done || lia).
    destruct (copies_holds k l (take l (drop k (xs !!! i0))) (i0 :: path) (mixed k xs ys) Hms) as [Ec _]; [by rewrite mixed_length|done|done|by apply part_length; lia|].
    rewrite (pbind_ret _ _ _ _ _ Ec). pose proof (mixed_step k l (xs !!! i0) (i0 :: path) xs Hs Hv Hnd Hp Hl2) as Em. cbv zeta in Em. fold ys in Em. rewrite Em.
    specialize (IH (k + l) ltac:(lia) ltac:(lia)). cbv zeta in IH. fold ys in IH.
    replace (Z.of_nat (w - k) - Z.of_nat l)%Z with (Z.of_nat (w - (k + l))) by lia. rewrite <- IH.
    assert (map (fun a => (a + Z.of_nat l)%Z) (map (fun i => Z.of_nat (w * i + k)) (i0 :: path)) = map (fun i => Z.of_nat (w * i + (k + l))) (i0 :: path)) as Emap by (rewrite map_map; apply map_ext; lia).
    cbn [map] in Emap |- *. by rewrite Emap.
Qed.
(** [cycle] moves whole elements. *)
Lemma cycle_holds i0 path xs : sized xs -> NoDup (i0 :: path) -> Forall (fun i => i < length xs) (i0 :: path) -> length path <= 111 ->
  cycle (Z.of_nat w) (map (fun i => Z.of_nat (w * i)) (i0 :: path)) (concat xs) = Ret (tt, concat (move (xs !!! i0) (i0 :: path) xs)).
Proof.
  intros Hs Hnd Hp Hl. unfold cycle. rewrite length_map. pose proof Hp as Hp'. apply Forall_cons in Hp' as [Hi0 _]. destruct path as [|j path].
  - cbn [length Nat.ltb]. change (Z.of_nat 1 <? 2)%Z with true. cbn [move]. unfold pret. f_equal. f_equal. f_equal. apply array_eq; [by rewrite length_insert|]. intros i Hi.
    destruct (decide (i = i0)) as [->|]; [by rewrite total_insert|by rewrite total_insert_ne].
  - rewrite (proj2 (Z.ltb_ge _ _)), (proj2 (Z.leb_gt _ _)) by (unfold AR; cbn [length] in *; lia). rewrite Nat2Z.id.
    pose proof (cycle_loop_holds i0 (j :: path) xs Hs Hnd Hp w 0 ltac:(lia) ltac:(lia)) as E. cbv zeta in E. rewrite Nat.sub_0_r in E.
    set (ys := move _ _ _) in *. assert (length ys = length xs) as Hly by apply move_length. assert (sized ys) as Hys by (apply move_sized; try done; by apply sized_at).
    assert (mixed 0 xs ys = xs) as E0.
    { apply array_eq; [by apply mixed_length|]. intros i Hi. rewrite mixed_length in Hi by done. by rewrite mixed_at. }
    assert (mixed w xs ys = ys) as E1.
    { apply array_eq; [by rewrite mixed_length|]. intros i Hi. rewrite mixed_length in Hi by done. rewrite mixed_at by done. rewrite take_ge, drop_ge, app_nil_r; [done| |]; rewrite sized_at; (done || lia). }
    rewrite E0, E1 in E. rewrite <- E. f_equal. apply map_ext. intros i. lia.
Qed.
End Bytes.


(** ** Heaps *)

Section Heaps.
Context {A : Type} `{!Inhabited A} (cmp : A -> A -> Z).
Context (cmp_flip : forall a b, (cmp a b < 0 <-> 0 < cmp b a)%Z) (cmp_trans : forall a b c, (cmp a b <= 0 -> cmp b c <= 0 -> cmp a c <= 0)%Z).
Implicit Types (xs ys : list A) (v : A).

Definition le v w : Prop := (cmp v w <= 0)%Z.
Lemma le_refl v : le v v.
Proof using cmp_flip. unfold le. pose proof (cmp_flip v v). lia. Qed.
Lemma le_total v w : (0 <= cmp v w)%Z <-> le w v.
Proof using cmp_flip. unfold le. pose proof (cmp_flip v w). pose proof (cmp_flip w v). lia. Qed.
Lemma lt_le v w : (cmp v w < 0)%Z -> le v w.
Proof. unfold le. lia. Qed.
Lemma not_ge v w : ~ (0 <= cmp v w)%Z -> le v w.
Proof. unfold le. lia. Qed.

(** A heap of order [s] at the root [r]. *)
Fixpoint heap (s : nat) xs (r : nat) : Prop :=
  match s with
  | S ((S s'') as s') => le (xs !!! (r - 1 - leo s'')) (xs !!! r) /\ le (xs !!! (r - 1)) (xs !!! r) /\ heap s' xs (r - 1 - leo s'') /\ heap s'' xs (r - 1)
  | _ => True
  end.
(** Only the root may be out of order. *)
Definition subs (s : nat) xs (r : nat) : Prop :=
  match s with S ((S s'') as s') => heap s' xs (r - 1 - leo s'') /\ heap s'' xs (r - 1) | _ => True end.
(** [v] is not below the roots of the subtrees. *)
Definition above (s : nat) xs (r : nat) v : Prop :=
  match s with S (S s'') => le (xs !!! (r - 1 - leo s'')) v /\ le (xs !!! (r - 1)) v | _ => True end.

Lemma heap_SS s xs r : heap (S (S s)) xs r =
  (le (xs !!! (r - 1 - leo s)) (xs !!! r) /\ le (xs !!! (r - 1)) (xs !!! r) /\ heap (S s) xs (r - 1 - leo s) /\ heap s xs (r - 1)).
Proof. done. Qed.
Lemma heap_split s xs r : heap s xs r <-> subs s xs r /\ above s xs r (xs !!! r).
Proof. destruct s as [|[|s]]; cbn; tauto. Qed.

(** Induction by two. *)
Lemma order_ind (P : nat -> Prop) : P 0 -> P 1 -> (forall s, P s -> P (S s) -> P (S (S s))) -> forall s, P s.
Proof. intros H0 H1 H s. assert (P s /\ P (S s)) as [? _]; [|done]. induction s as [|s [IH1 IH2]]; auto. Qed.

Lemma heap_ext s : forall xs ys r, leo s <= r + 1 -> (forall i, r + 1 - leo s <= i <= r -> xs !!! i = ys !!! i) -> heap s xs r -> heap s ys r.
Proof.
  induction s as [| |s IH0 IH1] using order_ind; intros xs ys r Hl He; [done|done|]. rewrite leo_SS in *. pose proof (leo_pos s). pose proof (leo_pos (S s)).
  rewrite !heap_SS. intros (H1 & H2 & H3 & H4). rewrite <- (He (r - 1 - leo s)), <- (He (r - 1)), <- (He r) by lia.
  split; [done|]. split; [done|]. split; [apply (IH1 xs); [lia| |done]|apply (IH0 xs); [lia| |done]]; intros i Hi; apply He; lia.
Qed.
Lemma subs_ext s xs ys r : leo s <= r + 1 -> (forall i, r + 1 - leo s <= i < r -> xs !!! i = ys !!! i) -> subs s xs r -> subs s ys r.
Proof.
  destruct s as [|[|s]]; intros Hl He; [done|done|]. rewrite leo_SS in *. pose proof (leo_pos s). pose proof (leo_pos (S s)). cbn [subs]. intros (H1 & H2).
  split; [apply (heap_ext _ xs); [lia| |done]|apply (heap_ext _ xs); [lia| |done]]; intros i Hi; apply He; lia.
Qed.
Lemma above_ext s xs ys r v : leo s <= r + 1 -> (forall i, r + 1 - leo s <= i < r -> xs !!! i = ys !!! i) -> above s xs r v -> above s ys r v.
Proof.
  destruct s as [|[|s]]; intros Hl He; [done|done|]. rewrite leo_SS in *. pose proof (leo_pos s). pose proof (leo_pos (S s)). cbn [above]. by rewrite <- !He by lia.
Qed.

(** The root is the greatest element. *)
Lemma heap_max s : forall xs r i, leo s <= r + 1 -> heap s xs r -> r + 1 - leo s <= i <= r -> le (xs !!! i) (xs !!! r).
Proof using cmp_flip cmp_trans.
  induction s as [| |s IH0 IH1] using order_ind; intros xs r i Hl Hh Hi.
  - replace i with r by (cbn in *; lia). apply le_refl.
  - replace i with r by (cbn in *; lia). apply le_refl.
  - rewrite leo_SS in *. destruct Hh as (H1 & H2 & H3 & H4). pose proof (leo_pos s). pose proof (leo_pos (S s)). destruct (decide (i = r)) as [->|]; [apply le_refl|].
    destruct (decide (i <= r - 1 - leo s)) as [Hil|Hil]; [eapply cmp_trans; [|exact H1]; apply IH1|eapply cmp_trans; [|exact H2]; apply IH0]; try done; lia.
Qed.

(** ** [sift] *)

Definition ge (v w : A) : bool := (0 <=? cmp v w)%Z.
(** The places through which [v] moves down from [r]. *)
Fixpoint sift_path (s : nat) xs v (r : nat) : list nat :=
  r :: match s with
       | S ((S s'') as s') =>
           let rt := r - 1 in
           let lf := r - 1 - leo s'' in
           if ge v (xs !!! lf) && ge v (xs !!! rt) then []
           else if ge (xs !!! lf) (xs !!! rt) then sift_path s' xs v lf
           else sift_path s'' xs v rt
       | _ => []
       end.
Lemma sift_path_SS s xs v r : sift_path (S (S s)) xs v r = r ::
  (if ge v (xs !!! (r - 1 - leo s)) && ge v (xs !!! (r - 1)) then [] else
   if ge (xs !!! (r - 1 - leo s)) (xs !!! (r - 1)) then sift_path (S s) xs v (r - 1 - leo s) else sift_path s xs v (r - 1)).
Proof. done. Qed.
Lemma sift_path_cons s xs v r : exists path, sift_path s xs v r = r :: path.
Proof. destruct s as [|[|s]]; by eexists. Qed.

Lemma sift_path_range s : forall xs v r, leo s <= r + 1 -> Forall (fun i => r + 1 - leo s <= i <= r) (sift_path s xs v r) /\ NoDup (sift_path s xs v r).
Proof.
  induction s as [| |s IH0 IH1] using order_ind; intros xs v r Hl.
  1,2: cbn; split; [repeat constructor; lia|apply NoDup_singleton].
  rewrite sift_path_SS. rewrite leo_SS in *. pose proof (leo_pos s). pose proof (leo_pos (S s)).
  destruct (ge v _ && ge v _); [split; [repeat constructor; lia|apply NoDup_singleton]|].
  destruct (ge _ _); [destruct (IH1 xs v (r - 1 - leo s)) as [H1 H2]; [lia|]|destruct (IH0 xs v (r - 1)) as [H1 H2]; [lia|]].
  all: split; [constructor; [lia|]; eapply Forall_impl; [exact H1|]; cbn; lia|]. all: apply NoDup_cons; split; [|done]; rewrite Forall_forall in H1; intros Hin; apply H1 in Hin; lia.
Qed.
Lemma sift_path_ext s : forall xs ys v r, leo s <= r + 1 -> (forall i, r + 1 - leo s <= i < r -> xs !!! i = ys !!! i) -> sift_path s xs v r = sift_path s ys v r.
Proof.
  induction s as [| |s IH0 IH1] using order_ind; intros xs ys v r Hl He; [done|done|]. rewrite !sift_path_SS. rewrite leo_SS in *. pose proof (leo_pos s). pose proof (leo_pos (S s)).
  rewrite (He (r - 1 - leo s)), (He (r - 1)) by lia. rewrite (IH1 xs ys), (IH0 xs ys); [done|lia| |lia|]; intros i Hi; apply He; lia.
Qed.

(** What [sift] does. *)
Definition sifted (s : nat) xs v (r : nat) : list A := move v (sift_path s xs v r) xs.

Lemma sifted_perm s xs v r : leo s <= r + 1 -> r < length xs -> sifted s xs v r ≡ₚ <[r := v]> xs.
Proof.
  intros Hl Hr. unfold sifted. destruct (sift_path_range s xs v r Hl) as [H1 H2]. destruct (sift_path_cons s xs v r) as [path E]. rewrite E in *.
  apply move_perm; [done|]. eapply Forall_impl; [exact H1|]. cbn. lia.
Qed.
Lemma sifted_other s xs v r i : leo s <= r + 1 -> ~ (r + 1 - leo s <= i <= r) -> sifted s xs v r !!! i = xs !!! i.
Proof. intros Hl Hi. apply move_other. destruct (sift_path_range s xs v r Hl) as [H1 _]. rewrite Forall_forall in H1. intros Hin. by apply H1 in Hin. Qed.
Lemma sifted_length s xs v r : length (sifted s xs v r) = length xs.
Proof. apply move_length. Qed.

(** The element at the root afterwards: [v] or the root of a subtree. *)
Definition new_root (s : nat) xs v (r : nat) : A :=
  match s with
  | S (S s'') =>
      let rt := r - 1 in let lf := r - 1 - leo s'' in
      if ge v (xs !!! lf) && ge v (xs !!! rt) then v else if ge (xs !!! lf) (xs !!! rt) then xs !!! lf else xs !!! rt
  | _ => v
  end.
Lemma sifted_root s xs v r : leo s <= r + 1 -> r < length xs -> sifted s xs v r !!! r = new_root s xs v r.
Proof.
  intros Hl Hr. unfold sifted. destruct s as [|[|s]]; [by apply total_insert|by apply total_insert|]. rewrite sift_path_SS. rewrite leo_SS in Hl. unfold new_root.
  pose proof (leo_pos s). pose proof (leo_pos (S s)). destruct (ge v _ && ge v _); [by apply total_insert|].
  assert (forall s' c, leo s' <= c + 1 -> c < r -> move v (r :: sift_path s' xs v c) xs !!! r = xs !!! c) as Hm; [|destruct (ge _ _); apply Hm; lia].
  intros s' c Hc Hcr. destruct (sift_path_range s' xs v c Hc) as [H1 _]. destruct (sift_path_cons s' xs v c) as [path E]. rewrite E in *.
  change (move v (r :: c :: path) xs) with (move v (c :: path) (<[r := xs !!! c]> xs)). rewrite move_other; [by apply total_insert|].
  rewrite Forall_forall in H1. intros Hin. apply H1 in Hin. lia.
Qed.
Lemma new_root_above s xs v r : le v (new_root s xs v r) /\ above s xs r (new_root s xs v r).
Proof using cmp_flip cmp_trans.
  destruct s as [|[|s]]; cbn; [split; [apply le_refl|done]|split; [apply le_refl|done]|]. unfold ge.
  destruct (Z.leb_spec 0 (cmp v (xs !!! (r - 1 - leo s)))) as [H1|H1], (Z.leb_spec 0 (cmp v (xs !!! (r - 1)))) as [H2|H2]; cbn [andb];
    destruct (Z.leb_spec 0 (cmp (xs !!! (r - 1 - leo s)) (xs !!! (r - 1)))) as [H3|H3]; rewrite ?le_total in *; repeat split;
    try apply le_refl; try done; try (by apply lt_le); try (eapply cmp_trans; [|eassumption]; apply lt_le; done); try (eapply cmp_trans; [apply lt_le; eassumption|]; apply lt_le; done); try (eapply cmp_trans; eassumption).
Qed.
Lemma new_root_bound s xs v r u : le v u -> above s xs r u -> le (new_root s xs v r) u.
Proof. destruct s as [|[|s]]; cbn; [done|done|]. intros Hv [H1 H2]. destruct (ge _ _ && ge _ _); [done|]. by destruct (ge _ _). Qed.

(** The way down through a child. *)
Lemma sifted_child s' xs v r c : leo s' <= c + 1 -> c < r -> r < length xs ->
  move v (r :: sift_path s' xs v c) xs = sifted s' (<[r := xs !!! c]> xs) v c.
Proof.
  intros Hl Hc Hr. unfold sifted. rewrite <- (sift_path_ext s' xs (<[r := xs !!! c]> xs) v c Hl); [|intros i Hi; rewrite total_insert_ne by lia; done].
  destruct (sift_path_cons s' xs v c) as [path E]. by rewrite E.
Qed.
Lemma sifted_heap s : forall xs v r, leo s <= r + 1 -> r < length xs -> subs s xs r -> heap s (sifted s xs v r) r.
Proof using cmp_flip cmp_trans.
  induction s as [| |s IH0 IH1] using order_ind; intros xs v r Hl Hr Hs; [done|done|]. apply heap_split. rewrite (sifted_root (S (S s)) xs v r Hl Hr).
  destruct (new_root_above (S (S s)) xs v r) as [Hv Hab]. pose proof (leo_pos s). pose proof (leo_pos (S s)). rewrite leo_SS in Hl.
  unfold sifted. rewrite sift_path_SS. unfold new_root in *. cbn [above] in *. set (lf := r - 1 - leo s) in *. set (rt := r - 1) in *. destruct Hs as [Hsl Hsr]. fold lf rt in Hsl, Hsr.
  destruct (ge v (xs !!! lf) && ge v (xs !!! rt)) eqn:Eg; [|destruct (ge (xs !!! lf) (xs !!! rt)) eqn:Elr].
  - cbn [move]. rewrite !total_insert_ne by lia. split; [|done]. split; (eapply heap_ext; [| |eassumption]; [lia|]); intros i Hi; rewrite total_insert_ne by lia; done.
  - rewrite (sifted_child (S s) xs v r lf) by lia. set (xs1 := <[r := xs !!! lf]> xs). assert (length xs1 = length xs) as Hl1 by apply length_insert.
    assert (heap (S s) xs1 lf) as Hh1 by (eapply heap_ext; [| |exact Hsl]; [lia|]; intros i Hi; unfold xs1; rewrite total_insert_ne by lia; done).
    split.
    + split; [apply IH1; [lia|lia|by apply heap_split in Hh1 as [? _]]|]. fold lf rt. eapply heap_ext; [| |exact Hsr]; [lia|]. intros i Hi. rewrite sifted_other by lia. unfold xs1. by rewrite total_insert_ne by lia.
    + rewrite sifted_root by lia. rewrite sifted_other by lia. unfold xs1 at 2. rewrite total_insert_ne by lia. split; [|tauto]. apply new_root_bound; [done|]. apply heap_split in Hh1 as [_ Hh1]. unfold xs1 in Hh1 at 2. by rewrite total_insert_ne in Hh1 by lia.
  - rewrite (sifted_child s xs v r rt) by lia. set (xs1 := <[r := xs !!! rt]> xs). assert (length xs1 = length xs) as Hl1 by apply length_insert.
    assert (heap s xs1 rt) as Hh1 by (eapply heap_ext; [| |exact Hsr]; [lia|]; intros i Hi; unfold xs1; rewrite total_insert_ne by lia; done).
    split.
    + split; [|apply IH0; [lia|lia|by apply heap_split in Hh1 as [? _]]]. fold lf rt. eapply heap_ext; [| |exact Hsl]; [lia|]. intros i Hi. rewrite sifted_other by lia. unfold xs1. by rewrite total_insert_ne by lia.
    + rewrite (sifted_other s xs1 v rt lf), sifted_root by lia. unfold xs1 at 1. rewrite total_insert_ne by lia. split; [tauto|]. apply new_root_bound; [done|].
      apply heap_split in Hh1 as [_ Hh1]. unfold xs1 in Hh1 at 2. by rewrite total_insert_ne in Hh1 by lia.
Qed.

(** ** [trinkle] *)

(** The heaps up to the place [r], the last of them first, with their orders [ss]; the
    roots ascend. *)
Fixpoint total (ss : list nat) : nat := match ss with [] => 0 | s :: ss => leo s + total ss end.
Definition root_le (ss : list nat) xs (q : nat) u : Prop := match ss with [] => True | _ => le (xs !!! q) u end.
Fixpoint forest (ss : list nat) xs (r : nat) : Prop :=
  match ss with
  | [] => True
  | s :: ss => heap s xs r /\ root_le ss xs (r - leo s) (xs !!! r) /\ forest ss xs (r - leo s)
  end.

Lemma forest_ext ss : forall xs ys r, total ss = r + 1 \/ ss = [] -> (forall i, i <= r -> xs !!! i = ys !!! i) -> forest ss xs r -> forest ss ys r.
Proof.
  induction ss as [|s ss IH]; intros xs ys r Ht He; [done|]. cbn [forest total] in *. destruct Ht as [Ht|]; [|done]. pose proof (leo_pos s). intros (H1 & H2 & H3).
  assert (total ss = r - leo s + 1 \/ ss = []) as Ht'.
  { destruct ss as [|s2 ss]; [by right|left]. cbn [total] in *. pose proof (leo_pos s2). lia. }
  split; [eapply heap_ext; [| |exact H1]; [lia|]; intros i Hi; apply He; lia|]. split.
  - unfold root_le in *. destruct ss; [done|]. by rewrite <- !He by lia.
  - apply (IH xs); [done| |done]. intros i Hi. apply He. lia.
Qed.

(** A child is not below [w]. *)
Definition stops (s : nat) xs (r : nat) (w : A) : bool :=
  match s with S (S s'') => ge (xs !!! (r - 1)) w || ge (xs !!! (r - 1 - leo s'')) w | _ => false end.
(** The last step: [v] stays in this heap. *)
Definition settled (s : nat) xs v (r : nat) (trusty : bool) : list A := if trusty then <[r := v]> xs else sifted s xs v r.
Fixpoint trinkled (ss : list nat) (s : nat) xs v (r : nat) (trusty : bool) : list A :=
  match ss with
  | [] => settled s xs v r trusty
  | s2 :: ss =>
      let w := xs !!! (r - leo s) in
      if (cmp w v <=? 0)%Z then settled s xs v r trusty
      else if negb trusty && stops s xs r w then settled s xs v r trusty
      else trinkled ss s2 (<[r := w]> xs) v (r - leo s) false
  end.

(** What is shown of [trinkle] for [ys], made of [xs] by putting [v] into the heaps at [r]. *)
Record trinkles (ss : list nat) (s : nat) xs v (r : nat) ys : Prop := Trinkles {
  t_length : length ys = length xs;
  t_perm : ys ≡ₚ <[r := v]> xs;
  t_forest : forest (s :: ss) ys r;
  t_after : forall i, r < i -> ys !!! i = xs !!! i;
  t_bound : forall u, le v u -> above s xs r u -> root_le ss xs (r - leo s) u -> le (ys !!! r) u }.

Lemma tail_total s ss r : total (s :: ss) = r + 1 -> leo s <= r + 1 /\ (total ss = r - leo s + 1 \/ ss = []).
Proof. cbn [total]. intros H. pose proof (leo_pos s). split; [lia|]. destruct ss as [|s2 ss]; [by right|left]. cbn [total] in *. pose proof (leo_pos s2). lia. Qed.

Lemma settled_ok ss s xs v r trusty : total (s :: ss) = r + 1 -> r < length xs -> subs s xs r -> forest ss xs (r - leo s) -> (trusty = true -> above s xs r v) ->
  root_le ss xs (r - leo s) v \/ (trusty = false /\ exists w, stops s xs r w = true /\ root_le ss xs (r - leo s) w) -> trinkles ss s xs v r (settled s xs v r trusty).
Proof using cmp_flip cmp_trans.
  intros Ht Hr Hs Hf Htr Hw. destruct (tail_total _ _ _ Ht) as [Hl Ht']. pose proof (leo_pos s).
  assert (forall ys, (forall i, i <= r - leo s -> ss <> [] -> xs !!! i = ys !!! i) -> forest ss ys (r - leo s)) as Hfe.
  { intros ys He. destruct ss as [|s2 ss]; [done|]. apply (forest_ext _ xs); [done| |done]. intros i Hi. by apply He. }
  assert (ss <> [] -> leo s <= r) as Hne by (intros Hne; destruct ss as [|s2 ss]; [done|]; cbn [total] in Ht; pose proof (leo_pos s2); lia).
  destruct trusty; unfold settled.
  - specialize (Htr eq_refl). destruct Hw as [Hw|[? _]]; [|done]. split; [apply length_insert|done| | |].
    + cbn [forest]. rewrite total_insert by done. split; [|split].
      * apply heap_split. split; [eapply subs_ext; [done| |exact Hs]|rewrite total_insert by done; eapply above_ext; [done| |exact Htr]]; intros i Hi; by rewrite total_insert_ne by lia.
      * destruct ss as [|s2 ss]; [done|]. cbn [root_le] in *. specialize (Hne ltac:(done)). rewrite total_insert_ne by lia. done.
      * apply Hfe. intros i Hi Hss. specialize (Hne Hss). by rewrite total_insert_ne by lia.
    + intros i Hi. by rewrite total_insert_ne by lia.
    + intros u Hu _ _. by rewrite total_insert.
  - destruct (new_root_above s xs v r) as [Hv Hab]. split; [apply sifted_length|by apply sifted_perm| | |].
    + cbn [forest]. rewrite sifted_root by done. split; [by apply sifted_heap|]. split.
      * destruct ss as [|s2 ss]; [done|]. cbn [root_le] in *. specialize (Hne ltac:(done)). rewrite sifted_other by lia.
        destruct Hw as [Hw|(_ & w & Hst & Hw)]; [by eapply cmp_trans|]. eapply cmp_trans; [exact Hw|]. destruct s as [|[|s]]; [done|done|]. cbn [stops above] in *.
        apply orb_true_iff in Hst as [Hst|Hst]; apply Z.leb_le, le_total in Hst; (eapply cmp_trans; [exact Hst|]; tauto).
      * apply Hfe. intros i Hi Hss. specialize (Hne Hss). by rewrite sifted_other by lia.
    + intros i Hi. apply sifted_other; [done|lia].
    + intros u Hu Ha _. rewrite sifted_root by done. by apply new_root_bound.
Qed.

Lemma trinkled_ok ss : forall s xs v r trusty, total (s :: ss) = r + 1 -> r < length xs -> subs s xs r -> forest ss xs (r - leo s) -> (trusty = true -> above s xs r v) ->
  trinkles ss s xs v r (trinkled ss s xs v r trusty).
Proof using cmp_flip cmp_trans.
  induction ss as [|s2 ss IH]; intros s xs v r trusty Ht Hr Hs Hf Htr; cbn [trinkled]; [apply settled_ok; try done; by left|].
  set (q := r - leo s) in *. set (w := xs !!! q). destruct (Z.leb_spec (cmp w v) 0) as [Hwv|Hwv]; [apply settled_ok; try done; by left|].
  destruct (negb trusty && stops s xs r w) eqn:Est.
  { apply andb_true_iff in Est as [E1 E2]. apply negb_true_iff in E1. apply settled_ok; try done. right. split; [done|]. exists w. split; [done|]. apply le_refl. }
  destruct (tail_total _ _ _ Ht) as [Hl [Ht'|]]; [|done]. fold q in Ht'. pose proof (leo_pos s). assert (leo s <= r /\ q < r) as [Hls Hqr] by (cbn [total] in Ht; pose proof (leo_pos s2); unfold q; lia).
  assert (le v w) as Hvw by (apply lt_le, cmp_flip; done). cbn [forest] in Hf. destruct Hf as (Hh2 & Hr2 & Hf2). fold w in Hr2.
  set (xs1 := <[r := w]> xs) in *. assert (forall i, i < r -> xs !!! i = xs1 !!! i) as He by (intros i Hi; unfold xs1; by rewrite total_insert_ne by lia).
  destruct (tail_total _ _ _ Ht') as [Hl2 Ht2]. apply heap_split in Hh2 as [Hs2 Ha2]. pose proof (leo_pos s2).
  destruct (IH s2 xs1 v q false) as [T1 T2 T3 T4 T5]; [done|unfold xs1; rewrite length_insert; lia| | |done|].
  { eapply subs_ext; [done| |exact Hs2]. intros i Hi. apply He. lia. }
  { eapply forest_ext; [exact Ht2| |exact Hf2]. intros i Hi. apply He. lia. }
  set (ys := trinkled ss s2 xs1 v q false) in *. assert (ys !!! r = w) as Eyr by (rewrite T4 by done; by apply total_insert).
  split; [rewrite T1; apply length_insert|rewrite T2; unfold xs1, w; apply swap_perm; lia| | |].
  - cbn [forest]. rewrite Eyr. fold q. split; [|split; [|done]].
    + apply heap_split. rewrite Eyr.
      assert (above s xs r w) as Haw.
      { destruct trusty; [specialize (Htr eq_refl); destruct s as [|[|s]]; cbn in Htr |- *; [done|done|split; eapply cmp_trans; try exact Hvw; tauto]|].
        cbn [negb andb] in Est. destruct s as [|[|s]]; [done|done|]. cbn [stops above] in *. apply orb_false_iff in Est as [E1 E2]. apply Z.leb_gt in E1, E2. split; by apply lt_le. }
      assert (forall i, r + 1 - leo s <= i < r -> xs !!! i = ys !!! i) as Heq by (intros i Hi; rewrite T4, <- He by lia; done).
      split; [by eapply subs_ext|by eapply above_ext].
    + apply T5; [done|eapply above_ext; [exact Hl2| |exact Ha2]; intros i Hi; apply He; lia|]. destruct ss as [|s3 ss]; [done|]. cbn [root_le] in *. rewrite <- He by lia. done.
  - intros i Hi. rewrite T4 by lia. unfold xs1. by rewrite total_insert_ne by lia.
  - intros u Hu Ha Hw. rewrite Eyr. done.
Qed.

(** The roots through which [v] moves, and the heap in which it stays. *)
Fixpoint trinkle_path (ss : list nat) (s : nat) xs v (r : nat) (trusty : bool) : list nat * nat * nat * bool :=
  match ss with
  | [] => ([], r, s, trusty)
  | s2 :: ss =>
      let w := xs !!! (r - leo s) in
      if (cmp w v <=? 0)%Z then ([], r, s, trusty)
      else if negb trusty && stops s xs r w then ([], r, s, trusty)
      else let '(path, r', s', t) := trinkle_path ss s2 xs v (r - leo s) false in (r - leo s :: path, r', s', t)
  end.
Lemma trinkle_path_ext ss : forall s xs ys v r trusty, total (s :: ss) = r + 1 -> (forall i, i < r -> xs !!! i = ys !!! i) -> trinkle_path ss s xs v r trusty = trinkle_path ss s ys v r trusty.
Proof.
  induction ss as [|s2 ss IH]; intros s xs ys v r trusty Ht He; [done|]. cbn [trinkle_path]. destruct (tail_total _ _ _ Ht) as [Hl [Ht'|]]; [|done]. pose proof (leo_pos s). pose proof (leo_pos s2).
  assert (leo s <= r) by (cbn [total] in Ht; lia). rewrite <- (He (r - leo s)) by lia.
  assert (stops s xs r (xs !!! (r - leo s)) = stops s ys r (xs !!! (r - leo s))) as <-.
  { destruct s as [|[|s]]; [done|done|]. cbn [stops]. rewrite leo_SS in *. pose proof (leo_pos (S s)). by rewrite <- !He by lia. }
  rewrite (IH s2 xs ys) by (done || (intros i Hi; apply He; lia)). done.
Qed.
Lemma trinkle_path_facts ss : forall s xs v r trusty path r' s' t, total (s :: ss) = r + 1 -> trinkle_path ss s xs v r trusty = (path, r', s', t) ->
  Forall (fun i => i < r) path /\ NoDup (r :: path) /\ last (r :: path) = Some r' /\ length path <= length ss /\ leo s' <= r' + 1 /\ r' <= r /\ s' ∈ s :: ss /\ (t = true -> trusty = true /\ path = [] /\ r' = r).
Proof.
  induction ss as [|s2 ss IH]; intros s xs v r trusty path r' s' t Ht E; cbn [trinkle_path] in E; destruct (tail_total _ _ _ Ht) as [Hl Ht'].
  - injection E as <- <- <- <-. split_and!; try done; try lia; [apply NoDup_singleton|by apply elem_of_cons; left].
  - assert (([], r, s, trusty) = (path, r', s', t) -> Forall (fun i => i < r) path /\ NoDup (r :: path) /\ last (r :: path) = Some r' /\ length path <= S (length ss) /\ leo s' <= r' + 1 /\ r' <= r /\
      s' ∈ s :: s2 :: ss /\ (t = true -> trusty = true /\ path = [] /\ r' = r)) as Hstop.
    { intros [= <- <- <- <-]. split_and!; try done; try (cbn; lia); [apply NoDup_singleton|by apply elem_of_cons; left]. }
    destruct (_ <=? 0)%Z; [by apply Hstop|]. destruct (negb trusty && _); [by apply Hstop|]. clear Hstop. destruct Ht' as [Ht'|]; [|done]. pose proof (leo_pos s). pose proof (leo_pos s2).
    assert (leo s <= r) by (cbn [total] in Ht; lia). destruct (trinkle_path ss s2 xs v (r - leo s) false) as [[[path2 r2] s3] t2] eqn:E2. injection E as <- <- <- <-.
    destruct (IH _ _ _ _ _ _ _ _ _ Ht' E2) as (H1' & H2 & H3 & H4 & H5 & H6 & H7 & H8). split_and!.
    + constructor; [lia|]. eapply Forall_impl; [exact H1'|]. cbn. lia.
    + apply NoDup_cons. split; [|done]. intros [Hin|Hin]%elem_of_cons; [lia|]. rewrite Forall_forall in H1'. apply H1' in Hin. lia.
    + rewrite last_cons, H3. done.
    + cbn [length]. lia.
    + done.
    + lia.
    + by apply elem_of_cons; right.
    + intros ->. destruct (H8 eq_refl) as [? _]. done.
Qed.
Lemma trinkled_path ss : forall s xs v r trusty path r' s' t, total (s :: ss) = r + 1 -> trinkle_path ss s xs v r trusty = (path, r', s', t) ->
  trinkled ss s xs v r trusty = if t then <[r := v]> xs else sifted s' (move v (r :: path) xs) v r'.
Proof.
  assert (forall s xs v r trusty, leo s <= r + 1 -> settled s xs v r trusty = if trusty then <[r := v]> xs else sifted s (move v [r] xs) v r) as Hst.
  { intros s xs v r trusty Hl. unfold settled. destruct trusty; [done|]. cbn [move]. unfold sifted. rewrite <- (sift_path_ext s xs (<[r := v]> xs) v r Hl); [|intros i Hi; by rewrite total_insert_ne by lia].
    destruct (sift_path_cons s xs v r) as [[|j path] E]; rewrite E; [cbn; by rewrite list_insert_insert_eq|].
    destruct (sift_path_range s xs v r Hl) as [_ Hnd]. rewrite E in Hnd. apply NoDup_cons in Hnd as [Hnd _]. assert (r <> j) by (intros ->; apply Hnd, elem_of_cons; by left).
    change (move v (j :: path) (<[r := xs !!! j]> xs) = move v (j :: path) (<[r := <[r := v]> xs !!! j]> (<[r := v]> xs))). by rewrite total_insert_ne, list_insert_insert_eq by done. }
  induction ss as [|s2 ss IH]; intros s xs v r trusty path r' s' t Ht E; cbn [trinkle_path trinkled] in *; destruct (tail_total _ _ _ Ht) as [Hl Ht'].
  - injection E as <- <- <- <-. by apply Hst.
  - destruct (_ <=? 0)%Z; [injection E as <- <- <- <-; by apply Hst|]. destruct (negb trusty && _); [injection E as <- <- <- <-; by apply Hst|]. destruct Ht' as [Ht'|]; [|done].
    pose proof (leo_pos s). pose proof (leo_pos s2). assert (leo s <= r) by (cbn [total] in Ht; lia). set (q := r - leo s) in *.
    destruct (trinkle_path ss s2 xs v q false) as [[[path2 r2] s3] t2] eqn:E2. injection E as <- <- <- <-.
    destruct (trinkle_path_facts _ _ _ _ _ _ _ _ _ _ Ht' E2) as (_ & _ & _ & _ & _ & _ & _ & H8). destruct t2; [by destruct (H8 eq_refl) as [? _]|].
    rewrite (trinkle_path_ext ss s2 xs (<[r := xs !!! q]> xs)) in E2 by (done || (intros i Hi; rewrite total_insert_ne by lia; done)). by rewrite (IH _ _ _ _ _ _ _ _ _ Ht' E2).
Qed.

(** ** While the heaps are built *)

(** The heaps that will not be joined with later ones have ascending roots; [high] is the
    last place of the array. *)
Fixpoint pending (high : nat) (ss : list nat) xs (q : nat) : Prop :=
  match ss with
  | [] => True
  | s :: ss => heap s xs q /\ (forest (s :: ss) xs q \/ q + leo (s - 1) + 1 <= high) /\ pending high ss xs (q - leo s)
  end.
Lemma pending_swap high ss : forall xs ys q, total ss = q + 1 \/ ss = [] -> (forall i, i <= q -> xs !!! i = ys !!! i) -> pending high ss xs q -> pending high ss ys q.
Proof.
  induction ss as [|s ss IH]; intros xs ys q Ht He; [done|]. intros (H1 & H2 & H3). destruct Ht as [Ht|]; [|done]. destruct (tail_total _ _ _ Ht) as [Hl Ht']. pose proof (leo_pos s).
  split; [eapply heap_ext; [done| |exact H1]; intros i Hi; apply He; lia|]. split.
  - destruct H2 as [H2|H2]; [left; eapply forest_ext; [by left|exact He|exact H2]|by right].
  - eapply IH; [done| |exact H3]. intros i Hi. apply He. lia.
Qed.
Lemma forest_pending high ss : forall xs q, forest ss xs q -> pending high ss xs q.
Proof. induction ss as [|s ss IH]; intros xs q; [done|]. intros H. pose proof H as (H1 & _ & H3). split; [done|]. split; [by left|by apply IH]. Qed.
(** A heap that could only have been joined beyond the array is in its final place. *)
Lemma pending_forest high ss xs q : pending high ss xs q -> (match ss with [] => True | s :: _ => high < q + leo (s - 1) + 1 end) -> forest ss xs q.
Proof. destruct ss as [|s ss]; [done|]. intros (_ & [H|H] & _) Hlt; [done|lia]. Qed.

(** The last root of a forest is the greatest element. *)
Lemma forest_max ss : forall xs r i, ss <> [] -> total ss = r + 1 -> forest ss xs r -> i <= r -> le (xs !!! i) (xs !!! r).
Proof using cmp_flip cmp_trans.
  induction ss as [|s ss IH]; intros xs r i Hne Ht Hf Hi; [done|]. destruct (tail_total _ _ _ Ht) as [Hl Ht']. destruct Hf as (H1 & H2 & H3).
  destruct (decide (r + 1 - leo s <= i)) as [Hin|Hout]; [by apply (heap_max s)|]. destruct Ht' as [Ht'| ->]; [|cbn [total] in Ht; lia]. destruct ss as [|s2 ss]; [cbn [total] in Ht; lia|].
  eapply cmp_trans; [|exact H2]. apply IH; try done. lia.
Qed.

(** The elements after [r] are in their final places. *)
Definition final xs (r : nat) : Prop := forall i j, i <= j -> r < j -> j < length xs -> le (xs !!! i) (xs !!! j).
Lemma final_perm xs ys r : final xs r -> r < length xs -> ys ≡ₚ xs -> (forall i, r < i -> ys !!! i = xs !!! i) -> final ys r.
Proof.
  intros Hf Hr Hp He i j Hij Hj Hl. assert (length ys = length xs) as Hlen by by rewrite Hp. rewrite (He j Hj). destruct (decide (r < i)) as [Hi|Hi]; [rewrite He by done; apply Hf; lia|].
  assert (drop (S r) ys = drop (S r) xs) as Hd.
  { apply array_eq; [rewrite !length_drop; lia|]. intros k Hk. rewrite length_drop in Hk. rewrite !list_lookup_total_alt, !lookup_drop, <- !list_lookup_total_alt. apply He. lia. }
  assert (take (S r) ys ≡ₚ take (S r) xs) as Ht by (apply (Permutation_app_inv_r (drop (S r) xs)); rewrite <- Hd at 1; by rewrite !take_drop).
  assert (ys !!! i ∈ take (S r) xs) as Hin.
  { rewrite <- Ht. destruct (lookup_lt_is_Some_2 ys i ltac:(lia)) as [y Ey]. rewrite list_lookup_total_alt, Ey. cbn. apply (list_elem_of_lookup_2 _ i). by rewrite lookup_take_lt by lia. }
  apply list_elem_of_lookup in Hin as [k Hk]. pose proof (lookup_lt_Some _ _ _ Hk) as Hkl. rewrite length_take in Hkl. rewrite lookup_take_lt in Hk by lia.
  replace (ys !!! i) with (xs !!! k) by (by rewrite list_lookup_total_alt, Hk). apply Hf; lia.
Qed.
Lemma final_down ss xs r : ss <> [] -> total ss = r + 1 -> forest ss xs r -> final xs r -> 1 <= r -> final xs (r - 1).
Proof using cmp_flip cmp_trans.
  intros Hne Ht Hf Hfi Hr i j Hij Hj Hl. destruct (decide (j = r)) as [->|]; [by apply (forest_max ss)|apply Hfi; lia].
Qed.
Lemma final_sorted xs : final xs 0 -> StronglySorted le xs.
Proof using cmp_flip.
  intros Hf. assert (forall k, k <= length xs -> StronglySorted le (drop (length xs - k) xs)) as H; [|specialize (H (length xs) ltac:(done)); by rewrite Nat.sub_diag in H].
  induction k as [|k IH]; intros Hk; [rewrite drop_ge by lia; constructor|]. set (i := length xs - S k).
  destruct (lookup_lt_is_Some_2 xs i ltac:(lia)) as [x Ex]. rewrite (drop_S _ _ _ Ex). replace (S i) with (length xs - k) by lia. constructor; [apply IH; lia|].
  apply Forall_lookup. intros j y Hy. rewrite lookup_drop in Hy. pose proof (lookup_lt_Some _ _ _ Hy). specialize (Hf i (length xs - k + j) ltac:(lia) ltac:(lia) ltac:(lia)).
  by rewrite !list_lookup_total_alt, Ex, Hy in Hf.
Qed.
End Heaps.

(** ** The bit vector *)

(** The bits for the heaps of the orders [s :: ss], from that of [s]. *)
Fixpoint enc (s : nat) (ss : list nat) : Z := match ss with [] => 1%Z | s2 :: ss => (1 + 2 ^ Z.of_nat (s2 - s) * enc s2 ss)%Z end.
(** The orders ascend, up to [n]. *)
Fixpoint ascends (n s : nat) (ss : list nat) : Prop := s <= n /\ match ss with [] => True | s2 :: ss => s < s2 /\ ascends n s2 ss end.

Lemma ascends_length n ss : forall s, ascends n s ss -> s + length ss <= n.
Proof. induction ss as [|s2 ss IH]; intros s; cbn [ascends length]; [lia|]. intros (_ & H1 & H2). specialize (IH s2 H2). lia. Qed.
Lemma enc_pos ss : forall s, (0 < enc s ss)%Z.
Proof. induction ss as [|s2 ss IH]; intros s; cbn [enc]; [lia|]. specialize (IH s2). nia. Qed.
Lemma enc_cons_even s s2 ss : s < s2 -> exists k, (2 ^ Z.of_nat (s2 - s) * enc s2 ss = 2 * k /\ 0 < k)%Z.
Proof.
  intros H. exists (2 ^ Z.of_nat (s2 - s - 1) * enc s2 ss)%Z. pose proof (enc_pos ss s2). replace (Z.of_nat (s2 - s)) with (Z.succ (Z.of_nat (s2 - s - 1))) by lia.
  rewrite Z.pow_succ_r by lia. split; [lia|nia].
Qed.
Lemma enc_odd n s ss : ascends n s ss -> Z.odd (enc s ss) = true.
Proof.
  destruct ss as [|s2 ss]; cbn [enc ascends]; [done|]. intros (_ & H & _). destruct (enc_cons_even s s2 ss H) as (k & -> & _). by rewrite Z.odd_add_mul_2.
Qed.
Lemma enc_bound n ss : n <= 63 -> forall s, ascends n s ss -> (enc s ss < 2 ^ Z.of_nat (64 - s))%Z.
Proof.
  intros Hn. induction ss as [|s2 ss IH]; intros s; cbn [enc ascends].
  - intros [H _]. apply Z.pow_gt_1; lia.
  - intros (H1 & H2 & H3). specialize (IH s2 H3). assert (s2 <= n) by (destruct ss; cbn in H3; lia).
    replace (Z.of_nat (64 - s)) with (Z.of_nat (s2 - s) + Z.of_nat (64 - s2))%Z by lia. rewrite Z.pow_add_r by lia.
    assert (2 <= 2 ^ Z.of_nat (s2 - s))%Z by (apply (Z.pow_le_mono_r 2 1); lia). nia.
Qed.

Lemma ctz_pow fuel d x : d < fuel -> Z.odd x = true -> ctz fuel (2 ^ Z.of_nat d * x) = Z.of_nat d.
Proof.
  revert fuel. induction d as [|d IH]; intros fuel Hf Hx; (destruct fuel as [|fuel]; [lia|]); cbn [ctz].
  - rewrite Z.mul_1_l. by rewrite Hx.
  - rewrite Nat2Z.inj_succ, Z.pow_succ_r, <- Z.mul_assoc by lia. rewrite Z.odd_mul. cbn [Z.odd andb]. rewrite (Z.mul_comm 2), Z.div_mul by lia. rewrite IH by (done || lia). lia.
Qed.
Lemma pntz_ret n s s2 ss : n <= 63 -> ascends n s (s2 :: ss) -> pntz (Words (enc s (s2 :: ss)) 0) = Ret (Z.of_nat (s2 - s)).
Proof.
  intros Hn Ha. pose proof (enc_bound n (s2 :: ss) Hn s Ha) as Hb. cbn [ascends] in Ha. destruct Ha as (H1 & H2 & H3). pose proof (enc_odd n s2 ss H3) as Ho. pose proof (enc_pos ss s2).
  assert (s2 <= n) by (destruct ss; cbn in H3; lia). pose proof (Z.pow_le_mono_r 2 (Z.of_nat (64 - s)) 64 ltac:(lia) ltac:(lia)).
  unfold pntz, ntz. cbn [p0 enc] in *. replace (1 + _ - 1)%Z with (2 ^ Z.of_nat (s2 - s) * enc s2 ss)%Z by lia. assert (0 < 2 ^ Z.of_nat (s2 - s) * enc s2 ss)%Z by (apply Z.mul_pos_pos; [apply Z.pow_pos_nonneg|]; lia).
  rewrite wrap_small by lia. rewrite (proj2 (Z.eqb_neq (_ * enc s2 ss) 0)) by lia. rewrite ctz_pow by (done || lia). cbn [mbind outcome_bind]. by rewrite (proj2 (Z.eqb_neq (Z.of_nat (s2 - s)) 0)) by lia.
Qed.
Lemma shr_ret x (k : nat) : (0 <= x)%Z -> 1 <= k <= 63 -> shr (Words x 0) (Z.of_nat k) = Ret (Words (x / 2 ^ Z.of_nat k) 0).
Proof.
  intros Hx Hk. unfold shr. rewrite (proj2 (Z.leb_gt 64 _)) by lia. rewrite (proj2 (Z.leb_gt _ 0)), (proj2 (Z.leb_gt 64 _)) by lia. cbn [orb p0 p1].
  rewrite Z.shiftl_0_l, Z.shiftr_0_l. change (u64 0) with 0%Z. by rewrite Z.lor_0_r, Z.shiftr_div_pow2 by lia.
Qed.
Lemma shl_ret x (k : nat) : (0 <= x)%Z -> 1 <= k <= 63 -> (x * 2 ^ Z.of_nat k < 2 ^ 64)%Z -> shl (Words x 0) (Z.of_nat k) = Ret (Words (x * 2 ^ Z.of_nat k) 0).
Proof.
  intros Hx Hk Hb. unfold shl. rewrite (proj2 (Z.leb_gt 64 _)) by lia. rewrite (proj2 (Z.leb_gt _ 0)), (proj2 (Z.leb_gt 64 _)) by lia. cbn [orb p0 p1].
  rewrite Z.shiftl_0_l, Z.shiftl_mul_pow2, Z.shiftr_div_pow2, wrap_small by lia. change (u64 0) with 0%Z. rewrite Z.lor_0_l, Z.div_small; [done|].
  split; [done|]. replace 64%Z with (64 - Z.of_nat k + Z.of_nat k)%Z in Hb at 1 by lia. rewrite Z.pow_add_r in Hb by lia. nia.
Qed.
Lemma shr_next n s s2 ss : n <= 63 -> ascends n s (s2 :: ss) -> shr (Words (enc s (s2 :: ss)) 0) (Z.of_nat (s2 - s)) = Ret (Words (enc s2 ss) 0).
Proof.
  intros Hn Ha. pose proof (enc_pos (s2 :: ss) s). cbn [ascends] in Ha. destruct Ha as (H1 & H2 & H3). assert (s2 <= n) by (destruct ss; cbn in H3; lia). rewrite shr_ret by lia.
  cbn [enc]. rewrite Z.add_comm, (Z.mul_comm (2 ^ _)), Z.div_add_l, Z.div_small; [by rewrite Z.add_0_r| |lia]. split; [lia|]. apply Z.pow_gt_1; lia.
Qed.

(** The words of the next forest, when two heaps are joined, when a heap is added, and
    when one is split. *)
Lemma lor_one k : Z.lor (2 * k) 1 = (1 + 2 * k)%Z.
Proof. rewrite (Z.add_comm 1). rewrite Z.add_nocarry_lxor, Z.lxor_lor; try done; (change 1%Z with (Z.ones 1); rewrite Z.land_ones by lia; change (2 ^ 1)%Z with 2%Z; rewrite Z.mul_comm; apply Z.mod_mul; lia). Qed.
Lemma enc_land n s ss : ascends n s ss -> (Z.land (enc s ss) 3 =? 3)%Z = match ss with [] => false | s2 :: _ => s2 =? S s end.
Proof.
  intros Ha. change 3%Z with (Z.ones 2) at 1. rewrite Z.land_ones by lia. change (2 ^ 2)%Z with 4%Z. destruct ss as [|s2 ss]; [done|]. cbn [ascends enc] in *. destruct Ha as (_ & H & Ha).
  destruct (Nat.eqb_spec s2 (S s)) as [->|Hne].
  - replace (S s - s) with 1 by lia. pose proof (enc_odd _ _ _ Ha) as Ho. apply Zodd_bool_iff, Zodd_ex in Ho as [k ->]. change (2 ^ Z.of_nat 1)%Z with 2%Z.
    replace (1 + 2 * (2 * k + 1))%Z with (3 + k * 4)%Z by lia. by rewrite Z.mod_add by lia.
  - replace (Z.of_nat (s2 - s)) with (2 + Z.of_nat (s2 - s - 2))%Z by lia. rewrite Z.pow_add_r by lia. change (2 ^ 2)%Z with 4%Z.
    replace (1 + 4 * 2 ^ Z.of_nat (s2 - s - 2) * enc s2 ss)%Z with (1 + (2 ^ Z.of_nat (s2 - s - 2) * enc s2 ss) * 4)%Z by lia. by rewrite Z.mod_add by lia.
Qed.
Lemma shr_join s ss : match ss with [] => True | s3 :: _ => s + 3 <= s3 end ->
  exists x, shr (Words (enc s (S s :: ss)) 0) 2 = Ret (Words x 0) /\ Z.lor x 1 = enc (S (S s)) ss.
Proof.
  intros Hg. change 2%Z with (Z.of_nat 2) at 1. pose proof (enc_pos (S s :: ss) s). rewrite shr_ret by lia. eexists. split; [done|]. change (2 ^ Z.of_nat 2)%Z with 4%Z. cbn [enc].
  replace (S s - s) with 1 by lia. change (2 ^ Z.of_nat 1)%Z with 2%Z. destruct ss as [|s3 ss]; [done|]. cbn [enc].
  replace (Z.of_nat (s3 - S s)) with (2 + Z.of_nat (s3 - s - 3))%Z by lia. rewrite Z.pow_add_r by lia. change (2 ^ 2)%Z with 4%Z. set (e := (2 ^ Z.of_nat (s3 - s - 3) * enc s3 ss)%Z).
  replace (1 + 2 * (1 + 4 * 2 ^ Z.of_nat (s3 - s - 3) * enc s3 ss))%Z with (3 + (2 * e) * 4)%Z by (unfold e; lia). rewrite Z.div_add by lia. change (3 / 4)%Z with 0%Z. rewrite Z.add_0_l, lor_one.
  replace (Z.of_nat (s3 - S (S s))) with (1 + Z.of_nat (s3 - s - 3))%Z by lia. rewrite Z.pow_add_r by lia. unfold e. lia.
Qed.
(** A heap of order [o] is put before those from [s] on. *)
Lemma shl_add n o s ss : n <= 63 -> ascends n s ss -> o < s ->
  exists x, shl (Words (enc s ss) 0) (Z.of_nat (s - o)) = Ret (Words x 0) /\ Z.lor x 1 = enc o (s :: ss).
Proof.
  intros Hn Ha Ho. pose proof (enc_bound n ss Hn s Ha) as Hb. pose proof (enc_pos ss s). assert (s <= n) by (destruct ss; cbn in Ha; lia).
  assert (enc s ss * 2 ^ Z.of_nat (s - o) < 2 ^ 64)%Z as Hb2.
  { apply Z.lt_le_trans with (2 ^ Z.of_nat (64 - s) * 2 ^ Z.of_nat (s - o))%Z; [apply Z.mul_lt_mono_pos_r; [apply Z.pow_pos_nonneg; lia|done]|]. rewrite <- Z.pow_add_r by lia. apply Z.pow_le_mono_r; lia. }
  rewrite shl_ret by (done || lia). eexists. split; [done|]. cbn [enc]. destruct (enc_cons_even o s ss Ho) as (k & Ek & _). rewrite (Z.mul_comm (enc s ss)), Ek. apply lor_one.
Qed.
Lemma lxor_split k : Z.lxor ((1 + 2 * k) * 4) 7 = (8 * k + 3)%Z.
Proof.
  assert (Z.land (8 * k) 7 = 0)%Z as H7 by (change 7%Z with (Z.ones 3); rewrite Z.land_ones by lia; change (2 ^ 3)%Z with 8%Z; rewrite Z.mul_comm; apply Z.mod_mul; lia).
  assert (Z.land (8 * k) 4 = 0)%Z as H4 by (change 4%Z with (Z.land 7 4); by rewrite Z.land_assoc, H7).
  assert (Z.land (8 * k) 3 = 0)%Z as H3 by (change 3%Z with (Z.land 7 3); by rewrite Z.land_assoc, H7).
  replace ((1 + 2 * k) * 4)%Z with (8 * k + 4)%Z by lia. by rewrite !Z.add_nocarry_lxor, Z.lxor_assoc.
Qed.
Lemma split_words n s ss : n <= 63 -> ascends n (S (S s)) ss ->
  exists x, shl (Words (enc (S (S s)) ss) 0) 2 = Ret (Words x 0) /\ shr (Words (Z.lxor x 7) 0) 1 = Ret (Words (enc (S s) ss) 0).
Proof.
  intros Hn Ha. pose proof (enc_bound n ss Hn _ Ha) as Hb. pose proof (enc_pos ss (S (S s))). assert (S (S s) <= n) by (destruct ss; cbn in Ha; lia).
  change 2%Z with (Z.of_nat 2) at 1. rewrite shl_ret; [|lia|lia|].
  2: { replace 64%Z with (62 + 2)%Z by lia. rewrite Z.pow_add_r by lia. change (2 ^ Z.of_nat 2)%Z with (2 ^ 2)%Z. apply Z.mul_lt_mono_pos_r; [lia|]. eapply Z.lt_le_trans; [exact Hb|]. apply Z.pow_le_mono_r; lia. }
  eexists. split; [done|]. change (2 ^ Z.of_nat 2)%Z with 4%Z. assert (exists k, 0 <= k /\ enc (S (S s)) ss = 1 + 2 * k /\ enc (S s) ss = 4 * k + 1)%Z as (k & Hk & -> & ->).
  { destruct ss as [|s3 ss]; [exists 0%Z; cbn; lia|]. cbn [ascends enc] in *. destruct Ha as (_ & H3 & _). exists (2 ^ Z.of_nat (s3 - s - 3) * enc s3 ss)%Z. pose proof (enc_pos ss s3).
    replace (Z.of_nat (s3 - S (S s))) with (1 + Z.of_nat (s3 - s - 3))%Z by lia. replace (Z.of_nat (s3 - S s)) with (2 + Z.of_nat (s3 - s - 3))%Z by lia. rewrite !Z.pow_add_r by lia. nia. }
  rewrite lxor_split. pose proof (shr_ret (8 * k + 3) 1 ltac:(lia) ltac:(lia)) as E. change (Z.of_nat 1) with 1%Z in E. rewrite E. change (2 ^ 1)%Z with 2%Z. do 2 f_equal.
  replace (8 * k + 3)%Z with (1 + (4 * k + 1) * 2)%Z by lia. by rewrite Z.div_add by lia.
Qed.

(** ** The code on arrays *)

Lemma plift_ret {A} (o : outcome A) a (m : list ascii) : o = Ret a -> plift o m = Ret (a, m).
Proof. by intros ->. Qed.

Section Code.
Local Set Default Proof Using "All".
Context (cmp : list ascii -> list ascii -> Z) (w : nat).
Context (cmp_flip : forall a b, (cmp a b < 0 <-> 0 < cmp b a)%Z) (cmp_trans : forall a b c, (cmp a b <= 0 -> cmp b c <= 0 -> cmp a c <= 0)%Z).
(** The Leonardo numbers up to the order [n]. *)
Context (n : nat) (lp : list Z) (lp_holds : forall s, s <= n -> lp !! s = Some (Z.of_nat (w * leo s))) (n_bound : n <= 63).
Implicit Types (xs ys : list (list ascii)) (v : list ascii).

Lemma at_lp_ret s (z : Z) (m : list ascii) : z = Z.of_nat s -> s <= n -> at_lp lp z m = Ret (Z.of_nat (w * leo s), m).
Proof. intros -> Hs. unfold at_lp. rewrite (proj2 (Z.ltb_ge _ _)) by lia. rewrite Nat2Z.id, lp_holds by done. done. Qed.
Lemma compare_ret xs i j (a b : Z) : sized w xs -> i < length xs -> j < length xs -> a = Z.of_nat (w * i) -> b = Z.of_nat (w * j) ->
  compare cmp (Z.of_nat w) a b (concat xs) = Ret (cmp (xs !!! i) (xs !!! j), concat xs).
Proof.
  intros Hs Hi Hj -> ->. assert (forall i, i < length xs -> read_at (Z.of_nat (w * i)) (Z.of_nat w) (concat xs) = Ret (xs !!! i, concat xs)) as Hr.
  { intros k Hk. pose proof (read_slice w xs k 0 w Hs Hk ltac:(lia)) as E. rewrite Nat.add_0_r in E. rewrite E. rewrite drop_0, take_ge; [done|]. by rewrite (sized_at w). }
  unfold compare. by rewrite (pbind_ret _ _ _ _ _ (Hr i Hi)), (pbind_ret _ _ _ _ _ (Hr j Hj)).
Qed.
Lemma push_ar ar a (m : list ascii) : (length ar <= 112) -> push ar a m = Ret (ar ++ [a], m).
Proof. intros H. unfold push. by rewrite (proj2 (Z.ltb_lt _ _)) by (unfold AR; lia). Qed.

Abbreviation off i := (Z.of_nat (w * i)).

Lemma off_sub i j : j <= i -> (off i - off j = off (i - j))%Z.
Proof. intros H. rewrite Nat.mul_sub_distr_l. pose proof (Nat.mul_le_mono_l j i w H). lia. Qed.
Lemma off_pred i : 1 <= i -> (off i - Z.of_nat w = off (i - 1))%Z.
Proof. intros H. rewrite <- off_sub by done. lia. Qed.

Lemma sift_loop_holds xs f : sized w xs -> f < length xs -> forall s fuel r ar, s <= n -> s <= fuel -> leo s <= r + 1 -> r < length xs -> length ar + s <= 112 ->
  sift_loop cmp fuel (off f) (off r) (Z.of_nat w) (Z.of_nat s) lp ar (concat xs) = Ret (ar ++ map (fun i => off i) (tail (sift_path cmp s xs (xs !!! f) r)), concat xs).
Proof.
  intros Hs Hf s. induction s as [| |s IH0 IH1] using order_ind; intros fuel r ar Hn Hfu Hl Hr Har.
  1,2: destruct fuel; cbn [sift_loop]; by rewrite app_nil_r.
  rewrite leo_SS in Hl. pose proof (leo_pos s). pose proof (leo_pos (S s)). destruct fuel as [|fuel]; [lia|]. rewrite sift_path_SS. cbn [tail].
  cbn [sift_loop]. rewrite (proj2 (Z.ltb_lt _ _)) by lia. cbn [negb].
  rewrite (pbind_ret _ _ _ _ _ (at_lp_ret s (Z.of_nat (S (S s)) - 2) (concat xs) ltac:(lia) ltac:(lia))).
  rewrite !off_pred, off_sub by lia.
  set (rt := r - 1) in *. set (lf := rt - leo s) in *. set (v := xs !!! f).
  rewrite (pbind_ret _ _ _ _ _ (compare_ret xs f lf _ _ Hs Hf ltac:(lia) eq_refl eq_refl)). fold v.
  assert ((if (0 <=? cmp v (xs !!! lf))%Z then let* c := compare cmp (Z.of_nat w) (off f) (off rt) in pret (0 <=? c)%Z else pret false) (concat xs)
    = Ret (ge cmp v (xs !!! lf) && ge cmp v (xs !!! rt), concat xs)) as Estop.
  { unfold ge. destruct (0 <=? cmp v (xs !!! lf))%Z; [|done]. by rewrite (pbind_ret _ _ _ _ _ (compare_ret xs f rt _ _ Hs Hf ltac:(lia) eq_refl eq_refl)). }
  rewrite (pbind_ret _ _ _ _ _ Estop). destruct (ge cmp v _ && ge cmp v _); [by rewrite app_nil_r|].
  rewrite (pbind_ret _ _ _ _ _ (compare_ret xs lf rt _ _ Hs ltac:(lia) ltac:(lia) eq_refl eq_refl)). unfold ge.
  destruct (0 <=? cmp (xs !!! lf) (xs !!! rt))%Z; rewrite (pbind_ret _ _ _ _ _ (push_ar ar _ (concat xs) ltac:(lia))).
  - replace (Z.of_nat (S (S s)) - 1)%Z with (Z.of_nat (S s)) by lia. rewrite IH1 by (rewrite ?length_app; cbn [length]; lia).
    destruct (sift_path_cons cmp (S s) xs v lf) as [path E]. unfold v in *. rewrite E. by rewrite <- app_assoc.
  - replace (Z.of_nat (S (S s)) - 2)%Z with (Z.of_nat s) by lia. rewrite IH0 by (rewrite ?length_app; cbn [length]; lia).
    destruct (sift_path_cons cmp s xs v rt) as [path E]. unfold v in *. rewrite E. by rewrite <- app_assoc.
Qed.
Lemma sift_path_length s : forall xs v r, length (sift_path cmp s xs v r) <= S s.
Proof. induction s as [| |s IH0 IH1] using order_ind; intros xs v r; [cbn; lia|cbn; lia|]. rewrite sift_path_SS. cbn [length]. repeat case_match; cbn [length]; [lia|specialize (IH1 xs v (r - 1 - leo s)); lia|specialize (IH0 xs v (r - 1)); lia]. Qed.
Lemma sift_holds xs s r (h p : Z) : sized w xs -> s <= n -> leo s <= r + 1 -> r < length xs -> h = off r -> p = Z.of_nat s ->
  sift cmp h (Z.of_nat w) p lp (concat xs) = Ret (tt, concat (sifted cmp s xs (xs !!! r) r)).
Proof.
  intros Hs Hn Hl Hr -> ->. unfold sift. rewrite (pbind_ret _ _ _ _ _ (sift_loop_holds xs r Hs Hr s (Z.to_nat (Z.of_nat s)) r [off r] Hn ltac:(lia) Hl Hr ltac:(cbn [length]; lia))).
  destruct (sift_path_range cmp s xs (xs !!! r) r Hl) as [H1 H2]. pose proof (sift_path_length s xs (xs !!! r) r) as H3. unfold sifted. destruct (sift_path_cons cmp s xs (xs !!! r) r) as [path E]. rewrite E in *. cbn [tail app].
  rewrite <- (map_cons (fun i => off i)), cycle_holds; [done|done|done| |cbn [length] in H3; lia]. eapply Forall_impl; [exact H1|]. cbn. lia.
Qed.

Lemma trinkle_loop_holds xs f : sized w xs -> f < length xs -> forall ss s fuel r trusty ar, ascends n s ss -> total (s :: ss) = r + 1 -> r < length xs -> length ss <= fuel -> length ar + length ss <= 112 ->
  let '(path, r', s', t) := trinkle_path cmp ss s xs (xs !!! f) r trusty in
  trinkle_loop cmp fuel (off f) (off r) (Z.of_nat w) (Words (enc s ss) 0) (Z.of_nat s) trusty lp ar (concat xs) = Ret ((ar ++ map (fun i => off i) path, off r', Z.of_nat s', t), concat xs).
Proof.
  intros Hs Hf ss. induction ss as [|s2 ss IH]; intros s fuel r trusty ar Ha Ht Hr Hfu Har; cbn [trinkle_path].
  { destruct fuel; cbn; by rewrite app_nil_r. }
  destruct fuel as [|fuel]; [cbn in Hfu; lia|]. cbn [trinkle_loop p0 p1]. pose proof (enc_cons_even s s2 ss ltac:(cbn in Ha; tauto)) as (ek & Eek & Hek).
  rewrite (proj2 (Z.eqb_neq (enc s (s2 :: ss)) 1)) by (cbn [enc]; lia). cbn [andb]. destruct (tail_total _ _ _ Ht) as [Hl [Ht'|]]; [|done]. pose proof (leo_pos s). pose proof (leo_pos s2).
  assert (leo s <= r) by (cbn [total] in Ht; lia). assert (s <= n) by (cbn in Ha; tauto).
  rewrite (pbind_ret _ _ _ _ _ (at_lp_ret s (Z.of_nat s) (concat xs) eq_refl ltac:(lia))). rewrite off_sub by done. set (q := r - leo s) in *. set (v := xs !!! f).
  rewrite (pbind_ret _ _ _ _ _ (compare_ret xs q f _ _ Hs ltac:(lia) Hf eq_refl eq_refl)). fold v. destruct (cmp (xs !!! q) v <=? 0)%Z; [by rewrite app_nil_r|].
  set (stop := if negb trusty && (1 <? Z.of_nat s)%Z then _ else pret false).
  assert (stop (concat xs) = Ret (negb trusty && stops cmp s xs r (xs !!! q), concat xs)) as Estop.
  { unfold stop. destruct trusty; [done|]. cbn [negb andb]. destruct s as [|[|s]]; [done|done|]. rewrite leo_SS in *. pose proof (leo_pos s). pose proof (leo_pos (S s)).
    rewrite (proj2 (Z.ltb_lt _ _)) by lia. rewrite (pbind_ret _ _ _ _ _ (at_lp_ret s (Z.of_nat (S (S s)) - 2) (concat xs) ltac:(lia) ltac:(lia))). rewrite off_pred, off_sub by lia.
    rewrite (pbind_ret _ _ _ _ _ (compare_ret xs (r - 1) q _ _ Hs ltac:(lia) ltac:(lia) eq_refl eq_refl)). cbn [stops]. unfold ge. destruct (0 <=? cmp (xs !!! (r - 1)%nat) _)%Z; [done|].
    by rewrite (pbind_ret _ _ _ _ _ (compare_ret xs (r - 1 - leo s) q _ _ Hs ltac:(lia) ltac:(lia) eq_refl eq_refl)). }
  rewrite (pbind_ret _ _ _ _ _ Estop). destruct (negb trusty && stops cmp s xs r (xs !!! q)); [by rewrite app_nil_r|]. clear stop Estop.
  cbn [length] in *. rewrite (pbind_ret _ _ _ _ _ (push_ar ar (off q) (concat xs) ltac:(lia))).
  rewrite (pbind_ret (plift (pntz _)) _ _ (Z.of_nat (s2 - s)) (concat xs)) by (unfold plift; by rewrite (pntz_ret n)).
  rewrite (pbind_ret (plift (shr _ _)) _ _ (Words (enc s2 ss) 0) (concat xs)) by (unfold plift; by rewrite (shr_next n)).
  cbn [ascends] in Ha. destruct Ha as (_ & Hss2 & Ha2). replace (Z.of_nat s + Z.of_nat (s2 - s))%Z with (Z.of_nat s2) by lia.
  specialize (IH s2 fuel q false (ar ++ [off q]) Ha2 Ht' ltac:(lia) ltac:(lia) ltac:(rewrite length_app; cbn [length]; lia)). fold v in IH.
  destruct (trinkle_path cmp ss s2 xs v q false) as [[[path r'] s'] t]. rewrite IH. by rewrite <- app_assoc.
Qed.
Lemma ascends_in ss : forall s x, ascends n s ss -> x ∈ s :: ss -> x <= n.
Proof. induction ss as [|s2 ss IH]; intros s x; cbn [ascends]; intros (H1 & H2) [->|Hx]%elem_of_cons; try done; [by apply elem_of_nil in Hx|]. destruct H2 as [_ H2]. by apply (IH s2). Qed.
Lemma move_last v path : forall i xs r, NoDup (i :: path) -> Forall (fun k => k < length xs) (i :: path) -> last (i :: path) = Some r -> move v (i :: path) xs !!! r = v.
Proof.
  intros i xs r Hnd Hl Hlast. rewrite last_lookup in Hlast. rewrite (move_at v _ xs _ _ Hnd Hl Hlast). rewrite lookup_ge_None_2; [done|]. cbn [length]. lia.
Qed.

Lemma trinkle_holds xs ss s r trusty (h p : Z) : sized w xs -> ascends n s ss -> total (s :: ss) = r + 1 -> r < length xs -> h = off r -> p = Z.of_nat s ->
  trinkle cmp h (Z.of_nat w) (Words (enc s ss) 0) p trusty lp (concat xs) = Ret (tt, concat (trinkled cmp ss s xs (xs !!! r) r trusty)).
Proof.
  intros Hs Ha Ht Hr -> ->. unfold trinkle. pose proof (ascends_length n ss s Ha) as Hlen.
  pose proof (trinkle_loop_holds xs r Hs Hr ss s 128 r trusty [off r] Ha Ht Hr ltac:(lia) ltac:(cbn [length]; lia)) as E.
  destruct (trinkle_path cmp ss s xs (xs !!! r) r trusty) as [[[path r'] s'] t] eqn:Ep. rewrite (pbind_ret _ _ _ _ _ E).
  rewrite (trinkled_path cmp ss s xs (xs !!! r) r trusty path r' s' t Ht Ep). destruct (trinkle_path_facts cmp ss s xs _ r trusty path r' s' t Ht Ep) as (H1 & H2 & H3 & H4 & H5 & H6 & H7 & _).
  destruct t; cbn [negb].
  - unfold pret. f_equal. f_equal. f_equal. apply array_eq; [by rewrite length_insert|]. intros i Hi. destruct (decide (i = r)) as [->|]; [by rewrite total_insert|by rewrite total_insert_ne].
  - assert (Forall (fun k => k < length xs) (r :: path)) as Hrange by (constructor; [done|]; eapply Forall_impl; [exact H1|]; cbn; lia).
    cbn [app]. rewrite <- (map_cons (fun i => off i)). rewrite (pbind_ret _ _ _ _ _ (cycle_holds w r path xs Hs H2 Hrange ltac:(lia))).
    rewrite (sift_holds _ s' r'); [by rewrite move_last|apply move_sized; try done; by apply sized_at|by eapply ascends_in|done|rewrite move_length; lia|done|done].
Qed.

(** *** The heaps up to [high] *)

Context (high : nat) (high_bound : high + 1 <= leo n) (n_pos : 1 <= n) (w_pos : 1 <= w).

Lemma order_bound s : leo s <= high + 1 -> s <= n.
Proof. intros H. destruct (decide (s <= n)) as [|Hgt]; [done|]. pose proof (leo_mono (S n) s ltac:(lia)). destruct n as [|n']; [lia|]. rewrite leo_SS in *. pose proof (leo_pos n'). lia. Qed.

(** The orders differ by at least two, but for the last two heaps. *)
Fixpoint gaps (ss : list nat) : Prop := match ss with s :: ((s2 :: _) as t) => s + 2 <= s2 /\ gaps t | _ => True end.

Record building s ss xs (r : nat) : Prop := Building {
  b_total : total (s :: ss) = r + 1;
  b_ascends : ascends n s ss;
  b_gaps : gaps ss;
  b_zero : s = 0 -> exists t, ss = 1 :: t;
  b_high : r <= high;
  b_length : length xs = high + 1;
  b_sized : sized w xs;
  b_subs : subs cmp s xs r;
  b_pending : pending cmp high ss xs (r - leo s) }.

Lemma gaps_tail s ss : gaps (s :: ss) -> gaps ss.
Proof. destruct ss; cbn; [done|tauto]. Qed.
Lemma self_insert xs r : r < length xs -> <[r := xs !!! r]> xs = xs.
Proof. intros Hr. apply array_eq; [by rewrite length_insert|]. intros i Hi. destruct (decide (i = r)) as [->|]; [by rewrite total_insert|by rewrite total_insert_ne]. Qed.
Lemma sized_perm xs ys : sized w xs -> ys ≡ₚ xs -> sized w ys.
Proof. intros Hs Hp. unfold sized. by rewrite Hp. Qed.

(** The last heap is made a heap, with the elements before it as they were. *)
Lemma after_sift s ss xs r : building s ss xs r -> let ys := sifted cmp s xs (xs !!! r) r in
  ys ≡ₚ xs /\ length ys = high + 1 /\ sized w ys /\ heap cmp s ys r /\ pending cmp high ss ys (r - leo s).
Proof.
  intros [B1 B2 B3 B4 B5 B6 B7 B8 B9] ys. destruct (tail_total _ _ _ B1) as [Hl Ht'].
  assert (ys ≡ₚ xs) as Hp by (unfold ys; rewrite sifted_perm by lia; by rewrite self_insert by lia). split; [done|]. split; [by rewrite <- B6, Hp|]. split; [by eapply sized_perm|].
  split; [apply sifted_heap; try done; lia|]. destruct ss as [|s2 ss]; [done|]. eapply pending_swap; [exact Ht'| |exact B9]. intros i Hi. unfold ys. pose proof (leo_pos s). pose proof (leo_pos s2).
  rewrite sifted_other; [done|done|]. cbn [total] in B1. lia.
Qed.

(** A heap of order 1, or 0 after one of order 1, is added. *)
Lemma building_add o s ss ys r : total (s :: ss) = r + 1 -> ascends n s ss -> gaps (s :: ss) -> r < high -> length ys = high + 1 -> sized w ys -> pending cmp high (s :: ss) ys r ->
  (o = 0 /\ s = 1 \/ o = 1 /\ 2 <= s) -> building o (s :: ss) ys (r + 1).
Proof.
  intros Ht Ha Hg Hr Hl Hs Hp Ho. assert (leo o = 1) as Elo by (destruct Ho as [[-> _]|[-> _]]; done). split; try done.
  - cbn [total] in *. lia.
  - cbn [ascends]. split; [lia|]. split; [lia|done].
  - intros ->. destruct Ho as [[_ ->]|[? _]]; [by eexists|lia].
  - lia.
  - by destruct Ho as [[-> _]|[-> _]].
  - rewrite Elo. replace (r + 1 - 1) with r by lia. done.
Qed.
(** The last two heaps are joined under the next element. *)
Lemma building_join s ss ys r : total (s :: S s :: ss) = r + 1 -> ascends n s (S s :: ss) -> gaps (S s :: ss) -> r < high -> length ys = high + 1 -> sized w ys ->
  heap cmp s ys r -> pending cmp high (S s :: ss) ys (r - leo s) -> building (S (S s)) ss ys (r + 1).
Proof.
  intros Ht Ha Hg Hr Hl Hs Hh Hp. cbn [total] in Ht. pose proof (leo_pos s). pose proof (leo_pos (S s)). destruct Hp as (Hh2 & _ & Hp). split; try done.
  - cbn [total]. rewrite leo_SS. lia.
  - cbn [ascends] in *. destruct Ha as (_ & _ & Ha). assert (S (S s) <= n) by (apply order_bound; rewrite leo_SS; lia). destruct ss as [|s3 ss]; [done|]. cbn [ascends gaps] in *. split; [done|]. split; [lia|tauto].
  - by apply gaps_tail in Hg.
  - lia.
  - cbn [subs]. replace (r + 1 - 1) with r by lia. done.
  - rewrite leo_SS. replace (r + 1 - (leo s + leo (S s) + 1)) with (r - leo s - leo (S s)) by lia. done.
Qed.

(** A heap that stays as it is: it is put under its neighbours, or it waits to be joined. *)
Lemma after_place s ss xs r : building s ss xs r -> r < high -> 1 <= s -> match ss with [] => True | s2 :: _ => s2 <> S s end ->
  exists ys, (if (off high - off r <=? off (leo (s - 1)))%Z then trinkle cmp (off r) (Z.of_nat w) (Words (enc s ss) 0) (Z.of_nat s) false lp
              else sift cmp (off r) (Z.of_nat w) (Z.of_nat s) lp) (concat xs) = Ret (tt, concat ys) /\
    ys ≡ₚ xs /\ length ys = high + 1 /\ sized w ys /\ pending cmp high (s :: ss) ys r.
Proof.
  intros B Hr Hs Hne. pose proof (after_sift s ss xs r B) as (S1 & S2 & S3 & S4 & S5). destruct B as [B1 B2 B3 B4 B5 B6 B7 B8 B9]. destruct (tail_total _ _ _ B1) as [Hl Ht'].
  assert (s <= n) as Hsn by (destruct ss; cbn in B2; tauto). rewrite off_sub by lia.
  destruct (Z.leb_spec (off (high - r)) (off (leo (s - 1)))) as [Hle|Hgt].
  - assert (high - r <= leo (s - 1)) as Hle' by (apply (Nat.mul_le_mono_pos_l _ _ w); lia).
    assert (forest cmp ss xs (r - leo s)) as Hf.
    { apply (pending_forest cmp high); [done|]. destruct ss as [|s2 ss]; [done|]. cbn [ascends] in B2. destruct B2 as (_ & H2 & _).
      assert (leo s <= r) by (cbn [total] in B1; pose proof (leo_pos s2); lia). pose proof (leo_mono (S s) (s2 - 1) ltac:(lia)) as Hm. destruct s as [|s]; [lia|]. rewrite leo_SS in Hm. replace (S s - 1) with s in Hle' by lia. lia. }
    rewrite (trinkle_holds xs ss s r false _ _ B7 B2 B1 ltac:(lia) eq_refl eq_refl). eexists. split; [done|].
    destruct (trinkled_ok cmp cmp_flip cmp_trans ss s xs (xs !!! r) r false B1 ltac:(lia) B8 Hf ltac:(done)) as [T1 T2 T3 T4 T5]. rewrite self_insert in T2 by lia.
    split_and!; [done|lia|by apply (sized_perm xs)|by apply forest_pending].
  - rewrite (sift_holds xs s r _ _ B7 Hsn Hl ltac:(lia) eq_refl eq_refl). eexists. split; [done|]. split; [done|]. split; [done|]. split; [done|].
    split; [done|]. split; [right|done]. assert (leo (s - 1) < high - r) by (apply (Nat.mul_lt_mono_pos_l w); lia). lia.
Qed.

Lemma build_holds fuel : forall s ss xs r, building s ss xs r -> high - r <= fuel ->
  exists s' ss' ys, build_loop cmp fuel (off r) (off high) (Z.of_nat w) (Words (enc s ss) 0) (Z.of_nat s) lp (concat xs) = Ret ((off high, Words (enc s' ss') 0, Z.of_nat s'), concat ys) /\
    building s' ss' ys high /\ ys ≡ₚ xs.
Proof.
  induction fuel as [|fuel IH]; intros s ss xs r B Hf; pose proof (b_high _ _ _ _ B) as Hrh.
  { replace r with high in * by lia. exists s, ss, xs. cbn [build_loop]. by rewrite Z.ltb_irrefl. }
  destruct (decide (r = high)) as [->|Hne]; [exists s, ss, xs; cbn [build_loop]; by rewrite Z.ltb_irrefl|]. assert (r < high) as Hr by lia.
  cbn [build_loop]. rewrite (proj2 (Z.ltb_lt _ _)) by (apply Nat2Z.inj_lt, Nat.mul_lt_mono_pos_l; lia). cbn [negb p0].
  assert (off r + Z.of_nat w = off (r + 1))%Z as -> by lia.
  match goal with |- context [pbind ?e _] => assert (exists o ss1 x ys, e (concat xs) = Ret ((Words x 0, Z.of_nat o), concat ys) /\ Z.lor x 1 = enc o ss1 /\ building o ss1 ys (r + 1) /\ ys ≡ₚ xs)
    as (o & ss1 & x & ys & E & Ex & B1 & Hp) end.
  { rewrite (enc_land n s ss (b_ascends _ _ _ _ B)). destruct (match ss with [] => false | s2 :: _ => s2 =? S s end) eqn:Ej.
    - destruct ss as [|s2 ss]; [done|]. apply Nat.eqb_eq in Ej as ->. pose proof (after_sift _ _ _ _ B) as (S1 & S2 & S3 & S4 & S5). destruct B as [B1 B2 B3 B4 B5 B6 B7 B8 B9]. destruct (tail_total _ _ _ B1) as [Hl _].
      assert (s <= n) as Hsn by (cbn in B2; tauto). rewrite (pbind_ret _ _ _ _ _ (sift_holds xs s r _ _ B7 Hsn Hl ltac:(lia) eq_refl eq_refl)).
      destruct (shr_join s ss) as (x & Ex1 & Ex2); [destruct ss as [|s3 ss]; [done|]; cbn in B3; lia|]. rewrite (pbind_ret _ _ _ _ _ (plift_ret _ _ _ Ex1)).
      exists (S (S s)), ss, x, (sifted cmp s xs (xs !!! r) r). split; [unfold pret; do 3 f_equal; lia|]. split; [done|]. split; [|done]. by apply building_join.
    - assert (1 <= s) as Hs1 by (destruct s as [|s]; [destruct (b_zero _ _ _ _ B eq_refl) as [t ->]; done|lia]). assert (s <= n) as Hsn by (pose proof (b_ascends _ _ _ _ B) as Ha; destruct ss; cbn in Ha; tauto).
      rewrite (pbind_ret _ _ _ _ _ (at_lp_ret (s - 1) (Z.of_nat s - 1) (concat xs) ltac:(lia) ltac:(lia))).
      destruct (after_place s ss xs r B Hr Hs1) as (ys & Ey & P1 & P2 & P3 & P4); [destruct ss as [|s2 ss]; [done|]; by apply Nat.eqb_neq in Ej|]. rewrite (pbind_ret _ _ _ _ _ Ey).
      destruct B as [B1 B2 B3 B4 B5 B6 B7 B8 B9]. assert (gaps (s :: ss)) as Hg by (destruct ss as [|s2 ss]; [done|]; cbn in B2; apply Nat.eqb_neq in Ej; cbn [gaps]; split; [lia|done]).
      destruct (Z.eqb_spec (Z.of_nat s) 1) as [E1|E1].
      + assert (s = 1) as -> by lia. destruct (shl_add n 0 1 ss n_bound B2 ltac:(lia)) as (x & Ex1 & Ex2). change (Z.of_nat (1 - 0)) with 1%Z in Ex1. rewrite (pbind_ret _ _ _ _ _ (plift_ret _ _ _ Ex1)).
        exists 0, (1 :: ss), x, ys. split; [done|]. split; [done|]. split; [|done]. apply building_add; try done. by left.
      + destruct (shl_add n 1 s ss n_bound B2 ltac:(lia)) as (x & Ex1 & Ex2). replace (Z.of_nat (s - 1)) with (Z.of_nat s - 1)%Z in Ex1 by lia. rewrite (pbind_ret _ _ _ _ _ (plift_ret _ _ _ Ex1)).
        exists 1, (s :: ss), x, ys. split; [done|]. split; [done|]. split; [|done]. apply building_add; try done. right. lia. }
  rewrite (pbind_ret _ _ _ _ _ E). cbn [p0 p1]. rewrite Ex. destruct (IH o ss1 ys (r + 1) B1 ltac:(lia)) as (s' & ss' & zs & E2 & B2 & Hp2). exists s', ss', zs. split; [done|]. split; [done|]. by rewrite Hp2.
Qed.

(** *** The heaps are taken apart *)

Record sorting s ss xs (r : nat) : Prop := Sorting {
  s_total : total (s :: ss) = r + 1;
  s_ascends : ascends n s ss;
  s_zero : s = 0 -> exists t, ss = 1 :: t;
  s_length : r < length xs;
  s_sized : sized w xs;
  s_forest : forest cmp (s :: ss) xs r;
  s_final : final cmp xs r }.

(** A heap that is one already is put under its neighbours. *)
Lemma trinkle_trusted s ss xs r (h p : Z) : total (s :: ss) = r + 1 -> ascends n s ss -> r < length xs -> sized w xs -> heap cmp s xs r -> forest cmp ss xs (r - leo s) -> h = off r -> p = Z.of_nat s ->
  exists ys, trinkle cmp h (Z.of_nat w) (Words (enc s ss) 0) p true lp (concat xs) = Ret (tt, concat ys) /\
    ys ≡ₚ xs /\ length ys = length xs /\ sized w ys /\ forest cmp (s :: ss) ys r /\ forall i, r < i -> ys !!! i = xs !!! i.
Proof.
  intros Ht Ha Hr Hs Hh Hf Eh Ep. rewrite (trinkle_holds xs ss s r true h p Hs Ha Ht Hr Eh Ep). eexists. split; [done|]. apply heap_split in Hh as [Hsub Hab].
  destruct (trinkled_ok cmp cmp_flip cmp_trans ss s xs (xs !!! r) r true Ht Hr Hsub Hf ltac:(done)) as [T1 T2 T3 T4 T5]. rewrite self_insert in T2 by lia. split_and!; try done. by apply (sized_perm xs).
Qed.

(** A last heap of one element is its element. *)
Lemma pop_step s s2 ss xs r : sorting s (s2 :: ss) xs r -> final cmp xs (r - 1) -> s <= 1 -> sorting s2 ss xs (r - 1).
Proof.
  intros [S1 S2 S3 S4 S5 S6 S7] Hfin Hs. destruct (tail_total _ _ _ S1) as [Hl Ht']. assert (leo s = 1) as El by (destruct s as [|[|s]]; [done|done|lia]).
  cbn [ascends forest] in *. rewrite El in *. destruct S6 as (_ & _ & S6). split; try tauto; try lia; [destruct Ht' as [->|]; [lia|done]|exact S6].
Qed.
(** A larger heap is its root and two heaps. *)
Lemma split_step s ss xs r : sorting (S (S s)) ss xs r -> final cmp xs (r - 1) -> 1 <= r ->
  exists ys, (let* p := plift (shl (Words (enc (S (S s)) ss) 0) 2) in
      let pshift := (Z.of_nat (S (S s)) - 2)%Z in
      let p := Words (Z.lxor (p0 p) 7) (p1 p) in
      let* p := plift (shr p 1) in
      let* n := at_lp lp pshift in
      do* trinkle cmp (off r - n - Z.of_nat w) (Z.of_nat w) p (pshift + 1) true lp;
      let* p := plift (shl p 1) in
      let p := Words (Z.lor (p0 p) 1) (p1 p) in
      do* trinkle cmp (off (r - 1)) (Z.of_nat w) p pshift true lp;
      pret (p, pshift)) (concat xs) = Ret ((Words (enc s (S s :: ss)) 0, Z.of_nat s), concat ys) /\ sorting s (S s :: ss) ys (r - 1) /\ ys ≡ₚ xs.
Proof.
  intros [S1 S2 S3 S4 S5 S6 S7] Hfin Hr. destruct (tail_total _ _ _ S1) as [Hl Ht']. cbn [total] in S1. rewrite leo_SS in *. pose proof (leo_pos s). pose proof (leo_pos (S s)).
  assert (S (S s) <= n /\ ascends n (S s) ss) as [Hsn Ha1] by (destruct ss as [|s3 ss]; cbn in S2 |- *; split_and!; try tauto; lia).
  destruct (split_words n s ss n_bound S2) as (x & E1 & E2). rewrite (pbind_ret _ _ _ _ _ (plift_ret _ _ _ E1)). cbn [p0 p1]. rewrite (pbind_ret _ _ _ _ _ (plift_ret _ _ _ E2)).
  replace (Z.of_nat (S (S s)) - 2)%Z with (Z.of_nat s) by lia. rewrite (pbind_ret _ _ _ _ _ (at_lp_ret s (Z.of_nat s) (concat xs) eq_refl ltac:(lia))).
  cbn [forest] in S6. rewrite heap_SS, leo_SS in S6. destruct S6 as ((_ & _ & Hh1 & Hh0) & _ & Hf). set (q := r - 1 - leo s) in *. replace (r - (leo s + leo (S s) + 1)) with (q - leo (S s)) in Hf by lia.
  destruct (trinkle_trusted (S s) ss xs q (off r - off (leo s) - Z.of_nat w) (Z.of_nat s + 1)) as (ys & Ey & Y1 & Y2 & Y3 & Y4 & Y5); try done; try lia.
  { cbn [total]. lia. } { rewrite off_sub, off_pred by lia. do 2 f_equal. lia. }
  rewrite (pbind_ret _ _ _ _ _ Ey). destruct (shl_add n s (S s) ss n_bound Ha1 ltac:(lia)) as (x1 & E3 & E4). replace (S s - s) with 1 in E3 by lia. change (Z.of_nat 1) with 1%Z in E3.
  rewrite (pbind_ret _ _ _ _ _ (plift_ret _ _ _ E3)). cbn [p0 p1]. rewrite E4. assert (ascends n s (S s :: ss)) as Ha0 by (cbn [ascends]; split_and!; [lia|lia|done]).
  destruct (trinkle_trusted s (S s :: ss) ys (r - 1) (off (r - 1)) (Z.of_nat s)) as (zs & Ez & Z1 & Z2 & Z3 & Z4 & Z5); try done; try lia.
  { cbn [total]. lia. } { eapply heap_ext; [| |exact Hh0]; [lia|]. intros i Hi. symmetry. apply Y5. lia. }
  rewrite (pbind_ret _ _ _ _ _ Ez). exists zs. split; [done|]. assert (zs ≡ₚ xs) as Hp by by rewrite Z1. split; [|done]. split; try done; try lia.
  - cbn [total]. lia.
  - intros ->. by eexists.
  - apply (final_perm cmp xs); try done; [lia|]. intros i Hi. rewrite Z5, Y5 by lia. done.
Qed.
(** The forest of one heap of order 1 is the end. *)
Lemma last_heap s ss r : total (s :: ss) = r + 1 -> (s = 0 -> exists t, ss = 1 :: t) -> (r = 0 <-> s = 1 /\ ss = []).
Proof.
  intros Ht Hz. split; [|intros [-> ->]; cbn in Ht; lia]. intros ->. cbn [total] in Ht. pose proof (leo_pos s). assert (ss = []) as -> by (destruct ss as [|s2 ss]; [done|]; cbn [total] in Ht; pose proof (leo_pos s2); lia).
  split; [|done]. destruct s as [|[|s]]; [by destruct (Hz eq_refl)|done|]. rewrite leo_SS in *. pose proof (leo_pos s). pose proof (leo_pos (S s)). cbn in Ht. lia.
Qed.

Lemma unbuild_holds fuel : forall s ss xs r, sorting s ss xs r -> r <= fuel ->
  exists ys, unbuild_loop cmp fuel (off r) (Z.of_nat w) (Words (enc s ss) 0) (Z.of_nat s) lp (concat xs) = Ret (tt, concat ys) /\ ys ≡ₚ xs /\ sized w ys /\ StronglySorted (le cmp) ys.
Proof.
  induction fuel as [|fuel IH]; intros s ss xs r S0 Hf; pose proof (last_heap s ss r (s_total _ _ _ _ S0) (s_zero _ _ _ _ S0)) as Hlast.
  all: assert (r = 0 -> exists ys, pret tt (concat xs) = Ret (tt, concat ys) /\ ys ≡ₚ xs /\ sized w ys /\ StronglySorted (le cmp) ys) as Hend
    by (intros ->; exists xs; destruct S0; split_and!; try done; by apply final_sorted).
  { destruct (proj1 Hlast ltac:(lia)) as [-> ->]. apply Hend. lia. }
  destruct (decide (r = 0)) as [->|Hr]; [destruct (proj1 Hlast eq_refl) as [-> ->]; by apply Hend|]. clear Hend. cbn [unbuild_loop p0 p1].
  assert (negb (Z.of_nat s =? 1)%Z || negb (enc s ss =? 1)%Z || negb (0 =? 0)%Z = true) as ->.
  { apply orb_true_iff. left. apply orb_true_iff. destruct (Z.eqb_spec (Z.of_nat s) 1); [right|by left]. destruct ss as [|s2 ss]; [exfalso; apply Hr, Hlast; split; [lia|done]|].
    pose proof (s_ascends _ _ _ _ S0) as Ha. cbn in Ha. destruct (enc_cons_even s s2 ss ltac:(tauto)) as (k & Ek & Hk). rewrite (proj2 (Z.eqb_neq _ _)); [done|]. cbn [enc]. lia. }
  cbn [negb]. assert (final cmp xs (r - 1)) as Hfin by (destruct S0; apply (final_down cmp cmp_flip cmp_trans (s :: ss)); done || lia). rewrite off_pred by lia.
  match goal with |- context [pbind ?e _] => assert (exists o ss1 ys, e (concat xs) = Ret ((Words (enc o ss1) 0, Z.of_nat o), concat ys) /\ sorting o ss1 ys (r - 1) /\ ys ≡ₚ xs)
    as (o & ss1 & ys & E & So & Hp) end.
  - destruct (Z.leb_spec (Z.of_nat s) 1) as [Hs1|Hs1].
    + destruct ss as [|s2 ss]; [exfalso; destruct (decide (s = 0)) as [E0|]; [by destruct (s_zero _ _ _ _ S0 E0)|apply Hr, Hlast; split; [lia|done]]|]. pose proof (s_ascends _ _ _ _ S0) as Ha.
      rewrite (pbind_ret _ _ _ _ _ (plift_ret _ _ _ (pntz_ret n s s2 ss n_bound Ha))), (pbind_ret _ _ _ _ _ (plift_ret _ _ _ (shr_next n s s2 ss n_bound Ha))).
      exists s2, ss, xs. split; [unfold pret; do 3 f_equal; cbn in Ha; lia|]. split; [|done]. apply (pop_step s); [done|done|lia].
    + destruct s as [|[|s]]; [lia|lia|]. destruct (split_step s ss xs r S0 Hfin ltac:(lia)) as (ys & E & So & Hp). by exists s, (S s :: ss), ys.
  - rewrite (pbind_ret _ _ _ _ _ E). destruct (IH o ss1 ys (r - 1) So ltac:(lia)) as (zs & E2 & Hp2 & Hz). exists zs. split; [done|]. split; [by rewrite Hp2|done].
Qed.
End Code.

(** ** The whole of [qsort] *)

(** The Leonardo numbers as integers. *)
Fixpoint leo_pair (s : nat) : Z * Z := match s with O => (1, 1)%Z | S s => let (x, y) := leo_pair s in (y, x + y + 1)%Z end.
Lemma leo_pair_spec s : leo_pair s = (Z.of_nat (leo s), Z.of_nat (leo (S s))).
Proof. induction s as [|s IH]; [done|]. cbn [leo_pair]. rewrite IH, leo_SS. f_equal. lia. Qed.
Lemma leo_large k : 63 <= k -> (2 ^ 44 < Z.of_nat (leo k))%Z.
Proof.
  intros Hk. assert (Z.of_nat (leo k) = fst (leo_pair k)) as -> by by rewrite leo_pair_spec.
  assert (forall i j : nat, i <= j -> (fst (leo_pair i) <= fst (leo_pair j))%Z) as Hm by (intros i j Hij; rewrite !leo_pair_spec; cbn [fst]; apply Nat2Z.inj_le, leo_mono, Hij).
  eapply Z.lt_le_trans; [|apply (Hm _ _ Hk)]. by vm_compute.
Qed.

Definition lp_of (w k : nat) : list Z := map (fun s => Z.of_nat (w * leo s)) (seq 0 k).
Lemma lp_of_at w k s : s < k -> lp_of w k !! s = Some (Z.of_nat (w * leo s)).
Proof. intros H. unfold lp_of. change (map ?f ?l) with (f <$> l). rewrite list_lookup_fmap, lookup_seq_lt by done. done. Qed.

Lemma lp_loop_holds w m : (Z.of_nat m <= 2 ^ 44)%Z -> (Z.of_nat (w * m) < 2 ^ 62)%Z -> 1 <= w -> 1 <= m -> forall fuel k, 2 <= k -> k + fuel = 96 -> k = 2 \/ leo (k - 1) < m ->
  exists n, lp_loop fuel (Z.of_nat w) (Z.of_nat (w * m)) (lp_of w k) = Ret (lp_of w (S n)) /\ 1 <= n <= 63 /\ m <= leo n.
Proof.
  intros Hm Hwm Hw Hm1. assert (forall k, leo k < m -> k < 63) as Hbig.
  { intros k Hk. destruct (decide (k < 63)) as [|Hge]; [done|]. pose proof (leo_large k ltac:(lia)). lia. }
  induction fuel as [|fuel IH]; intros k Hk Hf Hprev; [exfalso; destruct Hprev as [->|Hprev]; [lia|apply Hbig in Hprev; lia]|]. cbn [lp_loop].
  assert (length (lp_of w k) = k) as El by (unfold lp_of; by rewrite length_map, length_seq). rewrite El, !lp_of_at by lia. cbn [deref mbind outcome_bind].
  assert (leo k = leo (k - 2) + leo (k - 1) + 1) as Ek by (destruct k as [|[|k]]; [lia|lia|]; rewrite leo_SS; do 3 f_equal; lia).
  assert (Z.of_nat (w * leo k) < 2 ^ 64)%Z as Hb.
  { pose proof (leo_mono (k - 2) (k - 1) ltac:(lia)). destruct Hprev as [->|Hprev]; [cbn [leo Nat.add]|]; nia. }
  rewrite wrap_small by nia. replace (Z.of_nat (w * leo (k - 2)) + Z.of_nat (w * leo (k - 1)) + Z.of_nat w)%Z with (Z.of_nat (w * leo k)) by nia.
  assert (lp_of w k ++ [Z.of_nat (w * leo k)] = lp_of w (S k)) as -> by (unfold lp_of; by rewrite seq_S, map_app).
  destruct (Z.ltb_spec (Z.of_nat (w * leo k)) (Z.of_nat (w * m))) as [Hlt|Hge].
  - apply (IH (S k)); [lia|lia|right]. replace (S k - 1) with k by lia. nia.
  - exists k. split; [done|]. split; [|nia]. destruct Hprev as [->|Hprev]; [lia|]. apply Hbig in Hprev. lia.
Qed.

Section Whole.
Context (cmp : list ascii -> list ascii -> Z).
Context (cmp_flip : forall a b, (cmp a b < 0 <-> 0 < cmp b a)%Z) (cmp_trans : forall a b c, (cmp a b <= 0 -> cmp b c <= 0 -> cmp a c <= 0)%Z).

Lemma qsort_nonempty w xs : sized w xs -> 1 <= w -> 1 <= length xs -> (Z.of_nat (length xs) <= 2 ^ 44)%Z -> (Z.of_nat (w * length xs) < 2 ^ 62)%Z ->
  exists ys, qsort cmp (Z.of_nat (length xs)) (Z.of_nat w) (concat xs) = Ret (tt, concat ys) /\ ys ≡ₚ xs /\ sized w ys /\ StronglySorted (le cmp) ys.
Proof using cmp_flip cmp_trans.
  intros Hs Hw Hn Hm Hwm. unfold qsort. rewrite <- Nat2Z.inj_mul, wrap_small by lia. rewrite (proj2 (Z.eqb_neq _ _)) by nia. unfold leonardo.
  destruct (lp_loop_holds w (length xs) Hm Hwm Hw Hn 94 2 ltac:(lia) ltac:(lia) ltac:(by left)) as (n & El & Hn1 & Hle).
  assert (lp_of w 2 = [Z.of_nat w; Z.of_nat w]) as E2 by (unfold lp_of; cbn [seq map leo]; by rewrite Nat.mul_1_r). rewrite E2 in El. rewrite (pbind_ret (plift _) _ _ _ _ (plift_ret _ _ (concat xs) El)).
  set (high := length xs - 1). replace (Z.of_nat (w * length xs) - Z.of_nat w)%Z with (Z.of_nat (w * high)) by (unfold high; nia). rewrite Nat2Z.id.
  assert (forall s, s <= n -> lp_of w (S n) !! s = Some (Z.of_nat (w * leo s))) as Hlp by (intros s Hsn; apply lp_of_at; lia).
  assert (building cmp w n high 1 [] xs 0) as B by (split; cbn; done || lia).
  destruct (build_holds cmp w cmp_flip cmp_trans n (lp_of w (S n)) Hlp ltac:(lia) high ltac:(lia) ltac:(lia) Hw (length xs) 1 [] xs 0 B ltac:(lia)) as (s & ss & ys & Eb & By & Hp).
  rewrite Nat.mul_0_r in Eb. rewrite (pbind_ret _ _ _ _ _ Eb). destruct By as [B1 B2 B3 B4 B5 B6 B7 B8 B9]. destruct (tail_total _ _ _ B1) as [Hl _].
  assert (forest cmp ss ys (high - leo s)) as Hf.
  { apply (pending_forest cmp high); [done|]. destruct ss as [|s2 ss]; [done|]. cbn in B2. pose proof (leo_mono s (s2 - 1) ltac:(lia)). lia. }
  rewrite (pbind_ret _ _ _ _ _ (trinkle_holds cmp w cmp_flip cmp_trans n (lp_of w (S n)) Hlp ltac:(lia) ys ss s high false _ _ B7 B2 B1 ltac:(lia) eq_refl eq_refl)).
  destruct (trinkled_ok cmp cmp_flip cmp_trans ss s ys (ys !!! high) high false B1 ltac:(lia) B8 Hf ltac:(done)) as [T1 T2 T3 T4 T5]. set (zs := trinkled _ _ _ _ _ _ _) in *.
  assert (zs ≡ₚ ys) as Hz by (rewrite T2; rewrite (list_insert_id ys); [done|]; rewrite list_lookup_total_alt; destruct (lookup_lt_is_Some_2 ys high ltac:(lia)) as [y Ey]; by rewrite Ey).
  destruct (unbuild_holds cmp w cmp_flip cmp_trans n (lp_of w (S n)) Hlp ltac:(lia) high ltac:(lia) ltac:(lia) Hw (length xs) s ss zs high) as (us & Eu & Hu & Hus & Hsort); [|lia|].
  - split; try done; [lia|unfold sized; by rewrite Hz|]. intros i j Hij Hj Hlj. lia.
  - exists us. split; [done|]. split; [by rewrite Hu, Hz, Hp|done].
Qed.

Lemma empty_elements xs : sized 0 xs -> StronglySorted (le cmp) xs.
Proof using cmp_flip.
  induction 1 as [|x xs Hx Hxs IH]; [constructor|]. constructor; [done|]. eapply Forall_impl; [exact Hxs|]. intros y Hy. apply nil_length_inv in Hx, Hy. subst. by apply le_refl.
Qed.

(** C7: for every order [cmp] and every array of elements of any width, [qsort] returns
    and the array then holds the same elements in ascending order.  It reads and writes
    only inside the array and its own arrays on the stack, copies only between places that
    do not overlap, and shifts by less than a word.  The bound on the number of elements,
    2^44, keeps the heaps within one word of the bit vector. *)
Theorem qsort_sorts w xs : sized w xs -> (Z.of_nat (length xs) <= 2 ^ 44)%Z -> (Z.of_nat (w * length xs) < 2 ^ 62)%Z ->
  exists ys, qsort cmp (Z.of_nat (length xs)) (Z.of_nat w) (concat xs) = Ret (tt, concat ys) /\ ys ≡ₚ xs /\ sized w ys /\ StronglySorted (le cmp) ys.
Proof using cmp_flip cmp_trans.
  intros Hs Hm Hwm. destruct (decide (1 <= w /\ 1 <= length xs)) as [[Hw Hn]|Hz]; [by apply qsort_nonempty|]. exists xs.
  assert (w = 0 \/ xs = []) as Hwx by (destruct xs; [by right|left; cbn [length] in Hz; lia]).
  split_and!; try done; [|destruct Hwx as [->| ->]; [by apply empty_elements|constructor]].
  unfold qsort. rewrite <- Nat2Z.inj_mul. replace (w * length xs) with 0 by (destruct Hwx as [->| ->]; cbn; lia). done.
Qed.
End Whole.

(** ** Numbers of two bytes *)

Definition cmp_numbers (x y : list ascii) : Z := (le_val x - le_val y)%Z.
Definition numbers (l : list Z) : list (list ascii) := map (le_bytes 2) l.
Definition example_numbers : list Z := [300; 7; 65535; 7; 0; 512; 2; 1; 40000; 299; 301; 5; 5; 9; 1000; 256; 255; 3]%Z.

Lemma qsort_sorts_witness : exists ys, qsort cmp_numbers 18 2 (concat (numbers example_numbers)) = Ret (tt, concat ys) /\
  StronglySorted (le cmp_numbers) ys /\ ys ≡ₚ numbers example_numbers /\ concat ys = concat (numbers [0; 1; 2; 3; 5; 5; 7; 7; 9; 255; 256; 299; 300; 301; 512; 1000; 40000; 65535]%Z).
Proof.
  assert (qsort cmp_numbers 18 2 (concat (numbers example_numbers)) = Ret (tt, concat (numbers [0; 1; 2; 3; 5; 5; 7; 7; 9; 255; 256; 299; 300; 301; 512; 1000; 40000; 65535]%Z))) as Ev by by vm_compute.
  destruct (qsort_sorts cmp_numbers ltac:(intros a b; unfold cmp_numbers; lia) ltac:(intros a b c; unfold cmp_numbers; lia) 2 (numbers example_numbers)) as (ys & E & Hp & _ & Hs).
  - repeat constructor.
  - vm_compute. discriminate.
  - vm_compute. reflexivity.
  - exists ys. split; [exact E|]. split; [exact Hs|]. split; [exact Hp|]. change (Z.of_nat (length (numbers example_numbers))) with 18%Z in E. change (Z.of_nat 2) with 2%Z in E. rewrite Ev in E. congruence.
Defined.
