(* ===== verification/MuslTime.v ===== *)
(** * Calendar time of the C library (src/musl/src/time)

    [__secs_to_tm] and [__tm_to_secs], between seconds since 1970 and broken-down time,
    with [timegm] and [__gmtime_r].  They are inverse to each other on valid dates, which
    follow the Gregorian calendar. *)

From Stdlib Require Import ZArith Lia Ascii String.
From stdpp Require Import base list strings.
From S2P Require Import Prelude.

Local Open Scope Z_scope.

Definition INT_MIN : Z := - 2 ^ 31.
Definition INT_MAX : Z := 2 ^ 31 - 1.
(** 2000-03-01 *)
Definition LEAPOCH : Z := 946684800 + 86400 * (31 + 29).
Definition DAYS_PER_400Y : Z := 365 * 400 + 97.
Definition DAYS_PER_100Y : Z := 365 * 100 + 24.
Definition DAYS_PER_4Y : Z := 365 * 4 + 1.

(** The year is that since 1900, months and days of the year count from 0. *)
Record tm := Tm {
  tm_sec : Z; tm_min : Z; tm_hour : Z; tm_mday : Z; tm_mon : Z; tm_year : Z; tm_wday : Z; tm_yday : Z;
  tm_isdst : Z; tm_gmtoff : Z; tm_zone : list ascii }.
Definition EOVERFLOW : Z := 75.
Definition __utc : list ascii := lit "UTC".

(** From March on. *)
Definition days_in_month : list Z := [31; 30; 31; 30; 31; 31; 30; 31; 30; 31; 31; 29].

(** [for (months=0; days_in_month[months] <= remdays; months++)] *)
Fixpoint month_loop (table : list Z) (months remdays : Z) : outcome (Z * Z) :=
  match table with
  | [] => Undef
  | n :: table => if n <=? remdays then month_loop table (months + 1) (remdays - n) else Ret (months, remdays)
  end.

(** The value returned and the structure after the call. *)
Definition __secs_to_tm (t : Z) (x : tm) : outcome (Z * tm) :=
  if (t <? INT_MIN * 31622400) || (INT_MAX * 31622400 <? t) then Ret (-1, x)
  else
    let secs := t - LEAPOCH in
    let days := Z.quot secs 86400 in
    let remsecs := i32 (Z.rem secs 86400) in
    let (remsecs, days) := if remsecs <? 0 then (remsecs + 86400, days - 1) else (remsecs, days) in
    let wday := i32 (Z.rem (3 + days) 7) in
    let wday := if wday <? 0 then wday + 7 else wday in
    let qc_cycles := i32 (Z.quot days DAYS_PER_400Y) in
    let remdays := i32 (Z.rem days DAYS_PER_400Y) in
    let (remdays, qc_cycles) := if remdays <? 0 then (remdays + DAYS_PER_400Y, qc_cycles - 1) else (remdays, qc_cycles) in
    let c_cycles := Z.quot remdays DAYS_PER_100Y in
    let c_cycles := if c_cycles =? 4 then c_cycles - 1 else c_cycles in
    let remdays := remdays - c_cycles * DAYS_PER_100Y in
    let q_cycles := Z.quot remdays DAYS_PER_4Y in
    let q_cycles := if q_cycles =? 25 then q_cycles - 1 else q_cycles in
    let remdays := remdays - q_cycles * DAYS_PER_4Y in
    let remyears := Z.quot remdays 365 in
    let remyears := if remyears =? 4 then remyears - 1 else remyears in
    let remdays := remdays - remyears * 365 in
    let leap := if (remyears =? 0) && (negb (q_cycles =? 0) || (c_cycles =? 0)) then 1 else 0 in
    let yday := remdays + 31 + 28 + leap in
    let yday := if 365 + leap <=? yday then yday - (365 + leap) else yday in
    let years := remyears + 4 * q_cycles + 100 * c_cycles + 400 * qc_cycles in
    let! (months, remdays) := month_loop days_in_month 0 remdays in
    let (months, years) := if 10 <=? months then (months - 12, years + 1) else (months, years) in
    if (INT_MAX <? years + 100) || (years + 100 <? INT_MIN) then Ret (-1, x)
    else Ret (0, Tm (Z.rem remsecs 60) (Z.rem (Z.quot remsecs 60) 60) (Z.quot remsecs 3600) (remdays + 1) (months + 2) (years + 100) wday yday
      (tm_isdst x) (tm_gmtoff x) (tm_zone x)).

(** The seconds up to the start of the year, and whether it is a leap year. *)
Definition __year_to_secs (year : Z) : Z * bool :=
  if u64 (year - 2) <=? 136 then
    let y := i32 year in
    let leaps := Z.shiftr (y - 68) 2 in
    let (leaps, is_leap) := if Z.land (y - 68) 3 =? 0 then (leaps - 1, true) else (leaps, false) in
    (i32 (31536000 * (y - 70) + 86400 * leaps), is_leap)
  else
    let cycles := i32 (Z.quot (year - 100) 400) in
    let rem := i32 (Z.rem (year - 100) 400) in
    let (cycles, rem) := if rem <? 0 then (cycles - 1, rem + 400) else (cycles, rem) in
    let '(centuries, leaps, is_leap) :=
      if rem =? 0 then (0, 0, true)
      else
        let (centuries, rem) :=
          if 200 <=? rem then (if 300 <=? rem then (3, rem - 300) else (2, rem - 200))
          else (if 100 <=? rem then (1, rem - 100) else (0, rem)) in
        if rem =? 0 then (centuries, 0, false)
        else (centuries, rem / 4, rem mod 4 =? 0) in
    let leaps := leaps + 97 * cycles + 24 * centuries - (if is_leap : bool then 1 else 0) in
    ((year - 100) * 31536000 + leaps * 86400 + 946684800 + 86400, is_leap).

Definition secs_through_month : list Z :=
  [0; 31 * 86400; 59 * 86400; 90 * 86400; 120 * 86400; 151 * 86400; 181 * 86400; 212 * 86400; 243 * 86400; 273 * 86400; 304 * 86400; 334 * 86400].
Definition __month_to_secs (month : Z) (is_leap : bool) : outcome Z :=
  let! t := deref (if month <? 0 then None else secs_through_month !! Z.to_nat month) in
  Ret (if is_leap && (2 <=? month) then t + 86400 else t).

Definition __tm_to_secs (x : tm) : outcome Z :=
  let year := tm_year x in
  let month := tm_mon x in
  let (month, year) :=
    if (12 <=? month) || (month <? 0) then
      let adj := Z.quot month 12 in
      let month := Z.rem month 12 in
      let (adj, month) := if month <? 0 then (adj - 1, month + 12) else (adj, month) in
      (month, year + adj)
    else (month, year) in
  let (t, is_leap) := __year_to_secs year in
  let! s := __month_to_secs month is_leap in
  (* [tm_mday - 1] is an [int] *)
  let! days := if tm_mday x =? INT_MIN then Undef else Ret (tm_mday x - 1) in
  Ret (t + s + 86400 * days + 3600 * tm_hour x + 60 * tm_min x + tm_sec x).

(** [tm->tm_isdst = 0; tm->__tm_gmtoff = 0; tm->__tm_zone = __utc] *)
Definition set_utc (x : tm) : tm :=
  Tm (tm_sec x) (tm_min x) (tm_hour x) (tm_mday x) (tm_mon x) (tm_year x) (tm_wday x) (tm_yday x) 0 0 __utc.
(** The value returned, the structure and [errno] after the call; [new] is what the
    uninitialised local of [timegm] holds. *)
Definition timegm (new : tm) (errno : Z) (x : tm) : outcome (Z * tm * Z) :=
  let! t := __tm_to_secs x in
  let! (r, new) := __secs_to_tm t new in
  if r <? 0 then Ret (-1, x, EOVERFLOW) else Ret (t, set_utc new, errno).
(** Whether a pointer to the structure is returned, the structure and [errno]. *)
Definition __gmtime_r (errno t : Z) (x : tm) : outcome (bool * tm * Z) :=
  let! (r, x) := __secs_to_tm t x in
  if r <? 0 then Ret (false, x, EOVERFLOW) else Ret (true, set_utc x, errno).

(** ** The Gregorian calendar *)

Definition leap_year (y : Z) : bool := ((y + 1900) mod 4 =? 0) && negb ((y + 1900) mod 100 =? 0) || ((y + 1900) mod 400 =? 0).
Definition year_length (y : Z) : Z := if leap_year y then 366 else 365.
(** Leap years up to a year of the era. *)
Definition leaps_to (a : Z) : Z := a / 4 - a / 100 + a / 400.
(** The days from 1970-01-01 to the first day of the year. *)
Definition days_before (y : Z) : Z := 365 * (y - 70) + leaps_to (y + 1899) - leaps_to 1969.
Definition month_length (leap : bool) (m : Z) : Z :=
  match m with 1 => if leap then 29 else 28 | 3 | 5 | 8 | 10 => 30 | _ => 31 end.
(** The days of a year before a month. *)
Fixpoint month_start (leap : bool) (m : nat) : Z :=
  match m with O => 0 | S m => month_start leap m + month_length leap (Z.of_nat m) end.
(** A date of the calendar, and one in a year that fits the structure. *)
Definition calendar_date (x : tm) : Prop :=
  0 <= tm_mon x <= 11 /\ 1 <= tm_mday x <= month_length (leap_year (tm_year x)) (tm_mon x) /\ 0 <= tm_hour x <= 23 /\ 0 <= tm_min x <= 59 /\ 0 <= tm_sec x <= 59.
Definition valid_date (x : tm) : Prop := INT_MIN <= tm_year x <= INT_MAX /\ calendar_date x.
Definition date_yday (x : tm) : Z := month_start (leap_year (tm_year x)) (Z.to_nat (tm_mon x)) + tm_mday x - 1.
(** The seconds from 1970-01-01 to the date. *)
Definition date_secs (x : tm) : Z :=
  86400 * (days_before (tm_year x) + date_yday x) + 3600 * tm_hour x + 60 * tm_min x + tm_sec x.

Lemma div_step a b : 0 < b -> a / b = (a - 1) / b + (if a mod b =? 0 then 1 else 0).
Proof.
  intros Hb. pose proof (Z.div_mod a b ltac:(lia)). pose proof (Z.mod_pos_bound a b Hb). destruct (Z.eqb_spec (a mod b) 0) as [E|E].
  - replace (a - 1) with ((a / b - 1) * b + (b - 1)) by lia. rewrite Z.div_add_l, (Z.div_small (b - 1) b) by lia. lia.
  - rewrite (Z.div_unique (a - 1) b (a / b) (a mod b - 1)); lia.
Qed.
(** A year that 400 divides is one that 100 divides, and so on. *)
Lemma leaps_step y : leaps_to (y + 1900) = leaps_to (y + 1899) + (if leap_year y then 1 else 0).
Proof.
  unfold leaps_to, leap_year. rewrite !(div_step (y + 1900)) by lia. replace (y + 1900 - 1) with (y + 1899) by lia. set (a := y + 1900).
  assert (a mod 100 = 0 -> a mod 4 = 0) by (intros E; apply Z.mod_divide in E; [|lia]; apply Z.mod_divide; [lia|]; destruct E as [z ->]; exists (25 * z); lia).
  assert (a mod 400 = 0 -> a mod 100 = 0) by (intros E; apply Z.mod_divide in E; [|lia]; apply Z.mod_divide; [lia|]; destruct E as [z ->]; exists (4 * z); lia).
  destruct (Z.eqb_spec (a mod 4) 0), (Z.eqb_spec (a mod 100) 0), (Z.eqb_spec (a mod 400) 0); cbn [andb orb negb]; lia.
Qed.
(** [days_before] is what the calendar makes it: 0 for 1970, and a year further each year. *)
Lemma days_before_1970 : days_before 70 = 0.
Proof. done. Qed.
Lemma days_before_succ y : days_before (y + 1) = days_before y + year_length y.
Proof. unfold days_before, year_length. replace (y + 1 + 1899) with (y + 1900) by lia. rewrite leaps_step. destruct (leap_year y); lia. Qed.

(** ** Years *)

(** Truncated division and a correction are floor division. *)
Lemma floor_fix a b : 0 < b -> (if Z.rem a b <? 0 then (Z.quot a b - 1, Z.rem a b + b) else (Z.quot a b, Z.rem a b)) = (a / b, a mod b).
Proof.
  intros Hb. pose proof (Z.quot_rem' a b). pose proof (Z.rem_bound_abs a b ltac:(lia)). destruct (Z.ltb_spec (Z.rem a b) 0) as [Hr|Hr].
  - f_equal; [apply (Z.div_unique a b _ (Z.rem a b + b)); lia|apply (Z.mod_unique a b (Z.quot a b - 1)); lia].
  - f_equal; [apply (Z.div_unique a b _ (Z.rem a b)); lia|apply (Z.mod_unique a b (Z.quot a b)); lia].
Qed.
(** A property of the numbers from [a] to [a + n - 1], by evaluation. *)
Fixpoint check_from (f : Z -> bool) (a : Z) (n : nat) : bool := match n with O => true | S n => f a && check_from f (a + 1) n end.
Lemma check_spec f n : forall a, check_from f a n = true -> forall x, a <= x < a + Z.of_nat n -> f x = true.
Proof.
  induction n as [|n IH]; intros a Hc x Hx; [lia|]. cbn [check_from] in Hc. apply andb_true_iff in Hc as [H1 H2]. destruct (decide (x = a)) as [->|]; [done|]. apply (IH (a + 1) H2). lia.
Qed.

Definition year_ok (y : Z) : bool := bool_decide (__year_to_secs y = (86400 * days_before y, leap_year y)).
Lemma years_fast y : 2 <= y <= 138 -> __year_to_secs y = (86400 * days_before y, leap_year y).
Proof. intros Hy. assert (check_from year_ok 2 137 = true) as Hc by by vm_compute. pose proof (check_spec _ _ _ Hc y ltac:(lia)) as H. by apply bool_decide_eq_true in H. Qed.

(** The years of one cycle of 400, counted from 2000: leap years that are over, and
    whether the year is one. *)
Definition cycle_part (rem : Z) : Z * Z * bool :=
  if rem =? 0 then (0, 0, true)
  else
    let (centuries, rem) :=
      if 200 <=? rem then (if 300 <=? rem then (3, rem - 300) else (2, rem - 200))
      else (if 100 <=? rem then (1, rem - 100) else (0, rem)) in
    if rem =? 0 then (centuries, 0, false)
    else (centuries, rem / 4, rem mod 4 =? 0).
Definition cycle_ok (r : Z) : bool :=
  let '(centuries, leaps, is_leap) := cycle_part r in
  (leaps + 24 * centuries - (if is_leap then 1 else 0) =? leaps_to (1999 + r) - 485) && Bool.eqb is_leap (leap_year (100 + r)).
Lemma cycle_spec r : 0 <= r < 400 -> let '(centuries, leaps, is_leap) := cycle_part r in
  leaps + 24 * centuries - (if is_leap then 1 else 0) = leaps_to (1999 + r) - 485 /\ is_leap = leap_year (100 + r).
Proof.
  intros Hr. assert (check_from cycle_ok 0 400 = true) as Hc by by vm_compute. pose proof (check_spec _ _ _ Hc r ltac:(lia)) as H. unfold cycle_ok in H. destruct (cycle_part r) as [[c l] b].
  apply andb_true_iff in H as [H1 H2]. apply Z.eqb_eq in H1. apply eqb_prop in H2. split; [exact H1|exact H2].
Qed.
Lemma leaps_cycle a k : leaps_to (a + 400 * k) = leaps_to a + 97 * k.
Proof.
  unfold leaps_to. replace (a + 400 * k) with (a + (100 * k) * 4) at 1 by lia. replace (a + 400 * k) with (a + (4 * k) * 100) at 1 by lia. rewrite (Z.mul_comm 400 k), !Z.div_add by lia. lia.
Qed.
Lemma leap_cycle y k : leap_year (y + 400 * k) = leap_year y.
Proof.
  unfold leap_year. replace (y + 400 * k + 1900) with (y + 1900 + (100 * k) * 4) at 1 by lia. replace (y + 400 * k + 1900) with (y + 1900 + (4 * k) * 100) at 1 by lia.
  replace (y + 400 * k + 1900) with (y + 1900 + k * 400) by lia. by rewrite !Z.mod_add by lia.
Qed.

(** The years of the code are those of the calendar. *)
Lemma year_to_secs_spec y : - 2 ^ 33 <= y <= 2 ^ 33 -> __year_to_secs y = (86400 * days_before y, leap_year y).
Proof.
  intros Hy. destruct (decide (2 <= y <= 138)) as [Hf|Hf]; [by apply years_fast|]. unfold __year_to_secs.
  assert (u64 (y - 2) <=? 136 = false) as ->.
  { apply Z.leb_gt. unfold wrap. destruct (Z.le_gt_cases 2 y); [rewrite Z.mod_small by lia; lia|]. rewrite <- (Z.mod_add _ 1) by lia. rewrite Z.mod_small by lia. lia. }
  pose proof (Z.quot_rem' (y - 100) 400). pose proof (Z.rem_bound_abs (y - 100) 400 ltac:(lia)). rewrite (swrap_small 32 (Z.quot _ _)), (swrap_small 32 (Z.rem _ _)) by lia.
  rewrite (floor_fix (y - 100) 400) by lia. set (k := (y - 100) / 400). set (r := (y - 100) mod 400). pose proof (Z.div_mod (y - 100) 400 ltac:(lia)) as Edm. fold k r in Edm.
  pose proof (cycle_spec r ltac:(apply Z.mod_pos_bound; lia)) as Hc. fold (cycle_part r). destruct (cycle_part r) as [[c l] b]. destruct Hc as [Hc ->].
  assert (leap_year y = leap_year (100 + r)) as -> by (rewrite <- (leap_cycle (100 + r) k); f_equal; lia). f_equal.
  unfold days_before. replace (y + 1899) with (1999 + r + 400 * k) by lia. rewrite leaps_cycle. change (leaps_to 1969) with 477. lia.
Qed.

(** ** Days *)

(** [n / b], but [m] for [m + 1]. *)
Lemma capped n b m : 0 <= n -> 0 < b -> 0 <= m -> n < (m + 2) * b -> exists c, (if Z.quot n b =? m + 1 then Z.quot n b - 1 else Z.quot n b) = c /\
  0 <= c <= m /\ 0 <= n - c * b /\ (n - c * b < b \/ c = m).
Proof.
  intros Hn Hb Hm Hlt. rewrite Z.quot_div_nonneg by lia. pose proof (Z.div_mod n b ltac:(lia)). pose proof (Z.mod_pos_bound n b Hb). eexists. split; [done|]. pose proof (Z.div_pos n b Hn Hb).
  assert (n / b < m + 2) by (apply Z.div_lt_upper_bound; lia). destruct (Z.eqb_spec (n / b) (m + 1)) as [E|E]; repeat split; try lia.
Qed.

(** The months from March on: a day is one of its month. *)
Definition month_ok (leap : bool) (d : Z) : bool :=
  match month_loop days_in_month 0 d with
  | Ret (m, rd) =>
      let m' := if 10 <=? m then m - 10 else m + 2 in
      (0 <=? m') && (m' <=? 11) && (0 <=? rd) && ((rd <? month_length leap m') || negb leap && (d =? 365)) && Bool.eqb (10 <=? m) (306 <=? d) &&
      (month_start leap (Z.to_nat m') + rd =? if 306 <=? d then d - 306 else d + 59 + (if leap then 1 else 0))
  | _ => false
  end.
Lemma month_spec leap d : 0 <= d <= 365 -> (d = 365 -> leap = true) -> exists m rd, month_loop days_in_month 0 d = Ret (m, rd) /\ (10 <=? m) = (306 <=? d) /\
  let m' := if 306 <=? d then m - 10 else m + 2 in
  0 <= m' <= 11 /\ 0 <= rd < month_length leap m' /\ month_start leap (Z.to_nat m') + rd = if 306 <=? d then d - 306 else d + 59 + (if leap then 1 else 0).
Proof.
  intros Hd Hl. assert (check_from (month_ok true) 0 366 && check_from (month_ok false) 0 366 = true) as Hc by by vm_compute. apply andb_true_iff in Hc as [H1 H2].
  assert (month_ok leap d = true) as H by (destruct leap; [apply (check_spec _ _ _ H1)|apply (check_spec _ _ _ H2)]; lia). clear H1 H2.
  unfold month_ok in H. destruct (month_loop days_in_month 0 d) as [[m rd]| |] eqn:E; try discriminate. exists m, rd. split; [done|].
  repeat (apply andb_true_iff in H as [H ?]). apply eqb_prop in H1. rewrite H1 in *. split; [done|]. cbv zeta. apply Z.eqb_eq in H0. apply orb_true_iff in H2. repeat split; try lia.
  destruct H2 as [H2|H2]; [lia|]. apply andb_true_iff in H2 as [H2 H365]. apply Z.eqb_eq in H365. by rewrite (Hl H365) in H2.
Qed.
Lemma month_to_secs_spec leap m : 0 <= m <= 11 -> __month_to_secs m leap = Ret (86400 * month_start leap (Z.to_nat m)).
Proof. intros Hm. assert (m = 0 \/ m = 1 \/ m = 2 \/ m = 3 \/ m = 4 \/ m = 5 \/ m = 6 \/ m = 7 \/ m = 8 \/ m = 9 \/ m = 10 \/ m = 11) as E by lia. by repeat destruct E as [->|E]; try subst m; destruct leap. Qed.

(** The first of March of the year 2000 + [k], from that of 2000. *)
Definition march (k : Z) : Z := 365 * k + leaps_to k.
Lemma march_before k : march k + 11017 = days_before (k + 100) + 59 + (if leap_year (k + 100) then 1 else 0) /\ march k + 11017 + 306 = days_before (k + 101).
Proof.
  unfold march, days_before. pose proof (leaps_step (k + 100)) as Hs. replace (k + 100 + 1900) with (k + 400 * 5) in Hs by lia. rewrite leaps_cycle in Hs.
  replace (k + 101 + 1899) with (k + 400 * 5) by lia. rewrite leaps_cycle. change (leaps_to 1969) with 477. destruct (leap_year (k + 100)); lia.
Qed.
Lemma march_parts qc c q y : 0 <= c <= 3 -> 0 <= q <= 24 -> 0 <= y <= 3 -> march (y + 4 * q + 100 * c + 400 * qc) = 146097 * qc + 36524 * c + 1461 * q + 365 * y.
Proof.
  intros Hc Hq Hy. unfold march, leaps_to. set (k := y + 4 * q + 100 * c + 400 * qc).
  assert (k / 4 = q + 25 * c + 100 * qc) as -> by (symmetry; apply (Z.div_unique k 4 _ y); lia).
  assert (k / 100 = c + 4 * qc) as -> by (symmetry; apply (Z.div_unique k 100 _ (y + 4 * q)); lia).
  assert (k / 400 = qc) as -> by (symmetry; apply (Z.div_unique k 400 _ (y + 4 * q + 100 * c)); lia). lia.
Qed.
Lemma leap_parts qc c q y : 0 <= c <= 3 -> 0 <= q <= 24 -> 0 <= y <= 3 -> leap_year (y + 4 * q + 100 * c + 400 * qc + 100) = (y =? 0) && (negb (q =? 0) || (c =? 0)).
Proof.
  intros Hc Hq Hy. unfold leap_year. set (k := y + 4 * q + 100 * c + 400 * qc).
  assert ((k + 100 + 1900) mod 4 = y) as -> by (symmetry; apply (Z.mod_unique _ 4 (q + 25 * c + 100 * qc + 500)); lia).
  assert ((k + 100 + 1900) mod 100 = y + 4 * q) as -> by (symmetry; apply (Z.mod_unique _ 100 (c + 4 * qc + 20)); lia).
  assert ((k + 100 + 1900) mod 400 = y + 4 * q + 100 * c) as -> by (symmetry; apply (Z.mod_unique _ 400 (qc + 5)); lia).
  destruct (Z.eqb_spec y 0), (Z.eqb_spec q 0), (Z.eqb_spec c 0), (Z.eqb_spec (y + 4 * q) 0), (Z.eqb_spec (y + 4 * q + 100 * c) 0); cbn [andb orb negb]; try done; lia.
Qed.

(** What [__secs_to_tm] does from the days since a first of March on. *)
Definition from_march (k d rs wday : Z) (x : tm) : outcome (Z * tm) :=
  let leap := if leap_year (k + 100) then 1 else 0 in
  let yday := if 365 + leap <=? d + 31 + 28 + leap then d + 31 + 28 + leap - (365 + leap) else d + 31 + 28 + leap in
  let! (months, remdays) := month_loop days_in_month 0 d in
  let (months, years) := if 10 <=? months then (months - 12, k + 1) else (months, k) in
  if (INT_MAX <? years + 100) || (years + 100 <? INT_MIN) then Ret (-1, x)
  else Ret (0, Tm (Z.rem rs 60) (Z.rem (Z.quot rs 60) 60) (Z.quot rs 3600) (remdays + 1) (months + 2) (years + 100) wday yday (tm_isdst x) (tm_gmtoff x) (tm_zone x)).

Lemma floor_swap a b : 0 < b -> (if Z.rem a b <? 0 then (Z.rem a b + b, Z.quot a b - 1) else (Z.rem a b, Z.quot a b)) = (a mod b, a / b).
Proof. intros Hb. pose proof (floor_fix a b Hb) as E. destruct (Z.rem a b <? 0); injection E as E1 E2; by rewrite ?E1, ?E2. Qed.
Lemma floor_rem a b : 0 < b -> (if Z.rem a b <? 0 then Z.rem a b + b else Z.rem a b) = a mod b.
Proof. intros Hb. pose proof (floor_fix a b Hb) as E. destruct (Z.rem a b <? 0); injection E as E1 E2; by rewrite ?E1, ?E2. Qed.

(** The cycles are what is left over of years from a first of March on. *)
Lemma secs_to_tm_march t x : INT_MIN * 31622400 <= t <= INT_MAX * 31622400 -> exists k d, t / 86400 = march k + d + 11017 /\ 0 <= d <= 365 /\ (d = 365 -> leap_year (k + 101) = true) /\
  __secs_to_tm t x = from_march k d (t mod 86400) ((4 + t / 86400) mod 7) x.
Proof.
  unfold INT_MIN, INT_MAX. intros Ht. unfold __secs_to_tm. change (t <? INT_MIN * 31622400) with (t <? - 2 ^ 31 * 31622400). change (INT_MAX * 31622400 <? t) with ((2 ^ 31 - 1) * 31622400 <? t).
  assert ((t <? - 2 ^ 31 * 31622400) || ((2 ^ 31 - 1) * 31622400 <? t) = false) as -> by (apply orb_false_iff; lia). cbv zeta.
  pose proof (Z.rem_bound_abs (t - LEAPOCH) 86400 ltac:(lia)). rewrite (swrap_small 32 (Z.rem (t - LEAPOCH) 86400)) by lia. rewrite (floor_swap (t - LEAPOCH) 86400) by lia.
  replace (t - LEAPOCH) with (t + (- 11017) * 86400) by (unfold LEAPOCH; lia). rewrite Z.mod_add, Z.div_add by lia. set (n := t / 86400 + - 11017).
  assert (- 2 ^ 41 <= n <= 2 ^ 41) as Hn by (pose proof (Z.div_mod t 86400 ltac:(lia)); pose proof (Z.mod_pos_bound t 86400 ltac:(lia)); lia).
  pose proof (Z.rem_bound_abs (3 + n) 7 ltac:(lia)). rewrite (swrap_small 32 (Z.rem (3 + n) 7)) by lia. rewrite (floor_rem (3 + n) 7) by lia.
  assert ((3 + n) mod 7 = (4 + t / 86400) mod 7) as ->.
  { unfold n. replace (4 + t / 86400) with (3 + (t / 86400 + - 11017) + 1574 * 7) by lia. by rewrite Z.mod_add by lia. }
  change DAYS_PER_400Y with 146097. change DAYS_PER_100Y with 36524. change DAYS_PER_4Y with 1461.
  pose proof (Z.quot_rem' n 146097). pose proof (Z.rem_bound_abs n 146097 ltac:(lia)). rewrite (swrap_small 32 (Z.quot n 146097)), (swrap_small 32 (Z.rem n 146097)) by lia. rewrite (floor_swap n 146097) by lia.
  pose proof (Z.div_mod n 146097 ltac:(lia)) as En. pose proof (Z.mod_pos_bound n 146097 ltac:(lia)). set (qc := n / 146097) in *. set (r := n mod 146097) in *.
  destruct (capped r 36524 3 ltac:(lia) ltac:(lia) ltac:(lia) ltac:(lia)) as (c & Ec & Hc & Hr1 & Hr1'). change (3 + 1) with 4 in Ec. rewrite !Ec. set (r1 := r - c * 36524) in *.
  destruct (capped r1 1461 24 ltac:(lia) ltac:(lia) ltac:(lia) ltac:(lia)) as (q & Eq & Hq & Hr2 & Hr2'). change (24 + 1) with 25 in Eq. rewrite !Eq. set (r2 := r1 - q * 1461) in *.
  destruct (capped r2 365 3 ltac:(lia) ltac:(lia) ltac:(lia) ltac:(lia)) as (y & Ey & Hy & Hd & Hd'). change (3 + 1) with 4 in Ey. rewrite !Ey. set (d := r2 - y * 365) in *.
  exists (y + 4 * q + 100 * c + 400 * qc), d. split_and!; try lia.
  - rewrite march_parts by lia. lia.
  - intros E. replace (y + 4 * q + 100 * c + 400 * qc + 101) with (0 + 4 * (q + 1) + 100 * c + 400 * qc + 100) by lia. destruct (decide (q < 24)).
    + rewrite leap_parts by lia. destruct (Z.eqb_spec (q + 1) 0); [lia|done].
    + replace (0 + 4 * (q + 1) + 100 * c + 400 * qc + 100) with (0 + 4 * 0 + 100 * 0 + 400 * (qc + 1) + 100) by lia. by rewrite leap_parts by lia.
  - unfold from_march. rewrite leap_parts by lia. done.
Qed.

(** ** Dates *)

Lemma month_start_mono leap m k : month_start leap m + (if decide (k = 0)%nat then 0 else month_length leap (Z.of_nat m)) <= month_start leap (m + k).
Proof.
  induction k as [|k IH]; [by rewrite Nat.add_0_r, decide_True by done; lia|]. rewrite Nat.add_succ_r. rewrite decide_False by done. cbn [month_start].
  assert (0 < month_length leap (Z.of_nat (m + k))) by (unfold month_length; destruct leap; repeat case_match; lia). case_decide as Hk; [subst k; rewrite !Nat.add_0_r in *; lia|lia].
Qed.
Lemma days_before_mono y k : 0 <= k -> days_before y + 365 * k <= days_before (y + k).
Proof.
  intros Hk. pattern k. apply natlike_ind; [replace (y + 0) with y by lia; lia| |done]. clear k Hk. intros k Hk IH. unfold Z.succ. rewrite Z.add_assoc, days_before_succ. unfold year_length. destruct (leap_year _); lia.
Qed.
Lemma yday_bounds x : calendar_date x -> 0 <= date_yday x < year_length (tm_year x).
Proof.
  intros (Hm & Hd & _). unfold date_yday, year_length. set (leap := leap_year (tm_year x)) in *. pose proof (month_start_mono leap 0 (Z.to_nat (tm_mon x))) as H0. pose proof (month_start_mono leap (Z.to_nat (tm_mon x)) (12 - Z.to_nat (tm_mon x))) as H1.
  rewrite decide_False in H1 by lia. replace (Z.to_nat (tm_mon x) + (12 - Z.to_nat (tm_mon x)))%nat with 12%nat in H1 by lia. rewrite Z2Nat.id in H1 by lia. cbn [Nat.add] in H0. change (month_start leap 0) with 0 in H0.
  assert (month_start leap 12 = if leap then 366 else 365) as E by by destruct leap. assert (0 <= (if decide (Z.to_nat (tm_mon x) = 0%nat) then 0 else month_length leap (Z.of_nat 0))) by (case_decide; done).
  assert (0 <= month_start leap (Z.to_nat (tm_mon x))) by (etransitivity; [|exact H0]; lia). rewrite <- E. lia.
Qed.
Lemma day_time x : calendar_date x -> date_secs x / 86400 = days_before (tm_year x) + date_yday x /\ date_secs x mod 86400 = 3600 * tm_hour x + 60 * tm_min x + tm_sec x.
Proof.
  intros (_ & _ & Hh & Hm & Hs). unfold date_secs. split; symmetry; [apply (Z.div_unique _ 86400 _ (3600 * tm_hour x + 60 * tm_min x + tm_sec x))|apply (Z.mod_unique _ 86400 (days_before (tm_year x) + date_yday x))]; lia.
Qed.
Lemma days_unique y y' d d' : 0 <= d < year_length y -> 0 <= d' < year_length y' -> days_before y + d = days_before y' + d' -> y = y'.
Proof.
  intros Hd Hd' E. pose proof (days_before_succ y) as Es. pose proof (days_before_succ y') as Es'. destruct (Z.lt_trichotomy y y') as [Hlt|[?|Hlt]]; [exfalso|done|exfalso].
  - pose proof (days_before_mono (y + 1) (y' - y - 1) ltac:(lia)) as H. replace (y + 1 + (y' - y - 1)) with y' in H by lia. lia.
  - pose proof (days_before_mono (y' + 1) (y - y' - 1) ltac:(lia)) as H. replace (y' + 1 + (y - y' - 1)) with y in H by lia. lia.
Qed.
Lemma month_unique leap (m m' : Z) d d' : 0 <= m -> 0 <= m' -> 0 <= d < month_length leap m -> 0 <= d' < month_length leap m' ->
  month_start leap (Z.to_nat m) + d = month_start leap (Z.to_nat m') + d' -> m = m'.
Proof.
  intros Hm Hm' Hd Hd' E. destruct (Z.lt_trichotomy m m') as [Hlt|[?|Hlt]]; [exfalso|done|exfalso].
  - pose proof (month_start_mono leap (Z.to_nat m) (Z.to_nat m' - Z.to_nat m)) as H. rewrite decide_False, Z2Nat.id in H by lia. replace (Z.to_nat m + (Z.to_nat m' - Z.to_nat m))%nat with (Z.to_nat m') in H by lia. lia.
  - pose proof (month_start_mono leap (Z.to_nat m') (Z.to_nat m - Z.to_nat m')) as H. rewrite decide_False, Z2Nat.id in H by lia. replace (Z.to_nat m' + (Z.to_nat m - Z.to_nat m'))%nat with (Z.to_nat m) in H by lia. lia.
Qed.
(** The date and the time of day are the seconds'. *)
Lemma date_unique x z : calendar_date x -> calendar_date z -> date_secs x = date_secs z ->
  tm_year x = tm_year z /\ tm_mon x = tm_mon z /\ tm_mday x = tm_mday z /\ tm_hour x = tm_hour z /\ tm_min x = tm_min z /\ tm_sec x = tm_sec z.
Proof.
  intros Hx Hz E. destruct (day_time x Hx) as [Ed Es]. destruct (day_time z Hz) as [Ed' Es']. rewrite E in Ed, Es. rewrite Ed in Ed'. rewrite Es in Es'. clear Ed Es.
  pose proof (days_unique _ _ _ _ (yday_bounds x Hx) (yday_bounds z Hz) Ed') as Ey. rewrite Ey in Ed'. destruct Hx as (Hm & Hd & Hh & Hmi & Hs). destruct Hz as (Hm' & Hd' & Hh' & Hmi' & Hs').
  unfold date_yday in Ed'. rewrite Ey in Ed', Hd. pose proof (month_unique (leap_year (tm_year z)) (tm_mon x) (tm_mon z) (tm_mday x - 1) (tm_mday z - 1) ltac:(lia) ltac:(lia) ltac:(lia) ltac:(lia) ltac:(lia)) as Em.
  rewrite Em in Ed'. split_and!; lia.
Qed.

Lemma time_of_day rs : 0 <= rs < 86400 -> 0 <= Z.quot rs 3600 <= 23 /\ 0 <= Z.rem (Z.quot rs 60) 60 <= 59 /\ 0 <= Z.rem rs 60 <= 59 /\
  3600 * Z.quot rs 3600 + 60 * Z.rem (Z.quot rs 60) 60 + Z.rem rs 60 = rs.
Proof.
  intros Hr. rewrite !Z.quot_div_nonneg by lia. pose proof (Z.div_mod rs 60 ltac:(lia)) as E1. pose proof (Z.mod_pos_bound rs 60 ltac:(lia)). pose proof (Z.div_pos rs 60 ltac:(lia) ltac:(lia)).
  rewrite !Z.rem_mod_nonneg by lia. pose proof (Z.div_mod (rs / 60) 60 ltac:(lia)) as E2. pose proof (Z.mod_pos_bound (rs / 60) 60 ltac:(lia)). rewrite Z.div_div in E2 by lia. change (60 * 60) with 3600 in E2. lia.
Qed.
(** The seconds are broken down into a date of the calendar, the only one they are of. *)
Lemma secs_to_tm_spec t x : INT_MIN * 31622400 <= t <= INT_MAX * 31622400 -> exists z, calendar_date z /\ date_secs z = t /\
  tm_wday z = (4 + t / 86400) mod 7 /\ tm_yday z = date_yday z /\
  __secs_to_tm t x = Ret (if (INT_MAX <? tm_year z) || (tm_year z <? INT_MIN) then (-1, x) else (0, z)).
Proof.
  intros Ht. destruct (secs_to_tm_march t x Ht) as (k & d & Et & Hd & Hl & ->). pose proof (time_of_day (t mod 86400) ltac:(apply Z.mod_pos_bound; lia)) as (Hh & Hmi & Hs & Ers).
  pose proof (Z.div_mod t 86400 ltac:(lia)) as Edm. destruct (march_before k) as [B0 B1].
  destruct (month_spec (leap_year (if 306 <=? d then k + 101 else k + 100)) d Hd) as (m & rd & Em & E10 & Hm & Hrd & Est); [intros ->; by apply Hl|].
  unfold from_march. rewrite Em. cbn [mbind outcome_bind]. rewrite E10. destruct (Z.leb_spec 306 d) as [H306|H306].
  - eexists (Tm _ _ _ _ (m - 12 + 2) (k + 1 + 100) _ _ _ _ _). split_and!; [| | | |by destruct (_ || _)]; unfold calendar_date, date_secs, date_yday; cbn [tm_sec tm_min tm_hour tm_mday tm_mon tm_year tm_wday tm_yday];
      try done; replace (m - 12 + 2) with (m - 10) by lia; replace (k + 1 + 100) with (k + 101) by lia; [split_and!; lia|lia|]. destruct (leap_year (k + 100)); case_match; lia.
  - eexists (Tm _ _ _ _ (m + 2) (k + 100) _ _ _ _ _). split_and!; [| | | |by destruct (_ || _)]; unfold calendar_date, date_secs, date_yday; cbn [tm_sec tm_min tm_hour tm_mday tm_mon tm_year tm_wday tm_yday];
      try done; [split_and!; lia|lia|]. destruct (leap_year (k + 100)); case_match; lia.
Qed.
Lemma tm_to_secs_spec x : valid_date x -> __tm_to_secs x = Ret (date_secs x).
Proof.
  intros [Hy Hx]. unfold INT_MIN, INT_MAX in Hy. assert (0 <= tm_mon x <= 11) as Hm by apply Hx. unfold __tm_to_secs.
  assert ((12 <=? tm_mon x) || (tm_mon x <? 0) = false) as -> by (apply orb_false_iff; lia). rewrite year_to_secs_spec by lia. rewrite month_to_secs_spec by lia. cbn [mbind outcome_bind].
  assert (1 <= tm_mday x) as Hd by apply Hx. assert (tm_mday x =? INT_MIN = false) as -> by (apply Z.eqb_neq; unfold INT_MIN; lia). cbn [mbind outcome_bind]. f_equal. unfold date_secs, date_yday. lia.
Qed.
Lemma date_range x : valid_date x -> INT_MIN * 31622400 <= date_secs x <= INT_MAX * 31622400.
Proof.
  intros [Hy Hx]. pose proof (yday_bounds x Hx) as Hb. pose proof (days_before_succ (tm_year x)) as Es. pose proof (days_before_mono INT_MIN (tm_year x - INT_MIN) ltac:(lia)) as H0. pose proof (days_before_mono (tm_year x + 1) (INT_MAX - tm_year x) ltac:(lia)) as H1.
  replace (INT_MIN + (tm_year x - INT_MIN)) with (tm_year x) in H0 by lia. replace (tm_year x + 1 + (INT_MAX - tm_year x)) with (INT_MAX + 1) in H1 by lia.
  change (days_before INT_MIN) with (-784352321872) in H0. change (days_before (INT_MAX + 1)) with 784352270737 in H1. change INT_MIN with (- 2147483648). change INT_MAX with 2147483647.
  destruct (day_time x Hx) as [Ed _]. pose proof (Z.div_mod (date_secs x) 86400 ltac:(lia)). pose proof (Z.mod_pos_bound (date_secs x) 86400 ltac:(lia)). lia.
Qed.

(** The fields of the date are kept by [timegm], and the others set. *)
Definition completed (x : tm) : tm :=
  Tm (tm_sec x) (tm_min x) (tm_hour x) (tm_mday x) (tm_mon x) (tm_year x) ((4 + date_secs x / 86400) mod 7) (date_yday x) 0 0 __utc.

Lemma secs_to_tm_date x y : valid_date x -> exists z, __secs_to_tm (date_secs x) y = Ret (0, z) /\ set_utc z = completed x.
Proof.
  intros Hx. destruct (secs_to_tm_spec (date_secs x) y (date_range x Hx)) as (z & Hz & Es & Ew & Eyd & Er). exists z. destruct Hx as [Hy Hx].
  destruct (date_unique z x Hz Hx Es) as (E1 & E2 & E3 & E4 & E5 & E6). split.
  - rewrite Er, E1. assert ((INT_MAX <? tm_year x) || (tm_year x <? INT_MIN) = false) as -> by (apply orb_false_iff; lia). done.
  - unfold set_utc, completed. rewrite Ew, Eyd. unfold date_yday. by rewrite E1, E2, E3, E4, E5, E6.
Qed.
Lemma completed_secs x : date_secs (completed x) = date_secs x.
Proof. done. Qed.
Lemma completed_idem x : completed (completed x) = completed x.
Proof. done. Qed.
Lemma completed_valid x : valid_date x -> valid_date (completed x).
Proof. done. Qed.
Lemma timegm_date new errno x : valid_date x -> timegm new errno x = Ret (date_secs x, completed x, errno).
Proof. intros Hx. unfold timegm. rewrite (tm_to_secs_spec x Hx). cbn [mbind outcome_bind]. destruct (secs_to_tm_date x new Hx) as (z & -> & <-). done. Qed.
Lemma gmtime_date errno x y : valid_date x -> __gmtime_r errno (date_secs x) y = Ret (true, completed x, errno).
Proof. intros Hx. unfold __gmtime_r. destruct (secs_to_tm_date x y Hx) as (z & -> & <-). done. Qed.
(** Every time is that of a date, or the structure cannot hold its year. *)
Lemma date_exists t : (exists x, valid_date x /\ date_secs x = t) \/
  ((forall x, valid_date x -> date_secs x <> t) /\ forall y, __secs_to_tm t y = Ret (-1, y)).
Proof.
  destruct (decide (INT_MIN * 31622400 <= t <= INT_MAX * 31622400)) as [Ht|Ht].
  - set (y0 := Tm 0 0 0 0 0 0 0 0 0 0 []). destruct (secs_to_tm_spec t y0 Ht) as (z & Hz & Es & _). destruct (decide (INT_MIN <= tm_year z <= INT_MAX)) as [Hy|Hy]; [left; by exists z|right]. split.
    + intros x [Hy' Hx] <-. destruct (date_unique z x Hz Hx Es) as [E _]. by rewrite E in Hy.
    + intros y. destruct (secs_to_tm_spec t y Ht) as (z' & Hz' & Es' & _ & _ & ->). destruct (date_unique z' z Hz' Hz ltac:(congruence)) as [E _]. rewrite E.
      by assert ((INT_MAX <? tm_year z) || (tm_year z <? INT_MIN) = true) as -> by (apply orb_true_iff; lia).
  - right. split; [intros x Hx <-; by pose proof (date_range x Hx)|]. intros y. unfold __secs_to_tm. by assert ((t <? INT_MIN * 31622400) || (INT_MAX * 31622400 <? t) = true) as -> by (apply orb_true_iff; lia).
Qed.

(** C9: [gmtime_r] and [timegm] are inverse to each other and follow the Gregorian
    calendar.  For every time, either there is a valid date (days of the month by the
    month and the leap years, an [int] for the year) of that many seconds from
    1970-01-01, [gmtime_r] returns it with its day of the week and of the year, and
    [timegm] of it gives the time and the same structure back; or no date is of that
    time, and [gmtime_r] returns null with [EOVERFLOW], the structure unchanged.  And
    [timegm] of every valid date returns its seconds, keeps the date and sets the other
    fields, which is what [gmtime_r] makes of these seconds. *)
Theorem gmtime_timegm_inverse (new y : tm) (errno t : Z) :
  ((exists x, valid_date x /\ date_secs x = t /\ tm_wday x = (4 + t / 86400) mod 7 /\ tm_yday x = date_yday x /\
      __gmtime_r errno t y = Ret (true, x, errno) /\ timegm new errno x = Ret (t, x, errno)) \/
   ((forall x, valid_date x -> date_secs x <> t) /\ __gmtime_r errno t y = Ret (false, y, EOVERFLOW))) /\
  (forall x, valid_date x -> timegm new errno x = Ret (date_secs x, completed x, errno) /\
      __gmtime_r errno (date_secs x) y = Ret (true, completed x, errno)).
Proof.
  split; [|intros x Hx; split; [by apply timegm_date|by apply gmtime_date]]. destruct (date_exists t) as [(x & Hx & Et)|[Hno Ht]]; [left|right].
  - exists (completed x). split_and!; [by apply completed_valid|by rewrite completed_secs|by rewrite <- Et|done|by rewrite <- Et; apply gmtime_date|].
    rewrite (timegm_date _ _ _ (completed_valid x Hx)), completed_secs, completed_idem. by rewrite Et.
  - split; [done|]. unfold __gmtime_r. by rewrite Ht.
Qed.
(** The last second of the leap day of 2000, a Tuesday. *)
Lemma gmtime_timegm_inverse_witness :
  timegm (Tm 0 0 0 0 0 0 0 0 0 0 []) 0 (Tm 59 59 23 29 1 100 0 0 (-1) 0 []) = Ret (951868799, Tm 59 59 23 29 1 100 2 59 0 0 __utc, 0).
Proof.
  refine (proj1 (proj2 (gmtime_timegm_inverse (Tm 0 0 0 0 0 0 0 0 0 0 []) (Tm 0 0 0 0 0 0 0 0 0 0 []) 0 0) (Tm 59 59 23 29 1 100 0 0 (-1) 0 []) _)).
  repeat split; vm_compute; discriminate.
Defined.
