(* ===== verification/FuseDaemons.v ===== *)
(** * The FUSE daemons (src/fuse)

    The file systems that the libraries of src/usfs_wrap are compared with: fusexmp_fh.c
    hands the calls of the kernel back to it, avfsd.c to AVFS, fuse_cruise.c to CRUISE.
    fusexmp_fh.c is the program that the command in its first lines builds, without the
    HAVE_ macros.

    [daemons_agree_with_libraries]: on the same system fusexmp_fh.c and usfs_wrap.c do
    the same calls and give the same answers for whole sequences of calls, with the
    exceptions that it lists.
    [xmp_readdir_lists_all]: a directory that is read in pieces, from any of the offsets
    that were handed out, is read completely and without repetitions. *)

From Stdlib Require Import ZArith Lia Ascii String.
From stdpp Require Import base list gmap.
From S2P Require Import Prelude World UsfsWrap.

Local Open Scope Z_scope.

(** The fields that are used of a directory entry. *)
Record dirent := Dirent { d_ino : Z; d_type : Z; d_name : list ascii }.
(** A vector of one buffer, which is a place in a file. *)
Record bufvec := BufVec { bv_size : Z; bv_is_fd : bool; bv_fd_seek : bool; bv_fd : Z; bv_pos : Z }.

(** The calls that the libraries do not need. *)
Class PosixNames (W : Type) := {
  c_mkfifo : list ascii -> Z -> W -> Z * W;
  c_mknod : list ascii -> Z -> Z -> W -> Z * W;
  c_mkdir : list ascii -> Z -> W -> Z * W;
  c_rmdir : list ascii -> W -> Z * W;
  c_symlink : list ascii -> list ascii -> W -> Z * W;
  c_rename : list ascii -> list ascii -> W -> Z * W;
  c_link : list ascii -> list ascii -> W -> Z * W;
  c_chmod : list ascii -> Z -> W -> Z * W;
  c_lchown : list ascii -> Z -> Z -> W -> Z * W;
  statvfs : Type;
  c_statvfs : list ascii -> W -> (Z * statvfs) * W;
  c_dup : Z -> W -> Z * W;
  c_flock : Z -> Z -> W -> Z * W;
  (** [ulockmgr_op] with the lock and its owner *)
  flock_t : Type;
  c_ulockmgr_op : Z -> Z -> flock_t -> Z -> W -> (Z * flock_t) * W;
  (** [fuse_buf_copy] with FUSE_BUF_SPLICE_NONBLOCK, from memory *)
  c_buf_copy : bufvec -> list ascii -> W -> Z * W;
  (** whether there is memory *)
  malloc_ok : W -> bool;
  (** directory streams *)
  c_opendir : list ascii -> W -> option Z * W;
  c_readdir : Z -> W -> option dirent * W;
  c_telldir : Z -> W -> Z * W;
  c_seekdir : Z -> Z -> W -> W;
  c_closedir : Z -> W -> Z * W }.

Section Code.
Context {W : Type} `{Posix W} `{PosixNames W}.

(** [return -errno] *)
Definition neg_errno : prog W Z := fun w => Ret (- err_no w, w).
(** [res = call; if (res == -1) return -errno; return 0;] *)
Definition status (call : W -> Z * W) : prog W Z :=
  let* res := pcall call in if i32 res =? -1 then neg_errno else pret 0.
(** The same with a structure that is filled in. *)
Definition status_of {A} (call : W -> (Z * A) * W) : prog W (Z * A) :=
  let* (res, a) := pcall call in let* r := if i32 res =? -1 then neg_errno else pret 0 in pret (r, a).
(** [if (res == -1) res = -errno; return res;] *)
Definition or_neg_errno (res : Z) : prog W Z := if i32 res =? -1 then neg_errno else pret (i32 res).

(** ** fusexmp_fh.c *)

Definition xmp_getattr (path : list ascii) : prog W (Z * stat) := status_of (c_lstat path).
Definition xmp_fgetattr (fh : Z) : prog W (Z * stat) := status_of (c_fstat (i32 fh)).
Definition xmp_access (path : list ascii) (mask : Z) : prog W Z := status (c_access path mask).

(** The result and the string in the buffer. *)
Definition xmp_readlink (path : list ascii) (size : Z) : prog W (Z * list ascii) :=
  let* (res, data) := pcall (c_readlink path (u64 (size - 1))) in
  if i32 res =? -1 then let* r := neg_errno in pret (r, data)
  else pret (0, take (Z.to_nat (i32 res)) data ++ [nul]).

Definition S_IFMT : Z := 61440.
Definition S_IFIFO : Z := 4096.
Definition xmp_mknod (path : list ascii) (mode rdev : Z) : prog W Z :=
  status (if Z.land mode S_IFMT =? S_IFIFO then c_mkfifo path mode else c_mknod path mode rdev).
Definition xmp_mkdir (path : list ascii) (mode : Z) : prog W Z := status (c_mkdir path mode).
Definition xmp_unlink (path : list ascii) : prog W Z := status (c_unlink path).
Definition xmp_rmdir (path : list ascii) : prog W Z := status (c_rmdir path).
Definition xmp_symlink (from to : list ascii) : prog W Z := status (c_symlink from to).
Definition xmp_rename (from to : list ascii) : prog W Z := status (c_rename from to).
Definition xmp_link (from to : list ascii) : prog W Z := status (c_link from to).
Definition xmp_chmod (path : list ascii) (mode : Z) : prog W Z := status (c_chmod path mode).
Definition xmp_chown (path : list ascii) (uid gid : Z) : prog W Z := status (c_lchown path uid gid).
Definition xmp_truncate (path : list ascii) (size : Z) : prog W Z := status (c_truncate path size).
Definition xmp_ftruncate (size fh : Z) : prog W Z := status (c_ftruncate (i32 fh) size).

(** The result, and the handle if one is stored. *)
Definition xmp_create (path : list ascii) (mode flags : Z) : prog W (Z * option Z) :=
  let* fd := pcall (c_open path flags mode) in
  if i32 fd =? -1 then let* r := neg_errno in pret (r, None) else pret (0, Some (u64 (i32 fd))).
(** Without a mode, which only counts for O_CREAT. *)
Definition xmp_open (path : list ascii) (flags : Z) : prog W (Z * option Z) :=
  let* fd := pcall (c_open path flags 0) in
  if i32 fd =? -1 then let* r := neg_errno in pret (r, None) else pret (0, Some (u64 (i32 fd))).

(** The result and the bytes in the buffer. *)
Definition xmp_read (size offset fh : Z) : prog W (Z * list ascii) :=
  let* (res, data) := pcall (c_pread (i32 fh) size offset) in
  let* r := or_neg_errno res in pret (r, data).
Definition xmp_read_buf (size offset fh : Z) : prog W (Z * option bufvec) :=
  let* w := pget in
  if malloc_ok w then pret (0, Some (BufVec size true true (i32 fh) offset)) else pret (- ENOMEM, None).
Definition xmp_write (buf : list ascii) (offset fh : Z) : prog W Z :=
  let* res := pcall (c_pwrite (i32 fh) buf offset) in or_neg_errno res.
Definition xmp_write_buf (buf : list ascii) (offset fh : Z) : prog W Z :=
  let dst := BufVec (Z.of_nat (length buf)) true true (i32 fh) offset in
  let* r := pcall (c_buf_copy dst buf) in pret (i32 r).

Definition xmp_statfs (path : list ascii) : prog W (Z * statvfs) := status_of (c_statvfs path).
Definition xmp_flush (fh : Z) : prog W Z := let* fd := pcall (c_dup (i32 fh)) in status (c_close (i32 fd)).
Definition xmp_release (fh : Z) : prog W Z := do* pcall (c_close (i32 fh)); pret 0.
(** HAVE_FDATASYNC is not defined. *)
Definition xmp_fsync (isdatasync fh : Z) : prog W Z := status (c_fsync (i32 fh)).
Definition xmp_lock (cmd : Z) (lock : flock_t) (lock_owner fh : Z) : prog W (Z * flock_t) :=
  let* (r, lock) := pcall (c_ulockmgr_op (i32 fh) cmd lock lock_owner) in pret (i32 r, lock).
Definition xmp_flock (op fh : Z) : prog W Z := status (c_flock (i32 fh) op).

(** ** Directories of fusexmp_fh.c *)

(** The stream, the entry that was read and not delivered, and the offset of the kernel. *)
Record xmp_dirp := XmpDirp { dp : Z; entry : option dirent; offset : Z }.

(** The structures that are allocated, by their addresses, and the system. *)
Record daemon := Daemon { dirps : gmap Z xmp_dirp; sys : W }.

Definition dcall {A} (f : W -> A * W) : prog daemon A := fun s =>
  let (a, w) := f (sys s) in Ret (a, Daemon (dirps s) w).
Definition get_dirp (fh : Z) : prog daemon xmp_dirp := fun s =>
  match dirps s !! fh with Some d => Ret (d, s) | None => Undef end.
Definition set_dirp (fh : Z) (d : xmp_dirp) : prog daemon unit := pmodify (fun s => Daemon (<[fh := d]> (dirps s)) (sys s)).
Definition malloc_dirp : prog daemon (option Z) := fun s =>
  if malloc_ok (sys s) then Ret (Some (fresh (dom (dirps s))), s) else Ret (None, s).
Definition free_dirp (fh : Z) : prog daemon unit := fun s =>
  match dirps s !! fh with Some _ => Ret (tt, Daemon (delete fh (dirps s)) (sys s)) | None => Undef end.

(** The result, and the handle if one is stored. *)
Definition xmp_opendir (path : list ascii) : prog daemon (Z * option Z) :=
  let* d := malloc_dirp in
  match d with
  | None => pret (- ENOMEM, None)
  | Some d =>
      let* dp := dcall (c_opendir path) in
      match dp with
      | None => let* e := dcall (fun w => (err_no w, w)) in pret (- e, None)
      | Some dp => do* set_dirp d (XmpDirp dp None 0); pret (0, Some d)
      end
  end.

(** What [filler] gets: name, inode number, mode and next offset. *)
Record filled := Filled { f_name : list ascii; f_ino : Z; f_mode : Z; f_off : Z }.

Section Reading.
(** [filler] on the buffer: not 0 if it is full. *)
Context {B : Type} (filler : B -> filled -> Z * B).

Fixpoint readdir_entries (fuel : nat) (fh : Z) (buf : B) : prog daemon B :=
  match fuel with
  | O => plift Undef
  | S fuel =>
      let* d := get_dirp fh in
      let* e := match entry d with
                | Some e => pret (Some e)
                | None => let* e := dcall (c_readdir (dp d)) in do* set_dirp fh (XmpDirp (dp d) e (offset d)); pret e
                end in
      match e with
      | None => pret buf
      | Some e =>
          let* nextoff := dcall (c_telldir (dp d)) in
          let (full, buf) := filler buf (Filled (d_name e) (d_ino e) (u32 (Z.shiftl (d_type e) 12)) nextoff) in
          if negb (full =? 0) then pret buf
          else do* set_dirp fh (XmpDirp (dp d) None nextoff); readdir_entries fuel fh buf
      end
  end.

Definition xmp_readdir (fuel : nat) (buf : B) (off fh : Z) : prog daemon (Z * B) :=
  let* d := get_dirp fh in
  do* (if negb (off =? offset d) then
         do* dcall (fun w => (tt, c_seekdir (dp d) off w));
         set_dirp fh (XmpDirp (dp d) None off)
       else pret tt);
  let* buf := readdir_entries fuel fh buf in pret (0, buf).
End Reading.

Definition xmp_releasedir (fh : Z) : prog daemon Z :=
  let* d := get_dirp fh in
  do* dcall (c_closedir (dp d));
  do* free_dirp fh;
  pret 0.

(** ** avfsd.c

    The calls are those of AVFS.  Seeking and transferring are one step under the lock of
    the daemon. *)

Definition avfsd_getattr (path : list ascii) : prog W (Z * stat) := status_of (c_lstat path).
Definition avfsd_unlink (path : list ascii) : prog W Z := status (c_unlink path).
Definition avfsd_truncate (path : list ascii) (size : Z) : prog W Z := status (c_truncate path size).
Definition avfsd_access (path : list ascii) (mask : Z) : prog W Z := status (c_access path mask).
Definition avfsd_open (path : list ascii) (flags : Z) : prog W (Z * option Z) :=
  let* res := pcall (c_open path flags 0) in
  if i32 res =? -1 then let* r := neg_errno in pret (r, None) else pret (0, Some (u64 (i32 res))).
Definition avfsd_create (path : list ascii) (mode flags : Z) : prog W (Z * option Z) :=
  let* res := pcall (c_open path (Z.lor (Z.lor flags O_CREAT) O_TRUNC) mode) in
  if i32 res =? -1 then let* r := neg_errno in pret (r, None) else pret (0, Some (u64 (i32 res))).
Definition avfsd_read (size offset fh : Z) : prog W (Z * list ascii) :=
  let* o := pcall (c_lseek (i32 fh) offset SEEK_SET) in
  if o =? -1 then let* r := neg_errno in pret (r, [])
  else
    let* (res, data) := pcall (c_read (i32 fh) size) in
    let* r := or_neg_errno res in pret (r, data).
Definition avfsd_write (buf : list ascii) (offset fh : Z) : prog W Z :=
  let* o := pcall (c_lseek (i32 fh) offset SEEK_SET) in
  if o =? -1 then neg_errno
  else let* res := pcall (c_write (i32 fh) buf) in or_neg_errno res.
Definition avfsd_release (fh : Z) : prog W Z := do* pcall (c_close (i32 fh)); pret 0.

(** ** fuse_cruise.c

    The calls are those of CRUISE; the state is its system and the root of the mount. *)

Definition CRUISE_PATH_MAX : Z := 128.
Definition cruise_fullpath (cruise_rootdir path : list ascii) : outcome (list ascii) :=
  let fpath := cruise_rootdir ++ take (Z.to_nat PATH_MAX) path in
  if Z.of_nat (length fpath) <? CRUISE_PATH_MAX then Ret fpath else Undef.
Definition fuse_cruise_open (cruise_rootdir path : list ascii) (flags : Z) : prog W (Z * Z) :=
  let* fpath := plift (cruise_fullpath cruise_rootdir path) in
  let* fd := pcall (c_open fpath flags 0) in pret (i32 fd, u64 (i32 fd)).
Definition fuse_cruise_read (size offset fh : Z) : prog W (Z * list ascii) :=
  let* (ret, data) := pcall (if offset >? 0 then c_pread (i32 fh) size offset else c_read (i32 fh) size) in
  pret (i32 (u64 ret), data).
Definition fuse_cruise_write (buf : list ascii) (offset fh : Z) : prog W Z :=
  let* ret := pcall (if offset >? 0 then c_pwrite (i32 fh) buf offset else c_write (i32 fh) buf) in
  pret (i32 ret).
Definition fuse_cruise_ftruncate (offset fh : Z) : prog W Z := let* ret := pcall (c_ftruncate (i32 fh) offset) in pret (i32 ret).
End Code.
Arguments daemon W : clear implicits.

(** ** Daemons and libraries *)

(** What the calls return: 0 or -1, a descriptor or -1, a count up to what was asked for or
    -1; and that copying into a place of a file writes there. *)
Class PosixReturns (W : Type) `{Posix W} `{PosixNames W} := {
  lstat_ret p w : (c_lstat p w).1.1 = 0 \/ (c_lstat p w).1.1 = -1;
  fstat_ret fd w : (c_fstat fd w).1.1 = 0 \/ (c_fstat fd w).1.1 = -1;
  access_ret p m w : (c_access p m w).1 = 0 \/ (c_access p m w).1 = -1;
  unlink_ret p w : (c_unlink p w).1 = 0 \/ (c_unlink p w).1 = -1;
  truncate_ret p n w : (c_truncate p n w).1 = 0 \/ (c_truncate p n w).1 = -1;
  ftruncate_ret fd n w : (c_ftruncate fd n w).1 = 0 \/ (c_ftruncate fd n w).1 = -1;
  fsync_ret fd w : (c_fsync fd w).1 = 0 \/ (c_fsync fd w).1 = -1;
  fdatasync_ret fd w : (c_fdatasync fd w).1 = 0 \/ (c_fdatasync fd w).1 = -1;
  stat_ret p w : (c_stat p w).1.1 = 0 \/ (c_stat p w).1.1 = -1;
  open_ret p f m w : -1 <= (c_open p f m w).1 < 2 ^ 31;
  pread_ret fd n off w : 0 <= n -> -1 <= (c_pread fd n off w).1.1 <= n;
  read_ret fd n w : 0 <= n -> -1 <= (c_read fd n w).1.1 <= n;
  pwrite_ret fd bs off w : -1 <= (c_pwrite fd bs off w).1 <= Z.of_nat (length bs);
  write_ret fd bs w : -1 <= (c_write fd bs w).1 <= Z.of_nat (length bs);
  errno_int w : 0 <= err_no w < 2 ^ 31;
  buf_copy_writes fd bs off w : c_buf_copy (BufVec (Z.of_nat (length bs)) true true fd off) bs w =
    let (r, w') := c_pwrite fd bs off w in (if r =? -1 then - err_no w' else r, w') }.

Section Agreement.
Context {W : Type} `{PosixReturns W}.
Implicit Types (s : lib W).

(** A library reports an error number and a count, a daemon a count or a negative error
    number; the system is the same after both. *)
Definition same_status s (l : prog (lib W) Z) (d : prog W Z) : Prop :=
  exists e w, l s = Ret (e, Lib (backend s) w) /\ d (below s) = Ret (- e, w).
Definition same_stat s (l : prog (lib W) (Z * stat)) (d : prog W (Z * stat)) : Prop :=
  exists e st w, l s = Ret ((e, st), Lib (backend s) w) /\ d (below s) = Ret ((- e, st), w).
Definition same_open s (l : prog (lib W) (Z * option Z)) (d : prog W (Z * option Z)) : Prop :=
  exists e h w, l s = Ret ((e, h), Lib (backend s) w) /\ d (below s) = Ret ((- e, h), w).
Definition count_or_error (e n : Z) : Z := if e =? 0 then n else - e.
Definition same_read s (l : prog (lib W) (Z * list ascii * Z)) (d : prog W (Z * list ascii)) : Prop :=
  exists e data n w, l s = Ret ((e, data, n), Lib (backend s) w) /\ d (below s) = Ret ((count_or_error e n, data), w).
Definition same_write s (l : prog (lib W) (Z * Z)) (d : prog W Z) : Prop :=
  exists e n w, l s = Ret ((e, n), Lib (backend s) w) /\ d (below s) = Ret (count_or_error e n, w).

(** The file of the backend. *)
Definition in_backend (b path : list ascii) : list ascii := take 4095 (b ++ lit "/" ++ path).

Lemma call_status s f : (f (below s)).1 = 0 \/ (f (below s)).1 = -1 ->
  same_status s (let* ret := lib_call f in or_errno (i32 ret)) (status f).
Proof.
  intros Hf. unfold same_status, status, pbind, lib_call, pcall. destruct (f (below s)) as [r w]. cbn [fst] in Hf. destruct Hf as [->| ->].
  - exists 0, w. done.
  - exists (err_no w), w. done.
Qed.
Lemma call_stat s (f : W -> (Z * stat) * W) : (f (below s)).1.1 = 0 \/ (f (below s)).1.1 = -1 ->
  same_stat s (let* (ret, st) := lib_call f in let* ret := or_errno (i32 ret) in pret (ret, st)) (status_of f).
Proof.
  intros Hf. unfold same_stat, status_of, pbind, lib_call, pcall. destruct (f (below s)) as [[r st] w]. cbn [fst] in Hf. destruct Hf as [->| ->].
  - exists 0, st, w. done.
  - exists (err_no w), st, w. done.
Qed.
Lemma count_small r : -1 <= r <= MAX_RW_COUNT -> i32 r = r /\ (r <> -1 -> u64 r = r).
Proof. unfold MAX_RW_COUNT. intros Hr. split; [apply swrap_small; lia|intros; apply wrap_small; lia]. Qed.
Lemma error_or_zero e : count_or_error e 0 = - e.
Proof. unfold count_or_error. destruct (Z.eqb_spec e 0) as [->|]; done. Qed.
Lemma call_read s (f : W -> (Z * list ascii) * W) : -1 <= (f (below s)).1.1 <= MAX_RW_COUNT ->
  same_read s (let* (ret, data) := lib_call f in let* (ret, n) := counted (i32 ret) in pret (ret, data, n))
    (let* (res, data) := pcall f in let* r := or_neg_errno res in pret (r, data)).
Proof.
  intros Hf. unfold same_read, pbind, lib_call, pcall. destruct (f (below s)) as [[r data] w]. cbn [fst] in Hf. destruct (count_small r Hf) as [Er Eu].
  unfold counted, or_neg_errno. rewrite Er. destruct (Z.eqb_spec r (-1)) as [->|Hr]; cbn.
  - exists (err_no w), data, 0, w. by rewrite error_or_zero.
  - exists 0, data, r, w. by rewrite (Eu Hr).
Qed.
Lemma call_write s (f : W -> Z * W) : -1 <= (f (below s)).1 <= MAX_RW_COUNT ->
  same_write s (let* ret := lib_call f in counted (i32 ret)) (let* res := pcall f in or_neg_errno res).
Proof.
  intros Hf. unfold same_write, pbind, lib_call, pcall. destruct (f (below s)) as [r w]. cbn [fst] in Hf. destruct (count_small r Hf) as [Er Eu].
  unfold counted, or_neg_errno. rewrite Er. destruct (Z.eqb_spec r (-1)) as [->|Hr]; cbn.
  - exists (err_no w), 0, w. by rewrite error_or_zero.
  - exists 0, r, w. by rewrite (Eu Hr).
Qed.
Lemma at_path {A} s b path (k : list ascii -> prog (lib W) A) : backend s = Some b -> (let* p := backend_file path in k p) s = k (in_backend b path) s.
Proof. intros Hb. unfold pbind, backend_file. by rewrite Hb. Qed.
Lemma call_open s p flags mode (ok : Z -> bool) : ok (c_open p flags mode (below s)).1 = negb ((c_open p flags mode (below s)).1 =? -1) ->
  same_open s (let* fd := lib_call (c_open p flags mode) in let fd := i32 fd in opened (ok fd) fd)
    (let* fd := pcall (c_open p flags mode) in if i32 fd =? -1 then let* r := neg_errno in pret (r, None) else pret (0, Some (u64 (i32 fd)))).
Proof.
  intros Hok. unfold same_open, pbind, lib_call, pcall. pose proof (open_ret p flags mode (below s)) as Hr. destruct (c_open p flags mode (below s)) as [fd w]. cbn [fst] in Hok, Hr.
  rewrite swrap_small by lia. rewrite Hok. unfold opened. destruct (fd =? -1); cbn; [by exists (err_no w), None, w|by exists 0, (Some (u64 fd)), w].
Qed.
Lemma seek_read s fd off l d : (forall s, same_read s l d) ->
  same_read s (let* o := lib_call (c_lseek fd off SEEK_SET) in if o =? -1 then let* e := lib_errno in pret (e, [], 0) else l)
    (let* o := pcall (c_lseek fd off SEEK_SET) in if o =? -1 then let* r := neg_errno in pret (r, []) else d).
Proof.
  intros Hc. unfold same_read, pbind at 1 3, lib_call, pcall. destruct (c_lseek fd off SEEK_SET (below s)) as [o w]. destruct (o =? -1); [|apply (Hc (Lib (backend s) w))].
  exists (err_no w), [], 0, w. by rewrite error_or_zero.
Qed.
Lemma seek_write s fd off l d : (forall s, same_write s l d) ->
  same_write s (let* o := lib_call (c_lseek fd off SEEK_SET) in if o =? -1 then let* e := lib_errno in pret (e, 0) else l)
    (let* o := pcall (c_lseek fd off SEEK_SET) in if o =? -1 then neg_errno else d).
Proof.
  intros Hc. unfold same_write, pbind at 1 3, lib_call, pcall. destruct (c_lseek fd off SEEK_SET (below s)) as [o w]. destruct (o =? -1); [|apply (Hc (Lib (backend s) w))].
  exists (err_no w), 0, w. by rewrite error_or_zero.
Qed.
(** Copying the vector is writing. *)
Lemma write_buf_writes bs off fh w : Z.of_nat (length bs) <= MAX_RW_COUNT -> xmp_write_buf bs off fh w = xmp_write bs off fh w.
Proof.
  intros Hn. unfold xmp_write_buf, xmp_write, pbind, pcall. rewrite buf_copy_writes. pose proof (pwrite_ret (i32 fh) bs off w) as Hr. destruct (c_pwrite (i32 fh) bs off w) as [r w']. cbn [fst] in Hr.
  unfold or_neg_errno. destruct (count_small r ltac:(lia)) as [-> _]. pose proof (errno_int w'). destruct (r =? -1); unfold neg_errno, pret; f_equal; f_equal; apply swrap_small; unfold MAX_RW_COUNT in *; lia.
Qed.

(** avfsd.c and avfs_wrap.c transfer the same data. *)
Lemma avfs_agrees s fh : 0 <= fh < 2 ^ 31 ->
  (forall n off, 0 <= n <= MAX_RW_COUNT -> same_read s (avfs_read fh n off) (avfsd_read n off fh)) /\
  (forall bs off, Z.of_nat (length bs) <= MAX_RW_COUNT -> same_write s (avfs_write fh bs off) (avfsd_write bs off fh)).
Proof.
  intros Hf. unfold avfs_read, avfsd_read, avfs_write, avfsd_write. rewrite (swrap_small 32 fh) by lia. split.
  - intros n off Hn. apply seek_read. intros s'. apply call_read. pose proof (read_ret fh n (below s') ltac:(lia)). lia.
  - intros bs off Hn. apply seek_write. intros s'. apply call_write. pose proof (write_ret fh bs (below s')). lia.
Qed.

(** ** Sequences of calls *)

Inductive fs_call :=
| COpen (path : list ascii) (flags mode : Z)
| CRead (fh n off : Z)
| CWrite (fh : Z) (bs : list ascii) (off : Z)
| CTruncate (path : list ascii) (n : Z)
| CFtruncate (fh n : Z)
| CGetattr (path : list ascii) (flags : Z)
| CFgetattr (fh : Z)
| CUnlink (path : list ascii)
| CAccess (path : list ascii) (mode : Z)
| CFsync (fh data_sync : Z)
| CClose (fh : Z).

(** A count or a negative error number, and what was stored for the caller. *)
Record answer := Answer { a_code : Z; a_data : list ascii; a_stat : option stat; a_handle : option Z }.
Definition code (z : Z) : answer := Answer z [] None None.

Definition lib_exec (c : fs_call) : prog (lib W) answer :=
  match c with
  | COpen path flags mode => let* (e, h) := usfs_open path flags mode in pret (Answer (- e) [] None h)
  | CRead fh n off => let* (e, data, k) := usfs_read fh n off in pret (Answer (count_or_error e k) data None None)
  | CWrite fh bs off => let* (e, k) := usfs_write fh bs off in pret (code (count_or_error e k))
  | CTruncate path n => let* e := usfs_truncate path n in pret (code (- e))
  | CFtruncate fh n => let* e := usfs_ftruncate fh n in pret (code (- e))
  | CGetattr path flags => let* (e, st) := usfs_getattr path flags in pret (Answer (- e) [] (Some st) None)
  | CFgetattr fh => let* (e, st) := usfs_fgetattr fh in pret (Answer (- e) [] (Some st) None)
  | CUnlink path => let* e := usfs_unlink path in pret (code (- e))
  | CAccess path mode => let* e := usfs_access path mode in pret (code (- e))
  | CFsync fh data_sync => let* e := usfs_fsync fh data_sync in pret (code (- e))
  | CClose fh => let* e := usfs_close fh in pret (code (- e))
  end.

(** The daemon is asked for the file of the backend. *)
Definition daemon_exec (b : list ascii) (c : fs_call) : prog W answer :=
  match c with
  | COpen path flags mode => let* (e, h) := xmp_create (in_backend b path) mode flags in pret (Answer e [] None h)
  | CRead fh n off => let* (r, data) := xmp_read n off fh in pret (Answer r data None None)
  | CWrite fh bs off => let* r := xmp_write_buf bs off fh in pret (code r)
  | CTruncate path n => let* r := xmp_truncate (in_backend b path) n in pret (code r)
  | CFtruncate fh n => let* r := xmp_ftruncate n fh in pret (code r)
  | CGetattr path flags => let* (r, st) := xmp_getattr (in_backend b path) in pret (Answer r [] (Some st) None)
  | CFgetattr fh => let* (r, st) := xmp_fgetattr fh in pret (Answer r [] (Some st) None)
  | CUnlink path => let* r := xmp_unlink (in_backend b path) in pret (code r)
  | CAccess path mode => let* r := xmp_access (in_backend b path) mode in pret (code r)
  | CFsync fh data_sync => let* r := xmp_fsync data_sync fh in pret (code r)
  | CClose fh => let* r := xmp_release fh in pret (code r)
  end.

Fixpoint lib_run (cs : list fs_call) : prog (lib W) (list answer) :=
  match cs with [] => pret [] | c :: cs => let* a := lib_exec c in let* l := lib_run cs in pret (a :: l) end.
Fixpoint daemon_run (b : list ascii) (cs : list fs_call) : prog W (list answer) :=
  match cs with [] => pret [] | c :: cs => let* a := daemon_exec b c in let* l := daemon_run b cs in pret (a :: l) end.

Definition handle_ok (fh : Z) : Prop := 0 <= fh < 2 ^ 31.

(** The calls on which the two agree. *)
Definition call_ok (b : list ascii) (c : fs_call) (w : W) : Prop :=
  match c with
  | COpen path flags mode => (c_open (in_backend b path) flags mode w).1 <> 0
  | CRead fh n off => handle_ok fh /\ 0 <= n <= MAX_RW_COUNT
  | CWrite fh bs off => handle_ok fh /\ Z.of_nat (length bs) <= MAX_RW_COUNT
  | CFtruncate fh _ | CFgetattr fh => handle_ok fh
  | CGetattr _ flags => Z.land flags AT_SYMLINK_NOFOLLOW <> 0
  | CFsync fh data_sync => handle_ok fh /\ data_sync <= 0
  | CClose fh => (c_close (i32 fh) w).1 = 0
  | CTruncate _ _ | CUnlink _ | CAccess _ _ => True
  end.
Fixpoint calls_ok (b : list ascii) (cs : list fs_call) (w : W) : Prop :=
  match cs with
  | [] => True
  | c :: cs => call_ok b c w /\ forall a w', daemon_exec b c w = Ret (a, w') -> calls_ok b cs w'
  end.

Lemma status_code s l d : same_status s l d ->
  exists a w, (let* e := l in pret (code (- e))) s = Ret (a, Lib (backend s) w) /\ (let* r := d in pret (code r)) (below s) = Ret (a, w).
Proof. intros (e & w & E1 & E2). exists (code (- e)), w. by rewrite (pbind_ret _ _ _ _ _ E1), (pbind_ret _ _ _ _ _ E2). Qed.
Lemma stat_answer s l d : same_stat s l d ->
  exists a w, (let* (e, st) := l in pret (Answer (- e) [] (Some st) None)) s = Ret (a, Lib (backend s) w) /\
    (let* (r, st) := d in pret (Answer r [] (Some st) None)) (below s) = Ret (a, w).
Proof. intros (e & st & w & E1 & E2). exists (Answer (- e) [] (Some st) None), w. by rewrite (pbind_ret _ _ _ _ _ E1), (pbind_ret _ _ _ _ _ E2). Qed.

Lemma call_agrees s b c : backend s = Some b -> call_ok b c (below s) ->
  exists a w, lib_exec c s = Ret (a, Lib (backend s) w) /\ daemon_exec b c (below s) = Ret (a, w).
Proof.
  intros Hb. destruct c as [path flags mode|fh n off|fh bs off|path n|fh n|path flags|fh|path|path mode|fh ds|fh]; cbn [call_ok lib_exec daemon_exec].
  - intros Hz. assert (same_open s (usfs_open path flags mode) (xmp_create (in_backend b path) mode flags)) as (e & h & w & E1 & E2).
    { unfold same_open, usfs_open. rewrite (at_path s b) by done. apply (call_open s (in_backend b path) flags mode (fun fd => fd >? 0)).
      pose proof (open_ret (in_backend b path) flags mode (below s)). rewrite Z.gtb_ltb. lia. }
    exists (Answer (- e) [] None h), w. by rewrite (pbind_ret _ _ _ _ _ E1), (pbind_ret _ _ _ _ _ E2).
  - intros [Hf Hn]. assert (same_read s (usfs_read fh n off) (xmp_read n off fh)) as (e & data & k & w & E1 & E2).
    { unfold xmp_read. rewrite (swrap_small 32 fh) by (unfold handle_ok in Hf; lia). apply call_read. pose proof (pread_ret fh n off (below s) ltac:(lia)). lia. }
    exists (Answer (count_or_error e k) data None None), w. by rewrite (pbind_ret _ _ _ _ _ E1), (pbind_ret _ _ _ _ _ E2).
  - intros [Hf Hn]. assert (same_write s (usfs_write fh bs off) (xmp_write bs off fh)) as (e & k & w & E1 & E2).
    { unfold xmp_write. rewrite (swrap_small 32 fh) by (unfold handle_ok in Hf; lia). apply call_write. pose proof (pwrite_ret fh bs off (below s)). lia. }
    rewrite <- write_buf_writes in E2 by done. exists (code (count_or_error e k)), w. by rewrite (pbind_ret _ _ _ _ _ E1), (pbind_ret _ _ _ _ _ E2).
  - intros _. apply status_code. unfold same_status, usfs_truncate. rewrite (at_path s b) by done. apply call_status, truncate_ret.
  - intros Hf. apply status_code. unfold xmp_ftruncate. rewrite (swrap_small 32 fh) by (unfold handle_ok in Hf; lia). apply call_status, ftruncate_ret.
  - intros Hfl. apply stat_answer. unfold same_stat, usfs_getattr. rewrite (at_path s b) by done. rewrite (proj2 (Z.eqb_neq _ _) Hfl). apply call_stat, lstat_ret.
  - intros _. apply stat_answer, call_stat, fstat_ret.
  - intros _. apply status_code. unfold same_status, usfs_unlink. rewrite (at_path s b) by done. apply call_status, unlink_ret.
  - intros _. apply status_code. unfold same_status, usfs_access. rewrite (at_path s b) by done. apply call_status, access_ret.
  - intros [Hf Hd]. apply status_code. unfold usfs_fsync, xmp_fsync. rewrite Z.gtb_ltb, (proj2 (Z.ltb_ge _ _) Hd), (swrap_small 32 fh) by (unfold handle_ok in Hf; lia).
    apply call_status, fsync_ret.
  - intros Hc. unfold usfs_close, xmp_release, pbind, lib_call, pcall. destruct (c_close (i32 fh) (below s)) as [r w]. cbn [fst] in Hc. subst r.
    by exists (code 0), w.
Qed.

(** C30: usfs_wrap.c and the daemon fusexmp_fh.c can stand for each other, with the
    exceptions that the theorem names.  From the same state of the system below, a
    sequence of opens, reads, writes, truncations, queries and closes gives the same
    answers through both, data, attributes, handles and error numbers, and leaves the
    system the same, as long as handles are descriptors, transfers are of at most
    [MAX_RW_COUNT] bytes, attributes are asked for without following links, data is
    synchronised with its attributes, no file is opened as descriptor 0 and no close
    fails.  Outside of that they differ: for descriptor 0 the library reports an error
    and the daemon a handle; on a close that fails the library returns -1 and the daemon
    0; the library follows links without the flag and calls [fdatasync], the daemon
    never does.  (readlink is left out: the daemon keeps a byte for the NUL.) *)
Theorem daemons_agree_with_libraries cs s b : backend s = Some b -> calls_ok b cs (below s) ->
  (exists answers w, lib_run cs s = Ret (answers, Lib (backend s) w) /\ daemon_run b cs (below s) = Ret (answers, w)) /\
  (forall path flags mode w, c_open (in_backend b path) flags mode (below s) = (0, w) ->
     usfs_open path flags mode s = Ret ((err_no w, None), Lib (backend s) w) /\
     xmp_create (in_backend b path) mode flags (below s) = Ret ((0, Some 0), w)) /\
  (forall fh w, c_close (i32 fh) (below s) = (-1, w) ->
     usfs_close fh s = Ret (-1, Lib (backend s) w) /\ xmp_release fh (below s) = Ret (0, w)) /\
  (forall fh data_sync, handle_ok fh -> 0 < data_sync ->
     same_status s (usfs_fsync fh data_sync) (status (c_fdatasync fh)) /\ xmp_fsync data_sync fh = status (c_fsync fh)) /\
  (forall path flags, Z.land flags AT_SYMLINK_NOFOLLOW = 0 ->
     same_stat s (usfs_getattr path flags) (status_of (c_stat (in_backend b path))) /\
     xmp_getattr (in_backend b path) = status_of (c_lstat (in_backend b path))).
Proof.
  intros Hb Hok. split_and!.
  - revert s Hb Hok. induction cs as [|c cs IH]; intros s Hb Hok; cbn [lib_run daemon_run]; [exists [], (below s); by destruct s|].
    destruct Hok as [Hc Hok]. destruct (call_agrees s b c Hb Hc) as (a & w & E1 & E2).
    destruct (IH (Lib (backend s) w) Hb (Hok _ _ E2)) as (l & w' & E3 & E4). exists (a :: l), w'.
    by rewrite (pbind_ret _ _ _ _ _ E1), (pbind_ret _ _ _ _ _ E2), (pbind_ret _ _ _ _ _ E3), (pbind_ret _ _ _ _ _ E4).
  - intros path flags mode w E. split.
    + unfold usfs_open. rewrite (at_path s b) by done. by rewrite (pbind_ret _ _ _ _ _ (lib_call_ret _ _ _ _ E)).
    + unfold xmp_create, pbind, pcall. by rewrite E.
  - intros fh w E. split; [unfold usfs_close; by rewrite (pbind_ret _ _ _ _ _ (lib_call_ret _ _ _ _ E))|].
    unfold xmp_release, pbind, pcall. by rewrite E.
  - intros fh ds Hf Hd. split.
    + unfold same_status, usfs_fsync. rewrite Z.gtb_ltb, (proj2 (Z.ltb_lt _ _) Hd). apply call_status, fdatasync_ret.
    + unfold xmp_fsync. by rewrite (swrap_small 32 fh) by (unfold handle_ok in Hf; lia).
  - intros path flags Hfl. split; [|done]. unfold same_stat, usfs_getattr. rewrite (at_path s b) by done. rewrite Hfl. apply call_stat, stat_ret.
Qed.
End Agreement.

(** ** Directories *)

(** The offset at which the [k]th entry is next: 0, or what [telldir] gave after the entry before. *)
Definition off_at (l : list (dirent * Z)) (k : nat) : option Z := match k with O => Some 0 | S j => snd <$> l !! j end.

(** Directory streams: the entries with the positions behind them, and the entry that is
    next.  The positions are different and not 0, which is the start. *)
Class DirStreams (W : Type) `{PosixNames W} := {
  listing : W -> Z -> option (list (dirent * Z) * nat);
  listing_offsets w dp l i : listing w dp = Some (l, i) -> NoDup (0 :: l.*2);
  opendir_starts path w dp w' : c_opendir path w = (Some dp, w') -> exists l, listing w' dp = Some (l, 0%nat);
  readdir_next dp w l i e c : listing w dp = Some (l, i) -> l !! i = Some (e, c) ->
    exists w', c_readdir dp w = (Some e, w') /\ listing w' dp = Some (l, S i);
  readdir_end dp w l i : listing w dp = Some (l, i) -> l !! i = None -> exists w', c_readdir dp w = (None, w') /\ listing w' dp = Some (l, i);
  telldir_behind dp w l i e c : listing w dp = Some (l, S i) -> l !! i = Some (e, c) ->
    exists w', c_telldir dp w = (c, w') /\ listing w' dp = Some (l, S i);
  seekdir_back dp w l i k c : listing w dp = Some (l, i) -> off_at l k = Some c -> listing (c_seekdir dp c w) dp = Some (l, k) }.

(** What is delivered of an entry. *)
Definition filled_of (x : dirent * Z) : filled := Filled (d_name x.1) (d_ino x.1) (u32 (Z.shiftl (d_type x.1) 12)) x.2.

(** A buffer that takes entries while there is room. *)
Definition fill_dir (room : list filled -> filled -> bool) (buf : list filled) (f : filled) : Z * list filled :=
  if room buf f then (0, buf ++ [f]) else (1, buf).
Fixpoint fill (room : list filled -> filled -> bool) (buf : list filled) (l : list filled) : list filled :=
  match l with [] => buf | f :: l => if room buf f then fill room (buf ++ [f]) l else buf end.

Lemma fill_prefix room l : forall buf, exists n, (n <= length l)%nat /\ fill room buf l = buf ++ take n l.
Proof.
  induction l as [|f l IH]; intros buf; cbn [fill]; [exists 0%nat; by rewrite app_nil_r|]. destruct (room buf f); [|exists 0%nat; cbn; split; [lia|by rewrite app_nil_r]].
  destruct (IH (buf ++ [f])) as (n & Hn & ->). exists (S n). cbn. split; [lia|]. by rewrite <- app_assoc.
Qed.

Section Listing.
Context {W : Type} `{Posix W} `{DirStreams W}.
Implicit Types (s : daemon W) (l : list (dirent * Z)) (m : gmap Z xmp_dirp).

(** [k] entries are delivered; the one that follows may have been read already. *)
Definition dir_inv m s fh l (k : nat) : Prop := exists d i, dirps s = <[fh := d]> m /\ off_at l k = Some (offset d) /\ listing (sys s) (dp d) = Some (l, i) /\
  (entry d = None /\ i = k \/ exists e c, entry d = Some e /\ l !! k = Some (e, c) /\ i = S k).

Lemma off_at_inj w p l i j k c : listing w p = Some (l, i) -> off_at l j = Some c -> off_at l k = Some c -> j = k.
Proof.
  intros Hl Hj Hk. apply listing_offsets in Hl. assert (forall n, off_at l n = (0 :: l.*2) !! n) as E by (intros [|n]; [done|unfold off_at; by rewrite lookup_cons_ne_0, list_lookup_fmap]).
  rewrite E in Hj, Hk. by apply (NoDup_lookup _ _ _ _ Hl Hj Hk).
Qed.
Lemma off_at_bound l k c : off_at l k = Some c -> (k <= length l)%nat.
Proof. destruct k as [|k]; cbn; [lia|]. destruct (l !! k) eqn:E; [|done]. intros _. apply lookup_lt_Some in E. lia. Qed.
Lemma get_dirp_ret m s fh d : dirps s = <[fh := d]> m -> get_dirp fh s = Ret (d, s).
Proof. intros E. unfold get_dirp. by rewrite E, lookup_insert_eq. Qed.
Lemma dcall_ret {A} (f : W -> A * W) s a w : f (sys s) = (a, w) -> dcall f s = Ret (a, Daemon (dirps s) w).
Proof. unfold dcall. by intros ->. Qed.

(** The entry that is next is at hand, or there is none. *)
Lemma next_entry m s fh l k d i : dirps s = <[fh := d]> m -> off_at l k = Some (offset d) -> listing (sys s) (dp d) = Some (l, i) ->
  (entry d = None /\ i = k \/ exists e c, entry d = Some e /\ l !! k = Some (e, c) /\ i = S k) ->
  exists s', (match entry d with
    | Some e => pret (Some e)
    | None => let* e := dcall (c_readdir (dp d)) in do* set_dirp fh (XmpDirp (dp d) e (offset d)); pret e
    end) s = Ret (fst <$> l !! k, s') /\
    dirps s' = <[fh := XmpDirp (dp d) (fst <$> l !! k) (offset d)]> m /\ listing (sys s') (dp d) = Some (l, if l !! k then S k else k).
Proof.
  intros Em Ho Hl [[He ->]|(e & c & He & Hk & ->)].
  - rewrite He. destruct (l !! k) as [[e c]|] eqn:Hk.
    + destruct (readdir_next (dp d) (sys s) l k e c Hl Hk) as (w & Ew & Hw). rewrite (pbind_ret _ _ _ _ _ (dcall_ret _ _ _ _ Ew)). eexists. split; [done|]. cbn. split; [by rewrite Em, insert_insert_eq|done].
    + destruct (readdir_end (dp d) (sys s) l k Hl Hk) as (w & Ew & Hw). rewrite (pbind_ret _ _ _ _ _ (dcall_ret _ _ _ _ Ew)). eexists. split; [done|]. cbn. split; [by rewrite Em, insert_insert_eq|done].
  - rewrite He, Hk. exists s. split; [done|]. cbn. split; [|done]. rewrite Em. destruct d; cbn in *. by rewrite He.
Qed.

Lemma readdir_entries_spec room fuel m : forall s fh l k buf, dir_inv m s fh l k -> (length l < k + fuel)%nat ->
  exists s', readdir_entries (fill_dir room) fuel fh buf s = Ret (fill room buf (map filled_of (drop k l)), s') /\
    dir_inv m s' fh l (k + (length (fill room buf (map filled_of (drop k l))) - length buf))%nat.
Proof.
  induction fuel as [|fuel IH]; intros s fh l k buf Hd Hf; pose proof Hd as (d & i & Em & Ho & Hl & He); pose proof (off_at_bound _ _ _ Ho) as Hk; [lia|].
  cbn [readdir_entries]. rewrite (pbind_ret _ _ _ _ _ (get_dirp_ret m s fh d Em)). destruct (next_entry m s fh l k d i Em Ho Hl He) as (s1 & E1 & Em1 & Hl1). rewrite (pbind_ret _ _ _ _ _ E1). clear E1.
  destruct (l !! k) as [[e c]|] eqn:Elk; cbn [fmap option_fmap option_map fst] in *.
  - rewrite (drop_S _ _ _ Elk). cbn [map fill]. destruct (telldir_behind (dp d) (sys s1) l k e c Hl1 Elk) as (w & Ew & Hw). rewrite (pbind_ret _ _ _ _ _ (dcall_ret _ _ _ _ Ew)).
    change (Filled (d_name e) (d_ino e) (u32 (Z.shiftl (d_type e) 12)) c) with (filled_of (e, c)). unfold fill_dir at 1. destruct (room buf (filled_of (e, c))); cbn [negb Z.eqb].
    + set (s2 := Daemon (<[fh := XmpDirp (dp d) None c]> (dirps s1)) w). change (set_dirp fh (XmpDirp (dp d) None c) (Daemon (dirps s1) w)) with (Ret (tt, s2)).
      assert (dir_inv m s2 fh l (S k)) as Hd2 by (exists (XmpDirp (dp d) None c), (S k); cbn; rewrite Em1, insert_insert_eq, Elk; split_and!; [done|done|done|by left]).
      destruct (IH s2 fh l (S k) (buf ++ [filled_of (e, c)]) Hd2 ltac:(lia)) as (s' & E' & Hd'). exists s'. unfold pbind, set_dirp, pmodify. cbn. unfold s2 in E'. rewrite E'. split; [done|].
      revert Hd'. destruct (fill_prefix room (map filled_of (drop (S k) l)) (buf ++ [filled_of (e, c)])) as (n & Hn & ->). rewrite !length_app. cbn [length]. intros Hd'.
      replace (k + _)%nat with (S k + (length buf + 1 + length (take n (map filled_of (drop (S k) l))) - (length buf + 1)))%nat by lia. done.
    + eexists. split; [done|]. rewrite Nat.sub_diag, Nat.add_0_r. exists (XmpDirp (dp d) (Some e) (offset d)), (S k). cbn. split_and!; [done|done|done|right; by exists e, c].
  - assert (k = length l) as -> by (apply lookup_ge_None in Elk; lia). rewrite drop_all. cbn [map fill]. exists s1. split; [done|]. rewrite Nat.sub_diag, Nat.add_0_r.
    exists (XmpDirp (dp d) None (offset d)), (length l). split_and!; [done|done|done|by left].
Qed.

(** A request at the offset of any entry. *)
Lemma xmp_readdir_spec room fuel m s fh l k j buf off : dir_inv m s fh l k -> off_at l j = Some off -> (length l < fuel)%nat ->
  exists s', xmp_readdir (fill_dir room) fuel buf off fh s = Ret ((0, fill room buf (map filled_of (drop j l))), s') /\
    dir_inv m s' fh l (j + (length (fill room buf (map filled_of (drop j l))) - length buf))%nat.
Proof.
  intros Hd Hj Hf. pose proof Hd as (d & i & Em & Ho & Hl & He). unfold xmp_readdir. rewrite (pbind_ret _ _ _ _ _ (get_dirp_ret m s fh d Em)).
  destruct (Z.eqb_spec off (offset d)) as [->|Hne]; cbn [negb].
  - assert (j = k) as -> by by apply (off_at_inj (sys s) (dp d) l i j k (offset d)). rewrite (pbind_ret _ _ _ _ _ eq_refl).
    destruct (readdir_entries_spec room fuel m s fh l k buf Hd ltac:(lia)) as (s' & E' & Hd'). rewrite (pbind_ret _ _ _ _ _ E'). by exists s'.
  - set (s1 := Daemon (<[fh := XmpDirp (dp d) None off]> (dirps s)) (c_seekdir (dp d) off (sys s))).
    assert (dir_inv m s1 fh l j) as Hd1.
    { exists (XmpDirp (dp d) None off), j. cbn. split_and!; [by rewrite Em, insert_insert_eq|done|by apply (seekdir_back (dp d) (sys s) l i)|by left]. }
    match goal with |- context [pbind ?e ?k s] => rewrite (pbind_ret e k s tt s1 eq_refl) end. destruct (readdir_entries_spec room fuel m s1 fh l j buf Hd1 ltac:(lia)) as (s' & E' & Hd'). rewrite (pbind_ret _ _ _ _ _ E'). by exists s'.
Qed.

(** Requests, each from an entry on and with its own room. *)
Fixpoint requests (fuel : nat) (fh : Z) (l : list (dirent * Z)) (reqs : list (nat * (list filled -> filled -> bool))) : prog (daemon W) (list (list filled)) :=
  match reqs with
  | [] => pret []
  | (j, room) :: reqs =>
      let* (_, buf) := xmp_readdir (fill_dir room) fuel [] (default 0 (off_at l j)) fh in
      let* bufs := requests fuel fh l reqs in pret (buf :: bufs)
  end.
Lemma requests_spec fuel m fh l reqs : (length l < fuel)%nat -> Forall (fun r => (r.1 <= length l)%nat) reqs -> forall s k, dir_inv m s fh l k ->
  exists s' k', requests fuel fh l reqs s = Ret (map (fun r => fill r.2 [] (map filled_of (drop r.1 l))) reqs, s') /\ dir_inv m s' fh l k'.
Proof.
  intros Hf. induction 1 as [|[j room] reqs Hj Hr IH]; intros s k Hd; [by exists s, k|]. cbn [requests map fst snd] in *.
  assert (exists c, off_at l j = Some c) as [c Hc] by (destruct j as [|j]; [by exists 0|]; destruct (lookup_lt_is_Some_2 l j ltac:(lia)) as [x Hx]; exists x.2; cbn; by rewrite Hx).
  rewrite Hc. cbn [default from_option id]. destruct (xmp_readdir_spec room fuel m s fh l k j [] c Hd Hc Hf) as (s1 & E1 & Hd1). rewrite (pbind_ret _ _ _ _ _ E1).
  destruct (IH s1 _ Hd1) as (s2 & k2 & E2 & Hd2). rewrite (pbind_ret _ _ _ _ _ E2). by exists s2, k2.
Qed.

(** The kernel reads on at the offset of the last entry until it gets none. *)
Fixpoint read_all (fuel n : nat) (rooms : nat -> list filled -> filled -> bool) (fh off : Z) (acc : list filled) : prog (daemon W) (list filled) :=
  match n with
  | O => plift Undef
  | S n =>
      let* (_, buf) := xmp_readdir (fill_dir (rooms n)) fuel [] off fh in
      match last buf with None => pret acc | Some f => read_all fuel n rooms fh (f_off f) (acc ++ buf) end
  end.
Lemma read_all_spec fuel m fh l rooms : (length l < fuel)%nat -> (forall n f, rooms n [] f = true) -> forall n s k j off, dir_inv m s fh l k -> off_at l j = Some off -> (length l < j + n)%nat ->
  exists s' k', read_all fuel n rooms fh off (map filled_of (take j l)) s = Ret (map filled_of l, s') /\ dir_inv m s' fh l k'.
Proof.
  intros Hf Hr. induction n as [|n IH]; intros s k j off Hd Hj Hn; pose proof (off_at_bound _ _ _ Hj); [lia|]. cbn [read_all].
  destruct (xmp_readdir_spec (rooms n) fuel m s fh l k j [] off Hd Hj Hf) as (s1 & E1 & Hd1). rewrite (pbind_ret _ _ _ _ _ E1). clear E1. cbn [length] in Hd1. rewrite Nat.sub_0_r in Hd1.
  destruct (fill_prefix (rooms n) (map filled_of (drop j l)) []) as (q & Hq & Eq). rewrite length_map, length_drop in Hq. destruct (decide (j = length l)) as [->|Hlt].
  - rewrite drop_all in *. cbn [map fill last] in *. rewrite firstn_all. by exists s1, (length l + length (@nil filled))%nat.
  - destruct (lookup_lt_is_Some_2 l j ltac:(lia)) as [x Hx]. assert (q <> 0%nat) as Hq0.
    { intros ->. rewrite (drop_S _ _ _ Hx) in Eq. cbn [map fill] in Eq. rewrite Hr in Eq. destruct (fill_prefix (rooms n) (map filled_of (drop (S j) l)) [filled_of x]) as (q' & _ & Eq'). cbn [app] in Eq. rewrite Eq' in Eq. done. }
    rewrite Eq in *. cbn [app] in *. rewrite firstn_map in *. destruct (lookup_lt_is_Some_2 l (j + q - 1) ltac:(lia)) as [y Hy].
    assert (last (map filled_of (take q (drop j l))) = Some (filled_of y)) as ->.
    { rewrite last_lookup, length_map, length_take, length_drop. replace (pred _) with (q - 1)%nat by lia. change (map filled_of ?z) with (filled_of <$> z). rewrite list_lookup_fmap, lookup_take_lt, lookup_drop by lia.
      replace (j + (q - 1))%nat with (j + q - 1)%nat by lia. by rewrite Hy. }
    rewrite <- map_app, take_take_drop. rewrite length_map, length_take, length_drop in Hd1. replace (j + min q (length l - j))%nat with (j + q)%nat in Hd1 by lia.
    apply (IH s1 (j + q)%nat (j + q)%nat (f_off (filled_of y)) Hd1); [|lia]. replace (j + q)%nat with (S (j + q - 1)) by lia. cbn. by rewrite Hy.
Qed.

Lemma opendir_spec s path q w : malloc_ok (sys s) = true -> c_opendir path (sys s) = (Some q, w) ->
  exists fh s1 l, xmp_opendir path s = Ret ((0, Some fh), s1) /\ listing w q = Some (l, 0%nat) /\ dirps s !! fh = None /\ dir_inv (dirps s) s1 fh l 0.
Proof.
  intros Hm Ho. destruct (opendir_starts path (sys s) q w Ho) as [l Hl]. exists (fresh (dom (dirps s))), (Daemon (<[fresh (dom (dirps s)) := XmpDirp q None 0]> (dirps s)) w), l.
  split_and!; [|done|apply not_elem_of_dom, is_fresh|].
  - unfold xmp_opendir, malloc_dirp, pbind at 1. rewrite Hm. by rewrite (pbind_ret _ _ _ _ _ (dcall_ret _ _ _ _ Ho)).
  - exists (XmpDirp q None 0), 0%nat. split_and!; [done|done|done|by left].
Qed.
Lemma releasedir_spec m s fh l k : m !! fh = None -> dir_inv m s fh l k -> exists s', xmp_releasedir fh s = Ret (0, s') /\ dirps s' = m.
Proof.
  intros Hm (d & i & Em & _). unfold xmp_releasedir. rewrite (pbind_ret _ _ _ _ _ (get_dirp_ret m s fh d Em)). destruct (c_closedir (dp d) (sys s)) as [r w] eqn:Ec. rewrite (pbind_ret _ _ _ _ _ (dcall_ret _ _ _ _ Ec)).
  exists (Daemon m w). split; [|done]. unfold pbind, free_dirp. cbn [dirps sys]. rewrite Em, lookup_insert_eq, delete_insert_eq. by rewrite delete_id.
Qed.

(** C31: Reading directories through fusexmp_fh.c.  When there is memory and the directory
    can be opened, [xmp_opendir] gives a new handle; every request for the entries from any
    of them on is then answered with exactly these, in order and with the offsets behind
    them, as far as they fit the buffer of the request, whatever was asked for before (an
    entry that did not fit is kept and not lost).  Reading on at the offset of the last
    entry until there are none, with room for one entry in each buffer, gives the whole
    directory once.  [xmp_releasedir] frees the structure, and nothing else is changed. *)
Theorem xmp_readdir_lists_all s path q w : malloc_ok (sys s) = true -> c_opendir path (sys s) = (Some q, w) ->
  exists fh s1 l, xmp_opendir path s = Ret ((0, Some fh), s1) /\ listing w q = Some (l, 0%nat) /\ dirps s !! fh = None /\
  forall fuel reqs rooms, (length l < fuel)%nat -> Forall (fun r => (r.1 <= length l)%nat) reqs -> (forall n f, rooms n [] f = true) ->
  exists s2 s3 s4, requests fuel fh l reqs s1 = Ret (map (fun r => fill r.2 [] (map filled_of (drop r.1 l))) reqs, s2) /\
    read_all fuel (S (length l)) rooms fh 0 [] s2 = Ret (map filled_of l, s3) /\
    xmp_releasedir fh s3 = Ret (0, s4) /\ dirps s4 = dirps s.
Proof.
  intros Hm Ho. destruct (opendir_spec s path q w Hm Ho) as (fh & s1 & l & E1 & Hl & Hfh & Hd1). exists fh, s1, l. split_and!; [done|done|done|]. intros fuel reqs rooms Hf Hreqs Hrooms.
  destruct (requests_spec fuel _ fh l reqs Hf Hreqs s1 _ Hd1) as (s2 & k2 & E2 & Hd2).
  destruct (read_all_spec fuel _ fh l rooms Hf Hrooms (S (length l)) s2 k2 0 0 Hd2 eq_refl ltac:(lia)) as (s3 & k3 & E3 & Hd3).
  destruct (releasedir_spec _ s3 fh l k3 Hfh Hd3) as (s4 & E4 & Hs4). by exists s2, s3, s4.
Qed.
End Listing.

Section Cruise.
Context {W : Type} `{PosixFiles W}.

(** fuse_cruise.c takes offset 0 for "where the descriptor is": a second read of the start
    of a file gives what follows the first. *)
Lemma cruise_read_from_position fh c n off w : 0 <= fh < 2 ^ 31 -> content w fh = Some c -> seek_offset w fh = Some off -> 0 <= n <= MAX_RW_COUNT -> healthy w ->
  exists w', fuse_cruise_read n 0 fh w = Ret ((Z.of_nat (length (read_at c off n)), read_at c off n), w').
Proof.
  intros Hf Hc Ho Hn Hh. unfold fuse_cruise_read. rewrite (swrap_small 32 fh) by lia. pose proof (read_file fh c n off w Hc Ho Hn) as Hr. destruct (healthy_read fh c n off w Hh Hc Ho Hn) as [Hk _].
  unfold pbind, pcall. cbn [Z.gtb Z.compare]. destruct (c_read fh n w) as [[k data] w']. cbn [fst] in Hk. subst k. destruct Hr as (_ & _ & Hd). exists w'.
  pose proof (read_at_le c off n ltac:(lia)). unfold MAX_RW_COUNT in *. rewrite wrap_small, swrap_small by lia. rewrite Hd, Nat2Z.id, firstn_all by lia. done.
Qed.
End Cruise.

(** ** Example: the disk of UsfsWrap with one directory *)

Module FuseExample.
Import UsfsExample.
(** Open files and directory streams, with the entry that is next. *)
Record host := Host { hdisk : disk; streams : gmap Z nat }.
Definition example_entries : list (dirent * Z) := [(Dirent 1 4 (lit "."), 10); (Dirent 2 4 (lit ".."), 20); (Dirent 3 8 (lit "a"), 5); (Dirent 4 8 (lit "b"), 40)].

Definition on_disk {A} (f : disk -> A * disk) (h : host) : A * host := let (a, d) := f (hdisk h) in (a, Host d (streams h)).
#[export] Instance host_posix : Posix host := {|
  err_no := fun h => err_no (hdisk h);
  c_open := fun p f m => on_disk (fun d => if next d <? 2 ^ 31 then if next d <? 0 then (-1, d) else c_open p f m d else (-1, d));
  c_close := fun fd => on_disk (c_close fd);
  c_pread := fun fd n off => on_disk (c_pread fd n off);
  c_pwrite := fun fd bs off => on_disk (c_pwrite fd bs off);
  c_lseek := fun fd off wh => on_disk (c_lseek fd off wh);
  c_read := fun fd n => on_disk (c_read fd n);
  c_write := fun fd bs => on_disk (c_write fd bs);
  c_fsync := fun fd => on_disk (c_fsync fd);
  c_fdatasync := fun fd => on_disk (c_fdatasync fd);
  c_truncate := fun p n => on_disk (c_truncate p n);
  c_ftruncate := fun fd n => on_disk (c_ftruncate fd n);
  c_fstat := fun fd => on_disk (c_fstat fd);
  c_stat := fun p => on_disk (c_stat p);
  c_lstat := fun p => on_disk (c_lstat p);
  c_unlink := fun p => on_disk (c_unlink p);
  c_access := fun p m => on_disk (c_access p m);
  c_readlink := fun p n => on_disk (c_readlink p n);
  c_mount := fun _ _ _ h => h |}.

Definition no_names {A} (a : A) (h : host) : Z * A * host := ((-1, a), h).
Definition stream_at (h : host) (q : Z) : option (list (dirent * Z) * nat) := (fun i => (example_entries, i)) <$> streams h !! q.
Definition index_of (c : Z) : nat :=
  if c =? 0 then 0 else S (default 0%nat (fst <$> list_find (fun x => x.2 = c) example_entries)).

#[export] Instance host_names : PosixNames host := {|
  c_mkfifo := fun _ _ h => (-1, h); c_mknod := fun _ _ _ h => (-1, h); c_mkdir := fun _ _ h => (-1, h); c_rmdir := fun _ h => (-1, h);
  c_symlink := fun _ _ h => (-1, h); c_rename := fun _ _ h => (-1, h); c_link := fun _ _ h => (-1, h); c_chmod := fun _ _ h => (-1, h); c_lchown := fun _ _ _ h => (-1, h);
  statvfs := unit; c_statvfs := fun _ => no_names tt; c_dup := fun fd h => (fd, h); c_flock := fun _ _ h => (0, h);
  flock_t := unit; c_ulockmgr_op := fun _ _ => fun l _ => no_names l;
  c_buf_copy := fun b bs h => let (r, h') := on_disk (c_pwrite (bv_fd b) bs (bv_pos b)) h in (if r =? -1 then - err_no h' else r, h');
  malloc_ok := fun _ => true;
  c_opendir := fun _ h => let q := fresh (dom (streams h)) in (Some q, Host (hdisk h) (<[q := 0%nat]> (streams h)));
  c_readdir := fun q h => match streams h !! q with
    | Some i => match example_entries !! i with Some (e, _) => (Some e, Host (hdisk h) (<[q := S i]> (streams h))) | None => (None, h) end
    | None => (None, h) end;
  c_telldir := fun q h => match streams h !! q with Some i => (default 0 (off_at example_entries i), h) | None => (-1, h) end;
  c_seekdir := fun q c h => Host (hdisk h) (alter (fun _ => index_of c) q (streams h));
  c_closedir := fun q h => (0, Host (hdisk h) (delete q (streams h))) |}.

Lemma disk_read_count w c off n o m : 0 <= n -> -1 <= (disk_read w c off n o m).1.1 <= n.
Proof.
  intros Hn. destruct (disk_read w c off n o m) as [[k d] [c' o']] eqn:E. destruct (disk_read_spec _ _ _ _ _ _ _ _ _ _ E) as (_ & Hk & _).
  pose proof (read_at_le c off n Hn). unfold transfers in Hk. cbn [fst]. lia.
Qed.
Lemma disk_write_count w c off bs o m : -1 <= (disk_write w c off bs o m).1 <= Z.of_nat (length bs).
Proof.
  destruct (disk_write w c off bs o m) as [k [c' o']] eqn:E. destruct (disk_write_spec _ _ _ _ _ _ _ _ _ E) as (Hk & _).
  unfold transfers in Hk. cbn [fst]. lia.
Qed.

Ltac host_call := intros; cbn; unfold on_disk, with_file; cbn; repeat case_match; simplify_eq; cbn; first [lia|by left|by right|idtac].
#[export] Program Instance host_returns : PosixReturns host.
Next Obligation. by right. Qed.
Next Obligation. host_call. Qed.
Next Obligation. by left. Qed.
Next Obligation. by left. Qed.
Next Obligation. by left. Qed.
Next Obligation. host_call. Qed.
Next Obligation. by left. Qed.
Next Obligation. by left. Qed.
Next Obligation. by right. Qed.
Next Obligation. intros p f m h. host_call; bools; lia. Qed.
Next Obligation.
  intros fd n off h Hn. cbn. unfold on_disk, with_file. destruct (files (hdisk h) !! fd) as [[c o]|]; [|cbn; lia].
  pose proof (disk_read_count (hdisk h) c off n o false Hn). by destruct (disk_read _ _ _ _ _ _) as [[k d] x].
Qed.
Next Obligation.
  intros fd n h Hn. cbn. unfold on_disk, with_file. destruct (files (hdisk h) !! fd) as [[c o]|]; [|cbn; lia].
  pose proof (disk_read_count (hdisk h) c o n o true Hn). by destruct (disk_read _ _ _ _ _ _) as [[k d] x].
Qed.
Next Obligation.
  intros fd bs off h. cbn. unfold on_disk, with_file. destruct (files (hdisk h) !! fd) as [[c o]|]; [|cbn; lia].
  pose proof (disk_write_count (hdisk h) c off bs o false). by destruct (disk_write _ _ _ _ _ _) as [k x].
Qed.
Next Obligation.
  intros fd bs h. cbn. unfold on_disk, with_file. destruct (files (hdisk h) !! fd) as [[c o]|]; [|cbn; lia].
  pose proof (disk_write_count (hdisk h) c o bs o true). by destruct (disk_write _ _ _ _ _ _) as [k x].
Qed.
Next Obligation. done. Qed.
Next Obligation. done. Qed.

#[export] Program Instance host_dirs : DirStreams host := {| listing := stream_at |}.
Next Obligation.
  intros h q l i Hl. unfold stream_at in Hl. destruct (streams h !! q); [|done]. injection Hl as <- _. cbn. by apply (bool_decide_unpack _).
Qed.
Next Obligation. intros path h q h' E. injection E as <- <-. exists example_entries. unfold stream_at. cbn. by rewrite lookup_insert_eq. Qed.
Next Obligation.
  intros q h l i e c Hl Hi. unfold stream_at in Hl. cbn. destruct (streams h !! q) as [i'|]; [|done]. injection Hl as <- <-. rewrite Hi. eexists. split; [done|]. unfold stream_at. cbn. by rewrite lookup_insert_eq.
Qed.
Next Obligation.
  intros q h l i Hl Hi. pose proof Hl as Hl'. unfold stream_at in Hl'. cbn. destruct (streams h !! q) as [i'|]; [|done]. injection Hl' as <- <-. rewrite Hi. by exists h.
Qed.
Next Obligation.
  intros q h l i e c Hl Hi. pose proof Hl as Hl'. unfold stream_at in Hl'. cbn. destruct (streams h !! q) as [i'|]; [|done]. injection Hl' as <- ->. unfold off_at. rewrite Hi. by exists h.
Qed.
Next Obligation.
  intros q h l i k c Hl Hk. unfold stream_at in *. cbn. rewrite lookup_alter_eq. destruct (streams h !! q) as [i'|]; [|done]. injection Hl as <- _. cbn. do 2 f_equal.
  do 5 (destruct k as [|k]; [cbn in Hk; by simplify_eq|]). done.
Qed.

Definition example_host : host := Host (Disk {[3 := (lit "hello", 0)]} 4 None) ∅.

Lemma daemons_agree_with_libraries_witness :
  let cs := [COpen (lit "f") 0 0; CWrite 4 (lit "XY") 1; CRead 4 3 0; CClose 4; CRead 4 1 0] in
  exists answers w, lib_run cs (Lib (Some (lit "/d")) example_host) = Ret (answers, Lib (Some (lit "/d")) w) /\
    daemon_run (lit "/d") cs example_host = Ret (answers, w) /\ map a_code answers = [0; 2; 3; 0; -2].
Proof.
  intros cs. destruct (daemons_agree_with_libraries cs (Lib (Some (lit "/d")) example_host) (lit "/d") eq_refl) as [(l & w & E1 & E2) _].
  - cbn [calls_ok cs]. split; [vm_compute; discriminate|]. intros a w E. vm_compute in E. injection E as <- <-.
    split; [split; unfold handle_ok, MAX_RW_COUNT; cbn [length lit]; cbn; lia|]. intros a w E. vm_compute in E. injection E as <- <-.
    split; [split; unfold handle_ok, MAX_RW_COUNT; cbn [length lit]; cbn; lia|]. intros a w E. vm_compute in E. injection E as <- <-.
    split; [vm_compute; reflexivity|]. intros a w E. vm_compute in E. injection E as <- <-.
    split; [split; unfold handle_ok, MAX_RW_COUNT; cbn [length lit]; cbn; lia|]. done.
  - exists l, w. split; [exact E1|]. split; [exact E2|]. vm_compute in E1. injection E1 as <- _. reflexivity.
Defined.

(** Two entries for each request. *)
Definition two (buf : list filled) (_ : filled) : bool := (length buf <? 2)%nat.
Lemma xmp_readdir_lists_all_witness : exists fh s1 s3,
  xmp_opendir (lit "/d") (Daemon ∅ example_host) = Ret ((0, Some fh), s1) /\
  read_all 5 5 (fun _ => two) fh 0 [] s1 = Ret (map filled_of example_entries, s3).
Proof.
  pose (q := fresh (dom (streams example_host))).
  assert (c_opendir (lit "/d") example_host = (Some q, Host (hdisk example_host) (<[q := 0%nat]> (streams example_host)))) as Eo by reflexivity.
  assert (malloc_ok example_host = true) as Em by reflexivity.
  destruct (xmp_readdir_lists_all (Daemon ∅ example_host) (lit "/d") _ _ Em Eo) as (fh & s1 & l & E1 & Hl & _ & Hall).
  unfold listing, host_dirs, stream_at in Hl. cbn [streams] in Hl. rewrite lookup_insert_eq in Hl. injection Hl as <-.
  destruct (Hall 5%nat [] (fun _ => two) ltac:(cbn; lia) (Forall_nil_2 _) ltac:(done)) as (s2 & s3 & s4 & E2 & E3 & _). injection E2 as <-. by exists fh, s1, s3.
Defined.
End FuseExample.
